(* ===== verification/_CoqProject ===== *)
-Q . S2P
Prelude.v
Text.v
Net.v
Url.v
Py.v
Store.v
Ssrf.v
SsrfTheorems.v
ScanJob.v
WebGate.v
WebGateTheorems.v
Notify.v
Fixtures.v
Reporter.v
ReporterTheorems.v
ReporterLimits.v
ReporterRuns.v
Liveness.v
Assignment.v
AssignmentTheorems.v
AlertEval.v
AlertFacts.v
AlertTheorems.v
Ingest.v
IngestTheorems.v
SilenceAlert.v
SilenceTheorems.v
AlertAdmin.v
AlertAdminTheorems.v
Checks.v
ChecksTheorems.v
AgentRun.v
AgentRunTheorems.v
CheckRuns.v
CheckRunsTheorems.v
AgentTasks.v
AgentTasksTheorems.v
Credentials.v
Jobs.v
JobsTheorems.v
Maintenance.v
MaintenanceTheorems.v
StatusPages.v
StatusPagesTheorems.v
Scheduler.v
SchedulerTheorems.v
Scopes.v
ScopesTheorems.v
AgentKeys.v
AgentKeysTheorems.v
Fleet.v
FleetTheorems.v
Accounts.v
AccountsTheorems.v
BulkChecks.v
BulkChecksTheorems.v
RateLimit.v
RateLimitTheorems.v
