(* ===== verification/Prelude.v ===== *)
(** * LuxSwirl: a verification library

    LuxSwirl monitors endpoints.  Agents run checks and report their results to
    a backend; the backend stores them, decides which agent runs which check,
    evaluates alerts on the results and on their absence, and notifies.  This
    library models the decisions of those parts as executable functions and
    proves what they promise.  It is read beside the sources under
    src/apps/agent/app (the agent) and src/apps/backend/app (the backend); the
    paths below are relative to those.

    ** The parts and how they meet

    An agent loads the checks the server sends it and runs each on its interval
    ([AgentRun]), which asks an endpoint and judges its answer ([CheckRuns]),
    connecting only to the addresses it may ([Ssrf]); it queues
    their results and flushes them ([Reporter]).  The backend's ingestion stores
    what the agent may report ([Ingest]) and hands each stored result to the
    alert evaluation ([AlertEval]), which sends through the notification service ([Notify]) and records what it
    did in the notification log.  A scheduled pass ([SilenceAlert]) fires on
    checks and agents that stopped reporting, by the liveness rule ([Liveness])
    that also drives the failover of distributed checks ([Assignment]).  What
    they all read is written by the administration of alerts ([AlertAdmin]) and
    of checks, one at a time ([Checks]) or many ([BulkChecks]), and drawn on the
    status pages ([StatusPages]).  They share one database state, the record [db] of
    [Store]; an operation of a service is a function from [db] to the [db] its
    transaction commits, or to the exception it ends with.

    Agents register, are approved, send heartbeats and are handed jobs with the
    reply ([Fleet] over [Credentials] and [Jobs]): a fleet is a [db] with the
    table of jobs and the metrics.  The agent's side of that, what it holds and
    when it registers or recovers, is [AgentKeys]; it runs the jobs one after another
    and brings the checks' results to its reporter ([AgentTasks]); the one job whose
    code is shared, the network scan, is [ScanJob].  Three tables stand by themselves: the
    maintenance queue and its worker ([Maintenance]), whose jobs run the bulk
    operations with the authority their owner has then, the scheduler's jobs and
    their leases ([Scheduler]), and the accounts of the people and tokens that
    call the API ([Accounts]), whose roles and scopes the gates of the API and
    of the MCP tools judge ([Scopes]).  Before any of it a request passes the
    Host and cross-site checks ([WebGate]) and the rate limits ([RateLimit]).

    ** Files

    - [Prelude]: the error monad [res] and its notations, tactics, the hint
      database [lux], lemmas on lists, adjacency and reachability.
    - [Text], [Py]: the parts of Python the code leans on.  [Text] has
      str(UUID), int(_, 16), strip and join.  [Py] has the values a JSON column
      holds, their equality, order, truth and indexing, each operation raising
      where Python raises; floats are binary64.
    - [Net], [Url]: addresses and networks as ipaddress reads and prints them,
      and urllib.parse's splitting and quoting.
    - [Ssrf], [SsrfTheorems]: src/apps/shared/ssrf.py, ssrf_http.py and
      url_security.py, the agent's checks/_ssrf_policy.py, the backend's
      core/check_target_validator.py.
    - [ScanJob]: src/apps/shared/jobs/network_scan.py and base.py, with its
      properties.
    - [WebGate], [WebGateTheorems]: core/trusted_host.py, core/same_origin.py,
      core/safe_redirect.py and their order in main.py.
    - [Store]: the rows of models/ and the queries of crud/ as functions of the
      stored state; [Fixtures]: small databases the witnesses run on.
    - [Notify]: services/core/notification_core_service.py, the gates, the rate
      limit, the deliveries and the audit rows of one send.
    - [AlertEval]: services/core/alert_evaluation_core_service.py, every method
      the code calls.  [AlertFacts] has its lemmas, [AlertTheorems] its
      properties.
    - [Ingest], [IngestTheorems]: services/core/check_result_core_service.py
      (reports), core/ssl_expiry.py, the idempotent insert of
      crud/check_result_crud.py.
    - [Liveness]: core/liveness.py.
    - [Assignment], [AssignmentTheorems]:
      services/core/agent_assignment_core_service.py.
    - [SilenceAlert], [SilenceTheorems]:
      services/core/silence_alert_core_service.py.
    - [AlertAdmin], [AlertAdminTheorems]: services/core/alert_core_service.py,
      the writes of crud/alert_crud.py, the normal forms of
      schemas/alert_trigger_config_schema.py, core/synthetic_guard.py.
    - [Checks], [ChecksTheorems]: services/core/check_core_service.py (create,
      clone, update, delete, bulk toggle and delete),
      services/core/check_dependency_core_service.py, core/check_config.py, the
      writes of crud/check_crud.py.
    - [BulkChecks], [BulkChecksTheorems]: the rest of
      services/core/check_core_service.py, services/core/_check_bulk_names.py,
      services/core/check_transfer_core_service.py,
      services/core/admin_check_core_service.py and the handlers of
      background/maintenance_handlers.
    - [StatusPages], [StatusPagesTheorems]:
      services/core/status_page_core_service.py,
      services/core/admin_status_page_core_service.py, the edits of
      web/routers/status_pages_router.py, and of the views who may see a page
      and the bars it is drawn with.
    - [Reporter], [ReporterTheorems], [ReporterLimits], [ReporterRuns]:
      agent/reporter.py, agent/dead_letter.py, agent/result_limits.py.
    - [AgentRun], [AgentRunTheorems]: services/core/check_api_core_service.py,
      agent/check_manager.py, the validate_config of checks/, the loop of
      agent/core.py, agent/check_executor.py.
    - [CheckRuns], [CheckRunsTheorems]: the run of checks/http.py, json.py, tcp.py,
      ping.py, dns.py, mysql.py and postgres.py, checks/base.py and
      checks/_ssrf_http.py.
    - [AgentTasks], [AgentTasksTheorems]: agent/job_processor.py,
      agent/result_processor.py and the queue a shutdown empties in
      agent/lifecycle.py.
    - [AgentKeys], [AgentKeysTheorems]: agent/credentials.py,
      agent/registration.py, and what agent/heartbeat.py, agent/http_client.py
      and agent/check_manager.py do with the credentials.
    - [RateLimit], [RateLimitTheorems]: core/rate_limit.py,
      core/rate_limit_format.py and the limits of mcp/server.py.
    - [Credentials]: core/agent_key.py, core/recovery_secret.py,
      core/bcrypt_secret.py, services/core/registration_key_core_service.py and
      the agents' authentication of core/security.py and api/deps.py.
    - [Jobs], [JobsTheorems]: services/core/job_core_service.py over
      crud/job_crud.py.
    - [Maintenance], [MaintenanceTheorems]:
      services/core/maintenance_job_core_service.py and
      background/maintenance_worker.py.
    - [Scheduler], [SchedulerTheorems]: services/core/scheduler_core_service.py
      over crud/scheduler_crud.py.
    - [Scopes], [ScopesTheorems]: core/authorization/scopes.py, the scope and
      role gates of api/deps.py, mcp/authorization and the dispatch of
      mcp/server.py.
    - [Fleet], [FleetTheorems]: services/core/agent_core_service.py,
      services/core/admin_agent_core_service.py (act) and the clean-up of silent
      agents of services/core/cleanup_core_service.py.
    - [Accounts], [AccountsTheorems]: services/core/auth_core_service.py,
      user_core_service.py, api_token_core_service.py and their tables.

    ** State and operations

    A row is a record with the columns the modelled code uses; its fields carry
    the table's prefix (al_ for alerts, ck_ for checks, ag_ for agents, nl_ for
    the notification log).  Identifiers are numbers, times are microseconds.  A
    definition has the name of the method it models, without a leading
    underscore.  The backend's methods are in the monad [res]; those of the
    reporter are in a monad that carries the record [reporter] (the queue, the
    two SQLite tables, the counters) through exceptions, since a Python object
    keeps what was assigned before a raise.  An operation of the backend that
    raises commits nothing.

    The tables of [Jobs], [Maintenance] and [Scheduler] are maps, and their
    processes transition systems over them (job_step, [world_step],
    [sched_step]); so are the services of [Fleet] and [Accounts] ([fleet_step],
    [account_step]).

    Several definitions take an environment:
    - [PyRuntime]: str and repr of a value, float of a text, json.loads, SHA-256
      and isoformat.  [PyRuntimeLaws] has the documented facts that a few
      theorems need; none of them says that digests differ.
    - [ServerSettings]: the settings the liveness rule reads.
    - [wire] (Notify): what a provider's send answers or raises.
    - [Pydantic] with its laws [PydanticLaws] (AlertAdmin): the validation of
      a trigger configuration.
    - [env] (Reporter): the server's replies, the disk's failures, the clock
      and the stop flag, each read at the next tick, so that every interleaving
      of these with the reporter's steps is one [env].
    - the verdicts of the SSRF and script validators, and of pydantic on a
      cloned check (Checks) and on an agent's tags (Fleet).
    - [Bcrypt] with its laws [BcryptLaws] (Credentials): hashpw and checkpw.
      Random texts (keys, secrets, tokens, salts) and uuids are arguments.
    - [JobEnv] (Jobs): pydantic's verdict on a job's parameters, the enrichment
      of its result, two settings.
    - [WorkerEnv] (Maintenance): how a handler ends, the masks of an error's
      text, whether a row's parameters decrypt.
    - [Zones] (Scheduler): the local time of an instant and back.
    - [Sockets] (Ssrf): the resolver and which addresses answer; [Probes]
      (ScanJob): ping, reverse lookup and port probes; [Starlette] (WebGate): the
      framework's own host middleware, of which [StarletteLaws] says that it lets
      a listed host and the lifespan through and redirects to a listed www. name.
    - [Limits] (RateLimit): the limits library's storage, with the laws the code
      relies on.
    - [Surroundings] (AgentKeys): the server's answers, the files and the clock
      at each tick; [MonotonicClock] says that clock does not go back.
    - [CheckEnv] and [Httpx] (CheckRuns): re.search, json.dumps, JSONata and the
      text of an exception; the requests httpx builds and the redirects it reads.
      What a socket, a driver or a command answers to an attempt is one record,
      [network].  [SocketLaws] says what getaddrinfo raises, [AsyncpgLaws] which of
      asyncpg's errors the server reports.
    - [Handlers] (AgentTasks): the classes of the jobs; [Encoders]: base64 and the
      dates of artifacts.
    - [Submissions] (Ingest): pydantic's verdict on a result, the reading of ids
      and dates; [Drivers] (AgentRun): which database drivers are installed.
    - [PageInput] (StatusPages): pydantic's verdict on a group's name and on a
      filter, UUID(s), and what the Unicode tables say of characters past ASCII;
      [BulkInput] (BulkChecks): pydantic's verdicts on what the bulk operations
      build, the validators, mask_credentials, and what pydantic takes for an int,
      a bool or a UUID, with the laws [ReadLaws] for the values JSON has.
    A wait for a row's lock that ran out is an argument of the operation
    (Accounts, StatusPages); what another transaction commits between two steps of one is a
    step of its own where the code allows it (the dispatch of [Jobs], the worker
    of [Maintenance], the runs of [Scheduler], the heartbeat's check and its
    processing in [FleetTheorems]).
    Each has a concrete instance on which the witnesses evaluate.

    ** What the theorems show

    Alerts.  The rows an evaluation adds for an alert and a check form a chain:
    each next row is the same firing through another provider, a changed state,
    or a resend at least an interval later and counted one higher
    ([audit_rows_chain]); a state is announced once ([notified_once]) and resends are bounded
    ([resends_bounded]).  A new state is announced ([state_change_notifies]),
    except while the parent is down or the pair is snoozed
    ([parent_down_suppresses], [snoozed_is_silent]).  Evaluation only appends,
    and one failing alert does not stop the others.

    Silence.  The two-phase decision with its bounded look-back decides what a
    direct reading of the newest result decides ([no_data_refines]); a silent
    episode is announced once, its end once and only if its start was, and the
    checks of an offline agent stay quiet.

    Placement.  The table of an agent's checks and the table of a check's agents
    are one relation ([placements_agree]).  A distributed check has an owner
    whenever its pool has an agent; a change of the pool moves only the checks
    it has to ([minimal_movement]), failover included.  The configuration
    version digests a text that changes exactly when the agent has something to
    fetch ([config_text_tracks]).

    Administration.  The constraints of the alert-check pairs hold along every
    sequence of operations ([pairs_invariant]); dependencies stay one level deep
    and acyclic ([dependencies_single_level]); a non-admin never creates, changes
    or deletes a synthetic check, except through the foreign key of a deleted
    parent ([synthetic_is_admins], [deletion_frees_synthetic]); a check holds the
    configuration of its own type and no other ([checks_hold_their_own]); what
    the administration stores, evaluation can read ([stored_config_evaluates]).

    Many checks at once.  A bulk change does to each check of its list what the
    update of that check alone does, and counts as changed those it changed
    ([bulk_modify_exact]); a bulk creation accounts for every URL and gives each
    a name that is free ([bulk_creation_accounted], [unused_name_free]); an import
    keeps the names of an agent distinct ([import_keeps_names]) and what is
    exported, as JSON, is read and imported again ([export_import_roundtrip]).  A check written with
    its alerts has them ([created_with_its_alerts]); a queued bulk job acts with
    the authority its owner has when it runs ([bulk_jobs_authority]), and a
    selection is judged whole before any of it is changed
    ([judged_selection_whole]).

    Status pages.  A page's slug stays unique and of the characters the schema
    takes (letters of any alphabet, [accented_slug_stored]), its items within
    their limits, along every sequence of edits ([status_pages_hold]); a reordering keeps every
    item ([reorder_keeps_everything]); an edit by position changes nothing unless
    the page is the one that was drawn ([drawn_page_unchanged]); a private page is
    shown to those who signed in ([public_view_guarded]); a bar shows the result
    nearest to its minute ([minute_bars_nearest]).

    Delivery.  A flush ends, and every queued result is then taken by the server,
    kept for replay, dead-lettered, or counted under a named loss
    ([flush_conserves]); on a working disk the replay keeps every stored result
    but the oldest dead letters a full table gives up ([replay_conserves]) and,
    when the disk or a reply fails it, delivers at least once, save a result the
    server turned down whose dead letter could not be written
    ([replay_at_least_once]); so along any sequence of operations
    every result ever queued is accounted for ([every_result_accounted]).
    Splitting a batch the server finds too large terminates and keeps the order.
    The one way found to lose a batch uncounted, a reply whose error field is an
    object or a list, is excluded by a hypothesis of these theorems
    ([readable_replies]) and is the subject of [unhashable_error_loses_batch].
    Only the server's refusal dead-letters; the queue, the tables and each result
    keep to their limits.

    Ingestion.  A report stores only results of checks its agent may report, each
    (check, time) once, and counts every result sent ([report_accounted]); sent
    again it changes nothing ([report_again_changes_nothing]), and the rows do
    not depend on how reports are cut, repeated and interleaved
    ([ingestion_order_free]).  The certificate stored is one the expiry alerts
    read ([ingested_certificate]).

    Running checks.  A check reaches its agent as it is stored
    ([served_check_arrives]); checks of distinct names run as if each had a timer
    of its own ([loop_is_timers], [checks_keep_their_cadence]); a run retries
    only while it can end before the next ([retries_fit_the_interval]) and is
    reported once ([run_reported_once]).

    What a check measures.  Whatever the network answers but one thing
    ([undecodable_answer_crashes]), the run of a check the server sent, other than
    a synthetic one, ends with a success without an error or a failure that says
    why, unless the policy or the configuration forbids it
    ([served_run_reports]); an
    HTTP check passes exactly when its one request is answered with the stored
    status ([served_http_verdict]), a JSON check when the stored path finds what the
    stored text says ([served_json_verdict]); with every option a configuration may
    hold, [http_verdict], [json_verdict], [tcp_verdict] and [expectation_met] say
    what passes.  Redirects are followed one at a time, no more than twenty
    ([redirects_followed]).

    The agent's jobs and results.  Every job enqueued waits, runs, was cut off by a
    stop, was dropped for a type that cannot be looked up, or had one result posted,
    and each count reaches one heartbeat ([jobs_accounted]); the
    best job is taken first ([best_job_first]), so a heartbeat's jobs in the order
    the server sent them ([batch_runs_as_sent]).  A result's artifacts follow it,
    under its id ([artifacts_follow_their_result]); a shutdown hands over what is
    left ([drain_takes_all]).

    Addresses.  The guard against metadata addresses covers every way an IPv6
    address carries one ([overlap_exact]); a connection is tried only to
    addresses that were vetted ([vetted_connection]), and a network scan sends
    nothing to a metadata range ([scan_never_reaches_metadata]).

    Requests.  A request is served only under an allowed host
    ([gate_host_served]); whether a browser's request counts as cross-site is
    decided by its headers as the code documents ([page_request_decided]); a
    redirect target stays on the site ([safe_redirect_stays]).  Refused
    credentials of one key are bounded by its limits however many requests are
    in flight ([refusals_bounded]), and right ones cost nothing
    ([right_credentials_free]).

    An agent's credentials.  What it holds is what it saved or will save again
    ([credentials_kept]); the recovery secret goes out only when its key is in
    doubt ([secret_only_in_doubt]), which a key recovered over a refused secret
    inherits ([recovered_key_inherits_doubt]); recoveries are spaced further and further
    ([recoveries_spaced]).

    Agents.  Statuses move along the documented lifecycle only
    ([agent_lifecycle]); names stay distinct; a non-admin never starts a
    synthetic check on an agent ([nonadmin_places_no_synthetic]); a heartbeat is
    accepted by the key the agent has when it is processed, not by the one it
    had when it was checked ([heartbeat_current_credential]).  The secret handed
    out at registration recovers a key as long as it is on record, and nothing
    does after a revoke ([recovery_roundtrip], [revoke_is_final]); a deletion
    takes everything of the agent ([delete_takes_all]).

    Jobs, maintenance, scheduler.  A job moves down its lifecycle, is handed out
    once and best first ([job_lifecycle], [dispatched_once],
    [dispatch_best_first]).  At most one maintenance row is in flight for a
    target ([one_job_in_flight]), the worker drains its queue
    ([worker_drains]) and a restart reaps what the last process left.  A run
    that holds an unexpired lease is the only one of its job ([lease_excludes]);
    the loop that computes the next run ends on the interval's grid
    ([interval_grid]); failures back off and turn a job off
    ([failures_back_off]).

    Accounts.  The wrong guesses at one account that are judged are counted, and
    bounded by its limit and the lock's length ([guess_budget]); there is always an active admin
    ([an_admin_remains]); a password's end takes every session and token along
    ([password_ends_credentials]); tokens and sessions verify as what they were
    issued for ([token_roundtrip], [session_roundtrip]).  A scope set grants
    exactly what its atoms and wildcards cover ([scope_grants_iff]), and an MCP
    call never reaches past them ([mcp_narrows]).

    The theorems of the sections on divergences and of [ReporterLimits] also
    record where the code does not do what its documents say.

    ** Bounds and fuel

    [parts_loop], the stack of half batches, is the one loop of the reporter with fuel.
    [send_in_parts] gives it the sum over the stack of twice a part's length less
    one, which every step lowers; and [parts_terminate_in_order] shows that it is never used up: no run ends
    with [OutOfFuel].  [catch_up] (Scheduler) adds an interval until it is past
    the present; [catch_up_fuel] is the number of intervals that fit between,
    plus one, and [interval_grid] shows it is enough.  [next_unused]
    (BulkChecks) counts up to a free number, which is reached within as many
    numbers as are taken, plus two ([next_unused_total]).  The retry loop runs on the
    configured number of attempts, and every other recursion is structural.

    ** Not modelled

    SQL beyond the order and filters of the queries used; row locks and
    savepoints (an operation sees the state of its transaction); SMTP and HTTP;
    message templates; text beyond ASCII, where the code's lengths count
    characters and the model's bytes (but for the status pages, whose texts are
    read as UTF-8); the migration of old report files; the metrics of
    the agent's own health; the waiting loops of its tasks; logging.

    Whole parts left out: the final heartbeat of the agent's shutdown and its waits;
    the table of settings and the provider administration, whose values are read as
    parameters; the views other than the status pages', which draw what is
    stored; the synthetic scripts, which a separate runtime executes; the routers
    and the command line, which bind requests to the services; the migrations.
    [AgentKeys] and [Fleet], the two ends of a heartbeat, are each proved against
    every answer of the other and are not composed. *)

From stdpp Require Export prelude base gmap sets list strings fin_maps pretty sorting.
From Stdlib Require Export ZArith Lia.

Set Default Goal Selector "!".

(** ** Exceptions and the error monad

    A Python function that may raise returns [res A]. *)

Inductive exn :=
  | TypeError
  | ValueError
  | KeyError
  | AttributeError
  | OverflowError
  | NotFoundException
  | ValidationException (msg : string)
  | AuthorizationException
  | IntegrityError
  | DataError               (* the database: a value its column cannot hold *)
  | DecodingError           (* what a codec that decodes no text raises *)
  | OperationalError        (* sqlite3: the disk failed *)
  | RuntimeError (msg : string)
  | DatabaseException
  | AuthenticationException
  | RecoverySecretRefusedException
  | DuplicateResourceException
  | StalePageException
  | JobFinishedException
  | SchedulerJobBusyException
  | LastActiveAdminException
  | LoginBusyException
  | HTTPException (status_code : Z) (refusal : string)   (* the refusal header's value *)
  | OutOfFuel               (* no Python exception: a model's loop bound *)
  | SsrfBlockedError        (* a ValueError *)
  | CheckTargetBlockedError (* a ValueError *)
  | CheckConfigError
  | OSError
  | ConnectError
  | TimeoutError
  | PatternError            (* re.error *)
  | DeliveryError (msg : string).

#[global] Instance exn_eq_dec : EqDecision exn.
Proof. solve_decision. Defined.

Inductive res (A : Type) :=
  | Ok (a : A)
  | Raise (e : exn).
Arguments Ok {A} a.
Arguments Raise {A} e.

#[global] Instance res_ret : MRet res := fun _ a => Ok a.
#[global] Instance res_bind : MBind res :=
  fun _ _ f r => match r with Ok a => f a | Raise e => Raise e end.
#[global] Instance res_fmap : FMap res :=
  fun _ _ f r => match r with Ok a => Ok (f a) | Raise e => Raise e end.

#[global] Instance res_eq_dec {A} `{EqDecision A} : EqDecision (res A).
Proof. solve_decision. Defined.

(** [for x in l: body] over a state that the body may refuse by raising. *)
Fixpoint fold_res {S X} (f : S -> X -> res S) (s : S) (l : list X) : res S :=
  match l with
  | [] => Ok s
  | x :: l' => s' ← f s x; fold_res f s' l'
  end.

(** [[f x for x in l]] where [f] may raise: the first exception wins. *)
Fixpoint map_res {X Y} (f : X -> res Y) (l : list X) : res (list Y) :=
  match l with
  | [] => Ok []
  | x :: l' => y ← f x; ys ← map_res f l'; Ok (y :: ys)
  end.

(** [[x for x in l if f(x)]] where [f] may raise. *)
Fixpoint filter_res {X} (f : X -> res bool) (l : list X) : res (list X) :=
  match l with
  | [] => Ok []
  | x :: l' => b ← f x; xs ← filter_res f l'; Ok (if (b : bool) then x :: xs else xs)
  end.

(** ** Tactics *)

(** Case on the scrutinee of some [match]/[if] of the goal or of [H]. *)
Ltac case_goal :=
  match goal with
  | |- context [match ?x with _ => _ end] => destruct x eqn:?
  end.
Ltac case_in H :=
  match type of H with
  | context [match ?x with _ => _ end] => destruct x eqn:?
  end.
(** Invert a chain of monadic binds that ended in [Ok]. *)
Ltac inv_res :=
  repeat match goal with
  | H : mbind _ ?r = Ok _ |- _ =>
      let E := fresh "E" in destruct r eqn:E; cbn in H; [|discriminate H]
  | H : Ok _ = Ok _ |- _ => injection H as H; try subst
  | H : Raise _ = Ok _ |- _ => discriminate H
  | H : Ok _ = Raise _ |- _ => discriminate H
  end.

Create HintDb lux.
Create HintDb ends.
Create HintDb keeps.

(** ** Generic list lemmas *)

Lemma fold_res_app {S X} (f : S -> X -> res S) s l1 l2 :
  fold_res f s (l1 ++ l2) = s' ← fold_res f s l1; fold_res f s' l2.
Proof.
  revert s. induction l1 as [|x l1 IH]; intros s; cbn; [done|].
  destruct (f s x); cbn; [apply IH|done].
Qed.

(** An invariant kept by every step that succeeds is kept by the loop. *)
Lemma fold_res_ind {S X} (P : S -> Prop) (f : S -> X -> res S) l s s' :
  (forall s x s', x ∈ l -> P s -> f s x = Ok s' -> P s') ->
  P s -> fold_res f s l = Ok s' -> P s'.
Proof.
  revert s. induction l as [|x l IH]; intros s Hf Hs; cbn; [by intros [= <-]|].
  destruct (f s x) as [s1|] eqn:E; cbn; [|done]. intros Hl.
  eapply IH; [|eapply Hf; [left|exact Hs|exact E]|exact Hl].
  intros; eapply Hf; eauto. by right.
Qed.

Lemma Forall_map_all {A B} (f : A -> B) (P : B -> Prop) l :
  (forall x, P (f x)) -> Forall P (map f l).
Proof. intros Hf. induction l; constructor; auto. Qed.

Lemma Forall_map_elem {A B} (f : A -> B) (P : B -> Prop) l :
  (forall x, x ∈ l -> P (f x)) -> Forall P (map f l).
Proof.
  induction l as [|y l IH]; intros H; constructor; [apply H; left|].
  apply IH. intros x Hx. apply H. by right.
Qed.

Lemma map_res_length {X Y} (f : X -> res Y) l ys : map_res f l = Ok ys -> length ys = length l.
Proof.
  revert ys. induction l as [|x l IH]; intros ys; cbn; [by intros [= <-]|].
  destruct (f x); cbn; [|done]. destruct (map_res f l); cbn; [|done].
  intros [= <-]. cbn. f_equal. by apply IH.
Qed.

Lemma map_res_all_ok {X Y} (f : X -> res Y) l :
  (forall x, x ∈ l -> exists y, f x = Ok y) -> exists ys, map_res f l = Ok ys.
Proof.
  induction l as [|x l IH]; intros H; cbn; [by eauto|].
  destruct (H x) as [y ->]; [left|]. destruct IH as [ys ->]; [|by cbn; eauto].
  intros z Hz. apply H. by right.
Qed.

Lemma map_res_elem {X Y} (f : X -> res Y) l ys y :
  map_res f l = Ok ys -> y ∈ ys <-> exists x, x ∈ l /\ f x = Ok y.
Proof.
  revert ys. induction l as [|x l IH]; intros ys; cbn.
  { intros [= <-]. split; [by intros ?%elem_of_nil|]. by intros (?&?%elem_of_nil&_). }
  destruct (f x) as [y0|] eqn:Ef; cbn; [|done]. destruct (map_res f l) as [ys0|]; cbn; [|done].
  intros [= <-]. rewrite elem_of_cons, (IH _ eq_refl). split.
  - intros [->|(z&?&?)]; [exists x; split; [left|done]|exists z; split; [by right|done]].
  - intros (z & [->|Hz]%elem_of_cons & Hf); [left; congruence|right; eauto].
Qed.

Lemma map_res_each {X Y} (f : X -> res Y) l ys x :
  map_res f l = Ok ys -> x ∈ l -> exists y, f x = Ok y.
Proof.
  revert ys. induction l as [|z l IH]; intros ys; cbn; [by intros _ ?%elem_of_nil|].
  destruct (f z) as [y0|] eqn:Ef; cbn; [|done]. destruct (map_res f l) as [ys0|]; cbn; [|done].
  intros _ [->|Hx]%elem_of_cons; eauto.
Qed.

(** What a filter whose test may raise keeps, and that no test it ran raised. *)
Lemma filter_res_spec {X} (f : X -> res bool) l l' :
  filter_res f l = Ok l' ->
  (forall x, x ∈ l -> exists b, f x = Ok b) /\
  (forall x, x ∈ l' <-> x ∈ l /\ f x = Ok true).
Proof.
  revert l'. induction l as [|y l IH]; intros l'; cbn.
  { intros [= <-]. split; intros x; [by intros ?%elem_of_nil|]. rewrite elem_of_nil. tauto. }
  destruct (f y) as [b|] eqn:Ef; cbn; [|done].
  destruct (filter_res f l) as [l0|]; cbn; [|done]. intros [= <-].
  destruct (IH _ eq_refl) as [IH1 IH2]. split.
  - intros x [->|Hx]%elem_of_cons; eauto.
  - intros x. destruct b; rewrite ?elem_of_cons, IH2; (split; [|]).
    + intros [->|[? ?]]; tauto.
    + intros [[->|?] ?]; tauto.
    + tauto.
    + intros [[->|?] ?]; [congruence|done].
Qed.

Lemma filter_res_sublist {X} (f : X -> res bool) l l' : filter_res f l = Ok l' -> l' `sublist_of` l.
Proof.
  revert l'. induction l as [|y l IH]; intros l'; cbn; [by intros [= <-]|].
  destruct (f y) as [b|]; cbn; [|done]. destruct (filter_res f l) as [l0|]; cbn; [|done].
  intros [= <-]. destruct b; constructor; by apply IH.
Qed.

Lemma filter_res_total {X} (f : X -> res bool) l :
  (forall x, x ∈ l -> exists b, f x = Ok b) -> exists l', filter_res f l = Ok l'.
Proof.
  induction l as [|x l IH]; intros H; cbn; [by eauto|].
  destruct (H x) as [b ->]; [left|]. destruct IH as [l' ->]; [|by cbn; eauto].
  intros z Hz. apply H. by right.
Qed.

(** Newest-first order by an integer key, as [ORDER BY k DESC]; equal keys keep
    the later-inserted row first (SQL leaves the order of ties open). *)
Section OrderDesc.
Context {A : Type} (key : A -> Z).

Fixpoint insert_desc (x : A) (l : list A) : list A :=
  match l with
  | [] => [x]
  | y :: l' => if (key y <=? key x)%Z then x :: l else y :: insert_desc x l'
  end.

Fixpoint order_desc_acc (l acc : list A) : list A :=
  match l with
  | [] => acc
  | x :: l' => order_desc_acc l' (insert_desc x acc)
  end.

Definition order_desc (l : list A) : list A := order_desc_acc l [].

Lemma insert_desc_perm x l : insert_desc x l ≡ₚ x :: l.
Proof.
  induction l as [|y l IH]; cbn; [done|]. destruct (_ <=? _)%Z; [done|].
  rewrite IH. apply perm_swap.
Qed.

Lemma order_desc_acc_perm l acc : order_desc_acc l acc ≡ₚ l ++ acc.
Proof.
  revert acc. induction l as [|x l IH]; intros acc; cbn; [done|].
  rewrite IH, insert_desc_perm. by rewrite Permutation_middle.
Qed.

Lemma order_desc_perm l : order_desc l ≡ₚ l.
Proof. unfold order_desc. by rewrite order_desc_acc_perm, app_nil_r. Qed.

Lemma order_desc_acc_snoc l x acc :
  order_desc_acc (l ++ [x]) acc = insert_desc x (order_desc_acc l acc).
Proof. revert acc. induction l as [|y l IH]; intros acc; cbn; [done|]. apply IH. Qed.

Lemma order_desc_snoc l x : order_desc (l ++ [x]) = insert_desc x (order_desc l).
Proof. apply order_desc_acc_snoc. Qed.

Lemma insert_desc_top x l :
  Forall (fun y => key y <= key x)%Z l -> insert_desc x l = x :: l.
Proof.
  destruct l as [|y l]; cbn; [done|]. intros H. inversion_clear H.
  by rewrite (proj2 (Z.leb_le _ _)).
Qed.

Lemma order_desc_snoc_top l x :
  Forall (fun y => key y <= key x)%Z l -> order_desc (l ++ [x]) = x :: order_desc l.
Proof.
  intros H. rewrite order_desc_snoc. apply insert_desc_top.
  eapply Permutation_Forall; [symmetry; apply order_desc_perm|done].
Qed.

Lemma head_order_desc_elem l x : head (order_desc l) = Some x -> x ∈ l.
Proof.
  intros H. rewrite <- order_desc_perm.
  destruct (order_desc l) as [|y ys]; [done|]. cbn in H. injection H as ->. left.
Qed.

Lemma head_order_desc_None l : head (order_desc l) = None <-> l = [].
Proof.
  split.
  - intros H. pose proof (order_desc_perm l) as HP.
    destruct (order_desc l); [|done]. by apply Permutation_nil_l in HP.
  - by intros ->.
Qed.
End OrderDesc.


(** ** The greatest of a list

    [max(l)] of integers, [None] for an empty list (SQL's [max]). *)
Definition newest (l : list Z) : option Z :=
  match l with [] => None | x :: l' => Some (fold_left Z.max l' x) end.

Lemma fold_max_spec l x :
  fold_left Z.max l x ∈ x :: l /\ Forall (fun y => y <= fold_left Z.max l x)%Z (x :: l).
Proof.
  revert x. induction l as [|y l IH]; intros x; cbn.
  { split; [left|]. by repeat constructor. }
  destruct (IH (Z.max x y)) as [Hin Hall]. inversion_clear Hall as [|? ? Hm Hall'].
  split; [|repeat constructor; [lia..|done]].
  apply elem_of_cons in Hin as [E|Hin]; [|by right; right]. rewrite E.
  destruct (Z.max_spec x y) as [[_ ->]|[_ ->]]; [right; left|left].
Qed.

Lemma newest_Some l m : newest l = Some m <-> m ∈ l /\ Forall (fun y => y <= m)%Z l.
Proof.
  destruct l as [|x l]; cbn.
  { split; [done|]. by intros [?%elem_of_nil _]. }
  destruct (fold_max_spec l x) as [Hin Hall]. split; [by intros [= <-]|].
  intros [Hm Hle]. f_equal. rewrite Forall_forall in Hall, Hle.
  pose proof (Hall m Hm). pose proof (Hle _ Hin). cbn in *. lia.
Qed.

Lemma newest_None l : newest l = None <-> l = [].
Proof. by destruct l. Qed.

(** Predicates that agree on a list's elements filter it alike. *)
Lemma filter_agree {A} (P Q : A -> Prop) `{!forall x, Decision (P x), !forall x, Decision (Q x)} (l : list A) :
  (forall x, x ∈ l -> P x <-> Q x) -> filter P l = filter Q l.
Proof.
  induction l as [|x l IH]; intros Hpq; [done|].
  assert (Hl : filter P l = filter Q l) by (apply IH; intros y Hy; apply Hpq; by right).
  specialize (Hpq x ltac:(left)). destruct (decide (P x)).
  - rewrite !filter_cons_True by tauto. by rewrite Hl.
  - rewrite !filter_cons_False by tauto. done.
Qed.

(** ** Adjacent elements

    [adjacent R l]: every two neighbours of [l] are related by [R]. *)
Section Adjacent.
Context {A : Type} (R : A -> A -> Prop).

Definition adjacent (l : list A) : Prop :=
  forall l1 x y l2, l = l1 ++ x :: y :: l2 -> R x y.

Lemma adjacent_nil : adjacent [].
Proof. intros [|??] ????; done. Qed.

Lemma adjacent_cons x l :
  adjacent (x :: l) <-> (forall y l', l = y :: l' -> R x y) /\ adjacent l.
Proof.
  split.
  - intros H. split.
    + intros y l' ->. by apply (H [] x y l').
    + intros l1 y z l2 ->. by apply (H (x :: l1) y z l2).
  - intros [H1 H2] [|z l1] y y' l2; cbn; intros [= -> ->]; [by eapply H1|by eapply H2].
Qed.

Lemma adjacent_snoc l x :
  adjacent (l ++ [x]) <-> adjacent l /\ (forall y, last l = Some y -> R y x).
Proof.
  split.
  - intros H. split.
    + intros l1 y z l2 ->. apply (H l1 y z (l2 ++ [x])). by rewrite <- (assoc_L (++)).
    + intros y [l' ->]%last_Some. apply (H l' y x []). by rewrite <- (assoc_L (++)).
  - intros [H1 H2] l1 y z l2 Heq.
    destruct l2 as [|w l2] using rev_ind.
    + change (l1 ++ [y; z]) with (l1 ++ [y] ++ [z]) in Heq.
      rewrite (assoc_L (++)) in Heq. apply app_inj_tail in Heq as [-> ->].
      apply H2. apply last_snoc.
    + clear IHl2. rewrite (app_assoc _ (y :: z :: l2) [w]) in Heq.
      apply app_inj_tail in Heq as [-> _]. by apply (H1 l1 y z l2).
Qed.

Lemma adjacent_app l m :
  adjacent (l ++ m) <->
  adjacent l /\ adjacent m /\ (forall x y, last l = Some x -> head m = Some y -> R x y).
Proof.
  revert l. induction m as [|y m IH]; intros l.
  - rewrite app_nil_r. split; [|tauto]. intros H. split; [done|].
    split; [apply adjacent_nil|done].
  - rewrite (app_assoc l [y] m : l ++ y :: m = (l ++ [y]) ++ m).
    rewrite IH, adjacent_snoc, adjacent_cons, last_snoc. split.
    + intros ((Hl & Hy) & Hm & Hj). split; [done|]. split; [split; [|done]|].
      * intros z l' ->. by apply Hj.
      * intros x z Hx [= <-]. by apply Hy.
    + intros (Hl & (Hy & Hm) & Hj). split; [split; [done|]|].
      * intros x Hx. by apply Hj.
      * split; [done|]. intros x z [= <-] Hz. destruct m; [done|].
        cbn in Hz. injection Hz as ->. by eapply Hy.
Qed.

(** A block of elements all related to one another. *)
Lemma adjacent_block l : (forall x y, x ∈ l -> y ∈ l -> R x y) -> adjacent l.
Proof.
  intros H l1 x y l2 ->. apply H; rewrite elem_of_app, !elem_of_cons; auto.
Qed.
End Adjacent.

(** Appending in key order makes the last appended the newest. *)
Lemma order_desc_ascending {A} (key : A -> Z) l :
  adjacent (fun x y => key x <= key y)%Z l -> order_desc key l = reverse l.
Proof.
  induction l as [|x l IH] using rev_ind; intros H; [done|].
  apply adjacent_snoc in H as [Hl Hx]. rewrite reverse_snoc, order_desc_snoc_top.
  - by rewrite IH.
  - clear IH. revert x Hx. induction l as [|y l IH] using rev_ind; intros x Hx; [constructor|].
    apply adjacent_snoc in Hl as [Hl Hy]. rewrite last_snoc in Hx.
    pose proof (Hx y eq_refl) as Hyx. apply Forall_app; split; [|by constructor].
    eapply Forall_impl; [exact (IH Hl y Hy)|]. cbn. intros; lia.
Qed.

Lemma head_order_desc_ascending {A} (key : A -> Z) l :
  adjacent (fun x y => key x <= key y)%Z l -> head (order_desc key l) = last l.
Proof. intros H. by rewrite order_desc_ascending, head_reverse. Qed.

Lemma adjacent_impl {A} (R R' : A -> A -> Prop) l :
  (forall x y, R x y -> R' x y) -> adjacent R l -> adjacent R' l.
Proof. intros H Hl l1 x y l2 Heq. apply H. by eapply Hl. Qed.

(** ** Reachability

    Zero or more steps of a transition relation. *)
Section Star.
Context {A : Type} (R : A -> A -> Prop).

Inductive star : A -> A -> Prop :=
  | star_refl s : star s s
  | star_step s1 s2 s3 : R s1 s2 -> star s2 s3 -> star s1 s3.

Lemma star_invariant (P : A -> Prop) s s' :
  (forall x y, R x y -> P x -> P y) -> star s s' -> P s -> P s'.
Proof. intros Hstep. induction 1; eauto. Qed.

Lemma star_one s s' : R s s' -> star s s'.
Proof. intros H. eapply star_step; [done|apply star_refl]. Qed.

Lemma star_trans s1 s2 s3 : star s1 s2 -> star s2 s3 -> star s1 s3.
Proof. induction 1; intros; [done|]. eapply star_step; eauto. Qed.
End Star.

(** ** Python's [dict.fromkeys(l)]: each value once, at its first place *)

Section FirstSeen.
Context {A : Type} `{EqDecision A}.

Fixpoint first_seen (l : list A) : list A :=
  match l with [] => [] | x :: l => x :: filter (fun y => y <> x) (first_seen l) end.

Lemma elem_of_first_seen l x : x ∈ first_seen l <-> x ∈ l.
Proof.
  induction l as [|y l IH]; cbn [first_seen]; [done|]. rewrite !elem_of_cons, list_elem_of_filter, IH.
  destruct (decide (x = y)); tauto.
Qed.

Lemma NoDup_first_seen l : NoDup (first_seen l).
Proof.
  induction l as [|y l IH]; cbn [first_seen]; [constructor|]. apply NoDup_cons. split; [|by apply NoDup_filter].
  rewrite list_elem_of_filter. tauto.
Qed.

Lemma length_first_seen l : length (first_seen l) <= length l.
Proof. apply submseteq_length, NoDup_submseteq; [apply NoDup_first_seen|]. intros x. by rewrite elem_of_first_seen. Qed.
End FirstSeen.

#[export] Hint Resolve star_refl star_one star_trans adjacent_nil : lux.
