(* ===== verification/Text.v ===== *)
(** * Text

    The string operations of the standard library the code uses on identifiers
    and tags: [str(UUID)], [int(hex)], [str.strip], [str.join].  Strings are
    sequences of bytes, so a length is the code's on ASCII text; [strip] removes
    the ASCII white space. *)

From Stdlib Require Export Ascii.
From S2P Require Import Prelude.

Section Hex.
Definition hex_digit (n : N) : ascii :=
  ascii_of_N (if (n <? 10)%N then 48 + n else 87 + n).

Definition hex_value (c : ascii) : N :=
  let n := N_of_ascii c in
  if (n <? 58)%N then n - 48 else n - 87.

(** The low [k] hexadecimal digits of [n], before [acc]. *)
Fixpoint hex_digits (k : nat) (n : N) (acc : string) : string :=
  match k with
  | O => acc
  | S k' => hex_digits k' (n / 16)%N (String (hex_digit (n mod 16)) acc)
  end.

Fixpoint hex_int_acc (z : N) (s : string) : N :=
  match s with
  | EmptyString => z
  | String c s' => hex_int_acc (16 * z + hex_value c) s'
  end.

(** [int(s, 16)] *)
Definition hex_int (s : string) : N := hex_int_acc 0 s.

Lemma hex_value_digit n : (n < 16)%N -> hex_value (hex_digit n) = n.
Proof.
  intros Hn.
  assert (H : forallb (fun k => hex_value (hex_digit k) =? k)%N (map N.of_nat (seq 0 16)) = true)
    by reflexivity.
  rewrite forallb_forall in H. apply N.eqb_eq, H.
  rewrite <- (N2Nat.id n). apply in_map. apply in_seq. lia.
Qed.

Lemma hex_int_digits k n z acc :
  hex_int_acc z (hex_digits k n acc) = hex_int_acc (z * 16 ^ N.of_nat k + n mod 16 ^ N.of_nat k) acc.
Proof.
  revert n acc. induction k as [|k IH]; intros n acc.
  { cbn [hex_digits]. change (16 ^ N.of_nat 0)%N with 1%N. by rewrite N.mod_1_r, N.add_0_r, N.mul_1_r. }
  cbn [hex_digits]. rewrite IH. cbn [hex_int_acc]. f_equal.
  rewrite hex_value_digit by (apply N.mod_lt; lia).
  rewrite Nat2N.inj_succ, N.pow_succ_r'.
  rewrite (N.Div0.mod_mul_r n 16). lia.
Qed.
End Hex.

(** ** [str(UUID)]: 8-4-4-4-12 hexadecimal digits *)

Definition dash : ascii := ascii_of_N 45.

Fixpoint dashed (i : nat) (s : string) : string :=
  match s with
  | EmptyString => EmptyString
  | String c s' =>
      if bool_decide (i ∈ [8; 12; 16; 20]) then String dash (String c (dashed (S i) s'))
      else String c (dashed (S i) s')
  end.

Definition uuid_str (n : N) : string := dashed 0 (hex_digits 32 n "").

Fixpoint undash (s : string) : string :=
  match s with
  | EmptyString => EmptyString
  | String c s' => if bool_decide (c = dash) then undash s' else String c (undash s')
  end.

(** Every character of [s] satisfies [P]. *)
Fixpoint all_chars (P : ascii -> Prop) (s : string) : Prop :=
  match s with
  | EmptyString => True
  | String c s' => P c /\ all_chars P s'
  end.

Definition free_of (c : ascii) : string -> Prop := all_chars (fun c' => c' <> c).

Lemma all_chars_impl (P Q : ascii -> Prop) s : (forall c, P c -> Q c) -> all_chars P s -> all_chars Q s.
Proof. intros HPQ. induction s as [|c s IH]; cbn; [done|]. intros [? ?]. auto. Qed.

Lemma undash_dashed i s : free_of dash s -> undash (dashed i s) = s.
Proof.
  revert i. induction s as [|c s IH]; intros i; [done|]. intros [Hc Hs]. cbn [dashed].
  assert (Hu : forall t, undash (String c t) = String c (undash t)).
  { intros t. cbn [undash]. by rewrite bool_decide_eq_false_2. }
  destruct (bool_decide (i ∈ _)); [|by rewrite Hu, IH].
  change (undash (String c (dashed (S i) s)) = String c s). by rewrite Hu, IH.
Qed.

Definition is_hex_digit (c : ascii) : Prop := exists n, (n < 16)%N /\ c = hex_digit n.

Lemma hex_digits_chars k n acc :
  all_chars is_hex_digit acc -> all_chars is_hex_digit (hex_digits k n acc).
Proof.
  revert n acc. induction k as [|k IH]; intros n acc H; cbn [hex_digits]; [done|].
  apply IH. split; [|done]. exists (n mod 16)%N. split; [apply N.mod_lt; lia|done].
Qed.

(** No hexadecimal digit is a dash, a comma or a bar. *)
Lemma hex_digit_other n c : (n < 16)%N -> c ∈ [","; "-"; "|"]%char -> hex_digit n <> c.
Proof.
  intros Hn Hc. assert (H : forallb (fun k => forallb (fun c => negb (Ascii.eqb (hex_digit k) c))
                      [","; "-"; "|"]%char) (map N.of_nat (seq 0 16)) = true) by reflexivity.
  rewrite forallb_forall in H. specialize (H n). rewrite forallb_forall in H.
  intros E. assert (X : negb (Ascii.eqb (hex_digit n) c) = true).
  { apply H; [|by apply list_elem_of_In]. rewrite <- (N2Nat.id n). apply in_map, in_seq. lia. }
  by rewrite E, Ascii.eqb_refl in X.
Qed.

Lemma hex_digits_free k n c : c ∈ [","; "-"; "|"]%char -> free_of c (hex_digits k n "").
Proof.
  intros Hc. eapply all_chars_impl; [|by apply hex_digits_chars].
  intros c' (m & Hm & ->). by apply hex_digit_other.
Qed.

Lemma hex_int_of_digits k n : hex_int (hex_digits k n "") = (n mod 16 ^ N.of_nat k)%N.
Proof. unfold hex_int. by rewrite hex_int_digits, N.mul_0_l. Qed.

Lemma undash_uuid_str n : undash (uuid_str n) = hex_digits 32 n "".
Proof. unfold uuid_str. apply undash_dashed, hex_digits_free. set_solver. Qed.

Lemma free_of_dashed c i s : c <> dash -> free_of c s -> free_of c (dashed i s).
Proof.
  intros Hc. revert i. induction s as [|c' s IH]; intros i; [done|]. intros [Hne Hs]. cbn [dashed].
  destruct (bool_decide _); repeat split; try done; by apply IH.
Qed.

Lemma uuid_str_no_comma n : free_of ","%char (uuid_str n).
Proof. unfold uuid_str. apply free_of_dashed; [done|]. apply hex_digits_free. set_solver. Qed.

Lemma hex_digits_nonempty k n acc : acc <> "" -> hex_digits k n acc <> "".
Proof.
  revert n acc. induction k as [|k IH]; intros n acc Ha; cbn [hex_digits]; [done|]. by apply IH.
Qed.

Lemma hex_digits_S_nonempty k n : hex_digits (S k) n "" <> "".
Proof. cbn [hex_digits]. by apply hex_digits_nonempty. Qed.

Lemma uuid_str_nonempty n : uuid_str n <> "".
Proof.
  intros E. apply (hex_digits_S_nonempty 31 n). rewrite <- undash_uuid_str. by rewrite E.
Qed.

#[global] Opaque uuid_str hex_digits hex_int.

(** A UUID is a 128-bit number. *)
Definition uuid_bound : N := 2 ^ 128.

(** Distinct UUIDs print differently. *)
Lemma uuid_str_inj n m : (n < uuid_bound)%N -> (m < uuid_bound)%N -> uuid_str n = uuid_str m -> n = m.
Proof.
  intros Hn Hm H. apply (f_equal undash) in H. rewrite !undash_uuid_str in H.
  apply (f_equal hex_int) in H. rewrite !hex_int_of_digits in H.
  rewrite !N.mod_small in H; done.
Qed.

#[global] Opaque uuid_bound.


(** ** [str.strip], [str.join] *)

Definition is_space (c : ascii) : bool :=
  let n := N_of_ascii c in ((9 <=? n) && (n <=? 13) || (28 <=? n) && (n <=? 32))%N.

Fixpoint lstrip (s : string) : string :=
  match s with
  | EmptyString => EmptyString
  | String c s' => if is_space c then lstrip s' else s
  end.

Fixpoint rstrip (s : string) : string :=
  match s with
  | EmptyString => EmptyString
  | String c s' =>
      match rstrip s' with
      | EmptyString => if is_space c then EmptyString else String c EmptyString
      | t => String c t
      end
  end.

Definition strip (s : string) : string := lstrip (rstrip s).

(** [str.split()]: the words between runs of white space. *)
Fixpoint words_acc (cur : string) (s : string) : list string :=
  match s with
  | EmptyString => if String.eqb cur "" then [] else [cur]
  | String c s => if is_space c
                  then (if String.eqb cur "" then words_acc "" s else cur :: words_acc "" s)
                  else words_acc (cur ++ String c "") s
  end.
Definition words (s : string) : list string := words_acc "" s.

(** [s.lower()] of ASCII text *)
Definition lower_char (c : ascii) : ascii :=
  let n := N_of_ascii c in if ((65 <=? n) && (n <=? 90))%N then ascii_of_N (n + 32) else c.
Fixpoint lower (s : string) : string :=
  match s with EmptyString => EmptyString | String c s => String (lower_char c) (lower s) end.

(** [sep.join(l)] *)
Fixpoint join (sep : string) (l : list string) : string :=
  match l with
  | [] => ""
  | [s] => s
  | s :: l' => s +:+ sep +:+ join sep l'
  end.

Lemma split_at c s1 t1 s2 t2 :
  free_of c s1 -> free_of c s2 -> s1 +:+ String c t1 = s2 +:+ String c t2 -> s1 = s2 /\ t1 = t2.
Proof.
  revert s2. induction s1 as [|x s1 IH]; intros [|y s2]; cbn.
  - by intros _ _ [= ->].
  - intros _ [Hy _] [= <- _]. done.
  - intros [Hx _] _ [= -> _]. done.
  - intros [_ H1] [_ H2] [= -> E]. destruct (IH s2 H1 H2 E) as [-> ->]. done.
Qed.

Lemma free_of_app_r c s t : ~ free_of c (s +:+ String c t).
Proof. induction s as [|x s IH]; cbn; [by intros [? _]|]. intros [_ ?]. done. Qed.

(** Joining non-empty texts free of the separator loses nothing. *)
Lemma join_inj c l l' :
  Forall (fun s => s <> "" /\ free_of c s) l -> Forall (fun s => s <> "" /\ free_of c s) l' ->
  join (String c "") l = join (String c "") l' -> l = l'.
Proof.
  intros Hl. revert l'. induction Hl as [|s l [Hs Hc] Hl IH]; intros l' Hl' E.
  - destruct Hl' as [|s' l' [Hs' _] _]; [done|]. destruct l'; cbn in E; [congruence|].
    destruct s'; [done|discriminate E].
  - destruct Hl' as [|s' l' [Hs' Hc'] Hl'].
    { destruct l; cbn in E; [congruence|]. destruct s; [done|discriminate E]. }
    destruct l as [|s1 l], l' as [|s1' l'].
    + cbn in E. congruence.
    + change (s = s' +:+ String c (join (String c "") (s1' :: l'))) in E. subst s.
      by apply free_of_app_r in Hc.
    + change (s +:+ String c (join (String c "") (s1 :: l)) = s') in E. subst s'.
      by apply free_of_app_r in Hc'.
    + change (s +:+ String c (join (String c "") (s1 :: l))
              = s' +:+ String c (join (String c "") (s1' :: l'))) in E.
      apply split_at in E as [-> E]; [|done..]. f_equal. by apply IH.
Qed.

(** ** Integers *)

(** [int(s)] of a word: an optional sign, digits, single underscores between. *)
Definition digit_of (c : ascii) : option Z :=
  let n := Z.of_N (N_of_ascii c) in
  if ((48 <=? n) && (n <=? 57))%Z then Some (n - 48)%Z else None.

Fixpoint int_digits (acc : Z) (after_digit : bool) (s : string) : option Z :=
  match s with
  | EmptyString => if after_digit then Some acc else None
  | String c s =>
      match digit_of c with
      | Some d => int_digits (10 * acc + d)%Z true s
      | None => if after_digit && Ascii.eqb c "_"%char then int_digits acc false s else None
      end
  end.

Definition int_of_word (s : string) : res Z :=
  let r := match s with
    | String "-" s' => match int_digits 0 false s' with Some z => Some (- z)%Z | None => None end
    | String "+" s' => int_digits 0 false s'
    | _ => int_digits 0 false s
    end in
  match r with Some z => Ok z | None => Raise ValueError end.

(** ** Classes of characters *)

(** [str.isupper], [islower], [isdigit] of one ASCII character *)
Definition is_upper (c : ascii) : bool := let n := N_of_ascii c in ((65 <=? n) && (n <=? 90))%N.
Definition is_lower (c : ascii) : bool := let n := N_of_ascii c in ((97 <=? n) && (n <=? 122))%N.
Definition is_digit (c : ascii) : bool := let n := N_of_ascii c in ((48 <=? n) && (n <=? 57))%N.
Definition is_alpha (c : ascii) : bool := is_upper c || is_lower c.
Definition is_hex (c : ascii) : bool :=
  let n := N_of_ascii c in is_digit c || ((65 <=? n) && (n <=? 70))%N || ((97 <=? n) && (n <=? 102))%N.

(** ** Splitting *)

(** [s.split(c)] *)
Fixpoint split (c : ascii) (s : string) : list string :=
  match s with
  | EmptyString => [""]
  | String x s' =>
      if Ascii.eqb x c then "" :: split c s'
      else match split c s' with
           | [] => [String x ""]
           | t :: ts => String x t :: ts
           end
  end.

(** [s.partition(c)]: before, whether there is one, after. *)
Fixpoint partition (c : ascii) (s : string) : string * bool * string :=
  match s with
  | EmptyString => ("", false, "")
  | String x s' =>
      if Ascii.eqb x c then ("", true, s')
      else let '(a, found, b) := partition c s' in (String x a, found, b)
  end.

(** [s.rpartition(c)]: with no [c], all of it is after. *)
Fixpoint rpartition (c : ascii) (s : string) : string * bool * string :=
  match s with
  | EmptyString => ("", false, "")
  | String x s' =>
      let '(a, found, b) := rpartition c s' in
      if found then (String x a, true, b)
      else if Ascii.eqb x c then ("", true, s') else ("", false, s)
  end.

Fixpoint has_char (f : ascii -> bool) (s : string) : bool :=
  match s with EmptyString => false | String c s' => f c || has_char f s' end.
Definition contains (c : ascii) (s : string) : bool := has_char (Ascii.eqb c) s.
Definition all_of (f : ascii -> bool) (s : string) : bool := negb (has_char (fun c => negb (f c)) s).

(** [s.count(c)] *)
Fixpoint count_char (c : ascii) (s : string) : nat :=
  match s with EmptyString => 0 | String x s' => (if Ascii.eqb x c then 1 else 0) + count_char c s' end.

Definition endswith (p s : string) : bool :=
  (String.length p <=? String.length s)%nat
  && String.eqb (String.substring (String.length s - String.length p) (String.length p) s) p.

(** [s.rstrip(c)] *)
Fixpoint rstrip_char (c : ascii) (s : string) : string :=
  match s with
  | EmptyString => ""
  | String x s' => match rstrip_char c s' with
                   | EmptyString => if Ascii.eqb x c then "" else String x ""
                   | r => String x r
                   end
  end.

Lemma split_free c s : free_of c s -> split c s = [s].
Proof.
  induction s as [|x s IH]; [done|]. intros [Hx Hs]. cbn. rewrite (IH Hs).
  by destruct (Ascii.eqb_spec x c).
Qed.

Lemma split_cons c s t : free_of c s -> split c (s +:+ String c t) = s :: split c t.
Proof.
  induction s as [|x s IH].
  - intros _. change ("" +:+ String c t) with (String c t). cbn [split partition].
    by rewrite Ascii.eqb_refl.
  - intros [Hx Hs]. change (String x s +:+ String c t) with (String x (s +:+ String c t)).
    cbn [split partition]. rewrite (IH Hs). by destruct (Ascii.eqb_spec x c).
Qed.

Lemma partition_at c s t : free_of c s -> partition c (s +:+ String c t) = (s, true, t).
Proof.
  induction s as [|x s IH].
  - intros _. change ("" +:+ String c t) with (String c t). cbn [split partition].
    by rewrite Ascii.eqb_refl.
  - intros [Hx Hs]. change (String x s +:+ String c t) with (String x (s +:+ String c t)).
    cbn [split partition]. rewrite (IH Hs). by destruct (Ascii.eqb_spec x c).
Qed.

Lemma partition_free c s : free_of c s -> partition c s = (s, false, "").
Proof.
  induction s as [|x s IH]; cbn; [done|]. intros [Hx Hs].
  destruct (Ascii.eqb_spec x c); [done|]. by rewrite (IH Hs).
Qed.

Lemma rpartition_free c s : free_of c s -> rpartition c s = ("", false, s).
Proof.
  induction s as [|x s IH]; cbn; [done|]. intros [Hx Hs]. rewrite (IH Hs).
  by destruct (Ascii.eqb_spec x c).
Qed.

Lemma rpartition_at c s t : free_of c t -> rpartition c (s +:+ String c t) = (s, true, t).
Proof.
  intros Ht. induction s as [|x s IH].
  - change ("" +:+ String c t) with (String c t). cbn [rpartition].
    by rewrite (rpartition_free c t Ht), Ascii.eqb_refl.
  - change (String x s +:+ String c t) with (String x (s +:+ String c t)).
    cbn [rpartition]. by rewrite IH.
Qed.

Definition not_space (c : ascii) : Prop := is_space c = false.

Lemma strip_word s : all_chars not_space s -> strip s = s.
Proof.
  intros Hs. unfold strip. assert (Hr : rstrip s = s).
  { induction s as [|c s IH]; [done|]. destruct Hs as [Hc Hs]. cbn [rstrip]. rewrite (IH Hs).
    destruct s; [|done]. by rewrite Hc. }
  rewrite Hr. destruct s as [|c s]; [done|]. destruct Hs as [Hc _]. cbn. by rewrite Hc.
Qed.

(** ** Words of digits *)

Lemma all_of_cons f c s : all_of f (String c s) = f c && all_of f s.
Proof. unfold all_of. cbn [has_char]. by rewrite negb_orb, negb_involutive. Qed.

Lemma digit_plain c : is_digit c = true ->
  not_space c /\ (exists d, digit_of c = Some d) /\ c <> "-"%char /\ c <> "+"%char.
Proof.
  unfold is_digit, not_space, is_space, digit_of. cbn zeta. intros H.
  apply andb_true_iff in H as [H1%N.leb_le H2%N.leb_le].
  assert (X : forall a b, (b < 48)%N -> ((a <=? N_of_ascii c) && (N_of_ascii c <=? b))%N = false).
  { intros a b Hb. rewrite (proj2 (N.leb_gt _ b)) by lia. apply andb_false_r. }
  split_and!; [by rewrite !X by lia| | |].
  - exists (Z.of_N (N_of_ascii c) - 48)%Z. by rewrite (proj2 (andb_true_iff _ _)) by lia.
  - intros ->. vm_compute in H1. done.
  - intros ->. vm_compute in H1. done.
Qed.

Lemma digits_read s acc b : all_of is_digit s = true -> b = true \/ s <> "" ->
  exists z, int_digits acc b s = Some z.
Proof.
  revert acc b. induction s as [|c s IH]; intros acc b Hs Hb; cbn [int_digits].
  - destruct Hb as [->|]; [by eexists|done].
  - rewrite all_of_cons in Hs. apply andb_true_iff in Hs as [Hc Hs].
    apply digit_plain in Hc as (_ & (d & ->) & _). apply IH; [done|by left].
Qed.

(** [int(s)] of digits, after [int] strips the spaces around. *)
Lemma int_of_digit_word s : all_of is_digit s = true -> s <> "" ->
  int_of_word (strip s) = Ok (default 0%Z (int_digits 0 false s)).
Proof.
  intros Hs Hne. rewrite strip_word.
  - destruct s as [|c s]; [done|]. pose proof Hs as Hs'. rewrite all_of_cons in Hs'.
    apply andb_true_iff in Hs' as [Hc _]. apply digit_plain in Hc as (_ & _ & Hm & Hp).
    destruct (digits_read (String c s) 0 false Hs) as [z Hz]; [by right|]. rewrite Hz. cbn [default].
    unfold int_of_word.
    destruct c as [[] [] [] [] [] [] [] []]; try done; by rewrite Hz.
  - clear Hne. induction s as [|c s IH]; [done|]. rewrite all_of_cons in Hs.
    apply andb_true_iff in Hs as [Hc Hs]. split; [by apply digit_plain|by apply IH].
Qed.
