(* ===== verification/Net.v ===== *)
(** * Net

    What the code uses of the standard library's [ipaddress] and
    [urllib.parse]: IPv4 and IPv6 addresses and networks as numbers, read from
    text, and the parts of a URL.  An address is its family and its number: an
    IPv6 zone ([%eth0]) is read and checked, and dropped, as no test of
    membership looks at it.  Text is ASCII. *)

From S2P Require Import Prelude Text.

(** ** Addresses and networks *)

Inductive version := V4 | V6.
#[global] Instance version_eq_dec : EqDecision version.
Proof. solve_decision. Defined.

Record ip := Ip { ip_version : version; ip_value : Z }.
#[global] Instance ip_eq_dec : EqDecision ip.
Proof. solve_decision. Defined.

Record network := Network { nw_version : version; network_address : Z; prefixlen : Z }.
#[global] Instance network_eq_dec : EqDecision network.
Proof. solve_decision. Defined.

Definition max_prefixlen (v : version) : Z := match v with V4 => 32 | V6 => 128 end.
Definition ALL_ONES (v : version) : Z := 2 ^ max_prefixlen v - 1.

(** [_ip_int_from_prefix], and the properties of a network *)
Definition ip_int_from_prefix (v : version) (prefix : Z) : Z :=
  Z.lxor (ALL_ONES v) (Z.shiftr (ALL_ONES v) prefix).
Definition netmask (n : network) : Z := ip_int_from_prefix (nw_version n) (prefixlen n).
Definition hostmask (n : network) : Z := Z.lxor (netmask n) (ALL_ONES (nw_version n)).
Definition broadcast_address (n : network) : Z := Z.lor (network_address n) (hostmask n).
Definition num_addresses (n : network) : Z := (broadcast_address n - network_address n + 1)%Z.

(** [address in network] *)
Definition in_network (a : ip) (n : network) : bool :=
  bool_decide (ip_version a = nw_version n)
  && (Z.land (ip_value a) (netmask n) =? network_address n)%Z.

(** [self.overlaps(other)] *)
Definition overlaps (self other : network) : bool :=
  in_network (Ip (nw_version other) (network_address other)) self
  || (in_network (Ip (nw_version other) (broadcast_address other)) self
      || (in_network (Ip (nw_version self) (network_address self)) other
          || in_network (Ip (nw_version self) (broadcast_address self)) other)).

(** The whole numbers from [lo], [n] of them. *)
Definition range (lo hi : Z) : list Z := seqZ lo (hi - lo).

(** [network.hosts()]: a pair is both its addresses, a single address itself. *)
Definition hosts (n : network) : list ip :=
  Ip (nw_version n) <$>
    (if (prefixlen n =? max_prefixlen (nw_version n))%Z then [network_address n]
     else if (prefixlen n =? max_prefixlen (nw_version n) - 1)%Z
          then range (network_address n) (broadcast_address n + 1)
     else match nw_version n with
          | V4 => range (network_address n + 1) (broadcast_address n)
          | V6 => range (network_address n + 1) (broadcast_address n + 1)
          end).

(** [network.subnets(new_prefix=p)], of a longer prefix *)
Definition subnets (n : network) (new_prefix : Z) : list network :=
  let step := (2 ^ (max_prefixlen (nw_version n) - new_prefix))%Z in
  (fun i => Network (nw_version n) (network_address n + i * step) new_prefix)
    <$> seqZ 0 (2 ^ (new_prefix - prefixlen n)).

(** ** Reading an address *)

Definition all_digits (s : string) : bool := negb (String.eqb s "") && all_of is_digit s.

Definition int_of_digits (s : string) : Z := default 0%Z (int_digits 0 false s).

(** [_parse_octet] *)
Definition parse_octet (s : string) : option Z :=
  if all_digits s && (String.length s <=? 3)%nat
     && (String.eqb s "0" || negb (String.prefix "0" s))
  then let z := int_of_digits s in if (255 <? z)%Z then None else Some z
  else None.

(** [IPv4Address(s)] *)
Definition ipv4_of (s : string) : option Z :=
  match split "." s with
  | [a; b; c; d] =>
      match parse_octet a, parse_octet b, parse_octet c, parse_octet d with
      | Some a, Some b, Some c, Some d => Some (((a * 256 + b) * 256 + c) * 256 + d)%Z
      | _, _, _, _ => None
      end
  | _ => None
  end.

(** [_parse_hextet] *)
Definition hex_digit_value (c : ascii) : Z :=
  let n := Z.of_N (N_of_ascii (lower_char c)) in if (n <? 58)%Z then n - 48 else n - 87.

Fixpoint hex_value_acc (acc : Z) (s : string) : Z :=
  match s with
  | EmptyString => acc
  | String c s' => hex_value_acc (16 * acc + hex_digit_value c) s'
  end.

Definition parse_hextet (s : string) : option Z :=
  if negb (String.eqb s "") && all_of is_hex s && (String.length s <=? 4)%nat
  then Some (hex_value_acc 0 s) else None.

Fixpoint parse_hextets (acc : Z) (parts : list string) : option Z :=
  match parts with
  | [] => Some acc
  | p :: parts => match parse_hextet p with
                  | Some z => parse_hextets (Z.lor (Z.shiftl acc 16) z) parts
                  | None => None
                  end
  end.

(** An IPv4 suffix is rewritten as two hextets. *)
Fixpoint init_last {A} (x : A) (l : list A) : list A * A :=
  match l with
  | [] => ([], x)
  | y :: l => let '(i, e) := init_last y l in (x :: i, e)
  end.

(** ['%x' % z] of sixteen bits *)
Fixpoint drop_zeros (k : nat) (s : string) : string :=
  match k, s with
  | S k, String c s' => if Ascii.eqb c "0" then drop_zeros k s' else s
  | _, _ => s
  end.
Definition hextet_text (z : Z) : string := drop_zeros 3 (hex_digits 4 (Z.to_N z) "").

Definition with_ipv4_suffix (parts : list string) : option (list string) :=
  match parts with
  | [] => Some []
  | p :: ps =>
      let '(front, last) := init_last p ps in
      if contains "." last then
        match ipv4_of last with
        | Some z => Some (front ++ [hextet_text (Z.land (Z.shiftr z 16) 65535); hextet_text (Z.land z 65535)])
        | None => None
        end
      else Some parts
  end.

(** The indices, from [1] to the last but one, of the empty parts. *)
Definition skips (parts : list string) : list nat :=
  filter (fun i => parts !! i = Some "") (seq 1 (length parts - 2)).

(** [IPv6Address._ip_int_from_string]; the split of the code stops after nine
    colons, which leaves ten parts: refused either way. *)
Definition ipv6_int_of (s : string) : option Z :=
  if String.eqb s "" || (45 <? String.length s)%nat then None else
  let parts := split ":" s in
  if (length parts <? 3)%nat then None else
  match with_ipv4_suffix parts with
  | None => None
  | Some parts =>
      let first := default "" (head parts) in
      let last := default "" (last parts) in
      if (9 <? length parts)%nat then None else
      match skips parts with
      | [] =>
          if (length parts =? 8)%nat && negb (String.eqb first "") && negb (String.eqb last "")
          then parse_hextets 0 parts else None
      | [i] =>
          let hi := if String.eqb first "" then (i - 1)%nat else i in
          let lo := (length parts - i - 1)%nat in
          let lo' := if String.eqb last "" then (lo - 1)%nat else lo in
          if String.eqb first "" && (0 <? hi)%nat then None else
          if String.eqb last "" && (0 <? lo')%nat then None else
          if (8 <? hi + lo' + 1)%nat then None else
          match parse_hextets 0 (take hi parts) with
          | Some z => parse_hextets (Z.shiftl z (16 * Z.of_nat (8 - (hi + lo')))) (drop (length parts - lo') parts)
          | None => None
          end
      | _ => None
      end
  end.

(** [IPv6Address(s)]: the zone after a percent sign is not empty and holds none. *)
Definition ipv6_of (s : string) : option Z :=
  if contains "/" s then None else
  let '(addr, sep, scope_id) := partition "%" s in
  if sep && (String.eqb scope_id "" || contains "%" scope_id) then None
  else ipv6_int_of addr.

(** [ipaddress.ip_address(s)] *)
Definition ip_address (s : string) : option ip :=
  match ipv4_of s with
  | Some z => Some (Ip V4 z)
  | None => Ip V6 <$> ipv6_of s
  end.

(** ** Reading a network *)

(** [_prefix_from_prefix_string] *)
Definition prefix_of_string (v : version) (s : string) : option Z :=
  if all_digits s then
    let z := int_of_digits s in if (z <=? max_prefixlen v)%Z then Some z else None
  else None.

(** [_count_righthand_zero_bits], and [_prefix_from_ip_int] *)
Fixpoint right_zeros (bits : nat) (z : Z) : Z :=
  match bits with
  | O => 0
  | S bits => if Z.odd z then 0 else 1 + right_zeros bits (z / 2)
  end.
Definition prefix_of_int (z : Z) : option Z :=
  let trailing_zeroes := right_zeros 32 z in
  let prefix := (32 - trailing_zeroes)%Z in
  if (Z.shiftr z trailing_zeroes =? 2 ^ prefix - 1)%Z then Some prefix else None.

(** [_prefix_from_ip_string]: a netmask, or else a hostmask. *)
Definition prefix_of_mask (s : string) : option Z :=
  match ipv4_of s with
  | None => None
  | Some z => match prefix_of_int z with
              | Some p => Some p
              | None => prefix_of_int (Z.lxor z (ALL_ONES V4))
              end
  end.

(** [_make_netmask]: the prefix of what follows the slash, if anything does. *)
Definition prefix_of (v : version) (mask : option string) : option Z :=
  match mask with
  | None => Some (max_prefixlen v)
  | Some m => match prefix_of_string v m, v with
              | Some p, _ => Some p
              | None, V4 => prefix_of_mask m
              | None, V6 => None
              end
  end.

(** [IPv4Network(s, strict)], [IPv6Network(s, strict)]: [Ok None] where the
    address or the mask is refused, so that the other family is tried. *)
Definition network_of (v : version) (strict : bool) (s : string) : res (option network) :=
  let parts := match split "/" s with
               | [a] => Some (a, None)
               | [a; m] => Some (a, Some m)
               | _ => None
               end in
  match parts with
  | None => Ok None
  | Some (a, m) =>
      match match v with V4 => ipv4_of a | V6 => ipv6_of a end, prefix_of v m with
      | Some packed, Some prefix =>
          let base := Z.land packed (ip_int_from_prefix v prefix) in
          if (base =? packed)%Z then Ok (Some (Network v packed prefix))
          else if strict then Raise ValueError else Ok (Some (Network v base prefix))
      | _, _ => Ok None
      end
  end.

(** [ipaddress.ip_network(s, strict=strict)] *)
Definition ip_network (strict : bool) (s : string) : res network :=
  n4 ← network_of V4 strict s;
  match n4 with
  | Some n => Ok n
  | None =>
      n6 ← network_of V6 strict s;
      match n6 with Some n => Ok n | None => Raise ValueError end
  end.

Example ip4_example : ip_address "169.254.169.254" = Some (Ip V4 2852039166). Proof. reflexivity. Qed.
Example ip4_leading_zero : ip_address "10.0.0.01" = None. Proof. reflexivity. Qed.
Example ip6_mapped : ip_address "::ffff:169.254.169.254" = Some (Ip V6 (281470681743360 + 2852039166)). Proof. vm_compute. reflexivity. Qed.
Example ip6_example : ip_address "fd00:ec2::254%eth0" = Some (Ip V6 (Z.shiftl 0xfd000ec2 96 + 0x254)). Proof. vm_compute. reflexivity. Qed.
Example ip6_two_skips : ip_address "1::2::3" = None. Proof. vm_compute. reflexivity. Qed.
Example ip6_all : ip_address "::" = Some (Ip V6 0). Proof. vm_compute. reflexivity. Qed.
Example ip6_tail : ip_address "1:2:3:4:5:6:7::" = Some (Ip V6 (Z.shiftl 0x1000200030004000500060007 16)). Proof. vm_compute. reflexivity. Qed.
Example ip6_bad : ip_address ":1:2:3:4:5:6:7:8" = None. Proof. vm_compute. reflexivity. Qed.
Example net_mask : ip_network false "10.1.2.3/255.255.0.0" = Ok (Network V4 167837696 16). Proof. vm_compute. reflexivity. Qed.
Example net_hostmask : ip_network false "10.1.2.3/0.0.0.255" = Ok (Network V4 (167837696 + 512) 24). Proof. vm_compute. reflexivity. Qed.
Example net_strict : ip_network true "10.1.2.3/16" = Raise ValueError. Proof. vm_compute. reflexivity. Qed.
Example net_bad : ip_network false "10.1.2.3/33" = Raise ValueError. Proof. vm_compute. reflexivity. Qed.

(** ** Networks as intervals *)

Section Masks.
Local Open Scope Z_scope.

Definition wf_value (v : version) (z : Z) : Prop := 0 <= z < 2 ^ max_prefixlen v.
Definition wf_ip (a : ip) : Prop := wf_value (ip_version a) (ip_value a).

(** The number of low bits a network leaves free, and its size. *)
Definition free_bits (n : network) : Z := max_prefixlen (nw_version n) - prefixlen n.
Definition wf_network (n : network) : Prop :=
  0 <= prefixlen n <= max_prefixlen (nw_version n) /\ wf_value (nw_version n) (network_address n)
  /\ network_address n mod 2 ^ free_bits n = 0.

Lemma max_prefixlen_pos v : 0 < max_prefixlen v.
Proof. by destruct v. Qed.

Lemma all_ones_eq v : ALL_ONES v = Z.ones (max_prefixlen v).
Proof. unfold ALL_ONES. rewrite Z.ones_equiv. lia. Qed.

Lemma small_bit w z i : 0 <= z < 2 ^ w -> 0 <= w <= i -> Z.testbit z i = false.
Proof.
  intros Hz Hi. rewrite <- (Z.mod_small z (2 ^ w)) by lia. apply Z.mod_pow2_bits_high. lia.
Qed.

Lemma land_mask w p z : 0 <= p <= w -> 0 <= z < 2 ^ w ->
  Z.land z (Z.lxor (Z.ones w) (Z.shiftr (Z.ones w) p)) = z - z mod 2 ^ (w - p).
Proof.
  intros Hp Hz.
  assert (E : Z.land z (Z.lxor (Z.ones w) (Z.shiftr (Z.ones w) p)) = Z.ldiff z (Z.ones (w - p))).
  { apply Z.bits_inj'. intros i Hi.
    rewrite Z.land_spec, Z.lxor_spec, Z.ldiff_spec, Z.shiftr_spec, !Z.testbit_ones_nonneg by lia.
    destruct (Z.ltb_spec i w) as [Hw|Hw].
    - destruct (Z.ltb_spec (i + p) w), (Z.ltb_spec i (w - p)); try lia; done.
    - rewrite (small_bit w) by lia. done. }
  rewrite E, Z.ldiff_ones_r, Z.shiftl_mul_pow2, Z.shiftr_div_pow2 by lia.
  pose proof (Z.div_mod z (2 ^ (w - p))) as D. lia.
Qed.

Lemma hostmask_eq n : wf_network n -> hostmask n = 2 ^ free_bits n - 1.
Proof.
  intros (Hp & _ & _). unfold hostmask, netmask, ip_int_from_prefix, free_bits. rewrite all_ones_eq.
  set (w := max_prefixlen _) in *. pose proof (Z.ones_equiv (w - prefixlen n)) as O.
  rewrite (Z.lxor_comm (Z.ones w)), Z.lxor_assoc, Z.lxor_nilpotent, Z.lxor_0_r.
  rewrite Z.shiftr_div_pow2, Z.ones_div_pow2 by lia. lia.
Qed.

Lemma network_size n : wf_network n -> 0 < 2 ^ free_bits n <= 2 ^ max_prefixlen (nw_version n).
Proof.
  intros (Hp & _ & _). unfold free_bits. split; [apply Z.pow_pos_nonneg; lia|].
  apply Z.pow_le_mono_r; lia.
Qed.

Lemma lor_low z k : 0 <= k -> z mod 2 ^ k = 0 -> Z.lor z (2 ^ k - 1) = z + (2 ^ k - 1).
Proof.
  intros Hk Hz. rewrite Z.sub_1_r, <- Z.ones_equiv.
  pose proof (Z.add_lor_land z (Z.ones k)) as E. rewrite Z.land_ones, Hz in E by lia. lia.
Qed.

Lemma broadcast_eq n : wf_network n -> broadcast_address n = network_address n + (2 ^ free_bits n - 1).
Proof.
  intros Hn. unfold broadcast_address. rewrite hostmask_eq by done. destruct Hn as (Hp & _ & Hz).
  apply lor_low; [unfold free_bits; lia|done].
Qed.

Lemma num_addresses_eq n : wf_network n -> num_addresses n = 2 ^ free_bits n.
Proof. intros Hn. unfold num_addresses. rewrite broadcast_eq by done. lia. Qed.

Lemma broadcast_wf n : wf_network n ->
  network_address n <= broadcast_address n /\ wf_value (nw_version n) (broadcast_address n).
Proof.
  intros Hn. rewrite broadcast_eq by done. pose proof (network_size n Hn) as S.
  destruct Hn as (Hp & [H0 Hw] & Hz). split; [lia|]. split; [lia|].
  pose proof (Z.div_mod (network_address n) (2 ^ free_bits n)) as D.
  assert (E : 2 ^ max_prefixlen (nw_version n) = 2 ^ free_bits n * 2 ^ prefixlen n).
  { rewrite <- Z.pow_add_r by (unfold free_bits; lia). f_equal. unfold free_bits. lia. }
  assert (network_address n / 2 ^ free_bits n < 2 ^ prefixlen n).
  { apply Z.div_lt_upper_bound; lia. }
  nia.
Qed.

(** A network is the interval from its address to its broadcast address. *)
Lemma in_network_spec a n : wf_network n -> wf_ip a ->
  in_network a n = true
  <-> ip_version a = nw_version n /\ network_address n <= ip_value a <= broadcast_address n.
Proof.
  intros Hn Ha. unfold in_network. rewrite broadcast_eq by done.
  rewrite andb_true_iff, bool_decide_eq_true.
  pose proof (network_size n Hn) as S. destruct Hn as (Hp & Hb & Hz).
  split; intros [Hv E]; (split; [done|]).
  - apply Z.eqb_eq in E. unfold netmask, ip_int_from_prefix in E. rewrite all_ones_eq in E.
    rewrite land_mask in E; [|done|by rewrite <- Hv].
    fold (free_bits n) in E. pose proof (Z.mod_pos_bound (ip_value a) (2 ^ free_bits n)). lia.
  - apply Z.eqb_eq. unfold netmask, ip_int_from_prefix. rewrite all_ones_eq.
    rewrite land_mask; [|done|by rewrite <- Hv]. fold (free_bits n).
    replace (ip_value a) with (network_address n + (ip_value a - network_address n)) by lia.
    rewrite Z.add_mod, Hz, Z.add_0_l, Z.mod_mod, Z.mod_small by lia. lia.
Qed.

Lemma end_points n : wf_network n ->
  wf_ip (Ip (nw_version n) (network_address n)) /\ wf_ip (Ip (nw_version n) (broadcast_address n)).
Proof. intros Hn. split; [apply Hn|by apply broadcast_wf]. Qed.

(** Two networks overlap where they are of one family and their intervals meet. *)
Lemma overlaps_spec n m : wf_network n -> wf_network m ->
  overlaps n m = true
  <-> nw_version n = nw_version m
      /\ network_address n <= broadcast_address m /\ network_address m <= broadcast_address n.
Proof.
  intros Hn Hm. pose proof (end_points n Hn) as [N1 N2]. pose proof (end_points m Hm) as [M1 M2].
  pose proof (broadcast_wf n Hn) as [Bn _]. pose proof (broadcast_wf m Hm) as [Bm _].
  unfold overlaps. rewrite !orb_true_iff, !in_network_spec by done. cbn [ip_version ip_value].
  destruct (decide (nw_version n = nw_version m)) as [E|E].
  - rewrite E. split; [intuition lia|]. intros (_ & A & B).
    destruct (Z.le_gt_cases (network_address n) (network_address m)); [left|right; right; left];
      (split; [done|lia]).
  - intuition congruence.
Qed.

Lemma subnets_in n p m : wf_network n -> prefixlen n <= p <= max_prefixlen (nw_version n) ->
  m ∈ subnets n p ->
  wf_network m /\ nw_version m = nw_version n
  /\ network_address n <= network_address m /\ broadcast_address m <= broadcast_address n.
Proof.
  intros Hn Hp Hm. unfold subnets in Hm. cbn zeta in Hm.
  apply list_elem_of_fmap in Hm as (i & -> & Hi). rewrite elem_of_seqZ, Z.add_0_l in Hi.
  pose proof (broadcast_wf n Hn) as [_ [_ B]]. rewrite broadcast_eq in B by done.
  pose proof Hn as (Hq & [H0 _] & Hz). set (q := max_prefixlen (nw_version n) - p).
  assert (Hs : 0 < 2 ^ q) by (apply Z.pow_pos_nonneg; lia).
  assert (E : 2 ^ free_bits n = 2 ^ (p - prefixlen n) * 2 ^ q).
  { rewrite <- Z.pow_add_r by lia. f_equal. unfold free_bits. lia. }
  assert (Hle : network_address n + i * 2 ^ q + (2 ^ q - 1) <= network_address n + (2 ^ free_bits n - 1)).
  { rewrite E. nia. }
  assert (Hm : wf_network (Network (nw_version n) (network_address n + i * 2 ^ q) p)).
  { unfold wf_network, wf_value, free_bits. cbn [nw_version network_address prefixlen]. fold q.
    split_and!; [lia|lia|nia|lia|]. rewrite Z.mod_add by lia.
    pose proof (Z.div_mod (network_address n) (2 ^ free_bits n)) as D. rewrite Hz, E in D.
    rewrite D by nia. rewrite Z.add_0_r.
    replace (2 ^ (p - prefixlen n) * 2 ^ q * _) with
      (2 ^ (p - prefixlen n) * (network_address n / (2 ^ (p - prefixlen n) * 2 ^ q)) * 2 ^ q) by lia.
    apply Z.mod_mul. lia. }
  split_and!; [done|done|cbn; nia|]. rewrite !broadcast_eq by done.
  unfold free_bits at 1. cbn [nw_version network_address prefixlen]. fold q. lia.
Qed.

Lemma hosts_in n a : wf_network n -> a ∈ hosts n -> wf_ip a /\ in_network a n = true.
Proof.
  intros Hn Ha. unfold hosts in Ha. apply list_elem_of_fmap in Ha as (z & -> & Hz).
  assert (Hr : network_address n <= z <= broadcast_address n).
  { pose proof (broadcast_wf n Hn) as [Bn _]. unfold range in Hz.
    repeat (case_in Hz; [|]); rewrite ?elem_of_seqZ in Hz; try lia.
    apply list_elem_of_singleton in Hz. lia. }
  assert (Hw : wf_ip (Ip (nw_version n) z)).
  { pose proof (broadcast_wf n Hn) as [_ [_ B]]. destruct Hn as (_ & [B0 _] & _).
    unfold wf_ip, wf_value in *. cbn. lia. }
  split; [done|]. by apply in_network_spec.
Qed.
End Masks.

(** ** What is read is well formed *)

Section Reading.
Local Open Scope Z_scope.

Lemma digit_of_range c d : digit_of c = Some d -> 0 <= d <= 9.
Proof. unfold digit_of. intros H. case_in H; [|done]. injection H as <-. lia. Qed.

Lemma int_digits_nonneg s acc b z : 0 <= acc -> int_digits acc b s = Some z -> 0 <= z.
Proof.
  revert acc b. induction s as [|c s IH]; intros acc b Ha H; cbn [int_digits] in H.
  - destruct b; [by injection H as <-|done].
  - destruct (digit_of c) as [d|] eqn:E.
    + apply digit_of_range in E. eapply IH; [|exact H]. lia.
    + case_in H; [|done]. by eapply IH.
Qed.

Lemma int_of_digits_nonneg s : 0 <= int_of_digits s.
Proof.
  unfold int_of_digits. destruct (int_digits 0 false s) as [z|] eqn:E; cbn; [|lia].
  by eapply int_digits_nonneg; [|exact E].
Qed.

Lemma parse_octet_range s z : parse_octet s = Some z -> 0 <= z <= 255.
Proof.
  unfold parse_octet. cbn zeta. intros H. case_in H; [|done]. case_in H; [done|]. injection H as <-.
  pose proof (int_of_digits_nonneg s). lia.
Qed.

Lemma ipv4_of_wf s z : ipv4_of s = Some z -> wf_value V4 z.
Proof.
  unfold ipv4_of. intros H. repeat (case_in H; [done||idtac|try done]).
  all: repeat (case_in H; try done).
  injection H as <-.
  repeat match goal with E : parse_octet _ = Some _ |- _ => apply parse_octet_range in E end.
  unfold wf_value. change (2 ^ max_prefixlen V4) with 4294967296. lia.
Qed.

Lemma hex_digit_value_range c : is_hex c = true -> 0 <= hex_digit_value c <= 15.
Proof.
  intros H. assert (X : (0 <=? hex_digit_value c) && (hex_digit_value c <=? 15) = true).
  { revert H. destruct c as [[] [] [] [] [] [] [] []]; vm_compute; congruence. }
  apply andb_true_iff in X. lia.
Qed.

Lemma hex_value_range s acc k : all_of is_hex s = true -> 0 <= k -> 0 <= acc < 2 ^ k ->
  0 <= hex_value_acc acc s < 2 ^ (k + 4 * Z.of_nat (String.length s)).
Proof.
  revert acc k. induction s as [|c s IH]; intros acc k Hs Hk Ha; cbn [hex_value_acc String.length].
  - by rewrite Z.mul_0_r, Z.add_0_r.
  - rewrite all_of_cons in Hs. apply andb_true_iff in Hs as [Hc Hs].
    apply hex_digit_value_range in Hc.
    replace (k + 4 * Z.of_nat (S (String.length s))) with ((k + 4) + 4 * Z.of_nat (String.length s)) by lia.
    apply IH; [done|lia|]. rewrite Z.pow_add_r by lia. lia.
Qed.

Lemma parse_hextet_range s z : parse_hextet s = Some z -> 0 <= z < 65536.
Proof.
  unfold parse_hextet. intros H. case_in H; [|done]. injection H as <-.
  match goal with X : _ = true |- _ => apply andb_true_iff in X as [[_ Hx]%andb_true_iff Hl%Nat.leb_le] end.
  pose proof (hex_value_range s 0 0) as R. destruct R as [R1 R2]; [done|lia|cbn; lia|].
  split; [done|]. eapply Z.lt_le_trans; [exact R2|].
  change 65536 with (2 ^ 16). apply Z.pow_le_mono_r; [lia|]. lia.
Qed.

Lemma lor_shift acc z : 0 <= acc -> 0 <= z < 65536 -> Z.lor (Z.shiftl acc 16) z = acc * 65536 + z.
Proof.
  intros Ha Hz.
  pose proof (Z.add_lor_land (Z.shiftl acc 16) z) as E.
  assert (X : Z.land (Z.shiftl acc 16) z = 0).
  { apply Z.bits_inj'. intros i Hi. rewrite Z.land_spec, Z.bits_0.
    destruct (Z.lt_ge_cases i 16) as [Hlt|Hge].
    - by rewrite Z.shiftl_spec_low.
    - rewrite (small_bit 16 z i) by (change (2 ^ 16) with 65536; lia). apply andb_false_r. }
  rewrite X, Z.add_0_r, Z.shiftl_mul_pow2 in E by lia. rewrite Z.shiftl_mul_pow2 by lia. done.
Qed.

Lemma parse_hextets_range l acc k z : 0 <= k -> 0 <= acc < 2 ^ k -> parse_hextets acc l = Some z ->
  0 <= z < 2 ^ (k + 16 * Z.of_nat (length l)).
Proof.
  revert acc k. induction l as [|s l IH]; intros acc k Hk Ha H; cbn [parse_hextets length] in *.
  - injection H as <-. by rewrite Z.mul_0_r, Z.add_0_r.
  - destruct (parse_hextet s) as [d|] eqn:E; [|done]. apply parse_hextet_range in E.
    rewrite lor_shift in H by lia.
    replace (k + 16 * Z.of_nat (S (length l))) with ((k + 16) + 16 * Z.of_nat (length l)) by lia.
    eapply IH; [|split|exact H]; [lia..|]. rewrite Z.pow_add_r by lia. lia.
Qed.

Lemma ipv6_int_of_wf s z : ipv6_int_of s = Some z -> wf_value V6 z.
Proof.
  unfold ipv6_int_of. cbn zeta. intros H. case_in H; [done|]. case_in H; [done|].
  destruct (with_ipv4_suffix (split ":" s)) as [parts|]; [|done]. case_in H; [done|].
  destruct (skips parts) as [|i [|]]; [| |done].
  - case_in H; [|done]. apply parse_hextets_range with (k := 0) in H; [|done|done].
    rewrite !andb_true_iff, Nat.eqb_eq in *. destruct_and!. unfold wf_value.
    by replace (max_prefixlen V6) with (0 + 16 * Z.of_nat (length parts)) by (cbn; lia).
  - set (hi := if String.eqb _ _ then _ else i) in *.
    set (lo := if String.eqb (default _ _) _ then (length parts - i - 1 - 1)%nat else _) in *.
    case_in H; [done|]. case_in H; [done|]. case_in H; [done|].
    destruct (parse_hextets 0 (take hi parts)) as [t|] eqn:E; [|done].
    apply parse_hextets_range with (k := 0) in E; [|done|done].
    assert (Hs : (hi + lo <= 7)%nat) by (match goal with X : (8 <? _)%nat = false |- _ => apply Nat.ltb_ge in X; lia end).
    assert (Ht : 0 <= t < 2 ^ (16 * Z.of_nat hi)).
    { split; [lia|]. eapply Z.lt_le_trans; [apply E|]. apply Z.pow_le_mono_r; [done|].
      rewrite length_take. lia. }
    apply parse_hextets_range with (k := 16 * Z.of_nat (8 - lo)) in H; [|lia|].
    + split; [lia|]. eapply Z.lt_le_trans; [apply H|]. apply Z.pow_le_mono_r; [done|].
      rewrite length_drop. cbn [max_prefixlen]. lia.
    + rewrite Z.shiftl_mul_pow2 by lia.
      replace (16 * Z.of_nat (8 - lo)) with (16 * Z.of_nat hi + 16 * Z.of_nat (8 - (hi + lo))) by lia.
      rewrite Z.pow_add_r by lia.
      assert (0 < 2 ^ (16 * Z.of_nat (8 - (hi + lo)))) by (apply Z.pow_pos_nonneg; lia). nia.
Qed.

Lemma ipv6_of_wf s z : ipv6_of s = Some z -> wf_value V6 z.
Proof.
  unfold ipv6_of. intros H. case_in H; [done|]. destruct (partition "%" s) as [[a sep] b].
  case_in H; [done|]. by apply ipv6_int_of_wf in H.
Qed.

Lemma ip_address_wf s a : ip_address s = Some a -> wf_ip a.
Proof.
  unfold ip_address. destruct (ipv4_of s) as [z|] eqn:E.
  - intros [= <-]. by apply ipv4_of_wf in E.
  - destruct (ipv6_of s) as [z|] eqn:E6; [|done]. intros [= <-]. by apply ipv6_of_wf in E6.
Qed.

Lemma right_zeros_range n z : 0 <= right_zeros n z <= Z.of_nat n.
Proof.
  revert z. induction n as [|n IH]; intros z; cbn [right_zeros]; [lia|].
  destruct (Z.odd z); [lia|]. specialize (IH (z / 2)). lia.
Qed.

Lemma prefix_of_int_range z p : prefix_of_int z = Some p -> 0 <= p <= 32.
Proof.
  unfold prefix_of_int. pose proof (right_zeros_range 32 z) as R. revert R.
  generalize (right_zeros 32 z) as r. cbn zeta. intros r R H. case_in H; [|done].
  injection H as <-. lia.
Qed.

Lemma prefix_of_range v m p : prefix_of v m = Some p -> 0 <= p <= max_prefixlen v.
Proof.
  unfold prefix_of. destruct m as [m|]; [|intros [= <-]; pose proof (max_prefixlen_pos v); lia].
  destruct (prefix_of_string v m) as [q|] eqn:E.
  - intros [= <-]. unfold prefix_of_string in E. cbn zeta in E. case_in E; [|done]. case_in E; [|done].
    injection E as <-. pose proof (int_of_digits_nonneg m). lia.
  - destruct v; [|done]. unfold prefix_of_mask. intros H. case_in H; [|done].
    destruct (prefix_of_int z) eqn:E'; [injection H as ->|].
    + by apply prefix_of_int_range in E'.
    + by apply prefix_of_int_range in H.
Qed.

Lemma network_of_wf v strict s n : network_of v strict s = Ok (Some n) -> nw_version n = v /\ wf_network n.
Proof.
  unfold network_of. cbn zeta. intros H. case_in H; [|done]. destruct p as [a m].
  destruct (match v with V4 => ipv4_of a | V6 => ipv6_of a end) as [packed|] eqn:Ea; [|done].
  destruct (prefix_of v m) as [p|] eqn:Ep; [|done]. apply prefix_of_range in Ep.
  assert (Hw : wf_value v packed) by (destruct v; [by apply ipv4_of_wf in Ea|by apply ipv6_of_wf in Ea]).
  assert (Hb : Z.land packed (ip_int_from_prefix v p) = packed - packed mod 2 ^ (max_prefixlen v - p)).
  { unfold ip_int_from_prefix. rewrite all_ones_eq. by apply land_mask. }
  assert (Hs : 0 < 2 ^ (max_prefixlen v - p)) by (apply Z.pow_pos_nonneg; lia).
  pose proof (Z.mod_pos_bound packed _ Hs) as Hr.
  pose proof (Z.mod_le packed _ ltac:(apply Hw) Hs) as Hl.
  rewrite Hb in H. unfold wf_network, free_bits.
  case_in H; [injection H as <-|destruct strict; [done|injection H as <-]]; cbn [nw_version prefixlen network_address].
  - split_and!; [done|lia|lia|done|]. rewrite Z.eqb_eq in *. lia.
  - split_and!; [done|lia|lia| |].
    + destruct Hw. unfold wf_value. lia.
    + rewrite Zminus_mod, Z.mod_mod, Z.sub_diag by lia. apply Z.mod_0_l. lia.
Qed.

Lemma ip_network_wf strict s n : ip_network strict s = Ok n -> wf_network n.
Proof.
  unfold ip_network. intros H. destruct (network_of V4 strict s) as [[n4|]|] eqn:E4; cbn in H; [| |done].
  - injection H as <-. by apply network_of_wf in E4 as [_ ?].
  - destruct (network_of V6 strict s) as [[n6|]|] eqn:E6; cbn in H; [|done|done].
    injection H as <-. by apply network_of_wf in E6 as [_ ?].
Qed.
End Reading.
