(* ===== verification/Url.v ===== *)
(** * Url

    What the code uses of the standard library's [urllib.parse]: [urlsplit] and
    the host, port and credentials of its result, [unquote] and [parse_qs].
    Text is ASCII, so [_checknetloc]'s normalisation of a host has nothing to
    do; a percent-encoded byte decodes to that byte. *)

From S2P Require Import Prelude Text Net.

Record url := Url { scheme : string; netloc : string; path : string; query : string; fragment : string }.
#[global] Instance url_eq_dec : EqDecision url.
Proof. solve_decision. Defined.

(** [s.find(c)], [s[:i]] and [s[i + 1:]] at once, for any [c] of a class. *)
Fixpoint cut_at (f : ascii -> bool) (s : string) : string * string :=
  match s with
  | EmptyString => ("", "")
  | String c s' => if f c then ("", s) else let '(a, b) := cut_at f s' in (String c a, b)
  end.

Fixpoint lstrip_by (f : ascii -> bool) (s : string) : string :=
  match s with
  | EmptyString => ""
  | String c s' => if f c then lstrip_by f s' else s
  end.

(** [s.replace(c, '')] for every [c] of a class *)
Fixpoint remove_chars (f : ascii -> bool) (s : string) : string :=
  match s with
  | EmptyString => ""
  | String c s' => if f c then remove_chars f s' else String c (remove_chars f s')
  end.

Definition chr (n : N) : ascii := ascii_of_N n.
Definition is_c0_or_space (c : ascii) : bool := (N_of_ascii c <=? 32)%N.
Definition is_tab_or_newline (c : ascii) : bool :=
  Ascii.eqb c (chr 9) || Ascii.eqb c (chr 10) || Ascii.eqb c (chr 13).
Definition is_scheme_char (c : ascii) : bool :=
  is_alpha c || is_digit c || Ascii.eqb c "+" || Ascii.eqb c "-" || Ascii.eqb c ".".

(** [_check_bracketed_host]: an address of the next version, or an IPv6 one. *)
Definition bracketed_host_ok (hostname : string) : bool :=
  match hostname with
  | String "v" rest =>
      let '(digits, after) := cut_at (fun c => negb (is_hex c)) rest in
      negb (String.eqb digits "")
      && match after with
         | String "." (String c s) => negb (contains (chr 10) (String c s))
         | _ => false
         end
  | _ => match ip_address hostname with
         | Some (Ip V6 _) => true
         | _ => false
         end
  end.

(** [_check_bracketed_netloc] *)
Definition bracketed_netloc_ok (netloc : string) : bool :=
  let '(_, _, hostname_and_port) := rpartition "@" netloc in
  let '(before_bracket, have_open_br, bracketed) := partition "[" hostname_and_port in
  if have_open_br then
    let '(hostname, _, port) := partition "]" bracketed in
    String.eqb before_bracket "" && (String.eqb port "" || String.prefix ":" port)
    && bracketed_host_ok hostname
  else
    let '(hostname, _, _) := partition ":" hostname_and_port in bracketed_host_ok hostname.

(** [urlsplit(url)], in its steps: the scheme, the network part, the rest.
    [urlparse] is it with the parameters cut from the path. *)
Definition split_scheme (s : string) : string * string :=
  let '(before, found, after) := partition ":" s in
  match before with
  | String c _ => if found && is_alpha c && all_of is_scheme_char before
                  then (lower before, after) else ("", s)
  | EmptyString => ("", s)
  end.

Definition netloc_end (c : ascii) : bool := Ascii.eqb c "/" || Ascii.eqb c "?" || Ascii.eqb c "#".
Definition split_netloc (s : string) : string * string :=
  match s with
  | String c1 (String c2 r) =>
      if Ascii.eqb c1 "/" && Ascii.eqb c2 "/" then cut_at netloc_end r else ("", s)
  | _ => ("", s)
  end.

Definition netloc_ok (netloc : string) : bool :=
  let opened := contains "[" netloc in
  let closed := contains "]" netloc in
  negb (xorb opened closed) && negb (opened && closed && negb (bracketed_netloc_ok netloc)).

Definition urlsplit (s : string) : res url :=
  let s := remove_chars is_tab_or_newline (lstrip_by is_c0_or_space s) in
  let '(scheme, rest) := split_scheme s in
  let '(netloc, rest) := split_netloc rest in
  if netloc_ok netloc then
    let '(rest, _, fragment) := partition "#" rest in
    let '(path, _, query) := partition "?" rest in
    Ok (Url scheme netloc path query fragment)
  else Raise ValueError.

(** [urlparse(url).path]: the last segment's parameters are cut from it, in the
    schemes that have them. *)
Definition uses_params : list string :=
  [""; "ftp"; "hdl"; "prospero"; "http"; "https"; "shttp"; "rtsp"; "rtsps"; "rtspu"; "sip"; "sips"; "mms"; "sftp"; "tel"].
Definition path_without_params (u : url) : string :=
  if bool_decide (scheme u ∈ uses_params) then
    let '(front, slash, segment) := rpartition "/" (path u) in
    let segment := (partition ";" segment).1.1 in
    if slash then front +:+ "/" +:+ segment else segment
  else path u.

(** [_hostinfo] *)
Definition hostinfo (netloc : string) : string * option string :=
  let '(_, _, hostinfo) := rpartition "@" netloc in
  let '(_, have_open_br, bracketed) := partition "[" hostinfo in
  let '(hostname, port) :=
    if have_open_br then
      let '(hostname, _, port) := partition "]" bracketed in
      let '(_, _, port) := partition ":" port in (hostname, port)
    else let '(hostname, _, port) := partition ":" hostinfo in (hostname, port) in
  (hostname, if String.eqb port "" then None else Some port).

(** [.hostname]: the zone of an address keeps its case. *)
Definition hostname (u : url) : option string :=
  let '(h, _) := hostinfo (netloc u) in
  if String.eqb h "" then None
  else let '(h, percent, zone) := partition "%" h in
       Some (if percent then lower h +:+ "%" +:+ zone else lower h).

(** [.port] *)
Definition port (u : url) : res (option Z) :=
  match (hostinfo (netloc u)).2 with
  | None => Ok None
  | Some p => if all_digits p
              then let z := int_of_digits p in if (z <=? 65535)%Z then Ok (Some z) else Raise ValueError
              else Raise ValueError
  end.

(** Whether [.username] or [.password] is not [None]. *)
Definition has_userinfo (u : url) : bool := contains "@" (netloc u).

(** [unquote(s)] *)
Fixpoint unquote (s : string) : string :=
  match s with
  | String "%" (String a (String b s') as rest) =>
      if is_hex a && is_hex b
      then String (ascii_of_N (Z.to_N (16 * hex_digit_value a + hex_digit_value b))) (unquote s')
      else String "%" (unquote rest)
  | String c s' => String c (unquote s')
  | EmptyString => ""
  end.

Fixpoint plus_to_space (s : string) : string :=
  match s with
  | EmptyString => ""
  | String c s' => String (if Ascii.eqb c "+" then " "%char else c) (plus_to_space s')
  end.

(** [parse_qsl(qs)]; [parse_qs(qs)] groups the values of one name, in order. *)
Definition parse_qsl (qs : string) : list (string * string) :=
  omap (fun name_value =>
    let '(name, _, value) := partition "=" name_value in
    if String.eqb value "" then None
    else Some (unquote (plus_to_space name), unquote (plus_to_space value))) (split "&" qs).

Definition parse_qs (qs : string) (name : string) : list string :=
  (filter (fun nv => nv.1 = name) (parse_qsl qs)).*2.

Example split_http : urlsplit " http://user:pw@[::1]:8080/a;b?c=d#e" = Ok (Url "http" "user:pw@[::1]:8080" "/a;b" "c=d" "e").
Proof. vm_compute. reflexivity. Qed.
Example split_bad : urlsplit "http://[::1" = Raise ValueError. Proof. vm_compute. reflexivity. Qed.
Example split_path : urlsplit "//evil.example/x" = Ok (Url "" "evil.example" "/x" "" ""). Proof. vm_compute. reflexivity. Qed.
Example host_upper : hostname (Url "http" "EXAMPLE.com:80" "" "" "") = Some "example.com". Proof. vm_compute. reflexivity. Qed.
Example port_bad : port (Url "http" "a:65536" "" "" "") = Raise ValueError. Proof. vm_compute. reflexivity. Qed.
Example unquote_ex : unquote "/%2F%2fx%zz%4" = "///x%zz%4". Proof. vm_compute. reflexivity. Qed.
Example qs_ex : parse_qs "host=a,b&x=&host=c+d" "host" = ["a,b"; "c d"]. Proof. vm_compute. reflexivity. Qed.

(** ** Characters of the parts *)

Lemma has_char_impl f g s : (forall c, f c = true -> g c = true) -> has_char g s = false -> has_char f s = false.
Proof.
  intros H. induction s as [|c s IH]; cbn; [done|]. intros [Hc Hs]%orb_false_iff.
  rewrite IH, orb_false_r by done. destruct (f c) eqn:E; [|done]. by rewrite (H c E) in Hc.
Qed.

Lemma remove_chars_id f s : has_char f s = false -> remove_chars f s = s.
Proof.
  induction s as [|c s IH]; cbn; [done|]. intros [Hc Hs]%orb_false_iff. by rewrite Hc, IH.
Qed.

Lemma remove_chars_none f s : has_char f (remove_chars f s) = false.
Proof. induction s as [|c s IH]; cbn; [done|]. destruct (f c) eqn:E; [done|]. cbn. by rewrite E. Qed.

Lemma cut_at_none f s : has_char f s = false -> cut_at f s = (s, "").
Proof.
  induction s as [|c s IH]; cbn; [done|]. intros [Hc Hs]%orb_false_iff. by rewrite Hc, IH.
Qed.

Lemma cut_at_before f s : has_char f (cut_at f s).1 = false.
Proof.
  induction s as [|c s IH]; cbn; [done|]. destruct (f c) eqn:E; [done|].
  destruct (cut_at f s). cbn in *. by rewrite E.
Qed.

Lemma cut_at_chars g f s : has_char g s = false -> has_char g (cut_at f s).1 = false.
Proof.
  induction s as [|c s IH]; cbn; [done|]. intros [Hc Hs]%orb_false_iff.
  destruct (f c); [done|]. destruct (cut_at f s). cbn in *. by rewrite Hc, IH.
Qed.

Lemma partition_chars g c s : has_char g s = false ->
  has_char g (partition c s).1.1 = false /\ has_char g (partition c s).2 = false.
Proof.
  induction s as [|x s IH]; cbn; [done|]. intros [Hc Hs]%orb_false_iff.
  destruct (Ascii.eqb x c); [done|]. destruct (partition c s) as [[a found] b]. cbn in *.
  destruct (IH Hs). by rewrite Hc.
Qed.
