(* ===== verification/Py.v ===== *)
(** * Python values

    The dynamically typed values the backend reads out of JSON columns
    ([alerts.trigger_config], [check_results.metrics], [checks.agent_selector])
    and the language operations it applies to them.  An operation Python refuses
    with an exception returns [Raise].  Floats are IEEE binary64
    ([SpecFloat.spec_float] at precision 53); comparisons between an int and a
    float are exact, as Python's are. *)

From Stdlib Require Export SpecFloat.
From S2P Require Import Prelude Text.

(** ** Floats *)

Abbreviation float := spec_float.
Definition prec : Z := 53.
Definition emax : Z := 1024.

Definition is_nan (f : float) : bool := match f with S754_nan => true | _ => false end.

(** [float(z)]: correctly rounded; out of range raises OverflowError. *)
Definition float_of_Z (z : Z) : res float :=
  match binary_normalize prec emax z 0 false with
  | S754_infinity _ => Raise OverflowError
  | f => Ok f
  end.

(** The sign of [m * 2^e - z], computed without rounding. *)
Definition cmp_scaled (m e z : Z) : comparison :=
  if (0 <=? e)%Z then (m * 2 ^ e ?= z)%Z else (m ?= z * 2 ^ (- e))%Z.

(** Compare a float with an int; [None] is "unordered" (NaN). *)
Definition float_cmp_Z (f : float) (z : Z) : option comparison :=
  match f with
  | S754_zero _ => Some (0 ?= z)%Z
  | S754_infinity s => Some (if s then Lt else Gt)
  | S754_nan => None
  | S754_finite s m e => Some (cmp_scaled (if s then Z.neg m else Z.pos m) e z)
  end.

(** ** Values *)

Inductive pyval :=
  | PNone
  | PBool (b : bool)
  | PInt (z : Z)
  | PFloat (f : float)
  | PStr (s : string)
  | PList (l : list pyval)
  | PDict (d : list (string * pyval)).

Abbreviation pydict := (list (string * pyval)).

#[global] Instance float_eq_dec : EqDecision float.
Proof. solve_decision. Defined.

Fixpoint pyval_eq_dec (v w : pyval) : {v = w} + {v <> w}.
Proof.
  destruct v as [|b|z|f|s|l|d], w as [|b'|z'|f'|s'|l'|d']; try (right; discriminate).
  - by left.
  - destruct (decide (b = b')) as [->|]; [by left|right; congruence].
  - destruct (decide (z = z')) as [->|]; [by left|right; congruence].
  - destruct (decide (f = f')) as [->|]; [by left|right; congruence].
  - destruct (decide (s = s')) as [->|]; [by left|right; congruence].
  - destruct (list_eq_dec (dec := pyval_eq_dec) l l') as [->|]; [by left|right; congruence].
  - destruct (list_eq_dec (dec := @prod_eq_dec string _ pyval pyval_eq_dec) d d') as [->|];
      [by left|right; congruence].
Defined.
#[global] Instance pyval_eq : EqDecision pyval := pyval_eq_dec.

Section DictGet.
Context {V : Type}.

(** [d[k]]: a JSON object keeps one value per key, the last one read. *)
Fixpoint assoc_get (d : list (string * V)) (k : string) : option V :=
  match d with
  | [] => None
  | (k', v) :: d' =>
      match assoc_get d' k with
      | Some w => Some w
      | None => if decide (k = k') then Some v else None
      end
  end.
End DictGet.

(** [d.get(k, default)] *)
Definition dict_get (d : pydict) (k : string) (dflt : pyval) : pyval :=
  default dflt (assoc_get d k).

(** [d[k] = v]: a key present keeps its place. *)
Definition dict_set (d : pydict) (k : string) (v : pyval) : pydict :=
  match assoc_get d k with
  | Some _ => map (fun kv => if decide (kv.1 = k) then (k, v) else kv) d
  | None => d ++ [(k, v)]
  end.

(** [v.get(k, default)]: only a dict has [get]. *)
Definition py_get (v : pyval) (k : string) (dflt : pyval) : res pyval :=
  match v with
  | PDict d => Ok (dict_get d k dflt)
  | _ => Raise AttributeError
  end.

(** [bool(v)] *)
Definition truthy (v : pyval) : bool :=
  match v with
  | PNone => false
  | PBool b => b
  | PInt z => negb (z =? 0)%Z
  | PFloat (S754_zero _) => false
  | PFloat _ => true
  | PStr s => negb (String.eqb s "")
  | PList l => match l with [] => false | _ => true end
  | PDict d => match d with [] => false | _ => true end
  end.

(** [a or b] *)
Definition py_or (a b : pyval) : pyval := if truthy a then a else b.

(** The numeric view of a value: bool is a subtype of int. *)
Inductive num := NInt (z : Z) | NFloat (f : float).

Definition as_num (v : pyval) : option num :=
  match v with
  | PBool b => Some (NInt (Z.b2z b))
  | PInt z => Some (NInt z)
  | PFloat f => Some (NFloat f)
  | _ => None
  end.

Definition num_cmp (a b : num) : option comparison :=
  match a, b with
  | NInt x, NInt y => Some (x ?= y)%Z
  | NFloat f, NInt z => float_cmp_Z f z
  | NInt z, NFloat f => CompOpp <$> float_cmp_Z f z
  | NFloat f, NFloat g => SFcompare f g
  end.

(** ** Equality and order

    [==] never raises; [<], [<=] raise TypeError across kinds. *)

Fixpoint py_eqb (a b : pyval) {struct a} : bool :=
  match a, b with
  | PNone, PNone => true
  | PStr s, PStr t => String.eqb s t
  | PList l, PList m =>
      (fix go (l m : list pyval) {struct l} : bool :=
         match l, m with
         | [], [] => true
         | x :: l', y :: m' => py_eqb x y && go l' m'
         | _, _ => false
         end) l m
  | PDict d, PDict e =>
      (length d =? length e) &&
      (fix go (d : list (string * pyval)) {struct d} : bool :=
         match d with
         | [] => true
         | (k, x) :: d' =>
             (match assoc_get e k with Some y => py_eqb x y | None => false end) && go d'
         end) d
  | _, _ =>
      match as_num a, as_num b with
      | Some x, Some y => match num_cmp x y with Some Eq => true | _ => false end
      | _, _ => false
      end
  end.

(** What [a ? b] answers: [None] is the unordered NaN (every comparison false). *)
Fixpoint py_cmp (a b : pyval) {struct a} : res (option comparison) :=
  match a, b with
  | PStr s, PStr t => Ok (Some (String.compare s t))
  | PList l, PList m =>
      (fix go (l m : list pyval) {struct l} : res (option comparison) :=
         match l, m with
         | [], [] => Ok (Some Eq)
         | [], _ => Ok (Some Lt)
         | _, [] => Ok (Some Gt)
         | x :: l', y :: m' => if py_eqb x y then go l' m' else py_cmp x y
         end) l m
  | _, _ =>
      match as_num a, as_num b with
      | Some x, Some y => Ok (num_cmp x y)
      | _, _ => Raise TypeError
      end
  end.

Definition cmp_lt (c : option comparison) : bool :=
  match c with Some Lt => true | _ => false end.
Definition cmp_le (c : option comparison) : bool :=
  match c with Some Lt | Some Eq => true | _ => false end.

Definition py_lt (a b : pyval) : res bool := cmp_lt <$> py_cmp a b.
Definition py_le (a b : pyval) : res bool := cmp_le <$> py_cmp a b.
Definition py_gt (a b : pyval) : res bool := py_lt b a.

(** Substring search, [t in s]. *)
Fixpoint substringb (t s : string) : bool :=
  String.prefix t s ||
  match s with
  | EmptyString => false
  | String _ s' => substringb t s'
  end.

(** [k in v] for a string [k]. *)
Definition py_in (k : string) (v : pyval) : res bool :=
  match v with
  | PList l => Ok (existsb (py_eqb (PStr k)) l)
  | PDict d => Ok (match assoc_get d k with Some _ => true | None => false end)
  | PStr s => Ok (substringb k s)
  | _ => Raise TypeError
  end.

(** [None in v] *)
Definition py_none_in (v : pyval) : res bool :=
  match v with
  | PList l => Ok (existsb (py_eqb PNone) l)
  | PDict _ => Ok false
  | _ => Raise TypeError
  end.

(** [set(v)]: the elements, each of which must be hashable. *)
Definition hashable (v : pyval) : bool :=
  match v with PList _ | PDict _ => false | _ => true end.

Definition py_set (items : list pyval) : res (list pyval) :=
  if forallb hashable items then Ok items else Raise TypeError.

(** [sorted(l)]: stable, raises TypeError when two elements do not compare. *)
Fixpoint insert_sorted (x : pyval) (l : list pyval) : res (list pyval) :=
  match l with
  | [] => Ok [x]
  | y :: l' => b ← py_lt x y; if (b : bool) then Ok (x :: l) else zs ← insert_sorted x l'; Ok (y :: zs)
  end.

Definition py_sorted (l : list pyval) : res (list pyval) := fold_res (fun acc x => insert_sorted x acc) [] l.

(** [max(l)]: the first greatest; ValueError on an empty list. *)
Definition py_max (l : list pyval) : res pyval :=
  match l with
  | [] => Raise ValueError
  | x :: l' => fold_res (fun m y => b ← py_gt y m; Ok (if (b : bool) then y else m)) x l'
  end.

(** The elements of an iterable of values (dict iteration yields its keys). *)
Definition py_iter (v : pyval) : res (list pyval) :=
  match v with
  | PList l => Ok l
  | PDict d => Ok (map (fun kv => PStr kv.1) d)
  | PStr s => Ok (map (fun c => PStr (String c "")) (String.list_ascii_of_string s))
  | _ => Raise TypeError
  end.

(** [int(v)] on a number: truncation toward zero. *)
Definition py_int (v : pyval) : res Z :=
  match v with
  | PInt z => Ok z
  | PBool b => Ok (Z.b2z b)
  | PFloat (S754_zero _) => Ok 0%Z
  | PFloat (S754_finite s m e) =>
      let a := if (0 <=? e)%Z then (Z.pos m * 2 ^ e)%Z else (Z.pos m / 2 ^ (- e))%Z in
      Ok (if s then (- a)%Z else a)
  | PFloat (S754_infinity _) => Raise OverflowError
  | PFloat S754_nan => Raise ValueError
  | _ => Raise TypeError
  end.

(** ** Text and digests

    [str()], [repr()] and [float()] on text, and [hashlib.sha256], as the code
    calls them.  The models hold for every implementation; [PyRuntimeLaws]
    collects the documented facts some theorems need. *)

Class PyRuntime := {
  py_str : pyval -> string;                (* str(v) *)
  py_repr : pyval -> string;               (* repr(v) *)
  float_of_str : string -> option float;   (* float(s); None is ValueError *)
  sha256_hex : string -> string;           (* hashlib.sha256(s.encode()).hexdigest() *)
  isoformat : Z -> string;                 (* datetime.isoformat(), of an instant *)
  json_loads : string -> option pyval;     (* json.loads(s); None is ValueError *)
}.

Class PyRuntimeLaws `{PyRuntime} : Prop := {
  py_str_int z : py_str (PInt z) = pretty z;
  py_str_str s : py_str (PStr s) = s;
  sha256_hex_length s : String.length (sha256_hex s) = 64;
  isoformat_inj t u : isoformat t = isoformat u -> t = u;
  isoformat_nonempty t : isoformat t <> "";
  isoformat_no_bar t : free_of "|"%char (isoformat t);
}.

(** [s.startswith(p)] *)
Definition startswith (p s : string) : bool := String.prefix p s.

(** ** Lemmas *)

Lemma assoc_get_app {V} (d e : list (string * V)) k :
  assoc_get (d ++ e) k = match assoc_get e k with Some w => Some w | None => assoc_get d k end.
Proof.
  induction d as [|[k' v] d IH]; cbn; [by destruct (assoc_get e k)|]. rewrite IH.
  by destruct (assoc_get e k).
Qed.

Lemma assoc_get_replace (d : pydict) k v k' :
  assoc_get (map (fun kv => if decide (kv.1 = k) then (k, v) else kv) d) k' =
  match assoc_get d k' with Some w => Some (if decide (k' = k) then v else w) | None => None end.
Proof.
  induction d as [|[j w] d IH]; cbn; [done|].
  destruct (decide (j = k)) as [->|Hj]; cbn; rewrite IH; destruct (assoc_get d k'); try done.
  - by destruct (decide (k' = k)).
  - repeat (case_decide; subst; try done).
Qed.

Lemma assoc_get_set (d : pydict) k v k' :
  assoc_get (dict_set d k v) k' = if decide (k' = k) then Some v else assoc_get d k'.
Proof.
  unfold dict_set. destruct (assoc_get d k) as [w|] eqn:E.
  - rewrite assoc_get_replace. destruct (decide (k' = k)) as [->|]; [by rewrite E|].
    by destruct (assoc_get d k').
  - rewrite assoc_get_app. cbn. repeat (case_decide; subst; try done).
Qed.

Lemma py_lt_int x y : py_lt (PInt x) (PInt y) = Ok (x <? y)%Z.
Proof. unfold py_lt, Z.ltb. cbn. by destruct (x ?= y)%Z. Qed.

Lemma py_le_int x y : py_le (PInt x) (PInt y) = Ok (x <=? y)%Z.
Proof. unfold py_le, Z.leb. cbn. by destruct (x ?= y)%Z. Qed.

Lemma py_gt_int x y : py_gt (PInt x) (PInt y) = Ok (y <? x)%Z.
Proof. apply py_lt_int. Qed.

Lemma py_in_strings k l : py_in k (PList (map PStr l)) = Ok (bool_decide (k ∈ l)).
Proof.
  cbn. f_equal. induction l as [|s l IH]; cbn; [done|].
  rewrite IH. destruct (String.eqb_spec k s) as [->|Hne]; cbn.
  - symmetry. apply bool_decide_eq_true_2. left.
  - apply bool_decide_ext. rewrite elem_of_cons. tauto.
Qed.

(** ** A plain runtime

    A concrete runtime for examples: numbers print in decimal, every float as
    ["float"], and the digest is a constant 64-digit string. *)
Definition plain_str (v : pyval) : string :=
  match v with
  | PNone => "None"
  | PBool b => if b then "True" else "False"
  | PInt z => pretty z
  | PFloat _ => "float"
  | PStr s => s
  | PList _ => "list"
  | PDict _ => "dict"
  end.

Fixpoint plain_digits (p : positive) : string :=
  match p with
  | xH => "1"
  | xO p => String "0" (plain_digits p)
  | xI p => String "1" (plain_digits p)
  end.

Definition plain_instant (t : Z) : string :=
  match t with
  | Z0 => "0"
  | Zpos p => String "+" (plain_digits p)
  | Zneg p => String "-" (plain_digits p)
  end.

Lemma plain_digits_nonempty p : plain_digits p <> "".
Proof. by destruct p. Qed.

Lemma plain_digits_inj p q : plain_digits p = plain_digits q -> p = q.
Proof.
  revert q. induction p as [p IH|p IH|]; intros [q|q|] E; try discriminate E; try done.
  - injection E as E. f_equal. auto.
  - injection E as E. by apply plain_digits_nonempty in E.
  - injection E as E. f_equal. auto.
  - injection E as E. symmetry in E. by apply plain_digits_nonempty in E.
Qed.

Lemma plain_digits_no_bar p : free_of "|"%char (plain_digits p).
Proof. induction p; by repeat split. Qed.

(** A few documents, enough for the examples. *)
Definition plain_json (s : string) : option pyval :=
  if String.eqb s "{error:VALIDATION_ERROR}" then Some (PDict [("error", PStr "VALIDATION_ERROR")])
  else if String.eqb s "{error:{}}" then Some (PDict [("error", PDict [])])
  else None.

Definition plain_runtime : PyRuntime := {|
  py_str := plain_str;
  py_repr := plain_str;
  float_of_str := fun _ => None;
  sha256_hex := fun _ => "0123456789abcdef0123456789abcdef0123456789abcdef0123456789abcdef";
  isoformat := plain_instant;
  json_loads := plain_json;
|}.

Lemma plain_runtime_laws : @PyRuntimeLaws plain_runtime.
Proof.
  split; [done..| | |].
  - intros [|p|p] [|q|q] E; cbn in E; try discriminate E; [done|..];
      injection E as E; f_equal; by apply plain_digits_inj.
  - by intros [].
  - intros [|p|p]; split; try done; apply plain_digits_no_bar.
Qed.

(** ** Sorting integers *)

Fixpoint zinsert (x : Z) (l : list Z) : list Z :=
  match l with
  | [] => [x]
  | y :: l' => if (x <? y)%Z then x :: l else y :: zinsert x l'
  end.

Definition zsort (l : list Z) : list Z := fold_left (fun acc x => zinsert x acc) l [].

Lemma insert_sorted_int x l :
  insert_sorted (PInt x) (map PInt l) = Ok (map PInt (zinsert x l)).
Proof.
  induction l as [|y l IH]; [done|]. cbn [map insert_sorted zinsert].
  rewrite py_lt_int. cbn. destruct (x <? y)%Z; [done|]. by rewrite IH.
Qed.

Lemma py_sorted_int l : py_sorted (map PInt l) = Ok (map PInt (zsort l)).
Proof.
  unfold py_sorted, zsort. change (@nil pyval) with (map PInt []). generalize (@nil Z) as acc.
  induction l as [|x l IH]; intros acc; cbn; [done|]. rewrite insert_sorted_int. cbn. apply IH.
Qed.

Lemma zinsert_perm x l : zinsert x l ≡ₚ x :: l.
Proof.
  induction l as [|y l IH]; cbn; [done|]. destruct (x <? y)%Z; [done|].
  rewrite IH. apply perm_swap.
Qed.

Lemma zsort_perm l : zsort l ≡ₚ l.
Proof.
  unfold zsort. rewrite <- (app_nil_r l) at 2. generalize (@nil Z) as acc.
  induction l as [|x l IH]; intros acc; cbn; [done|].
  rewrite IH, zinsert_perm. by rewrite Permutation_middle.
Qed.

Lemma zinsert_sorted x l : StronglySorted Z.le l -> StronglySorted Z.le (zinsert x l).
Proof.
  induction l as [|y l IH]; intros Hl; cbn; [by repeat constructor|].
  inversion_clear Hl as [|? ? Hl' Hy].
  destruct (Z.ltb_spec x y).
  - constructor; [by constructor|]. constructor; [lia|].
    eapply Forall_impl; [exact Hy|]. cbn. intros; lia.
  - constructor; [by apply IH|]. eapply Permutation_Forall; [symmetry; apply zinsert_perm|].
    constructor; [lia|done].
Qed.

Lemma zsort_sorted l : StronglySorted Z.le (zsort l).
Proof.
  unfold zsort. assert (Hn : StronglySorted Z.le []) by constructor. revert Hn.
  generalize (@nil Z) as acc. induction l as [|x l IH]; intros acc Hacc; cbn; [done|].
  by apply IH, zinsert_sorted.
Qed.

(** [max] of integers: an upper bound that is one of them. *)
Lemma py_max_int x l :
  exists m, py_max (map PInt (x :: l)) = Ok (PInt m) /\ m ∈ x :: l /\
            Forall (fun y => y <= m)%Z (x :: l).
Proof.
  cbn [map py_max]. revert x. induction l as [|y l IH]; intros x.
  - exists x. cbn. repeat constructor; done.
  - cbn [map fold_res]. rewrite py_gt_int. cbn.
    destruct (Z.ltb_spec x y).
    + destruct (IH y) as (m & Hm & Hin & Hf). exists m. split; [done|].
      inversion_clear Hf. split; [by right|]. repeat constructor; [lia|lia|done].
    + destruct (IH x) as (m & Hm & Hin & Hf). exists m. split; [done|].
      inversion_clear Hf. split.
      * apply elem_of_cons in Hin as [->|?]; [left|by right; right].
      * repeat constructor; [done|lia|done].
Qed.
