(* ===== verification/Store.v ===== *)
(** * The backend's stored state

    The rows of the tables the alerting, assignment and dependency services read
    and write (apps/backend/app/models/), reduced to the columns they use, and
    the queries of apps/backend/app/crud/ as functions of the stored state.

    Identifiers are [N] (UUIDs); instants and durations are [Z] microseconds,
    the resolution of Python's [datetime].  A transaction works on a [db] value;
    what it commits is the [db] it returns.  Where SQL leaves an order open
    (rows of a join, ties of an ORDER BY) the model uses insertion order. *)

From S2P Require Import Prelude Py Text.

Abbreviation uuid := N.
Abbreviation instant := Z.

Definition us_per_second : Z := 1000000.
Definition us_per_minute : Z := 60 * us_per_second.
Definition us_per_hour : Z := 60 * us_per_minute.
Definition us_per_day : Z := 24 * us_per_hour.

(** ** Enumerations (models/enum_model.py) *)

Inductive NotificationStatus := SENT | FAILED | RETRYING | RATE_LIMITED | DEDUPLICATED | SUPPRESSED.
Inductive AlertTriggerType :=
  STATUS_CHANGE | THRESHOLD | REPEATED_FAILURE | SSL_CERT_EXPIRY | NO_DATA | AGENT_OFFLINE.
Inductive AgentStatus := ONLINE | DEGRADED | OFFLINE | UNKNOWN.
Inductive AgentApprovalStatus := PENDING | ACTIVE | PAUSED | DISABLED | ARCHIVED | REJECTED.
Inductive AssignmentMode := MANUAL | REPLICATE | DISTRIBUTE.

#[global] Instance NotificationStatus_eq : EqDecision NotificationStatus.
Proof. solve_decision. Defined.
#[global] Instance AlertTriggerType_eq : EqDecision AlertTriggerType.
Proof. solve_decision. Defined.
#[global] Instance AgentStatus_eq : EqDecision AgentStatus.
Proof. solve_decision. Defined.
#[global] Instance AgentApprovalStatus_eq : EqDecision AgentApprovalStatus.
Proof. solve_decision. Defined.
#[global] Instance AssignmentMode_eq : EqDecision AssignmentMode.
Proof. solve_decision. Defined.

(** ** Rows *)

Record agent := Agent {
  ag_id : uuid;
  ag_name : option string;
  ag_hostname : option string;
  ag_tags : option (list string);
  ag_status : option AgentStatus;
  ag_approval : AgentApprovalStatus;
  ag_last_seen : option instant;   (* NOT NULL in the table; the code guards None *)
  ag_created_at : instant;
  ag_heartbeat_interval : option Z;
  ag_checks_updated_at : option instant;
  ag_run_id : option string;
  ag_ip_address : option string;
  ag_version : option string;
  ag_first_seen : instant;
  ag_check_sync_interval : option Z;
  ag_settings : pydict;            (* the reporter, tuning and logging overrides *)
  ag_health : pydict;              (* what the last heartbeat reported of its health *)
  ag_api_key_hash : option string;
  ag_api_key_created_at : option instant;
  ag_api_key_last_used : option instant;
  ag_recovery_secret_hash : option string;
  ag_approved_at : option instant;
  ag_status_reason : option string;
  ag_status_changed_at : option instant;
}.

#[global] Instance agent_eq : EqDecision agent.
Proof. solve_decision. Defined.

Definition set_checks_updated_at (now : instant) (a : agent) : agent :=
  Agent (ag_id a) (ag_name a) (ag_hostname a) (ag_tags a) (ag_status a) (ag_approval a)
    (ag_last_seen a) (ag_created_at a) (ag_heartbeat_interval a) (Some now)
    (ag_run_id a) (ag_ip_address a) (ag_version a) (ag_first_seen a)
    (ag_check_sync_interval a) (ag_settings a) (ag_health a) (ag_api_key_hash a)
    (ag_api_key_created_at a) (ag_api_key_last_used a) (ag_recovery_secret_hash a)
    (ag_approved_at a) (ag_status_reason a) (ag_status_changed_at a).

Record check := Check {
  ck_id : uuid;
  ck_agent_id : uuid;
  ck_depends_on : option uuid;
  ck_display_name : string;
  ck_type : string;
  ck_target : string;
  ck_interval : option Z;
  ck_enabled : bool;
  ck_mode : AssignmentMode;
  ck_selector : option pydict;
  ck_created_at : instant;
  ck_script : option string;
  ck_config : pydict;              (* check_config; NULL and {} are one *)
  ck_columns : pydict;             (* the other columns a create or update writes *)
}.

(** [check_results.metrics] is JSON text: absent or empty, not JSON, or a value. *)
Inductive metrics_text := NoMetrics | BadJson | Json (v : pyval).

Record check_result := CheckResult {
  cr_id : uuid;
  cr_timestamp : instant;
  cr_agent_id : uuid;
  cr_check_id : uuid;
  cr_success : bool;
  cr_latency_ms : option float;
  cr_metrics : metrics_text;
}.

Record alert := Alert {
  al_id : uuid;
  al_name : string;
  al_trigger : AlertTriggerType;
  al_config : pydict;
  al_enabled : bool;
  al_deleted : bool;
  al_notify_on_recovery : bool;
  al_resend_interval : option Z;   (* minutes *)
  al_max_resends : option Z;
  al_is_global : bool;
}.

Record alert_check_mapping := AlertCheckMapping {
  cm_alert_id : uuid;
  cm_check_id : uuid;
  cm_enabled : bool;
  cm_snoozed_until : option instant;
  cm_override_resend : option Z;
  cm_override_max : option Z;
}.

Record alert_notification_mapping := AlertNotificationMapping {
  nm_alert_id : uuid;
  nm_provider_id : uuid;
  nm_enabled : bool;
}.

Record provider := Provider {
  pv_id : uuid;
  pv_enabled : bool;
  pv_deleted : bool;
  pv_rate_count : option Z;
  pv_rate_window : option Z;       (* minutes *)
}.

Record notification_log := NotificationLog {
  nl_alert_id : uuid;
  nl_provider_id : uuid;
  nl_result_id : option uuid;
  nl_result_ts : option instant;
  nl_check_id : option uuid;
  nl_agent_id : option uuid;
  nl_check_success : bool;
  nl_latency_ms : option float;
  nl_status : NotificationStatus;
  nl_error : option string;
  nl_hash : option string;
  nl_is_resend : bool;
  nl_resend_count : Z;
  nl_sent_at : instant;
}.

Record db := Db {
  db_agents : gmap uuid agent;
  db_checks : gmap uuid check;
  db_alerts : gmap uuid alert;
  db_check_maps : list alert_check_mapping;
  db_notif_maps : list alert_notification_mapping;
  db_providers : gmap uuid provider;
  db_results : list check_result;
  db_logs : list notification_log;
}.

Definition empty_db : db := Db ∅ ∅ ∅ [] [] ∅ [] [].

Definition set_agents (d : db) (t : gmap uuid agent) : db :=
  Db t (db_checks d) (db_alerts d) (db_check_maps d) (db_notif_maps d)
     (db_providers d) (db_results d) (db_logs d).
Definition set_checks_table (d : db) (t : gmap uuid check) : db :=
  Db (db_agents d) t (db_alerts d) (db_check_maps d) (db_notif_maps d)
     (db_providers d) (db_results d) (db_logs d).
Definition set_alerts (d : db) (t : gmap uuid alert) : db :=
  Db (db_agents d) (db_checks d) t (db_check_maps d) (db_notif_maps d)
     (db_providers d) (db_results d) (db_logs d).
Definition set_check_maps (d : db) (l : list alert_check_mapping) : db :=
  Db (db_agents d) (db_checks d) (db_alerts d) l (db_notif_maps d)
     (db_providers d) (db_results d) (db_logs d).
Definition set_notif_maps (d : db) (l : list alert_notification_mapping) : db :=
  Db (db_agents d) (db_checks d) (db_alerts d) (db_check_maps d) l
     (db_providers d) (db_results d) (db_logs d).
Definition set_logs (d : db) (l : list notification_log) : db :=
  Db (db_agents d) (db_checks d) (db_alerts d) (db_check_maps d) (db_notif_maps d)
     (db_providers d) (db_results d) l.

(** [NotificationLogCRUD.add_log], [AlertCRUD.add_notification_logs] *)
Definition add_notification_logs (d : db) (rows : list notification_log) : db :=
  set_logs d (db_logs d ++ rows).

(** ** AlertCRUD *)

(** Rows that prove an evaluation was already audited ([DEDUP_RELEVANT_STATUSES]):
    every status but [RETRYING]. *)
Definition dedup_relevant (s : NotificationStatus) : bool :=
  match s with
  | SENT | FAILED | RATE_LIMITED | SUPPRESSED | DEDUPLICATED => true
  | RETRYING => false
  end.

Definition alert_live (a : alert) : bool := al_enabled a && negb (al_deleted a).

(** [list_active_alerts_for_check] *)
Definition list_active_alerts_for_check (d : db) (check_id : uuid) : list alert :=
  omap (fun m =>
          if bool_decide (cm_check_id m = check_id) && cm_enabled m then
            a ← db_alerts d !! cm_alert_id m;
            if alert_live a then Some a else None
          else None)
       (db_check_maps d).

(** [get_check_mapping] *)
Definition get_check_mapping (d : db) (alert_id check_id : uuid) : option alert_check_mapping :=
  head (filter (fun m => cm_alert_id m = alert_id /\ cm_check_id m = check_id) (db_check_maps d)).

Definition results_of (d : db) (check_id : uuid) : list check_result :=
  filter (fun r => cr_check_id r = check_id) (db_results d).

(** [get_recent_results_for_check]: newest first, LIMIT [n]. *)
Definition get_recent_results_for_check (d : db) (check_id : uuid) (n : nat) : list check_result :=
  take n (order_desc cr_timestamp (results_of d check_id)).

(** [CheckResultCRUD.get_latest_result_for_check] *)
Definition get_latest_result_for_check (d : db) (check_id : uuid) : option check_result :=
  head (get_recent_results_for_check d check_id 1).

(** [get_check_result_by_id] *)
Definition get_check_result_by_id (d : db) (result_id : uuid) : option check_result :=
  head (filter (fun r => cr_id r = result_id) (db_results d)).

(** The enabled provider mappings of an alert whose provider is not deleted:
    [list_active_notif_mappings_for_alert] and the [deleted_at is None] filter
    every caller applies to it. *)
Definition live_provider_ids (d : db) (alert_id : uuid) : list uuid :=
  omap (fun m =>
          if bool_decide (nm_alert_id m = alert_id) && nm_enabled m then
            p ← db_providers d !! nm_provider_id m;
            if pv_deleted p then None else Some (pv_id p)
          else None)
       (db_notif_maps d).

Definition dedup_rows (d : db) (alert_id : uuid) (about : notification_log -> bool)
    : list notification_log :=
  filter (fun r => Is_true (bool_decide (nl_alert_id r = alert_id) && about r
                            && dedup_relevant (nl_status r)))
         (db_logs d).

Definition about_check (c : uuid) (r : notification_log) : bool := bool_decide (nl_check_id r = Some c).
Definition about_agent (a : uuid) (r : notification_log) : bool := bool_decide (nl_agent_id r = Some a).

(** [get_last_notification_for_dedup] (and, per subject, its bulk form
    [last_notifications_by_subject]): ORDER BY sent_at DESC LIMIT 1. *)
Definition last_notification (d : db) (alert_id : uuid) (about : notification_log -> bool)
    : option notification_log :=
  head (order_desc nl_sent_at (dedup_rows d alert_id about)).

Definition get_last_notification_for_dedup (d : db) (alert_id check_id : uuid)
    : option notification_log :=
  last_notification d alert_id (about_check check_id).

(** [NotificationProviderCRUD.get_by_ids]: the live provider under an id. *)
Definition get_live_provider (d : db) (id : uuid) : option provider :=
  p ← db_providers d !! id; if pv_deleted p then None else Some p.

(** [NotificationLogCRUD.count_for_provider_since] *)
Definition count_for_provider_since (d : db) (id : uuid) (since : instant)
    (statuses : list NotificationStatus) : Z :=
  Z.of_nat (length (filter (fun r => nl_provider_id r = id /\ (since <= nl_sent_at r)%Z
                                     /\ nl_status r ∈ statuses) (db_logs d))).

(** ** Well-formedness

    What the primary keys give: rows are stored under their own 128-bit id. *)
Record keyed (d : db) : Prop := {
  keyed_alerts : forall i a, db_alerts d !! i = Some a -> al_id a = i;
  keyed_checks : forall i c, db_checks d !! i = Some c -> ck_id c = i;
  keyed_agents : forall i a, db_agents d !! i = Some a -> ag_id a = i;
  keyed_providers : forall i p, db_providers d !! i = Some p -> pv_id p = i;
  uuid_agents : forall i a, db_agents d !! i = Some a -> (i < uuid_bound)%N;
  uuid_checks : forall i c, db_checks d !! i = Some c -> (i < uuid_bound)%N;
}.

(** A SELECT without ORDER BY lists a table's rows. *)
Definition rows {R} (table : gmap uuid R) : list R := (map_to_list table).*2.

Lemma elem_of_rows {R} (table : gmap uuid R) x : x ∈ rows table <-> exists i, table !! i = Some x.
Proof.
  unfold rows. rewrite list_elem_of_fmap. split.
  - intros ([i y] & -> & Hy). exists i. by apply elem_of_map_to_list.
  - intros [i Hi]. exists (i, x). split; [done|]. by apply elem_of_map_to_list.
Qed.

(** Rows kept under their own id have ids that differ. *)
Lemma rows_ids_nodup {R} (key : R -> uuid) (table : gmap uuid R) :
  (forall i x, table !! i = Some x -> key x = i) -> NoDup (map key (rows table)).
Proof.
  intros Hk. unfold rows.
  replace (map key (map_to_list table).*2) with (map_to_list table).*1; [apply NoDup_fst_map_to_list|].
  change (map key) with (fmap (M := list) key). rewrite <- list_fmap_compose.
  apply list_fmap_ext. intros n [i x] Hn. cbn.
  symmetry. apply Hk, elem_of_map_to_list. by eapply list_elem_of_lookup_2.
Qed.

(** ** Lemmas on the notification log *)

Lemma dedup_rows_app d rows a about :
  dedup_rows (add_notification_logs d rows) a about =
  dedup_rows d a about ++
  filter (fun r => Is_true (bool_decide (nl_alert_id r = a) && about r
                            && dedup_relevant (nl_status r))) rows.
Proof. unfold dedup_rows. cbn. apply filter_app. Qed.

Lemma dedup_rows_before now d a about :
  Forall (fun r => nl_sent_at r <= now)%Z (db_logs d) ->
  Forall (fun r => nl_sent_at r <= now)%Z (dedup_rows d a about).
Proof.
  rewrite !Forall_forall. intros H r Hr. apply H.
  unfold dedup_rows in Hr. by apply list_elem_of_filter in Hr as [_ ?].
Qed.

(** The row a fire writes last is the one the next evaluation reads. *)
Lemma last_notification_snoc now d a about rows r :
  Forall (fun r => nl_sent_at r <= now)%Z (db_logs d) ->
  Forall (fun r => nl_sent_at r <= now)%Z rows ->
  nl_sent_at r = now -> nl_alert_id r = a -> about r = true ->
  dedup_relevant (nl_status r) = true ->
  last_notification (add_notification_logs d (rows ++ [r])) a about = Some r.
Proof.
  intros Hd Hrows Hnow Ha Hab Hst. unfold last_notification.
  rewrite dedup_rows_app, filter_app, (assoc_L (++)).
  rewrite (filter_cons_True _ r []).
  2: { rewrite bool_decide_eq_true_2, Hab, Hst by done. done. }
  rewrite filter_nil, order_desc_snoc_top; [done|].
  rewrite Hnow. apply Forall_app; split.
  - by apply dedup_rows_before.
  - rewrite Forall_forall in Hrows |- *. intros x Hx. apply Hrows.
    by apply list_elem_of_filter in Hx as [_ ?].
Qed.

(** Rows of another alert or subject change nothing. *)
Lemma dedup_rows_elsewhere d a about rows :
  Forall (fun r => nl_alert_id r <> a \/ about r = false) rows ->
  dedup_rows (add_notification_logs d rows) a about = dedup_rows d a about.
Proof.
  intros H. rewrite dedup_rows_app.
  assert (Hn : filter (fun r => Is_true (bool_decide (nl_alert_id r = a) && about r
                            && dedup_relevant (nl_status r))) rows = []).
  { induction H as [|r rows Hr H IH]; [done|]. rewrite filter_cons_False; [done|].
    destruct Hr as [Hr|Hr].
    - rewrite bool_decide_eq_false_2 by done. by intros [].
    - rewrite Hr, andb_false_r. by intros []. }
  by rewrite Hn, app_nil_r.
Qed.

Lemma last_notification_other d a about rows :
  Forall (fun r => nl_alert_id r <> a \/ about r = false) rows ->
  last_notification (add_notification_logs d rows) a about = last_notification d a about.
Proof. intros H. unfold last_notification. by rewrite dedup_rows_elsewhere. Qed.

(** A live provider of an alert is found under its id. *)
Lemma live_providers_found d a i :
  keyed d -> i ∈ live_provider_ids d a -> exists p, get_live_provider d i = Some p.
Proof.
  intros Hk Hi. unfold live_provider_ids in Hi. apply list_elem_of_omap in Hi as (m & _ & Hm).
  destruct (bool_decide _ && _); [|done].
  destruct (db_providers d !! nm_provider_id m) as [p|] eqn:Ep; [|done]. cbn in Hm.
  destruct (pv_deleted p) eqn:Ed; [done|]. injection Hm as <-.
  exists p. unfold get_live_provider. rewrite (keyed_providers d Hk _ _ Ep), Ep. cbn. by rewrite Ed.
Qed.

Lemma set_logs_id d : set_logs d (db_logs d) = d.
Proof. by destruct d. Qed.

Lemma add_no_logs d : add_notification_logs d [] = d.
Proof. unfold add_notification_logs. by rewrite app_nil_r, set_logs_id. Qed.

#[export] Hint Resolve set_logs_id add_no_logs dedup_rows_before : lux.
