(* ===== verification/Ssrf.v ===== *)
(** * Ssrf

    The addresses a check may reach: shared/ssrf.py (the blocked ranges, the
    hosts a target names, the resolution and the verdict on each address),
    shared/ssrf_http.py's connection on a vetted address, shared/url_security.py
    and agent/server_api.py's [server_origin] (the server's address), the
    agent's policy (checks/_ssrf_policy.py) and the server's validator
    (core/check_target_validator.py).

    The system's resolver and the opening of a socket are parameters, [Sockets]:
    what a name resolves to may differ from one instant to the next. *)

From S2P Require Import Prelude Text Net Url Py Store.

(** ** shared/ssrf.py: the ranges *)

Definition ip_networks (l : list string) : list network :=
  omap (fun s => match ip_network true s with Ok n => Some n | Raise _ => None end) l.

Definition CLOUD_METADATA_NETWORKS : list network :=
  ip_networks ["169.254.0.0/16"; "fe80::/10"; "fd00:ec2::254/128"; "100.100.100.200/32"].

Definition PRIVATE_NETWORKS : list network :=
  ip_networks ["10.0.0.0/8"; "172.16.0.0/12"; "192.168.0.0/16"; "fc00::/7"; "127.0.0.0/8";
               "::1/128"; "0.0.0.0/8"; "::/128"; "100.64.0.0/10"].

Definition _NAT64 : network := Network V6 (Z.shiftl 0x64ff9b 96) 96.

Definition _IPV4_CARRIERS : list network := ip_networks ["::ffff:0:0/96"; "2002::/16"] ++ [_NAT64].

Example all_ranges_read :
  length CLOUD_METADATA_NETWORKS = 4 /\ length PRIVATE_NETWORKS = 9 /\ length _IPV4_CARRIERS = 3
  /\ ip_network true "64:ff9b::/96" = Ok _NAT64.
Proof. vm_compute. done. Qed.

(** ** The hosts a target names *)

Definition _POSTGRES_SCHEMES : list string := ["postgres"; "postgresql"].
Definition _DATABASE_SCHEMES : list string := _POSTGRES_SCHEMES ++ ["mysql"; "mariadb"].
Definition _DEFAULT_DATABASE_HOST : string := "localhost".

(** [_strip_port] *)
Definition strip_port (host : string) : string :=
  match host with
  | String "[" rest => (partition "]" rest).1.1
  | _ => if (count_char ":" host =? 1)%nat then (partition ":" host).1.1 else host
  end.

Definition non_empty (s : string) : option string := if String.eqb s "" then None else Some s.

Definition extract_host (target : string) : option string :=
  if substringb "://" target then
    match urlsplit target with Ok u => hostname u | Raise _ => None end
  else non_empty (strip_port (strip target)).

Definition opt_list {A} (o : option A) : list A := match o with Some x => [x] | None => [] end.

Definition extract_hosts (target : string) : list string :=
  if negb (substringb "://" target) then opt_list (extract_host target) else
  match urlsplit target with
  | Raise _ => []
  | Ok parsed =>
      let scheme := (partition "+" (lower (scheme parsed))).1.1 in
      if negb (bool_decide (scheme ∈ _POSTGRES_SCHEMES)) then
        match hostname parsed with
        | Some h => [h]
        | None => if bool_decide (scheme ∈ _DATABASE_SCHEMES) then [_DEFAULT_DATABASE_HOST] else []
        end
      else
        let query := parse_qs (query parsed) in
        let named := split "," (rpartition "@" (netloc parsed)).2
                     ++ concat (split "," <$> (query "host" ++ query "hostaddr")) in
        let hosts := (fun h => strip_port (strip (unquote h))) <$> named in
        let socket_path h := String.prefix "/" h in
        let network := filter (fun h => h <> "" /\ ~ socket_path h) hosts in
        if negb (bool_decide (network = [])) || existsb socket_path hosts then network
        else [_DEFAULT_DATABASE_HOST]
  end.

(** ** The IPv4 address an IPv6 one carries *)

(** [.ipv4_mapped], [.sixtofour] *)
Definition ipv4_mapped (z : Z) : option Z :=
  if (Z.shiftr z 32 =? 0xFFFF)%Z then Some (Z.land z 0xFFFFFFFF) else None.
Definition sixtofour (z : Z) : option Z :=
  if (Z.shiftr z 112 =? 0x2002)%Z then Some (Z.land (Z.shiftr z 80) 0xFFFFFFFF) else None.

Definition embedded_ipv4 (a : ip) : option ip :=
  match ip_version a with
  | V4 => None
  | V6 => Ip V4 <$>
      match ipv4_mapped (ip_value a) with
      | Some z => Some z
      | None => match sixtofour (ip_value a) with
                | Some z => Some z
                | None => if in_network a _NAT64 then Some (Z.land (ip_value a) 0xFFFFFFFF) else None
                end
      end
  end.

(** The first range of [networks] the IPv4 addresses from [low] to [high] reach. *)
Definition metadata_overlap_carried (low high : Z) : option network :=
  head (filter (fun blocked => nw_version blocked = V4 /\ (low <= broadcast_address blocked)%Z
                               /\ (network_address blocked <= high)%Z) CLOUD_METADATA_NETWORKS).

(** What [network] carries of [carrier]: one contiguous IPv4 range. *)
Definition carried_range (network carrier : network) : option (Z * Z) :=
  if overlaps network carrier then
    let first := Ip V6 (Z.max (network_address network) (network_address carrier)) in
    let last := Ip V6 (Z.min (broadcast_address network) (broadcast_address carrier)) in
    match embedded_ipv4 first, embedded_ipv4 last with
    | Some low, Some high => Some (ip_value low, ip_value high)
    | _, _ => None
    end
  else None.

(** The first of the values the function gives over the list. *)
Fixpoint first_some {A B} (f : A -> option B) (l : list A) : option B :=
  match l with
  | [] => None
  | x :: l => match f x with Some y => Some y | None => first_some f l end
  end.

Definition network_cloud_metadata_overlap (network : network) : option Net.network :=
  match head (filter (fun blocked => nw_version network = nw_version blocked /\ overlaps network blocked)
                     CLOUD_METADATA_NETWORKS) with
  | Some blocked => Some blocked
  | None =>
      match nw_version network with
      | V4 => None
      | V6 => first_some (fun carrier =>
                match carried_range network carrier with
                | Some (low, high) => metadata_overlap_carried low high
                | None => None
                end) _IPV4_CARRIERS
      end
  end.

(** ** The verdict on one address *)

(** The ranges a policy blocks, in the order they are tried. *)
Definition blocked_ranges (block_cloud_metadata block_private_networks : bool) : list (list network * string) :=
  (if block_cloud_metadata then [(CLOUD_METADATA_NETWORKS, "cloud metadata / link-local")] else [])
  ++ (if block_private_networks then [(PRIVATE_NETWORKS, "private network")] else []).

Definition candidates (a : ip) : list ip := a :: opt_list (embedded_ipv4 a).

(** What [blocked_range] answers of an address once it is read. *)
Definition verdict (block_cloud_metadata block_private_networks : bool) (a : ip) : option (network * string) :=
  first_some (fun '(networks, label) =>
    match head (filter (fun net => existsb (fun c => in_network c net) (candidates a)) networks) with
    | Some matched => Some (matched, label)
    | None => None
    end) (blocked_ranges block_cloud_metadata block_private_networks).

Definition blocked_range (block_cloud_metadata block_private_networks : bool) (ip_str : string)
    : option (network * string) :=
  match ip_address ip_str with
  | None => None
  | Some a => verdict block_cloud_metadata block_private_networks a
  end.

Definition assert_ip_allowed (block_cloud_metadata block_private_networks : bool) (ip_str : string) : res unit :=
  match blocked_range block_cloud_metadata block_private_networks ip_str with
  | None => Ok tt
  | Some _ => Raise SsrfBlockedError
  end.

(** ** Resolution *)

(** [socket.getaddrinfo(host, None, AF_UNSPEC, SOCK_STREAM)] at an instant: the
    address of each entry where it is a text; and a TCP connection to an address. *)
Class Sockets := {
  getaddrinfo : instant -> string -> res (list (option string));
  stream : Type;
  connect_tcp : string -> Z -> option Z -> res stream;
}.

Section Resolution.
Context `{Sockets}.

(** [dict.fromkeys(l)]: each value once, at its first place. *)
Fixpoint unique_acc (seen l : list string) : list string :=
  match l with
  | [] => []
  | x :: l => if bool_decide (x ∈ seen) then unique_acc seen l else x :: unique_acc (x :: seen) l
  end.
Definition unique (l : list string) : list string := unique_acc [] l.

Definition resolve_host (now : instant) (host : string) : res (list string) :=
  match ip_address host with
  | Some _ => Ok [host]
  | None => match getaddrinfo now host with
            | Ok infos => Ok (unique (omap id infos))
            | Raise OSError => Ok []
            | Raise e => Raise e
            end
  end.

Definition allowed_addresses (block_cloud_metadata block_private_networks : bool) (now : instant) (host : string)
    : res (list string) :=
  addresses ← resolve_host now host;
  let allowed := filter (fun ip => blocked_range block_cloud_metadata block_private_networks ip = None) addresses in
  match addresses, allowed with
  | first :: _, [] =>
      _ ← assert_ip_allowed block_cloud_metadata block_private_networks first; Ok allowed
  | _, _ => Ok allowed
  end.

Definition assert_target_allowed (block_cloud_metadata block_private_networks : bool)
    (now : instant) (target : string) : res unit :=
  if negb block_cloud_metadata && negb block_private_networks then Ok tt else
  fold_res (fun _ host =>
    addresses ← resolve_host now host;
    fold_res (fun _ ip_str => assert_ip_allowed block_cloud_metadata block_private_networks ip_str) tt addresses)
    tt (extract_hosts target).

(** core/check_target_validator.py *)
Definition validate_check_target (block_cloud_metadata block_private_networks : bool)
    (now : instant) (target : string) : res unit :=
  match assert_target_allowed block_cloud_metadata block_private_networks now target with
  | Raise SsrfBlockedError => Raise CheckTargetBlockedError
  | r => r
  end.

(** ** shared/ssrf_http.py: [VettedBackend.connect_tcp]

    The addresses tried, in order, and what came of it. *)
Definition connect_budget (timeout address_seconds : option Z) (is_last : bool) : option Z :=
  match address_seconds with
  | Some seconds =>
      if is_last then timeout
      else Some (Z.min (match timeout with Some t => if (t =? 0)%Z then seconds else t | None => seconds end) seconds)
  | None => timeout
  end.

Fixpoint try_addresses (port : Z) (timeout address_seconds : option Z) (final : string) (failure : exn)
    (addresses : list string) : list string * res stream :=
  match addresses with
  | [] => ([], Raise failure)
  | address :: rest =>
      let budget := connect_budget timeout address_seconds (String.eqb address final) in
      match connect_tcp address port budget with
      | Ok s => ([address], Ok s)
      | Raise ((ConnectError | TimeoutError) as e) =>
          let '(tried, r) := try_addresses port timeout address_seconds final e rest in (address :: tried, r)
      | Raise e => ([address], Raise e)
      end
  end.

Definition vetted_connect (allowed : string -> res (list string)) (host : string) (port : Z)
    (timeout address_seconds : option Z) : list string * res stream :=
  match allowed host with
  | Raise e => ([], Raise e)
  | Ok addresses =>
      try_addresses port timeout address_seconds (default "" (last addresses)) ConnectError addresses
  end.

(** ** The agent's policy: checks/_ssrf_policy.py *)

Definition apply_server_policy (block_private : bool) (response : pydict) : bool :=
  match assoc_get response "block_private_networks" with
  | Some (PBool value) => value
  | _ => block_private
  end.

(** [host.encode("idna")] of ASCII text: no empty label before the last, none
    over 63 characters. *)
Definition idna_encodable (host : string) : bool :=
  match host with
  | EmptyString => true
  | _ => let labels := split "." host in
         negb (existsb (fun l => String.eqb l "") (take (length labels - 1) labels))
         && negb (existsb (fun l => (64 <=? String.length l)%nat) labels)
  end.

Definition vet_host_name (host : string) : res unit :=
  if contains (chr 0) host || negb (idna_encodable host) then Raise CheckConfigError else Ok tt.

Definition policy_assert_target_allowed (block_private : bool) (now : instant) (target : string) : res unit :=
  _ ← fold_res (fun _ host => vet_host_name host) tt (extract_hosts target);
  assert_target_allowed true block_private now target.

Definition policy_allowed_addresses (block_private : bool) (now : instant) (host : string) : res (list string) :=
  _ ← vet_host_name host;
  allowed_addresses true block_private now host.

Definition policy_ip_allowed (block_private : bool) (ip : string) : bool :=
  bool_decide (blocked_range true block_private ip = None).

Definition policy_assert_ip_allowed (block_private : bool) (ip : string) : res unit :=
  assert_ip_allowed true block_private ip.
End Resolution.

(** ** shared/url_security.py *)

(** [_is_private_ip]: [int(part)] takes a sign, spaces around and leading zeros. *)
Definition is_private_ip (hostname : string) : bool :=
  match map_res (fun part => int_of_word (strip part)) (split "." hostname) with
  | Ok [a; b; c; d] =>
      if forallb (fun octet => (0 <=? octet) && (octet <=? 255))%Z [a; b; c; d] then
        if (a =? 10)%Z then true
        else if ((a =? 172) && ((16 <=? b) && (b <=? 31)))%Z then true
        else ((a =? 192) && (b =? 168))%Z
      else false
  | _ => false
  end.

Definition is_internal_destination (hostname : string) : bool :=
  if bool_decide (hostname ∈ ["localhost"; "127.0.0.1"; "::1"]) then true
  else if bool_decide (hostname ∈ ["server"; "luxswirl_server"; "luxswirl-server"]) then true
  else if endswith ".local" hostname then true
  else if endswith ".internal" hostname then true
  else is_private_ip hostname.

Definition validate_server_url (allow_insecure_http : bool) (url : string) : res unit :=
  parsed ← urlsplit url;
  if String.eqb (scheme parsed) "" then Raise ValueError else
  match hostname parsed with
  | None => Raise ValueError
  | Some hostname =>
      if String.eqb (scheme parsed) "https" then Ok tt
      else if String.eqb (scheme parsed) "http" then
        if is_internal_destination hostname then Ok tt
        else if allow_insecure_http then Ok tt else Raise ValueError
      else Raise ValueError
  end.

(** agent/server_api.py *)
Definition server_origin (allow_insecure_http : bool) (url : string) : res string :=
  if String.eqb url "" then Raise ValueError else
  parsed ← urlsplit url;
  if has_userinfo parsed then Raise ValueError else
  match port parsed with
  | Raise _ | Ok (Some 0%Z) => Raise ValueError
  | Ok _ =>
      _ ← validate_server_url allow_insecure_http url;
      if negb (String.eqb (rstrip_char "/" (path_without_params parsed)) "")
         || negb (String.eqb (query parsed) "") || negb (String.eqb (fragment parsed) "")
      then Raise ValueError
      else Ok (scheme parsed +:+ "://" +:+ netloc parsed)
  end.
