(* ===== verification/SsrfTheorems.v ===== *)
(** * SsrfTheorems

    What the address policy promises: a network refused or accepted by its
    overlap reaches, or not, a blocked address; an IPv6 address that carries an
    IPv4 one is blocked with it; a connection is opened only on an allowed
    address; the agent's idea of a private address is the policy's. *)

From S2P Require Import Prelude Text Net Url Py Store Ssrf.

Local Open Scope Z_scope.

(** ** Lists *)

Lemma first_some_none {A B} (f : A -> option B) l : first_some f l = None <-> forall x, x ∈ l -> f x = None.
Proof.
  induction l as [|x l IH]; cbn; [by split; [intros _ y []%elem_of_nil|]|].
  destruct (f x) eqn:E; split.
  - done.
  - intros H. by rewrite <- E, (H x) by constructor.
  - intros H y [->|Hy]%elem_of_cons; [done|]. by apply IH.
  - intros H. apply IH. intros y Hy. apply H. by constructor.
Qed.

Lemma first_some_some {A B} (f : A -> option B) l y :
  first_some f l = Some y -> exists x, x ∈ l /\ f x = Some y.
Proof.
  induction l as [|x l IH]; cbn; [done|]. destruct (f x) eqn:E.
  - intros [= <-]. exists x. split; [constructor|done].
  - intros H. destruct (IH H) as (x' & Hx & E'). exists x'. split; [by constructor|done].
Qed.

Lemma head_filter_none {A} (P : A -> Prop) `{forall x, Decision (P x)} (l : list A) :
  head (filter P l) = None <-> forall x, x ∈ l -> ~ P x.
Proof.
  induction l as [|x l IH]; [by split; [intros _ y []%elem_of_nil|]|].
  rewrite filter_cons. destruct (decide (P x)) as [Hx|Hx]; cbn; split.
  - done.
  - intros H'. by destruct (H' x); [constructor|].
  - intros H' y [->|Hy]%elem_of_cons; [done|]. by apply IH.
  - intros H'. apply IH. intros y Hy. apply H'. by constructor.
Qed.

(** ** The ranges as intervals *)

(** The ranges [in_network] tests: all well formed, so that each is an interval. *)
Definition all_networks : list network := CLOUD_METADATA_NETWORKS ++ PRIVATE_NETWORKS ++ _IPV4_CARRIERS.

Lemma all_networks_wf n : n ∈ all_networks -> wf_network n.
Proof.
  intros Hn. assert (H : forallb (fun n => (0 <=? prefixlen n) && (prefixlen n <=? max_prefixlen (nw_version n))
      && (0 <=? network_address n) && (network_address n <? 2 ^ max_prefixlen (nw_version n))
      && (network_address n mod 2 ^ free_bits n =? 0)) all_networks = true) by (vm_compute; reflexivity).
  rewrite forallb_forall in H. specialize (H n). rewrite !andb_true_iff in H.
  destruct H as [[[[? ?] ?] ?] ?]; [by apply list_elem_of_In|].
  unfold wf_network, wf_value. lia.
Qed.

Lemma metadata_wf n : n ∈ CLOUD_METADATA_NETWORKS -> wf_network n.
Proof. intros H. apply all_networks_wf. unfold all_networks. rewrite !elem_of_app. auto. Qed.
Lemma private_wf n : n ∈ PRIVATE_NETWORKS -> wf_network n.
Proof. intros H. apply all_networks_wf. unfold all_networks. rewrite !elem_of_app. auto. Qed.
Lemma carrier_wf n : n ∈ _IPV4_CARRIERS -> wf_network n.
Proof. intros H. apply all_networks_wf. unfold all_networks. rewrite !elem_of_app. auto. Qed.

Lemma carrier_v6 n : n ∈ _IPV4_CARRIERS -> nw_version n = V6.
Proof.
  intros Hn. assert (H : forallb (fun n => bool_decide (nw_version n = V6)) _IPV4_CARRIERS = true) by (vm_compute; reflexivity).
  rewrite forallb_forall in H. apply list_elem_of_In, H in Hn. by apply bool_decide_eq_true in Hn.
Qed.

(** An address is allowed where none of its two forms is in a blocked range. *)
Lemma verdict_none bm bp a : verdict bm bp a = None
  <-> forall net c, (bm = true /\ net ∈ CLOUD_METADATA_NETWORKS \/ bp = true /\ net ∈ PRIVATE_NETWORKS) ->
      c ∈ candidates a -> in_network c net = false.
Proof.
  unfold verdict. rewrite first_some_none. split.
  - intros H net c Hnet Hc. unfold candidates in *.
    assert (exists ns label, (ns, label) ∈ blocked_ranges bm bp /\ net ∈ ns) as (ns & label & Hr & Hn).
    { unfold blocked_ranges. destruct Hnet as [[-> Hnet]|[-> Hnet]]; eexists _, _; (split; [|exact Hnet]).
      - by constructor.
      - apply elem_of_app. right. by constructor. }
    specialize (H _ Hr). cbv beta iota in H. case_in H; [done|].
    match goal with X : head _ = None |- _ => apply head_filter_none with (x := net) in X; [|done] end.
    destruct (in_network c net) eqn:E; [|done]. exfalso.
    match goal with X : ~ _ |- _ => apply X end. apply Is_true_true, existsb_exists.
    exists c. split; [by apply list_elem_of_In|done].
  - intros H [ns label] Hr.
    assert (Hns : bm = true /\ ns = CLOUD_METADATA_NETWORKS \/ bp = true /\ ns = PRIVATE_NETWORKS).
    { unfold blocked_ranges in Hr. destruct bm, bp; cbn in Hr; rewrite ?elem_of_cons, ?elem_of_nil in Hr; naive_solver. }
    destruct (head (filter _ ns)) as [net|] eqn:E; [|done]. exfalso.
    apply head_Some_elem_of, list_elem_of_filter in E as [E Hnet].
    apply Is_true_true, existsb_exists in E as (c & Hc%list_elem_of_In & E).
    rewrite (H net c) in E; [done| |done]. naive_solver.
Qed.

(** ** The part of IPv6 that carries IPv4 *)

(** The low bits a carrier's address drops: all of it is the IPv4 address, but
    for 6to4, whose is followed by eighty bits. *)
Definition carrier_shift (carrier : network) : Z := if network_address carrier =? Z.shiftl 0x2002 112 then 80 else 0.

Lemma mapped_spec z : 0 <= z ->
  ipv4_mapped z = if decide (0xFFFF * 2 ^ 32 <= z < 0x10000 * 2 ^ 32) then Some (z - 0xFFFF * 2 ^ 32) else None.
Proof.
  intros Hz. unfold ipv4_mapped. rewrite Z.shiftr_div_pow2 by lia.
  change 0xFFFFFFFF with (Z.ones 32). rewrite Z.land_ones by lia. case_decide as D.
  - assert (E : z / 2 ^ 32 = 0xFFFF).
    { symmetry. apply Z.div_unique with (r := z - 0xFFFF * 2 ^ 32); lia. }
    rewrite E, Z.eqb_refl. f_equal. symmetry. apply Z.mod_unique with (q := 0xFFFF); lia.
  - case_match eqn:E; [|done]. apply Z.eqb_eq in E. pose proof (Z.div_mod z (2 ^ 32)).
    pose proof (Z.mod_pos_bound z (2 ^ 32)). lia.
Qed.

Lemma sixtofour_spec z : 0 <= z ->
  sixtofour z = if decide (0x2002 * 2 ^ 112 <= z < 0x2003 * 2 ^ 112) then Some ((z - 0x2002 * 2 ^ 112) / 2 ^ 80) else None.
Proof.
  intros Hz. unfold sixtofour. rewrite !Z.shiftr_div_pow2 by lia.
  change 0xFFFFFFFF with (Z.ones 32). rewrite Z.land_ones by lia. case_decide as D.
  - assert (E : z / 2 ^ 112 = 0x2002).
    { symmetry. apply Z.div_unique with (r := z - 0x2002 * 2 ^ 112); lia. }
    rewrite E, Z.eqb_refl. f_equal.
    replace z with (z - 0x2002 * 2 ^ 112 + (0x2002 * 2 ^ 32) * 2 ^ 80) at 1 by lia.
    rewrite Z.div_add, Z.mod_add by lia. apply Z.mod_small.
    split; [apply Z.div_pos; lia|apply Z.div_lt_upper_bound; lia].
  - case_match eqn:E; [|done]. apply Z.eqb_eq in E. pose proof (Z.div_mod z (2 ^ 112)).
    pose proof (Z.mod_pos_bound z (2 ^ 112)). lia.
Qed.

Lemma nat64_spec z : 0 <= z < 2 ^ 128 ->
  (if in_network (Ip V6 z) _NAT64 then Some (Z.land z 0xFFFFFFFF) else None)
  = if decide (0x64ff9b * 2 ^ 96 <= z < 0x64ff9b * 2 ^ 96 + 2 ^ 32) then Some (z - 0x64ff9b * 2 ^ 96) else None.
Proof.
  intros Hz. assert (Hn : wf_network _NAT64) by (apply carrier_wf; unfold _IPV4_CARRIERS; rewrite elem_of_app, list_elem_of_singleton; auto).
  pose proof (in_network_spec (Ip V6 z) _NAT64 Hn Hz) as I. rewrite broadcast_eq in I by done. cbn [ip_value ip_version] in I.
  change (network_address _NAT64) with (0x64ff9b * 2 ^ 96) in I. change (2 ^ free_bits _NAT64) with (2 ^ 32) in I.
  change (nw_version _NAT64) with V6 in I.
  change 0xFFFFFFFF with (Z.ones 32). rewrite Z.land_ones by lia.
  destruct (in_network _ _) eqn:E.
  - destruct (proj1 I eq_refl) as [_ E']. rewrite decide_True by lia. f_equal.
    symmetry. apply Z.mod_unique with (q := 0x64ff9b * 2 ^ 64); lia.
  - rewrite decide_False; [done|]. intros D. enough (false = true) by done. apply I. split; [done|lia].
Qed.

(** Each carrier's addresses carry one IPv4 address each, in order. *)
Lemma embedded_spec z : 0 <= z < 2 ^ 128 ->
  embedded_ipv4 (Ip V6 z) = Ip V4 <$>
    (if decide (0xFFFF * 2 ^ 32 <= z < 0x10000 * 2 ^ 32) then Some (z - 0xFFFF * 2 ^ 32)
     else if decide (0x2002 * 2 ^ 112 <= z < 0x2003 * 2 ^ 112) then Some ((z - 0x2002 * 2 ^ 112) / 2 ^ 80)
     else if decide (0x64ff9b * 2 ^ 96 <= z < 0x64ff9b * 2 ^ 96 + 2 ^ 32) then Some (z - 0x64ff9b * 2 ^ 96) else None).
Proof.
  intros Hz. unfold embedded_ipv4. cbn [ip_version ip_value].
  rewrite mapped_spec, sixtofour_spec, nat64_spec by lia. f_equal.
  destruct (decide (0xFFFF * 2 ^ 32 <= z < 0x10000 * 2 ^ 32)); [done|].
  by destruct (decide (0x2002 * 2 ^ 112 <= z < 0x2003 * 2 ^ 112)).
Qed.

Lemma carriers_eq : _IPV4_CARRIERS =
  [Network V6 (0xFFFF * 2 ^ 32) 96; Network V6 (0x2002 * 2 ^ 112) 16; Network V6 (0x64ff9b * 2 ^ 96) 96].
Proof. vm_compute. reflexivity. Qed.

Lemma carrier_spec c : c ∈ _IPV4_CARRIERS ->
  0 <= carrier_shift c /\ broadcast_address c = network_address c + 2 ^ (32 + carrier_shift c) - 1
  /\ forall z, network_address c <= z <= broadcast_address c ->
     embedded_ipv4 (Ip V6 z) = Some (Ip V4 ((z - network_address c) / 2 ^ carrier_shift c)).
Proof.
  intros Hc. pose proof (carrier_wf c Hc) as W. pose proof (broadcast_eq c W) as B.
  rewrite carriers_eq in Hc. rewrite !elem_of_cons, elem_of_nil in Hc.
  destruct Hc as [->|[->|[->|[]]]];
    match goal with |- context [carrier_shift ?c] =>
      let k := eval vm_compute in (carrier_shift c) in change (carrier_shift c) with k in * end;
    match type of B with context [free_bits ?c] =>
      let k := eval vm_compute in (free_bits c) in change (free_bits c) with k in * end;
    cbn [network_address] in *; (split; [lia|split; [lia|]]); intros z Hz; rewrite B in Hz;
    rewrite embedded_spec by lia.
  - rewrite decide_True by lia. change (2 ^ 0) with 1. by rewrite Z.div_1_r.
  - rewrite decide_False, decide_True by lia. done.
  - rewrite !decide_False, decide_True by lia. change (2 ^ 0) with 1. by rewrite Z.div_1_r.
Qed.

Lemma embedded_carrier z b : 0 <= z < 2 ^ 128 -> embedded_ipv4 (Ip V6 z) = Some b ->
  exists c, c ∈ _IPV4_CARRIERS /\ network_address c <= z <= broadcast_address c.
Proof.
  intros Hz H.
  assert (Hc : forall c, c ∈ _IPV4_CARRIERS -> network_address c <= z < network_address c + 2 ^ (32 + carrier_shift c) ->
             exists c, c ∈ _IPV4_CARRIERS /\ network_address c <= z <= broadcast_address c).
  { intros c Hc Hr. exists c. split; [done|]. pose proof (carrier_spec c Hc) as (_ & B & _). lia. }
  rewrite embedded_spec in H by done.
  case_decide as D1; [|case_decide as D2; [|case_decide as D3; [|done]]].
  - apply (Hc (Network V6 (0xFFFF * 2 ^ 32) 96)); [rewrite carriers_eq, !elem_of_cons; tauto|].
    change (carrier_shift _) with 0. cbn [network_address]. lia.
  - apply (Hc (Network V6 (0x2002 * 2 ^ 112) 16)); [rewrite carriers_eq, !elem_of_cons; tauto|].
    change (carrier_shift _) with 80. cbn [network_address]. lia.
  - apply (Hc (Network V6 (0x64ff9b * 2 ^ 96) 96)); [rewrite carriers_eq, !elem_of_cons; tauto|].
    change (carrier_shift _) with 0. cbn [network_address]. lia.
Qed.

Lemma carried_range_spec n c : wf_network n -> nw_version n = V6 -> c ∈ _IPV4_CARRIERS ->
  carried_range n c =
    if overlaps n c
    then Some ((Z.max (network_address n) (network_address c) - network_address c) / 2 ^ carrier_shift c,
               (Z.min (broadcast_address n) (broadcast_address c) - network_address c) / 2 ^ carrier_shift c)
    else None.
Proof.
  intros Hn Hv Hc. unfold carried_range. destruct (overlaps n c) eqn:O; [|done]. cbn zeta.
  pose proof (carrier_wf c Hc) as Wc.
  apply overlaps_spec in O as (_ & O1 & O2); [|done..].
  pose proof (broadcast_wf n Hn) as [N1 _]. pose proof (broadcast_wf c Wc) as [C1 _].
  pose proof (carrier_spec c Hc) as (_ & _ & S). rewrite !S by lia. done.
Qed.

(** A metadata range is met by the addresses that carry [low] to [high]. *)
Lemma overlap_carried_none low high : metadata_overlap_carried low high = None
  <-> forall b, b ∈ CLOUD_METADATA_NETWORKS -> nw_version b = V4 ->
      broadcast_address b < low \/ high < network_address b.
Proof.
  unfold metadata_overlap_carried. rewrite head_filter_none. split.
  - intros H b Hb Hv. specialize (H b Hb). destruct (Z.lt_ge_cases (broadcast_address b) low); [by left|].
    right. destruct (Z.lt_ge_cases high (network_address b)); [done|]. destruct H. done.
  - intros H b Hb (Hv & H1 & H2). specialize (H b Hb Hv). lia.
Qed.

Lemma overlap_none n : network_cloud_metadata_overlap n = None
  <-> (forall b, b ∈ CLOUD_METADATA_NETWORKS -> nw_version n = nw_version b -> overlaps n b = false)
      /\ (nw_version n = V6 -> forall c low high, c ∈ _IPV4_CARRIERS -> carried_range n c = Some (low, high) ->
          metadata_overlap_carried low high = None).
Proof.
  unfold network_cloud_metadata_overlap.
  pose proof (head_filter_none (fun b => nw_version n = nw_version b /\ overlaps n b) CLOUD_METADATA_NETWORKS) as F.
  assert (F' : head (filter (fun b => nw_version n = nw_version b /\ overlaps n b) CLOUD_METADATA_NETWORKS) = None
    <-> forall b, b ∈ CLOUD_METADATA_NETWORKS -> nw_version n = nw_version b -> overlaps n b = false).
  { rewrite F. split; intros H b Hb; specialize (H b Hb).
    - intros Hv. destruct (overlaps n b) eqn:O; [|done]. by destruct H.
    - intros [Hv O%Is_true_true]. by rewrite (H Hv) in O. }
  clear F. rewrite <- F'. destruct (head _) as [b|].
  - split; [done|]. by intros [? _].
  - destruct (nw_version n) eqn:V; [by split|]. rewrite first_some_none. split.
    + intros H. split; [done|]. intros _ c low high Hc E. specialize (H c Hc). by rewrite E in H.
    + intros [_ H] c Hc. destruct (carried_range n c) as [[low high]|] eqn:E; [|done]. by eapply H.
Qed.

(** A candidate is the address, or the IPv4 one it carries. *)
Lemma elem_of_host_candidates a c : c ∈ candidates a <-> c = a \/ embedded_ipv4 a = Some c.
Proof.
  unfold candidates, opt_list. rewrite elem_of_cons. destruct (embedded_ipv4 a) as [b|].
  - rewrite list_elem_of_singleton. split; [intros [? | ->]; auto|intros [? | [= ->]]; auto].
  - rewrite elem_of_nil. naive_solver.
Qed.

(** A network that overlaps no range reaches no blocked address. *)
Lemma no_overlap_reaches_none n a : wf_network n -> wf_ip a -> in_network a n = true ->
  network_cloud_metadata_overlap n = None -> verdict true false a = None.
Proof.
  intros Hn Ha Hin [Hd Hc]%overlap_none. apply verdict_none.
  intros net c [[_ Hnet]|[? _]] Hcand; [|done]. destruct (in_network c net) eqn:E; [exfalso|done].
  apply (in_network_spec a n Hn Ha) in Hin as [Hv Hi]. pose proof (metadata_wf net Hnet) as Wn.
  apply elem_of_host_candidates in Hcand as [->|Hemb].
  - apply (in_network_spec a net Wn Ha) in E as [Hv' Hi'].
    enough (overlaps n net = true) by (rewrite Hd in *; [done|done|congruence]).
    apply overlaps_spec; [done..|]. split; [congruence|lia].
  - destruct a as [[|] z]; [done|]. cbn [ip_version ip_value] in *. change (0 <= z < 2 ^ 128) in Ha.
    pose proof (embedded_carrier z c Ha Hemb) as (car & Hcar & Hr).
    pose proof (carrier_spec car Hcar) as (Hk & B & S). rewrite (S z Hr) in Hemb. injection Hemb as <-.
    pose proof (carried_range_spec n car Hn (eq_sym Hv) Hcar) as R.
    assert (O : overlaps n car = true).
    { apply overlaps_spec; [done|by apply carrier_wf|]. rewrite (carrier_v6 car Hcar). split; [congruence|lia]. }
    rewrite O in R. specialize (Hc (eq_sym Hv) car _ _ Hcar R).
    assert (Hv4 : nw_version net = V4).
    { unfold in_network in E. apply andb_true_iff in E as [E _]. by apply bool_decide_eq_true in E. }
    set (low := _ / _) in Hc at 1. set (high := (Z.min _ _ - _) / _) in Hc.
    apply (proj1 (overlap_carried_none low high) Hc net Hnet) in Hv4 as Hout.
    assert (0 < 2 ^ carrier_shift car) by (apply Z.pow_pos_nonneg; lia).
    assert (Hlow : low <= (z - network_address car) / 2 ^ carrier_shift car) by (apply Z.div_le_mono; lia).
    assert (Hhigh : (z - network_address car) / 2 ^ carrier_shift car <= high) by (apply Z.div_le_mono; lia).
    apply in_network_spec in E as [_ E]; [cbn [ip_value] in E; lia|done|].
    split; cbn [ip_version ip_value max_prefixlen]; [apply Z.div_pos; lia|].
    apply Z.div_lt_upper_bound; [lia|]. rewrite <- Z.pow_add_r by lia.
    rewrite (Z.add_comm _ 32). lia.
Qed.

(** An address with a form in a range of a blocked list is refused. *)
Lemma verdict_in bm bp net c a :
  bm = true /\ net ∈ CLOUD_METADATA_NETWORKS \/ bp = true /\ net ∈ PRIVATE_NETWORKS ->
  c = a \/ embedded_ipv4 a = Some c -> in_network c net = true -> verdict bm bp a <> None.
Proof.
  intros Hnet Hc Hin E. rewrite verdict_none in E.
  rewrite (E net c Hnet) in Hin; [done|]. by apply elem_of_host_candidates.
Qed.

(** An address of both is an address the policy refuses. *)
Lemma direct_reaches n b : wf_network n -> b ∈ CLOUD_METADATA_NETWORKS -> overlaps n b = true ->
  exists a, wf_ip a /\ in_network a n = true /\ verdict true false a <> None.
Proof.
  intros Hn Hb O. pose proof (metadata_wf b Hb) as Wb.
  pose proof (broadcast_wf n Hn) as [N1 N2]. pose proof (broadcast_wf b Wb) as [B1 B2].
  apply overlaps_spec in O as (Hv & O1 & O2); [|done..].
  set (a := Ip (nw_version n) (Z.max (network_address n) (network_address b))).
  assert (Ha : wf_ip a).
  { destruct N2, B2, Hn as (_ & [] & _), Wb as (_ & [] & _). unfold wf_ip, wf_value, a. cbn.
    rewrite <- Hv in *. lia. }
  exists a. split_and!; [done|apply in_network_spec; [done..|]; unfold a; cbn; split; [done|lia]|].
  apply (verdict_in _ _ b a); [by left|by left|]. apply in_network_spec; [done..|].
  unfold a. cbn. split; [done|lia].
Qed.

(** Between the first and the last address a carrier and a network share lies
    one that carries any IPv4 address between the two they carry. *)
Lemma carried_between c lo hi y : c ∈ _IPV4_CARRIERS ->
  network_address c <= lo -> lo <= hi -> hi <= broadcast_address c ->
  (lo - network_address c) / 2 ^ carrier_shift c <= y <= (hi - network_address c) / 2 ^ carrier_shift c ->
  exists z, lo <= z <= hi /\ embedded_ipv4 (Ip V6 z) = Some (Ip V4 y).
Proof.
  intros Hc Hlo Hlh Hhi Hy. pose proof (carrier_spec c Hc) as (Hk & B & S).
  assert (P : 0 < 2 ^ carrier_shift c) by (apply Z.pow_pos_nonneg; lia).
  assert (Hle : y * 2 ^ carrier_shift c <= hi - network_address c).
  { etransitivity; [apply Z.mul_le_mono_nonneg_r; [lia|apply Hy]|]. rewrite Z.mul_comm. apply Z.mul_div_le. lia. }
  destruct (decide (y = (lo - network_address c) / 2 ^ carrier_shift c)) as [->|Hne].
  - exists lo. split; [lia|]. apply S. lia.
  - exists (network_address c + y * 2 ^ carrier_shift c).
    assert (lo - network_address c < y * 2 ^ carrier_shift c).
    { pose proof (Z.mul_succ_div_gt (lo - network_address c) (2 ^ carrier_shift c) P). nia. }
    split; [lia|]. rewrite S by lia. by rewrite Z.add_simpl_l, Z.div_mul by lia.
Qed.

Lemma carried_reaches n c low high : wf_network n -> nw_version n = V6 -> c ∈ _IPV4_CARRIERS ->
  carried_range n c = Some (low, high) -> metadata_overlap_carried low high <> None ->
  exists a, wf_ip a /\ in_network a n = true /\ verdict true false a <> None.
Proof.
  intros Hn Hv Hc R Hm. pose proof (carrier_wf c Hc) as Wc.
  rewrite carried_range_spec in R by done. destruct (overlaps n c) eqn:O; [|done].
  apply overlaps_spec in O as (_ & O1 & O2); [|done..].
  pose proof (broadcast_wf n Hn) as [N1 [_ N2]]. rewrite Hv in N2.
  pose proof (broadcast_wf c Wc) as [C1 _]. pose proof Hn as (_ & [N0 _] & _). 
  destruct (metadata_overlap_carried low high) as [b|] eqn:E; [clear Hm|done].
  apply head_Some_elem_of, list_elem_of_filter in E as ((V4b & L1 & L2) & Hb).
  pose proof (metadata_wf b Hb) as Wb. pose proof (broadcast_wf b Wb) as [B1 [_ B2]].
  pose proof Wb as (_ & [B0 _] & _). rewrite V4b in B2.
  set (lo := Z.max (network_address n) (network_address c)) in *.
  set (hi := Z.min (broadcast_address n) (broadcast_address c)) in *. injection R as <- <-.
  destruct (carried_between c lo hi (Z.max (network_address b) ((lo - network_address c) / 2 ^ carrier_shift c)))
    as (z & Hz & He); [done|subst lo hi; lia..| |].
  { split; [lia|]. apply Z.max_lub; [done|]. apply Z.div_le_mono; [|subst lo hi; lia].
    pose proof (carrier_spec c Hc) as (Hk & _). apply Z.pow_pos_nonneg; lia. }
  assert (Ha : wf_ip (Ip V6 z)) by (unfold wf_ip, wf_value; cbn in *; subst lo hi; lia).
  exists (Ip V6 z). split_and!; [done|apply in_network_spec; [done..|]; cbn; subst lo hi; split; [done|lia]|].
  eapply (verdict_in _ _ b); [by left|right; exact He|].
  apply in_network_spec; [done| |cbn; split; [done|lia]].
  unfold wf_ip, wf_value. cbn [ip_version ip_value]. lia.
Qed.

(** ... and one that overlaps a range reaches a blocked address. *)
Lemma overlap_reaches_one n : wf_network n -> network_cloud_metadata_overlap n <> None ->
  exists a, wf_ip a /\ in_network a n = true /\ verdict true false a <> None.
Proof.
  intros Hn Ho. unfold network_cloud_metadata_overlap in Ho.
  destruct (head (filter _ CLOUD_METADATA_NETWORKS)) as [b|] eqn:E.
  - apply head_Some_elem_of, list_elem_of_filter in E as [[_ O] Hb].
    apply (direct_reaches n b); [done..|by apply Is_true_true].
  - destruct (nw_version n) eqn:Hv; [done|]. destruct (first_some _ _) as [b|] eqn:F; [|done].
    apply first_some_some in F as (c & Hc & F).
    destruct (carried_range n c) as [[low high]|] eqn:R; [|done].
    apply (carried_reaches n c low high); [done..|by rewrite F].
Qed.

(** C34: The overlap of a network with the cloud-metadata ranges is exact, through
    IPv6 networks that carry IPv4 addresses too: a network is let through where,
    and only where, none of its addresses is one a check is refused. *)
Theorem overlap_exact strict s n : ip_network strict s = Ok n ->
  network_cloud_metadata_overlap n = None
  <-> forall a, wf_ip a -> in_network a n = true -> verdict true false a = None.
Proof.
  intros Hn%ip_network_wf. split.
  - intros Ho a Ha Hin. by apply (no_overlap_reaches_none n a).
  - intros Hall. destruct (network_cloud_metadata_overlap n) eqn:E; [exfalso|done].
    destruct (overlap_reaches_one n Hn) as (a & Ha & Hin & Hv); [by rewrite E|].
    apply Hv. by apply Hall.
Qed.

(** ** An address and the forms that carry it *)

(** The IPv6 forms of an IPv4 address: mapped, 6to4 (with any lower bits), NAT64. *)
Definition mapped_form (z : Z) : ip := Ip V6 (0xFFFF * 2 ^ 32 + z).
Definition sixtofour_form (z low : Z) : ip := Ip V6 (0x2002 * 2 ^ 112 + z * 2 ^ 80 + low).
Definition nat64_form (z : Z) : ip := Ip V6 (0x64ff9b * 2 ^ 96 + z).

Lemma forms_embed z low : 0 <= z < 2 ^ 32 -> 0 <= low < 2 ^ 80 ->
  embedded_ipv4 (mapped_form z) = Some (Ip V4 z) /\ embedded_ipv4 (sixtofour_form z low) = Some (Ip V4 z)
  /\ embedded_ipv4 (nat64_form z) = Some (Ip V4 z).
Proof.
  intros Hz Hl. unfold mapped_form, sixtofour_form, nat64_form. rewrite !embedded_spec by lia. split_and!.
  - rewrite decide_True by lia. cbn. do 2 f_equal. lia.
  - rewrite decide_False, decide_True by lia. cbn [fmap option_fmap option_map]. do 2 f_equal.
    symmetry. apply Z.div_unique with (r := low); lia.
  - rewrite !decide_False, decide_True by lia. cbn. do 2 f_equal. lia.
Qed.

Lemma carried_verdict bm bp a b : embedded_ipv4 a = Some b ->
  verdict bm bp b <> None -> verdict bm bp a <> None.
Proof.
  intros He Hb E. apply Hb. rewrite verdict_none in E |- *. intros net c Hnet Hc.
  apply (E net c Hnet). apply elem_of_host_candidates in Hc as [-> | Hc]; apply elem_of_host_candidates; [by right|].
  exfalso. destruct a as [[|] z]; [done|]. unfold embedded_ipv4 in He. cbn [ip_version] in He.
  destruct (match ipv4_mapped _ with Some _ => _ | None => _ end); [|done]. injection He as <-. done.
Qed.

(** An IPv4 address a policy blocks is blocked in every IPv6 form that carries
    it to a socket: mapped, 6to4 and NAT64. *)
Theorem carried_forms_blocked bm bp z low : 0 <= z < 2 ^ 32 -> 0 <= low < 2 ^ 80 ->
  verdict bm bp (Ip V4 z) <> None ->
  verdict bm bp (mapped_form z) <> None /\ verdict bm bp (sixtofour_form z low) <> None
  /\ verdict bm bp (nat64_form z) <> None.
Proof.
  intros Hz Hl Hv. destruct (forms_embed z low Hz Hl) as (E1 & E2 & E3).
  split_and!; by eapply carried_verdict.
Qed.

Lemma carried_forms_blocked_witness :
  ip_address "::ffff:169.254.169.254" = Some (mapped_form 2852039166)
  /\ verdict true false (mapped_form 2852039166) <> None.
Proof.
  split; [vm_compute; reflexivity|].
  apply (carried_forms_blocked true false 2852039166 0); [lia|lia|vm_compute; congruence].
Defined.

Lemma overlap_exact_witness :
  ip_network false "2002:a9fe:a9fe::/48" = Ok (Network V6 (0x2002a9fea9fe * 2 ^ 80) 48)
  /\ network_cloud_metadata_overlap (Network V6 (0x2002a9fea9fe * 2 ^ 80) 48) <> None
  /\ ~ (forall a, wf_ip a -> in_network a (Network V6 (0x2002a9fea9fe * 2 ^ 80) 48) = true -> verdict true false a = None).
Proof.
  assert (E : ip_network false "2002:a9fe:a9fe::/48" = Ok (Network V6 (0x2002a9fea9fe * 2 ^ 80) 48)) by (vm_compute; reflexivity).
  assert (O : network_cloud_metadata_overlap (Network V6 (0x2002a9fea9fe * 2 ^ 80) 48) <> None) by (vm_compute; congruence).
  split_and!; [exact E|exact O|]. intros H. apply O. by apply (overlap_exact false _ _ E).
Defined.

(** ** Resolution and connection *)

Section Resolution.
Context `{Sockets}.

Lemma unique_acc_subset seen l x : x ∈ unique_acc seen l -> x ∈ l /\ ~ x ∈ seen.
Proof.
  revert seen. induction l as [|y l IH]; intros seen Hx; cbn in Hx; [by apply elem_of_nil in Hx|].
  case_bool_decide as D.
  - apply IH in Hx as [??]. split; [by constructor|done].
  - apply elem_of_cons in Hx as [->|Hx]; [split; [constructor|done]|].
    apply IH in Hx as [? Hn]. rewrite elem_of_cons in Hn. split; [by constructor|tauto].
Qed.

Lemma assert_ip_ok bm bp s : assert_ip_allowed bm bp s = Ok tt <-> blocked_range bm bp s = None.
Proof. unfold assert_ip_allowed. by destruct (blocked_range bm bp s). Qed.

(** What [allowed_addresses] answers, of what the name resolves to. *)
Lemma allowed_addresses_spec bm bp now host addresses : resolve_host now host = Ok addresses ->
  allowed_addresses bm bp now host =
    let allowed := filter (fun ip => blocked_range bm bp ip = None) addresses in
    if bool_decide (addresses <> [] /\ allowed = []) then Raise SsrfBlockedError else Ok allowed.
Proof.
  intros E. unfold allowed_addresses. rewrite E. cbn [mbind res_bind]. cbn zeta.
  destruct addresses as [|first rest]; [by rewrite bool_decide_eq_false_2 by tauto|].
  destruct (filter _ (first :: rest)) as [|x l] eqn:F; [|by rewrite bool_decide_eq_false_2 by naive_solver].
  rewrite bool_decide_eq_true_2 by done. rewrite filter_cons in F.
  unfold assert_ip_allowed. destruct (blocked_range bm bp first); [done|].
  by rewrite decide_True in F.
Qed.

(** What trying the addresses in turn comes to: those before the last one tried
    refused or timed out, the last one answered or ended the attempt. *)
Definition tried_of (connect : string -> res stream) (addresses tried : list string) (r : res stream) : Prop :=
  tried `prefix_of` addresses /\
  (forall i a, tried !! i = Some a -> (S i < length tried)%nat ->
     connect a = Raise ConnectError \/ connect a = Raise TimeoutError) /\
  match r with
  | Ok s => exists a, last tried = Some a /\ connect a = Ok s
  | Raise e => tried = addresses \/
      exists a, last tried = Some a /\ connect a = Raise e /\ e <> ConnectError /\ e <> TimeoutError
  end.

Lemma tried_of_one connect a l :
  (forall s, connect a = Ok s -> tried_of connect (a :: l) [a] (Ok s)) /\
  (forall e, connect a = Raise e -> e <> ConnectError -> e <> TimeoutError -> tried_of connect (a :: l) [a] (Raise e)).
Proof.
  assert (Hone : forall i b, [a] !! i = Some b -> (S i < length [a])%nat ->
    connect b = Raise ConnectError \/ connect b = Raise TimeoutError) by (cbn; lia).
  split; [intros s Hs|intros e He H1 H2]; (split; [apply prefix_cons, prefix_nil|split; [exact Hone|]]); [eauto|right; eauto].
Qed.

Lemma tried_of_cons (connect : string -> res stream) a l tried r :
  connect a = Raise ConnectError \/ connect a = Raise TimeoutError ->
  tried_of connect l tried r -> tried_of connect (a :: l) (a :: tried) r.
Proof.
  intros Ha (Hp & Hb & Hr). split; [by apply prefix_cons|]. split.
  - intros [|i] b; cbn; [by intros [= <-]|]. intros Hi Hlen. apply (Hb i); [done|lia].
  - rewrite last_cons. destruct r as [s|e]; [by destruct Hr as (b & -> & Hs); eauto|].
    destruct Hr as [->|(b & -> & Hs)]; [by left|right; eauto].
Qed.

Lemma try_addresses_spec p t secs final failure addresses :
  let '(tried, r) := try_addresses p t secs final failure addresses in
  tried_of (fun a => connect_tcp a p (connect_budget t secs (String.eqb a final))) addresses tried r.
Proof.
  revert failure. induction addresses as [|a l IH]; intros failure; cbn [try_addresses].
  { split; [done|]. split; [|by left]. by intros i b Hi. }
  set (connect := fun a => _) in *. change (connect_tcp a p _) with (connect a).
  destruct (connect a) as [s|e] eqn:C; [by apply tried_of_one|].
  destruct (decide (e = ConnectError \/ e = TimeoutError)) as [D|D].
  2: { assert (tried_of connect (a :: l) [a] (Raise e)) by (apply tried_of_one; tauto).
       destruct e; first [assumption|tauto]. }
  specialize (IH e). destruct (try_addresses p t secs final e l) as [tried r] eqn:E.
  assert (Hgoal : tried_of connect (a :: l) (a :: tried) r)
    by (apply tried_of_cons; [rewrite C; destruct D as [-> | ->]; tauto|done]).
  by destruct D as [-> | ->].
Qed.

(** C15: Whatever the resolver answers later, a vetted connection is tried only on
    addresses the one lookup gave and the policy allows, in the resolver's order:
    those before the last one tried refused or timed out, each in its budget, so
    that the connection is the first that answers; it fails only when each was
    tried or the socket failed otherwise than by refusing or timing out. *)
Theorem vetted_connection bm bp now host p timeout address_seconds :
  let '(tried, r) := vetted_connect (allowed_addresses bm bp now) host p timeout address_seconds in
  match resolve_host now host with
  | Raise e => tried = [] /\ r = Raise e
  | Ok addresses =>
      let allowed := filter (fun a => blocked_range bm bp a = None) addresses in
      let final := default "" (last allowed) in
      let connect a := connect_tcp a p (connect_budget timeout address_seconds (String.eqb a final)) in
      tried `prefix_of` allowed /\
      (forall i a, tried !! i = Some a -> (S i < length tried)%nat ->
         connect a = Raise ConnectError \/ connect a = Raise TimeoutError) /\
      match r with
      | Ok s => exists a, last tried = Some a /\ connect a = Ok s
      | Raise e => tried = allowed \/
          exists a, last tried = Some a /\ connect a = Raise e /\ e <> ConnectError /\ e <> TimeoutError
      end
  end.
Proof.
  unfold vetted_connect. destruct (resolve_host now host) as [addresses|e] eqn:R;
    [|unfold allowed_addresses; by rewrite R].
  rewrite (allowed_addresses_spec bm bp now host addresses R). cbn zeta.
  pose proof (try_addresses_spec p timeout address_seconds
    (default "" (last (filter (fun a => blocked_range bm bp a = None) addresses))) ConnectError
    (filter (fun a => blocked_range bm bp a = None) addresses)) as S.
  case_bool_decide as D; [|by destruct (try_addresses _ _ _ _ _ _)].
  split; [apply prefix_nil|]. split; [by intros i a Hi|]. left. symmetry. apply D.
Qed.
End Resolution.

(** ** A target handed to a driver *)

Section Targets.
Context `{Sockets}.

Lemma fold_unit_ok {X} (f : X -> res unit) l : fold_res (fun _ x => f x) tt l = Ok tt <-> forall x, x ∈ l -> f x = Ok tt.
Proof.
  induction l as [|x l IH]; cbn [fold_res]; [by split; [intros _ y []%elem_of_nil|]|].
  destruct (f x) as [[]|e] eqn:E; cbn; split.
  - intros Hl y [->|Hy]%elem_of_cons; [done|]. by apply IH.
  - intros Hl. apply IH. intros y Hy. apply Hl. by constructor.
  - done.
  - intros Hl. rewrite <- E. apply Hl. by constructor.
Qed.

(** A target is let through to a driver that resolves its names itself exactly
    where the policy blocks nothing, or every address every host it names
    resolves to is allowed. *)
Theorem target_allowed_exact bm bp now target :
  assert_target_allowed bm bp now target = Ok tt
  <-> bm = false /\ bp = false
      \/ forall host, host ∈ extract_hosts target ->
           exists l, resolve_host now host = Ok l /\ forall a, a ∈ l -> blocked_range bm bp a = None.
Proof.
  unfold assert_target_allowed.
  assert (Hl : forall host, (addresses ← resolve_host now host;
      fold_res (fun _ ip_str => assert_ip_allowed bm bp ip_str) tt addresses) = Ok tt
    <-> exists l, resolve_host now host = Ok l /\ forall a, a ∈ l -> blocked_range bm bp a = None).
  { intros host. destruct (resolve_host now host) as [l|e]; cbn.
    - rewrite fold_unit_ok. setoid_rewrite assert_ip_ok. split; [by exists l|]. by intros (l' & [= <-] & Ha).
    - split; [done|]. by intros (l & ? & _). }
  pose proof (fold_unit_ok (fun host => addresses ← resolve_host now host;
      fold_res (fun _ ip_str => assert_ip_allowed bm bp ip_str) tt addresses) (extract_hosts target)) as F.
  setoid_rewrite Hl in F. destruct bm, bp; cbn; cbn in F; rewrite ?F; naive_solver.
Qed.
End Targets.

(** ** The server's address *)

Lemma parse_octet_word s z : parse_octet s = Some z -> int_of_word (strip s) = Ok z.
Proof.
  unfold parse_octet. cbn zeta. intros E. case_in E; [|done]. case_in E; [done|]. injection E as <-.
  match goal with X : _ && _ = true |- _ => apply andb_true_iff in X as [[[Hne Hd]%andb_true_iff _]%andb_true_iff _] end.
  apply int_of_digit_word; [done|]. intros ->. done.
Qed.

(** The addresses a plain-HTTP server may have are the private ones of the
    policy: an IPv4 address counts as private exactly where it is in one of the
    three networks of RFC 1918, which the policy lists. *)
Theorem private_ip_exact s z : ip_address s = Some (Ip V4 z) ->
  is_private_ip s = true <-> exists net, net ∈ take 3 PRIVATE_NETWORKS /\ in_network (Ip V4 z) net = true.
Proof.
  intros Hs. assert (Hz : wf_ip (Ip V4 z)) by (by apply ip_address_wf in Hs).
  unfold ip_address in Hs. destruct (ipv4_of s) as [z'|] eqn:E4; [injection Hs as ->|by destruct (ipv6_of s)].
  unfold is_private_ip. unfold ipv4_of in E4.
  destruct (split "." s) as [|a [|b [|c [|d [|]]]]]; try done.
  destruct (parse_octet a) as [oa|] eqn:Ea; [|done]. destruct (parse_octet b) as [ob|] eqn:Eb; [|done].
  destruct (parse_octet c) as [oc|] eqn:Ec; [|done]. destruct (parse_octet d) as [od|] eqn:Ed; [|done].
  injection E4 as <-. cbn [map_res]. rewrite (parse_octet_word a oa Ea), (parse_octet_word b ob Eb),
    (parse_octet_word c oc Ec), (parse_octet_word d od Ed). cbn [mbind res_bind].
  apply parse_octet_range in Ea, Eb, Ec, Ed.
  rewrite (proj2 (forallb_forall _ _)); [|intros x Hx; cbn in Hx; lia].
  assert (Hi : forall net, net ∈ take 3 PRIVATE_NETWORKS -> wf_network net).
  { intros net Hn. apply private_wf. apply elem_of_take in Hn as (i & Hi & _); by apply list_elem_of_lookup_2 in Hi. }
  replace (take 3 PRIVATE_NETWORKS) with [Network V4 (10 * 2 ^ 24) 8; Network V4 (172 * 2 ^ 24 + 16 * 2 ^ 16) 12;
    Network V4 (192 * 2 ^ 24 + 168 * 2 ^ 16) 16] in * by (vm_compute; reflexivity).
  split.
  - intros Hp. case_in Hp; [|case_in Hp].
    + eexists. split; [by left|]. apply in_network_spec; [apply Hi; by left|done|].
      rewrite broadcast_eq by (apply Hi; by left). unfold free_bits; cbn. split; [done|lia].
    + eexists. split; [by right; left|]. apply in_network_spec; [apply Hi; by right; left|done|].
      rewrite broadcast_eq by (apply Hi; by right; left). unfold free_bits; cbn. split; [done|lia].
    + eexists. split; [by right; right; left|]. apply in_network_spec; [apply Hi; by right; right; left|done|].
      rewrite broadcast_eq by (apply Hi; by right; right; left). unfold free_bits; cbn. split; [done|lia].
  - intros (net & Hnet & Hin). apply in_network_spec in Hin as [_ Hin]; [|by apply Hi|done].
    rewrite broadcast_eq in Hin by (by apply Hi).
    rewrite !elem_of_cons, elem_of_nil in Hnet. destruct Hnet as [->|[->|[->|[]]]]; unfold free_bits in Hin; cbn in Hin.
    + rewrite (proj2 (Z.eqb_eq oa 10)) by lia. done.
    + case_goal; [done|]. rewrite (proj2 (andb_true_iff _ _)); [done|]. lia.
    + case_goal; [done|]. case_goal; [done|]. lia.
Qed.

Lemma private_ip_exact_witness :
  ip_address "172.31.0.9" = Some (Ip V4 2887712777)
  /\ (is_private_ip "172.31.0.9" = true
      <-> exists net, net ∈ take 3 PRIVATE_NETWORKS /\ in_network (Ip V4 2887712777) net = true).
Proof.
  assert (E : ip_address "172.31.0.9" = Some (Ip V4 2887712777)) by (vm_compute; reflexivity).
  split; [exact E|]. exact (private_ip_exact "172.31.0.9" 2887712777 E).
Defined.

(** The test reads a leading zero as decimal, and no address: a resolver reads
    the octal octets of [inet_aton], here 8.8.8.8. *)
Lemma private_ip_octal : is_private_ip "010.010.010.010" = true /\ ip_address "010.010.010.010" = None.
Proof. vm_compute. done. Qed.

(** The network part [urlsplit] finds ends before any slash, question mark or
    number sign and holds no tab or newline, and its brackets are checked. *)
Definition good_netloc (n : string) : Prop :=
  has_char netloc_end n = false /\ has_char is_tab_or_newline n = false /\ netloc_ok n = true.

Lemma split_scheme_chars g s : has_char g s = false -> has_char g (split_scheme s).2 = false.
Proof.
  intros Hs. unfold split_scheme. pose proof (partition_chars g ":" s Hs) as [_ P].
  destruct (partition ":" s) as [[[|c before] found] after]; [done|].
  by destruct (found && is_alpha c && all_of is_scheme_char (String c before)).
Qed.

Lemma split_netloc_chars g s : has_char g s = false ->
  has_char g (split_netloc s).1 = false /\ has_char netloc_end (split_netloc s).1 = false.
Proof.
  intros Hs. unfold split_netloc. destruct s as [|c1 [|c2 r]]; [done..|].
  destruct (Ascii.eqb c1 "/" && Ascii.eqb c2 "/"); [|done].
  cbn in Hs. apply orb_false_iff in Hs as [_ [_ Hr]%orb_false_iff].
  split; [by apply cut_at_chars|apply cut_at_before].
Qed.

Lemma urlsplit_netloc s u : urlsplit s = Ok u -> good_netloc (netloc u).
Proof.
  unfold urlsplit. cbn zeta. set (t := remove_chars _ _).
  pose proof (split_scheme_chars is_tab_or_newline t) as Hr.
  destruct (split_scheme t) as [sch rest]. cbn [snd] in Hr.
  pose proof (split_netloc_chars is_tab_or_newline rest) as Hn.
  destruct (split_netloc rest) as [n rest']. cbn [fst] in Hn.
  destruct (netloc_ok n) eqn:B; [|done].
  destruct (partition "#" rest') as [[r2 ?] fragment], (partition "?" r2) as [[path ?] query].
  intros [= <-]. cbn [netloc]. destruct Hn as [Hn1 Hn2]; [apply Hr, remove_chars_none|done].
Qed.

(** The origin of a scheme and a good network part reads back as them. *)
Lemma urlsplit_origin sch n : sch = "http" \/ sch = "https" -> good_netloc n ->
  urlsplit (sch +:+ "://" +:+ n) = Ok (Url sch n "" "" "").
Proof.
  intros Hs (H1 & H2 & H3).
  assert (E : remove_chars is_tab_or_newline (lstrip_by is_c0_or_space (sch +:+ "://" +:+ n)) = sch +:+ "://" +:+ n).
  { assert (L : lstrip_by is_c0_or_space (sch +:+ "://" +:+ n) = sch +:+ "://" +:+ n) by (by destruct Hs as [-> | ->]).
    rewrite L. apply remove_chars_id. by destruct Hs as [-> | ->]. }
  unfold urlsplit. rewrite E.
  assert (S : split_scheme (sch +:+ "://" +:+ n) = (sch, "//" +:+ n)) by (by destruct Hs as [-> | ->]).
  assert (N : split_netloc ("//" +:+ n) = cut_at netloc_end n) by done.
  by rewrite S, N, (cut_at_none netloc_end n H1), H3.
Qed.

(** The schemes a server's address may have, by its host. *)
Definition safe_scheme (allow_insecure : bool) (sch h : string) : Prop :=
  sch = "https" \/ sch = "http" /\ (is_internal_destination h = true \/ allow_insecure = true).

Lemma validate_server_url_spec allow_insecure url u : urlsplit url = Ok u ->
  validate_server_url allow_insecure url = Ok tt
  <-> exists h, hostname u = Some h /\ safe_scheme allow_insecure (scheme u) h.
Proof.
  intros E. unfold validate_server_url, safe_scheme. rewrite E. cbn [mbind res_bind].
  destruct (String.eqb_spec (scheme u) "") as [->|_]; [by split; [done|intros (h & _ & [? | [? _]])]|].
  destruct (hostname u) as [h|]; [|by split; [done|intros (h & ? & _)]].
  destruct (String.eqb_spec (scheme u) "https") as [->|N1]; [split; [intros _; exists h; auto|done]|].
  destruct (String.eqb_spec (scheme u) "http") as [->|N2];
    destruct (is_internal_destination h) eqn:I, allow_insecure; naive_solver congruence.
Qed.

Lemma server_origin_spec allow_insecure url origin : server_origin allow_insecure url = Ok origin
  <-> url <> "" /\ exists u p h, urlsplit url = Ok u /\ has_userinfo u = false /\ port u = Ok p /\ p <> Some 0%Z
      /\ hostname u = Some h /\ safe_scheme allow_insecure (scheme u) h
      /\ rstrip_char "/" (path_without_params u) = "" /\ query u = "" /\ fragment u = ""
      /\ origin = scheme u +:+ "://" +:+ netloc u.
Proof.
  unfold server_origin. destruct (String.eqb_spec url "") as [|Hne]; [naive_solver|].
  destruct (urlsplit url) as [u|] eqn:E; cbn [mbind res_bind]; [|naive_solver].
  pose proof (validate_server_url_spec allow_insecure url u E) as V.
  destruct (has_userinfo u) eqn:U; [naive_solver congruence|].
  destruct (port u) as [p|] eqn:P; [|naive_solver congruence].
  destruct (decide (p = Some 0%Z)) as [->|Hp]; [naive_solver congruence|].
  assert (Z0 : forall X Y : res string, match p with Some 0%Z => X | _ => Y end = Y) by (by destruct p as [[| |]|]).
  match goal with |- ?x = _ <-> _ => transitivity ((_ ← validate_server_url allow_insecure url;
    if negb (String.eqb (rstrip_char "/" (path_without_params u)) "")
       || negb (String.eqb (query u) "") || negb (String.eqb (fragment u) "")
    then Raise ValueError else Ok (scheme u +:+ "://" +:+ netloc u)) = Ok origin) end.
  { by destruct p as [[| |]|]. }
  destruct (validate_server_url allow_insecure url) as [[]|]; cbn [mbind res_bind].
  - destruct (proj1 V eq_refl) as (h & Hh & Hs).
    destruct (String.eqb_spec (rstrip_char "/" (path_without_params u)) "") as [P1|P1]; cbn [negb orb]; [|naive_solver congruence].
    destruct (String.eqb_spec (query u) "") as [P2|P2]; cbn [negb orb]; [|naive_solver congruence].
    destruct (String.eqb_spec (fragment u) "") as [P3|P3]; cbn [negb orb]; [|naive_solver congruence].
    split; [intros [= <-]; split; [done|]; by exists u, p, h|].
    by intros (_ & u' & p' & h' & [= <-] & _ & _ & _ & _ & _ & _ & _ & _ & ->).
  - split; [done|]. intros (_ & u' & p' & h' & [= <-] & _ & _ & _ & Hh & Hs & _).
    enough (Raise e = Ok tt) by done. apply V. eauto.
Qed.

(** A server address the agent accepts is an origin it would accept again as
    it is, with no credentials, a port a server can have, and HTTPS, or plain
    HTTP to an internal host (or with the operator's override). *)
Theorem server_origin_stable allow_insecure url origin : server_origin allow_insecure url = Ok origin ->
  server_origin allow_insecure origin = Ok origin
  /\ exists parsed h, urlsplit origin = Ok parsed /\ has_userinfo parsed = false
     /\ (forall p, port parsed = Ok (Some p) -> (1 <= p <= 65535)%Z)
     /\ hostname parsed = Some h /\ safe_scheme allow_insecure (scheme parsed) h.
Proof.
  intros (_ & u & p & h & E & U & P & P0 & Hh & Hs & _ & _ & _ & ->)%server_origin_spec.
  set (v := Url (scheme u) (netloc u) "" "" "").
  assert (R : urlsplit (scheme u +:+ "://" +:+ netloc u) = Ok v).
  { apply urlsplit_origin; [unfold safe_scheme in Hs; tauto|by apply urlsplit_netloc in E]. }
  split.
  - apply server_origin_spec. split; [by destruct Hs as [-> | [-> _]]|].
    exists v, p, h. split_and!; try done. destruct Hs as [Hs | [Hs _]]; unfold path_without_params, v; cbn [scheme path]; by rewrite Hs.
  - exists v, h. split_and!; [done|done| |done|done]. intros q Hq. change (port u = Ok (Some q)) in Hq.
    rewrite P in Hq. injection Hq as ->. unfold port in P.
    destruct (hostinfo (netloc u)).2 as [t|]; [|done]. cbn zeta in P. case_in P; [|done]. case_in P; [|done].
    injection P as <-. pose proof (int_of_digits_nonneg t).
    assert (int_of_digits t <> 0)%Z by (by intros X; rewrite X in P0). lia.
Qed.

Lemma server_origin_stable_witness :
  server_origin false " http://10.0.0.5:9000/" = Ok "http://10.0.0.5:9000"
  /\ server_origin false "http://10.0.0.5:9000" = Ok "http://10.0.0.5:9000".
Proof.
  assert (E : server_origin false " http://10.0.0.5:9000/" = Ok "http://10.0.0.5:9000") by (vm_compute; reflexivity).
  split; [exact E|]. exact (proj1 (server_origin_stable false _ _ E)).
Defined.
