(* ===== verification/ScanJob.v ===== *)
(** * ScanJob

    The network scan an agent runs as a job: shared/jobs/network_scan.py and
    the [run] of shared/jobs/base.py.  Its parameters are validated on the server
    and again here; a sweep pings the hosts of the network, in /24 chunks when it
    is larger, and looks at the name and the ports of those that answer.

    Ping, reverse DNS and connections are the machine's: [Probes].  The probes
    of a sweep run at once, so the order they end in is a parameter too. *)

From S2P Require Import Prelude Text Net Url Py Store Ssrf SsrfTheorems.

Class Probes := {
  ping : ip -> Z -> bool;                   (* exits with 0 in time *)
  reverse_dns : ip -> Z -> option string;
  port_open : ip -> Z -> Z -> bool;
  finish : list ip -> list ip;              (* the order concurrent probes end in *)
}.

Class ProbesLaws `{Probes} : Prop := { finish_perm l : finish l ≡ₚ l }.

Definition MAX_SCAN_PORTS : nat := 1024.

Record NetworkScanParams := Params {
  sp_subnet : string; sp_timeout : Z; sp_ports : list Z; sp_max_concurrent : Z }.

(** [dict.fromkeys(l)]: each value once, at its first place. *)
Fixpoint once (l : list Z) : list Z :=
  match l with [] => [] | x :: l => x :: filter (fun y => y <> x) (once l) end.

Definition validate_subnet (v : string) : res string :=
  network ← ip_network false v;
  if (65536 <? num_addresses network)%Z then Raise ValueError
  else match network_cloud_metadata_overlap network with
       | Some _ => Raise ValueError
       | None => Ok v
       end.

Definition validate_ports (v : list Z) : res (list Z) :=
  if forallb (fun port => (1 <=? port) && (port <=? 65535))%Z v then Ok (once v) else Raise ValueError.

(** The bounds the fields declare, then the validators. *)
Definition validate_params (p : NetworkScanParams) : res NetworkScanParams :=
  subnet ← validate_subnet (sp_subnet p);
  if negb ((1 <=? sp_timeout p) && (sp_timeout p <=? 30))%Z then Raise ValueError else
  if (MAX_SCAN_PORTS <? length (sp_ports p))%nat then Raise ValueError else
  ports ← validate_ports (sp_ports p);
  if negb ((10 <=? sp_max_concurrent p) && (sp_max_concurrent p <=? 500))%Z then Raise ValueError else
  Ok (Params subnet (sp_timeout p) ports (sp_max_concurrent p)).

Record discovered := Discovered { h_ip : ip; h_hostname : option string; h_open_ports : list Z }.
Record chunk_metric := ChunkMetric { cm_subnet : network; cm_hosts_scanned : nat; cm_hosts_found : nat }.
Record scan_result := ScanResult {
  discovered_hosts : list discovered; hosts_scanned : Z; hosts_responding : nat;
  chunk_metrics : list chunk_metric }.

Section Scan.
Context `{Probes}.

Definition scan_ports (a : ip) (ports : list Z) (timeout : Z) : list Z :=
  zsort (filter (fun port => port_open a port timeout) ports).

Definition scan_single_host (a : ip) (timeout : Z) (ports : list Z) : option discovered :=
  if ping a timeout
  then Some (Discovered a (reverse_dns a timeout) (if bool_decide (ports = []) then [] else scan_ports a ports timeout))
  else None.

(** The hosts of one sweep, each probed once, those found in the order they end. *)
Definition sweep (n : network) (timeout : Z) (ports : list Z) : list ip * list discovered :=
  (hosts n, omap (fun a => scan_single_host a timeout ports) (finish (hosts n))).

(** [_scan_chunked] *)
Definition scan_chunked (n : network) (timeout : Z) (ports : list Z)
    : list ip * list discovered * list chunk_metric :=
  let results := (fun c => (c, sweep c timeout ports)) <$> subnets n 24 in
  (concat ((fun r => r.2.1) <$> results), concat ((fun r => r.2.2) <$> results),
   (fun r => ChunkMetric r.1 (length r.2.1) (length r.2.2)) <$> results).

Definition by_address (a b : discovered) : Prop := (ip_value (h_ip a) <= ip_value (h_ip b))%Z.
#[global] Instance by_address_dec : RelDecision by_address.
Proof. intros a b. unfold by_address. apply _. Defined.

(** [execute]: the addresses it probed, and its result. *)
Definition execute (p : NetworkScanParams) : list ip * res scan_result :=
  match validate_params p with
  | Raise _ => ([], Raise ValueError)
  | Ok params =>
      match ip_network false (sp_subnet params) with
      | Raise _ => ([], Raise ValueError)
      | Ok network =>
          if (65536 <? num_addresses network)%Z then ([], Raise ValueError)
          else if ((prefixlen network <? 24) && (256 <? num_addresses network))%Z then
            let '(probed, found, metrics) := scan_chunked network (sp_timeout params) (sp_ports params) in
            (probed, Ok (ScanResult (merge_sort by_address found) (num_addresses network - 2) (length found) metrics))
          else
            let '(probed, found) := sweep network (sp_timeout params) (sp_ports params) in
            (probed, Ok (ScanResult (merge_sort by_address found) (Z.of_nat (length probed)) (length found) []))
      end
  end.

(** shared/jobs/base.py: [run] *)
Inductive job_outcome := JobCompleted (r : scan_result) | JobFailed (e : exn).
Definition run (p : NetworkScanParams) : job_outcome :=
  match (execute p).2 with Ok r => JobCompleted r | Raise e => JobFailed e end.

(** ** What a sweep reaches *)

Lemma once_subset l x : x ∈ once l <-> x ∈ l.
Proof.
  induction l as [|y l IH]; cbn; [done|]. rewrite !elem_of_cons, list_elem_of_filter, IH.
  destruct (decide (x = y)); naive_solver.
Qed.

Lemma once_nodup l : NoDup (once l).
Proof.
  induction l as [|y l IH]; cbn; constructor.
  - rewrite list_elem_of_filter. tauto.
  - by apply NoDup_filter.
Qed.

Lemma validate_params_spec p q : validate_params p = Ok q ->
  sp_subnet q = sp_subnet p /\ sp_ports q = once (sp_ports p)
  /\ exists n, ip_network false (sp_subnet p) = Ok n /\ (num_addresses n <= 65536)%Z
     /\ network_cloud_metadata_overlap n = None.
Proof.
  unfold validate_params, validate_subnet, validate_ports. intros Hv.
  destruct (ip_network false (sp_subnet p)) as [n|] eqn:E; cbn [mbind res_bind] in Hv; [|done].
  destruct (65536 <? num_addresses n)%Z eqn:B; [done|].
  destruct (network_cloud_metadata_overlap n) eqn:O; [done|]. cbn [mbind res_bind] in Hv.
  case_in Hv; [done|]. case_in Hv; [done|].
  destruct (forallb _ (sp_ports p)); [|done]. cbn [mbind res_bind] in Hv. case_in Hv; [done|].
  injection Hv as <-. cbn [sp_subnet sp_ports]. split_and!; [done|done|].
  exists n. split_and!; [done|lia|done].
Qed.

Lemma swept_in n a : wf_network n -> a ∈ (sweep n 0 []).1 -> wf_ip a /\ in_network a n = true.
Proof. apply hosts_in. Qed.

Lemma chunk_in n c a : wf_network n -> (prefixlen n <= 24)%Z -> c ∈ subnets n 24 -> a ∈ hosts c ->
  wf_ip a /\ in_network a n = true.
Proof.
  intros Hn Hp Hc Ha.
  destruct (subnets_in n 24 c Hn) as (Wc & Vc & C1 & C2); [destruct (nw_version n); cbn; lia|done|].
  destruct (hosts_in c a Wc Ha) as [Wa Ia]. split; [done|].
  apply in_network_spec in Ia as [Va Ia]; [|done..]. apply in_network_spec; [done..|].
  split; [congruence|lia].
Qed.

Lemma chunked_probed n t ports : (scan_chunked n t ports).1.1 = concat (hosts <$> subnets n 24).
Proof. unfold scan_chunked. cbn [fst]. by rewrite <- list_fmap_compose. Qed.

Lemma elem_of_chunked n t ports a : a ∈ (scan_chunked n t ports).1.1 <-> exists c, c ∈ subnets n 24 /\ a ∈ hosts c.
Proof.
  rewrite chunked_probed, list_elem_of_In, in_concat. split.
  - intros (l & Hl & Ha). apply list_elem_of_In, list_elem_of_fmap in Hl as (c & -> & Hc).
    exists c. split; [done|]. by apply list_elem_of_In in Ha.
  - intros (c & Hc & Ha). exists (hosts c). split; [|by apply list_elem_of_In].
    apply list_elem_of_In, list_elem_of_fmap. by exists c.
Qed.

Lemma length_concat_const {A B} (f : A -> list B) k l :
  (forall x, x ∈ l -> length (f x) = k) -> length (concat (f <$> l)) = (k * length l)%nat.
Proof.
  induction l as [|x l IH]; intros Hl; [cbn; lia|]. rewrite fmap_cons. cbn [concat length].
  rewrite length_app, IH, (Hl x) by (try left; intros; apply Hl; by right). lia.
Qed.

Lemma chunked_v4 n : wf_network n -> (num_addresses n <= 65536)%Z -> (prefixlen n < 24)%Z -> nw_version n = V4.
Proof.
  intros Hn Hs Hp. destruct (nw_version n) eqn:V; [done|exfalso].
  rewrite num_addresses_eq in Hs by done. unfold free_bits in Hs. rewrite V in Hs. cbn [max_prefixlen] in Hs.
  enough (2 ^ 17 <= 2 ^ (128 - prefixlen n))%Z by lia. apply Z.pow_le_mono_r; lia.
Qed.

(** What [execute] does once its parameters hold. *)
Lemma execute_ok p q : validate_params p = Ok q -> exists n,
  ip_network false (sp_subnet p) = Ok n /\ wf_network n /\ (num_addresses n <= 65536)%Z
  /\ network_cloud_metadata_overlap n = None
  /\ execute p =
      if ((prefixlen n <? 24) && (256 <? num_addresses n))%Z then
        let '(probed, found, metrics) := scan_chunked n (sp_timeout q) (sp_ports q) in
        (probed, Ok (ScanResult (merge_sort by_address found) (num_addresses n - 2) (length found) metrics))
      else
        let '(probed, found) := sweep n (sp_timeout q) (sp_ports q) in
        (probed, Ok (ScanResult (merge_sort by_address found) (Z.of_nat (length probed)) (length found) [])).
Proof.
  intros V. pose proof (validate_params_spec p q V) as (Es & _ & n & E & Hs & O).
  exists n. split_and!; [done|by apply ip_network_wf in E|done|done|].
  unfold execute. rewrite V, Es, E. by rewrite (proj2 (Z.ltb_ge _ _)).
Qed.

(** C6: Whatever its parameters, a network scan probes no address of the cloud
    metadata and link-local ranges, in no form that carries one. *)
Theorem scan_never_reaches_metadata p a : a ∈ (execute p).1 -> wf_ip a /\ verdict true false a = None.
Proof.
  intros Ha. destruct (validate_params p) as [q|] eqn:V.
  2: { unfold execute in Ha. rewrite V in Ha. by apply elem_of_nil in Ha. }
  destruct (execute_ok p q V) as (n & E & Hn & _ & O & X). rewrite X in Ha. clear X.
  assert (Hin : wf_ip a /\ in_network a n = true).
  { destruct ((prefixlen n <? 24) && (256 <? num_addresses n))%Z eqn:B.
    - pose proof (elem_of_chunked n (sp_timeout q) (sp_ports q) a) as C.
      destruct (scan_chunked n (sp_timeout q) (sp_ports q)) as [[probed found] metrics].
      apply C in Ha as (c & Hc & Ha). apply (chunk_in n c a Hn); [lia|done|done].
    - by apply hosts_in. }
  destruct Hin as [Wa Hin]. split; [done|]. by apply (no_overlap_reaches_none n a).
Qed.

Lemma merge_sort_by_address l : Sorted by_address (merge_sort by_address l) /\ merge_sort by_address l ≡ₚ l.
Proof.
  split; [|apply merge_sort_Permutation]. apply Sorted_merge_sort.
  intros a b. unfold by_address. lia.
Qed.

Lemma found_perm `{!ProbesLaws} (f : ip -> option discovered) l : omap f (finish l) ≡ₚ omap f l.
Proof. by rewrite finish_perm. Qed.

Lemma chunked_found `{!ProbesLaws} n t ports :
  (scan_chunked n t ports).1.2 ≡ₚ omap (fun a => scan_single_host a t ports) (scan_chunked n t ports).1.1.
Proof.
  unfold scan_chunked. cbn [fst snd]. rewrite <- !list_fmap_compose.
  induction (subnets n 24) as [|c l IH]; [done|]. rewrite !fmap_cons. cbn [concat].
  rewrite omap_app, IH. apply Permutation_app_tail. apply found_perm.
Qed.

(** A scan finds each of the hosts it probed that answers a ping, once, with
    its name and open ports, and reports them in the order of their addresses,
    whatever order the probes end in. *)
Theorem scan_reports_answering `{!ProbesLaws} p q probed r : validate_params p = Ok q -> execute p = (probed, Ok r) ->
  discovered_hosts r ≡ₚ omap (fun a => scan_single_host a (sp_timeout q) (sp_ports q)) probed
  /\ Sorted by_address (discovered_hosts r) /\ hosts_responding r = length (discovered_hosts r)
  /\ NoDup (sp_ports q).
Proof.
  intros V X. destruct (execute_ok p q V) as (n & _ & _ & _ & _ & X'). rewrite X in X'.
  pose proof (validate_params_spec p q V) as (_ & Hports & _).
  assert (G : exists found, found ≡ₚ omap (fun a => scan_single_host a (sp_timeout q) (sp_ports q)) probed
     /\ discovered_hosts r = merge_sort by_address found /\ hosts_responding r = length found).
  { destruct ((prefixlen n <? 24) && (256 <? num_addresses n))%Z.
    - pose proof (chunked_found n (sp_timeout q) (sp_ports q)) as C.
      destruct (scan_chunked n (sp_timeout q) (sp_ports q)) as [[pr found] metrics].
      injection X' as -> ->. by exists found.
    - unfold sweep in X'. injection X' as -> ->. eexists. split; [apply found_perm|done]. }
  destruct G as (found & Hf & -> & ->). destruct (merge_sort_by_address found) as [Hs Hp].
  split_and!; [by rewrite Hp|done|by rewrite Hp|]. rewrite Hports. apply once_nodup.
Qed.

Lemma length_chunk_hosts n c : nw_version n = V4 -> wf_network n -> (prefixlen n <= 24)%Z -> c ∈ subnets n 24 ->
  length (hosts c) = 254%nat.
Proof.
  intros V Hn Hp Hc. pose proof (subnets_in n 24 c Hn) as (Wc & _); [rewrite V; cbn; lia|done|].
  unfold subnets in Hc. cbn zeta in Hc. apply list_elem_of_fmap in Hc as (i & -> & _).
  unfold hosts. rewrite length_fmap. cbn [nw_version prefixlen]. rewrite V. cbn [max_prefixlen].
  change (24 =? 32)%Z with false. change (24 =? 32 - 1)%Z with false. cbv iota.
  rewrite broadcast_eq by (by rewrite V in Wc). unfold free_bits, range. cbn [nw_version prefixlen max_prefixlen network_address].
  rewrite length_seqZ. lia.
Qed.

(** The sweep of a network larger than a /24 skips the first and the last
    address of each of its /24 chunks, which are hosts of the network; the
    number of hosts it reports counts them. *)
Theorem chunked_scan_miscounts p q probed r n : validate_params p = Ok q -> ip_network false (sp_subnet p) = Ok n ->
  (prefixlen n < 24)%Z -> execute p = (probed, Ok r) ->
  hosts_scanned r = (Z.of_nat (length probed) + 2 * (2 ^ (24 - prefixlen n) - 1))%Z
  /\ (hosts_scanned r = Z.of_nat (length (hosts n)))%Z.
Proof.
  intros V E Hp X. destruct (execute_ok p q V) as (n' & E' & Hn & Hs & _ & X'). rewrite X in X'.
  rewrite E in E'. injection E' as <-. pose proof (chunked_v4 n Hn Hs Hp) as V4n.
  pose proof Hn as (Hq & _ & _). pose proof (num_addresses_eq n Hn) as N. unfold free_bits in N.
  rewrite V4n in N, Hq. cbn [max_prefixlen] in N, Hq.
  assert (N' : num_addresses n = (256 * 2 ^ (24 - prefixlen n))%Z).
  { rewrite N. change 256%Z with (2 ^ 8)%Z. rewrite <- Z.pow_add_r by lia. f_equal. lia. }
  assert (P : (2 <= 2 ^ (24 - prefixlen n))%Z) by (change 2%Z with (2 ^ 1)%Z at 1; apply Z.pow_le_mono_r; lia).
  rewrite (proj2 (andb_true_iff _ _)) in X' by lia.
  assert (L : length (scan_chunked n (sp_timeout q) (sp_ports q)).1.1 = (254 * Z.to_nat (2 ^ (24 - prefixlen n)))%nat).
  { rewrite chunked_probed, (length_concat_const _ 254).
    - unfold subnets. by rewrite length_fmap, length_seqZ, Z.sub_0_r || by rewrite length_fmap, length_seqZ.
    - intros c Hc. apply (length_chunk_hosts n); [done|done|lia|done]. }
  destruct (scan_chunked n (sp_timeout q) (sp_ports q)) as [[pr found] metrics]. cbn [fst] in L.
  injection X' as -> ->. cbn [hosts_scanned]. rewrite L. split; [lia|].
  unfold hosts. rewrite length_fmap, V4n. cbn [max_prefixlen].
  rewrite (proj2 (Z.eqb_neq (prefixlen n) 32)), (proj2 (Z.eqb_neq (prefixlen n) (32 - 1))) by lia.
  unfold range. rewrite length_seqZ. unfold num_addresses in *. lia.
Qed.
End Scan.

(** A machine where every third host answers, on port 22, and probes end in the
    reverse order. *)
#[local] Instance third_host : Probes := {|
  ping a _ := (ip_value a mod 3 =? 0)%Z;
  reverse_dns a _ := None;
  port_open a port _ := (port =? 22)%Z;
  finish l := reverse l;
|}.
#[local] Instance third_host_laws : ProbesLaws.
Proof. constructor. intros l. apply reverse_Permutation. Qed.

Definition small_scan : NetworkScanParams := Params "10.1.2.3/29" 10 [443; 22; 443]%Z 100.

Lemma scan_reports_answering_witness :
  validate_params small_scan = Ok (Params "10.1.2.3/29" 10 [443; 22]%Z 100)
  /\ Sorted by_address (match (execute small_scan).2 with Ok r => discovered_hosts r | Raise _ => [] end).
Proof.
  split; [vm_compute; reflexivity|].
  destruct (execute small_scan) as [probed [r|e]] eqn:E; [|constructor].
  exact (proj1 (proj2 (scan_reports_answering small_scan _ probed r ltac:(vm_compute; reflexivity) E))).
Defined.

Definition large_scan : NetworkScanParams := Params "10.1.2.0/23" 10 [22]%Z 100.

Lemma chunked_scan_miscounts_witness :
  exists probed r, execute large_scan = (probed, Ok r) /\ (hosts_scanned r = Z.of_nat (length probed) + 2)%Z
  /\ Ip V4 (10 * 2 ^ 24 + 258 * 256 + 255) ∈ hosts (Network V4 (10 * 2 ^ 24 + 258 * 256) 23)
  /\ ~ Ip V4 (10 * 2 ^ 24 + 258 * 256 + 255) ∈ probed.
Proof.
  destruct (execute large_scan) as [probed [r|e]] eqn:E; [|vm_compute in E; discriminate E].
  exists probed, r. split_and!.
  - done.
  - rewrite (proj1 (chunked_scan_miscounts large_scan _ probed r (Network V4 (10 * 2 ^ 24 + 258 * 256) 23)
      ltac:(vm_compute; reflexivity) ltac:(vm_compute; reflexivity) ltac:(done) E)). vm_compute. reflexivity.
  - apply (bool_decide_unpack _). vm_compute. done.
  - change probed with (probed, @Ok scan_result r).1. rewrite <- E. apply (bool_decide_unpack _). vm_compute. done.
Defined.

(** What the small scan probes, and that none of it is metadata. *)
Lemma scan_never_reaches_metadata_witness :
  Ip V4 (10 * 2 ^ 24 + 65536 + 3) ∈ (execute (Params "10.1.0.0/29" 10 [22]%Z 100)).1
  /\ verdict true false (Ip V4 (10 * 2 ^ 24 + 65536 + 3)) = None.
Proof.
  assert (Ip V4 (10 * 2 ^ 24 + 65536 + 3) ∈ (execute (Params "10.1.0.0/29" 10 [22]%Z 100)).1) as Ha
    by (apply (bool_decide_unpack _); vm_compute; done).
  split; [exact Ha|]. exact (proj2 (scan_never_reaches_metadata _ _ Ha)).
Defined.
