(* ===== verification/WebGate.v ===== *)
(** * WebGate

    What stands before every route of the server: core/trusted_host.py (the
    outermost layer: a request whose Host is not served is refused),
    core/same_origin.py (a browser's unsafe request, or websocket handshake, from
    another site is refused) and core/safe_redirect.py (a redirect target from a
    request is a path of this site, or the default).

    Header names and values are ASCII text.  Starlette's own TrustedHostMiddleware,
    which the first extends, is a parameter: [Starlette]. *)

From S2P Require Import Prelude Text Net Url Py.

(** ** Requests *)

Inductive scope_type := HTTP | WEBSOCKET | LIFESPAN.
#[global] Instance scope_type_eq_dec : EqDecision scope_type.
Proof. solve_decision. Defined.

Record request := Request {
  rq_type : scope_type; rq_method : string; rq_path : string; rq_scheme : option string;
  rq_client : option string; rq_headers : list (string * string); rq_denial_response : bool }.

(** A refusal is a status sent before the app sees the request; a handshake the
    server cannot answer is closed with a code instead. *)
Inductive response := Refused (status : Z) | Closed (code : Z) | Redirected | ToApp (r : request).
#[global] Instance request_eq_dec : EqDecision request.
Proof. solve_decision. Defined.
#[global] Instance response_eq_dec : EqDecision response.
Proof. solve_decision. Defined.

(** The values of a header, whatever the case of its name. *)
Definition header_values (name : string) (headers : list (string * string)) : list string :=
  (filter (fun kv => lower kv.1 = name) headers).*2.

Definition set_headers (r : request) (h : list (string * string)) : request :=
  Request (rq_type r) (rq_method r) (rq_path r) (rq_scheme r) (rq_client r) h (rq_denial_response r).

Definition refuse (r : request) (status : Z) : response :=
  match rq_type r with
  | WEBSOCKET => if rq_denial_response r then Refused status else Closed 1008
  | _ => Refused status
  end.

(** ** Hosts in text *)

Definition is_name_char (c : ascii) : bool :=
  is_alpha c || is_digit c || Ascii.eqb c "." || Ascii.eqb c "_" || Ascii.eqb c "-".
Definition is_ipv6_char (c : ascii) : bool := is_hex c || Ascii.eqb c ":" || Ascii.eqb c ".".
Definition is_label_char (c : ascii) : bool :=
  is_lower c || is_digit c || Ascii.eqb c "_" || Ascii.eqb c "-".

(** A nonempty text of some class of characters: [[...]+]. *)
Definition some_of (f : ascii -> bool) (s : string) : bool := negb (String.eqb s "") && all_of f s.

Inductive host_text := Name (s : string) | Bracketed (s : string).
#[global] Instance host_text_eq_dec : EqDecision host_text.
Proof. solve_decision. Defined.

(** A port of one to five digits after a colon, or nothing. *)
Definition match_port (found : bool) (s : string) : option (option string) :=
  if found then (if some_of is_digit s && (String.length s <=? 5)%nat then Some (Some s) else None)
  else Some None.

(** [_HOST_HEADER_RE], [_HOST]: a name, or an address in brackets, and any port. *)
Definition match_host (s : string) : option (host_text * option string) :=
  match s with
  | String "[" rest =>
      let '(inner, closed, after) := partition "]" rest in
      if closed && some_of is_ipv6_char inner then
        match after with
        | EmptyString => Some (Bracketed inner, None)
        | String ":" port => match match_port true port with
                             | Some p => Some (Bracketed inner, p)
                             | None => None
                             end
        | _ => None
        end
      else None
  | _ =>
      let '(name, found, port) := partition ":" s in
      if some_of is_name_char name then
        match match_port found port with Some p => Some (Name name, p) | None => None end
      else None
  end.

(** Labels of a name, none empty: [_NAME_RE]. *)
Definition labels_ok (s : string) : bool := forallb (some_of is_label_char) (split "." s).

(** ** core/trusted_host.py *)

(** [_ENTRY_RE] *)
Definition entry_ok (s : string) : bool :=
  match s with
  | String "*" (String "." rest) => labels_ok rest
  | _ => labels_ok s
  end.

(** [parse_allowed_hosts] *)
Definition parse_allowed_hosts (value : pyval) : res (list string) :=
  items ← match value with
          | PStr s => Ok (PStr <$> split "," s)
          | PList l => Ok l
          | _ => Raise ValueError
          end;
  hosts ← fold_res (fun hosts item =>
            match item with
            | PStr item =>
                let host := lower (strip item) in
                if String.eqb host "" then Ok hosts
                else if negb (String.eqb host "*") && negb (entry_ok host) then Raise ValueError
                else Ok (hosts ++ [host])
            | _ => Raise ValueError
            end) [] items;
  if bool_decide (hosts = []) then Raise ValueError
  else if bool_decide ("*" ∈ hosts) then Raise ValueError
  else Ok hosts.

Definition port_in_range (port : option string) : bool :=
  match port with Some p => (int_of_digits p <=? 65535)%Z | None => true end.

(** [_host_name]: a name as it is, an IPv6 address read. *)
Inductive host_name_value := HostName (s : string) | HostIPv6 (z : Z).
Definition host_name (raw : string) : option host_name_value :=
  match match_host raw with
  | Some (h, port) =>
      if port_in_range port then
        match h with
        | Name s => Some (HostName s)
        | Bracketed s => HostIPv6 <$> ipv6_of s
        end
      else None
  | None => None
  end.

(** [in _LOOPBACK_HOSTS]; the address [::1] is the one that is written so. *)
Definition loopback_host (h : option host_name_value) : bool :=
  match h with
  | Some (HostName s) => bool_decide (s ∈ ["localhost"; "127.0.0.1"])
  | Some (HostIPv6 z) => (z =? 1)%Z
  | None => false
  end.

(** [ip_address(...).is_loopback] *)
Definition is_loopback (a : ip) : bool :=
  match ip_version a with
  | V4 => (Z.shiftr (ip_value a) 24 =? 127)%Z
  | V6 => if (Z.shiftr (ip_value a) 32 =? 0xFFFF)%Z
          then (Z.shiftr (Z.land (ip_value a) 0xFFFFFFFF) 24 =? 127)%Z
          else (ip_value a =? 1)%Z
  end.

Definition loopback_peer (r : request) : bool :=
  match rq_client r with
  | Some client => match ip_address client with Some a => is_loopback a | None => false end
  | None => false
  end.

(** [_canonical] *)
Definition drop_last_dot (s : string) : string :=
  if endswith "." s then String.substring 0 (String.length s - 1) s else s.

Definition canonical (raw : string) : option (string * option string) :=
  match match_host raw with
  | Some (Name s, port) =>
      if port_in_range port then
        let name := drop_last_dot (lower s) in
        if labels_ok name then Some (name, port) else None
      else None
  | _ => None
  end.

Definition _FORWARDING : list string :=
  ["x-forwarded-for"; "forwarded"; "x-real-ip"; "x-forwarded-host"; "x-forwarded-proto"].

Definition host_headers (r : request) : list string := header_values "host" (rq_headers r).
Definition host_header (r : request) : string :=
  match host_headers r with [h] => h | _ => "" end.

(** [_in_container_probe] *)
Definition in_container_probe (health_paths : list string) (r : request) : bool :=
  loopback_peer r
  && negb (existsb (fun kv => bool_decide (lower kv.1 ∈ _FORWARDING)) (rq_headers r))
  && loopback_host (host_name (host_header r))
  && existsb (fun p => String.eqb (rq_path r) p || startswith (rstrip_char "/" p +:+ "/") (rq_path r)) health_paths.

Inductive verdict := Yes | Www | No.
#[global] Instance verdict_eq_dec : EqDecision verdict.
Proof. solve_decision. Defined.

(** A pattern of the list names [name], or a domain over it. *)
Definition listed (name pattern : string) : bool :=
  String.eqb name pattern
  || match pattern with
     | String "*" (String "." _ as suffix) => endswith suffix name
     | _ => false
     end.

(** [_match] *)
Definition match_name (allowed_hosts : list string) (www_redirect : bool) (name : string) : verdict :=
  if existsb (listed name) allowed_hosts then Yes
  else if existsb (fun pattern => String.eqb pattern ("www." +:+ name)) allowed_hosts && www_redirect then Www
  else No.

(** Starlette's middleware over the same list: on, to the [www.] host, or refused. *)
Class Starlette := { trusted_host : list string -> bool -> request -> response }.

(** What it lets through it passes on as it is.  A list without a bare star, which
    answers every host, sends a name it does not list to the [www.] name it does;
    other requests than HTTP and websocket ones pass. *)
Class StarletteLaws `{Starlette} : Prop := {
  trusted_host_same hosts www r r' : trusted_host hosts www r = ToApp r' -> r' = r;
  trusted_host_www hosts r : rq_type r = HTTP -> ~ "*" ∈ hosts ->
    existsb (listed (partition ":" (host_header r)).1.1) hosts = false ->
    existsb (fun pattern => String.eqb pattern ("www." +:+ (partition ":" (host_header r)).1.1)) hosts = true ->
    trusted_host hosts true r = Redirected;
  trusted_host_lifespan hosts www r : rq_type r = LIFESPAN -> trusted_host hosts www r = ToApp r;
}.

Section TrustedHost.
Context `{Starlette}.

(** [AllowedHostsMiddleware.__call__] *)
Definition allowed_hosts_call (allowed_hosts health_paths : list string) (www_redirect : bool) (r : request) : response :=
  match rq_type r with
  | LIFESPAN => trusted_host allowed_hosts www_redirect r
  | _ =>
      match host_headers r with
      | [raw] =>
          match host_name raw with
          | None => refuse r 400
          | Some _ =>
              if bool_decide (rq_type r = HTTP) && in_container_probe health_paths r then ToApp r else
              match canonical raw with
              | None => refuse r 400
              | Some (name, port) =>
                  match match_name allowed_hosts www_redirect name, rq_type r with
                  | No, _ | Www, WEBSOCKET => refuse r 400
                  | _, _ =>
                      let value := match port with None => name | Some p => name +:+ ":" +:+ p end in
                      trusted_host allowed_hosts www_redirect
                        (set_headers r ((fun kv => if String.eqb (lower kv.1) "host" then ("host", value) else kv) <$> rq_headers r))
                  end
              end
          end
      | _ => refuse r 400
      end
  end.
End TrustedHost.

(** ** core/same_origin.py *)

Definition _UNSAFE : list string := ["POST"; "PUT"; "PATCH"; "DELETE"].
Definition _SCHEMES : list string := ["http"; "https"].
Definition ws_scheme (s : string) : string :=
  if String.eqb s "ws" then "http" else if String.eqb s "wss" then "https" else s.

(** [s.strip("[]").rstrip(".")] *)
Definition is_bracket (c : ascii) : bool := Ascii.eqb c "[" || Ascii.eqb c "]".
Fixpoint rstrip_by (f : ascii -> bool) (s : string) : string :=
  match s with
  | EmptyString => ""
  | String x s' => match rstrip_by f s' with
                   | EmptyString => if f x then "" else String x ""
                   | r => String x r
                   end
  end.
Definition bare (s : string) : string := rstrip_char "." (rstrip_by is_bracket (lstrip_by is_bracket s)).

(** [_host_allowed] *)
Definition host_allowed (host : string) (allowed_hosts : list string) : bool :=
  let host := bare (lower host) in
  existsb (fun pattern =>
    let p := bare (strip (lower pattern)) in
    match p with
    | String "*" (String "." domain as suffix) => endswith suffix host && negb (String.eqb host domain)
    | _ => false
    end || String.eqb host p) allowed_hosts.

(** [_this_site] *)
Definition this_site (sch host : string) (allowed_hosts : list string) (own_scheme : string) (websocket : bool) : bool :=
  let sch := lower sch in
  let sch := if websocket then ws_scheme sch else sch in
  if negb (bool_decide (sch ∈ _SCHEMES)) || (String.eqb sch "http" && negb (String.eqb own_scheme "http"))
  then false else host_allowed host allowed_hosts.

Definition host_of (h : host_text) : string :=
  match h with Name s => s | Bracketed s => "[" +:+ s +:+ "]" end.

(** [_is_own_host] *)
Definition is_own_host (host : string) (own_hosts : list string) : bool :=
  existsb (fun own => match match_host (strip own) with
                      | Some (h, _) => String.eqb (bare (lower (host_of h))) (bare (lower host))
                      | None => false
                      end) own_hosts.

(** [_ORIGIN], [_WS_ORIGIN]: a scheme, a host and any port, and nothing else. *)
Definition match_origin (websocket : bool) (s : string) : option (string * host_text) :=
  let '(sch, found, rest) := partition ":" s in
  if found && bool_decide (lower sch ∈ (if websocket then ["http"; "https"; "ws"; "wss"] else ["http"; "https"])) then
    match rest with
    | String "/" (String "/" authority) =>
        match match_host authority with Some (h, _) => Some (sch, h) | None => None end
    | _ => None
    end
  else None.

(** [_foreign_origin] *)
Definition foreign_origin (origin : string) (allowed_hosts : list string) (own_scheme : string) (websocket : bool)
    (own_hosts : list string) : bool :=
  match match_origin websocket (strip origin) with
  | None => true
  | Some (sch, h) =>
      if is_own_host (host_of h) own_hosts then true
      else negb (this_site sch (host_of h) allowed_hosts own_scheme websocket)
  end.

(** [_foreign_referer] *)
Definition foreign_referer (referer : string) (allowed_hosts : list string) (own_scheme : string) (websocket : bool)
    (own_hosts : list string) : bool :=
  match urlsplit (strip referer) with
  | Raise _ => true
  | Ok parts =>
      if contains "@" (netloc parts) then true else
      match hostname parts with
      | None => true
      | Some h =>
          match port parts with
          | Raise _ | Ok (Some 0%Z) => true
          | Ok _ => if is_own_host h own_hosts then true
                    else negb (this_site (scheme parts) h allowed_hosts own_scheme websocket)
          end
      end
  end.

Definition first_hop (s : string) : string := (partition "," s).1.1.

(** The request's own scheme: the first hop's X-Forwarded-Proto, or the scope's. *)
Definition own_scheme_of (headers : list (string * string)) (scheme : option string) (websocket : bool) : string :=
  let first := match header_values "x-forwarded-proto" headers with
               | v :: _ => strip (first_hop (lower (strip v)))
               | [] => ""
               end in
  let own := lower (match scheme with Some s => if String.eqb s "" then "https" else s | None => "https" end) in
  let first := if websocket then ws_scheme first else first in
  let own := if websocket then ws_scheme own else own in
  if bool_decide (first ∈ _SCHEMES) then first else own.

Definition is_cross_site (headers : list (string * string)) (allowed_hosts : list string)
    (scheme : option string) (websocket : bool) : bool :=
  let own_scheme := own_scheme_of headers scheme websocket in
  let fetch_site := (fun v => lower (strip v)) <$> header_values "sec-fetch-site" headers in
  if bool_decide ("cross-site" ∈ fetch_site) then true else
  let own_hosts := if bool_decide ("same-site" ∈ fetch_site)
                   then header_values "host" headers ++ (first_hop <$> header_values "x-forwarded-host" headers)
                   else [] in
  let origins := header_values "origin" headers in
  if negb (bool_decide (origins = [])) then
    existsb (fun o => foreign_origin o allowed_hosts own_scheme websocket own_hosts) origins
  else if negb (bool_decide (fetch_site = []))
          && forallb (fun v => String.eqb v "same-origin" || String.eqb v "none") fetch_site then false
  else existsb (fun r => foreign_referer r allowed_hosts own_scheme websocket own_hosts)
         (header_values "referer" headers).

(** [SameOriginMiddleware]: what it is made with, and the call. *)
Record same_origin := SameOrigin { so_allowed_hosts : list string; cross_site_paths : list string; cross_site_prefixes : list string }.

Definition new_same_origin (allowed_hosts cross_site_paths : list string) : res same_origin :=
  if bool_decide (allowed_hosts = []) || existsb (fun h => String.eqb (strip h) "*") allowed_hosts then Raise ValueError
  else if existsb (fun p => negb (startswith "/" p) || String.eqb p "/") cross_site_paths then Raise ValueError
  else Ok (SameOrigin allowed_hosts (filter (fun p => endswith "/" p = false) cross_site_paths)
                      (filter (fun p => endswith "/" p = true) cross_site_paths)).

Definition exempt (m : same_origin) (path : string) : bool :=
  bool_decide (path ∈ cross_site_paths m) || existsb (fun p => startswith p path) (cross_site_prefixes m).

Definition cross_site (m : same_origin) (r : request) : bool :=
  is_cross_site (rq_headers r) (so_allowed_hosts m) (rq_scheme r) (bool_decide (rq_type r = WEBSOCKET)).

Definition same_origin_call (m : same_origin) (r : request) : response :=
  match rq_type r with
  | WEBSOCKET => if negb (exempt m (rq_path r)) && cross_site m r then refuse r 403 else ToApp r
  | HTTP => if bool_decide (rq_method r ∈ _UNSAFE) && negb (exempt m (rq_path r)) && cross_site m r
            then Refused 403 else ToApp r
  | LIFESPAN => ToApp r
  end.

(** The two, as main.py stacks them. *)
Definition gate `{Starlette} (allowed_hosts health_paths : list string) (www_redirect : bool) (m : same_origin)
    (r : request) : response :=
  match allowed_hosts_call allowed_hosts health_paths www_redirect r with
  | ToApp r' => same_origin_call m r'
  | refused => refused
  end.

(** ** core/safe_redirect.py *)

Definition DEFAULT_TARGET : string := "/".
Definition _DECODE_ROUNDS : nat := 5.

(** [re.split(class, s)] *)
Fixpoint split_by (f : ascii -> bool) (s : string) : list string :=
  match s with
  | EmptyString => [""]
  | String x s' =>
      if f x then "" :: split_by f s'
      else match split_by f s' with
           | [] => [String x ""]
           | t :: ts => String x t :: ts
           end
  end.

Definition backslash : ascii := chr 92.
Definition is_slash (c : ascii) : bool := Ascii.eqb c "/" || Ascii.eqb c backslash.
Definition is_segment_end (c : ascii) : bool := Ascii.eqb c "?" || Ascii.eqb c "#" || Ascii.eqb c ";".
Definition is_path_end (c : ascii) : bool := Ascii.eqb c "?" || Ascii.eqb c "#".

(** [_dot_segment] *)
Definition dot_segment (path : string) : bool :=
  existsb (fun segment => let s := (cut_at is_segment_end segment).1 in String.eqb s "." || String.eqb s "..")
    (split_by is_slash path).

(** [_path_resolves_elsewhere] *)
Fixpoint decode_rounds (rounds : nat) (path : string) : bool :=
  match rounds with
  | O => dot_segment path || negb (String.eqb (unquote path) path)
  | S rounds =>
      if dot_segment path then true
      else let decoded := unquote path in
           if String.eqb decoded path then false else decode_rounds rounds decoded
  end.
Definition path_resolves_elsewhere (value : string) : bool := decode_rounds _DECODE_ROUNDS (cut_at is_path_end value).1.

Definition is_printable (c : ascii) : bool := let n := N_of_ascii c in ((33 <=? n) && (n <=? 126))%N.
Definition is_control (c : ascii) : bool := let n := N_of_ascii c in ((n <? 32) || (n =? 127))%N.

(** Whether a candidate is a path of this site, as [urlsplit] reads it. *)
Definition candidate_ok (candidate : string) : res bool :=
  if negb (startswith "/" candidate) || startswith "//" candidate then Ok false
  else if contains backslash candidate || has_char is_control candidate then Ok false
  else parts ← urlsplit candidate;
       Ok (String.eqb (scheme parts) "" && String.eqb (netloc parts) "").

Definition safe_redirect_target (value : pyval) (default : string) : res string :=
  match value with
  | PStr value =>
      let v := strip value in
      if negb (all_of is_printable v) then Ok default else
      raw ← candidate_ok v;
      if negb raw then Ok default else
      decoded ← candidate_ok (unquote v);
      if negb decoded then Ok default
      else if path_resolves_elsewhere v then Ok default
      else Ok v
  | _ => Ok default
  end.
