(* ===== verification/WebGateTheorems.v ===== *)
(** * WebGateTheorems

    A request that reaches the app names a host the app serves, or is the
    container's own probe; a browser's unsafe request from another site does not
    reach it; a redirect target from a request stays on the site. *)

From S2P Require Import Prelude Text Net Url Py WebGate.

(** ** A host that is served *)

Lemma label_char_plain c : is_label_char c = true -> c <> ":"%char.
Proof. intros H ->. vm_compute in H. done. Qed.

Lemma has_char_split f c s : f c = false -> forallb (fun t => negb (has_char f t)) (split c s) = true ->
  has_char f s = false.
Proof.
  intros Hc. induction s as [|x s IH]; cbn; [done|].
  destruct (Ascii.eqb_spec x c) as [->|N]; cbn.
  - intros H. by rewrite Hc, IH.
  - destruct (split c s) as [|t ts] eqn:E; cbn.
    + intros [H _]%andb_true_iff. exfalso. clear -E. revert E. destruct s as [|y s]; cbn; [done|].
      destruct (Ascii.eqb y c); [done|]. by destruct (split c s).
    + intros [H1 H2]%andb_true_iff. rewrite negb_orb in H1. apply andb_true_iff in H1 as [H0 H1].
      apply negb_true_iff in H0. rewrite H0. apply IH. cbn. by rewrite H1, H2.
Qed.

Lemma labels_no_colon name : labels_ok name = true -> contains ":" name = false.
Proof.
  intros H. apply (has_char_split _ "."); [done|]. unfold labels_ok in H.
  rewrite forallb_forall in H |- *. intros t Ht. specialize (H t Ht).
  unfold some_of in H. apply andb_true_iff in H as [_ H].
  clear Ht. induction t as [|c t IH]; [done|]. rewrite all_of_cons in H. apply andb_true_iff in H as [Hc H].
  change (negb (Ascii.eqb ":" c || has_char (Ascii.eqb ":") t) = true).
  rewrite negb_orb, IH by done. apply andb_true_iff. split; [|done].
  destruct (Ascii.eqb_spec ":" c) as [<-|]; [vm_compute in Hc; done|done].
Qed.

Lemma contains_free c s : contains c s = false <-> free_of c s.
Proof.
  unfold contains. induction s as [|x s IH]; cbn; [done|]. rewrite orb_false_iff, IH.
  destruct (Ascii.eqb_spec c x) as [->|N]; split; [by intros [? _]|by intros [? _]|by intros [_ ?]|by intros [_ ?]].
Qed.

(** The Host the app is shown: the canonical name and the port. *)
Definition host_value (name : string) (port : option string) : string :=
  match port with None => name | Some p => name +:+ ":" +:+ p end.

Lemma host_value_name name port : labels_ok name = true -> (partition ":" (host_value name port)).1.1 = name.
Proof.
  intros H%labels_no_colon%contains_free. destruct port as [p|]; cbn [host_value].
  - change (":" +:+ p) with (String ":" p). by rewrite partition_at.
  - by rewrite partition_free.
Qed.

Lemma header_values_set name value (h : list (string * string)) : lower name = name ->
  header_values name ((fun kv => if String.eqb (lower kv.1) name then (name, value) else kv) <$> h)
  = (fun _ => value) <$> header_values name h.
Proof.
  intros Hn. induction h as [|[k v] h IH]; [done|]. rewrite fmap_cons. unfold header_values in *.
  rewrite !filter_cons. cbn [fst snd]. destruct (String.eqb_spec (lower k) name) as [E|E].
  - rewrite decide_True by done. rewrite decide_True by done. rewrite !fmap_cons. by rewrite IH.
  - rewrite decide_False by done. rewrite decide_False by done. exact IH.
Qed.

(** ** The list of hosts *)

(** The list of hosts the app starts with is not empty, holds no catch-all, and
    each of its entries is a name of labels, or a domain under a star. *)
Theorem allowed_hosts_well_formed value hosts : parse_allowed_hosts value = Ok hosts ->
  hosts <> [] /\ ~ "*" ∈ hosts /\ forall h, h ∈ hosts -> entry_ok h = true.
Proof.
  unfold parse_allowed_hosts. intros H.
  destruct (match value with PStr _ => _ | PList _ => _ | _ => _ end) as [items|]; [|done]. cbn [mbind res_bind] in H.
  destruct (fold_res _ [] items) as [l|] eqn:F; [|done]. cbn [mbind res_bind] in H.
  case_bool_decide as D1; [done|]. case_bool_decide as D2; [done|]. injection H as <-.
  split_and!; [done|done|].
  assert (G : forall items acc l, fold_res (fun hosts item => match item with
            | PStr item =>
                let host := lower (strip item) in
                if String.eqb host "" then Ok hosts
                else if negb (String.eqb host "*") && negb (entry_ok host) then Raise ValueError
                else Ok (hosts ++ [host])
            | _ => Raise ValueError
            end) acc items = Ok l ->
      (forall h, h ∈ acc -> h = "*" \/ entry_ok h = true) -> forall h, h ∈ l -> h = "*" \/ entry_ok h = true).
  { clear. induction items as [|item items IH]; intros acc l H Hacc; cbn [fold_res] in H; [by injection H as <-|].
    destruct item as [| | | |s| |]; try done. cbn zeta in H.
    destruct (String.eqb (lower (strip s)) ""); [by apply (IH acc)|].
    destruct (String.eqb_spec (lower (strip s)) "*") as [E|E]; cbn [negb andb] in H.
    - cbn [mbind res_bind] in H. apply (IH _ _ H). intros h [Hh | ->%list_elem_of_singleton]%elem_of_app; auto.
    - destruct (entry_ok (lower (strip s))) eqn:O; [|done]. cbn [negb mbind res_bind] in H.
      apply (IH _ _ H). intros h [Hh | ->%list_elem_of_singleton]%elem_of_app; auto. }
  intros h Hh. destruct (G _ _ _ F ltac:(by intros ? ?%elem_of_nil) h Hh) as [-> | E]; [done|done].
Qed.

(** ** What reaches the app *)

Section Hosts.
Context `{StarletteLaws}.

(** C37: With the list of hosts the app starts with, a request the gate lets through
    to the app names, in its one Host header, a host the app serves (one of its
    list, or under a listed domain), and the app is shown that name as the list
    writes it; the exception is the container's own health probe: a loopback
    peer's, with a loopback Host, for a health path, that no proxy forwarded. *)
Theorem gate_host_served value allowed_hosts health_paths www m r r' :
  parse_allowed_hosts value = Ok allowed_hosts -> rq_type r <> LIFESPAN ->
  gate allowed_hosts health_paths www m r = ToApp r' ->
  (in_container_probe health_paths r = true /\ rq_type r = HTTP /\ r' = r)
  \/ exists raw name port, host_headers r = [raw] /\ canonical raw = Some (name, port)
       /\ existsb (listed name) allowed_hosts = true /\ host_headers r' = [host_value name port].
Proof.
  intros Hhosts Ht Hg. unfold gate in Hg.
  destruct (allowed_hosts_call allowed_hosts health_paths www r) as [| | |r1] eqn:A; [done..|].
  assert (r1 = r') as ->.
  { unfold same_origin_call, refuse in Hg. repeat (case_in Hg; try done); by injection Hg. }
  clear Hg. unfold allowed_hosts_call in A.
  assert (A' : match host_headers r with
      | [raw] => match host_name raw with
          | None => refuse r 400
          | Some _ => if bool_decide (rq_type r = HTTP) && in_container_probe health_paths r then ToApp r else
              match canonical raw with
              | None => refuse r 400
              | Some (name, port) =>
                  match match_name allowed_hosts www name, rq_type r with
                  | No, _ | Www, WEBSOCKET => refuse r 400
                  | _, _ => trusted_host allowed_hosts www
                        (set_headers r ((fun kv => if String.eqb (lower kv.1) "host" then ("host", host_value name port) else kv) <$> rq_headers r))
                  end
              end
          end
      | _ => refuse r 400
      end = ToApp r') by (by destruct (rq_type r)). clear A.
  assert (Hno : forall z, refuse r z <> ToApp r') by (intros z; unfold refuse; by destruct (rq_type r), (rq_denial_response r)).
  destruct (host_headers r) as [|raw [|]] eqn:Hh; [by apply Hno in A'| |by apply Hno in A'].
  destruct (host_name raw); [|by apply Hno in A'].
  destruct (bool_decide (rq_type r = HTTP) && in_container_probe health_paths r) eqn:P.
  { left. apply andb_true_iff in P as [P1%bool_decide_eq_true P2]. by injection A' as <-. }
  destruct (canonical raw) as [[name port]|] eqn:C; [|by apply Hno in A'].
  right. exists raw, name, port. set (r2 := set_headers r _) in A'.
  assert (H2 : host_headers r2 = [host_value name port]).
  { unfold host_headers, r2. cbn [set_headers rq_headers]. rewrite header_values_set by done.
    unfold host_headers in Hh. by rewrite Hh. }
  assert (Hn : (partition ":" (host_header r2)).1.1 = name).
  { unfold host_header. rewrite H2. apply host_value_name.
    unfold canonical in C. repeat (case_in C; try done). by injection C as <- <-. }
  split; [done|]. split; [done|]. unfold match_name in A'.
  destruct (existsb (listed name) allowed_hosts) eqn:L; [by apply trusted_host_same in A' as ->|exfalso].
  destruct (existsb (fun pattern => String.eqb pattern ("www." +:+ name)) allowed_hosts && www) eqn:W; [|by apply Hno in A'].
  apply andb_true_iff in W as [W ->]. destruct (rq_type r) eqn:Hty; [|by apply Hno in A'|done].
  pose proof (trusted_host_www allowed_hosts r2) as Hw. rewrite Hn in Hw.
  rewrite Hw in A'; [done|done| |done..]. by apply (allowed_hosts_well_formed value).
Qed.
End Hosts.

(** A served host, from the address a proxy in the same machine speaks from. *)
#[local] Instance plain_starlette : Starlette := {|
  trusted_host hosts www r :=
    let host := (partition ":" (host_header r)).1.1 in
    match rq_type r with
    | LIFESPAN => ToApp r
    | _ => if bool_decide ("*" ∈ hosts) || existsb (listed host) hosts then ToApp r
           else if existsb (fun pattern => String.eqb pattern ("www." +:+ host)) hosts && www then Redirected
           else refuse r 400
    end
|}.
#[local] Instance plain_starlette_laws : StarletteLaws.
Proof.
  split.
  - intros hosts www r r' H. cbn in H. unfold refuse in H.
    destruct (rq_type r); try (by injection H); repeat (case_in H; try done); by injection H.
  - intros hosts r Ht Hs Hl Hw. cbn. by rewrite Ht, bool_decide_eq_false_2, Hl, Hw.
  - intros hosts www r Ht. cbn. by rewrite Ht.
Qed.

Definition sample_request : request :=
  Request HTTP "POST" "/login" (Some "http") (Some "10.0.0.2")
    [("Host", "Status.Example.COM.:9000"); ("Origin", "https://status.example.com:9000"); ("X-Forwarded-Proto", "https")] false.

Lemma gate_host_served_witness :
  exists r', gate ["*.example.com"] ["/health"] false (SameOrigin ["*.example.com"] [] []) sample_request = ToApp r'
  /\ host_headers r' = ["status.example.com:9000"]
  /\ exists raw name port, host_headers sample_request = [raw] /\ canonical raw = Some (name, port)
       /\ existsb (listed name) ["*.example.com"] = true /\ host_headers r' = [host_value name port].
Proof.
  destruct (gate ["*.example.com"] ["/health"] false (SameOrigin ["*.example.com"] [] []) sample_request)
    as [| | |r'] eqn:E; try (vm_compute in E; discriminate E).
  exists r'. split; [done|]. split; [vm_compute in E; injection E as <-; reflexivity|].
  destruct (gate_host_served (PStr "*.example.com") ["*.example.com"] ["/health"] false (SameOrigin ["*.example.com"] [] [])
    sample_request r') as [(P & _)|G]; [reflexivity|done|exact E|vm_compute in P; discriminate P|exact G].
Defined.

(** ** An unsafe request from another site *)

(** An origin, as a browser serializes it. *)
Definition serialize_origin (sch host : string) (port : option string) : string :=
  sch +:+ "://" +:+ host_value host port.

Definition valid_port (port : option string) : Prop :=
  match port with Some p => some_of is_digit p = true /\ (String.length p <= 5)%nat | None => True end.

Lemma strip_not_space s : all_of (fun c => negb (is_space c)) s = true -> strip s = s.
Proof.
  intros H. apply strip_word. induction s as [|c s IH]; [done|]. rewrite all_of_cons in H.
  apply andb_true_iff in H as [Hc H]. split; [by apply negb_true_iff in Hc|by apply IH].
Qed.

Lemma all_of_app f s t : all_of f (s +:+ t) = all_of f s && all_of f t.
Proof.
  induction s as [|c s IH]; [done|]. change (String c s +:+ t) with (String c (s +:+ t)).
  by rewrite !all_of_cons, IH, andb_assoc.
Qed.

Lemma all_of_impl f g s : (forall c, f c = true -> g c = true) -> all_of f s = true -> all_of g s = true.
Proof.
  intros H. induction s as [|c s IH]; [done|]. rewrite !all_of_cons.
  intros [Hc Hs]%andb_true_iff. by rewrite (H c Hc), IH.
Qed.

(** Every ASCII character of a class, tried. *)
Ltac every_char := intros [[] [] [] [] [] [] [] []]; vm_compute; congruence.

Lemma name_char_not_colon s : all_of is_name_char s = true -> free_of ":" s.
Proof.
  induction s as [|c s IH]; [done|]. rewrite all_of_cons. intros [Hc Hs]%andb_true_iff.
  split; [|by apply IH]. intros ->. vm_compute in Hc. done.
Qed.

Lemma match_host_value host port : some_of is_name_char host = true -> valid_port port ->
  match_host (host_value host port) = Some (Name host, port).
Proof.
  intros Hh Hp. pose proof Hh as Hh'. unfold some_of in Hh'. apply andb_true_iff in Hh' as [Hne Ha].
  pose proof (name_char_not_colon host Ha) as Hfree.
  assert (P : partition ":" (host_value host port) = (host, bool_decide (is_Some port), default "" port)).
  { destruct port as [p|]; cbn [host_value].
    - change (":" +:+ p) with (String ":" p). by rewrite partition_at.
    - by rewrite partition_free. }
  assert (M : match match_port (bool_decide (is_Some port)) (default "" port) with
              | Some p => Some (Name host, p) | None => None end = Some (Name host, port)).
  { destruct port as [p|]; cbn; [|done]. destruct Hp as [Hp1 Hp2]. rewrite Hp1.
    by rewrite (proj2 (Nat.leb_le _ _)). }
  unfold match_host. rewrite P, Hh. rewrite M.
  destruct host as [|c host]; [done|]. rewrite all_of_cons in Ha. apply andb_true_iff in Ha as [Hc _].
  assert (Hv : exists t, host_value (String c host) port = String c t).
  { destruct port as [p|]; cbn; by eexists. }
  destruct Hv as [t ->]. clear -Hc. destruct c as [[] [] [] [] [] [] [] []]; try done; vm_compute in Hc; done.
Qed.

Lemma match_origin_serialized sch host port : sch ∈ ["http"; "https"] -> some_of is_name_char host = true ->
  valid_port port ->
  match_origin false (strip (serialize_origin sch host port)) = Some (sch, Name host).
Proof.
  intros Hs Hh Hp.
  assert (N : all_of (fun c => negb (is_space c)) (serialize_origin sch host port) = true).
  { unfold serialize_origin. rewrite !all_of_app. 
    assert (H1 : all_of (fun c => negb (is_space c)) sch = true).
    { rewrite !elem_of_cons, elem_of_nil in Hs. by destruct Hs as [-> | [-> | []]]. }
    assert (H2 : all_of (fun c => negb (is_space c)) host = true).
    { unfold some_of in Hh. apply andb_true_iff in Hh as [_ Hh]. eapply all_of_impl; [|exact Hh]. every_char. }
    rewrite H1. change (all_of _ "://") with true. cbn [andb].
    destruct port as [p|]; [|exact H2]. cbn [host_value]. rewrite !all_of_app, H2.
    change (all_of _ ":") with true. cbn [andb]. destruct Hp as [Hp _]. unfold some_of in Hp.
    apply andb_true_iff in Hp as [_ Hp]. eapply all_of_impl; [|exact Hp]. every_char. }
  rewrite strip_not_space by exact N. unfold match_origin, serialize_origin.
  assert (Q : partition ":" (sch +:+ "://" +:+ host_value host port) = (sch, true, String "/" (String "/" (host_value host port)))).
  { rewrite !elem_of_cons, elem_of_nil in Hs. by destruct Hs as [-> | [-> | []]]. }
  rewrite Q. rewrite bool_decide_eq_true_2.
  - cbn [andb]. by rewrite match_host_value.
  - rewrite !elem_of_cons, elem_of_nil in Hs. destruct Hs as [-> | [-> | []]]; cbn; set_solver.
Qed.

(** What the request's Sec-Fetch-Site headers say, and the hosts it came in on. *)
Definition fetch_site (r : request) : list string := (fun v => lower (strip v)) <$> header_values "sec-fetch-site" (rq_headers r).
Definition own_hosts (r : request) : list string :=
  if bool_decide ("same-site" ∈ fetch_site r)
  then header_values "host" (rq_headers r) ++ (first_hop <$> header_values "x-forwarded-host" (rq_headers r)) else [].

(** A POST, PUT, PATCH or DELETE a page sends reaches the app exactly where the
    page is of this site: the browser does not say cross-site, the page's host is
    one the app serves, over HTTPS (or over HTTP to a request that is HTTP), and is
    not another port of the request's own host. *)
Theorem page_request_decided m r sch host port :
  rq_type r = HTTP -> rq_method r ∈ _UNSAFE -> exempt m (rq_path r) = false ->
  sch ∈ ["http"; "https"] -> some_of is_name_char host = true -> valid_port port ->
  header_values "origin" (rq_headers r) = [serialize_origin sch host port] ->
  same_origin_call m r =
    if bool_decide ("cross-site" ∈ fetch_site r) || is_own_host host (own_hosts r)
       || (String.eqb sch "http" && negb (String.eqb (own_scheme_of (rq_headers r) (rq_scheme r) false) "http"))
       || negb (host_allowed host (so_allowed_hosts m))
    then Refused 403 else ToApp r.
Proof.
  intros Ht Hm He Hs Hh Hp Ho. unfold same_origin_call. rewrite Ht, bool_decide_eq_true_2, He by done. cbn [negb andb].
  unfold cross_site, is_cross_site. rewrite Ht. change (bool_decide (HTTP = WEBSOCKET)) with false.
  cbn zeta. fold (fetch_site r). fold (own_hosts r). rewrite Ho.
  destruct (bool_decide ("cross-site" ∈ fetch_site r)); [done|]. cbn [negb bool_decide_decide].
  rewrite (bool_decide_eq_false_2 ([_] = [])) by done. cbn [negb existsb orb].
  unfold foreign_origin. rewrite match_origin_serialized by done. cbn [host_of].
  destruct (is_own_host host (own_hosts r)); [done|]. cbn [orb]. unfold this_site. cbn [andb].
  assert (L : lower sch = sch /\ bool_decide (sch ∈ _SCHEMES) = true).
  { rewrite !elem_of_cons, elem_of_nil in Hs. by destruct Hs as [-> | [-> | []]]. }
  destruct L as [-> ->]. cbn [negb orb].
  destruct (String.eqb sch "http" && negb _); [done|]. cbn [orb]. by rewrite orb_false_r.
Qed.

Lemma page_request_decided_witness :
  same_origin_call (SameOrigin ["status.example.com"] [] [])
    (Request HTTP "POST" "/login" (Some "https") None [("Origin", "https://evil.example:8443")] false) = Refused 403.
Proof.
  rewrite (page_request_decided (SameOrigin ["status.example.com"] [] []) _ "https" "evil.example" (Some "8443")).
  - vm_compute. reflexivity.
  - reflexivity.
  - by constructor.
  - reflexivity.
  - by right; left.
  - reflexivity.
  - split; [reflexivity|cbn; lia].
  - reflexivity.
Defined.

(** ** A redirect target *)

(** How a browser reads a Location against a page of this site (the URL standard's
    basic parser): leading and trailing controls and spaces go, tabs and newlines
    go, and it leaves the site on a scheme, or on two slashes of either kind. *)
Definition leaves_site (location : string) : bool :=
  let s := remove_chars is_tab_or_newline (rstrip_by is_c0_or_space (lstrip_by is_c0_or_space location)) in
  negb (String.eqb (split_scheme s).1 "")
  || match s with
     | String c1 (String c2 _) => is_slash c1 && is_slash c2
     | _ => false
     end.

Lemma decode_rounds_depth n path : decode_rounds n path = false ->
  forall k, dot_segment (Nat.iter k unquote path) = false.
Proof.
  assert (Hfix : forall p, unquote p = p -> forall k, Nat.iter k unquote p = p).
  { intros p Hp k. induction k as [|k IH]; [done|].
    change (unquote (Nat.iter k unquote p) = p). by rewrite IH. }
  revert path. induction n as [|n IH]; intros path H k; cbn [decode_rounds] in H.
  - apply orb_false_iff in H as [Hd Hu]. apply negb_false_iff, String.eqb_eq in Hu. by rewrite Hfix.
  - destruct (dot_segment path) eqn:Hd; [done|]. cbn zeta in H.
    destruct (String.eqb_spec (unquote path) path) as [E|N]; [by rewrite Hfix|].
    destruct k as [|k]; [done|]. rewrite Nat.iter_succ_r. by apply IH.
Qed.

Lemma startswith_char a b s : startswith (String a "") (String b s) = true -> b = a.
Proof. unfold startswith. cbn [String.prefix]. by destruct (ascii_dec a b). Qed.

Lemma startswith_two a s : startswith (String a (String a "")) (String a (String a s)) = true.
Proof. unfold startswith. cbn [String.prefix]. destruct (ascii_dec a a); [by destruct s|done]. Qed.

(** A candidate that starts with a slash and holds no control has no scheme, and no
    network part unless it starts with two. *)
Lemma candidate_split s : startswith "/" s = true -> startswith "//" s = false -> has_char is_control s = false ->
  exists u, urlsplit s = Ok u /\ scheme u = "" /\ netloc u = "".
Proof.
  intros H1 H2 Hc. destruct s as [|c s]; [done|].
  apply startswith_char in H1 as ->.
  assert (E : remove_chars is_tab_or_newline (lstrip_by is_c0_or_space (String "/" s)) = String "/" s).
  { change (lstrip_by is_c0_or_space (String "/" s)) with (String "/" s). apply remove_chars_id.
    eapply has_char_impl; [|exact Hc]. every_char. }
  unfold urlsplit. rewrite E.
  assert (S : split_scheme (String "/" s) = ("", String "/" s)).
  { unfold split_scheme. cbn [partition]. change (Ascii.eqb "/" ":") with false. cbn iota.
    destruct (partition ":" s) as [[a found] b]. change (is_alpha "/") with false. by rewrite andb_false_r. }
  assert (N : split_netloc (String "/" s) = ("", String "/" s)).
  { unfold split_netloc. destruct s as [|d s]; [done|].
    destruct (Ascii.eqb_spec d "/") as [->|Hd]; [|by rewrite andb_false_r].
    by rewrite startswith_two in H2. }
  rewrite S, N. change (netloc_ok "") with true. cbn iota.
  destruct (partition "#" (String "/" s)) as [[r ?] fragment], (partition "?" r) as [[path ?] query]. by eexists.
Qed.

Lemma candidate_ok_total s : candidate_ok s =
  Ok (startswith "/" s && negb (startswith "//" s) && negb (contains backslash s) && negb (has_char is_control s)).
Proof.
  unfold candidate_ok. destruct (startswith "/" s) eqn:H1; [|done]. destruct (startswith "//" s) eqn:H2; [done|].
  destruct (contains backslash s); [done|]. destruct (has_char is_control s) eqn:H3; [done|]. cbn [negb orb andb].
  destruct (candidate_split s H1 H2 H3) as (u & -> & Hs & Hn). cbn [mbind res_bind]. by rewrite Hs, Hn.
Qed.

Lemma printable_stays v : all_of is_printable v = true -> startswith "/" v = true -> startswith "//" v = false ->
  contains backslash v = false -> leaves_site v = false.
Proof.
  intros Hp H1 H2 Hb.
  assert (C : forall f, (forall c, is_printable c = true -> f c = false) -> has_char f v = false).
  { intros f Hf. clear -Hp Hf. induction v as [|c v IH]; [done|]. rewrite all_of_cons in Hp.
    apply andb_true_iff in Hp as [Hc Hp]. cbn. by rewrite Hf, IH. }
  assert (L : lstrip_by is_c0_or_space v = v).
  { specialize (C is_c0_or_space ltac:(every_char)). destruct v as [|c v]; [done|].
    cbn [has_char] in C. apply orb_false_iff in C as [E _]. cbn [lstrip_by]. by rewrite E. }
  assert (R : rstrip_by is_c0_or_space v = v).
  { specialize (C is_c0_or_space ltac:(every_char)). clear -C. induction v as [|c v IH]; [done|].
    cbn [has_char] in C. apply orb_false_iff in C as [Hc Hv]. cbn [rstrip_by]. rewrite IH by done. by destruct v; rewrite ?Hc. }
  assert (M : remove_chars is_tab_or_newline v = v) by (apply remove_chars_id, C; every_char).
  unfold leaves_site. cbn zeta. rewrite L, R, M.
  destruct v as [|c v]; [done|].
  apply startswith_char in H1 as ->.
  assert (S : (split_scheme (String "/" v)).1 = "").
  { unfold split_scheme. cbn [partition]. change (Ascii.eqb "/" ":") with false. cbn iota.
    destruct (partition ":" v) as [[a found] b]. change (is_alpha "/") with false. by rewrite andb_false_r. }
  rewrite S. destruct v as [|d v]; [done|]. change (is_slash "/") with true. cbn [String.eqb negb orb andb].
  unfold is_slash. unfold contains in Hb. cbn [has_char] in Hb.
  apply orb_false_iff in Hb as [_ [Hd _]%orb_false_iff].
  destruct (Ascii.eqb_spec d backslash) as [->|_]; [by rewrite Ascii.eqb_refl in Hd|]. rewrite orb_false_r.
  destruct (Ascii.eqb_spec d "/") as [->|_]; [|done]. by rewrite startswith_two in H2.
Qed.

(** A redirect target from a request is always a text: the default, or a path a
    browser resolves on this site, of printable ASCII (it goes into a header), that
    after any number of percent-decodings of its path holds no dot segment, so that
    the path a check saw is the one the browser lands on. *)
Theorem safe_redirect_stays value default :
  exists target, safe_redirect_target value default = Ok target
  /\ (target = default
      \/ all_of is_printable target = true /\ startswith "/" target = true /\ leaves_site target = false
         /\ forall k, dot_segment (Nat.iter k unquote (cut_at is_path_end target).1) = false).
Proof.
  unfold safe_redirect_target. destruct value as [| | | |s| |]; try (eexists; split; [done|by left]).
  cbn zeta. rewrite !candidate_ok_total.
  destruct (all_of is_printable (strip s)) eqn:P; cbn [negb]; [|eexists; split; [done|by left]].
  cbn [mbind res_bind]. destruct (startswith "/" (strip s)) eqn:H1; cbn [andb negb]; [|eexists; split; [done|by left]].
  destruct (startswith "//" (strip s)) eqn:H2; cbn [andb negb]; [eexists; split; [done|by left]|].
  destruct (contains backslash (strip s)) eqn:H3; cbn [andb negb]; [eexists; split; [done|by left]|].
  destruct (has_char is_control (strip s)); cbn [andb negb]; [eexists; split; [done|by left]|].
  case_goal; [eexists; split; [done|by left]|].
  destruct (path_resolves_elsewhere (strip s)) eqn:D; [eexists; split; [done|by left]|].
  exists (strip s). split; [done|]. right. split_and!; [done|done|by apply printable_stays|].
  exact (decode_rounds_depth _ _ D).
Qed.

Lemma allowed_hosts_well_formed_witness :
  parse_allowed_hosts (PStr " Status.example.com , *.example.org,") = Ok ["status.example.com"; "*.example.org"]
  /\ ~ "*" ∈ ["status.example.com"; "*.example.org"].
Proof.
  assert (E : parse_allowed_hosts (PStr " Status.example.com , *.example.org,") = Ok ["status.example.com"; "*.example.org"])
    by (vm_compute; reflexivity).
  split; [exact E|]. exact (proj1 (proj2 (allowed_hosts_well_formed _ _ E))).
Defined.
