(* ===== verification/Notify.v ===== *)
(** * Sending notifications

    [NotificationCoreService.send_notifications] and its rate limit
    (apps/backend/app/services/core/notification_core_service.py): gate every
    provider, deliver through those let past, record one log row per provider.

    The delivery itself (SMTP, HTTP) is [wire], an argument: what a provider's
    [send] answers or raises.  An exception carries the summary
    [_delivery_error] makes of it. *)

From S2P Require Import Prelude Py Store.

(** ** NotificationContext (notifications/providers/base.py)

    Without the target, which the code passes through
    [core/credential_mask.py], and the free-text fields copied from the alert. *)
Record notification_context := NotificationContext {
  nc_check_name : string;
  nc_check_type : string;
  nc_agent_id : option uuid;
  nc_agent_name : option string;
  nc_status : string;
  nc_success : bool;
  nc_latency_ms : option float;
  nc_timestamp : instant;
  nc_error_message : option string;
  nc_alert_name : string;
  nc_is_recovery : bool;
  nc_detail : option string;
}.

(** The label a person reads ([status_label]). *)
Definition status_label (c : notification_context) : string :=
  if nc_success c then "UP"
  else if String.eqb (nc_status c) "no_data" then "NO DATA"
  else if String.eqb (nc_status c) "offline" then "OFFLINE"
  else "DOWN".

(** What every row of one send records (the keyword arguments). *)
Record send_meta := SendMeta {
  sm_alert_id : uuid;
  sm_result_id : option uuid;
  sm_result_ts : option instant;
  sm_check_id : option uuid;
  sm_agent_id : option uuid;
  sm_hash : option string;
  sm_is_resend : bool;
  sm_resend_count : Z;
}.

(** ** The rate limit ([_check_rate_limit]) *)

Definition rate_limit_reason (count limit window : Z) : string :=
  "Rate limit exceeded: " +:+ pretty count +:+ "/" +:+ pretty limit
    +:+ " notifications in " +:+ pretty window +:+ " minutes".

(** [None]: not limited; [Some reason]: refused. *)
Definition check_rate_limit (d : db) (now : instant) (p : provider) : option string :=
  match pv_rate_count p, pv_rate_window p with
  | Some limit, Some window =>
      if (limit =? 0)%Z || (window =? 0)%Z then None
      else
        let window_start := (now - window * us_per_minute)%Z in
        let count := count_for_provider_since d (pv_id p) window_start [SENT; RATE_LIMITED] in
        if (limit <=? count)%Z then Some (rate_limit_reason count limit window) else None
  | _, _ => None
  end.

(** ** Gate, deliver, record *)

Inductive gate_outcome :=
  | Refused (s : NotificationStatus) (error : string)
  | Deliverable (p : provider).

Definition gate (d : db) (now : instant) (id : uuid) : res gate_outcome :=
  match get_live_provider d id with
  | None => Raise NotFoundException
  | Some p =>
      if negb (pv_enabled p) then Ok (Refused SUPPRESSED "Notification provider is disabled")
      else match check_rate_limit d now p with
           | Some reason => Ok (Refused RATE_LIMITED reason)
           | None => Ok (Deliverable p)
           end
  end.

Section Send.
Variable wire : provider -> notification_context -> res bool.

(** [_deliver]: one attempt's status and error, never raised. *)
Definition deliver (p : provider) (ctx : notification_context)
    : NotificationStatus * option string :=
  match wire p ctx with
  | Ok true => (SENT, None)
  | Ok false => (FAILED, Some "Provider returned failure")
  | Raise (DeliveryError msg) => (FAILED, Some msg)
  | Raise _ => (FAILED, Some "Exception")
  end.

Definition outcome_of (ctx : notification_context) (g : gate_outcome)
    : NotificationStatus * option string :=
  match g with
  | Refused s error => (s, Some error)
  | Deliverable p => deliver p ctx
  end.

(** [_row] *)
Definition log_row (now : instant) (ctx : notification_context) (m : send_meta)
    (id : uuid) (outcome : NotificationStatus * option string) : notification_log :=
  NotificationLog (sm_alert_id m) id (sm_result_id m) (sm_result_ts m) (sm_check_id m)
    (sm_agent_id m) (nc_success ctx) (nc_latency_ms ctx) outcome.1 outcome.2 (sm_hash m)
    (sm_is_resend m) (sm_resend_count m) now.

Definition send_notifications (d : db) (now : instant) (ids : list uuid)
    (ctx : notification_context) (m : send_meta) : res (db * list notification_log) :=
  gates ← map_res (gate d now) ids;
  let rows := zip_with (fun id g => log_row now ctx m id (outcome_of ctx g)) ids gates in
  Ok (add_notification_logs d rows, rows).
End Send.

(** ** Lemmas *)

(** Every provider id gets exactly one row, in order; the rows carry the send's
    metadata and nothing else is written. *)
Lemma send_notifications_spec wire d now ids ctx m d' rows :
  send_notifications wire d now ids ctx m = Ok (d', rows) ->
  d' = add_notification_logs d rows /\
  map nl_provider_id rows = ids /\
  Forall (fun r => nl_alert_id r = sm_alert_id m /\ nl_check_id r = sm_check_id m /\
                   nl_agent_id r = sm_agent_id m /\
                   nl_hash r = sm_hash m /\ nl_sent_at r = now /\
                   nl_is_resend r = sm_is_resend m /\ nl_resend_count r = sm_resend_count m /\
                   dedup_relevant (nl_status r) = true) rows.
Proof.
  unfold send_notifications. destruct (map_res _ _) as [gates|] eqn:E; cbn; [|done].
  intros [= <- <-]. split; [done|]. pose proof (map_res_length _ _ _ E) as Hlen.
  revert gates Hlen E.
  induction ids as [|i ids IH]; intros [|g gates] Hlen E; cbn in *; try done.
  destruct (gate d now i) as [g0|] eqn:Eg; cbn in E; [|done].
  destruct (map_res _ ids) as [gs|] eqn:Es; cbn in E; [|done].
  injection E as -> ->. destruct (IH gates) as [IH1 IH2]; [lia|done|].
  split; [by f_equal|]. constructor; [|done]. cbn.
  repeat (split; [done|]). unfold gate in Eg.
  destruct (get_live_provider d i); [|done].
  destruct (negb _); [by injection Eg as <-|].
  destruct (check_rate_limit d now p); injection Eg as <-; cbn; [done|].
  unfold deliver. by destruct (wire _ _) as [[]|[]].
Qed.

Lemma gate_live d now id p : get_live_provider d id = Some p -> exists g, gate d now id = Ok g.
Proof.
  intros H. unfold gate. rewrite H. destruct (negb _); [by eauto|].
  destruct (check_rate_limit d now p); eauto.
Qed.

Lemma send_notifications_total wire d now ids ctx m :
  (forall i, i ∈ ids -> exists p, get_live_provider d i = Some p) ->
  exists d' rows, send_notifications wire d now ids ctx m = Ok (d', rows).
Proof.
  intros H. unfold send_notifications.
  destruct (map_res_all_ok (gate d now) ids) as [gs ->]; [|by cbn; eauto].
  intros i Hi. destruct (H i Hi) as [p Hp]. by eapply gate_live.
Qed.

(** A delivered row needs a provider that is live, enabled and not limited. *)
Lemma gate_deliverable d now id p :
  gate d now id = Ok (Deliverable p) ->
  get_live_provider d id = Some p /\ pv_enabled p = true /\ check_rate_limit d now p = None.
Proof.
  unfold gate. destruct (get_live_provider d id) as [q|]; [|done].
  destruct (pv_enabled q) eqn:He; cbn; [|done].
  destruct (check_rate_limit d now q) eqn:Er; [done|]. by intros [= ->].
Qed.

#[export] Hint Resolve gate_live : lux.
#[global] Arguments send_notifications : simpl never.
#[global] Arguments check_rate_limit : simpl never.
#[global] Arguments gate : simpl never.
