(* ===== verification/Fixtures.v ===== *)
(** * Small concrete states

    The agents, checks, alerts and databases the witnesses evaluate on. *)

From S2P Require Import Prelude Py Store Notify.

Definition minutes (n : Z) : Z := (n * us_per_minute)%Z.

Definition demo_agent (id : uuid) (last_seen : instant) : agent :=
  Agent id (Some "agent") (Some "host") (Some ["role:monitor"]) (Some ONLINE) ACTIVE
        (Some last_seen) 0 (Some 60%Z) None
        None None None 0 None [] [] None None None None None None None.

Definition demo_check (id : uuid) (parent : option uuid) : check :=
  Check id 1 parent "web" "http" "https://example.org" (Some 60%Z) true MANUAL None 0 None [] [].

Definition demo_alert (t : AlertTriggerType) (config : pydict) (resend max_resends : option Z) : alert :=
  Alert 7 "alert" t config true false true resend max_resends false.

Definition demo_provider (limit window : option Z) : provider := Provider 5 true false limit window.

Definition demo_result (id : uuid) (check_id : uuid) (at_ : instant) (ok : bool) : check_result :=
  CheckResult id at_ 1 check_id ok (Some (S754_finite false 1 3)) NoMetrics.

(** Check 10 (child of 20 when [parent]), the alert mapped to it, one provider. *)
Definition demo_db (a : alert) (parent : option uuid) (snoozed : option instant)
    (results : list check_result) (logs : list notification_log) : db :=
  Db {[ 1%N := demo_agent 1 0 ]}
     {[ 10%N := demo_check 10 parent; 20%N := demo_check 20 None ]}
     {[ 7%N := a ]}
     [AlertCheckMapping 7 10 true snoozed None None]
     [AlertNotificationMapping 7 5 true]
     {[ 5%N := demo_provider None None ]}
     results logs.

(** A wire that delivers everything, and one that never does. *)
Definition wire_ok (p : provider) (ctx : notification_context) : res bool := Ok true.
Definition wire_down (p : provider) (ctx : notification_context) : res bool :=
  Raise (DeliveryError "ConnectError").

Definition blank_row : notification_log :=
  NotificationLog 0 0 None None None None false None SENT None None false 0 0.
Definition last_row (l : list notification_log) : notification_log := default blank_row (last l).

(** The value of a computation that returns. *)
Definition value_of {A} (dflt : A) (r : res A) : A := match r with Ok a => a | Raise _ => dflt end.

(** *** A fleet: two agents, a distributed and a synthetic check *)

Definition fleet_agent (id : uuid) (last_seen : instant) : agent := demo_agent id last_seen.

Definition distributed (id : uuid) (type : string) : check :=
  Check id 1 None "api" type "https://example.org" (Some 60%Z) true DISTRIBUTE
        (Some [("tags", PList [PStr "role:monitor"])]) 0 None [] [].

Definition fleet_db (seen1 seen2 : instant) : db :=
  Db (<[1%N := fleet_agent 1 seen1]> {[ 2%N := fleet_agent 2 seen2 ]})
     (<[10%N := distributed 10 "http"]> {[ 30%N := distributed 30 "synthetic" ]})
     ∅ [] [] ∅ [] [].

(** An element of a list that computes. *)
Ltac listed := vm_compute; repeat first [left | right].

(** The rows of a table written out. *)
Ltac table_rows H :=
  repeat first
    [ apply lookup_insert_Some in H as [[<- <-]|[_ H]]
    | apply lookup_singleton_Some in H as [<- <-]
    | rewrite lookup_empty in H; discriminate H ].

Lemma fleet_keyed s1 s2 : keyed (fleet_db s1 s2).
Proof.
  split; intros i x Hx; cbn [fleet_db db_agents db_checks db_alerts db_providers] in Hx;
    table_rows Hx; first [reflexivity | vm_compute; reflexivity].
Qed.

Lemma demo_keyed a parent snoozed results logs :
  al_id a = 7%N -> keyed (demo_db a parent snoozed results logs).
Proof.
  intros Ha. split; intros i x Hx; cbn [demo_db db_agents db_checks db_alerts db_providers] in Hx;
    table_rows Hx; first [exact Ha | reflexivity | vm_compute; reflexivity].
Qed.
