(* ===== verification/Reporter.v ===== *)
(** * The agent's reporter

    apps/agent/app/agent/reporter.py, dead_letter.py and result_limits.py: the
    queue of check results, its delivery with retries, the split of a batch the
    size limit refused, the SQLite tables of pending and dead-lettered batches,
    and their replay.

    What the reporter meets (the server's replies, the clock, the disk, the stop
    flag another task sets) is an [env], read at a tick that advances with every
    reading, so any interleaving of those with the reporter's own steps is one
    [env].  [rp_taken] (the batches the server took) and [rp_lost] (the results a
    cap, a full queue or the storage lost) are history the theorems speak of;
    the code only counts them in its metrics.

    A SQLite transaction succeeds or fails whole, at any of them (a batch stored
    for replay is inserted in one, and the full table pruned in another): a failure
    while inserting or dead-lettering a batch is caught and the batch lost, one
    during the replay is raised out of the pass, whose caller logs it and goes on.

    A stored payload is its list of results, or [None] when it does not
    decompress or parse.  The two tasks that share the reporter are run one
    operation at a time. *)

From S2P Require Import Prelude Py Text Store.

Abbreviation result := pydict.

(** ** dead_letter.py *)

Inductive Delivery := D_SENT | D_PERMANENT | D_TOO_LARGE | D_TRANSIENT.

#[global] Instance Delivery_eq : EqDecision Delivery.
Proof. solve_decision. Defined.

Definition MAX_DETAIL_CHARS : nat := 2048.
Definition PERMANENT_STATUSES : list Z := [400; 422]%Z.
Definition PAYLOAD_ERROR_CODES : list string := ["VALIDATION_ERROR"; "BAD_REQUEST"].

Section Classify.
Context `{PyRuntime}.

(** [_is_payload_refusal]: looking an unhashable value up in a frozenset
    raises TypeError. *)
Definition is_payload_refusal (body : string) : res bool :=
  match json_loads body with
  | Some (PDict envelope) =>
      let error := dict_get envelope "error" PNone in
      if negb (hashable error) then Raise TypeError
      else Ok (match error with PStr s => bool_decide (s ∈ PAYLOAD_ERROR_CODES) | _ => false end)
  | _ => Ok false
  end.

Definition classify_response (status_code : Z) (body : string) : res Delivery :=
  if (200 <=? status_code)%Z && (status_code <? 300)%Z then Ok D_SENT
  else if (status_code =? 413)%Z then Ok D_TOO_LARGE
  else if bool_decide (status_code ∈ PERMANENT_STATUSES) then
    refusal ← is_payload_refusal body; Ok (if (refusal : bool) then D_PERMANENT else D_TRANSIENT)
  else Ok D_TRANSIENT.
End Classify.

(** ** result_limits.py *)

Definition MAX_ERROR_CHARS : nat := 4000.
Definition MAX_RESPONSE_DATA_CHARS : N := 65535.
Definition TRUNCATED_MARKER : string := "... [truncated]".

Definition truncate (text : string) (limit : nat) : string :=
  if (String.length text <=? limit)%nat then text
  else String.substring 0 (limit - String.length TRUNCATED_MARKER) text +:+ TRUNCATED_MARKER.

Definition truncate_field (r : result) (k : string) (limit : nat) : result :=
  match assoc_get r k with
  | Some (PStr s) => dict_set r k (PStr (truncate s limit))
  | _ => r
  end.

(** [isinstance(v, int)] *)
Definition as_int (v : option pyval) : option Z :=
  match v with Some (PInt z) => Some z | Some (PBool b) => Some (Z.b2z b) | _ => None end.

Definition fit_status (r : result) : result :=
  match assoc_get r "http_status_code" with
  | Some v =>
      match as_int (Some v) with
      | Some z =>
          if (100 <=? z)%Z && (z <=? 599)%Z then r
          else
            let r1 := dict_set r "http_status_code" PNone in
            let metrics := match assoc_get r1 "metrics" with Some (PDict m) => m | _ => [] end in
            dict_set r1 "metrics" (PDict (dict_set metrics "http_status_code_raw" v))
      | None => r
      end
  | None => r
  end.

Definition fit_result (r : result) : result :=
  fit_status (truncate_field (truncate_field r "error" MAX_ERROR_CHARS)
                "response_data" (N.to_nat MAX_RESPONSE_DATA_CHARS)).

(** ** The reporter's state *)

Record pending_batch := Pending {
  pb_id : N;
  pb_created_at : instant;
  pb_payload : option (list result);
}.

Record dead_letter := DeadLetter {
  dl_id : N;
  dl_created_at : instant;
  dl_failed_at : instant;
  dl_status_code : Z;
  dl_detail : string;
  dl_payload : option (list result);
}.

(** [StoredBatch] *)
Record stored_batch := StoredBatch {
  sb_row_id : N;
  sb_created_at : instant;
  sb_checks : list result;
}.

Record reporter := Reporter {
  rp_batch : list result;             (* current_batch *)
  rp_flush_event : bool;
  rp_pending : list pending_batch;    (* the table, in row order *)
  rp_dead : list dead_letter;
  rp_next_id : N;                     (* both tables' AUTOINCREMENT *)
  rp_held : list N;                   (* _size_held *)
  rp_taken : list result;
  rp_lost : list result;
  rp_tick : nat;
}.

Record settings := {
  max_retries : nat;
  enable_local_storage : bool;
  max_files_per_batch : nat;
  max_stored_batches : nat;
  max_dead_letters : nat;
  batch_size : nat;
  max_queue_size : nat;
}.

(** What a POST meets: no answer, or a status and a body. *)
Inductive reply := NetworkError | Response (status_code : Z) (body : string).

Record env := {
  env_reply : nat -> list result -> reply;
  env_stopped : nat -> bool;
  env_disk_ok : nat -> bool;
  env_time : nat -> instant;
}.

(** ** The reporter's monad: the state, and an exception that may end a step. *)

Definition RM (A : Type) : Type := reporter -> res A * reporter.

#[global] Instance rm_ret : MRet RM := fun _ a st => (Ok a, st).
#[global] Instance rm_bind : MBind RM :=
  fun _ _ f m st => match m st with
                    | (Ok a, st') => f a st'
                    | (Raise e, st') => (Raise e, st')
                    end.

Definition lift {A} (r : res A) : RM A := fun st => (r, st).
Definition get : RM reporter := fun st => (Ok st, st).
Definition modify (f : reporter -> reporter) : RM unit := fun st => (Ok tt, f st).

Definition tick (st : reporter) : reporter :=
  Reporter (rp_batch st) (rp_flush_event st) (rp_pending st) (rp_dead st) (rp_next_id st)
    (rp_held st) (rp_taken st) (rp_lost st) (S (rp_tick st)).
(** Read the environment at the next tick. *)
Definition observe {A} (f : nat -> A) : RM A := fun st => (Ok (f (rp_tick st)), tick st).

Definition set_batch (l : list result) (st : reporter) : reporter :=
  Reporter l (rp_flush_event st) (rp_pending st) (rp_dead st) (rp_next_id st)
    (rp_held st) (rp_taken st) (rp_lost st) (rp_tick st).
Definition set_pending (l : list pending_batch) (st : reporter) : reporter :=
  Reporter (rp_batch st) (rp_flush_event st) l (rp_dead st) (rp_next_id st)
    (rp_held st) (rp_taken st) (rp_lost st) (rp_tick st).
Definition set_dead (l : list dead_letter) (st : reporter) : reporter :=
  Reporter (rp_batch st) (rp_flush_event st) (rp_pending st) l (rp_next_id st)
    (rp_held st) (rp_taken st) (rp_lost st) (rp_tick st).
Definition set_held (l : list N) (st : reporter) : reporter :=
  Reporter (rp_batch st) (rp_flush_event st) (rp_pending st) (rp_dead st) (rp_next_id st)
    l (rp_taken st) (rp_lost st) (rp_tick st).
Definition take_results (l : list result) (st : reporter) : reporter :=
  Reporter (rp_batch st) (rp_flush_event st) (rp_pending st) (rp_dead st) (rp_next_id st)
    (rp_held st) (rp_taken st ++ l) (rp_lost st) (rp_tick st).
Definition lose (l : list result) (st : reporter) : reporter :=
  Reporter (rp_batch st) (rp_flush_event st) (rp_pending st) (rp_dead st) (rp_next_id st)
    (rp_held st) (rp_taken st) (rp_lost st ++ l) (rp_tick st).
Definition signal (st : reporter) : reporter :=
  Reporter (rp_batch st) true (rp_pending st) (rp_dead st) (rp_next_id st)
    (rp_held st) (rp_taken st) (rp_lost st) (rp_tick st).
Definition next_id (st : reporter) : reporter :=
  Reporter (rp_batch st) (rp_flush_event st) (rp_pending st) (rp_dead st) (rp_next_id st + 1)
    (rp_held st) (rp_taken st) (rp_lost st) (rp_tick st).

Definition payload_of (p : option (list result)) : list result := default [] p.
Definition pending_results (l : list pending_batch) : list result :=
  mjoin (map (fun b => payload_of (pb_payload b)) l).
Definition dead_results (l : list dead_letter) : list result :=
  mjoin (map (fun b => payload_of (dl_payload b)) l).

(** [ORDER BY created_at ASC]: ties keep row order. *)
Fixpoint insert_by_time (b : pending_batch) (l : list pending_batch) : list pending_batch :=
  match l with
  | [] => [b]
  | c :: l' => if (pb_created_at b <? pb_created_at c)%Z then b :: l else c :: insert_by_time b l'
  end.
Definition by_created_at (l : list pending_batch) : list pending_batch :=
  fold_left (fun acc b => insert_by_time b acc) l [].

Definition halves (batch : list result) : list (list result) :=
  let mid := (length batch / 2)%nat in [take mid batch; drop mid batch].

Section Reporter.
Context `{PyRuntime}.
Variable scrub_text : string -> string.   (* shared/log_redaction.py *)
Variable cfg : settings.
Variable e : env.

Definition error_detail (body : string) : string :=
  String.substring 0 MAX_DETAIL_CHARS (scrub_text body).

(** ** Queueing *)

Definition add_result (r : result) : RM unit :=
  let r := fit_result r in
  st ← get;
  let size := length (rp_batch st) in
  _ ← (if (max_queue_size cfg <=? size)%nat then
         (* current_batch[-(max_queue_size - 1):]; a slice from 0 keeps all *)
         let keep := (max_queue_size cfg - 1)%nat in
         let cut := if (keep =? 0)%nat then 0%nat else (size - keep)%nat in
         modify (fun st => set_batch (drop cut (rp_batch st)) (lose (take cut (rp_batch st)) st))
       else mret tt);
  _ ← modify (fun st => set_batch (rp_batch st ++ [r]) st);
  st ← get;
  if (batch_size cfg <=? length (rp_batch st))%nat then modify signal else mret tt.

(** ** Posting *)

Definition stopped : RM bool := observe (env_stopped e).

Fixpoint attempts (n : nat) (batch : list result) (status_code : option Z) (detail : string)
    : RM (Delivery * option Z * string) :=
  match n with
  | O => mret (D_TRANSIENT, status_code, detail)
  | S n' =>
      halt ← stopped;
      if (halt : bool) then mret (D_TRANSIENT, status_code, detail)
      else
        answer ← observe (fun t => env_reply e t batch);
        match answer with
        | NetworkError =>
            halt ← stopped;
            if (halt : bool) then mret (D_TRANSIENT, None, "") else attempts n' batch None ""
        | Response code body =>
            outcome ← lift (classify_response code body);
            match outcome with
            | D_SENT => _ ← modify (take_results batch); mret (D_SENT, Some code, "")
            | D_TOO_LARGE => mret (D_TOO_LARGE, Some code, error_detail body)
            | D_PERMANENT => mret (D_PERMANENT, Some code, error_detail body)
            | D_TRANSIENT =>
                halt ← stopped;
                if (halt : bool) then mret (D_TRANSIENT, Some code, error_detail body)
                else attempts n' batch (Some code) (error_detail body)
            end
        end
  end.

Definition post_batch (batch : list result) : RM (Delivery * option Z * string) :=
  attempts (max_retries cfg) batch None "".

(** ** The tables *)

(** [prune_dead_letters]: the oldest ids beyond the cap. *)
Definition prune_dead_letters (st : reporter) : reporter :=
  let excess := (length (rp_dead st) - max_dead_letters cfg)%nat in
  set_dead (drop excess (rp_dead st)) (lose (dead_results (take excess (rp_dead st))) st).

Definition insert_dead_letter (created_at failed_at : instant) (status_code : Z) (detail : string)
    (payload : option (list result)) (st : reporter) : reporter :=
  next_id (set_dead (rp_dead st ++
    [DeadLetter (rp_next_id st) created_at failed_at status_code detail payload]) st).

(** [_dead_letter_batch]: a failure of the disk, or no storage, only logs. *)
Definition dead_letter_batch (batch : list result) (status_code : Z) (detail : string)
    (created_at : option instant) : RM unit :=
  if negb (enable_local_storage cfg) then modify (lose batch)
  else
    now ← observe (env_time e);
    ok ← observe (env_disk_ok e);
    if negb ok then modify (lose batch)
    else modify (fun st => prune_dead_letters
           (insert_dead_letter (default now created_at) now status_code detail (Some batch) st)).

(** The ids [SELECT id ... ORDER BY created_at ASC LIMIT excess] names. *)
Definition oldest_ids (excess : nat) (l : list pending_batch) : list N :=
  map pb_id (take excess (by_created_at l)).

Definition delete_pending (ids : list N) (l : list pending_batch) : list pending_batch :=
  filter (fun b => pb_id b ∉ ids) l.

Definition prune_pending (st : reporter) : reporter :=
  let excess := (length (rp_pending st) - max_stored_batches cfg)%nat in
  let ids := oldest_ids excess (rp_pending st) in
  set_pending (delete_pending ids (rp_pending st))
    (lose (pending_results (filter (fun b => pb_id b ∈ ids) (rp_pending st))) st).

(** [_store_batch_to_db]: the row is committed, then the table pruned to its cap;
    a failure of the second leaves the row and prunes nothing. *)
Definition store_batch_to_db (batch : list result) : RM unit :=
  if negb (enable_local_storage cfg) then modify (lose batch)
  else
    now ← observe (env_time e);
    ok ← observe (env_disk_ok e);
    if negb ok then modify (lose batch)
    else
      _ ← modify (fun st =>
            next_id (set_pending (rp_pending st ++ [Pending (rp_next_id st) now (Some batch)]) st));
      ok ← observe (env_disk_ok e);
      if (ok : bool) then modify prune_pending else mret tt.

(** ** Sending *)

(** The loop of [_send_in_parts]: the work left, and what it has gathered. *)
Record parts := Parts {
  pt_untried : list result;
  pt_refused : list result;
  pt_sent : nat;
  pt_stop : option Delivery;
  pt_permanent : bool;
}.

Fixpoint parts_loop (fuel : nat) (created_at : option instant) (work : list (list result))
    (p : parts) : RM parts :=
  match work with
  | [] => mret p
  | part :: work' =>
      match fuel with
      | O => lift (Raise OutOfFuel)
      | S fuel' =>
          let '(Parts untried refused sent stop permanent) := p in
          match stop with
          | Some _ => parts_loop fuel' created_at work' (Parts (untried ++ part) refused sent stop permanent)
          | None =>
              '(outcome, status_code, detail) ← post_batch part;
              match outcome, status_code with
              | D_SENT, _ =>
                  parts_loop fuel' created_at work'
                    (Parts untried refused (sent + length part) None permanent)
              | D_PERMANENT, Some code =>
                  _ ← dead_letter_batch part code detail created_at;
                  parts_loop fuel' created_at work' (Parts untried refused sent None true)
              | D_TOO_LARGE, _ =>
                  if (1 <? length part)%nat then
                    parts_loop fuel' created_at (halves part ++ work') p
                  else
                    let refused := refused ++ part in
                    parts_loop fuel' created_at work'
                      (Parts untried refused sent
                         (if (2 <=? length refused)%nat && (sent =? 0)%nat then Some D_TOO_LARGE else None)
                         permanent)
              | _, _ =>
                  parts_loop fuel' created_at work'
                    (Parts (untried ++ part) refused sent (Some D_TRANSIENT) permanent)
              end
          end
      end
  end.

(** Each step drops a part or cuts one in two. *)
Definition part_weight (part : list result) : nat := Nat.max 1 (2 * length part - 1).
Definition work_weight (work : list (list result)) : nat := list_sum (map part_weight work).

Definition send_in_parts (batch : list result) (created_at : option instant)
    : RM (Delivery * list result) :=
  if (length batch =? 1)%nat then mret (D_TOO_LARGE, batch)
  else
    p ← parts_loop (work_weight (halves batch)) created_at (halves batch) (Parts [] [] 0 None false);
    let unsent := pt_untried p ++ pt_refused p in
    if bool_decide (pt_stop p = Some D_TRANSIENT) then mret (D_TRANSIENT, unsent)
    else match unsent with
         | _ :: _ => mret (D_TOO_LARGE, unsent)
         | [] => mret (if pt_permanent p then D_PERMANENT else D_SENT, [])
         end.

(** [_deliver] *)
Definition deliver (batch : list result) : RM Delivery :=
  '(outcome, status_code, detail) ← post_batch batch;
  match outcome, status_code with
  | D_SENT, _ => mret D_SENT
  | D_PERMANENT, Some code => _ ← dead_letter_batch batch code detail None; mret D_PERMANENT
  | _, _ =>
      '(outcome, unsent) ← (if bool_decide (outcome = D_TOO_LARGE) then send_in_parts batch None
                            else mret (outcome, batch));
      _ ← (match unsent with [] => mret tt | _ => store_batch_to_db unsent end);
      mret outcome
  end.

Definition send_batch (batch : list result) : RM bool :=
  match batch with
  | [] => mret true
  | _ => outcome ← deliver batch; mret (bool_decide (outcome = D_SENT))
  end.

Definition flush : RM bool :=
  st ← get;
  match rp_batch st with
  | [] => mret true
  | batch => _ ← modify (set_batch []); send_batch batch
  end.

(** ** Replay *)

(** A SQLite transaction of the replay: all of it, or an exception. *)
Definition with_disk {A} (m : RM A) : RM A :=
  ok ← observe (env_disk_ok e); if (ok : bool) then m else lift (Raise OperationalError).

Definition delete_stored_batch (row_id : N) : RM unit :=
  with_disk (modify (fun st => set_pending (delete_pending [row_id] (rp_pending st)) st)).

Fixpoint delete_rows (row_ids : list N) : RM unit :=
  match row_ids with
  | [] => mret tt
  | row_id :: rest => _ ← delete_stored_batch row_id; delete_rows rest
  end.

Definition read_pending (st : reporter) : list pending_batch :=
  take (max_files_per_batch cfg)
    (filter (fun b => pb_id b ∉ rp_held st) (by_created_at (rp_pending st))).

(** [_process_stored_reports_sync]: corrupt rows are deleted. *)
Definition process_stored_reports : RM (list stored_batch) :=
  st ← with_disk get;
  st ← (match read_pending st, rp_held st with
        | [], _ :: _ => _ ← modify (set_held []); with_disk get
        | _, _ => mret st
        end);
  let batch_rows := read_pending st in
  _ ← delete_rows (map pb_id (filter (fun b => pb_payload b = None) batch_rows));
  mret (omap (fun b => StoredBatch (pb_id b) (pb_created_at b) <$> pb_payload b) batch_rows).

Definition rewrite_stored_batch (row_id : N) (checks : list result) : RM unit :=
  with_disk (modify (fun st => set_pending
    (map (fun b => if bool_decide (pb_id b = row_id)
                   then Pending (pb_id b) (pb_created_at b) (Some checks) else b) (rp_pending st)) st)).

Definition move_to_dead_letters (row_id : N) (status_code : Z) (detail : string) : RM unit :=
  with_disk
    (now ← observe (env_time e);
     modify (fun st =>
       match head (filter (fun b => pb_id b = row_id) (rp_pending st)) with
       | None => st
       | Some b =>
           let st1 := insert_dead_letter (pb_created_at b) now status_code detail (pb_payload b) st in
           prune_dead_letters (set_pending (delete_pending [row_id] (rp_pending st1)) st1)
       end)).

Definition same_results (a b : list result) : bool :=
  py_eqb (PList (map PDict a)) (PList (map PDict b)).

(** [_replay_group] on one stored batch. *)
Definition replay_single (s : stored_batch) : RM bool :=
  '(outcome, status_code, detail) ← post_batch (sb_checks s);
  match outcome, status_code with
  | D_SENT, _ => _ ← delete_stored_batch (sb_row_id s); mret true
  | D_TOO_LARGE, _ =>
      '(got, unsent) ← send_in_parts (sb_checks s) (Some (sb_created_at s));
      _ ← (match unsent with
           | [] => delete_stored_batch (sb_row_id s)
           | _ => if same_results unsent (sb_checks s) then mret tt
                  else rewrite_stored_batch (sb_row_id s) unsent
           end);
      _ ← (if bool_decide (got = D_TOO_LARGE)
           then modify (fun st => set_held (sb_row_id s :: rp_held st) st) else mret tt);
      mret (negb (bool_decide (got = D_TRANSIENT)))
  | D_PERMANENT, Some code => _ ← move_to_dead_letters (sb_row_id s) code detail; mret true
  | _, _ => mret false
  end.

Fixpoint replay_each (group : list stored_batch) : RM bool :=
  match group with
  | [] => mret true
  | s :: group' =>
      halt ← stopped;
      if (halt : bool) then mret false
      else go ← replay_single s; if (go : bool) then replay_each group' else mret false
  end.

(** [_replay_group] *)
Definition replay_group (group : list stored_batch) : RM bool :=
  match group with
  | [s] => replay_single s
  | _ =>
      '(outcome, status_code, detail) ← post_batch (mjoin (map sb_checks group));
      match outcome, status_code with
      | D_SENT, _ => _ ← delete_rows (map sb_row_id group); mret true
      | D_TRANSIENT, _ | _, None => mret false
      | _, _ => replay_each group
      end
  end.

(** [_replay_pending] *)
Fixpoint replay_from (pending group : list stored_batch) (size : nat) : RM unit :=
  match pending with
  | [] =>
      match group with
      | [] => mret tt
      | _ => halt ← stopped; if (halt : bool) then mret tt else _ ← replay_group group; mret tt
      end
  | s :: pending' =>
      halt ← stopped;
      if (halt : bool) then mret tt
      else
        let len := length (sb_checks s) in
        match group with
        | _ :: _ =>
            if (batch_size cfg <? size + len)%nat then
              go ← replay_group group;
              if (go : bool) then replay_from pending' [s] len else mret tt
            else replay_from pending' (group ++ [s]) (size + len)
        | [] => replay_from pending' [s] len
        end
  end.

Definition replay_pending (pending : list stored_batch) : RM unit := replay_from pending [] 0.

(** One pass of the stored reports processor. *)
Definition replay_pass : RM unit :=
  pending ← process_stored_reports;
  match pending with [] => mret tt | _ => replay_pending pending end.
End Reporter.

#[global] Arguments post_batch : simpl never.
#[global] Arguments observe : simpl never.
#[global] Arguments pending_results : simpl never.
#[global] Arguments dead_results : simpl never.
