(* ===== verification/ReporterTheorems.v ===== *)
(** * The reporter: lemmas and properties

    Nothing collected vanishes: every result handed to delivery is taken by the
    server, kept for replay, dead-lettered, or recorded as lost to a named cause;
    the split of an oversized batch terminates and keeps order; replay conserves
    the stored results, and delivers them at least once whatever fails. *)

From S2P Require Import Prelude Py Text Store Fixtures Reporter.

(** ** A weakest precondition for the reporter's monad

    [Q] holds of a step that returns, [E] of the state an exception leaves. *)
Definition wpx (E : reporter -> Prop) {A} (m : RM A) (Q : A -> reporter -> Prop) (st : reporter) : Prop :=
  match m st with (Ok a, st') => Q a st' | (Raise _, st') => E st' end.

(** Of the steps that return alone. *)
Abbreviation wp := (wpx (fun _ => True)).

Section Wp.
Context {A B : Type} {E : reporter -> Prop}.

Lemma wp_bind (m : RM A) (f : A -> RM B) Q st :
  wpx E m (fun a => wpx E (f a) Q) st -> wpx E (m ≫= f) Q st.
Proof. unfold wpx, mbind, rm_bind. by destruct (m st) as [[a|e] st']. Qed.

Lemma wp_ret (a : A) (Q : A -> reporter -> Prop) st : Q a st -> wpx E (mret a) Q st.
Proof. done. Qed.

Lemma wp_mono (m : RM A) (Q Q' : A -> reporter -> Prop) st :
  (forall a st', Q a st' -> Q' a st') -> wpx E m Q st -> wpx E m Q' st.
Proof. unfold wpx. destruct (m st) as [[a|e] st']; auto. Qed.

Lemma wp_raise (E' : reporter -> Prop) (m : RM A) (Q : A -> reporter -> Prop) st :
  (forall st', E' st' -> E st') -> wpx E' m Q st -> wpx E m Q st.
Proof. unfold wpx. destruct (m st) as [[a|e] st']; auto. Qed.

Lemma wp_observe (f : nat -> A) (Q : A -> reporter -> Prop) st :
  Q (f (rp_tick st)) (tick st) -> wpx E (observe f) Q st.
Proof. done. Qed.

Lemma wp_lift (r : res A) (Q : A -> reporter -> Prop) st :
  (forall a, r = Ok a -> Q a st) -> E st -> wpx E (lift r) Q st.
Proof. unfold wpx, lift. destruct r; auto. Qed.

Lemma wp_elim (m : RM A) (Q : A -> reporter -> Prop) st a st' :
  wpx E m Q st -> m st = (Ok a, st') -> Q a st'.
Proof. unfold wpx. intros H Em. by rewrite Em in H. Qed.
End Wp.

Lemma wp_get {E} (Q : reporter -> reporter -> Prop) st : Q st st -> wpx E get Q st.
Proof. done. Qed.

Lemma wp_modify {E} (f : reporter -> reporter) (Q : unit -> reporter -> Prop) st :
  Q tt (f st) -> wpx E (modify f) Q st.
Proof. done. Qed.

(** A transaction runs or leaves the state as it was. *)
Lemma wp_with_disk {A} {E} e (m : RM A) (Q : A -> reporter -> Prop) st :
  E (tick st) -> wpx E m Q (tick st) -> wpx E (with_disk e m) Q st.
Proof. intros HE Hm. apply wp_bind, wp_observe. by destruct (env_disk_ok e _). Qed.

(** ** The ledger: every result the delivery side has been handed *)

Definition ledger (st : reporter) : list result :=
  rp_taken st ++ pending_results (rp_pending st) ++ dead_results (rp_dead st) ++ rp_lost st.

Definition same_queue (st st' : reporter) : Prop := rp_batch st' = rp_batch st.

Lemma dead_results_app l m : dead_results (l ++ m) = dead_results l ++ dead_results m.
Proof. unfold dead_results. by rewrite map_app, join_app. Qed.

Lemma pending_results_app l m : pending_results (l ++ m) = pending_results l ++ pending_results m.
Proof. unfold pending_results. by rewrite map_app, join_app. Qed.

Lemma pending_results_split (P : pending_batch -> Prop) `{!forall b, Decision (P b)} l :
  pending_results l ≡ₚ
  pending_results (filter (fun b => ~ P b) l) ++ pending_results (filter P l).
Proof.
  induction l as [|b l IH]; [done|].
  change (pending_results (b :: l)) with (payload_of (pb_payload b) ++ pending_results l). rewrite IH.
  rewrite !filter_cons. destruct (decide (P b)) as [Hp|Hp].
  - rewrite decide_False by tauto.
    change (pending_results (b :: filter P l)) with (payload_of (pb_payload b) ++ pending_results (filter P l)).
    by rewrite Permutation_app_swap_app.
  - rewrite decide_True by done.
    change (pending_results (b :: filter (fun b => ~ P b) l)) with
      (payload_of (pb_payload b) ++ pending_results (filter (fun b => ~ P b) l)).
    by rewrite (assoc_L (++)).
Qed.

(** Two ledgers compare by multiset arithmetic. *)
Ltac ledger := unfold ledger; cbn; solve_Permutation.

Section Delivery.
Context `{PyRuntime}.
Variable scrub_text : string -> string.
Variable cfg : settings.
Variable e : env.

(** *** What the dead letters lose

    A reply that turns a batch down for good. *)
Definition turned_down (batch : list result) : Prop :=
  exists t code body, env_reply e t batch = Response code body /\
    classify_response code body = Ok D_PERMANENT.
Definition refused (x : result) : Prop := exists batch, x ∈ batch /\ turned_down batch.

(** No loss while the storage works and the caps are not reached. *)
Definition storage_ok : Prop :=
  enable_local_storage cfg = true /\ forall t, env_disk_ok e t = true.

(** From one state to another the dead letters gained [added], their cap pushed
    out [oldest], and [failed] was not written; nothing else was lost, and what
    came in was turned down. *)
Definition letters_by (added oldest : list dead_letter) (failed : list result) (st st' : reporter) : Prop :=
  rp_dead st ++ added = oldest ++ rp_dead st' /\
  rp_lost st' ≡ₚ rp_lost st ++ dead_results oldest ++ failed /\
  (oldest = [] \/ (max_dead_letters cfg <= length (rp_dead st'))%nat) /\
  (storage_ok -> failed = []) /\
  forall x, x ∈ dead_results added ++ failed -> refused x.
Definition letters (st st' : reporter) : Prop :=
  exists added oldest failed, letters_by added oldest failed st st'.

Lemma letters_same st st' : rp_dead st' = rp_dead st -> rp_lost st' = rp_lost st -> letters st st'.
Proof.
  intros Hd Hl. exists [], [], []. unfold letters_by. rewrite Hd, Hl, !app_nil_r.
  split; [done|]. split; [done|]. split; [by left|]. split; [done|]. by intros x ?%elem_of_nil.
Qed.

#[local] Instance letters_preorder : PreOrder letters.
Proof.
  split; [intros st; by apply letters_same|].
  intros st1 st2 st3 (a1 & o1 & f1 & Hd1 & Hl1 & Hc1 & Hs1 & Hr1) (a2 & o2 & f2 & Hd2 & Hl2 & Hc2 & Hs2 & Hr2).
  exists (a1 ++ a2), (o1 ++ o2), (f1 ++ f2). unfold letters_by. rewrite !dead_results_app.
  split; [by rewrite (assoc_L (++)), Hd1, <- (assoc_L (++)), Hd2, (assoc_L (++))|].
  split; [rewrite Hl2, Hl1; solve_Permutation|]. split; [|split].
  - destruct Hc2 as [->|?]; [|by right]. destruct Hc1 as [->|Hc]; [by left|right].
    cbn in Hd2. rewrite <- Hd2, length_app. lia.
  - intros Hok. by rewrite Hs1, Hs2.
  - intros x. rewrite !elem_of_app. intros [[?|?]|[?|?]];
      first [apply Hr1; rewrite elem_of_app; tauto|apply Hr2; rewrite elem_of_app; tauto].
Qed.

(** What an exception while sending leaves: some of the results may have gone
    to the ledger, the stored rows are as they were. *)
Definition grown (st st' : reporter) : Prop :=
  (exists more, ledger st' ≡ₚ ledger st ++ more) /\ rp_batch st' = rp_batch st /\
  rp_pending st' = rp_pending st /\ letters st st'.

Lemma grown_refl st : grown st st.
Proof. split; [exists []; by rewrite app_nil_r|]. split; [done|]. by split. Qed.

Lemma grown_after dealt st st1 st' :
  ledger st1 ≡ₚ ledger st ++ dealt -> rp_batch st1 = rp_batch st -> rp_pending st1 = rp_pending st ->
  letters st st1 -> grown st1 st' -> grown st st'.
Proof.
  intros Hl Hb Hp Hle ([more Hm] & Hb' & Hp' & Hle'). split; [|split; [congruence|split; [congruence|by etrans]]].
  exists (dealt ++ more). by rewrite Hm, Hl, (assoc_L (++)).
Qed.

(** *** Posting changes only the tick, and what the server took *)

Definition set_tick (n : nat) (st : reporter) : reporter :=
  Reporter (rp_batch st) (rp_flush_event st) (rp_pending st) (rp_dead st) (rp_next_id st)
    (rp_held st) (rp_taken st) (rp_lost st) n.

Definition posted (batch : list result) (r : Delivery * option Z * string) (st st' : reporter) : Prop :=
  exists n, st' = set_tick n (if decide (r.1.1 = D_SENT) then take_results batch st else st).

Lemma attempts_spec n batch code detail st :
  wpx (grown st) (attempts scrub_text e n batch code detail)
    (fun r st' => posted batch r st st' /\ (r.1.1 = D_PERMANENT -> r.1.2 <> None /\ turned_down batch)) st.
Proof.
  revert code detail st. induction n as [|n IH]; intros code detail st; cbn [attempts].
  { apply wp_ret. split; [|done]. exists (rp_tick st). by destruct st. }
  assert (Htick : forall k r st1, posted batch r (set_tick k st1) st -> posted batch r st1 st).
  { intros k r st1 [m ->]. exists m. by destruct (decide _). }
  apply wp_bind, wp_observe. destruct (env_stopped e _).
  { apply wp_ret. split; [|done]. by exists (S (rp_tick st)). }
  apply wp_bind, wp_observe. destruct (env_reply e _ batch) as [|c body] eqn:Er.
  - apply wp_bind, wp_observe. destruct (env_stopped e _).
    + apply wp_ret. split; [|done]. by exists (S (S (S (rp_tick st)))).
    + eapply wp_mono; [|exact (IH _ _ _)]. intros r st' [[m ->] Hr]. split; [|done]. exists m. by destruct (decide _).
  - apply wp_bind, wp_lift; [intros [] Hc|exact (grown_refl st)].
    + apply wp_bind, wp_modify, wp_ret. split; [|done]. by exists (S (S (rp_tick st))).
    + apply wp_ret. split; [|by split; [|exists (S (rp_tick st)), c, body]]. by exists (S (S (rp_tick st))).
    + apply wp_ret. split; [|done]. by exists (S (S (rp_tick st))).
    + apply wp_bind, wp_observe. destruct (env_stopped e _).
      * apply wp_ret. split; [|done]. by exists (S (S (S (rp_tick st)))).
      * eapply wp_mono; [|exact (IH _ _ _)]. intros r st' [[m ->] Hr]. split; [|done]. exists m. by destruct (decide _).
Qed.

Lemma post_batch_spec batch st :
  wpx (grown st) (post_batch scrub_text cfg e batch)
    (fun r st' => posted batch r st st' /\ (r.1.1 = D_PERMANENT -> r.1.2 <> None /\ turned_down batch)) st.
Proof. apply attempts_spec. Qed.

(** *** The tables *)

Lemma prune_dead_ledger st : ledger (prune_dead_letters cfg st) ≡ₚ ledger st.
Proof.
  unfold prune_dead_letters. set (k := (_ - _)%nat).
  assert (Hd : dead_results (rp_dead st) =
               dead_results (take k (rp_dead st)) ++ dead_results (drop k (rp_dead st))).
  { by rewrite <- dead_results_app, take_drop. }
  unfold ledger at 2. rewrite Hd. ledger.
Qed.

Lemma insert_dead_ledger c f code detail p st :
  ledger (insert_dead_letter c f code detail p st) ≡ₚ ledger st ++ payload_of p.
Proof.
  unfold ledger, insert_dead_letter. cbn. rewrite dead_results_app.
  change (dead_results [_]) with (payload_of p ++ []). rewrite app_nil_r. solve_Permutation.
Qed.

(** What a write of the two tables leaves alone. *)
Definition frame (st st' : reporter) : Prop :=
  rp_batch st' = rp_batch st /\ rp_taken st' = rp_taken st /\ rp_held st' = rp_held st.

(** Dead-lettering what was turned down. *)
Lemma letters_insert c f code detail p st st1 :
  (forall x, x ∈ payload_of p -> refused x) -> rp_dead st1 = rp_dead st -> rp_lost st1 = rp_lost st ->
  letters st (prune_dead_letters cfg (insert_dead_letter c f code detail p st1)).
Proof.
  intros Hr Hd Hl. unfold prune_dead_letters, insert_dead_letter. cbn.
  set (row := DeadLetter _ _ _ _ _ _). set (k := (_ - _)%nat).
  exists [row], (take k (rp_dead st1 ++ [row])), []. unfold letters_by. cbn. rewrite <- Hd, <- Hl, !app_nil_r.
  split; [by rewrite take_drop|]. split; [done|]. split; [|split; [done|]].
  - destruct k as [|k'] eqn:Ek; [by left|right]. rewrite length_drop. unfold k in Ek. lia.
  - intros x Hx. apply Hr. unfold dead_results in Hx. cbn in Hx. by rewrite app_nil_r in Hx.
Qed.

Lemma dead_letter_batch_spec {E} batch code detail created st :
  turned_down batch ->
  wpx E (dead_letter_batch cfg e batch code detail created)
    (fun _ st' => ledger st' ≡ₚ ledger st ++ batch /\ frame st st' /\ rp_pending st' = rp_pending st /\ letters st st' /\
       (storage_ok -> (length (rp_dead st) < max_dead_letters cfg)%nat ->
          rp_lost st' = rp_lost st /\ length (rp_dead st') = S (length (rp_dead st)))) st.
Proof.
  intros Hdown. assert (Href : forall x, x ∈ batch -> refused x) by (intros x Hx; by exists batch).
  assert (Hfail : forall st1, rp_dead st1 = rp_dead st -> rp_lost st1 = rp_lost st -> ~ storage_ok ->
    letters st (lose batch st1)).
  { intros st1 Hd Hl Hs. exists [], [], batch. unfold letters_by. cbn. rewrite Hd, Hl, app_nil_r.
    split; [done|]. split; [done|]. split; [by left|]. by split. }
  unfold dead_letter_batch. destruct (enable_local_storage cfg) eqn:En; cbn [negb].
  2: { apply wp_modify. assert (Hs : ~ storage_ok) by (intros [? _]; congruence).
       split; [ledger|]. split; [done|]. split; [done|]. split; [by apply Hfail|done]. }
  apply wp_bind, wp_observe, wp_bind, wp_observe.
  destruct (env_disk_ok e _) eqn:Ed; cbn [negb].
  2: { apply wp_modify. assert (Hs : ~ storage_ok) by (intros [_ Hok]; by rewrite Hok in Ed).
       split; [ledger|]. split; [done|]. split; [done|]. split; [by apply Hfail|done]. }
  apply wp_modify. split; [by rewrite prune_dead_ledger, insert_dead_ledger|]. split; [done|].
  split; [done|]. split; [by apply letters_insert|].
  intros _ Hlt. unfold prune_dead_letters, insert_dead_letter. cbn.
  rewrite length_app. cbn [length].
  replace (length (rp_dead st) + 1 - max_dead_letters cfg)%nat with 0%nat by lia.
  rewrite drop_0, length_app. cbn. split; [by rewrite app_nil_r|lia].
Qed.

Lemma prune_pending_ledger st : ledger (prune_pending cfg st) ≡ₚ ledger st.
Proof.
  unfold prune_pending, delete_pending. set (ids := oldest_ids _ _). unfold ledger at 2.
  rewrite (pending_results_split (fun b => pb_id b ∈ ids) (rp_pending st)). ledger.
Qed.

Lemma store_batch_spec {E} batch st :
  wpx E (store_batch_to_db cfg e batch)
    (fun _ st' => ledger st' ≡ₚ ledger st ++ batch /\ frame st st' /\ rp_dead st' = rp_dead st /\
       (storage_ok -> (length (rp_pending st) < max_stored_batches cfg)%nat ->
          rp_lost st' = rp_lost st)) st.
Proof.
  unfold store_batch_to_db. destruct (enable_local_storage cfg) eqn:En; cbn [negb].
  2: { apply wp_modify. split; [ledger|]. split; [done|]. split; [done|]. intros [Hs _]. congruence. }
  apply wp_bind, wp_observe, wp_bind, wp_observe.
  destruct (env_disk_ok e _) eqn:Ed; cbn [negb].
  2: { apply wp_modify. split; [ledger|]. split; [done|]. split; [done|].
       intros [_ Hok]. by rewrite Hok in Ed. }
  apply wp_bind, wp_modify, wp_bind, wp_observe. set (st1 := tick (next_id _)).
  assert (Hled : ledger st1 ≡ₚ ledger st ++ batch).
  { unfold ledger, st1. cbn. rewrite pending_results_app.
    change (pending_results [_]) with (batch ++ []). rewrite app_nil_r. solve_Permutation. }
  clear Ed. destruct (env_disk_ok e _); [|by apply wp_ret]. apply wp_modify. split; [by rewrite prune_pending_ledger|].
  split; [done|]. split; [done|]. intros _ Hlt. unfold prune_pending. cbn.
  rewrite length_app. cbn [length].
  replace (length (rp_pending st) + 1 - max_stored_batches cfg)%nat with 0%nat by lia.
  unfold oldest_ids. cbn. rewrite (list_filter_iff _ (fun _ => False)).
  2: { intros x. rewrite elem_of_nil. tauto. }
  assert (Hn : forall l : list pending_batch, filter (fun _ => False) l = []).
  { intros l. apply elem_of_nil_inv. by intros x [? _]%list_elem_of_filter. }
  rewrite Hn. by rewrite app_nil_r.
Qed.

(** *** The split of an oversized batch *)

Definition joined (work : list (list result)) : list result := mjoin work.
#[global] Arguments joined : simpl never.

Lemma joined_nil : joined [] = [].
Proof. done. Qed.

Lemma joined_cons part work : joined (part :: work) = part ++ joined work.
Proof. done. Qed.

Lemma joined_app work work' : joined (work ++ work') = joined work ++ joined work'.
Proof. apply join_app. Qed.

Lemma halves_join part : joined (halves part) = part.
Proof. unfold halves. rewrite !joined_cons, joined_nil. by rewrite app_nil_r, take_drop. Qed.

Lemma halves_nonempty part : (1 < length part)%nat -> Forall (fun p => p <> []) (halves part).
Proof.
  intros Hl. unfold halves. assert (Hm : (length part / 2 < length part)%nat) by (apply Nat.div_lt; lia).
  assert (H1 : (1 <= length part / 2)%nat) by (apply (Nat.div_le_lower_bound _ 2); lia).
  apply Forall_cons; split; [|apply Forall_cons; split; [|done]]; intros E;
    apply (f_equal length) in E; change (length (@nil result)) with 0%nat in E;
    rewrite ?length_take, ?length_drop in E; lia.
Qed.

Lemma ledger_posted batch r st st' :
  posted batch r st st' ->
  ledger st' ≡ₚ ledger st ++ (if decide (r.1.1 = D_SENT) then batch else []) /\
  rp_batch st' = rp_batch st /\ rp_pending st' = rp_pending st /\ rp_dead st' = rp_dead st /\
  rp_held st' = rp_held st /\ rp_lost st' = rp_lost st /\
  rp_taken st' = rp_taken st ++ (if decide (r.1.1 = D_SENT) then batch else []).
Proof.
  intros [n ->]. destruct (decide (r.1.1 = D_SENT)); cbn; rewrite ?app_nil_r.
  - split; [ledger|done].
  - done.
Qed.

(** A step that goes on from where another left. *)
Lemma wp_next {A} dealt st st1 (m : RM A) (Q Q' : A -> reporter -> Prop) :
  ledger st1 ≡ₚ ledger st ++ dealt -> rp_batch st1 = rp_batch st -> rp_pending st1 = rp_pending st ->
  letters st st1 -> (forall a st', Q a st' -> Q' a st') -> wpx (grown st1) m Q st1 -> wpx (grown st) m Q' st1.
Proof.
  intros Hl Hb Hp Hle HQ Hm. eapply wp_mono, wp_raise, Hm; [done|]. intros st'. by apply (grown_after dealt).
Qed.

Definition gathered (p : parts) : list result := pt_untried p ++ pt_refused p.

(** Nothing of the work is lost, and what is left keeps its order. *)
Definition parts_ok (work : list (list result)) (p : parts) (st : reporter)
    (p' : parts) (st' : reporter) : Prop :=
  (exists dealt, ledger st' ≡ₚ ledger st ++ dealt /\ gathered p' ++ dealt ≡ₚ gathered p ++ joined work) /\
  rp_batch st' = rp_batch st /\ rp_pending st' = rp_pending st /\ rp_held st' = rp_held st /\ letters st st' /\
  (storage_ok -> Forall (fun part => part <> []) work ->
     (length (rp_dead st) + length (joined work) <= max_dead_letters cfg)%nat -> rp_lost st' = rp_lost st) /\
  (forall whole, pt_untried p ++ joined work `sublist_of` whole ->
     pt_refused p ++ joined work `sublist_of` whole ->
     pt_untried p' `sublist_of` whole /\ pt_refused p' `sublist_of` whole).

(** A step that moved results of the work to the ledger or to what is gathered. *)
Lemma parts_ok_step dealt1 work p st work1 p1 st1 p' st' :
  parts_ok work1 p1 st1 p' st' ->
  ledger st1 ≡ₚ ledger st ++ dealt1 ->
  gathered p1 ++ joined work1 ++ dealt1 ≡ₚ gathered p ++ joined work ->
  rp_batch st1 = rp_batch st -> rp_pending st1 = rp_pending st -> rp_held st1 = rp_held st -> letters st st1 ->
  (storage_ok -> Forall (fun part => part <> []) work ->
     (length (rp_dead st) + length (joined work) <= max_dead_letters cfg)%nat ->
     rp_lost st1 = rp_lost st /\ Forall (fun part => part <> []) work1 /\
     (length (rp_dead st1) + length (joined work1) <= max_dead_letters cfg)%nat) ->
  pt_untried p1 ++ joined work1 `sublist_of` pt_untried p ++ joined work ->
  pt_refused p1 ++ joined work1 `sublist_of` pt_refused p ++ joined work ->
  parts_ok work p st p' st'.
Proof.
  intros ((dealt & Hl & Hg) & Hb & Hp & Hh & Hle & Hlost & Hsub) Hl1 Hg1 Hb1 Hp1 Hh1 Hle1 Hlost1 Hu Hr.
  split.
  { exists (dealt1 ++ dealt). split; [by rewrite Hl, Hl1, (assoc_L (++))|].
    rewrite <- Hg1, (assoc_L (++) (gathered p1)), <- Hg. solve_Permutation. } split; [congruence|]. split; [congruence|]. split; [congruence|].
  split; [by etrans|].
  split.
  - intros Hs Hne Hcap. destruct (Hlost1 Hs Hne Hcap) as (<- & ? & ?). by apply Hlost.
  - intros whole Hw1 Hw2. apply Hsub; by etrans.
Qed.

Lemma sublist_app_drop {X} (l part rest : list X) : l ++ rest `sublist_of` l ++ part ++ rest.
Proof. apply sublist_app; [done|]. by apply sublist_inserts_l. Qed.

Lemma parts_loop_spec fuel created work p st :
  wpx (grown st) (parts_loop scrub_text cfg e fuel created work p) (parts_ok work p st) st.
Proof.
  revert work p st. induction fuel as [|fuel IH]; intros [|part work] p st.
  1, 3: apply wp_ret; split; [exists []; by rewrite joined_nil, !app_nil_r|];
    repeat (split; [done|]); intros whole; by rewrite joined_nil, !app_nil_r.
  { exact (grown_refl st). }
  cbn [parts_loop]. destruct p as [untried refused sent stop permanent].
  destruct stop as [why|].
  { eapply wp_mono; [|apply IH]. intros p' st' Hok. apply (parts_ok_step [] _ _ _ _ _ _ _ _ Hok); cbn; rewrite ?joined_cons, ?app_nil_r; try done.
    - unfold gathered. cbn. solve_Permutation.
    - intros _ Hne Hcap. inversion_clear Hne. rewrite length_app in Hcap. repeat split; [done|lia].
    - by rewrite <- (assoc_L (++)).
    - apply sublist_app_drop. }
  apply wp_bind. eapply wp_mono; [|apply post_batch_spec].
  intros [[outcome code] detail] st1 [Hpost Hperm].
  pose proof (ledger_posted _ _ _ _ Hpost) as (Hl & Hb & Hp & Hd & Hh & Hlo & _). cbn in Hl, Hperm.
  pose proof (letters_same st st1 Hd Hlo) as Hle.
  assert (Hrest : storage_ok -> Forall (fun q => q <> []) (part :: work) ->
     (length (rp_dead st) + length (joined (part :: work)) <= max_dead_letters cfg)%nat ->
     rp_lost st1 = rp_lost st /\ Forall (fun q => q <> []) work /\
     (length (rp_dead st1) + length (joined work) <= max_dead_letters cfg)%nat).
  { intros _ Hne Hcap. inversion_clear Hne. rewrite ?joined_cons, length_app in Hcap.
    rewrite Hd. repeat split; [done|done|lia]. }
  destruct outcome.
  - (* sent *)
    rewrite decide_True in Hl by done.
    eapply (wp_next part); [done..| |apply IH]. intros p' st' Hok. apply (parts_ok_step part _ _ _ _ _ _ _ _ Hok); cbn; rewrite ?joined_cons; try done.
    + unfold gathered. cbn. solve_Permutation.
    + apply sublist_app_drop.
    + apply sublist_app_drop.
  - (* dead-lettered *)
    rewrite decide_False in Hl by done. rewrite app_nil_r in Hl.
    destruct code as [code|]; [|by destruct (Hperm eq_refl)].
    apply wp_bind. eapply wp_mono; [|apply dead_letter_batch_spec, Hperm, eq_refl].
    intros _ st2 (Hl2 & (Hb2 & _ & Hh2) & Hp2 & Hle2 & Hlost2). pose proof (transitivity Hle Hle2) as Hle3.
    eapply (wp_next part); [by rewrite Hl2, Hl|congruence|congruence|exact Hle3| |apply IH]. intros p' st' Hok. apply (parts_ok_step part _ _ _ _ _ _ _ _ Hok); cbn; rewrite ?joined_cons; try congruence; try done.
    + by rewrite Hl2, Hl.
    + unfold gathered. cbn. solve_Permutation.
    + intros Hs Hne Hcap. destruct (Hrest Hs Hne Hcap) as (Hlo1 & Hne1 & Hcap1).
      inversion_clear Hne. rewrite ?joined_cons, length_app in Hcap.
      assert (length part <> 0)%nat by (by destruct part).
      destruct (Hlost2 Hs) as [Hlo2 Hd2]; [rewrite Hd; lia|].
      split; [congruence|]. split; [done|]. rewrite Hd2, Hd. lia.
    + apply sublist_app_drop.
    + apply sublist_app_drop.
  - (* too large *)
    rewrite decide_False in Hl by done. rewrite app_nil_r in Hl. destruct (1 <? length part)%nat eqn:Elen.
    + eapply (wp_next []); [by rewrite app_nil_r|done..| |apply IH]. intros p' st' Hok.
      assert (Hj : joined (halves part ++ work) = joined (part :: work)).
      { by rewrite joined_app, halves_join. }
      apply (parts_ok_step [] _ _ _ _ _ _ _ _ Hok); cbn [pt_untried pt_refused]; try done; rewrite ?Hj, ?app_nil_r.
      * done.
      * done.
      * intros Hs Hne Hcap. destruct (Hrest Hs Hne Hcap) as (Hlo1 & Hne1 & _).
        split; [done|]. split; [|by rewrite Hd].
        apply Forall_app. split; [|done]. apply halves_nonempty. by apply Nat.ltb_lt.
      * done.
      * done.
    + eapply (wp_next []); [by rewrite app_nil_r|done..| |apply IH]. intros p' st' Hok. apply (parts_ok_step [] _ _ _ _ _ _ _ _ Hok); cbn; rewrite ?joined_cons, ?app_nil_r; try done.
      * unfold gathered. cbn. solve_Permutation.
      * apply sublist_app_drop.
      * by rewrite <- (assoc_L (++)).
  - (* transient *)
    rewrite decide_False in Hl by done. rewrite app_nil_r in Hl.
    eapply (wp_next []); [by rewrite app_nil_r|done..| |apply IH]. intros p' st' Hok. apply (parts_ok_step [] _ _ _ _ _ _ _ _ Hok); cbn; rewrite ?joined_cons, ?app_nil_r; try done.
    + unfold gathered. cbn. solve_Permutation.
    + by rewrite <- (assoc_L (++)).
    + apply sublist_app_drop.
Qed.

(** *** How a step may end

    Every exception a step raises satisfies [Q], given that what classifying a
    reply of this environment raises does.  With [Q] anything but [OutOfFuel]:
    the bound of the split is never reached; with [Q] nothing: it returns. *)
Definition refusals_raise (Q : exn -> Prop) : Prop :=
  forall t batch code body x, env_reply e t batch = Response code body ->
    classify_response code body = Raise x -> Q x.

Definition ends (Q : exn -> Prop) {A} (m : RM A) : Prop := forall st x, (m st).1 = Raise x -> Q x.

Lemma classify_not_fuel : refusals_raise (fun x => x <> OutOfFuel).
Proof.
  intros t batch code body x _. unfold classify_response, is_payload_refusal.
  destruct (_ && _); [done|]. destruct (_ =? _)%Z; [done|]. destruct (bool_decide _); [|done].
  destruct (json_loads body) as [[]|]; cbn; try done. destruct (hashable _); cbn; [done|]. by intros [= <-].
Qed.

Lemma work_weight_cons part work : work_weight (part :: work) = (part_weight part + work_weight work)%nat.
Proof. done. Qed.

Lemma part_weight_positive part : (1 <= part_weight part)%nat.
Proof. unfold part_weight. lia. Qed.

Lemma halves_weight part work :
  (1 < length part)%nat -> (work_weight (halves part ++ work) < work_weight (part :: work))%nat.
Proof.
  intros Hl. unfold halves. cbn [app]. rewrite !work_weight_cons. unfold part_weight.
  rewrite length_take, length_drop.
  assert (Hm : (length part / 2 < length part)%nat) by (apply Nat.div_lt; lia).
  assert (H1 : (1 <= length part / 2)%nat) by (apply (Nat.div_le_lower_bound _ 2); lia).
  lia.
Qed.

Section Ends.
Variable Q : exn -> Prop.
Hypothesis Hreplies : refusals_raise Q.
Hypothesis Hdisk : forall t, env_disk_ok e t = false -> Q OperationalError.

Lemma ends_bind {A B} (m : RM A) (f : A -> RM B) :
  ends Q m -> (forall a, ends Q (f a)) -> ends Q (m ≫= f).
Proof.
  intros Hm Hf st x. unfold mbind, rm_bind. specialize (Hm st). destruct (m st) as [[a|y] st']; [apply Hf|].
  cbn in *. intros [= <-]. by apply Hm.
Qed.

Lemma ends_observe_bind {A B} (f : nat -> A) (g : A -> RM B) :
  (forall t, ends Q (g (f t))) -> ends Q (observe f ≫= g).
Proof. intros Hg st x. apply (Hg (rp_tick st) (tick st)). Qed.

Lemma ends_ret {A} (a : A) : ends Q (mret a).
Proof. by intros st x. Qed.
Lemma ends_get : ends Q get.
Proof. by intros st x. Qed.
Lemma ends_modify f : ends Q (modify f).
Proof. by intros st x. Qed.
#[local] Hint Resolve ends_bind ends_observe_bind ends_ret ends_get ends_modify : ends.

Lemma ends_attempts n batch code detail : ends Q (attempts scrub_text e n batch code detail).
Proof.
  revert code detail. induction n as [|n IH]; intros code detail; cbn [attempts]; [apply ends_ret|].
  apply ends_observe_bind. intros t. destruct (env_stopped e t); [apply ends_ret|].
  apply ends_observe_bind. intros t'. destruct (env_reply e t' batch) as [|c body] eqn:Er.
  - apply ends_observe_bind. intros t2. destruct (env_stopped e t2); auto with ends.
  - apply ends_bind; [intros st x; apply (Hreplies _ _ _ _ _ Er)|].
    intros []; [auto with ends..|]. apply ends_observe_bind. intros t2. destruct (env_stopped e t2); auto with ends.
Qed.

Lemma ends_post {B} batch (f : Delivery * option Z * string -> RM B) :
  (forall r, ends Q (f r)) -> ends Q (post_batch scrub_text cfg e batch ≫= f).
Proof. apply ends_bind, ends_attempts. Qed.

Lemma ends_dead_letter batch code detail created : ends Q (dead_letter_batch cfg e batch code detail created).
Proof.
  unfold dead_letter_batch. destruct (negb _); [apply ends_modify|].
  apply ends_observe_bind. intros t. apply ends_observe_bind. intros t'. destruct (negb _); apply ends_modify.
Qed.

Lemma ends_store batch : ends Q (store_batch_to_db cfg e batch).
Proof.
  unfold store_batch_to_db. destruct (negb _); [apply ends_modify|].
  apply ends_observe_bind. intros t. apply ends_observe_bind. intros t'. destruct (negb _); [apply ends_modify|].
  apply ends_bind; [apply ends_modify|]. intros []. apply ends_observe_bind. intros t2.
  destruct (env_disk_ok e t2); [apply ends_modify|apply ends_ret].
Qed.

Lemma ends_parts fuel created work p :
  (work_weight work <= fuel)%nat -> ends Q (parts_loop scrub_text cfg e fuel created work p).
Proof.
  revert work p. induction fuel as [|fuel IH]; intros [|part work] p Hw; try (apply ends_ret).
  { rewrite work_weight_cons in Hw. pose proof (part_weight_positive part). lia. }
  assert (Hw' : (work_weight work <= fuel)%nat)
    by (rewrite work_weight_cons in Hw; pose proof (part_weight_positive part); lia).
  cbn [parts_loop]. destruct p as [untried refused sent [why|] permanent]; [by apply IH|].
  apply ends_post. intros [[[] code] detail].
  - by apply IH.
  - destruct code; [|by apply IH]. apply ends_bind; [apply ends_dead_letter|]. intros _. by apply IH.
  - destruct (1 <? length part)%nat eqn:El; [|by apply IH]. apply IH.
    apply Nat.ltb_lt in El. pose proof (halves_weight part work El). lia.
  - by apply IH.
Qed.

Lemma ends_send_in_parts batch created : ends Q (send_in_parts scrub_text cfg e batch created).
Proof.
  unfold send_in_parts. destruct (_ =? _)%nat; [apply ends_ret|]. apply ends_bind; [by apply ends_parts|].
  intros p. destruct (bool_decide _); [apply ends_ret|]. destruct (_ ++ _); apply ends_ret.
Qed.

Lemma ends_flush : ends Q (flush scrub_text cfg e).
Proof.
  unfold flush. apply ends_bind; [apply ends_get|]. intros st. destruct (rp_batch st) as [|x l]; [apply ends_ret|].
  apply ends_bind; [apply ends_modify|]. intros _. unfold send_batch. apply ends_bind; [|intros; apply ends_ret].
  unfold deliver. apply ends_post.
  assert (Hstore : forall (o : Delivery) unsent, ends Q
    (_ ← (match unsent with [] => mret tt | _ => store_batch_to_db cfg e unsent end); mret o)).
  { intros o unsent. apply ends_bind; [|intros; apply ends_ret].
    destruct unsent; [apply ends_ret|apply ends_store]. }
  intros [[[] code] detail]; [apply ends_ret| | |].
  - destruct code; [apply ends_bind; [apply ends_dead_letter|intros; apply ends_ret]|].
    apply ends_bind; [|intros [o u]; apply Hstore]. by rewrite bool_decide_eq_false_2.
  - apply ends_bind; [|intros [o u]; apply Hstore]. rewrite bool_decide_eq_true_2 by done. apply ends_send_in_parts.
  - apply ends_bind; [|intros [o u]; apply Hstore]. by rewrite bool_decide_eq_false_2.
Qed.

Lemma ends_with_disk {A} (m : RM A) : ends Q m -> ends Q (with_disk e m).
Proof.
  intros Hm. apply ends_observe_bind. intros t. destruct (env_disk_ok e t) eqn:Ed; [done|].
  intros st x [= <-]. by apply (Hdisk t).
Qed.

Lemma ends_delete_rows ids : ends Q (delete_rows e ids).
Proof.
  induction ids as [|id ids IH]; cbn [delete_rows]; [apply ends_ret|].
  apply ends_bind; [apply ends_with_disk, ends_modify|done].
Qed.

Lemma ends_replay_single s : ends Q (replay_single scrub_text cfg e s).
Proof.
  unfold replay_single. apply ends_post. intros [[[] code] detail].
  - apply ends_bind; [apply ends_with_disk, ends_modify|]. intros. apply ends_ret.
  - destruct code; [|apply ends_ret]. apply ends_bind; [|intros; apply ends_ret].
    apply ends_with_disk, ends_observe_bind. intros t. apply ends_modify.
  - apply ends_bind; [apply ends_send_in_parts|]. intros [got unsent].
    apply ends_bind; [|intros _; apply ends_bind; [|intros; apply ends_ret]].
    + destruct unsent; [apply ends_with_disk, ends_modify|].
      destruct (same_results _ _); [apply ends_ret|apply ends_with_disk, ends_modify].
    + destruct (bool_decide _); [apply ends_modify|apply ends_ret].
  - destruct code; apply ends_ret.
Qed.

Lemma ends_replay_each group : ends Q (replay_each scrub_text cfg e group).
Proof.
  induction group as [|s group IH]; cbn [replay_each]; [apply ends_ret|].
  apply ends_observe_bind. intros t. destruct (env_stopped e t); [apply ends_ret|].
  apply ends_bind; [apply ends_replay_single|]. intros []; [apply IH|apply ends_ret].
Qed.

Lemma ends_replay_group group : ends Q (replay_group scrub_text cfg e group).
Proof.
  unfold replay_group. destruct group as [|s [|t group]]; [|apply ends_replay_single|];
    apply ends_post; intros [[[] code] detail];
    try (apply ends_bind; [apply ends_delete_rows|intros; apply ends_ret]);
    destruct code; first [apply ends_ret|apply ends_replay_each].
Qed.

Lemma ends_replay_from pending group size : ends Q (replay_from scrub_text cfg e pending group size).
Proof.
  revert group size. induction pending as [|s pending IH]; intros group size; cbn [replay_from].
  - destruct group; [apply ends_ret|]. apply ends_observe_bind. intros t.
    destruct (env_stopped e t); [apply ends_ret|]. apply ends_bind; [apply ends_replay_group|]. intros; apply ends_ret.
  - apply ends_observe_bind. intros t. destruct (env_stopped e t); [apply ends_ret|].
    destruct group; [apply IH|]. destruct (_ <? _)%nat; [|apply IH].
    apply ends_bind; [apply ends_replay_group|]. intros []; [apply IH|apply ends_ret].
Qed.

Lemma ends_replay_pass : ends Q (replay_pass scrub_text cfg e).
Proof.
  unfold replay_pass. apply ends_bind; [|intros []; [apply ends_ret|apply ends_replay_from]].
  unfold process_stored_reports. apply ends_bind; [apply ends_with_disk, ends_get|]. intros st.
  apply ends_bind.
  - destruct (read_pending _ _); [destruct (rp_held st)|]; try apply ends_ret.
    apply ends_bind; [apply ends_modify|]. intros _. apply ends_with_disk, ends_get.
  - intros st1. apply ends_bind; [apply ends_delete_rows|]. intros; apply ends_ret.
Qed.
End Ends.

(** Replies whose body the classification can read: where it is a JSON object,
    its "error" is no list or object. *)
Definition readable_replies : Prop := refusals_raise (fun _ => False).

Lemma ends_ok {A} (m : RM A) st : ends (fun _ => False) m -> exists a st', m st = (Ok a, st').
Proof.
  intros Hm. specialize (Hm st). destruct (m st) as [[a|x] st']; [by exists a, st'|]. by destruct (Hm x).
Qed.

(** ** Sending *)

Lemma send_in_parts_spec batch created st :
  wpx (grown st) (send_in_parts scrub_text cfg e batch created)
    (fun r st' => exists untried refused, r.2 = untried ++ refused /\
       untried `sublist_of` batch /\ refused `sublist_of` batch /\
       (exists dealt, ledger st' ≡ₚ ledger st ++ dealt /\ r.2 ++ dealt ≡ₚ batch) /\
       rp_batch st' = rp_batch st /\ rp_pending st' = rp_pending st /\ rp_held st' = rp_held st /\ letters st st' /\
       (storage_ok -> batch <> [] -> (length (rp_dead st) + length batch <= max_dead_letters cfg)%nat ->
          rp_lost st' = rp_lost st) /\
       (r.1 = D_SENT \/ r.1 = D_PERMANENT -> r.2 = [])) st.
Proof.
  unfold send_in_parts. destruct (Nat.eqb_spec (length batch) 1) as [Hone|Hone].
  { apply wp_ret. exists [], batch. cbn. repeat (split; [done || apply sublist_nil_l|]).
    split; [exists []; by rewrite !app_nil_r|]. repeat (split; [done|]). by intros [|]. }
  apply wp_bind. eapply wp_mono; [|apply parts_loop_spec].
  intros p st' (Hl & Hb & Hp & Hh & Hle & Hlost & Hsub). unfold gathered in Hl. cbn [pt_untried pt_refused app] in *.
  rewrite halves_join in *. destruct (Hsub batch) as [Hu Hr]; [done..|].
  assert (Hlost' : storage_ok -> batch <> [] ->
    (length (rp_dead st) + length batch <= max_dead_letters cfg)%nat -> rp_lost st' = rp_lost st).
  { intros Hs Hne Hcap. apply Hlost; [done| |done]. apply halves_nonempty.
    destruct batch as [|x [|y l]]; cbn in *; [done|done|lia]. }
  destruct (bool_decide _).
  { apply wp_ret. exists (pt_untried p), (pt_refused p). repeat (split; [done|]). by intros [|]. }
  destruct (pt_untried p ++ pt_refused p) as [|x l] eqn:E.
  - apply wp_ret. exists [], []. apply app_nil in E as [E1 E2]. rewrite E1, E2 in *.
    repeat (split; [done || apply sublist_nil_l|]). done.
  - apply wp_ret. exists (pt_untried p), (pt_refused p). cbn [fst snd]. rewrite <- E in *.
    repeat (split; [done|]). by intros [|].
Qed.

(** A batch over the size limit is sent in halves to the end: the split
    terminates, and the results it gives back are the untried then the
    refused, each in the batch's order; every other result of the batch is in
    the ledger, and a full success gives nothing back. *)
Theorem parts_terminate_in_order batch created st :
  (send_in_parts scrub_text cfg e batch created st).1 <> Raise OutOfFuel /\
  forall outcome unsent st', send_in_parts scrub_text cfg e batch created st = (Ok (outcome, unsent), st') ->
    (exists untried refused, unsent = untried ++ refused /\
       untried `sublist_of` batch /\ refused `sublist_of` batch) /\
    ledger st' ++ unsent ≡ₚ ledger st ++ batch /\
    (outcome = D_SENT -> unsent = []).
Proof.
  split.
  - intros E. by eapply (ends_send_in_parts _ classify_not_fuel batch created st OutOfFuel).
  - intros outcome unsent st' E. pose proof (wp_elim _ _ _ _ _ (send_in_parts_spec batch created st) E)
      as (u & r & Eu & Hu & Hr & Hl & _ & _ & _ & _ & _ & Hs). cbn in *. subst unsent.
    split; [by exists u, r|]. destruct Hl as (dealt & -> & <-). split; [solve_Permutation|]. auto.
Qed.

Lemma deliver_spec batch st :
  batch <> [] ->
  wp (deliver scrub_text cfg e batch)
    (fun outcome st' => ledger st' ≡ₚ ledger st ++ batch /\ rp_batch st' = rp_batch st /\
       (storage_ok -> (length (rp_pending st) < max_stored_batches cfg)%nat ->
        (length (rp_dead st) + length batch <= max_dead_letters cfg)%nat -> rp_lost st' = rp_lost st)) st.
Proof.
  intros Hne. unfold deliver. apply wp_bind. eapply wp_mono; [|by eapply wp_raise, post_batch_spec].
  intros [[outcome code] detail] st1 [Hpost Hperm].
  pose proof (ledger_posted _ _ _ _ Hpost) as (Hl & Hb & Hp & Hd & Hh & Hlo & _). cbn in Hl, Hperm.
  assert (Hstore : forall unsent st2 (o : Delivery), ledger st2 ++ unsent ≡ₚ ledger st ++ batch ->
    rp_batch st2 = rp_batch st -> rp_pending st2 = rp_pending st ->
    (storage_ok -> (length (rp_dead st) + length batch <= max_dead_letters cfg)%nat ->
       rp_lost st2 = rp_lost st) ->
    wp (_ ← (match unsent with [] => mret tt | _ => store_batch_to_db cfg e unsent end); mret o)
      (fun outcome st' => ledger st' ≡ₚ ledger st ++ batch /\ rp_batch st' = rp_batch st /\
       (storage_ok -> (length (rp_pending st) < max_stored_batches cfg)%nat ->
        (length (rp_dead st) + length batch <= max_dead_letters cfg)%nat -> rp_lost st' = rp_lost st)) st2).
  { intros [|x l] st2 o Hl2 Hb2 Hp2 Hlo2; apply wp_bind.
    - apply wp_ret, wp_ret. rewrite app_nil_r in Hl2. auto.
    - eapply wp_mono; [|apply store_batch_spec]. intros _ st3 (Hl3 & (Hb3 & _) & _ & Hlo3). apply wp_ret.
      split; [by rewrite Hl3|]. split; [congruence|]. intros Hs Hcap Hcap'. rewrite Hlo3; [auto|done|congruence]. }
  destruct outcome; rewrite ?decide_True in Hl by done; rewrite ?decide_False, ?app_nil_r in Hl by done.
  - apply wp_ret. split; [done|]. split; [congruence|]. intros. congruence.
  - destruct code as [code|]; [|by destruct (Hperm eq_refl)]. apply wp_bind.
    eapply wp_mono; [|apply dead_letter_batch_spec, Hperm, eq_refl]. intros _ st2 (Hl2 & (Hb2 & _) & _ & _ & Hlo2). apply wp_ret.
    split; [by rewrite Hl2, Hl|]. split; [congruence|]. intros Hs _ Hcap.
    destruct (Hlo2 Hs) as [? _]; [|congruence]. rewrite Hd. destruct batch; cbn in *; [done|lia].
  - rewrite bool_decide_eq_true_2 by done. apply wp_bind.
    eapply wp_mono; [|by eapply wp_raise, send_in_parts_spec].
    intros [o unsent] st2 (u & r & _ & _ & _ & (dealt & Hl2 & Hd2) & Hb2 & Hp2 & _ & _ & Hlo2 & _). cbn [fst snd] in *.
    apply Hstore; [rewrite Hl2, Hl, <- Hd2; solve_Permutation|congruence..|]. intros Hs Hcap. rewrite Hlo2; [done..|]. by rewrite Hd.
  - rewrite bool_decide_eq_false_2 by done. apply wp_bind, wp_ret.
    apply Hstore; [by rewrite Hl|congruence..].
Qed.

Lemma flush_spec st :
  wp (flush scrub_text cfg e)
    (fun _ st' => rp_batch st' = [] /\ ledger st' ≡ₚ ledger st ++ rp_batch st /\
       (storage_ok -> (length (rp_pending st) < max_stored_batches cfg)%nat ->
        (length (rp_dead st) + length (rp_batch st) <= max_dead_letters cfg)%nat ->
        rp_lost st' = rp_lost st)) st.
Proof.
  unfold flush. apply wp_bind, wp_get. destruct (rp_batch st) as [|x l] eqn:Eb.
  - apply wp_ret. by rewrite app_nil_r.
  - apply wp_bind, wp_modify. unfold send_batch. apply wp_bind.
    eapply wp_mono; [|apply (deliver_spec (x :: l)); done]. intros o st2 (Hl & Hb & Hlo). apply wp_ret.
    split; [done|]. split; [done|]. exact Hlo.
Qed.

(** C3: Nothing collected vanishes: as long as the replies can be read, a flush
    completes and hands every queued result on, each one taken by the server,
    kept for replay, dead-lettered or, only when the storage is off or failing
    or a table is at its cap, recorded as lost; with working storage and room
    in the tables nothing is lost. *)
Theorem flush_conserves st :
  readable_replies ->
  exists ok st', flush scrub_text cfg e st = (Ok ok, st') /\
    rp_batch st' = [] /\
    ledger st' ≡ₚ ledger st ++ rp_batch st /\
    (storage_ok -> (length (rp_pending st) < max_stored_batches cfg)%nat ->
     (length (rp_dead st) + length (rp_batch st) <= max_dead_letters cfg)%nat -> rp_lost st' = rp_lost st).
Proof.
  intros Hread. destruct (ends_ok _ st (ends_flush _ Hread)) as (ok & st' & E). exists ok, st'.
  split; [done|]. by apply (wp_elim _ _ _ _ _ (flush_spec st) E).
Qed.

(** ** Replay *)

Definition row_of (s : stored_batch) : pending_batch :=
  Pending (sb_row_id s) (sb_created_at s) (Some (sb_checks s)).

Definition ids_unique (st : reporter) : Prop := NoDup (map pb_id (rp_pending st)).

(** A step that settles the rows of [gone]: the stored results are conserved,
    and every other row it might still replay is untouched. *)
Definition settled (gone : list N) (st st' : reporter) : Prop :=
  ledger st' ≡ₚ ledger st /\ rp_batch st' = rp_batch st /\ ids_unique st' /\ letters st st' /\
  forall b, b ∈ rp_pending st -> pb_id b ∉ gone -> b ∈ rp_pending st'.

Lemma settled_refl st gone : ids_unique st -> settled gone st st.
Proof. intros Hu. split; [done|]. split; [done|]. split; [done|]. by split. Qed.

Lemma settled_trans g1 g2 st1 st2 st3 :
  settled g1 st1 st2 -> settled g2 st2 st3 -> settled (g1 ++ g2) st1 st3.
Proof.
  intros (Hl1 & Hb1 & _ & Hle1 & Hk1) (Hl2 & Hb2 & Hu & Hle2 & Hk2).
  split; [by rewrite Hl2|]. split; [congruence|]. split; [exact Hu|]. split; [by etrans|].
  intros b Hb. rewrite not_elem_of_app. intros [? ?]. auto.
Qed.

(** What an exception during a replay leaves: every result is still there (some
    twice: taken by the server, and still stored), and the rows keep their ids. *)
Definition spared (st st' : reporter) : Prop :=
  (exists again, ledger st' ≡ₚ ledger st ++ again) /\ rp_batch st' = rp_batch st /\ ids_unique st' /\ letters st st'.

Lemma spared_by dealt st st' :
  ledger st' ≡ₚ ledger st ++ dealt -> rp_batch st' = rp_batch st -> ids_unique st' -> letters st st' ->
  spared st st'.
Proof. intros Hl Hb Hu Hle. split; [by exists dealt|done]. Qed.

Lemma grown_spared st st' : ids_unique st -> grown st st' -> spared st st'.
Proof. intros Hu (Hl & Hb & Hp & Hle). split; [done|]. split; [done|]. unfold ids_unique. by rewrite Hp. Qed.

Lemma spared_after gone st st1 st' : settled gone st st1 -> spared st1 st' -> spared st st'.
Proof.
  intros (Hl & Hb & _ & Hle & _) ([again Ha] & Hb' & Hu & Hle'). split; [|split; [congruence|split; [done|by etrans]]].
  exists again. by rewrite Ha, Hl.
Qed.

Lemma spared_refl st : ids_unique st -> spared st st.
Proof. intros Hu. by apply (spared_by []); [rewrite app_nil_r|..]. Qed.

(** Sending, from a state that differs by what has been dealt with. *)
Lemma wp_sending {A} dealt st0 st (m : RM A) (Q : A -> reporter -> Prop) :
  ids_unique st0 -> ledger st ≡ₚ ledger st0 ++ dealt -> rp_batch st = rp_batch st0 ->
  rp_pending st = rp_pending st0 -> letters st0 st -> wpx (grown st) m Q st -> wpx (spared st0) m Q st.
Proof.
  intros Hu Hl Hb Hp Hle. apply wp_raise. intros st' Hg. apply (grown_spared st0 st' Hu).
  by apply (grown_after dealt st0 st).
Qed.

(** A step that goes on from where a settled one left. *)
Lemma wp_settled {A} gone st st1 (m : RM A) (Q Q' : A -> reporter -> Prop) :
  settled gone st st1 -> (forall a st', Q a st' -> Q' a st') ->
  wpx (spared st1) m Q st1 -> wpx (spared st) m Q' st1.
Proof.
  intros Hs HQ Hm. eapply wp_mono, wp_raise, Hm; [done|]. intros st'. by apply (spared_after gone).
Qed.

(** In a table with unique ids the row of an id is alone under it. *)
Lemma filter_row st s :
  ids_unique st -> row_of s ∈ rp_pending st ->
  filter (fun b => pb_id b = sb_row_id s) (rp_pending st) = [row_of s].
Proof.
  unfold ids_unique. induction (rp_pending st) as [|b l IH]; intros Hnd Hin; [by apply elem_of_nil in Hin|].
  cbn [map] in Hnd. apply NoDup_cons in Hnd as [Hb Hnd]. rewrite filter_cons.
  apply elem_of_cons in Hin as [<-|Hin].
  - rewrite decide_True by done. f_equal. apply elem_of_nil_inv. intros x [Hx Hin]%list_elem_of_filter.
    apply Hb. cbn. rewrite <- Hx. by apply list_elem_of_fmap_2.
  - rewrite decide_False; [by apply IH|]. intros E. apply Hb. rewrite E.
    change (sb_row_id s) with (pb_id (row_of s)). by apply list_elem_of_fmap_2.
Qed.

Lemma pending_minus_row st s :
  ids_unique st -> row_of s ∈ rp_pending st ->
  pending_results (rp_pending st) ≡ₚ
  pending_results (delete_pending [sb_row_id s] (rp_pending st)) ++ sb_checks s.
Proof.
  intros Hu Hin. etrans; [apply (pending_results_split (fun b => pb_id b ∈ [sb_row_id s]))|].
  unfold delete_pending. f_equiv. rewrite (list_filter_iff _ (fun b => pb_id b = sb_row_id s)).
  2: { intros b. by rewrite list_elem_of_singleton. }
  rewrite filter_row by done. unfold pending_results. cbn. by rewrite app_nil_r.
Qed.

Lemma ids_unique_delete ids st :
  ids_unique st -> NoDup (map pb_id (delete_pending ids (rp_pending st))).
Proof. intros Hu. eapply sublist_NoDup; [exact Hu|]. apply fmap_sublist, sublist_filter. Qed.

Lemma elem_of_delete ids l b : b ∈ delete_pending ids l <-> b ∈ l /\ pb_id b ∉ ids.
Proof. unfold delete_pending. rewrite list_elem_of_filter. tauto. Qed.

Lemma move_settles st s code detail n :
  ids_unique st -> row_of s ∈ rp_pending st -> turned_down (sb_checks s) ->
  wpx (spared st) (move_to_dead_letters cfg e (sb_row_id s) code detail)
    (fun _ st' => settled [sb_row_id s] st st') (set_tick n st).
Proof.
  intros Hu Hin Hdown. apply wp_with_disk; [exact (spared_refl st Hu)|].
  apply wp_bind, wp_observe, wp_modify. cbn.
  rewrite filter_row by done. cbn [head]. split; [|split; [done|split; [|split]]].
  - rewrite prune_dead_ledger. unfold ledger, insert_dead_letter. cbn. rewrite dead_results_app.
    change (dead_results [_]) with (sb_checks s ++ []). rewrite app_nil_r.
    rewrite (pending_minus_row st s) by done. solve_Permutation.
  - by apply ids_unique_delete.
  - etrans; [eapply (letters_insert _ _ _ _ (Some (sb_checks s)) st st); [|done..]|by apply letters_same].
    intros x Hx. by exists (sb_checks s).
  - intros b Hb Hn. cbn. by apply elem_of_delete.
Qed.

Lemma same_results_length a b : same_results a b = true -> length a = length b.
Proof.
  unfold same_results. revert b. induction a as [|x a IH]; intros [|y b]; cbn; try done.
  intros Hab. apply andb_true_iff in Hab as [_ Hab]. f_equal. by apply IH.
Qed.

(** Rewriting a row with what is left of it. *)
Lemma rewrite_pending st s unsent :
  ids_unique st -> row_of s ∈ rp_pending st ->
  let rows := map (fun b => if bool_decide (pb_id b = sb_row_id s)
                   then Pending (pb_id b) (pb_created_at b) (Some unsent) else b) (rp_pending st) in
  pending_results rows ++ sb_checks s ≡ₚ pending_results (rp_pending st) ++ unsent /\
  map pb_id rows = map pb_id (rp_pending st).
Proof.
  intros Hu Hin rows. split.
  2: { unfold rows. rewrite map_map. apply map_ext. intros b. by destruct (bool_decide _). }
  rewrite (pending_minus_row st s) by done. unfold rows. clear rows. revert Hu Hin. unfold ids_unique.
  induction (rp_pending st) as [|b l IH]; intros Hnd Hin; [by apply elem_of_nil in Hin|].
  cbn [map] in *. apply NoDup_cons in Hnd as [Hb Hnd]. unfold delete_pending. rewrite filter_cons.
  assert (Hcons : forall x m, pending_results (x :: m) = payload_of (pb_payload x) ++ pending_results m) by done.
  apply elem_of_cons in Hin as [<-|Hin].
  - rewrite bool_decide_eq_true_2 by done. rewrite decide_False by (intros Hn; apply Hn; left).
    assert (Hl : map (fun b => if bool_decide (pb_id b = sb_row_id s)
                   then Pending (pb_id b) (pb_created_at b) (Some unsent) else b) l
                 = filter (fun b => pb_id b ∉ [sb_row_id s]) l).
    { clear -Hb. induction l as [|x l IH]; [done|]. cbn [map] in *. apply not_elem_of_cons in Hb as [Hx Hl].
      assert (Hne : pb_id x <> sb_row_id s) by (cbn in Hx; congruence).
      rewrite filter_cons, decide_True by (by rewrite list_elem_of_singleton).
      rewrite bool_decide_eq_false_2 by done. by rewrite IH. }
    rewrite Hl, Hcons. cbn. solve_Permutation.
  - assert (Hne : pb_id b <> sb_row_id s).
    { intros E. apply Hb. rewrite E. change (sb_row_id s) with (pb_id (row_of s)). by apply list_elem_of_fmap_2. }
    rewrite bool_decide_eq_false_2 by done. rewrite decide_True by (by rewrite list_elem_of_singleton).
    rewrite !Hcons. specialize (IH Hnd Hin). unfold delete_pending in IH.
    rewrite <- (assoc_L (++)), IH. solve_Permutation.
Qed.
Lemma rewrite_settles st0 st s unsent dealt :
  ids_unique st0 -> row_of s ∈ rp_pending st0 ->
  rp_batch st = rp_batch st0 -> rp_pending st = rp_pending st0 -> letters st0 st ->
  ledger st ≡ₚ ledger st0 ++ dealt -> unsent ++ dealt ≡ₚ sb_checks s ->
  wpx (spared st0) (rewrite_stored_batch e (sb_row_id s) unsent)
    (fun _ st' => settled [sb_row_id s] st0 st') st.
Proof.
  intros Hu Hin Hb Hp Hle Hl Hd. apply wp_with_disk; [|apply wp_modify].
  { apply (spared_by dealt); [exact Hl|done| |done]. unfold ids_unique. cbn. by rewrite Hp. }
  destruct (rewrite_pending st s unsent) as [Hrows Hids]; [by unfold ids_unique; rewrite Hp|by rewrite Hp|].
  set (rows := map _ _) in *. split; [|split; [done|split; [|split; [done|]]]].
  - apply (Permutation_app_inv_r (sb_checks s)). rewrite <- Hd at 2.
    trans (ledger st ++ unsent); [|rewrite Hl; solve_Permutation].
    unfold ledger. cbn. fold rows.
    trans (rp_taken st ++ (pending_results rows ++ sb_checks s) ++ dead_results (rp_dead st) ++ rp_lost st);
      [solve_Permutation|]. rewrite Hrows. solve_Permutation.
  - unfold ids_unique. cbn. fold rows. rewrite Hids, Hp. exact Hu.
  - intros b Hbin Hn. cbn. fold rows. unfold rows. apply list_elem_of_In, in_map_iff. exists b.
    rewrite bool_decide_eq_false_2 by (intros E; apply Hn; rewrite E; left).
    split; [done|]. apply list_elem_of_In. by rewrite Hp.
Qed.

Lemma delete_settles_dealt st0 st s :
  ids_unique st0 -> row_of s ∈ rp_pending st0 ->
  rp_batch st = rp_batch st0 -> rp_pending st = rp_pending st0 -> letters st0 st ->
  ledger st ≡ₚ ledger st0 ++ sb_checks s ->
  wpx (spared st0) (delete_stored_batch e (sb_row_id s))
    (fun _ st' => settled [sb_row_id s] st0 st') st.
Proof.
  intros Hu Hin Hb Hp Hle Hl. apply wp_with_disk; [|apply wp_modify; split; [|split; [done|split; [|split; [done|]]]]].
  { apply (spared_by (sb_checks s)); [exact Hl|done| |done]. unfold ids_unique. cbn. by rewrite Hp. }
  - apply (Permutation_app_inv_r (sb_checks s)). rewrite <- Hl. unfold ledger at 2.
    rewrite (pending_minus_row st s); [ledger|by unfold ids_unique; rewrite Hp|by rewrite Hp].
  - cbn. unfold ids_unique in *. apply ids_unique_delete. unfold ids_unique. by rewrite Hp.
  - intros b Hbin Hn. cbn. rewrite Hp. by apply elem_of_delete.
Qed.

Lemma replay_single_spec st s :
  ids_unique st -> row_of s ∈ rp_pending st ->
  wpx (spared st) (replay_single scrub_text cfg e s) (fun _ st' => settled [sb_row_id s] st st') st.
Proof.
  intros Hu Hin. unfold replay_single. apply wp_bind. eapply wp_mono; [|by apply (wp_sending [] st st), post_batch_spec; rewrite ?app_nil_r].
  intros [[outcome code] detail] st1 [Hpost Hperm].
  pose proof (ledger_posted _ _ _ _ Hpost) as (Hl & Hb & Hp & Hd & _ & Hlo & _).
  pose proof (letters_same st st1 Hd Hlo) as Hle. destruct Hpost as [n Hst1]. cbn in Hl, Hperm, Hst1.
  destruct outcome; rewrite ?decide_True in Hl, Hst1 by done; rewrite ?decide_False in Hl, Hst1 by done.
  - apply wp_bind. eapply wp_mono; [|apply (delete_settles_dealt st st1 s); done].
    intros [] st' Hs. by apply wp_ret.
  - destruct code as [code|]; [|by destruct (Hperm eq_refl)]. subst st1. apply wp_bind.
    eapply wp_mono; [|apply (move_settles st s); [done..|apply Hperm, eq_refl]]. intros [] st' Hs. by apply wp_ret.
  - apply wp_bind. eapply wp_mono; [|by apply (wp_sending [] st st1), send_in_parts_spec].
    rewrite app_nil_r in Hl.
    intros [got unsent] st2 (u & r & _ & _ & _ & (dealt & Hl2 & Hd2) & Hb2 & Hp2 & _ & Hle2 & _). cbn [fst snd] in *.
    assert (Hl2' : ledger st2 ≡ₚ ledger st ++ dealt) by (by rewrite Hl2, Hl).
    pose proof (transitivity Hle Hle2) as Hle3.
    apply wp_bind. eapply (wp_mono _ (fun _ st' => settled [sb_row_id s] st st')).
    { intros _ st3 Hs3. apply wp_bind. destruct (bool_decide _);
        [apply wp_modify|apply wp_ret]; apply wp_ret; exact Hs3. }
    destruct unsent as [|x l] eqn:Eun.
    + eapply delete_settles_dealt; [done..|congruence|congruence|exact Hle3|]. cbn in Hd2. by rewrite Hl2', Hd2.
    + rewrite <- Eun in *. destruct (same_results _ _) eqn:Esame.
      * apply wp_ret. apply same_results_length in Esame.
        apply Permutation_length in Hd2 as Hlen. rewrite length_app in Hlen.
        destruct dealt; [|cbn in Hlen; lia]. rewrite app_nil_r in Hl2'.
        split; [done|]. split; [congruence|]. unfold ids_unique. rewrite Hp2, Hp. by split.
      * eapply rewrite_settles; try done; congruence.
  - rewrite app_nil_r in Hl. subst st1. destruct code; apply wp_ret; exact (settled_refl st _ Hu).
Qed.

(** The rows a group was read from are in the table, each once. *)
Definition group_of (st : reporter) (group : list stored_batch) : Prop :=
  NoDup (map sb_row_id group) /\ forall s, s ∈ group -> row_of s ∈ rp_pending st.

Lemma group_of_settled st st' gone rest :
  settled gone st st' -> group_of st rest -> (forall s, s ∈ rest -> sb_row_id s ∉ gone) ->
  group_of st' rest.
Proof.
  intros (_ & _ & _ & _ & Hk) [Hnd Hrows] Hdis. split; [done|]. intros s Hs. apply Hk; [by apply Hrows|].
  by apply Hdis.
Qed.

Lemma group_of_app st g1 g2 :
  group_of st (g1 ++ g2) ->
  group_of st g1 /\ group_of st g2 /\ forall s, s ∈ g2 -> sb_row_id s ∉ map sb_row_id g1.
Proof.
  intros [Hnd Hrows]. rewrite map_app in Hnd. apply NoDup_app in Hnd as (H1 & Hdis & H2). split; [|split].
  - split; [done|]. intros s Hs. apply Hrows, elem_of_app. by left.
  - split; [done|]. intros s Hs. apply Hrows, elem_of_app. by right.
  - intros s Hs Hin. apply (Hdis _ Hin). by apply list_elem_of_fmap_2.
Qed.

Lemma settled_weaken gone gone' st st' :
  settled gone st st' -> gone ⊆ gone' -> settled gone' st st'.
Proof.
  intros (Hl & Hb & Hu & Hle & Hk) Hsub. do 4 (split; [done|]).
  intros b Hb' Hn. apply Hk; [done|]. intros Hin. by apply Hn, Hsub.
Qed.

Lemma replay_each_spec group : forall st,
  ids_unique st -> group_of st group ->
  wpx (spared st) (replay_each scrub_text cfg e group) (fun _ st' => settled (map sb_row_id group) st st') st.
Proof.
  induction group as [|s group IH]; intros st Hu Hg; cbn [replay_each].
  { apply wp_ret. by apply settled_refl. }
  apply wp_bind, wp_observe. destruct (env_stopped e _).
  { apply wp_ret. exact (settled_refl st _ Hu). }
  destruct (group_of_app st [s] group Hg) as ([_ Hs] & Hrest & Hdis).
  apply wp_bind. eapply wp_mono; [|apply (replay_single_spec (tick st) s); [exact Hu|apply Hs; left]].
  intros go st2 Hset. destruct go.
  - eapply (wp_settled [sb_row_id s] st st2); [exact Hset| |apply (IH st2)].
    + intros more st3 H3. exact (settled_trans [sb_row_id s] _ _ _ _ Hset H3).
    + by destruct Hset as (_ & _ & ? & _ & _).
    + by apply (group_of_settled (tick st) st2 [sb_row_id s]).
  - apply wp_ret. apply (settled_weaken [sb_row_id s]); [exact Hset|]. intros x Hx.
    apply list_elem_of_singleton in Hx as ->. left.
Qed.

Lemma delete_pending_app ids ids' l :
  delete_pending ids (delete_pending ids' l) = delete_pending (ids' ++ ids) l.
Proof.
  unfold delete_pending. rewrite list_filter_filter. apply list_filter_iff. intros b.
  rewrite not_elem_of_app. tauto.
Qed.

Lemma delete_pending_none l : delete_pending [] l = l.
Proof.
  unfold delete_pending. induction l as [|b l IH]; [done|].
  rewrite filter_cons, decide_True by (apply not_elem_of_nil). by rewrite IH.
Qed.

Lemma group_of_deleted st s group :
  group_of st (s :: group) ->
  group_of (set_pending (delete_pending [sb_row_id s] (rp_pending st)) st) group.
Proof.
  intros Hg. destruct (group_of_app st [s] group Hg) as (_ & [Hnd Hrows] & Hdis).
  split; [done|]. intros t Ht. apply elem_of_delete. split; [by apply Hrows|]. by apply Hdis.
Qed.

(** Deleting the rows of a group once its results are in the ledger. *)
Lemma delete_group_spec group : forall st0 st,
  ids_unique st0 -> group_of st0 group ->
  rp_batch st = rp_batch st0 -> rp_pending st = rp_pending st0 ->
  letters st0 st -> ledger st ≡ₚ ledger st0 ++ joined (map sb_checks group) ->
  wpx (spared st0) (delete_rows e (map sb_row_id group))
    (fun _ st' => settled (map sb_row_id group) st0 st') st.
Proof.
  induction group as [|s group IH]; intros st0 st Hu Hg Hb Hp Hle Hl; cbn [map delete_rows].
  { apply wp_ret. cbn [map] in Hl. rewrite joined_nil, app_nil_r in Hl. split; [done|]. split; [done|].
    split; [unfold ids_unique; by rewrite Hp|]. split; [done|]. intros b ? _. by rewrite Hp. }
  cbn [map] in Hl. rewrite joined_cons in Hl.
  assert (Hrow : row_of s ∈ rp_pending st0) by (apply Hg; left).
  set (st0' := set_pending (delete_pending [sb_row_id s] (rp_pending st0)) (take_results (sb_checks s) st0)).
  assert (Hset : settled [sb_row_id s] st0 st0').
  { split; [|split; [done|split; [by apply ids_unique_delete|split; [by apply letters_same|]]]].
    - unfold ledger, st0'. cbn. rewrite (pending_minus_row st0 s) by done. solve_Permutation.
    - intros b Hbin Hn. by apply elem_of_delete. }
  apply wp_bind, wp_with_disk; [|apply wp_modify].
  { apply (spared_by _ _ _ Hl); [done| |done]. unfold ids_unique. cbn. by rewrite Hp. }
  eapply wp_mono; [|eapply wp_raise; [|apply (IH st0')]].
  - intros [] st'. exact (settled_trans [sb_row_id s] _ _ _ _ Hset).
  - intros st'. by apply (spared_after [sb_row_id s]).
  - apply Hset.
  - exact (group_of_deleted st0 s group Hg).
  - done.
  - cbn. by rewrite Hp.
  - destruct Hle as (a & o & f & Hle). exists a, o, f. exact Hle.
  - apply (Permutation_app_inv_r (sb_checks s)). destruct Hset as (Hls & _). rewrite Hls.
    rewrite <- (assoc_L (++)), (comm (++) (joined _)), <- Hl.
    unfold ledger. cbn. rewrite (pending_minus_row st s); [solve_Permutation| |by rewrite Hp].
    unfold ids_unique. by rewrite Hp.
Qed.

Lemma replay_joined_spec st group :
  ids_unique st -> group_of st group ->
  wpx (spared st)
    ('(outcome, status_code, detail) ← post_batch scrub_text cfg e (mjoin (map sb_checks group));
      match outcome, status_code with
      | D_SENT, _ => _ ← delete_rows e (map sb_row_id group); mret true
      | D_TRANSIENT, _ | _, None => mret false
      | _, _ => replay_each scrub_text cfg e group
      end) (fun _ st' => settled (map sb_row_id group) st st') st.
Proof.
  intros Hu Hg. apply wp_bind.
  eapply wp_mono; [|by apply (wp_sending [] st st), post_batch_spec; rewrite ?app_nil_r].
  intros [[outcome code] detail] st1 [Hpost _].
  pose proof (ledger_posted _ _ _ _ Hpost) as (Hl & Hb & Hp & Hd & _ & Hlo & _).
  pose proof (letters_same st st1 Hd Hlo) as Hle. destruct Hpost as [n Hst1]. cbn [fst snd] in *.
  destruct (decide (outcome = D_SENT)) as [->|Hn].
  - apply wp_bind. eapply wp_mono; [|by apply (delete_group_spec group st st1)].
    intros [] st' Hs. by apply wp_ret.
  - subst st1. assert (Hsame : settled (map sb_row_id group) st (set_tick n st)) by exact (settled_refl st _ Hu).
    destruct outcome; [done| | |]; destruct code; try (by apply wp_ret);
      exact (replay_each_spec group (set_tick n st) Hu Hg).
Qed.

Lemma replay_group_spec st group :
  ids_unique st -> group_of st group ->
  wpx (spared st) (replay_group scrub_text cfg e group) (fun _ st' => settled (map sb_row_id group) st st') st.
Proof.
  intros Hu Hg. destruct group as [|s [|t group]].
  - by apply replay_joined_spec.
  - apply replay_single_spec; [done|]. apply Hg. left.
  - by apply replay_joined_spec.
Qed.

Lemma replay_from_spec pending : forall group size st,
  ids_unique st -> group_of st (group ++ pending) ->
  wpx (spared st) (replay_from scrub_text cfg e pending group size)
    (fun _ st' => settled (map sb_row_id (group ++ pending)) st st') st.
Proof.
  induction pending as [|s pending IH]; intros group size st Hu Hg; cbn [replay_from].
  - rewrite app_nil_r in *. destruct group as [|t group]; [apply wp_ret; by apply settled_refl|].
    apply wp_bind, wp_observe. destruct (env_stopped e _); [apply wp_ret; exact (settled_refl st _ Hu)|].
    apply wp_bind. eapply wp_mono; [|exact (replay_group_spec (tick st) _ Hu Hg)].
    intros go st' Hs. by apply wp_ret.
  - apply wp_bind, wp_observe. destruct (env_stopped e _); [apply wp_ret; exact (settled_refl st _ Hu)|].
    destruct group as [|t group]; [exact (IH [s] _ (tick st) Hu Hg)|].
    destruct (_ <? _)%nat.
    + destruct (group_of_app _ _ _ Hg) as (Hg1 & Hg2 & Hdis).
      apply wp_bind. eapply wp_mono; [|exact (replay_group_spec (tick st) _ Hu Hg1)].
      intros go st' Hs. rewrite map_app. destruct go.
      * eapply (wp_settled (map sb_row_id (t :: group)) st st'); [exact Hs| |apply (IH [s] _ st')].
        { intros done st2 H2. exact (settled_trans _ _ _ _ _ Hs H2). }
        { apply Hs. }
        { eapply (group_of_settled (tick st)); [exact Hs|exact Hg2|exact Hdis]. }
      * apply wp_ret. eapply settled_weaken; [exact Hs|]. set_solver.
    + replace ((t :: group) ++ s :: pending) with (((t :: group) ++ [s]) ++ pending) in *
        by (by rewrite <- (assoc_L (++))).
      exact (IH _ _ (tick st) Hu Hg).
Qed.

(** *** Reading the rows of a pass *)

Lemma insert_by_time_perm b l : insert_by_time b l ≡ₚ b :: l.
Proof.
  induction l as [|c l IH]; cbn; [done|]. destruct (_ <? _)%Z; [done|]. rewrite IH. constructor.
Qed.

Lemma by_created_at_perm l : by_created_at l ≡ₚ l.
Proof.
  unfold by_created_at. assert (Hgen : forall acc, fold_left (fun acc b => insert_by_time b acc) l acc ≡ₚ acc ++ l).
  { induction l as [|b l IH]; intros acc; cbn; [by rewrite app_nil_r|].
    rewrite IH, insert_by_time_perm. solve_Permutation. }
  apply Hgen.
Qed.

Lemma read_pending_rows st :
  ids_unique st ->
  NoDup (map pb_id (read_pending cfg st)) /\ forall b, b ∈ read_pending cfg st -> b ∈ rp_pending st.
Proof.
  intros Hu. assert (Hsub : read_pending cfg st `sublist_of` by_created_at (rp_pending st)).
  { unfold read_pending. etrans; [apply sublist_take|apply sublist_filter]. }
  split.
  - eapply sublist_NoDup; [|apply fmap_sublist, Hsub].
    change (NoDup (map pb_id (by_created_at (rp_pending st)))). by rewrite by_created_at_perm.
  - intros b Hb. rewrite <- by_created_at_perm. exact (elem_of_sublist _ _ _ Hb Hsub).
Qed.

(** Two rows of a table with unique ids that share one are the same. *)
Lemma same_row st b b' :
  ids_unique st -> b ∈ rp_pending st -> b' ∈ rp_pending st -> pb_id b = pb_id b' -> b = b'.
Proof.
  unfold ids_unique. induction (rp_pending st) as [|c l IH]; intros Hnd Hb Hb' E; [by apply elem_of_nil in Hb|].
  cbn [map] in Hnd. apply NoDup_cons in Hnd as [Hc Hnd].
  apply elem_of_cons in Hb as [->|Hb], Hb' as [->|Hb']; [done| | |by apply IH]; exfalso; apply Hc.
  - rewrite E. by apply list_elem_of_fmap_2.
  - rewrite <- E. by apply list_elem_of_fmap_2.
Qed.

(** Deleting rows that do not decompress deletes no result. *)
Lemma delete_corrupt ids l :
  (forall b, b ∈ l -> pb_id b ∈ ids -> pb_payload b = None) ->
  pending_results (delete_pending ids l) = pending_results l.
Proof.
  unfold delete_pending. induction l as [|b l IH]; intros Hn; [done|]. rewrite filter_cons.
  assert (Hcons : forall x m, pending_results (x :: m) = payload_of (pb_payload x) ++ pending_results m) by done.
  assert (IH' : pending_results (filter (fun b => pb_id b ∉ ids) l) = pending_results l).
  { apply IH. intros c Hc. apply Hn. by right. }
  destruct (decide (pb_id b ∉ ids)) as [Hb|Hb]; rewrite !Hcons, IH'; [done|].
  rewrite (Hn b); [done|left|]. by apply dec_stable.
Qed.

Definition read_of (rows : list pending_batch) : list stored_batch :=
  omap (fun b => StoredBatch (pb_id b) (pb_created_at b) <$> pb_payload b) rows.

Lemma elem_of_read rows s : s ∈ read_of rows -> row_of s ∈ rows.
Proof.
  unfold read_of. rewrite list_elem_of_omap. intros ([id t [p|]] & Hb & E); cbn in E; [|done].
  by injection E as <-.
Qed.

Lemma read_ids rows : map sb_row_id (read_of rows) `sublist_of` map pb_id rows.
Proof.
  unfold read_of. induction rows as [|b rows IH]; cbn; [constructor|].
  destruct (pb_payload b); cbn; by constructor.
Qed.

Lemma delete_corrupt_spec ids : forall st,
  ids_unique st -> (forall b, b ∈ rp_pending st -> pb_id b ∈ ids -> pb_payload b = None) ->
  wpx (spared st) (delete_rows e ids)
    (fun _ st' => ledger st' = ledger st /\ rp_batch st' = rp_batch st /\ letters st st' /\
       rp_pending st' = delete_pending ids (rp_pending st)) st.
Proof.
  induction ids as [|id ids IH]; intros st Hu Hn; cbn [delete_rows].
  { apply wp_ret. by rewrite delete_pending_none. }
  apply wp_bind, wp_with_disk; [exact (spared_refl st Hu)|]. apply wp_modify.
  set (st1 := set_pending _ (tick st)).
  assert (Hl : ledger st1 = ledger st).
  { unfold ledger. change (rp_pending st1) with (delete_pending [id] (rp_pending st)).
    rewrite delete_corrupt; [done|]. intros b Hb Hin%list_elem_of_singleton.
    apply Hn; [done|]. rewrite Hin. left. }
  assert (Hu1 : ids_unique st1) by (by apply (ids_unique_delete [id])).
  eapply wp_mono; [|eapply wp_raise; [|apply (IH st1 Hu1)]].
  - intros [] st' (Hl' & Hb' & Hle' & Hp'). split; [congruence|]. split; [done|]. split; [by trans st1; [apply letters_same|]|].
    rewrite Hp'. by apply delete_pending_app.
  - intros st' ([again Ha] & Hb & Hu' & Hle'). apply (spared_by again); [by rewrite Ha, Hl|done|done|].
    by trans st1; [apply letters_same|].
  - intros b [Hb _]%elem_of_delete Hin. apply Hn; [done|by right].
Qed.

Lemma process_spec st :
  ids_unique st ->
  wpx (spared st) (process_stored_reports cfg e)
    (fun pending st' => ledger st' = ledger st /\ rp_batch st' = rp_batch st /\ ids_unique st' /\
       letters st st' /\ group_of st' pending) st.
Proof.
  intros Hu. unfold process_stored_reports.
  apply wp_bind, wp_with_disk; [exact (spared_refl st Hu)|]. apply wp_get. apply wp_bind.
  apply (wp_mono _ (fun st1 st2 => st2 = st1 /\ ledger st1 = ledger st /\ rp_batch st1 = rp_batch st /\
                       rp_pending st1 = rp_pending st /\ letters st st1)).
  2: { destruct (read_pending _ _); [destruct (rp_held _)|]; 
         try (apply wp_ret; do 4 (split; [done|]); by apply letters_same).
       apply wp_bind, wp_modify, wp_with_disk; [exact (spared_refl st Hu)|]. apply wp_get.
       do 4 (split; [done|]). by apply letters_same. }
  intros st1 st2 (-> & Hl & Hb & Hp & Hle).
  assert (Hu1 : ids_unique st1) by (by unfold ids_unique; rewrite Hp).
  destruct (read_pending_rows st1 Hu1) as [Hnd Hrows]. set (rows := read_pending cfg st1) in *.
  set (corrupt := map pb_id (filter (fun b => pb_payload b = None) rows)).
  assert (Hcor : forall b, b ∈ rp_pending st1 -> pb_id b ∈ corrupt -> pb_payload b = None).
  { intros b Hbin Hin. apply list_elem_of_fmap in Hin as (b' & E & [Hnone Hin]%list_elem_of_filter).
    rewrite (same_row st1 b b'); auto. }
  apply wp_bind. eapply wp_mono; [|eapply wp_raise; [|by apply (delete_corrupt_spec corrupt st1)]].
  - intros [] st2 (Hl2 & Hb2 & Hle2 & Hp2). apply wp_ret. fold (read_of rows).
    split; [congruence|]. split; [congruence|]. unfold ids_unique, group_of. rewrite Hp2.
    split; [by apply ids_unique_delete|]. split; [by trans st1|]. split; [eapply sublist_NoDup; [exact Hnd|apply read_ids]|].
    intros s Hs%elem_of_read. apply elem_of_delete. split; [by apply Hrows|]. intros Hin.
    by specialize (Hcor _ (Hrows _ Hs) Hin).
  - intros st' ([again Ha] & Hb' & Hu' & Hle'). apply (spared_by again); [by rewrite Ha, Hl|congruence|done|by trans st1].
Qed.

Lemma replay_pass_spec st :
  ids_unique st ->
  wpx (spared st) (replay_pass scrub_text cfg e)
    (fun _ st' => ledger st' ≡ₚ ledger st /\ rp_batch st' = rp_batch st /\ ids_unique st' /\ letters st st') st.
Proof.
  intros Hu. unfold replay_pass. apply wp_bind. eapply wp_mono; [|by apply process_spec].
  intros pending st1 (Hl & Hb & Hu1 & Hle & Hg).
  destruct pending as [|s pending]; [apply wp_ret; do 3 (split; [by rewrite ?Hl|]); done|].
  eapply wp_mono; [|eapply wp_raise; [|by apply (replay_from_spec (s :: pending) [])]].
  - intros [] st2 (Hl2 & Hb2 & Hu2 & Hle2 & _). split; [by rewrite Hl2, Hl|]. split; [congruence|]. split; [done|by trans st1].
  - intros st' ([again Ha] & Hb' & Hu' & Hle'). apply (spared_by again); [by rewrite Ha, Hl|congruence|done|by trans st1].
Qed.

(** Every transaction of the replay succeeds. *)
Definition disk_works : Prop := forall t, env_disk_ok e t = true.

Lemma replay_completes st outcome st' :
  readable_replies -> disk_works -> replay_pass scrub_text cfg e st = (outcome, st') -> outcome = Ok tt.
Proof.
  intros Hread Hdisk E. assert (Hno : forall t, env_disk_ok e t = false -> False) by (intros t; by rewrite Hdisk).
  destruct (ends_ok _ st (ends_replay_pass _ Hread Hno)) as ([] & st1 & E1). congruence.
Qed.

(** What is in one of the three places, and so not lost. *)
Definition kept (st : reporter) : list result :=
  rp_taken st ++ pending_results (rp_pending st) ++ dead_results (rp_dead st).

(** The ledger, less what the dead letters lost. *)
Lemma kept_ledger added oldest failed again st st' :
  letters_by added oldest failed st st' -> ledger st' ≡ₚ ledger st ++ again ->
  kept st' ++ dead_results oldest ++ failed ≡ₚ kept st ++ again.
Proof.
  intros (_ & Hl & _) Hled. apply (Permutation_app_inv_r (rp_lost st)).
  trans (ledger st'); [unfold ledger; rewrite Hl|rewrite Hled; unfold ledger]; unfold kept; solve_Permutation.
Qed.

(** C4: A replay pass conserves what is stored: with the storage on and working
    and the replies readable it completes, and whatever the server answers,
    whenever the reporter is stopped, and wherever a batch is split, rewritten
    or moved, the results stored, taken and dead-lettered after the pass are
    those of before it, less only the oldest dead letters where that table is
    at its cap; what it dead-letters the server turned down, the live queue is
    untouched and row ids stay unique. *)
Theorem replay_conserves st :
  ids_unique st -> readable_replies -> storage_ok ->
  exists st' added oldest, replay_pass scrub_text cfg e st = (Ok tt, st') /\
    kept st' ++ dead_results oldest ≡ₚ kept st /\
    rp_dead st ++ added = oldest ++ rp_dead st' /\
    (oldest = [] \/ (max_dead_letters cfg <= length (rp_dead st'))%nat) /\
    (forall x, x ∈ dead_results added -> refused x) /\
    rp_batch st' = rp_batch st /\ ids_unique st'.
Proof.
  intros Hu Hread Hs. destruct (replay_pass scrub_text cfg e st) as [outcome st'] eqn:E.
  pose proof (replay_completes _ _ _ Hread (proj2 Hs) E) as ->.
  destruct (wp_elim _ _ _ _ _ (replay_pass_spec st Hu) E) as (Hl & Hb & Hu' & added & oldest & failed & Hle).
  pose proof (kept_ledger _ _ _ [] _ _ Hle) as Hk. destruct Hle as (Hd & _ & Hcap & Hf & Hr).
  rewrite (Hf Hs), !app_nil_r in *. exists st', added, oldest. auto 7.
Qed.

(** C38: Replay delivers at least once, whatever fails: however a pass ends (a
    full disk, an unreadable reply, a stop), every result stored, taken or
    dead-lettered before it still is, unless the server turned it down in the
    pass and the dead letter could not be written, or it is among the oldest
    dead letters of a table at its cap; the live queue is untouched and row ids
    stay unique; only a pass an exception ended may leave a result twice, taken
    by the server or dead-lettered, and still stored. *)
Theorem replay_at_least_once st outcome st' :
  ids_unique st -> replay_pass scrub_text cfg e st = (outcome, st') ->
  (exists added oldest failed again,
     kept st' ++ dead_results oldest ++ failed ≡ₚ kept st ++ again /\
     rp_dead st ++ added = oldest ++ rp_dead st' /\
     (oldest = [] \/ (max_dead_letters cfg <= length (rp_dead st'))%nat) /\
     (forall x, x ∈ dead_results added ++ failed -> refused x) /\
     (storage_ok -> failed = []) /\ (outcome = Ok tt -> again = [])) /\
  rp_batch st' = rp_batch st /\ ids_unique st'.
Proof.
  intros Hu E. pose proof (replay_pass_spec st Hu) as Hs. unfold wpx in Hs. rewrite E in Hs.
  assert (Hend : exists again, ledger st' ≡ₚ ledger st ++ again /\ (outcome = Ok tt -> again = []) /\
    rp_batch st' = rp_batch st /\ ids_unique st' /\ letters st st').
  { destruct outcome as [[]|x].
    - destruct Hs as (Hl & Hrest). exists []. by rewrite app_nil_r.
    - destruct Hs as ([again Ha] & Hrest). by exists again. }
  destruct Hend as (again & Hl & Hag & Hb & Hu' & added & oldest & failed & Hle).
  split; [|done]. pose proof (kept_ledger _ _ _ _ _ _ Hle Hl) as Hk. destruct Hle as (Hd & _ & Hcap & Hf & Hr).
  exists added, oldest, failed, again. auto 7.
Qed.
End Delivery.

(** ** Witnesses *)

#[local] Existing Instance plain_runtime.

Definition demo_settings : settings :=
  {| max_retries := 2; enable_local_storage := true; max_files_per_batch := 10; max_stored_batches := 3;
     max_dead_letters := 10; batch_size := 4; max_queue_size := 5 |}.

(** A server that refuses three results or more as too large, and one refusing
    everything as the payload's fault; the disk works and nothing stops. *)
Definition picky (t : nat) (batch : list result) : reply :=
  if (3 <=? length batch)%nat then Response 413 "" else Response 200 "".
Definition refusing (t : nat) (batch : list result) : reply := Response 422 "{error:VALIDATION_ERROR}".
Definition demo_env (reply : nat -> list result -> reply) : env :=
  {| env_reply := reply; env_stopped := fun _ => false; env_disk_ok := fun _ => true;
     env_time := fun t => Z.of_nat t |}.

Definition plain_result (n : Z) : result := [("check", PInt n)].
Definition some_results : list result := map plain_result [1; 2; 3; 4; 5]%Z.
Definition idle : reporter := Reporter [] false [] [] 1 [] [] [] 0.
Definition queued : reporter := set_batch some_results idle.

Lemma parts_terminate_in_order_witness :
  exists st', send_in_parts id demo_settings (demo_env picky) some_results None queued = (Ok (D_SENT, []), st') /\
    rp_taken st' = some_results /\ ledger st' ++ [] ≡ₚ ledger queued ++ some_results.
Proof.
  eexists. split; [vm_compute; reflexivity|]. split; [vm_compute; reflexivity|].
  eapply (parts_terminate_in_order id demo_settings (demo_env picky) some_results None queued).
  vm_compute. reflexivity.
Defined.

Lemma demo_readable : readable_replies (demo_env picky) /\ readable_replies (demo_env refusing).
Proof.
  split; intros t batch code body x; cbn [demo_env env_reply]; unfold picky, refusing.
  - destruct (3 <=? length batch)%nat; intros [= <- <-]; vm_compute; discriminate.
  - intros [= <- <-]. vm_compute. discriminate.
Qed.

Lemma flush_conserves_witness :
  exists ok st', flush id demo_settings (demo_env refusing) queued = (Ok ok, st') /\
    length (rp_dead st') = 1%nat /\ ledger st' ≡ₚ ledger queued ++ some_results.
Proof.
  destruct (flush_conserves id demo_settings (demo_env refusing) queued (proj2 demo_readable))
    as (ok & st' & E & _ & H1 & _).
  exists ok, st'. split; [exact E|]. split; [|exact H1].
  vm_compute in E. injection E as <- <-. reflexivity.
Defined.

(** Three stored batches: one that fits, one to be split, one that does not
    decompress. *)
Definition stored : reporter :=
  Reporter [plain_result 9] false
    [Pending 1 0 (Some (map plain_result [1; 2]%Z)); Pending 2 1 (Some some_results); Pending 3 2 None]
    [] 4 [] [] [] 0.

(** A server that takes whole batches of two, and turns down whatever else
    holds the third result; two dead letters are kept. *)
Definition choosy (t : nat) (batch : list result) : reply :=
  if (3 <=? length batch)%nat then Response 413 ""
  else if bool_decide (Exists (fun r => assoc_get r "check" = Some (PInt 3)) batch)
       then Response 422 "{error:VALIDATION_ERROR}" else Response 200 "".
Definition two_letters : settings :=
  {| max_retries := 2; enable_local_storage := true; max_files_per_batch := 10; max_stored_batches := 3;
     max_dead_letters := 2; batch_size := 4; max_queue_size := 5 |}.
Definition old_letters : list dead_letter :=
  [DeadLetter 1 0 0 422 "" (Some [plain_result 20]); DeadLetter 2 0 0 422 "" (Some [plain_result 21])].

Lemma choosy_readable : readable_replies (demo_env choosy).
Proof.
  intros t batch code body x. cbn [demo_env env_reply]. unfold choosy.
  destruct (3 <=? length batch)%nat; [|destruct (bool_decide _)]; intros [= <- <-]; vm_compute; discriminate.
Qed.

Lemma replay_conserves_witness :
  exists st' oldest, replay_pass id two_letters (demo_env choosy) (set_dead old_letters stored) = (Ok tt, st') /\
    rp_pending st' = [] /\ length (rp_taken st') = 6%nat /\ map dl_id (rp_dead st') = [2; 4]%N /\
    dead_results oldest = [plain_result 20] /\
    kept st' ++ dead_results oldest ≡ₚ kept (set_dead old_letters stored).
Proof.
  destruct (replay_conserves id two_letters (demo_env choosy) (set_dead old_letters stored))
    as (st' & added & oldest & E & Hk & Hd & _).
  - vm_compute. repeat constructor; set_solver.
  - exact choosy_readable.
  - split; [reflexivity|]. intros t. reflexivity.
  - exists st', oldest. split; [exact E|]. vm_compute in E. injection E as <-. split; [reflexivity|].
    split; [reflexivity|]. split; [reflexivity|]. split; [|exact Hk].
    apply Permutation_length in Hk. rewrite length_app in Hk. vm_compute in Hk.
    destruct oldest as [|o1 [|o2 oldest]]; [discriminate Hk| |]; cbn in Hd.
    + injection Hd as <- _. reflexivity.
    + injection Hd as <- <- _. discriminate Hk.
Defined.

(** The disk fails when the first row is to be deleted: its results, taken, stay
    stored too. *)
Definition full_disk : env :=
  {| env_reply := picky; env_stopped := fun _ => false; env_disk_ok := fun t => (t <? 5)%nat;
     env_time := fun t => Z.of_nat t |}.

Lemma replay_at_least_once_witness :
  exists st', replay_pass id demo_settings full_disk stored = (Raise OperationalError, st') /\
    rp_taken st' = map plain_result [1; 2]%Z /\ map pb_id (rp_pending st') = [1; 2]%N /\
    exists again, kept st' ≡ₚ kept stored ++ again.
Proof.
  eexists. split; [vm_compute; reflexivity|]. split; [vm_compute; reflexivity|]. split; [reflexivity|].
  match goal with |- exists again, kept ?s ≡ₚ _ =>
    destruct (replay_at_least_once id demo_settings full_disk stored (Raise OperationalError) s)
      as ((added & oldest & failed & again & Hk & Hd & _ & Hr & _) & _) end.
  - vm_compute. repeat constructor; set_solver.
  - vm_compute. reflexivity.
  - exists again. cbn in Hd. rewrite app_nil_r in Hd. subst oldest.
    assert (Hno : dead_results added ++ failed = []); [|by rewrite Hno, app_nil_r in Hk].
    apply elem_of_nil_inv. intros x (batch & _ & t & code & body & E & Hc)%Hr.
    cbn in E. unfold picky in E. destruct (3 <=? length batch)%nat; injection E as <- <-; discriminate Hc.
Defined.
