(* ===== verification/ReporterLimits.v ===== *)
(** * The reporter: who may dead-letter, and what is bounded

    Only the server's own refusal ever dead-letters a result; the queue and the
    two tables keep to their caps and drop the oldest; a result is fitted to the
    server's limits; a stopped reporter posts nothing; a reply body whose "error"
    is not a string breaks delivery. *)

From S2P Require Import Prelude Py Text Store Reporter ReporterTheorems.

(** ** Steps that keep a relation between the states before and after

    Of every outcome, an exception included. *)
Definition keeps (R : reporter -> reporter -> Prop) {A} (m : RM A) : Prop :=
  forall st, R st (m st).2.

(** Refusals: a reply that the agent would take as the payload's fault. *)
Definition never_refused `{PyRuntime} (e : env) : Prop :=
  forall t batch code body, env_reply e t batch = Response code body ->
    classify_response code body <> Ok D_PERMANENT.

Section Keeps.
Context `{PyRuntime}.
Variable scrub_text : string -> string.
Variable cfg : settings.
Variable e : env.
Variable R : reporter -> reporter -> Prop.
Context `{!PreOrder R}.
Hypothesis R_tick : forall st, R st (tick st).
Hypothesis R_take : forall l st, R st (take_results l st).
Hypothesis R_held : forall l st, R st (set_held l st).
Hypothesis R_delete : forall ids st, R st (set_pending (delete_pending ids (rp_pending st)) st).
Hypothesis R_rewrite : forall id checks, keeps R (rewrite_stored_batch e id checks).

(** Either no reply is a refusal, or dead-lettering keeps the relation too. *)
Definition letters_kept : Prop :=
  (forall batch code detail created, keeps R (dead_letter_batch cfg e batch code detail created)) /\
  (forall id code detail, keeps R (move_to_dead_letters cfg e id code detail)).
Hypothesis refusals : never_refused e \/ letters_kept.

Lemma keeps_ret {A} (a : A) : keeps R (mret a).
Proof. intros st. cbn. reflexivity. Qed.
Lemma keeps_lift {A} (r : res A) : keeps R (lift r).
Proof. intros st. cbn. reflexivity. Qed.
Lemma keeps_get : keeps R get.
Proof. intros st. cbn. reflexivity. Qed.
Lemma keeps_observe {A} (f : nat -> A) : keeps R (observe f).
Proof. intros st. apply R_tick. Qed.
Lemma keeps_modify f : (forall st, R st (f st)) -> keeps R (modify f).
Proof. intros Hf st. apply Hf. Qed.

Lemma keeps_bind {A B} (m : RM A) (f : A -> RM B) :
  keeps R m -> (forall a, keeps R (f a)) -> keeps R (m ≫= f).
Proof.
  intros Hm Hf st. specialize (Hm st). unfold mbind, rm_bind. destruct (m st) as [[a|x] st1]; cbn in *; [|done].
  etrans; [exact Hm|apply Hf].
Qed.

(** The value of a step matters to what follows it. *)
Lemma keeps_bind_val {A B} (m : RM A) (f : A -> RM B) (Q : A -> Prop) :
  keeps R m -> (forall st a st', m st = (Ok a, st') -> Q a) -> (forall a, Q a -> keeps R (f a)) ->
  keeps R (m ≫= f).
Proof.
  intros Hm Hq Hf st. specialize (Hm st). unfold mbind, rm_bind. specialize (Hq st).
  destruct (m st) as [[a|x] st1]; cbn in *; [|done].
  etrans; [exact Hm|]. apply Hf. by eapply Hq.
Qed.

#[local] Hint Resolve keeps_ret keeps_lift keeps_get keeps_observe keeps_modify : keeps.

Lemma keeps_attempts n batch code detail : keeps R (attempts scrub_text e n batch code detail).
Proof.
  revert code detail. induction n as [|n IH]; intros code detail; cbn [attempts]; [apply keeps_ret|].
  apply keeps_bind; [apply keeps_observe|]. intros []; [apply keeps_ret|].
  apply keeps_bind; [apply keeps_observe|]. intros [|c body].
  - apply keeps_bind; [apply keeps_observe|]. intros []; auto with keeps.
  - apply keeps_bind; [apply keeps_lift|]. intros []; auto with keeps.
    + apply keeps_bind; [auto with keeps|]. intros []. auto with keeps.
    + apply keeps_bind; [apply keeps_observe|]. intros []; auto with keeps.
Qed.

Lemma attempts_never_permanent n batch code detail st r st' :
  never_refused e -> attempts scrub_text e n batch code detail st = (Ok r, st') -> r.1.1 <> D_PERMANENT.
Proof.
  intros no_refusal. revert code detail st. induction n as [|n IH]; intros code detail st; cbn [attempts]; [by intros [= <- _]|].
  unfold mbind, rm_bind, stopped, observe at 1. destruct (env_stopped e _); [by intros [= <- _]|].
  unfold observe at 1. destruct (env_reply e _ batch) as [|c body] eqn:Er.
  - unfold observe. destruct (env_stopped e _); [by intros [= <- _]|apply IH].
  - pose proof (no_refusal _ _ _ _ Er) as Hno. unfold lift.
    destruct (classify_response c body) as [[]|]; cbn; try done; try (by intros [= <- _]).
    unfold observe. destruct (env_stopped e _); [by intros [= <- _]|apply IH].
Qed.

Lemma keeps_post {B} batch (f : Delivery * option Z * string -> RM B) :
  (forall r, (r.1.1 = D_PERMANENT -> letters_kept) -> keeps R (f r)) ->
  keeps R (post_batch scrub_text cfg e batch ≫= f).
Proof.
  intros Hf. apply (keeps_bind_val _ _ (fun r => r.1.1 = D_PERMANENT -> letters_kept));
    [apply keeps_attempts| |exact Hf].
  intros st r st' E Hp. destruct refusals as [Hno|Hk]; [|done].
  by destruct (attempts_never_permanent _ _ _ _ _ _ _ Hno E).
Qed.

Lemma keeps_parts fuel created work p : keeps R (parts_loop scrub_text cfg e fuel created work p).
Proof.
  revert work p. induction fuel as [|fuel IH]; intros [|part work] p; cbn [parts_loop]; auto with keeps.
  destruct p as [untried refused sent [why|] permanent]; [apply IH|].
  apply keeps_post. intros [[[] code] detail] Hk; cbn in Hk; [apply IH| | |apply IH].
  - destruct code; [|apply IH]. apply keeps_bind; [by apply Hk|]. intros []. apply IH.
  - destruct (_ <? _)%nat; apply IH.
Qed.

Lemma keeps_send_in_parts batch created : keeps R (send_in_parts scrub_text cfg e batch created).
Proof.
  unfold send_in_parts. destruct (_ =? _)%nat; [apply keeps_ret|].
  apply keeps_bind; [apply keeps_parts|]. intros p. destruct (bool_decide _); [apply keeps_ret|].
  destruct (_ ++ _); apply keeps_ret.
Qed.

Lemma keeps_with_disk {A} (m : RM A) : keeps R m -> keeps R (with_disk e m).
Proof. intros Hm. apply keeps_bind; [apply keeps_observe|]. intros []; [done|apply keeps_lift]. Qed.

Lemma keeps_delete id : keeps R (delete_stored_batch e id).
Proof. apply keeps_with_disk, keeps_modify. intros st. apply R_delete. Qed.

Lemma keeps_delete_rows ids : keeps R (delete_rows e ids).
Proof.
  induction ids as [|id ids IH]; cbn [delete_rows]; [apply keeps_ret|].
  apply keeps_bind; [apply keeps_delete|done].
Qed.

Lemma keeps_replay_single s : keeps R (replay_single scrub_text cfg e s).
Proof.
  unfold replay_single. apply keeps_post. intros [[[] code] detail] Hk; cbn in Hk.
  - apply keeps_bind; [apply keeps_delete|]. intros []. apply keeps_ret.
  - destruct code; [|apply keeps_ret]. apply keeps_bind; [by apply Hk|]. intros []. apply keeps_ret.
  - apply keeps_bind; [apply keeps_send_in_parts|]. intros [got unsent].
    apply keeps_bind; [|intros []; apply keeps_bind; [|intros []; apply keeps_ret]].
    + destruct unsent; [apply keeps_delete|]. destruct (same_results _ _); [apply keeps_ret|apply R_rewrite].
    + destruct (bool_decide _); [apply keeps_modify; intros st; apply R_held|apply keeps_ret].
  - destruct code; apply keeps_ret.
Qed.

Lemma keeps_replay_each group : keeps R (replay_each scrub_text cfg e group).
Proof.
  induction group as [|s group IH]; cbn [replay_each]; [apply keeps_ret|].
  apply keeps_bind; [apply keeps_observe|]. intros []; [apply keeps_ret|].
  apply keeps_bind; [apply keeps_replay_single|]. intros []; [apply IH|apply keeps_ret].
Qed.

Lemma keeps_replay_group group : keeps R (replay_group scrub_text cfg e group).
Proof.
  unfold replay_group. destruct group as [|s [|t group]]; [|apply keeps_replay_single|];
    apply keeps_post; intros [[[] code] detail] _;
    try (destruct code; first [apply keeps_ret|apply keeps_replay_each]);
    (apply keeps_bind; [apply keeps_delete_rows|intros; apply keeps_ret]).
Qed.

Lemma keeps_replay_from pending group size : keeps R (replay_from scrub_text cfg e pending group size).
Proof.
  revert group size. induction pending as [|s pending IH]; intros group size; cbn [replay_from].
  - destruct group; [apply keeps_ret|]. apply keeps_bind; [apply keeps_observe|].
    intros []; [apply keeps_ret|]. apply keeps_bind; [apply keeps_replay_group|]. intros ?. apply keeps_ret.
  - apply keeps_bind; [apply keeps_observe|]. intros []; [apply keeps_ret|].
    destruct group; [apply IH|]. destruct (_ <? _)%nat; [|apply IH].
    apply keeps_bind; [apply keeps_replay_group|]. intros []; [apply IH|apply keeps_ret].
Qed.

Lemma keeps_replay_pass : keeps R (replay_pass scrub_text cfg e).
Proof.
  unfold replay_pass. apply keeps_bind; [|intros []; [apply keeps_ret|apply keeps_replay_from]].
  unfold process_stored_reports. apply keeps_bind; [apply keeps_with_disk, keeps_get|]. intros st0.
  apply keeps_bind.
  - destruct (read_pending _ _); [destruct (rp_held st0)|]; try apply keeps_ret.
    apply keeps_bind; [|intros []; apply keeps_with_disk, keeps_get].
    apply keeps_modify. intros st. apply R_held.
  - intros st1. apply keeps_bind; [apply keeps_delete_rows|intros []; apply keeps_ret].
Qed.

(** *** A flush *)

Hypothesis R_batch : forall l st, R st (set_batch l st).
Hypothesis R_store : forall batch, keeps R (store_batch_to_db cfg e batch).

Lemma keeps_flush : keeps R (flush scrub_text cfg e).
Proof.
  unfold flush, send_batch, deliver. apply keeps_bind; [apply keeps_get|]. intros st0.
  destruct (rp_batch st0) as [|x l]; [apply keeps_ret|].
  apply keeps_bind; [apply keeps_modify; intros st; apply R_batch|]. intros [].
  apply keeps_bind; [|intros; apply keeps_ret].
  apply keeps_post. intros [[outcome code] detail] Hk; cbn in Hk.
  assert (Hrest : keeps R ('(outcome, unsent) ← (if bool_decide (outcome = D_TOO_LARGE)
      then send_in_parts scrub_text cfg e (x :: l) None else mret (outcome, x :: l));
    _ ← (match unsent with [] => mret tt | _ => store_batch_to_db cfg e unsent end); mret outcome)).
  { apply keeps_bind; [destruct (bool_decide _); [apply keeps_send_in_parts|apply keeps_ret]|].
    intros [o unsent]. apply keeps_bind; [|intros; apply keeps_ret].
    destruct unsent; [apply keeps_ret|apply R_store]. }
  destruct outcome; [apply keeps_ret| |exact Hrest|exact Hrest].
  destruct code; [|exact Hrest]. apply keeps_bind; [by apply Hk|]. intros []. apply keeps_ret.
Qed.
End Keeps.

(** ** What is dead-lettered *)

Section DeadLetters.
Context `{PyRuntime}.
Variable scrub_text : string -> string.
Variable cfg : settings.
Variable e : env.

(** Only the server's own refusal dead-letters: a replay pass during which
    no reply is a payload refusal (a 400 or 422 with the server's error
    envelope) leaves the dead letters and the losses as they were, however
    the pass ends. *)
Theorem only_a_refusal_dead_letters st r st' :
  never_refused e ->
  replay_pass scrub_text cfg e st = (r, st') ->
  rp_dead st' = rp_dead st /\ rp_lost st' = rp_lost st.
Proof.
  intros Hno E. set (R := fun a b : reporter => rp_dead b = rp_dead a /\ rp_lost b = rp_lost a).
  assert (HR : PreOrder R).
  { split; [by intros x|]. intros x y z [? ?] [? ?]. split; congruence. }
  assert (Hk : R st (replay_pass scrub_text cfg e st).2).
  { apply (keeps_replay_pass scrub_text cfg e R); try (by split).
    - intros id checks. apply keeps_with_disk; [done..|by intros st0|].
      apply keeps_modify. by split.
    - by left. }
  rewrite E in Hk. exact Hk.
Qed.
End DeadLetters.

(** ** The queue *)

Section Queue.
Context `{PyRuntime}.
Variable cfg : settings.

(** The queue keeps to its cap and drops only its oldest results: a queued
    result is fitted and goes last, what an overfull queue loses is a prefix,
    and the flush is signalled exactly when the batch size is reached. *)
Theorem queue_bounded r st st' :
  (2 <= max_queue_size cfg)%nat ->
  (length (rp_batch st) <= max_queue_size cfg)%nat ->
  add_result cfg r st = (Ok tt, st') ->
  (length (rp_batch st') <= max_queue_size cfg)%nat /\
  rp_lost st' ++ rp_batch st' = rp_lost st ++ rp_batch st ++ [fit_result r] /\
  rp_flush_event st' = (batch_size cfg <=? length (rp_batch st'))%nat || rp_flush_event st /\
  ((length (rp_batch st) < max_queue_size cfg)%nat -> rp_lost st' = rp_lost st).
Proof.
  intros H2 Hcap. unfold add_result, mbind, rm_bind, get.
  destruct (max_queue_size cfg <=? length (rp_batch st))%nat eqn:Efull.
  - apply Nat.leb_le in Efull. destruct (max_queue_size cfg - 1 =? 0)%nat eqn:Ek; [apply Nat.eqb_eq in Ek; lia|].
    unfold modify. cbn [rp_batch set_batch lose rp_lost]. set (cut := (_ - _)%nat).
    assert (Hlen : (length (drop cut (rp_batch st) ++ [fit_result r]) <= max_queue_size cfg)%nat).
    { rewrite length_app, length_drop. cbn. unfold cut. lia. }
    destruct (batch_size cfg <=? _)%nat eqn:Eb; intros [= <-]; cbn; (split; [done|]); split.
    1, 3: rewrite <- (take_drop cut (rp_batch st)) at 3; by rewrite <- !(assoc_L (++)).
    all: rewrite Eb; split; [done|lia].
  - unfold mret, rm_ret, modify. cbn [rp_batch set_batch]. apply Nat.leb_gt in Efull.
    assert (Hlen : (length (rp_batch st ++ [fit_result r]) <= max_queue_size cfg)%nat)
      by (rewrite length_app; cbn; lia).
    destruct (batch_size cfg <=? _)%nat eqn:Eb; intros [= <-]; cbn; (split; [done|]); (split; [done|]);
      by rewrite Eb.
Qed.

(** A cap of one is no cap: [current_batch[-0:]] is the whole list. *)
Theorem cap_of_one_never_drops r st st' :
  max_queue_size cfg = 1%nat ->
  add_result cfg r st = (Ok tt, st') ->
  rp_batch st' = rp_batch st ++ [fit_result r] /\ rp_lost st' = rp_lost st.
Proof.
  intros H1. unfold add_result, mbind, rm_bind, get. rewrite H1.
  destruct (1 <=? _)%nat; cbn; destruct (_ <=? _)%nat; intros [= <-]; cbn; by rewrite ?app_nil_r.
Qed.
End Queue.

(** ** The table of pending batches *)

Section Tables.
Variable cfg : settings.
Variable e : env.

Definition created_le (b c : pending_batch) : Prop := (pb_created_at b <= pb_created_at c)%Z.

Lemma insert_by_time_sorted b l :
  StronglySorted created_le l -> StronglySorted created_le (insert_by_time b l).
Proof.
  induction l as [|c l IH]; intros Hl; cbn; [by repeat constructor|].
  inversion_clear Hl as [|? ? Hl' Hc]. destruct (Z.ltb_spec (pb_created_at b) (pb_created_at c)).
  - constructor; [by constructor|]. constructor; [unfold created_le; lia|].
    eapply Forall_impl; [exact Hc|]. unfold created_le. intros; lia.
  - constructor; [by apply IH|]. rewrite insert_by_time_perm. constructor; [unfold created_le; lia|done].
Qed.

Lemma by_created_at_sorted l : StronglySorted created_le (by_created_at l).
Proof.
  unfold by_created_at. assert (Hn : StronglySorted created_le []) by constructor. revert Hn.
  generalize (@nil pending_batch). induction l as [|b l IH]; intros acc Hacc; cbn; [done|].
  by apply IH, insert_by_time_sorted.
Qed.

Lemma sorted_split k (l : list pending_batch) b c :
  StronglySorted created_le l -> b ∈ take k l -> c ∈ drop k l -> created_le b c.
Proof.
  revert k. induction l as [|x l IH]; intros [|k] Hl Hb Hc; cbn in *; try by apply elem_of_nil in Hb.
  inversion_clear Hl as [|? ? Hl' Hx]. apply elem_of_cons in Hb as [->|Hb]; [|by eapply IH].
  rewrite Forall_forall in Hx. apply Hx. rewrite <- (take_drop k l), elem_of_app. by right.
Qed.

Lemma delete_taken k (m : list pending_batch) :
  NoDup (map pb_id m) -> delete_pending (map pb_id (take k m)) m = drop k m.
Proof.
  intros Hnd. rewrite <- (take_drop k m) in Hnd. rewrite map_app in Hnd.
  apply NoDup_app in Hnd as (_ & Hdis & _). rewrite <- (take_drop k m) at 2.
  unfold delete_pending. rewrite filter_app.
  assert (Hnone : forall l : list pending_batch, (forall b, b ∈ l -> b ∈ take k m) ->
    filter (fun b => pb_id b ∉ map pb_id (take k m)) l = []).
  { intros l Hl. apply elem_of_nil_inv. intros b [Hb Hin]%list_elem_of_filter.
    by apply Hb, list_elem_of_fmap_2, Hl. }
  rewrite Hnone by done. cbn [app].
  assert (Hall : forall l : list pending_batch, (forall b, b ∈ l -> b ∈ drop k m) ->
    filter (fun b => pb_id b ∉ map pb_id (take k m)) l = l).
  { induction l as [|b l IH]; intros Hl; [done|]. rewrite filter_cons, decide_True.
    - rewrite IH; [done|]. intros c Hc. apply Hl. by right.
    - intros Hin. apply (Hdis _ Hin). apply list_elem_of_fmap_2, Hl. left. }
  by apply Hall.
Qed.

#[local] Instance pending_results_proper : Proper (Permutation ==> Permutation) pending_results.
Proof.
  intros l m Hp. unfold pending_results. induction Hp as [|b l m _ IH|b c l|l m q _ IH1 _ IH2]; cbn.
  - done.
  - by rewrite IH.
  - solve_Permutation.
  - by rewrite IH1.
Qed.

(** Deleting the oldest rows by their ids leaves the newest. *)
Lemma delete_oldest k l :
  NoDup (map pb_id l) -> delete_pending (oldest_ids k l) l ≡ₚ drop k (by_created_at l).
Proof.
  intros Hnd. assert (Hp : map pb_id (by_created_at l) ≡ₚ map pb_id l)
    by (apply Permutation_map, by_created_at_perm).
  rewrite <- (delete_taken k (by_created_at l)) by (by rewrite Hp).
  unfold delete_pending, oldest_ids. apply filter_Permutation. symmetry. apply by_created_at_perm.
Qed.

Lemma oldest_rows k l :
  NoDup (map pb_id l) ->
  filter (fun b => pb_id b ∈ oldest_ids k l) l ≡ₚ take k (by_created_at l).
Proof.
  intros Hnd. apply (Permutation_app_inv_l (drop k (by_created_at l))).
  rewrite (comm (++) _ (take _ _)), take_drop, <- (delete_oldest k l) by done. unfold delete_pending.
  rewrite by_created_at_perm. induction l as [|b l' IH] using rev_ind; [done|].
  clear IH. generalize (l' ++ [b]) as m. intros m. generalize (oldest_ids k m) as ids. intros ids.
  induction m as [|c m IH]; [done|]. rewrite !filter_cons.
  destruct (decide (pb_id c ∈ ids)).
  - rewrite decide_False by tauto. rewrite <- Permutation_middle. by constructor.
  - rewrite decide_True by done. cbn. by constructor.
Qed.

(** The table of pending batches keeps to its cap and drops its oldest: a
    batch stored with the storage working leaves the newest
    [max_stored_batches] rows, the rows dropped were created no later than
    any row kept, and their results are what is recorded as lost. *)
Theorem store_keeps_newest batch st st' :
  storage_ok cfg e ->
  NoDup (map pb_id (rp_pending st)) -> Forall (fun b => (pb_id b < rp_next_id st)%N) (rp_pending st) ->
  store_batch_to_db cfg e batch st = (Ok tt, st') ->
  exists created dropped,
    rp_pending st' ++ dropped ≡ₚ rp_pending st ++ [Pending (rp_next_id st) created (Some batch)] /\
    length (rp_pending st') = Nat.min (S (length (rp_pending st))) (max_stored_batches cfg) /\
    (forall b c, b ∈ dropped -> c ∈ rp_pending st' -> created_le b c) /\
    exists lost, rp_lost st' = rp_lost st ++ lost /\ lost ≡ₚ pending_results dropped.
Proof.
  intros [Hon Hdisk] Hnd Hfresh. unfold store_batch_to_db, mbind, rm_bind, observe. rewrite Hon. cbn [negb rp_tick tick].
  rewrite Hdisk. cbn [negb]. unfold modify. cbn [rp_tick tick next_id set_pending]. rewrite Hdisk. intros [= <-]. set (created := env_time e (rp_tick st)). set (row := Pending _ _ _).
  set (l := rp_pending st ++ [row]). set (k := (length l - max_stored_batches cfg)%nat).
  assert (Hids : NoDup (map pb_id l)).
  { unfold l. rewrite map_app. apply NoDup_app. split; [done|]. split; [|apply NoDup_singleton].
    intros x (b & -> & Hb)%list_elem_of_fmap Hx%list_elem_of_singleton. rewrite Forall_forall in Hfresh.
    specialize (Hfresh b). cbn in Hx. apply Hfresh in Hb. lia. }
  exists created, (take k (by_created_at l)).
  pose proof (delete_oldest k l Hids) as Hkept.
  change (rp_pending (prune_pending cfg _)) with (delete_pending (oldest_ids k l) l).
  split; [|split; [|split]].
  - rewrite Hkept, (comm (++)), take_drop. apply by_created_at_perm.
  - rewrite Hkept, length_drop, by_created_at_perm.
    assert (Hl : length l = S (length (rp_pending st))) by (unfold l; rewrite length_app; cbn; lia).
    unfold k. rewrite Hl. lia.
  - intros b c Hb Hc. rewrite Hkept in Hc. eapply sorted_split; [apply by_created_at_sorted|exact Hb|exact Hc].
  - eexists. split; [done|].
    change (pending_results (filter (fun b => pb_id b ∈ oldest_ids k l) l) ≡ₚ pending_results (take k (by_created_at l))).
    by rewrite oldest_rows.
Qed.
End Tables.

(** ** Results fitted to the server's limits *)

Lemma length_substring n : forall s, (String.length (String.substring 0 n s) <= n)%nat.
Proof. induction n as [|n IH]; intros [|c s]; cbn; try lia. specialize (IH s). lia. Qed.

Lemma length_append_string s t : String.length (s +:+ t) = (String.length s + String.length t)%nat.
Proof.
  induction s as [|c s IH]; [done|]. change (String c s +:+ t) with (String c (s +:+ t)).
  cbn [String.length Nat.add]. by rewrite IH.
Qed.

Lemma truncate_fits s limit :
  (String.length TRUNCATED_MARKER <= limit)%nat -> (String.length (truncate s limit) <= limit)%nat.
Proof.
  intros Hm. unfold truncate. destruct (Nat.leb_spec (String.length s) limit); [done|].
  rewrite length_append_string. pose proof (length_substring (limit - String.length TRUNCATED_MARKER) s). lia.
Qed.

Lemma truncate_field_get r k limit k' :
  assoc_get (truncate_field r k limit) k' =
  if decide (k' = k) then
    match assoc_get r k with Some (PStr s) => Some (PStr (truncate s limit)) | v => v end
  else assoc_get r k'.
Proof.
  unfold truncate_field. destruct (decide (k' = k)) as [->|Hne].
  - destruct (assoc_get r k) as [[]|] eqn:E; try done. by rewrite assoc_get_set, decide_True.
  - destruct (assoc_get r k) as [[]|] eqn:E; try done. by rewrite assoc_get_set, decide_False.
Qed.

Lemma fit_status_get r k :
  k <> "http_status_code" -> k <> "metrics" -> assoc_get (fit_status r) k = assoc_get r k.
Proof.
  intros H1 H2. unfold fit_status. destruct (assoc_get r "http_status_code") as [v|]; [|done].
  destruct (as_int (Some v)); [|done]. destruct (_ && _); [done|].
  by rewrite !assoc_get_set, !decide_False.
Qed.

Lemma as_int_None_or v z : as_int (Some v) = Some z -> v <> PNone.
Proof. by destruct v. Qed.

Lemma fit_status_range r v z :
  assoc_get (fit_status r) "http_status_code" = Some v -> as_int (Some v) = Some z -> (100 <= z <= 599)%Z.
Proof.
  unfold fit_status. destruct (assoc_get r "http_status_code") as [w|] eqn:E.
  2: { intros Hv. congruence. }
  destruct (as_int (Some w)) as [zw|] eqn:Ez.
  2: { intros Hv. rewrite E in Hv. injection Hv as <-. congruence. }
  destruct (_ && _) eqn:Er.
  - intros Hv Hz. assert (z = zw) as -> by congruence. apply andb_true_iff in Er as [?%Z.leb_le ?%Z.leb_le]. lia.
  - rewrite !assoc_get_set, decide_False, decide_True by done. by intros [= <-].
Qed.

(** The status a result carried is kept under its metrics. *)
Lemma fit_status_kept r v z :
  assoc_get r "http_status_code" = Some v -> as_int (Some v) = Some z -> ~ (100 <= z <= 599)%Z ->
  assoc_get (fit_status r) "http_status_code" = Some PNone /\
  exists m, assoc_get (fit_status r) "metrics" = Some (PDict m) /\
            assoc_get m "http_status_code_raw" = Some v.
Proof.
  intros E Ez Hr. unfold fit_status. rewrite E, Ez.
  destruct (_ && _) eqn:Eb.
  { apply andb_true_iff in Eb as [?%Z.leb_le ?%Z.leb_le]. lia. }
  rewrite !assoc_get_set. repeat (rewrite decide_False by done || rewrite decide_True by done).
  split; [done|]. eexists. split; [done|]. by rewrite assoc_get_set, decide_True.
Qed.

(** A fitted result is within what the server accepts: a textual error has
    at most 4000 characters and textual response data at most 65535, each
    otherwise unchanged when it already fits; a numeric status is in 100..599,
    and an odd one is kept under its metrics; no other field is touched. *)
Theorem fit_result_fits r :
  (forall s, assoc_get (fit_result r) "error" = Some (PStr s) ->
     (String.length s <= MAX_ERROR_CHARS)%nat) /\
  (forall s, assoc_get (fit_result r) "response_data" = Some (PStr s) ->
     (String.length s <= N.to_nat MAX_RESPONSE_DATA_CHARS)%nat) /\
  (forall v z, assoc_get (fit_result r) "http_status_code" = Some v -> as_int (Some v) = Some z ->
     (100 <= z <= 599)%Z) /\
  (forall v z, assoc_get r "http_status_code" = Some v -> as_int (Some v) = Some z ->
     ~ (100 <= z <= 599)%Z ->
     exists m, assoc_get (fit_result r) "metrics" = Some (PDict m) /\
               assoc_get m "http_status_code_raw" = Some v) /\
  (forall s, assoc_get r "error" = Some (PStr s) -> (String.length s <= MAX_ERROR_CHARS)%nat ->
     assoc_get (fit_result r) "error" = Some (PStr s)) /\
  (forall k, k ∉ ["error"; "response_data"; "http_status_code"; "metrics"] ->
     assoc_get (fit_result r) k = assoc_get r k).
Proof.
  assert (Hm1 : (String.length TRUNCATED_MARKER <= MAX_ERROR_CHARS)%nat) by (apply Nat.leb_le; vm_compute; done).
  assert (Hm2 : (String.length TRUNCATED_MARKER <= N.to_nat MAX_RESPONSE_DATA_CHARS)%nat).
  { unfold MAX_RESPONSE_DATA_CHARS. change (String.length TRUNCATED_MARKER) with (N.to_nat 15). lia. }
  unfold fit_result. split; [|split; [|split; [|split; [|split]]]].
  - intros s. rewrite fit_status_get, !truncate_field_get by done. cbn [decide].
    rewrite decide_False, decide_True by done. destruct (assoc_get r "error") as [[]|]; try done.
    intros [= <-]. by apply truncate_fits.
  - intros s. rewrite fit_status_get, !truncate_field_get by done.
    rewrite decide_True, decide_False by done.
    destruct (assoc_get r "response_data") as [[]|]; try done.
    intros [= <-]. by apply truncate_fits.
  - intros v z. apply fit_status_range.
  - intros v z E Ez Hr. eapply fit_status_kept; [|exact Ez|exact Hr].
    by rewrite !truncate_field_get, !decide_False.
  - intros s E Hs. rewrite fit_status_get, !truncate_field_get by done.
    rewrite decide_False, decide_True, E by done. unfold truncate. by rewrite (proj2 (Nat.leb_le _ _) Hs).
  - intros k Hk. rewrite fit_status_get by set_solver. rewrite !truncate_field_get, !decide_False by set_solver. done.
Qed.

(** ** Two ways a flush goes wrong *)

Section Flush.
Context `{PyRuntime}.
Variable scrub_text : string -> string.
Variable cfg : settings.
Variable e : env.

Lemma stopped_posts_nothing batch st :
  (forall t, env_stopped e t = true) ->
  exists n, post_batch scrub_text cfg e batch st = (Ok (D_TRANSIENT, None, ""), set_tick n st).
Proof.
  intros Hstop. unfold post_batch. destruct (max_retries cfg) as [|n]; cbn [attempts].
  - exists (rp_tick st). by destruct st.
  - unfold mbind, rm_bind, stopped, observe. rewrite Hstop. by exists (S (rp_tick st)).
Qed.

(** [stop] clears the running flag before its last flush, which so posts
    nothing; without local storage the whole queue is lost. *)
Theorem stopped_flush_posts_nothing st ok st' :
  (forall t, env_stopped e t = true) -> enable_local_storage cfg = false ->
  flush scrub_text cfg e st = (Ok ok, st') ->
  rp_taken st' = rp_taken st /\ rp_lost st' = rp_lost st ++ rp_batch st.
Proof.
  intros Hstop Hoff. unfold flush, mbind, rm_bind, get. destruct (rp_batch st) as [|x l] eqn:Eb.
  { intros [= _ <-]. by rewrite app_nil_r. }
  unfold modify, send_batch, deliver, mbind, rm_bind.
  destruct (stopped_posts_nothing (x :: l) (set_batch [] st) Hstop) as [n ->].
  unfold bool_decide. cbn. unfold store_batch_to_db. rewrite Hoff. cbn. by intros [= _ <-].
Qed.

(** A 400 or 422 whose JSON "error" is not a string raises TypeError out of the
    flush, after the queue was emptied: the batch is in no table. *)
Theorem unhashable_error_loses_batch code body envelope st :
  code ∈ PERMANENT_STATUSES -> json_loads body = Some (PDict envelope) ->
  hashable (dict_get envelope "error" PNone) = false ->
  (forall t batch, env_reply e t batch = Response code body) -> (forall t, env_stopped e t = false) ->
  (1 <= max_retries cfg)%nat -> rp_batch st <> [] ->
  exists st', flush scrub_text cfg e st = (Raise TypeError, st') /\
    rp_batch st' = [] /\ ledger st' = ledger st.
Proof.
  intros Hcode Hjson Hun Hrep Hrun Hret Hne.
  assert (Hc : classify_response code body = Raise TypeError).
  { unfold classify_response, is_payload_refusal. rewrite Hjson, Hun.
    apply elem_of_cons in Hcode as [->|Hcode]; [done|]. by apply list_elem_of_singleton in Hcode as ->. }
  unfold flush, mbind, rm_bind, get. destruct (rp_batch st) as [|x l]; [done|].
  unfold modify, send_batch, deliver, mbind, rm_bind, post_batch.
  destruct (max_retries cfg) as [|n]; [lia|]. cbn [attempts].
  unfold mbind, rm_bind, stopped, observe. cbn [rp_tick tick set_batch]. rewrite Hrun, Hrep.
  unfold lift. rewrite Hc. eexists. split; [done|]. by split.
Qed.
End Flush.

(** ** Witnesses *)

#[local] Existing Instance plain_runtime.

Lemma only_a_refusal_dead_letters_witness :
  exists st', replay_pass id demo_settings (demo_env picky) stored = (Ok tt, st') /\
    rp_dead st' = [] /\ rp_lost st' = [].
Proof.
  eexists. split; [vm_compute; reflexivity|].
  eapply (only_a_refusal_dead_letters id demo_settings (demo_env picky) stored (Ok tt)).
  - intros t batch code body E. unfold demo_env, picky in E. cbn [env_reply] in E.
    destruct (3 <=? length batch)%nat; injection E as <- <-; vm_compute; discriminate.
  - vm_compute. reflexivity.
Defined.

Lemma queue_bounded_witness :
  exists st', add_result demo_settings (plain_result 6) queued = (Ok tt, st') /\
    rp_lost st' = [plain_result 1] /\ (length (rp_batch st') <= 5)%nat.
Proof.
  eexists. split; [vm_compute; reflexivity|]. split; [reflexivity|].
  eapply (queue_bounded demo_settings (plain_result 6) queued).
  - cbn. lia.
  - cbn. lia.
  - vm_compute. reflexivity.
Defined.

Definition full_table : reporter :=
  Reporter [] false [Pending 1 0 None; Pending 2 1 None; Pending 3 2 (Some [plain_result 3])] [] 4 [] [] [] 5.

Lemma store_keeps_newest_witness :
  exists st', store_batch_to_db demo_settings (demo_env picky) [plain_result 4] full_table = (Ok tt, st') /\
    map pb_id (rp_pending st') = [2; 3; 4]%N /\ length (rp_pending st') = 3%nat.
Proof.
  eexists. split; [vm_compute; reflexivity|]. split; [reflexivity|].
  match goal with |- length (rp_pending ?s) = _ =>
    destruct (store_keeps_newest demo_settings (demo_env picky) [plain_result 4] full_table s)
      as (created & dropped & _ & H & _) end.
  - split; [reflexivity|intros; reflexivity].
  - vm_compute. repeat constructor; set_solver.
  - repeat constructor.
  - vm_compute. reflexivity.
  - exact H.
Defined.

Lemma fit_result_fits_witness :
  exists m, assoc_get (fit_result [("http_status_code", PInt 0)]) "metrics" = Some (PDict m) /\
            assoc_get m "http_status_code_raw" = Some (PInt 0).
Proof.
  eapply (fit_result_fits [("http_status_code", PInt 0)]).
  - reflexivity.
  - reflexivity.
  - lia.
Defined.
