(* ===== verification/ReporterRuns.v ===== *)
(** * The reporter: whole runs

    Results queued, flushed and replayed in any order: every one that was queued
    stays accounted for. *)

From S2P Require Import Prelude Py Text Store Fixtures Reporter ReporterTheorems ReporterLimits.

(** ** Row ids stay unique and fresh *)

Definition rows_ok (st : reporter) : Prop :=
  ids_unique st /\ forall b, b ∈ rp_pending st -> (pb_id b < rp_next_id st)%N.

Definition rows_kept (st st' : reporter) : Prop := rows_ok st -> rows_ok st'.

#[local] Instance rows_kept_preorder : PreOrder rows_kept.
Proof. split; [intros st Hst; exact Hst|]. intros x y z Hxy Hyz Hx. exact (Hyz (Hxy Hx)). Qed.

(** Removing rows and handing out an id keep them so. *)
Lemma rows_kept_sublist st st' :
  rp_pending st' `sublist_of` rp_pending st -> (rp_next_id st <= rp_next_id st')%N -> rows_kept st st'.
Proof.
  intros Hs Hn [Hu Hf]. split.
  - eapply sublist_NoDup; [exact Hu|]. by apply fmap_sublist.
  - intros b Hb. specialize (Hf b (elem_of_sublist _ _ _ Hb Hs)). lia.
Qed.

Lemma delete_pending_sublist ids l : delete_pending ids l `sublist_of` l.
Proof. apply sublist_filter. Qed.

(** A step that touches neither the rows nor the counter. *)
Ltac same_rows := let Hok := fresh in intros Hok; exact Hok.

Section Rows.
Context `{PyRuntime}.
Variable scrub_text : string -> string.
Variable cfg : settings.
Variable e : env.

Lemma rows_rewrite id checks : keeps rows_kept (rewrite_stored_batch e id checks).
Proof.
  intros st. unfold rewrite_stored_batch, with_disk, mbind, rm_bind, observe.
  destruct (env_disk_ok e _); [|same_rows]. intros [Hu Hf]. cbn. set (row := fun b => if bool_decide _ then _ else b).
  assert (Hid : forall b, pb_id (row b) = pb_id b) by (intros b; unfold row; by destruct (bool_decide _)).
  split; unfold ids_unique; cbn.
  - rewrite map_map, (map_ext _ _ Hid). exact Hu.
  - intros b Hb. apply list_elem_of_fmap in Hb as (b' & -> & Hb). rewrite Hid. by apply Hf.
Qed.

Lemma rows_store batch : keeps rows_kept (store_batch_to_db cfg e batch).
Proof.
  intros st. unfold store_batch_to_db. destruct (negb _); [same_rows|].
  unfold mbind, rm_bind, observe. cbn. destruct (negb _); [same_rows|]. cbn. intros Hok.
  assert (Hadd : rows_ok (tick (next_id (set_pending
            (rp_pending st ++ [Pending (rp_next_id st) (env_time e (rp_tick st)) (Some batch)]) (tick (tick st)))))).
  { destruct Hok as [Hu Hf]. split; unfold ids_unique; cbn.
    - rewrite map_app. apply NoDup_app. split; [exact Hu|]. split; [|apply NoDup_singleton].
      intros i (b & -> & Hb)%list_elem_of_fmap Hi%list_elem_of_singleton. specialize (Hf b Hb). cbn in Hi. lia.
    - intros b [Hb| ->%list_elem_of_singleton]%elem_of_app; [|cbn; lia]. specialize (Hf b Hb). lia. }
  destruct (env_disk_ok e _); [|exact Hadd].
  revert Hadd. apply rows_kept_sublist; [apply delete_pending_sublist|cbn; lia].
Qed.

Lemma rows_letters : letters_kept cfg e rows_kept.
Proof.
  split.
  - intros batch code detail created st. unfold dead_letter_batch. destruct (negb _); [same_rows|].
    unfold mbind, rm_bind, observe. cbn. destruct (negb _); [same_rows|].
    apply rows_kept_sublist; cbn; [done|lia].
  - intros id code detail st. unfold move_to_dead_letters, with_disk, mbind, rm_bind, observe.
    destruct (env_disk_ok e _); [|same_rows]. cbn. destruct (head _) as [b|]; [|same_rows].
    apply rows_kept_sublist; cbn; [apply delete_pending_sublist|lia].
Qed.

Lemma rows_replay : keeps rows_kept (replay_pass scrub_text cfg e).
Proof.
  apply keeps_replay_pass; try (intros; same_rows); [apply _|..].
  - intros ids st. apply rows_kept_sublist; [apply delete_pending_sublist|done].
  - apply rows_rewrite.
  - right. apply rows_letters.
Qed.

Lemma rows_flush : keeps rows_kept (flush scrub_text cfg e).
Proof.
  apply keeps_flush; try (intros; same_rows); [apply _|..].
  - right. apply rows_letters.
  - apply rows_store.
Qed.
End Rows.

(** ** Runs *)

Section Runs.
Context `{PyRuntime}.
Variable scrub_text : string -> string.
Variable cfg : settings.
Variable e : env.

(** One operation of the reporter, with the results queued so far. *)
Inductive reporter_step : reporter * list result -> reporter * list result -> Prop :=
  | step_add r outcome st st' added :
      add_result cfg r st = (outcome, st') -> reporter_step (st, added) (st', added ++ [fit_result r])
  | step_flush outcome st st' added :
      flush scrub_text cfg e st = (outcome, st') -> reporter_step (st, added) (st', added)
  | step_replay outcome st st' added :
      replay_pass scrub_text cfg e st = (outcome, st') -> reporter_step (st, added) (st', added).

(** Queued, or somewhere in the ledger. *)
Definition whereabouts (st : reporter) : list result := rp_batch st ++ ledger st.

Lemma add_result_whereabouts r outcome st st' :
  add_result cfg r st = (outcome, st') ->
  whereabouts st' ≡ₚ whereabouts st ++ [fit_result r] /\ rows_kept st st'.
Proof.
  unfold add_result, mbind, rm_bind, get, whereabouts.
  destruct (max_queue_size cfg <=? _)%nat; unfold mret, rm_ret, modify; cbn [rp_batch set_batch lose].
  - match goal with |- context [take ?c _] => set (cut := c) end.
    assert (Hsplit : take cut (rp_batch st) ++ drop cut (rp_batch st) = rp_batch st) by apply take_drop.
    destruct (batch_size cfg <=? _)%nat; intros [= _ <-]; (split; [|same_rows]);
      unfold ledger; cbn; rewrite <- Hsplit at 3; solve_Permutation.
  - destruct (batch_size cfg <=? _)%nat; intros [= _ <-]; (split; [|same_rows]); ledger.
Qed.

Lemma flush_whereabouts outcome st st' :
  readable_replies e -> flush scrub_text cfg e st = (outcome, st') -> whereabouts st' ≡ₚ whereabouts st.
Proof.
  intros Hread E. destruct (ends_ok _ st (ends_flush scrub_text cfg e _ Hread)) as (ok & st1 & E1).
  rewrite E1 in E. injection E as <- <-.
  destruct (wp_elim _ _ _ _ _ (flush_spec scrub_text cfg e st) E1) as (Hb & Hl & _).
  unfold whereabouts. rewrite Hb, Hl. solve_Permutation.
Qed.

Lemma replay_whereabouts outcome st st' :
  rows_ok st -> replay_pass scrub_text cfg e st = (outcome, st') ->
  exists again, whereabouts st' ≡ₚ whereabouts st ++ again /\ (outcome = Ok tt -> again = []).
Proof.
  intros [Hu _] E. pose proof (replay_pass_spec scrub_text cfg e st Hu) as Hs. unfold wpx in Hs. rewrite E in Hs.
  unfold whereabouts. destruct outcome as [[]|x].
  - destruct Hs as (Hl & Hb & _). exists []. by rewrite Hb, Hl, app_nil_r.
  - destruct Hs as ([again Ha] & Hb & _). exists again. split; [|done]. rewrite Hb, Ha. solve_Permutation.
Qed.

Lemma step_accounts st added st' added' :
  readable_replies e -> rows_ok st -> reporter_step (st, added) (st', added') ->
  rows_ok st' /\ exists more again, added' = added ++ more /\
    whereabouts st' ≡ₚ whereabouts st ++ more ++ again /\ (disk_works e -> again = []).
Proof.
  intros Hread Hok Hstep. inversion Hstep; subst.
  - match goal with H : add_result _ _ _ = _ |- _ => apply add_result_whereabouts in H as [Hw Hk] end.
    split; [by apply Hk|]. exists [fit_result r], []. by rewrite app_nil_r.
  - match goal with H : flush _ _ _ _ = _ |- _ => rename H into E end. split.
    + change st' with (outcome, st').2. rewrite <- E. by apply rows_flush.
    + exists [], []. rewrite !app_nil_r. split; [done|]. split; [by eapply flush_whereabouts|done].
  - match goal with H : replay_pass _ _ _ _ = _ |- _ => rename H into E end. split.
    + change st' with (outcome, st').2. rewrite <- E. by apply rows_replay.
    + destruct (replay_whereabouts outcome st st' Hok E) as (again & Hw & Hag).
      exists [], again. rewrite app_nil_r. split; [done|]. split; [done|]. intros Hdisk.
      apply Hag. by eapply replay_completes.
Qed.

(** C2: As long as the replies can be read (a JSON error envelope whose "error"
    is a list or an object cannot), and from tables whose row ids are unique and
    below the counter: along any sequence of queueing, flushing and replaying,
    every result that was ever queued is still accounted for: in the queue, taken
    by the server, stored for replay, dead-lettered, or counted as lost; and
    while the disk works, exactly once. *)
Theorem every_result_accounted st added st' added' :
  readable_replies e -> rows_ok st -> star reporter_step (st, added) (st', added') ->
  exists more again, added' = added ++ more /\
    whereabouts st' ≡ₚ whereabouts st ++ more ++ again /\ (disk_works e -> again = []).
Proof.
  intros Hread Hok Hstar.
  pose (P := fun x : reporter * list result => rows_ok x.1 /\ exists more again, x.2 = added ++ more /\
    whereabouts x.1 ≡ₚ whereabouts st ++ more ++ again /\ (disk_works e -> again = [])).
  apply (star_invariant reporter_step P (st, added) (st', added')); [|exact Hstar|].
  - intros [s1 a1] [s2 a2] Hstep [Hok1 (more & again & Ea & Hw & Hag)]. cbn [fst snd] in *.
    destruct (step_accounts _ _ _ _ Hread Hok1 Hstep) as [Hok2 (more' & again' & -> & Hw' & Hag')].
    split; [done|]. exists (more ++ more'), (again ++ again'). cbn [fst snd]. split; [by rewrite Ea, (assoc_L (++))|].
    split; [rewrite Hw', Hw; solve_Permutation|]. intros Hd. by rewrite Hag, Hag'.
  - split; [done|]. exists [], []. cbn. by rewrite !app_nil_r.
Qed.
End Runs.

(** ** Witnesses *)

#[local] Existing Instance plain_runtime.

(** Two results queued and flushed to a server that takes two at a time, one
    more queued, and a pass over the stored rows, the disk failing in it. *)
Definition late_failure : env :=
  {| env_reply := picky; env_stopped := fun _ => false; env_disk_ok := fun t => (t <? 12)%nat;
     env_time := fun t => Z.of_nat t |}.
Definition after_adds : reporter :=
  (add_result demo_settings (plain_result 8) (add_result demo_settings (plain_result 7) stored).2).2.
Definition after_flush : reporter := (flush id demo_settings late_failure after_adds).2.
Definition after_pass : reporter := (replay_pass id demo_settings late_failure after_flush).2.

Lemma every_result_accounted_witness :
  rp_batch after_pass = [] /\ map pb_id (rp_pending after_pass) = [1; 2]%N /\
  exists again, whereabouts after_pass ≡ₚ whereabouts stored ++ map plain_result [7; 8]%Z ++ again.
Proof.
  split; [vm_compute; reflexivity|]. split; [vm_compute; reflexivity|].
  assert (Hrun : star (reporter_step id demo_settings late_failure) (stored, [])
            (after_pass, ([] ++ [fit_result (plain_result 7)]) ++ [fit_result (plain_result 8)])).
  { eapply star_step; [eapply step_add, surjective_pairing|].
    eapply star_step; [eapply step_add, surjective_pairing|].
    eapply star_step; [eapply step_flush, surjective_pairing|].
    apply star_one. eapply step_replay, surjective_pairing. }
  destruct (every_result_accounted id demo_settings late_failure stored [] after_pass
    (([] ++ [fit_result (plain_result 7)]) ++ [fit_result (plain_result 8)])) as (more & again & E & Hw & _);
    [| |exact Hrun|].
  - intros t batch code body x. exact (proj1 demo_readable t batch code body x).
  - split; [vm_compute; repeat constructor; set_solver|]. intros b Hb. vm_compute in Hb.
    apply list_elem_of_In in Hb. cbn in Hb. destruct Hb as [<-|[<-|[<-|[]]]]; reflexivity.
  - vm_compute in E. subst more. exists again. exact Hw.
Defined.
