(* ===== verification/Liveness.v ===== *)
(** * When a check or an agent counts as silent

    apps/backend/app/core/liveness.py: the one rule shared by the silence
    alerts and the distribute failover.  Durations are microseconds. *)

From S2P Require Import Prelude Py Store.

(** [settings.server.default_heartbeat_interval] (core/config.py): at least 1. *)
Class ServerSettings := { default_heartbeat_interval : Z }.
Class ServerSettingsLaws `{ServerSettings} : Prop := {
  default_heartbeat_positive : (1 <= default_heartbeat_interval <= 600)%Z
}.

Definition DEFAULT_CHECK_INTERVAL_SECONDS : Z := 60.
Definition DEFAULT_MISSED_INTERVALS : Z := 3.
Definition MAX_MISSED_INTERVALS : Z := 100.
Definition GRACE_SECONDS : Z := 60.

(** [v or d] on an optional int: unset and 0 both fall back. *)
Definition int_or (v : option Z) (d : Z) : Z :=
  match v with Some z => if (z =? 0)%Z then d else z | None => d end.

Definition silent_after (interval_seconds : option Z) (missed_intervals : Z) : Z :=
  let interval := int_or interval_seconds DEFAULT_CHECK_INTERVAL_SECONDS in
  ((interval * missed_intervals + GRACE_SECONDS) * us_per_second)%Z.

Section Liveness.
Context `{ServerSettings}.

Definition heartbeat_interval (a : agent) : Z :=
  int_or (ag_heartbeat_interval a) default_heartbeat_interval.

(** [agent.last_seen or agent.created_at] *)
Definition last_contact (a : agent) : instant := default (ag_created_at a) (ag_last_seen a).

Definition offline_at (a : agent) (missed : Z) : instant :=
  (last_contact a + silent_after (Some (heartbeat_interval a)) missed)%Z.

Definition agent_offline (a : agent) (now : instant) (missed : Z) : bool :=
  (offline_at a missed <? now)%Z.

Definition is_OFFLINE (a : agent) : bool := bool_decide (ag_status a = Some OFFLINE).

Definition handed_off (a : agent) (now : instant) : bool :=
  is_OFFLINE a || agent_offline a now DEFAULT_MISSED_INTERVALS.

Definition handed_off_at (a : agent) : instant :=
  if is_OFFLINE a then last_contact a else offline_at a DEFAULT_MISSED_INTERVALS.

(** Once handed off, the hand-off is in the past. *)
Lemma handed_off_at_past a now :
  (last_contact a <= now)%Z -> handed_off a now = true -> (handed_off_at a <= now)%Z.
Proof.
  unfold handed_off, handed_off_at, agent_offline. destruct (is_OFFLINE a); cbn; [done|].
  rewrite Z.ltb_lt. lia.
Qed.

Lemma heartbeat_interval_positive `{!ServerSettingsLaws} a :
  (forall i, ag_heartbeat_interval a = Some i -> (0 <= i)%Z) -> (1 <= heartbeat_interval a)%Z.
Proof.
  intros Hi. unfold heartbeat_interval, int_or. pose proof default_heartbeat_positive.
  destruct (ag_heartbeat_interval a) as [i|]; [|lia]. pose proof (Hi i eq_refl).
  destruct (Z.eqb_spec i 0); lia.
Qed.

(** No later heartbeat than [t], no sooner offline. *)
Lemma agent_offline_mono a now now' missed :
  (now <= now')%Z -> agent_offline a now missed = true -> agent_offline a now' missed = true.
Proof. unfold agent_offline. rewrite !Z.ltb_lt. lia. Qed.
End Liveness.

(** The settings a fresh installation has. *)
Definition default_settings : ServerSettings := {| default_heartbeat_interval := 5 |}.

Lemma default_settings_laws : @ServerSettingsLaws default_settings.
Proof. by split. Qed.
