(* ===== verification/Assignment.v ===== *)
(** * Which agent runs which check

    [AgentAssignmentCoreService]
    (apps/backend/app/services/core/agent_assignment_core_service.py): manual,
    replicate and distribute placement.  A distributed check is owned by the
    highest rendezvous score (SHA-256 of the two ids) among the online agents of
    its pool.  The selector is the JSON the column holds, so matching it may
    raise.  [now] is the clock one call reads. *)

From S2P Require Import Prelude Py Text Store Liveness.

Definition SYNTHETIC : string := "synthetic".

(** ** Rendezvous scores

    Python compares the tuples [(int, str)] lexicographically. *)

Abbreviation score := (N * string)%type.

Definition score_le (a b : score) : Prop :=
  (a.1 < b.1)%N \/ a.1 = b.1 /\ String.le a.2 b.2.

#[global] Instance score_le_dec a b : Decision (score_le a b).
Proof. unfold score_le. apply _. Defined.

#[global] Instance score_le_total : Total score_le.
Proof.
  intros [m s] [n t]. unfold score_le. cbn. destruct (N.lt_trichotomy m n) as [?|[->|?]]; [tauto| |tauto].
  destruct (total String.le s t); tauto.
Qed.

#[global] Instance score_le_trans : Transitive score_le.
Proof.
  intros [m s] [n t] [o u]. unfold score_le. cbn. intros [?|[-> Hs]] [?|[-> Ht]]; try (left; lia).
  right. split; [done|]. by etrans.
Qed.

#[global] Instance score_le_refl : Reflexive score_le.
Proof. intros [m s]. right. by split. Qed.

Lemma score_le_antisymm a b : score_le a b -> score_le b a -> a = b.
Proof.
  destruct a as [m s], b as [n t]. unfold score_le. cbn. intros [?|[-> Hs]] [?|[He Ht]]; try lia.
  f_equal. by apply (anti_symm String.le).
Qed.

Definition score_gt (a b : score) : bool := negb (bool_decide (score_le a b)).

Lemma score_gt_le a b : score_gt a b = true -> score_le b a.
Proof.
  unfold score_gt. destruct (decide (score_le a b)) as [?|Hn]; [by rewrite bool_decide_eq_true_2|].
  intros _. by destruct (total score_le a b).
Qed.

Lemma score_gt_false a b : score_gt a b = false -> score_le a b.
Proof. unfold score_gt. intros ?%negb_false_iff. by apply bool_decide_eq_true in H. Qed.

Section Assignment.
Context `{PyRuntime} `{ServerSettings}.

(** ** Selectors *)

Definition agent_tags (a : agent) : list string :=
  filter (fun t => t <> "") (map strip (default [] (ag_tags a))).

Definition no_tags (a : agent) : bool :=
  match ag_tags a with None | Some [] => true | _ => false end.

Definition is_tag_of (tags : list string) (v : pyval) : bool :=
  match v with PStr s => bool_decide (s ∈ tags) | _ => false end.

Definition agent_matches_selector (a : agent) (selector : option pydict) : res bool :=
  match selector with
  | None | Some [] => Ok false
  | Some sel =>
      match assoc_get sel "agent_ids" with
      | Some ids =>
          match ag_name a with Some name => py_in name ids | None => py_none_in ids end
      | None =>
          match assoc_get sel "tags" with
          | Some tags =>
              if no_tags a then Ok false
              else
                items ← py_iter tags;
                required_tags ← py_set items;
                let match_mode := dict_get sel "match_mode" (PStr "all") in
                Ok (if py_eqb match_mode (PStr "any")
                    then existsb (is_tag_of (agent_tags a)) required_tags
                    else forallb (is_tag_of (agent_tags a)) required_tags)
          | None => Ok false
          end
      end
  end.

Definition filter_agents_by_selector (agents : list agent) (selector : option pydict)
    : res (list agent) :=
  match selector with
  | None | Some [] => Ok []
  | _ => filter_res (fun a => agent_matches_selector a selector) agents
  end.

(** ** Rendezvous hashing *)

Definition hrw_score (c : check) (a : agent) : score :=
  (hex_int (sha256_hex (uuid_str (ck_id c) +:+ ":" +:+ uuid_str (ag_id a))), uuid_str (ag_id a)).

(** [max(agents, key=...)]: the first of the highest. *)
Definition max_score (c : check) (m a : agent) : agent :=
  if score_gt (hrw_score c a) (hrw_score c m) then a else m.

Definition get_assigned_agent_for_check (c : check) (available : list agent) : option agent :=
  match available with
  | [] => None
  | a :: rest => Some (fold_left (max_score c) rest a)
  end.

Definition online (pool : list agent) (now : instant) : list agent :=
  filter (fun a => handed_off a now = false) pool.

Definition distribute_owner (c : check) (pool : list agent) (now : instant) : option agent :=
  get_assigned_agent_for_check c (match online pool now with [] => pool | up => up end).

Definition handed_over_at (c : check) (pool : list agent) (now : instant) : option instant :=
  match distribute_owner c pool now with
  | None => None
  | Some owner =>
      let above := filter (fun a => score_gt (hrw_score c a) (hrw_score c owner) = true) pool in
      newest (map handed_off_at above)
  end.

(** ** Placement *)

(** [AgentCRUD.list_active] *)
Definition list_active (d : db) : list agent :=
  filter (fun a => ag_approval a = ACTIVE) (rows (db_agents d)).

(** [CheckCRUD.list_assignment_candidates] *)
Definition list_assignment_candidates (d : db) (agent_id : uuid) : list check :=
  filter (fun c => ck_mode c = MANUAL /\ ck_agent_id c = agent_id \/
                   ck_mode c = REPLICATE \/ ck_mode c = DISTRIBUTE) (rows (db_checks d)).

(** [CheckCRUD.list_enabled] *)
Definition list_enabled (d : db) : list check :=
  filter (fun c => ck_enabled c = true) (rows (db_checks d)).

(** The body of the loop of [_checks_for_agent]: whether a candidate is kept. *)
Definition placed_on (d : db) (now : instant) (a : agent) (owned_only : bool) (c : check)
    : res bool :=
  match ck_mode c with
  | MANUAL => Ok (bool_decide (ck_agent_id c = ag_id a))
  | REPLICATE => agent_matches_selector a (ck_selector c)
  | DISTRIBUTE =>
      matches ← agent_matches_selector a (ck_selector c);
      if negb matches then Ok false
      else
        pool ← filter_agents_by_selector (list_active d) (ck_selector c);
        if negb owned_only then Ok (existsb (fun m => bool_decide (ag_id m = ag_id a)) pool)
        else Ok (match distribute_owner c pool now with
                 | Some owner => bool_decide (ag_id owner = ag_id a)
                 | None => false
                 end)
  end.

Definition checks_for_agent (d : db) (now : instant) (a : agent) (owned_only : bool)
    : res (list check) :=
  filter_res (placed_on d now a owned_only) (list_assignment_candidates d (ag_id a)).

Definition get_checks_for_agent (d : db) (now : instant) (a : agent) : res (list check) :=
  checks_for_agent d now a true.

Definition get_reportable_checks (d : db) (now : instant) (a : agent) : res (list check) :=
  checks_for_agent d now a false.

Definition may_report_for_check (d : db) (now : instant) (agent_id check_id : uuid) : res bool :=
  match db_agents d !! agent_id with
  | None => Raise NotFoundException
  | Some a =>
      checks ← get_reportable_checks d now a;
      Ok (existsb (fun c => bool_decide (ck_id c = check_id)) checks)
  end.

Definition synthetic_reaches (a : agent) (c : check) : res bool :=
  if negb (String.eqb (ck_type c) SYNTHETIC) then Ok false
  else if bool_decide (ck_mode c = MANUAL) then Ok (bool_decide (ck_agent_id c = ag_id a))
  else agent_matches_selector a (ck_selector c).

Definition synthetic_checks_reaching (d : db) (a : agent) : res (gset uuid) :=
  checks ← filter_res (synthetic_reaches a) (list_assignment_candidates d (ag_id a));
  Ok (list_to_set (map ck_id checks)).

(** [sorted(...)] of strings *)
Definition sort_strings (l : list string) : list string := merge_sort String.le l.

(** The text [config_version] digests. *)
Definition config_text (a : agent) (checks : list check) : string :=
  let stamp := match ag_checks_updated_at a with Some t => isoformat t | None => "" end in
  let ids := join "," (sort_strings (map (fun c => uuid_str (ck_id c)) checks)) in
  stamp +:+ "|" +:+ ids.

Definition config_version (d : db) (now : instant) (a : agent) : res string :=
  checks ← get_checks_for_agent d now a;
  Ok (String.substring 0 32 (sha256_hex (config_text a checks))).

(** [by_id.get(id)], [by_id] built from a list: the last agent with the id. *)
Definition agent_by_id (agents : list agent) (id : uuid) : option agent :=
  last (filter (fun a => ag_id a = id) agents).

(** The body of the loop of [assigned_agents_by_check]. *)
Definition assigned_agents (active : list agent) (now : instant) (c : check)
    : res (check * list agent * list agent) :=
  match ck_mode c with
  | MANUAL =>
      let agents := match agent_by_id active (ck_agent_id c) with Some o => [o] | None => [] end in
      Ok (c, agents, agents)
  | REPLICATE =>
      agents ← filter_agents_by_selector active (ck_selector c);
      Ok (c, agents, agents)
  | DISTRIBUTE =>
      pool ← filter_agents_by_selector active (ck_selector c);
      Ok (c, match distribute_owner c pool now with Some chosen => [chosen] | None => [] end, pool)
  end.

Definition assigned_agents_by_check (d : db) (now : instant)
    : res (list (check * list agent * list agent)) :=
  map_res (assigned_agents (list_active d) now) (list_enabled d).
End Assignment.

#[global] Arguments agent_matches_selector : simpl never.
#[global] Arguments hrw_score : simpl never.
