(* ===== verification/AssignmentTheorems.v ===== *)
(** * Check assignment: lemmas and properties

    Rendezvous hashing picks one owner, moves as little as possible, fails over
    and takes back; the two readings of the placement rules agree. *)

From S2P Require Import Prelude Py Text Store Notify Fixtures Liveness Assignment.

Section Rendezvous.
Context `{PyRuntime} `{ServerSettings}.

(** Agents told apart by their ids. *)
Definition distinct_agents (l : list agent) : Prop :=
  (forall a, a ∈ l -> (ag_id a < uuid_bound)%N) /\
  (forall a b, a ∈ l -> b ∈ l -> ag_id a = ag_id b -> a = b).

Lemma distinct_agents_subset l l' : l ⊆ l' -> distinct_agents l' -> distinct_agents l.
Proof. intros Hs [H1 H2]. split; intros; [by apply H1, Hs|apply H2; auto]. Qed.

Definition first_choice (c : check) (l : list agent) (m : agent) : Prop :=
  m ∈ l /\ forall x, x ∈ l -> score_le (hrw_score c x) (hrw_score c m).

Lemma fold_max_score c l m :
  first_choice c (m :: l) (fold_left (max_score c) l m).
Proof.
  revert m. induction l as [|x l IH]; intros m; cbn.
  { split; [left|]. intros y [->|[]%elem_of_nil]%elem_of_cons. reflexivity. }
  destruct (IH (max_score c m x)) as [Hin Hmax]. unfold max_score in *.
  destruct (score_gt _ _) eqn:E.
  - split; [by right|]. intros y [->|Hy]%elem_of_cons; [|by apply Hmax].
    etrans; [by apply score_gt_le|]. apply Hmax. left.
  - apply elem_of_cons in Hin. split; [rewrite !elem_of_cons; tauto|].
    intros y [->|[->|Hy]%elem_of_cons]%elem_of_cons; [apply Hmax; left| |apply Hmax; by right].
    etrans; [by apply score_gt_false|]. apply Hmax. left.
Qed.

Lemma hrw_score_agent c m m' :
  hrw_score c m = hrw_score c m' -> uuid_str (ag_id m) = uuid_str (ag_id m').
Proof. intros E. exact (f_equal snd E). Qed.

Lemma first_choice_unique c l m m' :
  distinct_agents l -> first_choice c l m -> first_choice c l m' -> m = m'.
Proof.
  intros [Hr Hd] [Hm Hmax] [Hm' Hmax']. apply Hd; [done..|].
  assert (E : hrw_score c m = hrw_score c m') by (apply score_le_antisymm; [by apply Hmax'|by apply Hmax]).
  apply hrw_score_agent in E. apply (uuid_str_inj _ _ (Hr _ Hm) (Hr _ Hm') E).
Qed.

Lemma assigned_first_choice c l m :
  distinct_agents l -> get_assigned_agent_for_check c l = Some m <-> first_choice c l m.
Proof.
  intros Hd. destruct l as [|a l].
  - split; [done|]. by intros [?%elem_of_nil _].
  - cbn. pose proof (fold_max_score c l a) as Hf. split; [by intros [= <-]|].
    intros Hm. f_equal. exact (first_choice_unique c _ _ _ Hd Hf Hm).
Qed.

Definition candidates (pool : list agent) (now : instant) : list agent :=
  match online pool now with [] => pool | up => up end.

Lemma candidates_subset pool now : candidates pool now ⊆ pool.
Proof.
  unfold candidates, online. intros x Hx. destruct (filter _ pool) as [|y ys] eqn:E; [done|].
  rewrite <- E in Hx. by apply list_elem_of_filter in Hx as [_ ?].
Qed.

Lemma candidates_online pool now a :
  online pool now <> [] -> a ∈ candidates pool now <-> a ∈ pool /\ handed_off a now = false.
Proof.
  unfold candidates. intros Hne. destruct (online pool now) as [|y ys] eqn:E; [done|].
  rewrite <- E. unfold online. rewrite list_elem_of_filter. tauto.
Qed.

Lemma owner_first_choice c pool now o :
  distinct_agents pool ->
  distribute_owner c pool now = Some o <-> first_choice c (candidates pool now) o.
Proof.
  intros Hd. apply assigned_first_choice. eapply distinct_agents_subset; [|done].
  apply candidates_subset.
Qed.

Lemma owner_in_pool c pool now o : distribute_owner c pool now = Some o -> o ∈ pool.
Proof.
  unfold distribute_owner. fold (candidates pool now). intros Ho.
  apply (candidates_subset pool now). destruct (candidates pool now) as [|a l]; [done|].
  cbn in Ho. injection Ho as <-. apply fold_max_score.
Qed.

(** A distributed check has an owner exactly when its pool has an agent;
    the owner is one of the pool, and is online whenever any agent of the pool
    is. *)
Theorem owner_exists c pool now :
  match distribute_owner c pool now with
  | Some o => o ∈ pool /\ (handed_off o now = false <-> exists a, a ∈ pool /\ handed_off a now = false)
  | None => pool = []
  end.
Proof.
  destruct (distribute_owner c pool now) as [o|] eqn:Ho.
  - pose proof (owner_in_pool _ _ _ _ Ho) as Hin. split; [done|]. split; [by eauto|].
    intros (a & Ha & Hup). unfold distribute_owner in Ho. fold (candidates pool now) in Ho.
    assert (Hne : online pool now <> []).
    { intros E. assert (a ∈ online pool now) as Hx by (unfold online; by apply list_elem_of_filter).
      rewrite E in Hx. by apply elem_of_nil in Hx. }
    apply (candidates_online pool now o Hne). destruct (candidates pool now) as [|x l]; [done|].
    cbn in Ho. injection Ho as <-. apply fold_max_score.
  - unfold distribute_owner in Ho. destruct (online pool now) eqn:E; [|done].
    by destruct pool.
Qed.

(** Rendezvous hashing moves as little as possible: between two pools
    with an agent online, an owner that stays in the pool keeps the check, or
    loses it to an agent that joined. *)
Theorem minimal_movement c pool pool' now o o' :
  distinct_agents (pool ++ pool') ->
  online pool now <> [] -> online pool' now <> [] ->
  distribute_owner c pool now = Some o -> distribute_owner c pool' now = Some o' ->
  o ∈ pool' -> o' = o \/ o' ∉ pool.
Proof.
  intros Hd Hne Hne' Ho Ho' Hin.
  assert (Hp : distinct_agents pool) by (eapply distinct_agents_subset, Hd; set_solver).
  assert (Hp' : distinct_agents pool') by (eapply distinct_agents_subset, Hd; set_solver).
  apply owner_first_choice in Ho as [Ho Hmax]; [|done].
  apply owner_first_choice in Ho' as [Ho' Hmax']; [|done].
  destruct (decide (o' ∈ pool)) as [Hin'|]; [left|by right].
  apply candidates_online in Ho as [Hop Hup]; [|done].
  apply candidates_online in Ho' as [Hop' Hup']; [|done].
  apply (first_choice_unique c [o; o']).
  - eapply distinct_agents_subset, Hd. intros x. rewrite !elem_of_cons, elem_of_nil, elem_of_app.
    intros [->|[->|[]]]; auto.
  - split; [right; left|]. intros x. rewrite !elem_of_cons, elem_of_nil. intros [->|[->|[]]]; [|done].
    apply Hmax'. by apply candidates_online.
  - split; [left|]. intros x. rewrite !elem_of_cons, elem_of_nil. intros [->|[->|[]]]; [done|].
    apply Hmax. by apply candidates_online.
Qed.

(** Failover: as time passes with no heartbeat, while some agent of the
    pool is online, the check leaves its owner exactly when that owner is
    handed off. *)
Theorem failover c pool now now' o :
  distinct_agents pool -> (now <= now')%Z ->
  distribute_owner c pool now = Some o -> handed_off o now = false ->
  online pool now' <> [] ->
  distribute_owner c pool now' = Some o <-> handed_off o now' = false.
Proof.
  intros Hd Hle Ho Hup Hne.
  assert (Hmono : forall a, handed_off a now' = false -> handed_off a now = false).
  { intros a. unfold handed_off. destruct (is_OFFLINE a); [done|]. cbn.
    destruct (agent_offline a now _) eqn:E; [|done].
    by rewrite (agent_offline_mono _ _ _ _ Hle E). }
  assert (Hon : online pool now <> []).
  { intros E. destruct (online pool now') as [|x l] eqn:E'; [done|].
    assert (x ∈ online pool now') as Hx by (rewrite E'; left).
    unfold online in Hx. apply list_elem_of_filter in Hx as [Hx1 Hx2].
    assert (x ∈ online pool now) as Hx by (unfold online; apply list_elem_of_filter; auto).
    rewrite E in Hx. by apply elem_of_nil in Hx. }
  apply owner_first_choice in Ho as [Ho Hmax]; [|done]. rewrite owner_first_choice by done. split.
  - intros [Hc _]. by apply candidates_online in Hc as [_ ?].
  - intros Hup'. apply candidates_online in Ho as [Hp _]; [|done]. split.
    + by apply candidates_online.
    + intros x Hx. apply candidates_online in Hx as [? ?]; [|done]. apply Hmax.
      apply candidates_online; auto.
Qed.

(** [handed_over_at] answers None exactly when the check runs on the
    first choice of its whole pool; otherwise every agent preferred to the
    owner is handed off and the answer is not in the future. *)
Theorem handed_over_past c pool now o :
  distinct_agents pool -> Forall (fun a => last_contact a <= now)%Z pool ->
  distribute_owner c pool now = Some o ->
  match handed_over_at c pool now with
  | None => first_choice c pool o
  | Some t => (t <= now)%Z /\ ~ first_choice c pool o /\
      forall a, a ∈ pool -> score_gt (hrw_score c a) (hrw_score c o) = true -> handed_off a now = true
  end.
Proof.
  intros Hd Hlast Ho. unfold handed_over_at. rewrite Ho.
  set (above := filter _ pool).
  assert (Hab : forall a, a ∈ above <-> a ∈ pool /\ score_gt (hrw_score c a) (hrw_score c o) = true).
  { intros a. unfold above. rewrite list_elem_of_filter. tauto. }
  pose proof (owner_in_pool _ _ _ _ Ho) as Hin. apply owner_first_choice in Ho as [Ho Hmax]; [|done].
  assert (Hoff : forall a, a ∈ above -> handed_off a now = true).
  { intros a [Ha Hgt]%Hab. destruct (handed_off a now) eqn:E; [done|].
    assert (Hc : a ∈ candidates pool now).
    { apply candidates_online; [|done]. intros En.
      assert (a ∈ online pool now) as Hx by (unfold online; by apply list_elem_of_filter).
      rewrite En in Hx. by apply elem_of_nil in Hx. }
    apply Hmax in Hc. unfold score_gt in Hgt. by rewrite bool_decide_eq_true_2 in Hgt. }
  destruct (newest (map handed_off_at above)) as [t|] eqn:En.
  - apply newest_Some in En as [(a & -> & Ha)%list_elem_of_fmap _]. split; [|split].
    + apply handed_off_at_past; [|by apply Hoff]. rewrite Forall_forall in Hlast.
      apply Hlast. by apply Hab.
    + intros [_ Hfc]. apply Hab in Ha as [Ha Hgt]. apply Hfc in Ha.
      unfold score_gt in Hgt. by rewrite bool_decide_eq_true_2 in Hgt.
    + intros x Hx Hgt. apply Hoff, Hab. done.
  - apply newest_None, fmap_nil_inv in En. split; [done|]. intros x Hx.
    destruct (score_gt (hrw_score c x) (hrw_score c o)) eqn:E; [|by apply score_gt_false].
    exfalso. eapply elem_of_nil. rewrite <- En. by apply Hab.
Qed.
End Rendezvous.

Section Placement.
Context `{PyRuntime} `{ServerSettings}.

Lemma filter_agents_elem agents sel l a :
  filter_agents_by_selector agents sel = Ok l ->
  a ∈ l <-> a ∈ agents /\ agent_matches_selector a sel = Ok true.
Proof.
  unfold filter_agents_by_selector.
  assert (Hnil : forall s, (s = None \/ s = Some []) -> Ok [] = Ok l ->
            a ∈ l <-> a ∈ agents /\ agent_matches_selector a s = Ok true).
  { intros s Hs [= <-]. rewrite elem_of_nil.
    destruct Hs as [-> | ->]; unfold agent_matches_selector; naive_solver. }
  destruct sel as [[|kv sel]|]; [by apply Hnil; right| |by apply Hnil; left].
  intros Hf. by apply filter_res_spec in Hf as [_ ?].
Qed.

Lemma elem_of_list_active d a :
  a ∈ list_active d <-> ag_approval a = ACTIVE /\ exists i, db_agents d !! i = Some a.
Proof. unfold list_active. by rewrite list_elem_of_filter, elem_of_rows. Qed.

Lemma active_distinct d : keyed d -> distinct_agents (list_active d).
Proof.
  intros Hk. split.
  - intros a [_ [i Hi]]%elem_of_list_active. rewrite (keyed_agents d Hk i a Hi).
    by eapply (uuid_agents d Hk).
  - intros a b [_ [i Hi]]%elem_of_list_active [_ [j Hj]]%elem_of_list_active E.
    rewrite (keyed_agents d Hk i a Hi), (keyed_agents d Hk j b Hj) in E. congruence.
Qed.

Lemma same_id d a b :
  keyed d -> a ∈ list_active d -> b ∈ list_active d -> ag_id a = ag_id b -> a = b.
Proof. intros Hk. apply (active_distinct d Hk). Qed.

Lemma elem_of_candidates d i c :
  c ∈ list_assignment_candidates d i <->
  (ck_mode c = MANUAL -> ck_agent_id c = i) /\ exists j, db_checks d !! j = Some c.
Proof.
  unfold list_assignment_candidates. rewrite list_elem_of_filter, elem_of_rows.
  destruct (ck_mode c); naive_solver.
Qed.

Lemma agent_by_id_elem d a i :
  keyed d -> a ∈ list_active d ->
  (ag_id a = i <-> agent_by_id (list_active d) i = Some a).
Proof.
  intros Hk Ha. unfold agent_by_id. split.
  - intros Hi. destruct (last (filter _ _)) as [b|] eqn:E.
    + apply last_Some_elem_of in E. apply list_elem_of_filter in E as [Hb Hin].
      f_equal. apply (same_id d); congruence.
    + apply last_None in E. exfalso. assert (a ∈ filter (fun a => ag_id a = i) (list_active d)) as Hx
        by (by apply list_elem_of_filter). rewrite E in Hx. by apply elem_of_nil in Hx.
  - intros E. apply last_Some_elem_of in E. by apply list_elem_of_filter in E as [? _].
Qed.

(** One check, read both ways: kept for an active agent exactly when the
    reverse table lists the agent. *)
Lemma placed_assigned d now a c owned r :
  keyed d -> a ∈ list_active d ->
  assigned_agents (list_active d) now c = Ok r -> (forall b, placed_on d now a owned c = Ok b ->
    (b = true <-> a ∈ (if owned then r.1.2 else r.2))).
Proof.
  intros Hk Ha. unfold assigned_agents, placed_on. destruct (ck_mode c).
  - intros [= <-] b [= <-]. cbn. rewrite bool_decide_eq_true.
    rewrite (eq_comm (ck_agent_id c)), (agent_by_id_elem d a _ Hk Ha).
    destruct (agent_by_id _ _) as [o|]; destruct owned; rewrite ?list_elem_of_singleton, ?elem_of_nil;
      naive_solver.
  - destruct (filter_agents_by_selector _ _) as [l|] eqn:El; [|done]. intros [= <-] b Hb. cbn.
    pose proof (filter_agents_elem _ _ _ a El) as Hel. assert (Hb' : b = true <-> a ∈ l) by (rewrite Hel, Hb; split; [by intros ->|by intros [_ [= ->]]]).
    by destruct owned.
  - destruct (filter_agents_by_selector _ _) as [pool|] eqn:El; [|done]. intros [= <-] b. cbn.
    pose proof (filter_agents_elem _ _ _ a El) as Hel.
    destruct (agent_matches_selector a _) as [m|]; cbn; [|done].
    assert (Hid : forall x, x ∈ pool -> (ag_id x = ag_id a <-> x = a)).
    { intros x Hx. split; [|congruence]. apply (same_id d); [done| |done].
      by apply (filter_agents_elem _ _ _ x El) in Hx as [? _]. }
    destruct m; cbn.
    + destruct owned; cbn; intros [= <-].
      * destruct (distribute_owner c pool now) as [o|] eqn:Eo; [|rewrite elem_of_nil; naive_solver].
        apply owner_in_pool in Eo. rewrite bool_decide_eq_true, list_elem_of_singleton, (Hid o Eo).
        naive_solver.
      * rewrite existsb_exists. split; [|intros Hin; exists a; split].
        -- intros (x & Hx%list_elem_of_In & Hb). apply bool_decide_eq_true in Hb.
           by apply (Hid x Hx) in Hb as ->.
        -- by apply list_elem_of_In.
        -- by apply bool_decide_eq_true.
    + intros [= <-]. split; [done|]. intros Hin. exfalso.
      assert (a ∈ pool) as [_ [=]]%Hel. destruct owned; [|done].
      destruct (distribute_owner c pool now) as [o|] eqn:Eo; [|by apply elem_of_nil in Hin].
      apply list_elem_of_singleton in Hin as ->. by eapply owner_in_pool.
Qed.

Lemma assigned_agents_check active now x c agents pool :
  assigned_agents active now x = Ok (c, agents, pool) -> x = c.
Proof.
  unfold assigned_agents. destruct (ck_mode x); [by intros [= ->]| |];
    (destruct (filter_agents_by_selector _ _); cbn; [by intros [= ->]|done]).
Qed.

(** An agent the reverse table lists is one whose candidates hold the check. *)
Lemma assigned_candidate d now c agents pool a (owned : bool) :
  (exists j, db_checks d !! j = Some c) ->
  assigned_agents (list_active d) now c = Ok (c, agents, pool) ->
  a ∈ (if owned then agents else pool) -> c ∈ list_assignment_candidates d (ag_id a).
Proof.
  intros Hj Eas Hap. apply elem_of_candidates. split; [|done]. intros Hmode.
  unfold assigned_agents in Eas. rewrite Hmode in Eas. injection Eas as <- <-.
  destruct (agent_by_id _ _) as [o|] eqn:Eo.
  - apply last_Some_elem_of in Eo. apply list_elem_of_filter in Eo as [<- _].
    destruct owned; by apply list_elem_of_singleton in Hap as ->.
  - destruct owned; by apply elem_of_nil in Hap.
Qed.

Lemma placements_agree_at d now a c table owned l :
  keyed d -> a ∈ list_active d -> ck_enabled c = true ->
  assigned_agents_by_check d now = Ok table -> checks_for_agent d now a owned = Ok l ->
  c ∈ l <-> exists agents pool, (c, agents, pool) ∈ table /\ a ∈ (if owned then agents else pool).
Proof.
  intros Hk Ha Hen Ht Hl. apply filter_res_spec in Hl as [Hok Hl]. rewrite Hl. split.
  - intros [Hc Hp]. apply elem_of_candidates in Hc as [_ [j Hj]].
    assert (Hin : c ∈ list_enabled d)
      by (unfold list_enabled; rewrite list_elem_of_filter, elem_of_rows; eauto).
    destruct (map_res_each _ _ _ c Ht Hin) as [[[c' agents] pool] Eas].
    pose proof (assigned_agents_check _ _ _ _ _ _ Eas) as <-.
    exists agents, pool. split; [apply (map_res_elem _ _ _ _ Ht); eauto|].
    pose proof (placed_assigned d now a c owned _ Hk Ha Eas true Hp) as Hx. by apply Hx.
  - intros (agents & pool & Hin & Hap). apply (map_res_elem _ _ _ _ Ht) in Hin as (x & Hx & Eas).
    pose proof (assigned_agents_check _ _ _ _ _ _ Eas) as ->.
    unfold list_enabled in Hx. apply list_elem_of_filter in Hx as [_ Hj%elem_of_rows].
    pose proof (assigned_candidate d now c agents pool a owned Hj Eas Hap) as Hc.
    split; [done|]. destruct (Hok c Hc) as [b Hb]. rewrite Hb. f_equal.
    by apply (placed_assigned d now a c owned _ Hk Ha Eas b Hb).
Qed.

(** C9: The two readings of the placement rules agree: an active agent is
    handed an enabled check exactly when the reverse table assigns it, and may
    report for it exactly when the table's pool lists it. *)
Theorem placements_agree d now a c table mine reportable :
  keyed d -> a ∈ list_active d -> ck_enabled c = true ->
  assigned_agents_by_check d now = Ok table ->
  get_checks_for_agent d now a = Ok mine -> get_reportable_checks d now a = Ok reportable ->
  (c ∈ mine <-> exists agents pool, (c, agents, pool) ∈ table /\ a ∈ agents) /\
  (c ∈ reportable <-> exists agents pool, (c, agents, pool) ∈ table /\ a ∈ pool).
Proof.
  intros Hk Ha Hen Ht Hm Hr. split.
  - by apply (placements_agree_at d now a c table true).
  - by apply (placements_agree_at d now a c table false).
Qed.

(** An agent may report for every check it is handed, whenever it was
    handed it: being reportable does not depend on the clock, and a check owned
    at one moment is reportable at any other. *)
Theorem owned_is_reportable d now now' a mine reportable :
  keyed d -> a ∈ list_active d ->
  get_checks_for_agent d now a = Ok mine -> get_reportable_checks d now' a = Ok reportable ->
  mine ⊆ reportable.
Proof.
  intros Hk Ha Hm Hr c Hc. apply filter_res_spec in Hm as [_ Hm], Hr as [Hok Hr].
  apply Hm in Hc as [Hc Hp]. apply Hr. split; [done|].
  destruct (Hok c Hc) as [b Hb]. rewrite Hb. f_equal. unfold placed_on in Hp, Hb.
  destruct (ck_mode c); [congruence..|].
  destruct (agent_matches_selector a _) as [[]|] eqn:Em; cbn in Hp, Hb; [|congruence|done].
  destruct (filter_agents_by_selector _ _) as [pool|] eqn:El; cbn in Hp, Hb; [|done].
  injection Hb as <-. apply existsb_exists. exists a. split; [|by apply bool_decide_eq_true].
  apply list_elem_of_In. by apply (filter_agents_elem _ _ _ a El).
Qed.

(** The admin gate on synthetic checks covers all an agent can run: every
    synthetic check an agent may report for, now or later, is among
    [synthetic_checks_reaching]. *)
Theorem synthetic_gate_covers d now a c reportable reaching :
  get_reportable_checks d now a = Ok reportable -> c ∈ reportable -> ck_type c = SYNTHETIC ->
  synthetic_checks_reaching d a = Ok reaching -> ck_id c ∈ reaching.
Proof.
  intros Hr Hc Hty Hs. apply filter_res_spec in Hr as [_ Hr]. apply Hr in Hc as [Hc Hp].
  unfold synthetic_checks_reaching in Hs.
  destruct (filter_res _ _) as [l|] eqn:El; cbn in Hs; [|done]. injection Hs as <-.
  apply filter_res_spec in El as [_ El]. apply elem_of_list_to_set, list_elem_of_fmap.
  exists c. split; [done|]. apply El. split; [done|]. unfold synthetic_reaches. rewrite Hty.
  change (String.eqb SYNTHETIC SYNTHETIC) with true. cbn. unfold placed_on in Hp.
  destruct (ck_mode c); [done..|]. rewrite bool_decide_eq_false_2 by done.
  by destruct (agent_matches_selector a _) as [[]|].
Qed.
End Placement.

Section ConfigVersion.
Context `{PyRuntimeLaws} `{ServerSettings}.

Definition check_ids (checks : list check) : list uuid := map ck_id checks.

Lemma handed_ids d now a checks :
  keyed d -> get_checks_for_agent d now a = Ok checks ->
  NoDup (check_ids checks) /\ Forall (fun i => i < uuid_bound)%N (check_ids checks).
Proof.
  intros Hk Hc. pose proof (filter_res_sublist _ _ _ Hc) as Hsub.
  assert (Hall : forall c, c ∈ checks -> exists i, db_checks d !! i = Some c).
  { intros c Hin. apply filter_res_spec in Hc as [_ Hc]. apply Hc in Hin as [Hin _].
    by apply elem_of_candidates in Hin as [_ ?]. }
  split.
  - apply NoDup_fmap_2_strong.
    + intros x y Hx Hy E. destruct (Hall x Hx) as [i Hi], (Hall y Hy) as [j Hj].
      rewrite (keyed_checks d Hk i x Hi), (keyed_checks d Hk j y Hj) in E. congruence.
    + eapply sublist_NoDup, Hsub. unfold list_assignment_candidates. apply NoDup_filter.
      unfold rows. apply NoDup_fmap_2_strong; [|apply NoDup_map_to_list].
      intros [i x] [j y] Hx%elem_of_map_to_list Hy%elem_of_map_to_list. cbn. intros ->.
      rewrite <- (keyed_checks d Hk i y Hx). by rewrite (keyed_checks d Hk j y Hy).
  - apply Forall_map_elem. intros c Hin. destruct (Hall c Hin) as [i Hi].
    rewrite (keyed_checks d Hk i c Hi). by eapply (uuid_checks d Hk).
Qed.

Lemma sorted_ids_perm l : sort_strings (map uuid_str l) ≡ₚ map uuid_str l.
Proof. apply merge_sort_Permutation. Qed.

Lemma sorted_ids_ok l :
  Forall (fun s => s <> "" /\ free_of ","%char s) (sort_strings (map uuid_str l)).
Proof.
  rewrite sorted_ids_perm. apply Forall_map_all. intros i.
  split; [apply uuid_str_nonempty|apply uuid_str_no_comma].
Qed.

Lemma sort_strings_perm l l' : l ≡ₚ l' -> sort_strings l = sort_strings l'.
Proof.
  intros Hp. apply (Sorted_unique String.le); [apply Sorted_merge_sort, _..|].
  unfold sort_strings. by rewrite !merge_sort_Permutation.
Qed.

Lemma uuid_strs_same l l' :
  Forall (fun i => i < uuid_bound)%N l -> Forall (fun i => i < uuid_bound)%N l' ->
  map uuid_str l ≡ₚ map uuid_str l' -> l ⊆ l'.
Proof.
  rewrite !Forall_forall. intros Hl Hl' Hp i Hi.
  assert (Hs : uuid_str i ∈ map uuid_str l') by (rewrite <- Hp; by apply list_elem_of_fmap_2).
  apply list_elem_of_fmap in Hs as (j & E & Hj).
  by rewrite (uuid_str_inj i j (Hl i Hi) (Hl' j Hj) E).
Qed.

Definition stamp (a : agent) : string :=
  match ag_checks_updated_at a with Some t => isoformat t | None => "" end.

Lemma stamp_inj a a' : stamp a = stamp a' -> ag_checks_updated_at a = ag_checks_updated_at a'.
Proof.
  unfold stamp. destruct (ag_checks_updated_at a) as [t|], (ag_checks_updated_at a') as [t'|]; [|..|done].
  - intros E. by rewrite (isoformat_inj t t' E).
  - intros E. by apply isoformat_nonempty in E.
  - intros E. symmetry in E. by apply isoformat_nonempty in E.
Qed.

(** The text the configuration version digests changes exactly with what
    an agent must fetch again for: two heartbeats digest the same text iff the
    edit stamp is the same and the agent is handed the same set of checks. *)
Theorem config_text_tracks d d' now now' a a' checks checks' :
  keyed d -> keyed d' ->
  get_checks_for_agent d now a = Ok checks -> get_checks_for_agent d' now' a' = Ok checks' ->
  config_text a checks = config_text a' checks' <->
  ag_checks_updated_at a = ag_checks_updated_at a' /\
  (forall i, i ∈ check_ids checks <-> i ∈ check_ids checks').
Proof.
  intros Hk Hk' Hc Hc'. destruct (handed_ids _ _ _ _ Hk Hc) as [Hnd Hb].
  destruct (handed_ids _ _ _ _ Hk' Hc') as [Hnd' Hb']. unfold config_text. fold (stamp a) (stamp a').
  rewrite <- !(map_map ck_id uuid_str). fold (check_ids checks) (check_ids checks'). split.
  - intros E. apply split_at in E as [Es E];
      [|unfold stamp; destruct (ag_checks_updated_at _); [apply isoformat_no_bar|done]..].
    split; [by apply stamp_inj|]. apply join_inj in E; [|apply sorted_ids_ok..].
    assert (Hp : map uuid_str (check_ids checks) ≡ₚ map uuid_str (check_ids checks'))
      by (by rewrite <- (sorted_ids_perm (check_ids checks)), E, sorted_ids_perm).
    intros i. split; apply uuid_strs_same; done.
  - intros [Es Hi]. unfold stamp. rewrite Es.
    rewrite (sort_strings_perm _ (map uuid_str (check_ids checks'))); [done|].
    apply Permutation_map. by apply NoDup_Permutation.
Qed.
End ConfigVersion.

(** ** A selector that blocks every sync

    A check's [agent_selector] is stored unvalidated (schemas/check_schema.py),
    and a null "tags" makes [set(None)] raise. *)
Section Malformed.
Context `{PyRuntime} `{ServerSettings}.

Theorem malformed_selector_blocks_sync d now a c rest :
  db_checks d !! ck_id c = Some c -> ck_mode c = REPLICATE \/ ck_mode c = DISTRIBUTE ->
  ck_selector c = Some (("tags", PNone) :: rest) ->
  assoc_get rest "agent_ids" = None -> assoc_get rest "tags" = None -> no_tags a = false ->
  exists e, get_checks_for_agent d now a = Raise e.
Proof.
  intros Hc Hmode Hsel Hids Htags Hno.
  assert (Hm : agent_matches_selector a (ck_selector c) = Raise TypeError).
  { unfold agent_matches_selector. rewrite Hsel. cbn. rewrite Hids, Htags. cbn. by rewrite Hno. }
  assert (Hp : placed_on d now a true c = Raise TypeError).
  { unfold placed_on. destruct Hmode as [-> | ->]; rewrite Hm; done. }
  unfold get_checks_for_agent, checks_for_agent. destruct (filter_res _ _) as [l|e] eqn:E; [|by exists e].
  apply filter_res_spec in E as [Hall _]. destruct (Hall c) as [b Hb]; [|congruence].
  apply list_elem_of_filter. split; [tauto|]. apply elem_of_rows. eauto.
Qed.
End Malformed.

(** ** Witnesses *)

#[local] Existing Instance plain_runtime.
#[local] Existing Instance plain_runtime_laws.
#[local] Existing Instance default_settings.

Definition quick : agent := fleet_agent 1 (minutes 10).
Definition gone : agent := fleet_agent 2 0.
Definition joined : agent := fleet_agent 3 0.
Definition shared : check := distributed 10 "http".

Lemma three_agents : distinct_agents [quick; gone; quick; gone; joined].
Proof.
  split.
  - intros a Ha. repeat (apply elem_of_cons in Ha as [->|Ha]; [vm_compute; reflexivity|]).
    by apply elem_of_nil in Ha.
  - intros a b Ha Hb.
    repeat (apply elem_of_cons in Ha as [->|Ha]; [
      repeat (apply elem_of_cons in Hb as [->|Hb]; [first [reflexivity|intros E; discriminate E]|]);
      by apply elem_of_nil in Hb|]). by apply elem_of_nil in Ha.
Qed.

Lemma two_agents : distinct_agents [quick; gone].
Proof. eapply distinct_agents_subset; [|exact three_agents]. set_solver. Qed.

Lemma minimal_movement_witness :
  distribute_owner shared [quick; gone] 0 = Some gone /\
  distribute_owner shared [quick; gone; joined] 0 = Some joined /\
  (joined = gone \/ joined ∉ [quick; gone]).
Proof.
  split; [vm_compute; reflexivity|]. split; [vm_compute; reflexivity|].
  apply (minimal_movement shared [quick; gone] [quick; gone; joined] 0 gone joined).
  - exact three_agents.
  - vm_compute. discriminate.
  - vm_compute. discriminate.
  - vm_compute. reflexivity.
  - vm_compute. reflexivity.
  - right. left.
Defined.

Lemma failover_witness :
  handed_off gone (minutes 10) = true /\
  (distribute_owner shared [quick; gone] (minutes 10) = Some gone <-> handed_off gone (minutes 10) = false).
Proof.
  split; [vm_compute; reflexivity|].
  apply (failover shared [quick; gone] 0 (minutes 10) gone).
  - exact two_agents.
  - vm_compute. discriminate.
  - vm_compute. reflexivity.
  - vm_compute. reflexivity.
  - vm_compute. discriminate.
Defined.

Lemma handed_over_past_witness :
  exists t, handed_over_at shared [quick; gone] (minutes 10) = Some t /\ (t <= minutes 10)%Z /\
            ~ first_choice shared [quick; gone] quick.
Proof.
  assert (Ht : exists t, handed_over_at shared [quick; gone] (minutes 10) = Some t)
    by (eexists; vm_compute; reflexivity).
  destruct Ht as [t Ht]. exists t. split; [exact Ht|].
  assert (H := handed_over_past shared [quick; gone] (minutes 10) quick).
  rewrite Ht in H. destruct H as (H1 & H2 & _).
  - exact two_agents.
  - repeat constructor; vm_compute; discriminate.
  - vm_compute. reflexivity.
  - split; [exact H1|exact H2].
Defined.

Definition fleet : db := fleet_db (minutes 10) 0.

Lemma fleet_active : quick ∈ list_active fleet.
Proof. listed. Qed.

Lemma placements_agree_witness :
  exists mine, get_checks_for_agent fleet (minutes 10) quick = Ok mine /\ shared ∈ mine /\
    exists table, assigned_agents_by_check fleet (minutes 10) = Ok table /\
    exists agents pool, (shared, agents, pool) ∈ table /\ quick ∈ agents.
Proof.
  eexists. split; [vm_compute; reflexivity|]. split; [listed|].
  eexists. split; [vm_compute; reflexivity|].
  eapply (placements_agree fleet (minutes 10) quick shared).
  - apply fleet_keyed.
  - exact fleet_active.
  - reflexivity.
  - vm_compute. reflexivity.
  - vm_compute. reflexivity.
  - vm_compute. reflexivity.
  - listed.
Defined.

Lemma owned_is_reportable_witness :
  exists mine reportable, get_checks_for_agent fleet (minutes 10) quick = Ok mine /\
    get_reportable_checks fleet 0 quick = Ok reportable /\ length mine = 2%nat /\ mine ⊆ reportable.
Proof.
  eexists _, _. split; [vm_compute; reflexivity|]. split; [vm_compute; reflexivity|].
  split; [reflexivity|].
  apply (owned_is_reportable fleet (minutes 10) 0 quick).
  - apply fleet_keyed.
  - exact fleet_active.
  - vm_compute. reflexivity.
  - vm_compute. reflexivity.
Defined.

Lemma synthetic_gate_covers_witness :
  exists reaching, synthetic_checks_reaching fleet gone = Ok reaching /\ 30%N ∈ reaching.
Proof.
  eexists. split; [vm_compute; reflexivity|].
  eapply (synthetic_gate_covers fleet (minutes 10) gone (distributed 30 "synthetic")).
  - vm_compute. reflexivity.
  - listed.
  - reflexivity.
  - vm_compute. reflexivity.
Defined.

Lemma config_text_tracks_witness :
  exists mine mine', get_checks_for_agent fleet (minutes 10) quick = Ok mine /\
    get_checks_for_agent fleet 0 quick = Ok mine' /\ mine' = [] /\
    config_text quick mine <> config_text quick mine'.
Proof.
  eexists _, _. split; [vm_compute; reflexivity|]. split; [vm_compute; reflexivity|]. split; [reflexivity|].
  intros E. apply (config_text_tracks fleet fleet (minutes 10) 0 quick quick) in E as [_ Hids].
  - specialize (Hids 10%N). vm_compute in Hids. destruct Hids as [H _].
    apply (not_elem_of_nil 10%N), H. listed.
  - apply fleet_keyed.
  - apply fleet_keyed.
  - vm_compute. reflexivity.
  - vm_compute. reflexivity.
Defined.
