(* ===== verification/AlertEval.v ===== *)
(** * Alert evaluation

    [AlertEvaluationCoreService]
    (apps/backend/app/services/core/alert_evaluation_core_service.py): for each
    incoming check result, which alerts fire and whether a firing is sent,
    resent, de-duplicated or suppressed.  The configuration of an alert is the
    JSON the column holds, so every read of it may raise; [now] is the clock one
    evaluation reads. *)

From S2P Require Import Prelude Py Store Notify.

Definition STATE_KEY_LENGTH : nat := 64.

Definition is_silence_trigger (t : AlertTriggerType) : bool :=
  match t with NO_DATA | AGENT_OFFLINE => true | _ => false end.

(** [SendDecision] (schemas/alert_schema.py) *)
Record send_decision := SendDecision {
  sd_send : bool;
  sd_is_resend : bool;
  sd_resend_count : Z;
}.

(** [CheckResult.get_metrics] *)
Definition get_metrics (r : check_result) : pyval :=
  match cr_metrics r with
  | NoMetrics | BadJson => PDict []
  | Json v => v
  end.

(** [metrics.get("response", {}).get("ssl_certificate")] *)
Definition ssl_certificate (metrics : pyval) : res pyval :=
  response ← py_get metrics "response" (PDict []);
  py_get response "ssl_certificate" PNone.

Definition trigger_value (t : AlertTriggerType) : string :=
  match t with
  | STATUS_CHANGE => "status_change"
  | THRESHOLD => "threshold"
  | REPEATED_FAILURE => "repeated_failure"
  | SSL_CERT_EXPIRY => "ssl_cert_expiry"
  | NO_DATA => "no_data"
  | AGENT_OFFLINE => "agent_offline"
  end.

Section Eval.
Context `{PyRuntime}.

(** ** State keys *)

Definition ssl_lte (t : pyval) : string := "ssl:lte:" +:+ py_str t.

(** The tightest band: the first [t] of the sorted thresholds with [days <= t]. *)
Fixpoint ssl_band (days : pyval) (thresholds : list pyval) : res string :=
  match thresholds with
  | [] => Ok "ssl:ok"
  | t :: ts => b ← py_le days t; if (b : bool) then Ok (ssl_lte t) else ssl_band days ts
  end.

(** [config.get("days_thresholds") or [config.get("days_threshold", 30)]] *)
Definition days_thresholds (config : pydict) : pyval :=
  py_or (dict_get config "days_thresholds" PNone)
        (PList [dict_get config "days_threshold" (PInt 30)]).

Definition state_key (a : alert) (r : check_result) (parent_down : bool) : res string :=
  if parent_down then Ok "parent_down"
  else
    let config := al_config a in
    match al_trigger a with
    | STATUS_CHANGE => Ok (if cr_success r then "status:up" else "status:down")
    | THRESHOLD =>
        let metric := dict_get config "metric" (PStr "latency_ms") in
        let operator := dict_get config "operator" (PStr ">") in
        let value := dict_get config "value" PNone in
        Ok ("threshold:" +:+ py_str metric +:+ ":" +:+ py_str operator +:+ ":" +:+ py_str value)
    | REPEATED_FAILURE => Ok "repeated_failure:active"
    | SSL_CERT_EXPIRY =>
        items ← py_iter (days_thresholds config);
        thresholds ← py_sorted items;
        let metrics := py_or (get_metrics r) (PDict []) in
        cert ← ssl_certificate metrics;
        days ← py_get (py_or cert (PDict [])) "days_until_expiration" PNone;
        match days with
        | PNone => Ok "ssl:unknown"
        | _ => ssl_band days thresholds
        end
    | t => Ok (trigger_value t +:+ ":active")
    end.

(** [_compute_alert_state_key]: a key too long for the column is its SHA-256. *)
Definition compute_alert_state_key (a : alert) (r : check_result) (parent_down : bool)
    : res string :=
  key ← state_key a r parent_down;
  if (String.length key <=? STATE_KEY_LENGTH)%nat then Ok key else Ok (sha256_hex key).

(** ** Triggers *)

Definition recent (d : db) (c : check) (limit : pyval) : res (list check_result) :=
  n ← py_int limit; Ok (get_recent_results_for_check d (ck_id c) (Z.to_nat n)).

Definition evaluate_status_change (d : db) (a : alert) (c : check) (r : check_result)
    (config : pydict) : res bool :=
  let on_status := dict_get config "on_status" (PList [PStr "error"]) in
  let consecutive_failures := dict_get config "consecutive_failures" (PInt 1) in
  let current_status := if cr_success r then "success" else "error" in
  if cr_success r && al_notify_on_recovery a then
    match get_recent_results_for_check d (ck_id c) 2 with
    | _ :: previous :: _ => Ok (negb (cr_success previous))
    | _ => Ok false
    end
  else
    listed ← py_in current_status on_status;
    if negb listed then Ok false
    else
      several ← py_gt consecutive_failures (PInt 1);
      if (several : bool) then
        results ← recent d c consecutive_failures;
        short ← py_lt (PInt (Z.of_nat (length results))) consecutive_failures;
        if (short : bool) then Ok false else Ok (forallb (fun x => negb (cr_success x)) results)
      else Ok true.

(** [float(threshold_value)]: [None] when the value is not numeric text. *)
Definition threshold_float (v : pyval) : res (option float) :=
  match v with
  | PStr s => Ok (float_of_str s)
  | PFloat f => Ok (Some f)
  | PInt z => Some <$> float_of_Z z
  | PBool b => Some <$> float_of_Z (Z.b2z b)
  | _ => Ok None
  end.

Definition compare_with (operator : pyval) (current threshold : float) : bool :=
  if py_eqb operator (PStr ">") then SFltb threshold current
  else if py_eqb operator (PStr ">=") then SFleb threshold current
  else if py_eqb operator (PStr "<") then SFltb current threshold
  else if py_eqb operator (PStr "<=") then SFleb current threshold
  else if py_eqb operator (PStr "==") then SFeqb current threshold
  else false.

Definition evaluate_threshold (r : check_result) (config : pydict) : res bool :=
  let metric := dict_get config "metric" (PStr "latency_ms") in
  let operator := dict_get config "operator" (PStr ">") in
  let threshold_value := dict_get config "value" PNone in
  match threshold_value with
  | PNone => Ok false
  | _ =>
      if negb (py_eqb metric (PStr "latency_ms")) then Ok false
      else match cr_latency_ms r with
           | None => Ok false
           | Some current =>
               threshold ← threshold_float threshold_value;
               match threshold with
               | None => Ok false
               | Some t => Ok (compare_with operator current t)
               end
           end
  end.

(** Whether a recorded key is a band or an unreadable expiry. *)
Definition was_in_band (key : string) : bool :=
  startswith "ssl:lte:" key || String.eqb key "ssl:unknown".

Definition evaluate_ssl_cert_expiry (d : db) (a : alert) (c : check) (r : check_result)
    (config : pydict) : res bool :=
  let thresholds := py_or (dict_get config "days_thresholds" (PList []))
                          (PList [dict_get config "days_threshold" (PInt 30)]) in
  let metrics := get_metrics r in
  if negb (truthy metrics) then Ok false
  else
    cert ← ssl_certificate metrics;
    if negb (truthy cert) then Ok false
    else
      days ← py_get cert "days_until_expiration" PNone;
      match days with
      | PNone => Ok true
      | _ =>
          items ← py_iter thresholds;
          max_threshold ← py_max items;
          in_danger ← py_le days max_threshold;
          if (in_danger : bool) then Ok true
          else if negb (al_notify_on_recovery a) then Ok false
          else match get_last_notification_for_dedup d (al_id a) (ck_id c) with
               | Some row => Ok (match nl_hash row with Some k => was_in_band k | None => false end)
               | None => Ok false
               end
      end.

Definition should_fire_alert (d : db) (a : alert) (c : check) (r : check_result) : res bool :=
  match al_trigger a with
  | STATUS_CHANGE | REPEATED_FAILURE => evaluate_status_change d a c r (al_config a)
  | THRESHOLD => evaluate_threshold r (al_config a)
  | SSL_CERT_EXPIRY => evaluate_ssl_cert_expiry d a c r (al_config a)
  | NO_DATA | AGENT_OFFLINE => Ok false
  end.

(** ** De-duplication *)

Definition is_snoozed (d : db) (now : instant) (a : alert) (c : check) : bool :=
  match get_check_mapping d (al_id a) (ck_id c) with
  | Some m => match cm_snoozed_until m with Some until => (now <? until)%Z | None => false end
  | None => false
  end.

Definition state_changed_since (d : db) (a : alert) (r : check_result)
    (last : notification_log) : res bool :=
  match nl_hash last with
  | Some h =>
      key ← compute_alert_state_key a r false;
      Ok (negb (String.eqb h key))
  | None =>
      match nl_result_id last ≫= get_check_result_by_id d with
      | None => Ok true
      | Some last_result => Ok (negb (eqb (cr_success last_result) (cr_success r)))
      end
  end.

Definition no_send : send_decision := SendDecision false false 0.
Definition fresh : send_decision := SendDecision true false 0.

(** Same state as last time: resend once the interval has elapsed, never past
    [max_resends].  The elapsed time is compared exactly. *)
Definition resend_decision (now : instant) (a : alert) (last : notification_log)
    : send_decision :=
  match al_resend_interval a with
  | None => no_send
  | Some interval =>
      if (now - nl_sent_at last <? interval * us_per_minute)%Z then no_send
      else
        let prior_count := nl_resend_count last in
        let next_count := (prior_count + 1)%Z in
        match al_max_resends a with
        | Some m => if (m <? next_count)%Z then SendDecision false true prior_count
                    else SendDecision true true next_count
        | None => SendDecision true true next_count
        end
  end.

Definition should_send_notification (d : db) (now : instant) (a : alert) (c : check)
    (r : check_result) : res send_decision :=
  if is_snoozed d now a c then Ok no_send
  else match get_last_notification_for_dedup d (al_id a) (ck_id c) with
       | None => Ok fresh
       | Some last =>
           changed ← state_changed_since d a r last;
           if (changed : bool) then Ok fresh else Ok (resend_decision now a last)
       end.

(** ** Parent suppression *)

Definition should_log_suppression (d : db) (a : alert) (c : check) (key : string) : bool :=
  match get_last_notification_for_dedup d (al_id a) (ck_id c) with
  | None => true
  | Some last => match nl_hash last with
                 | None => true
                 | Some h => negb (String.eqb h key)
                 end
  end.

Definition parent_name (d : db) (parent : uuid) : string :=
  match db_checks d !! parent with Some p => ck_display_name p | None => "parent" end.

(** Whether the check's parent is down now: its latest result failed. *)
Definition parent_down (d : db) (c : check) : bool :=
  match ck_depends_on c with
  | None => false
  | Some parent =>
      match get_latest_result_for_check d parent with
      | None => false
      | Some latest => negb (cr_success latest)
      end
  end.

Definition suppression_row (now : instant) (a : alert) (c : check) (r : check_result)
    (reason key : string) (provider_id : uuid) : notification_log :=
  NotificationLog (al_id a) provider_id (Some (cr_id r)) (Some (cr_timestamp r))
    (Some (ck_id c)) None (cr_success r) (cr_latency_ms r) SUPPRESSED (Some reason) (Some key)
    false 0 now.

(** [_handle_parent_suppression]: whether the firing is suppressed, and the state after. *)
Definition handle_parent_suppression (d : db) (now : instant) (a : alert) (c : check)
    (r : check_result) : res (bool * db) :=
  match ck_depends_on c with
  | None => Ok (false, d)
  | Some parent =>
      if negb (parent_down d c) then Ok (false, d)
      else
        let reason := "Suppressed: parent check '" +:+ parent_name d parent +:+ "' is down" in
        key ← compute_alert_state_key a r true;
        if should_log_suppression d a c key then
          Ok (true, add_notification_logs d
                      (map (suppression_row now a c r reason key) (live_provider_ids d (al_id a))))
        else Ok (true, d)
  end.

(** ** Firing *)

Definition is_recovery (a : alert) (r : check_result) : res bool :=
  if negb (al_notify_on_recovery a) then Ok false
  else if bool_decide (al_trigger a = SSL_CERT_EXPIRY) then
    key ← compute_alert_state_key a r false; Ok (String.eqb key "ssl:ok")
  else Ok (cr_success r).

(** [_ssl_detail]: the line an SSL notification carries. *)
Definition ssl_detail (r : check_result) : res (option string) :=
  cert0 ← ssl_certificate (py_or (get_metrics r) (PDict []));
  let cert := py_or cert0 (PDict []) in
  if negb (truthy cert) then Ok None
  else
    days ← py_get cert "days_until_expiration" PNone;
    match days with
    | PNone =>
        raw ← py_get cert "expiration_date" PNone;
        Ok (Some ("SSL certificate expiry could not be read (reported as "
                    +:+ py_repr raw +:+ ")"))
    | PInt n =>
        Ok (Some (if (n <? 0)%Z then
                    "SSL certificate expired " +:+ pretty (- n)%Z +:+ " day"
                      +:+ (if (n =? -1)%Z then "" else "s") +:+ " ago"
                  else if (n =? 0)%Z then "SSL certificate expires today"
                  else "SSL certificate expires in " +:+ pretty n +:+ " day"
                         +:+ (if (n =? 1)%Z then "" else "s")))
    | PBool b =>
        Ok (Some (if b then "SSL certificate expires in True day"
                  else "SSL certificate expires today"))
    | PFloat f =>
        Ok (Some (if cmp_lt (float_cmp_Z f 0) then
                    "SSL certificate expired " +:+ py_str (PFloat (SFopp f)) +:+ " day"
                      +:+ (if py_eqb days (PInt (-1)) then "" else "s") +:+ " ago"
                  else if py_eqb days (PInt 0) then "SSL certificate expires today"
                  else "SSL certificate expires in " +:+ py_str days +:+ " day"
                         +:+ (if py_eqb days (PInt 1) then "" else "s")))
    | _ => Raise TypeError
    end.

Definition str_or (a b : option string) : option string :=
  match a with Some s => if String.eqb s "" then b else a | None => b end.

Definition build_notification_context (d : db) (a : alert) (c : check) (r : check_result)
    (recovery : bool) : res notification_context :=
  let ag := db_agents d !! cr_agent_id r in
  detail ← (if bool_decide (al_trigger a = SSL_CERT_EXPIRY) then ssl_detail r else Ok None);
  Ok (NotificationContext (ck_display_name c) (ck_type c) (ag_id <$> ag)
        (g ← ag; str_or (ag_hostname g) (ag_name g))
        (if cr_success r then "success" else "error") (cr_success r) (cr_latency_ms r)
        (cr_timestamp r) None (al_name a) recovery detail).

Variable wire : provider -> notification_context -> res bool.

(** [send_to_providers]: the state after and how many rows were written. *)
Definition send_to_providers (d : db) (now : instant) (ctx : notification_context)
    (m : send_meta) : res (db * nat) :=
  match live_provider_ids d (sm_alert_id m) with
  | [] => Ok (d, 0%nat)
  | ids => '(d', rows) ← send_notifications wire d now ids ctx m; Ok (d', length rows)
  end.

Definition fire_alert (d : db) (now : instant) (a : alert) (c : check) (r : check_result)
    : res db :=
  recovery ← is_recovery a r;
  '(suppressed, d1) ← (if (recovery : bool) then Ok (false, d)
                       else handle_parent_suppression d now a c r);
  if (suppressed : bool) then Ok d1
  else
    decision ← should_send_notification d1 now a c r;
    if negb (sd_send decision) then Ok d1
    else
      ctx ← build_notification_context d1 a c r recovery;
      key ← compute_alert_state_key a r false;
      '(d2, _) ← send_to_providers d1 now ctx
                   (SendMeta (al_id a) (Some (cr_id r)) (Some (cr_timestamp r)) (Some (ck_id c))
                      None (Some key) (sd_is_resend decision) (sd_resend_count decision));
      Ok d2.

(** One alert, inside its savepoint. *)
Definition evaluate_alert (d : db) (now : instant) (c : check) (r : check_result) (a : alert)
    : res db :=
  fire ← should_fire_alert d a c r;
  if (fire : bool) then fire_alert d now a c r else Ok d.

(** The loop body of [evaluate_check_result]: an exception rolls the savepoint
    back and the next alert is evaluated. *)
Definition evaluate_one (now : instant) (c : check) (r : check_result) (d : db) (a : alert) : db :=
  if is_silence_trigger (al_trigger a) then d
  else match evaluate_alert d now c r a with Ok d' => d' | Raise _ => d end.

Definition evaluate_check_result (d : db) (now : instant) (r : check_result) : res db :=
  match db_checks d !! cr_check_id r with
  | None => Raise AttributeError
  | Some c =>
      Ok (fold_left (evaluate_one now c r) (list_active_alerts_for_check d (ck_id c)) d)
  end.
End Eval.

#[global] Arguments compute_alert_state_key : simpl never.
#[global] Arguments should_send_notification : simpl never.
#[global] Arguments handle_parent_suppression : simpl never.
#[global] Arguments build_notification_context : simpl never.
#[global] Arguments send_to_providers : simpl never.
#[global] Arguments is_recovery : simpl never.
#[global] Arguments evaluate_status_change : simpl never.
