(* ===== verification/AlertFacts.v ===== *)
(** * Alert evaluation: lemmas

    What each step of [AlertEval] writes, the invariant of the audit log along
    the runs of the ingesting server, and when a firing is quiet, withheld or
    sent; the properties of [AlertTheorems] are read off these. *)

From S2P Require Import Prelude Py Store Notify AlertEval.

Section Facts.
Context `{PyRuntime}.
Variable wire : provider -> notification_context -> res bool.

(** ** One firing *)

(** The state a firing records: [parent_down] while the parent suppresses it,
    else the alert's own state key. *)
Definition firing_key (d : db) (a : alert) (c : check) (r : check_result) : res string :=
  recovery ← is_recovery a r;
  compute_alert_state_key a r (negb recovery && parent_down d c).

(** How the rows of one firing relate to the last recorded one. *)
Definition row_of (a : alert) (c : check) (now : instant) (k : string) (resend : bool) (n : Z)
    (x : notification_log) : Prop :=
  nl_alert_id x = al_id a /\ nl_check_id x = Some (ck_id c) /\ nl_agent_id x = None /\
  nl_hash x = Some k /\ nl_sent_at x = now /\ nl_is_resend x = resend /\
  nl_resend_count x = n /\ dedup_relevant (nl_status x) = true.

Definition resend_after (now : instant) (a : alert) (last : notification_log) (n : Z) : Prop :=
  exists i, al_resend_interval a = Some i /\
    (nl_sent_at last + i * us_per_minute <= now)%Z /\
    n = (nl_resend_count last + 1)%Z /\
    (forall m, al_max_resends a = Some m -> n <= m)%Z.

(** What a firing that wrote rows was allowed to do after [last]. *)
Definition allowed (now : instant) (a : alert) (last : option notification_log)
    (k : string) (resend : bool) (n : Z) : Prop :=
  match last with
  | None => resend = false /\ n = 0%Z
  | Some l =>
      (nl_hash l <> Some k /\ resend = false /\ n = 0%Z) \/
      ((nl_hash l = Some k \/ nl_hash l = None) /\ resend = true /\ resend_after now a l n)
  end.

Lemma resend_decision_sends now a last :
  sd_send (resend_decision now a last) = true ->
  sd_is_resend (resend_decision now a last) = true /\
  resend_after now a last (sd_resend_count (resend_decision now a last)).
Proof.
  unfold resend_decision, resend_after. destruct (al_resend_interval a) as [i|]; [|done].
  destruct (Z.ltb_spec (now - nl_sent_at last) (i * us_per_minute)); [done|].
  destruct (al_max_resends a) as [m|].
  - destruct (Z.ltb_spec m (nl_resend_count last + 1)); cbn; [done|].
    intros _. split; [done|]. exists i. repeat split; [lia|]. intros ? [= <-]. lia.
  - cbn. intros _. split; [done|]. exists i. repeat split; [lia|done].
Qed.

Lemma should_send_allowed d now a c r k s :
  compute_alert_state_key a r false = Ok k ->
  should_send_notification d now a c r = Ok s -> sd_send s = true ->
  allowed now a (get_last_notification_for_dedup d (al_id a) (ck_id c)) k
          (sd_is_resend s) (sd_resend_count s).
Proof.
  intros Hk. unfold should_send_notification.
  destruct (is_snoozed _ _ _ _); [by intros [= <-]|].
  destruct (get_last_notification_for_dedup _ _ _) as [l|] eqn:El.
  2: { intros [= <-] _. done. }
  unfold state_changed_since. destruct (nl_hash l) as [h|] eqn:Eh.
  - rewrite Hk. cbn. destruct (String.eqb_spec h k) as [->|Hne]; cbn.
    + intros [= <-] Hs. apply resend_decision_sends in Hs as [-> Hr]. cbn.
      right. rewrite Eh. auto.
    + intros [= <-] _. cbn. left. rewrite Eh. split; [congruence|done].
  - destruct (nl_result_id l ≫= get_check_result_by_id d) as [lr|].
    + cbn. destruct (eqb _ _); cbn.
      * intros [= <-] Hs. apply resend_decision_sends in Hs as [-> Hr]. cbn.
        right. rewrite Eh. auto.
      * intros [= <-] _. cbn. left. by rewrite Eh.
    + cbn. intros [= <-] _. cbn. left. by rewrite Eh.
Qed.

Lemma parent_down_parent d c :
  parent_down d c = true -> exists p, ck_depends_on c = Some p.
Proof. unfold parent_down. destruct (ck_depends_on c); [eauto|done]. Qed.

Lemma firing_key_suppressed a r :
  compute_alert_state_key a r true = Ok "parent_down".
Proof. done. Qed.

(** Suppression, taken apart: it is exactly "the parent is down". *)
Lemma handle_parent_suppression_spec d now a c r b d1 :
  handle_parent_suppression d now a c r = Ok (b, d1) ->
  b = parent_down d c /\
  (d1 = d \/
   b = true /\ exists reason,
     should_log_suppression d a c "parent_down" = true /\
     d1 = add_notification_logs d
            (map (suppression_row now a c r reason "parent_down")
                 (live_provider_ids d (al_id a)))).
Proof.
  unfold handle_parent_suppression. cbn zeta.
  destruct (ck_depends_on c) as [p|] eqn:Ep.
  - rewrite firing_key_suppressed. cbn.
    destruct (parent_down d c) eqn:Epd; cbn; [|intros [= <- <-]; auto].
    destruct (should_log_suppression _ _ _ _) eqn:Es; intros [= <- <-].
    + split; [done|]. right. split; [done|]. eexists. done.
    + auto.
  - intros [= <- <-]. split; [|by left]. unfold parent_down. by rewrite Ep.
Qed.

Lemma should_log_suppression_allowed d now a c :
  should_log_suppression d a c "parent_down" = true ->
  allowed now a (get_last_notification_for_dedup d (al_id a) (ck_id c)) "parent_down" false 0.
Proof.
  unfold should_log_suppression, allowed.
  destruct (get_last_notification_for_dedup _ _ _) as [l|]; [|done].
  destruct (nl_hash l) as [h|]; [|intros _; left; done].
  destruct (String.eqb_spec h "parent_down"); [done|]. left. split; [congruence|done].
Qed.

Lemma suppression_rows_providers now a c r reason key ids :
  map nl_provider_id (map (suppression_row now a c r reason key) ids) = ids.
Proof. induction ids as [|i ids IH]; cbn; [done|]. by f_equal. Qed.

(** A firing either leaves the state alone, or appends one row per live
    provider, all recording the firing's state key, as [allowed]. *)
Lemma fire_alert_rows d now a c r d' :
  fire_alert wire d now a c r = Ok d' ->
  d' = d \/
  exists k b n rows,
    d' = add_notification_logs d rows /\ rows <> [] /\
    firing_key d a c r = Ok k /\
    map nl_provider_id rows = live_provider_ids d (al_id a) /\
    Forall (row_of a c now k b n) rows /\
    allowed now a (get_last_notification_for_dedup d (al_id a) (ck_id c)) k b n.
Proof.
  unfold fire_alert, firing_key. destruct (is_recovery a r) as [rec|]; cbn; [|done].
  destruct (if rec then _ else _) as [[sup d1]|] eqn:Esup; cbn; [|done].
  assert (Hsup : sup = negb rec && parent_down d c /\
    (d1 = d \/ sup = true /\ exists reason,
       should_log_suppression d a c "parent_down" = true /\
       d1 = add_notification_logs d
              (map (suppression_row now a c r reason "parent_down")
                   (live_provider_ids d (al_id a))))).
  { destruct rec; [injection Esup as <- <-; auto|].
    by apply handle_parent_suppression_spec in Esup. }
  destruct Hsup as [Hb Hd1]. destruct sup.
  - intros [= <-]. destruct Hd1 as [->|(_ & reason & Hlog & ->)]; [by left|].
    destruct (live_provider_ids d (al_id a)) as [|p ps] eqn:El.
    { left. cbn. apply add_no_logs. }
    right. exists "parent_down", false, 0%Z, (map (suppression_row now a c r reason "parent_down") (p :: ps)).
    split; [done|]. split; [done|]. split; [by rewrite <- Hb|].
    split; [apply suppression_rows_providers|].
    split; [by apply Forall_map_all|by apply should_log_suppression_allowed].
  - destruct Hd1 as [->|[? _]]; [|done].
    destruct (should_send_notification d now a c r) as [s|] eqn:Es; cbn; [|done].
    destruct (sd_send s) eqn:Esend; cbn; [|intros [= <-]; by left].
    destruct (build_notification_context d a c r rec) as [ctx|]; cbn; [|done].
    destruct (compute_alert_state_key a r false) as [k|] eqn:Ek; cbn; [|done].
    unfold send_to_providers. cbn [sm_alert_id].
    destruct (live_provider_ids d (al_id a)) as [|p ps] eqn:El; cbn; [intros [= <-]; by left|].
    destruct (send_notifications _ _ _ _ _ _) as [[d2 rows]|] eqn:Esn; cbn; [|done].
    intros [= <-]. apply send_notifications_spec in Esn as (-> & Hids & Hrows).
    right. exists k, (sd_is_resend s), (sd_resend_count s), rows.
    split; [done|]. split; [by destruct rows|]. split; [by rewrite <- Hb|].
    split; [done|]. split; [|by eapply should_send_allowed].
    eapply Forall_impl; [exact Hrows|]. unfold row_of. naive_solver.
Qed.

Lemma evaluate_alert_rows d now c r a d' :
  evaluate_alert wire d now c r a = Ok d' ->
  d' = d \/
  exists k b n rows,
    d' = add_notification_logs d rows /\ rows <> [] /\
    firing_key d a c r = Ok k /\
    map nl_provider_id rows = live_provider_ids d (al_id a) /\
    Forall (row_of a c now k b n) rows /\
    allowed now a (get_last_notification_for_dedup d (al_id a) (ck_id c)) k b n.
Proof.
  unfold evaluate_alert. destruct (should_fire_alert d a c r) as [[]|]; cbn; [|by intros [= ->]; left|done].
  apply fire_alert_rows.
Qed.

Lemma evaluate_one_rows d now c r a :
  evaluate_one wire now c r d a = d \/
  exists k b n rows,
    evaluate_one wire now c r d a = add_notification_logs d rows /\ rows <> [] /\
    map nl_provider_id rows = live_provider_ids d (al_id a) /\
    Forall (row_of a c now k b n) rows /\
    allowed now a (get_last_notification_for_dedup d (al_id a) (ck_id c)) k b n.
Proof.
  unfold evaluate_one. destruct (is_silence_trigger _); [by left|].
  destruct (evaluate_alert wire d now c r a) as [d'|] eqn:E; [|by left].
  apply evaluate_alert_rows in E as [->|(k & b & n & rows & -> & ? & ? & ? & ? & ?)]; [by left|].
  right. exists k, b, n, rows. auto.
Qed.

(** ** The audit chain

    How one recorded row of an alert and a check may follow the previous one:
    the same firing through another provider, a new state (never a resend), or
    a resend of the same state (or of a row from before state keys), at least
    the resend interval later and within [max_resends]. *)
Definition follows (a : alert) (x y : notification_log) : Prop :=
  (nl_sent_at x <= nl_sent_at y)%Z /\
  ((nl_hash x = nl_hash y /\ nl_sent_at x = nl_sent_at y /\
    nl_is_resend x = nl_is_resend y /\ nl_resend_count x = nl_resend_count y) \/
   (nl_hash x <> nl_hash y /\ nl_is_resend y = false /\ nl_resend_count y = 0%Z) \/
   ((nl_hash x = nl_hash y \/ nl_hash x = None) /\ nl_is_resend y = true /\
    resend_after (nl_sent_at y) a x (nl_resend_count y))).

(** The first row ever recorded is no resend. *)
Definition starts_fresh (l : list notification_log) : Prop :=
  forall x, head l = Some x -> nl_is_resend x = false /\ nl_resend_count x = 0%Z.

Definition audit_chain (a : alert) (l : list notification_log) : Prop :=
  starts_fresh l /\ adjacent (follows a) l.

Definition chain (d : db) (a : alert) : Prop :=
  forall check_id, audit_chain a (dedup_rows d (al_id a) (about_check check_id)).

Record audit_inv (now : instant) (d : db) : Prop := {
  inv_clock : Forall (fun x => nl_sent_at x <= now)%Z (db_logs d);
  inv_ids : forall i a, db_alerts d !! i = Some a -> al_id a = i;
  inv_chain : forall i a, db_alerts d !! i = Some a -> chain d a;
}.

(** The rows of one firing, selected for its own alert and check, or another's. *)
Lemma firing_rows_selected a c now k b n rows :
  Forall (row_of a c now k b n) rows ->
  filter (fun x => Is_true (bool_decide (nl_alert_id x = al_id a) && about_check (ck_id c) x
                            && dedup_relevant (nl_status x))) rows = rows.
Proof.
  induction 1 as [|x rows (Ha & Hc & _ & _ & _ & _ & _ & Hs) _ IH]; [done|].
  rewrite filter_cons_True, IH; [done|].
  unfold about_check. rewrite !bool_decide_eq_true_2, Hs by done. done.
Qed.

Lemma firing_rows_elsewhere a c now k b n rows i cid :
  Forall (row_of a c now k b n) rows -> i <> al_id a \/ cid <> ck_id c ->
  Forall (fun x => nl_alert_id x <> i \/ about_check cid x = false) rows.
Proof.
  intros Hrows Hne. eapply Forall_impl; [exact Hrows|]. cbn.
  intros x (Ha & Hc & _). destruct Hne as [Hne|Hne]; [left; congruence|right].
  unfold about_check. apply bool_decide_eq_false_2. congruence.
Qed.

Lemma chain_last d a cid :
  chain d a ->
  get_last_notification_for_dedup d (al_id a) cid = last (dedup_rows d (al_id a) (about_check cid)).
Proof.
  intros Hc. apply head_order_desc_ascending.
  eapply adjacent_impl; [|apply (Hc cid)]. by intros x y [? _].
Qed.

Lemma allowed_follows now a x y k b n :
  (nl_sent_at x <= now)%Z ->
  nl_hash y = Some k -> nl_sent_at y = now -> nl_is_resend y = b -> nl_resend_count y = n ->
  allowed now a (Some x) k b n -> follows a x y.
Proof.
  intros Hle Hk Hnow Hb Hn [(Hne & -> & ->)|(He & -> & Hr)]; (split; [lia|]); right.
  - left. rewrite Hk. auto.
  - right. rewrite Hk. split; [done|]. split; [done|]. by rewrite Hnow, Hn.
Qed.

Lemma chain_fire d now a c k b n rows :
  Forall (fun x => nl_sent_at x <= now)%Z (db_logs d) -> chain d a ->
  Forall (row_of a c now k b n) rows ->
  allowed now a (get_last_notification_for_dedup d (al_id a) (ck_id c)) k b n ->
  chain (add_notification_logs d rows) a.
Proof.
  intros Hclock Hc Hrows Hal cid.
  destruct (decide (cid = ck_id c)) as [->|Hne].
  2: { rewrite dedup_rows_elsewhere; [apply Hc|]. eapply firing_rows_elsewhere; eauto. }
  rewrite dedup_rows_app, (firing_rows_selected a c now k b n) by done.
  rewrite (chain_last _ _ _ Hc) in Hal. rewrite Forall_forall in Hrows.
  destruct (Hc (ck_id c)) as [Hstart Hadj]. split.
  { intros x Hx. destruct (dedup_rows d (al_id a) (about_check (ck_id c))) as [|y l] eqn:El.
    - cbn in Hx, Hal. assert (Hin : x ∈ rows) by (destruct rows; [done|]; injection Hx as ->; left).
      apply Hrows in Hin as (_&_&_&_&_&?&?&_). destruct Hal as [-> ->]. done.
    - by apply Hstart. }
  apply adjacent_app. split; [done|]. split.
  - apply adjacent_block. intros x y (_&_&_&?&?&?&?&_)%Hrows (_&_&_&?&?&?&?&_)%Hrows.
    split; [lia|]. left. repeat split; congruence.
  - intros x y Hx Hy. rewrite Hx in Hal.
    assert (Hin : y ∈ rows) by (destruct rows; [done|]; injection Hy as ->; left).
    apply Hrows in Hin as (_&_&_&?&?&?&?&_). eapply allowed_follows; eauto.
    apply (dedup_rows_before now _ (al_id a) (about_check (ck_id c))) in Hclock.
    rewrite Forall_forall in Hclock. apply Hclock.
    apply last_Some in Hx as [l' ->]. rewrite elem_of_app. right. left.
Qed.

Lemma evaluate_one_inv now c r d a :
  db_alerts d !! al_id a = Some a -> audit_inv now d ->
  audit_inv now (evaluate_one wire now c r d a).
Proof.
  intros Ha [Hclock Hids Hchain].
  destruct (evaluate_one_rows d now c r a) as [->|(k & b & n & rows & -> & _ & _ & Hrows & Hal)];
    [done|].
  split; cbn.
  - apply Forall_app. split; [done|]. eapply Forall_impl; [exact Hrows|].
    intros x (_&_&_&_&?&_). cbn. lia.
  - done.
  - intros i a' Ha'. destruct (decide (al_id a' = al_id a)) as [He|Hne].
    + assert (a' = a) as ->. { rewrite <- (Hids _ _ Ha') in Ha'. congruence. }
      by eapply chain_fire; eauto.
    + intros cid. rewrite dedup_rows_elsewhere; [by eapply Hchain|].
      eapply firing_rows_elsewhere; eauto.
Qed.

Lemma evaluate_one_alerts now c r d a :
  db_alerts (evaluate_one wire now c r d a) = db_alerts d.
Proof.
  by destruct (evaluate_one_rows d now c r a) as [->|(?&?&?&?&->&_)].
Qed.

Lemma list_active_alerts_stored d cid a :
  (forall i a, db_alerts d !! i = Some a -> al_id a = i) ->
  a ∈ list_active_alerts_for_check d cid ->
  db_alerts d !! al_id a = Some a /\ alert_live a = true.
Proof.
  intros Hids. unfold list_active_alerts_for_check. rewrite list_elem_of_omap.
  intros (m & _ & Hm). destruct (_ && _); [|done].
  destruct (db_alerts d !! cm_alert_id m) as [a'|] eqn:E; cbn in Hm; [|done].
  destruct (alert_live a') eqn:Hl; [|done]. injection Hm as ->.
  by rewrite (Hids _ _ E).
Qed.

Lemma evaluate_list_inv now c r l d :
  (forall a, a ∈ l -> db_alerts d !! al_id a = Some a) -> audit_inv now d ->
  audit_inv now (fold_left (evaluate_one wire now c r) l d).
Proof.
  revert d. induction l as [|a l IH]; intros d Hl Hinv; cbn; [done|].
  apply IH; [|by apply evaluate_one_inv; [apply Hl; left|]].
  intros a' Ha'. rewrite evaluate_one_alerts. apply Hl. by right.
Qed.

Lemma evaluate_check_result_inv d now r d' :
  audit_inv now d -> evaluate_check_result wire d now r = Ok d' -> audit_inv now d'.
Proof.
  intros Hinv. unfold evaluate_check_result.
  destruct (db_checks d !! cr_check_id r) as [c|]; [|done]. intros [= <-].
  apply evaluate_list_inv; [|done]. intros a Ha.
  by apply list_active_alerts_stored in Ha as [? _]; [|apply (inv_ids _ _ Hinv)].
Qed.

(** ** The ingesting server

    Time passes; a result is stored and evaluated; anything but the alerts and
    the audit log is reconfigured (snoozes, mappings, providers, checks). *)
Definition add_result (d : db) (r : check_result) : db :=
  Db (db_agents d) (db_checks d) (db_alerts d) (db_check_maps d) (db_notif_maps d)
     (db_providers d) (db_results d ++ [r]) (db_logs d).

Inductive ingest_step : instant * db -> instant * db -> Prop :=
  | step_tick now now' d : (now <= now')%Z -> ingest_step (now, d) (now', d)
  | step_result now d r d' :
      evaluate_check_result wire (add_result d r) now r = Ok d' ->
      ingest_step (now, d) (now, d')
  | step_configure now d d' :
      db_logs d' = db_logs d -> db_alerts d' = db_alerts d ->
      ingest_step (now, d) (now, d').

Lemma audit_inv_ext now d d' :
  db_logs d' = db_logs d -> db_alerts d' = db_alerts d -> audit_inv now d -> audit_inv now d'.
Proof.
  intros Hl Ha [H1 H2 H3]. split; [by rewrite Hl|by rewrite Ha|].
  intros i a Hi cid. unfold dedup_rows. rewrite Hl. rewrite Ha in Hi. by eapply H3.
Qed.

Lemma ingest_step_inv s s' :
  ingest_step s s' -> audit_inv s.1 s.2 -> audit_inv s'.1 s'.2.
Proof.
  intros Hs Hinv. destruct Hs as [now now' d Hle|now d r d' He|now d d' Hl Ha]; cbn in *.
  - destruct Hinv as [Hc ? ?]. split; [|done|done].
    eapply Forall_impl; [exact Hc|]. cbn. intros; lia.
  - eapply evaluate_check_result_inv; [|exact He]. by eapply audit_inv_ext; [..|exact Hinv].
  - by eapply audit_inv_ext.
Qed.

Lemma ingest_star_inv s s' :
  star ingest_step s s' -> audit_inv s.1 s.2 -> audit_inv s'.1 s'.2.
Proof.
  intros Hs. eapply (star_invariant ingest_step (fun s => audit_inv s.1 s.2)); [|done].
  apply ingest_step_inv.
Qed.

Lemma audit_inv_no_logs now d :
  db_logs d = [] -> (forall i a, db_alerts d !! i = Some a -> al_id a = i) -> audit_inv now d.
Proof.
  intros Hl Hids. split; [by rewrite Hl|done|]. intros i a _ cid.
  unfold dedup_rows. rewrite Hl. split; [by intros x|apply adjacent_nil].
Qed.

(** Along a chain every resend count is between 0 and the alert's maximum. *)
Definition count_ok (a : alert) (x : notification_log) : Prop :=
  (0 <= nl_resend_count x)%Z /\
  forall m, al_max_resends a = Some m -> (nl_resend_count x <= Z.max 0 m)%Z.

Lemma audit_chain_counts a l : audit_chain a l -> Forall (count_ok a) l.
Proof.
  induction l as [|y l IH] using rev_ind; intros [Hs Ha]; [constructor|].
  apply adjacent_snoc in Ha as [Ha Hy]. apply Forall_app.
  assert (HF : Forall (count_ok a) l).
  { apply IH. split; [|done]. intros x Hx. apply Hs. by destruct l. }
  split; [done|]. constructor; [|done].
  destruct (last l) as [x|] eqn:El.
  - pose proof (Hy x eq_refl) as [_ [(_&_&_&Hc)|[(_&_&Hc)|(_&_&(i&_&_&Hc&Hm))]]].
    + apply last_Some in El as [l' ->]. apply Forall_app in HF as [_ HF].
      inversion_clear HF. unfold count_ok. by rewrite <- Hc.
    + unfold count_ok. rewrite Hc. split; intros; lia.
    + apply last_Some in El as [l' ->]. apply Forall_app in HF as [_ HF].
      inversion_clear HF as [|? ? Hx _]. destruct Hx as [Hx _].
      split; [lia|]. intros m Hmm. specialize (Hm m Hmm). lia.
  - apply last_None in El as ->. destruct (Hs y eq_refl) as [_ Hc].
    unfold count_ok. rewrite Hc. split; intros; lia.
Qed.

(** ** Quiet and settled states *)

(** [d] already holds a row for this firing, and nothing is to be resent. *)
Lemma fire_alert_quiet d now a c r k l :
  al_resend_interval a = None ->
  firing_key d a c r = Ok k ->
  get_last_notification_for_dedup d (al_id a) (ck_id c) = Some l -> nl_hash l = Some k ->
  fire_alert wire d now a c r = Ok d.
Proof.
  intros Hres Hk Hl Hh. unfold fire_alert. unfold firing_key in Hk.
  destruct (is_recovery a r) as [rec|]; cbn in *; [|done].
  assert (Hq : forall d0, d0 = d -> compute_alert_state_key a r false = Ok k ->
               should_send_notification d0 now a c r = Ok no_send).
  { intros d0 -> Hk'. unfold should_send_notification. destruct (is_snoozed _ _ _ _); [done|].
    rewrite Hl. unfold state_changed_since. rewrite Hh, Hk'. cbn.
    rewrite String.eqb_refl. cbn. unfold resend_decision. by rewrite Hres. }
  destruct rec; cbn in *.
  - by rewrite (Hq d).
  - unfold handle_parent_suppression. rewrite firing_key_suppressed. cbn.
    destruct (parent_down d c) eqn:Epd; cbn.
    + destruct (parent_down_parent _ _ Epd) as [p ->]. cbn.
      rewrite firing_key_suppressed in Hk. injection Hk as <-.
      unfold should_log_suppression. by rewrite Hl, Hh, String.eqb_refl.
    + destruct (ck_depends_on c); cbn; by rewrite (Hq d).
Qed.

(** A firing whose outcome is not withheld: suppressed by the parent, or not snoozed. *)
Definition audible (d : db) (now : instant) (a : alert) (c : check) (r : check_result) : Prop :=
  is_snoozed d now a c = false \/ is_recovery a r = Ok false /\ parent_down d c = true.

Lemma rows_settle d now a c k b n rows :
  Forall (fun x => nl_sent_at x <= now)%Z (db_logs d) -> rows <> [] ->
  Forall (row_of a c now k b n) rows ->
  exists l, get_last_notification_for_dedup (add_notification_logs d rows) (al_id a) (ck_id c)
              = Some l /\ nl_hash l = Some k.
Proof.
  intros Hclock Hne Hrows. destruct rows as [|x rows _] using rev_ind; [done|].
  apply Forall_app in Hrows as [Hrows Hx]. inversion_clear Hx as [|? ? Hx' _].
  destruct Hx' as (Ha&Hc&_&Hh&Ht&_&_&Hs). exists x. split; [|done].
  eapply (last_notification_snoc now); [done| |done|done| |done].
  - eapply Forall_impl; [exact Hrows|]. intros y (_&_&_&_&?&_). cbn. lia.
  - unfold about_check. by rewrite bool_decide_eq_true_2.
Qed.

Definition last_is_other (d : db) (a : alert) (c : check) (k : string) : Prop :=
  forall l, get_last_notification_for_dedup d (al_id a) (ck_id c) = Some l ->
  exists h, nl_hash l = Some h /\ h <> k.

Lemma should_send_fresh d now a c r k :
  is_snoozed d now a c = false -> compute_alert_state_key a r false = Ok k ->
  last_is_other d a c k -> should_send_notification d now a c r = Ok fresh.
Proof.
  intros Hsn Hk Hl. unfold should_send_notification. rewrite Hsn.
  unfold last_is_other in Hl.
  destruct (get_last_notification_for_dedup _ _ _) as [l|]; [|done].
  destruct (Hl l eq_refl) as (h & Hh & Hne). unfold state_changed_since.
  rewrite Hh, Hk. cbn. by destruct (String.eqb_spec h k).
Qed.

Lemma should_log_other d a c k : last_is_other d a c k -> should_log_suppression d a c k = true.
Proof.
  unfold last_is_other, should_log_suppression. intros Hl.
  destruct (get_last_notification_for_dedup _ _ _) as [l|]; [|done].
  destruct (Hl l eq_refl) as (h & -> & Hne). by destruct (String.eqb_spec h k).
Qed.

(** An audible firing into a new state writes a fresh row per live provider. *)
Lemma fire_alert_notifies d now a c r k d1 :
  live_provider_ids d (al_id a) <> [] -> audible d now a c r ->
  firing_key d a c r = Ok k -> last_is_other d a c k ->
  fire_alert wire d now a c r = Ok d1 ->
  exists rows, d1 = add_notification_logs d rows /\
    map nl_provider_id rows = live_provider_ids d (al_id a) /\
    Forall (row_of a c now k false 0) rows.
Proof.
  intros Hlive Haud Hk Hother. unfold fire_alert. unfold firing_key in Hk.
  unfold audible in Haud.
  destruct (is_recovery a r) as [rec|]; cbn in *; [|done].
  destruct (if rec then _ else _) as [[sup d0]|] eqn:Esup; cbn; [|done].
  destruct sup.
  - destruct rec; [done|]. unfold handle_parent_suppression in Esup.
    destruct (ck_depends_on c); [|done]. rewrite firing_key_suppressed in Esup. cbn in *.
    destruct (parent_down d c); cbn in *; [|done]. rewrite firing_key_suppressed in Hk.
    injection Hk as <-. rewrite (should_log_other _ _ _ _ Hother) in Esup.
    injection Esup as <-. intros [= <-]. eexists. split; [done|].
    split; [apply suppression_rows_providers|by apply Forall_map_all].
  - assert (d0 = d /\ negb rec && parent_down d c = false) as [-> Hpd].
    { destruct rec; [by injection Esup as <-|].
      apply handle_parent_suppression_spec in Esup as [<- [->|[? _]]]; done. }
    rewrite Hpd in Hk.
    assert (Hsn : is_snoozed d now a c = false).
    { destruct Haud as [Hs|[[= ->] Hp]]; [done|]. by rewrite Hp in Hpd. }
    rewrite (should_send_fresh d now a c r k) by done.
    cbn. destruct (build_notification_context d a c r rec) as [ctx|]; cbn; [|done].
    rewrite Hk. cbn. unfold send_to_providers. cbn [sm_alert_id].
    destruct (live_provider_ids d (al_id a)) as [|p ps]; [done|]. cbn.
    destruct (send_notifications _ _ _ _ _ _) as [[d2 rows]|] eqn:Esn; cbn; [|done].
    intros [= <-]. apply send_notifications_spec in Esn as (-> & Hids & Hrows).
    exists rows. split; [done|]. split; [done|].
    eapply Forall_impl; [exact Hrows|]. unfold row_of. naive_solver.
Qed.

(** Such a firing returns: only the SSL detail of an odd certificate raises. *)
Lemma fire_alert_returns d now a c r k :
  keyed d -> audible d now a c r -> firing_key d a c r = Ok k -> last_is_other d a c k ->
  (al_trigger a = SSL_CERT_EXPIRY -> exists s, ssl_detail r = Ok s) ->
  exists d1, fire_alert wire d now a c r = Ok d1.
Proof.
  intros Hkeyed Haud Hk Hother Hssl. unfold fire_alert, firing_key, audible in *.
  destruct (is_recovery a r) as [rec|]; cbn in *; [|done].
  assert (Hsup : exists b, (if rec then Ok (false, d) else handle_parent_suppression d now a c r)
    = Ok (b, d) /\ (b = false -> negb rec && parent_down d c = false) \/
    exists d1, (if rec then Ok (false, d) else handle_parent_suppression d now a c r) = Ok (true, d1)).
  { destruct rec; [by exists false; left|]. unfold handle_parent_suppression.
    destruct (parent_down d c) eqn:Epd; cbn in *.
    - destruct (parent_down_parent _ _ Epd) as [p ->]. cbn. rewrite firing_key_suppressed. cbn.
      exists true. right. destruct (should_log_suppression _ _ _ _); eauto.
    - exists false. left. by destruct (ck_depends_on c). }
  destruct Hsup as [[] [[-> Hpd]|[d1 ->]]]; cbn; [by eauto..| |by eauto]. rewrite (Hpd eq_refl) in Hk.
  assert (Hsn : is_snoozed d now a c = false).
  { destruct Haud as [Hs|[[= ->] Hp]]; [done|]. specialize (Hpd eq_refl). by rewrite Hp in Hpd. }
  rewrite (should_send_fresh d now a c r k) by done. cbn.
  unfold build_notification_context.
  destruct (if bool_decide (al_trigger a = SSL_CERT_EXPIRY) then ssl_detail r else Ok None) as [detail|e] eqn:Ed.
  2: { destruct (bool_decide_reflect (al_trigger a = SSL_CERT_EXPIRY)) as [Ht|]; [|done].
       destruct (Hssl Ht) as [s Hs]. congruence. }
  cbn. rewrite Hk. cbn. unfold send_to_providers. cbn [sm_alert_id].
  destruct (live_provider_ids d (al_id a)) as [|p ps] eqn:El; [by cbn; eauto|].
  match goal with |- context [send_notifications wire d now (p :: ps) ?ctx ?m] =>
    destruct (send_notifications_total wire d now (p :: ps) ctx m) as (d' & rows & ->) end; [|by cbn; eauto].
  intros i Hi. eapply live_providers_found; [done|]. by rewrite El.
Qed.

(** After an audible firing the newest row records its state. *)
Lemma fire_alert_settles d now a c r k d1 :
  Forall (fun x => nl_sent_at x <= now)%Z (db_logs d) ->
  (forall l, get_last_notification_for_dedup d (al_id a) (ck_id c) = Some l -> nl_hash l <> None) ->
  live_provider_ids d (al_id a) <> [] ->
  audible d now a c r ->
  firing_key d a c r = Ok k ->
  fire_alert wire d now a c r = Ok d1 ->
  exists l, get_last_notification_for_dedup d1 (al_id a) (ck_id c) = Some l /\ nl_hash l = Some k.
Proof.
  intros Hclock Hhash Hlive Haud Hk Hfire.
  pose proof (fire_alert_rows _ _ _ _ _ _ Hfire) as [->|(k' & b & n & rows & -> & Hne & Hk' & _ & Hrows & _)].
  2: { rewrite Hk in Hk'. injection Hk' as ->. by eapply rows_settle. }
  assert (Hdec : last_is_other d a c k \/ exists l,
    get_last_notification_for_dedup d (al_id a) (ck_id c) = Some l /\ nl_hash l = Some k).
  { unfold last_is_other. destruct (get_last_notification_for_dedup _ _ _) as [l|]; [|by left].
    specialize (Hhash l eq_refl). destruct (nl_hash l) as [h|] eqn:Eh; [|done].
    destruct (decide (h = k)) as [->|Hne]; [right; eauto|left].
    intros l' [= <-]. eauto. }
  destruct Hdec as [Hother|Hdone]; [|done].
  destruct (fire_alert_notifies _ _ _ _ _ _ _ Hlive Haud Hk Hother Hfire)
    as (rows & Heq & Hids & Hrows).
  rewrite Heq. eapply rows_settle; [done| |done]. by destruct rows.
Qed.
End Facts.
