(* ===== verification/AlertTheorems.v ===== *)
(** * Alert evaluation: properties

    The properties of [AlertEval] and [Notify], each with a witness on the
    fixtures. *)

From S2P Require Import Prelude Py Store Notify AlertEval AlertFacts Fixtures.

Section Properties.
Context `{PyRuntime}.
Variable wire : provider -> notification_context -> res bool.

(** C1: Along every run of the ingesting server (time passing, results stored
    and evaluated, anything but the alerts and the log reconfigured) from an
    empty audit log, the audit rows of an alert and a check form a chain: the
    first is no resend, and each next row is the same firing through another
    provider, a changed state sent fresh with its counter restarted, or a
    resend at least the configured interval after the previous row, counted
    one up and within the maximum. *)
Theorem audit_rows_chain now0 d0 now d a check_id :
  db_logs d0 = [] ->
  (forall i b, db_alerts d0 !! i = Some b -> al_id b = i) ->
  star (ingest_step wire) (now0, d0) (now, d) ->
  db_alerts d !! al_id a = Some a ->
  starts_fresh (dedup_rows d (al_id a) (about_check check_id)) /\
  adjacent (follows a) (dedup_rows d (al_id a) (about_check check_id)).
Proof.
  intros Hl Hids Hstar Ha. apply ingest_star_inv in Hstar; [|by apply audit_inv_no_logs].
  by apply (inv_chain _ _ Hstar _ _ Ha).
Qed.

(** In every reachable state each recorded resend count is non-negative
    and never exceeds the alert's [max_resends]. *)
Theorem resends_bounded now0 d0 now d a check_id x m :
  db_logs d0 = [] ->
  (forall i b, db_alerts d0 !! i = Some b -> al_id b = i) ->
  star (ingest_step wire) (now0, d0) (now, d) ->
  db_alerts d !! al_id a = Some a ->
  x ∈ dedup_rows d (al_id a) (about_check check_id) ->
  al_max_resends a = Some m ->
  (0 <= nl_resend_count x <= Z.max 0 m)%Z.
Proof.
  intros Hl Hids Hstar Ha Hx Hm. apply ingest_star_inv in Hstar; [|by apply audit_inv_no_logs].
  pose proof (inv_chain _ _ Hstar _ _ Ha check_id) as Hc.
  apply audit_chain_counts in Hc. rewrite Forall_forall in Hc.
  destruct (Hc x Hx) as [? Hmax]. split; [done|]. by apply Hmax.
Qed.

(** With no resend interval a state is notified once: after a firing that
    was not withheld recorded its state key, any later firing of the same
    state writes nothing. *)
Theorem notified_once d d1 now now' a c r r' k :
  audit_inv now d ->
  (forall l, get_last_notification_for_dedup d (al_id a) (ck_id c) = Some l -> nl_hash l <> None) ->
  live_provider_ids d (al_id a) <> [] ->
  audible d now a c r ->
  al_resend_interval a = None ->
  firing_key d a c r = Ok k ->
  fire_alert wire d now a c r = Ok d1 ->
  firing_key d1 a c r' = Ok k ->
  fire_alert wire d1 now' a c r' = Ok d1.
Proof.
  intros [Hclock _ _] Hh Hlive Haud Hres Hk Hfire Hk'.
  destruct (fire_alert_settles wire d now a c r k d1) as (l & Hl & Hlk); [done..|].
  by eapply fire_alert_quiet.
Qed.

(** C36: A change of state always notifies: a firing that is not withheld and
    whose key differs from the last recorded one completes and appends exactly
    one row per live provider, in order, carrying the new key, never as a
    resend (the SSL detail of the result being readable, for that trigger). *)
Theorem state_change_notifies d now a c r k :
  keyed d -> (al_trigger a = SSL_CERT_EXPIRY -> exists s, ssl_detail r = Ok s) ->
  live_provider_ids d (al_id a) <> [] -> audible d now a c r ->
  firing_key d a c r = Ok k -> last_is_other d a c k ->
  exists rows, fire_alert wire d now a c r = Ok (add_notification_logs d rows) /\
    map nl_provider_id rows = live_provider_ids d (al_id a) /\
    Forall (row_of a c now k false 0) rows.
Proof.
  intros Hkeyed Hssl Hlive Haud Hk Hother.
  destruct (fire_alert_returns wire d now a c r k) as [d1 Hfire]; [done..|].
  destruct (fire_alert_notifies wire d now a c r k d1) as (rows & Heq & Hrest); [done..|].
  exists rows. by rewrite Hfire, Heq.
Qed.

(** While the parent is down a firing that is not a recovery completes and
    delivers nothing: every row it appends is SUPPRESSED (whatever the wire
    would do), one per live provider, and once the suppression is recorded a
    further firing appends no row. *)
Theorem parent_down_suppresses d now a c r :
  parent_down d c = true -> is_recovery a r = Ok false ->
  exists rows, fire_alert wire d now a c r = Ok (add_notification_logs d rows) /\
    Forall (fun x => nl_status x = SUPPRESSED /\ nl_hash x = Some "parent_down") rows /\
    (rows = [] \/ map nl_provider_id rows = live_provider_ids d (al_id a)) /\
    (forall l, get_last_notification_for_dedup d (al_id a) (ck_id c) = Some l ->
       nl_hash l = Some "parent_down" -> rows = []).
Proof.
  intros Hpd Hrec. unfold fire_alert. rewrite Hrec. cbn. unfold handle_parent_suppression.
  destruct (parent_down_parent _ _ Hpd) as [p ->]. rewrite Hpd. cbn.
  rewrite firing_key_suppressed. cbn. destruct (should_log_suppression d a c "parent_down") eqn:Hlog; cbn.
  - eexists. split; [done|]. split; [by apply Forall_map_all|].
    split; [right; apply suppression_rows_providers|].
    intros l Hl Hh. unfold should_log_suppression in Hlog. by rewrite Hl, Hh in Hlog.
  - exists []. rewrite add_no_logs. repeat split; [constructor|by left].
Qed.

(** A snoozed pair is silent: unless its parent's suppression is to be
    recorded, a firing while the snooze lasts completes and leaves the state
    as it was. *)
Theorem snoozed_is_silent d now a c r m until rec :
  get_check_mapping d (al_id a) (ck_id c) = Some m ->
  cm_snoozed_until m = Some until -> (now < until)%Z ->
  is_recovery a r = Ok rec -> parent_down d c = false \/ rec = true ->
  fire_alert wire d now a c r = Ok d.
Proof.
  intros Hm Hu Hlt Hrec Hpd. unfold fire_alert. rewrite Hrec. cbn.
  assert (Hsn : should_send_notification d now a c r = Ok no_send).
  { unfold should_send_notification, is_snoozed. rewrite Hm, Hu.
    by rewrite (proj2 (Z.ltb_lt _ _)). }
  destruct rec; cbn; [by rewrite Hsn|]. destruct Hpd as [Hpd|]; [|done].
  unfold handle_parent_suppression. rewrite Hpd. cbn. destruct (ck_depends_on c); cbn; by rewrite Hsn.
Qed.

(** One alert's failure never disturbs the others: an alert whose
    evaluation raises leaves exactly the state it found, so the pass ends as
    if that alert had not been listed. *)
Theorem failing_alert_is_isolated d now c r before a after e :
  evaluate_alert wire (fold_left (evaluate_one wire now c r) before d) now c r a = Raise e ->
  fold_left (evaluate_one wire now c r) (before ++ a :: after) d =
  fold_left (evaluate_one wire now c r) (before ++ after) d.
Proof.
  intros He. rewrite !fold_left_app. cbn. f_equal. unfold evaluate_one at 1.
  rewrite He. by destruct (is_silence_trigger _).
Qed.

Definition from_active_alert (d : db) (c : check) (now : instant) (x : notification_log) : Prop :=
  exists a, a ∈ list_active_alerts_for_check d (ck_id c) /\
    is_silence_trigger (al_trigger a) = false /\
    nl_alert_id x = al_id a /\ nl_provider_id x ∈ live_provider_ids d (al_id a) /\
    nl_check_id x = Some (ck_id c) /\ nl_sent_at x = now.

Lemma evaluate_one_appends d now c r a :
  exists rows, evaluate_one wire now c r d a = add_notification_logs d rows /\
    Forall (fun x => is_silence_trigger (al_trigger a) = false /\
      nl_alert_id x = al_id a /\ nl_provider_id x ∈ live_provider_ids d (al_id a) /\
      nl_check_id x = Some (ck_id c) /\ nl_sent_at x = now) rows.
Proof.
  destruct (is_silence_trigger (al_trigger a)) eqn:Et.
  { exists []. split; [|constructor]. unfold evaluate_one. by rewrite Et, add_no_logs. }
  destruct (evaluate_one_rows wire d now c r a) as [->|(k&b&n&rows&->&_&Hids&Hrows&_)].
  { exists []. split; [by rewrite add_no_logs|constructor]. }
  exists rows. split; [done|]. rewrite Forall_forall in Hrows |- *. intros x Hx.
  destruct (Hrows x Hx) as (?&?&_&_&?&_). repeat (split; [done|]). split; [|done].
  rewrite <- Hids. by apply list_elem_of_fmap_2.
Qed.

Lemma evaluate_list_appends d now c r l :
  exists rows, fold_left (evaluate_one wire now c r) l d = add_notification_logs d rows /\
    Forall (fun x => exists a, a ∈ l /\ is_silence_trigger (al_trigger a) = false /\
      nl_alert_id x = al_id a /\ nl_provider_id x ∈ live_provider_ids d (al_id a) /\
      nl_check_id x = Some (ck_id c) /\ nl_sent_at x = now) rows.
Proof.
  revert d. induction l as [|a l IH]; intros d; cbn.
  { exists []. split; [by rewrite add_no_logs|constructor]. }
  destruct (evaluate_one_appends d now c r a) as (rows1 & -> & H1).
  destruct (IH (add_notification_logs d rows1)) as (rows2 & -> & H2).
  exists (rows1 ++ rows2). split.
  { unfold add_notification_logs, set_logs. cbn. by rewrite (assoc_L (++)). }
  apply Forall_app. split.
  - eapply Forall_impl; [exact H1|]. intros x Hx. exists a. split; [left|done].
  - eapply Forall_impl; [exact H2|]. intros x (a' & ? & Hx). exists a'. split; [by right|done].
Qed.

(** Evaluating a result of a stored check always completes, changes
    nothing but the audit log, and only appends to it: rows about that check,
    dated now, each of an enabled alert mapped to the check whose trigger is
    not a silence trigger, through one of that alert's live providers. *)
Theorem evaluation_only_appends d now r c :
  db_checks d !! cr_check_id r = Some c ->
  exists rows, evaluate_check_result wire d now r = Ok (add_notification_logs d rows) /\
               Forall (from_active_alert d c now) rows.
Proof.
  intros Hc. unfold evaluate_check_result. rewrite Hc.
  destruct (evaluate_list_appends d now c r (list_active_alerts_for_check d (ck_id c)))
    as (rows & -> & Hr).
  exists rows. split; [done|]. eapply Forall_impl; [exact Hr|].
  intros x (a & ? & ?). by exists a.
Qed.

(** A state key always fits its column: it is at most 64 characters. *)
Theorem state_key_fits `{!PyRuntimeLaws} a r pd k :
  compute_alert_state_key a r pd = Ok k -> (String.length k <= STATE_KEY_LENGTH)%nat.
Proof.
  unfold compute_alert_state_key. destruct (state_key a r pd) as [key|]; cbn; [|done].
  destruct (Nat.leb_spec (String.length key) STATE_KEY_LENGTH); intros [= <-]; [done|].
  by rewrite sha256_hex_length.
Qed.
End Properties.

(** ** Where the documents and the code part

    Not among the properties: behaviours the findings cite. *)
Section Divergences.
Context `{PyRuntime}.
Variable wire : provider -> notification_context -> res bool.

(** docs/user-guide/alerts.md calls Repeated Failure an alias of Status Change;
    but its state key never changes, so with no resend interval an alert that
    fired once never notifies again, recovery and new outages included. *)
Theorem repeated_failure_never_again d now a c r l :
  al_trigger a = REPEATED_FAILURE -> al_resend_interval a = None -> parent_down d c = false ->
  get_last_notification_for_dedup d (al_id a) (ck_id c) = Some l ->
  nl_hash l = Some "repeated_failure:active" ->
  fire_alert wire d now a c r = Ok d.
Proof.
  intros Ht Hres Hpd Hl Hh. apply (fire_alert_quiet wire d now a c r "repeated_failure:active" l); try done.
  unfold firing_key, is_recovery. rewrite Ht, Hpd.
  assert (Hkey : forall b : bool, b = false -> compute_alert_state_key a r b = Ok "repeated_failure:active").
  { intros b ->. unfold compute_alert_state_key, state_key. by rewrite Ht. }
  destruct (al_notify_on_recovery a); cbn; apply Hkey; [by rewrite andb_false_r|done].
Qed.

(** A latency alert that fires on a slow but successful check is taken for a
    recovery, and so is not suppressed while the parent is down. *)
Theorem slow_success_is_recovery a r :
  al_trigger a = THRESHOLD -> al_notify_on_recovery a = true -> cr_success r = true ->
  is_recovery a r = Ok true.
Proof. intros Ht Hn Hs. unfold is_recovery. by rewrite Hn, Ht, Hs. Qed.
End Divergences.

(** ** Witnesses *)

#[local] Existing Instance plain_runtime.
#[local] Existing Instance plain_runtime_laws.

(** A status-change alert, resent every five minutes at most three times. *)
Definition watching (resend max_resends : option Z) : alert :=
  demo_alert STATUS_CHANGE
    [("on_status", PList [PStr "error"]); ("consecutive_failures", PInt 1)] resend max_resends.

Definition down_at (id : uuid) (t : instant) : check_result := demo_result id 10 t false.

Definition ingested (now : instant) (d : db) (r : check_result) : db :=
  match evaluate_check_result wire_ok (add_result d r) now r with Ok d' => d' | Raise _ => d end.

Definition run_start : db := demo_db (watching (Some 5%Z) (Some 3%Z)) None None [] [].
Definition run_once : db := ingested 0 run_start (down_at 100 0).
Definition run_twice : db := ingested (minutes 10) run_once (down_at 101 (minutes 10)).

Lemma run_reaches : star (ingest_step wire_ok) (0%Z, run_start) (minutes 10, run_twice).
Proof.
  apply (star_step _ _ (0%Z, run_once)).
  { apply (step_result _ _ _ (down_at 100 0)). vm_compute. reflexivity. }
  apply (star_step _ _ (minutes 10, run_once)); [apply step_tick; done|].
  apply star_one, (step_result _ _ _ (down_at 101 (minutes 10))). vm_compute. reflexivity.
Qed.

Lemma audit_rows_chain_witness :
  length (db_logs run_twice) = 2%nat /\
  starts_fresh (dedup_rows run_twice 7 (about_check 10)) /\
  adjacent (follows (watching (Some 5%Z) (Some 3%Z))) (dedup_rows run_twice 7 (about_check 10)).
Proof.
  split; [vm_compute; reflexivity|].
  apply (audit_rows_chain wire_ok 0 run_start (minutes 10) run_twice (watching (Some 5%Z) (Some 3%Z)) 10).
  - reflexivity.
  - intros i b Hb. cbn in Hb. apply lookup_singleton_Some in Hb as [<- <-]. reflexivity.
  - exact run_reaches.
  - vm_compute. reflexivity.
Defined.

Lemma resends_bounded_witness :
  exists x, x ∈ dedup_rows run_twice 7 (about_check 10) /\ nl_resend_count x = 1%Z /\
            (0 <= nl_resend_count x <= Z.max 0 3)%Z.
Proof.
  exists (last_row (dedup_rows run_twice 7 (about_check 10))).
  split; [vm_compute; right; left|]. split; [vm_compute; reflexivity|].
  apply (resends_bounded wire_ok 0 run_start (minutes 10) run_twice (watching (Some 5%Z) (Some 3%Z)) 10).
  - reflexivity.
  - intros i b Hb. cbn in Hb. apply lookup_singleton_Some in Hb as [<- <-]. reflexivity.
  - exact run_reaches.
  - vm_compute. reflexivity.
  - vm_compute. right. left.
  - reflexivity.
Defined.

(** One failing result of check 10 after the other, no resend. *)
Definition once : alert := watching None None.
Definition web : check := demo_check 10 None.
Definition before_fire : db := demo_db once None None [down_at 100 0] [].
Definition fired : db := value_of empty_db (fire_alert wire_ok before_fire 0 once web (down_at 100 0)).

Lemma demo_alert_ids a parent snoozed results logs i b :
  al_id a = 7%N -> db_alerts (demo_db a parent snoozed results logs) !! i = Some b -> al_id b = i.
Proof. intros Ha Hb. cbn in Hb. by apply lookup_singleton_Some in Hb as [<- <-]. Qed.

Lemma notified_once_witness :
  length (db_logs fired) = 1%nat /\
  fire_alert wire_ok fired (minutes 60) once web (down_at 101 (minutes 60)) = Ok fired.
Proof.
  split; [vm_compute; reflexivity|].
  apply (notified_once wire_ok before_fire fired 0 (minutes 60) once web (down_at 100 0)
           (down_at 101 (minutes 60)) "status:down").
  - apply audit_inv_no_logs; [reflexivity|]. intros i b. apply demo_alert_ids. reflexivity.
  - intros l Hl. vm_compute in Hl. discriminate Hl.
  - vm_compute. discriminate.
  - left. vm_compute. reflexivity.
  - reflexivity.
  - vm_compute. reflexivity.
  - vm_compute. reflexivity.
  - vm_compute. reflexivity.
Defined.

Lemma state_change_notifies_witness :
  exists rows, fire_alert wire_ok before_fire 0 once web (down_at 100 0) = Ok (add_notification_logs before_fire rows) /\
    map nl_provider_id rows = [5%N] /\ Forall (row_of once web 0 "status:down" false 0) rows.
Proof.
  apply (state_change_notifies wire_ok before_fire 0 once web (down_at 100 0) "status:down").
  - apply demo_keyed. reflexivity.
  - intros E. discriminate E.
  - vm_compute. discriminate.
  - left. vm_compute. reflexivity.
  - vm_compute. reflexivity.
  - intros l Hl. vm_compute in Hl. discriminate Hl.
Defined.

(** Check 10 depends on check 20, which is down. *)
Definition child : check := demo_check 10 (Some 20%N).
Definition parent_fails : db :=
  demo_db once (Some 20%N) None [demo_result 99 20 0 false; down_at 100 0] [].
Definition suppressed : db := value_of empty_db (fire_alert wire_ok parent_fails 0 once child (down_at 100 0)).

Lemma parent_down_suppresses_witness :
  length (db_logs suppressed) = 1%nat /\
  exists rows, fire_alert wire_ok parent_fails 0 once child (down_at 100 0)
      = Ok (add_notification_logs parent_fails rows) /\
    Forall (fun x => nl_status x = SUPPRESSED /\ nl_hash x = Some "parent_down") rows.
Proof.
  split; [vm_compute; reflexivity|].
  destruct (parent_down_suppresses wire_ok parent_fails 0 once child (down_at 100 0)) as (rows & H1 & H2 & _).
  - vm_compute. reflexivity.
  - vm_compute. reflexivity.
  - exists rows. split; [exact H1|exact H2].
Defined.

Definition snoozed_db : db := demo_db once None (Some (minutes 30)) [down_at 100 0] [].

Lemma snoozed_is_silent_witness :
  should_fire_alert snoozed_db once web (down_at 100 0) = Ok true /\
  fire_alert wire_ok snoozed_db 0 once web (down_at 100 0) = Ok snoozed_db.
Proof.
  split; [vm_compute; reflexivity|].
  apply (snoozed_is_silent wire_ok snoozed_db 0 once web (down_at 100 0)
           (AlertCheckMapping 7 10 true (Some (minutes 30)) None None) (minutes 30) false).
  - vm_compute. reflexivity.
  - reflexivity.
  - vm_compute. reflexivity.
  - vm_compute. reflexivity.
  - left. vm_compute. reflexivity.
Defined.

(** [on_status] stored as null: [in] raises. *)
Definition broken : alert := demo_alert STATUS_CHANGE [("on_status", PNone)] None None.

Lemma failing_alert_is_isolated_witness :
  evaluate_alert wire_ok before_fire 0 web (down_at 100 0) broken = Raise TypeError /\
  fold_left (evaluate_one wire_ok 0 web (down_at 100 0)) [broken; once] before_fire = fired.
Proof.
  split; [vm_compute; reflexivity|].
  rewrite (failing_alert_is_isolated wire_ok before_fire 0 web (down_at 100 0) [] broken [once] TypeError).
  - vm_compute. reflexivity.
  - vm_compute. reflexivity.
Defined.

Lemma evaluation_only_appends_witness :
  exists rows, evaluate_check_result wire_ok before_fire 0 (down_at 100 0)
                 = Ok (add_notification_logs before_fire rows) /\
               Forall (from_active_alert before_fire web 0) rows.
Proof. apply (evaluation_only_appends wire_ok before_fire 0 (down_at 100 0) web). reflexivity. Defined.

Lemma state_key_fits_witness : (String.length "status:down" <= STATE_KEY_LENGTH)%nat.
Proof. apply (state_key_fits once (down_at 100 0) false "status:down"). vm_compute. reflexivity. Defined.
