(* ===== verification/Ingest.v ===== *)
(** * Ingest

    services/core/check_result_core_service.py: a report of an agent, from the
    validation of each of its results to the rows stored and the alerts
    evaluated; the expiry of a certificate (core/ssl_expiry.py) computed on the
    way; crud/check_result_crud.py's idempotent insert.

    Pydantic's verdict on one result, UUID(s) and the two readings of a date are
    a parameter.  uuid7() and the clock are functions of the position they are
    called at: [fresh i] and [seen i] for the i-th result of the report, [tick i]
    for the i-th evaluation. *)

From S2P Require Import Prelude Py Store Notify Liveness Assignment AlertEval.

(** ** What a report holds *)

Record CheckResultCreate := ResultCreate {
  rc_timestamp : instant;
  rc_success : bool;
  rc_latency_ms : option float;
  rc_result_id : option string;
  rc_check_id : option uuid;
  rc_display_name : string;
  rc_check_type : string;
  rc_metrics : option pydict;
}.

Record AgentReportSubmission := Submission {
  sub_agent_id : uuid;
  sub_timestamp : option instant;
  sub_checks : list pydict;
}.

Record AgentReportRequest := Report {
  rp_agent_id : uuid;
  rp_timestamp : option instant;
  rp_checks : list CheckResultCreate;
}.

Record processed := Processed {
  received_at : instant;
  results_processed : nat;
  results_failed : nat;
  check_display_names : list string;
  alerts_evaluated : nat;
}.

Class Submissions := {
  validate_result : pydict -> option CheckResultCreate;   (* CheckResultCreate.model_validate *)
  uuid_of_text : string -> option uuid;                   (* UUID(s); None is ValueError *)
  strptime_agent : string -> option instant;              (* datetime.strptime(s, _AGENT_DATE_FORMAT), as UTC *)
  fromisoformat_utc : string -> option instant;           (* datetime.fromisoformat(s), an absent offset being UTC *)
}.

(** The settings alert.ssl_cert_warning_days and alert.ssl_cert_critical_days. *)
Record ssl_windows := SslWindows { warning_days : Z; critical_days : Z }.

(** ** core/ssl_expiry.py *)

Section Ingest.
Context `{PyRuntime} `{ServerSettings} `{Submissions}.

Definition parse_expiry (s : string) : option instant :=
  match strptime_agent s with Some t => Some t | None => fromisoformat_utc s end.

Definition expiry_fields (state : string) (expiration_date days : pyval) (expired soon critical : bool) : pydict :=
  [("state", PStr state); ("expiration_date", expiration_date); ("days_until_expiration", days);
   ("expired", PBool expired); ("expires_soon", PBool soon); ("expires_critical", PBool critical)].

Definition ssl_expiry_fields (now : instant) (w : ssl_windows) (expiration_date : pyval) : res pydict :=
  let unknown := expiry_fields "unknown" expiration_date PNone false false false in
  if negb (truthy expiration_date) then Ok unknown else
  match expiration_date with
  | PStr s =>
      match parse_expiry s with
      | None => Ok unknown
      | Some expires_at =>
          let days_remaining := ((expires_at - now) / us_per_day)%Z in
          let expired := (days_remaining <? 0)%Z in
          let expires_soon := ((0 <=? days_remaining) && (days_remaining <=? warning_days w))%Z in
          let expires_critical := ((0 <=? days_remaining) && (days_remaining <=? critical_days w))%Z in
          let state := if expired then "expired" else if expires_critical then "critical"
                       else if expires_soon then "soon" else "valid" in
          Ok (expiry_fields state (PStr s) (PInt days_remaining) expired expires_soon expires_critical)
      end
  | _ => Raise TypeError
  end.

(** [{**a, **b}] *)
Definition dict_merge (a b : pydict) : pydict := fold_left (fun d kv => dict_set d kv.1 kv.2) b a.

Definition compute_ssl_cert_info (now : instant) (w : ssl_windows) (raw_cert_data : pyval) : res pyval :=
  match raw_cert_data with
  | PDict raw =>
      fields ← ssl_expiry_fields now w (dict_get raw "expiration_date" PNone);
      Ok (PDict (dict_merge raw fields))
  | _ => Raise TypeError
  end.

(** The metrics of a result, its certificate's expiry computed. *)
Definition with_ssl_cert_info (now : instant) (w : ssl_windows) (metrics : pydict) : res pydict :=
  match assoc_get metrics "response" with
  | None => Ok metrics
  | Some response =>
      has ← py_in "ssl_certificate" response;
      if negb has then Ok metrics else
      match response with
      | PDict r =>
          computed ← compute_ssl_cert_info now w (dict_get r "ssl_certificate" PNone);
          Ok (dict_set metrics "response" (PDict (dict_set r "ssl_certificate" computed)))
      | _ => Raise TypeError
      end
  end.

(** ** Validation, result by result *)

Definition validate_results (s : AgentReportSubmission) : list CheckResultCreate * nat :=
  let valid := omap validate_result (sub_checks s) in (valid, length (sub_checks s) - length valid).

(** ** The rows of a report *)

Definition result_id (fresh : uuid) (given : option string) : uuid :=
  match given with
  | Some s => if String.eqb s "" then fresh else default fresh (uuid_of_text s)
  | None => fresh
  end.

Definition metrics_json (metrics : pydict) : metrics_text :=
  match metrics with [] => NoMetrics | _ => Json (PDict metrics) end.

(** The body of the loop: a row, a refused result ([None]), or an exception. *)
Definition row_of_result (now : instant) (w : ssl_windows) (agent_id : uuid) (check_map : gset uuid) (fresh : uuid)
    (r : CheckResultCreate) : res (option check_result) :=
  match rc_check_id r with
  | Some check_id =>
      if bool_decide (check_id ∈ check_map) then
        metrics ← with_ssl_cert_info now w (default [] (rc_metrics r));
        Ok (Some (CheckResult (result_id fresh (rc_result_id r)) (rc_timestamp r) agent_id check_id
                    (rc_success r) (rc_latency_ms r) (metrics_json metrics)))
      else Ok None
  | None => Ok None
  end.

(** The loop: the rows to insert with the names of their results, and the failures. *)
Fixpoint collect_rows (seen : nat -> instant) (w : ssl_windows) (agent_id : uuid) (check_map : gset uuid) (fresh : nat -> uuid)
    (i : nat) (checks : list CheckResultCreate) : list (check_result * string) * nat :=
  match checks with
  | [] => ([], 0)
  | r :: rest =>
      let '(rows, failed) := collect_rows seen w agent_id check_map fresh (S i) rest in
      match row_of_result (seen i) w agent_id check_map (fresh i) r with
      | Ok (Some row) =>
          ((row, if String.eqb (rc_display_name r) "" then "unknown" else rc_display_name r) :: rows, failed)
      | Ok None | Raise _ => (rows, S failed)
      end
  end.

(** ** crud/check_result_crud.py: [bulk_insert_idempotent]

    A statement inserts its rows in order: one whose (check, timestamp) is there
    is skipped, one whose (id, timestamp) is there breaks the primary key. *)
Definition same_key (a b : check_result) : bool :=
  bool_decide (cr_check_id a = cr_check_id b) && bool_decide (cr_timestamp a = cr_timestamp b).
Definition same_primary_key (a b : check_result) : bool :=
  bool_decide (cr_id a = cr_id b) && bool_decide (cr_timestamp a = cr_timestamp b).

Fixpoint insert_rows (table rows : list check_result) : res (list check_result * list check_result) :=
  match rows with
  | [] => Ok (table, [])
  | r :: rest =>
      if existsb (same_key r) table then insert_rows table rest
      else if existsb (same_primary_key r) table then Raise IntegrityError
      else '(table', inserted) ← insert_rows (table ++ [r]) rest; Ok (table', r :: inserted)
  end.

Definition chunk_size : nat := 1500.

Fixpoint insert_chunks (fuel : nat) (table rows : list check_result) : res (list check_result * list check_result) :=
  match rows, fuel with
  | [], _ => Ok (table, [])
  | _, O => Raise OutOfFuel
  | _, S fuel =>
      '(table1, inserted1) ← insert_rows table (take chunk_size rows);
      '(table2, inserted2) ← insert_chunks fuel table1 (drop chunk_size rows);
      Ok (table2, inserted1 ++ inserted2)
  end.

Definition bulk_insert_idempotent (d : db) (rows : list check_result) : res (db * list check_result) :=
  '(table, inserted) ← insert_chunks (length rows) (db_results d) rows;
  Ok (Db (db_agents d) (db_checks d) (db_alerts d) (db_check_maps d) (db_notif_maps d) (db_providers d)
        table (db_logs d), inserted).

(** ** [process_agent_report] *)

Section Report.
Variable wire : provider -> notification_context -> res bool.

(** The alerts of each inserted row, in order; an exception is logged. *)
Fixpoint evaluate_all (tick : nat -> instant) (i : nat) (d : db) (inserted : list check_result) : db * nat :=
  match inserted with
  | [] => (d, 0)
  | r :: rest =>
      match evaluate_check_result wire d (tick i) r with
      | Ok d' => let '(d'', n) := evaluate_all tick (S i) d' rest in (d'', S n)
      | Raise _ => evaluate_all tick (S i) d rest
      end
  end.

Definition process_agent_report (d : db) (now : instant) (w : ssl_windows) (fresh : nat -> uuid)
    (seen tick : nat -> instant) (report : AgentReportRequest) : res (db * processed) :=
  match db_agents d !! rp_agent_id report with
  | None => Raise NotFoundException
  | Some a =>
      assigned_checks ← get_reportable_checks d now a;
      let check_map : gset uuid := list_to_set (map ck_id assigned_checks) in
      let '(rows, failed) := collect_rows seen w (ag_id a) check_map fresh 0 (rp_checks report) in
      '(d1, inserted) ← bulk_insert_idempotent d (map fst rows);
      let '(d2, evaluated) := evaluate_all tick 0 d1 inserted in
      Ok (d2, Processed (default now (rp_timestamp report)) (length rows) failed (map snd rows) evaluated)
  end.

Definition process_agent_submission (d : db) (now : instant) (w : ssl_windows) (fresh : nat -> uuid)
    (seen tick : nat -> instant) (s : AgentReportSubmission) : res (db * processed) :=
  let '(valid, refused) := validate_results s in
  '(d', p) ← process_agent_report d now w fresh seen tick (Report (sub_agent_id s) (sub_timestamp s) valid);
  Ok (d', Processed (received_at p) (results_processed p) (results_failed p + refused)
            (check_display_names p) (alerts_evaluated p)).
End Report.
End Ingest.
