(* ===== verification/IngestTheorems.v ===== *)
(** * IngestTheorems

    What the ingestion of a report keeps: every result is stored once or counted,
    only for a check its agent may report; a report that arrives again changes
    nothing and alerts no one; so an agent that sends each result at least once has
    it stored exactly once. *)

From S2P Require Import Prelude Py Store Notify Liveness Fixtures Assignment AlertEval AlertFacts Ingest.

Section Facts.
Context `{PyRuntime} `{ServerSettings} `{Submissions}.
Variable wire : provider -> notification_context -> res bool.

(** ** The idempotent insert *)

Definition key (r : check_result) : uuid * instant := (cr_check_id r, cr_timestamp r).

Lemma same_key_iff a b : same_key a b = true <-> key a = key b.
Proof.
  unfold same_key, key. rewrite andb_true_iff, !bool_decide_eq_true. split; [by intros [-> ->]|by intros [= -> ->]].
Qed.

Lemma has_key r table : existsb (same_key r) table = true <-> key r ∈ map key table.
Proof.
  rewrite existsb_exists, list_elem_of_In, in_map_iff. split.
  - intros (x & Hx & Hk%same_key_iff). by exists x.
  - intros (x & Hk & Hx). exists x. by rewrite same_key_iff.
Qed.

(** The rows inserted are those whose key is new, each key once. *)
Lemma insert_rows_spec table rows table' inserted : insert_rows table rows = Ok (table', inserted) ->
  table' = table ++ inserted /\ inserted `sublist_of` rows
  /\ (forall r, r ∈ rows -> key r ∈ map key table')
  /\ (NoDup (map key table) -> NoDup (map key table'))
  /\ (forall r, r ∈ inserted -> key r ∉ map key table).
Proof.
  revert table table' inserted. induction rows as [|r rows IH]; intros table table' inserted; cbn [insert_rows].
  { intros [= <- <-]. rewrite app_nil_r. split_and!; try done; by intros r ?%elem_of_nil. }
  destruct (existsb (same_key r) table) eqn:K.
  - intros Hi. apply IH in Hi as (-> & Hsub & Hall & Hnd & Hnew). split_and!; try done.
    + by constructor.
    + intros x [->|Hx]%elem_of_cons; [|by apply Hall]. apply has_key in K. rewrite map_app. by apply elem_of_app; left.
  - destruct (existsb (same_primary_key r) table); [done|].
    destruct (insert_rows (table ++ [r]) rows) as [[t ins]|] eqn:E; cbn; [|done]. intros [= <- <-].
    apply IH in E as (-> & Hsub & Hall & Hnd & Hnew).
    assert (key r ∉ map key table) as Hr by (intros Hk%has_key; by rewrite Hk in K).
    rewrite <- app_assoc in *. split_and!.
    + done.
    + by constructor.
    + intros x [->|Hx]%elem_of_cons; [|by apply Hall]. rewrite !map_app, !elem_of_app. right; left. by left.
    + intros Ht. apply Hnd. rewrite map_app. apply NoDup_app. split_and!; [done| |apply NoDup_singleton].
      intros k Hk ->%list_elem_of_singleton. done.
    + intros x [->|Hx]%elem_of_cons; [done|]. specialize (Hnew x Hx). rewrite map_app, not_elem_of_app in Hnew. by destruct Hnew.
Qed.

(** Rows whose keys are all there: nothing to do. *)
Lemma insert_rows_known table rows : (forall r, r ∈ rows -> key r ∈ map key table) -> insert_rows table rows = Ok (table, []).
Proof.
  induction rows as [|r rows IH]; intros Hk; cbn [insert_rows]; [done|].
  rewrite (proj2 (has_key r table)) by (apply Hk; left). apply IH. intros x Hx. apply Hk. by right.
Qed.

Lemma insert_rows_app table a b :
  insert_rows table (a ++ b) = '(t1, i1) ← insert_rows table a; '(t2, i2) ← insert_rows t1 b; Ok (t2, i1 ++ i2).
Proof.
  revert table. induction a as [|r a IH]; intros table; cbn [insert_rows app].
  { cbn. by destruct (insert_rows table b) as [[t i]|]. }
  destruct (existsb (same_key r) table); [apply IH|]. destruct (existsb (same_primary_key r) table); [done|].
  rewrite IH. destruct (insert_rows (table ++ [r]) a) as [[t1 i1]|]; cbn; [|done].
  by destruct (insert_rows t1 b) as [[t2 i2]|].
Qed.

Lemma insert_chunks_is_one fuel table rows : length rows <= fuel -> insert_chunks fuel table rows = insert_rows table rows.
Proof.
  revert table rows. induction fuel as [|fuel IH]; intros table [|r rows] Hl; cbn [length] in Hl; try done; try lia.
  cbn [insert_chunks].
  replace (insert_rows table (r :: rows)) with (insert_rows table (take chunk_size (r :: rows) ++ drop chunk_size (r :: rows)))
    by by rewrite take_drop.
  rewrite insert_rows_app.
  destruct (insert_rows table (take chunk_size (r :: rows))) as [[t1 i1]|]; cbn [mbind res_bind]; [|done].
  rewrite IH; [done|]. rewrite length_drop. unfold chunk_size. cbn [length]. lia.
Qed.

Definition with_results (d : db) (table : list check_result) : db :=
  Db (db_agents d) (db_checks d) (db_alerts d) (db_check_maps d) (db_notif_maps d) (db_providers d) table (db_logs d).

(** The chunks of a bulk insert do what one statement would. *)
Lemma bulk_insert_is_one d rows : bulk_insert_idempotent d rows
  = '(table, inserted) ← insert_rows (db_results d) rows; Ok (with_results d table, inserted).
Proof. unfold bulk_insert_idempotent. by rewrite insert_chunks_is_one by done. Qed.

(** ** The evaluations only append to the audit log *)

Lemma evaluate_one_logs now c r d a :
  exists rows, evaluate_one wire now c r d a = add_notification_logs d rows.
Proof.
  destruct (evaluate_one_rows wire d now c r a) as [->|(k & b & n & rows & -> & _)]; [exists []|by exists rows].
  unfold add_notification_logs, set_logs. rewrite app_nil_r. by destruct d.
Qed.

Lemma evaluate_result_logs d now r d' : evaluate_check_result wire d now r = Ok d' ->
  exists rows, d' = add_notification_logs d rows.
Proof.
  unfold evaluate_check_result. destruct (db_checks d !! cr_check_id r) as [c|]; [|done]. intros [= <-].
  generalize (list_active_alerts_for_check d (ck_id c)). intros l. revert d.
  induction l as [|a l IH]; intros d; cbn [fold_left].
  { exists []. unfold add_notification_logs, set_logs. rewrite app_nil_r. by destruct d. }
  destruct (evaluate_one_logs now c r d a) as [rows ->]. destruct (IH (add_notification_logs d rows)) as [rows' ->].
  exists (rows ++ rows'). unfold add_notification_logs, set_logs. cbn. by rewrite app_assoc.
Qed.

Lemma evaluate_all_logs tick i d l : exists rows, (evaluate_all wire tick i d l).1 = add_notification_logs d rows.
Proof.
  revert i d. induction l as [|r l IH]; intros i d; cbn [evaluate_all].
  { exists []. unfold add_notification_logs, set_logs. rewrite app_nil_r. by destruct d. }
  destruct (evaluate_check_result wire d (tick i) r) as [d1|] eqn:E; [|apply IH].
  apply evaluate_result_logs in E as [rows ->]. destruct (IH (S i) (add_notification_logs d rows)) as [rows' E].
  destruct (evaluate_all wire tick (S i) _ l) as [d2 n]. cbn in E |- *. subst. exists (rows ++ rows').
  unfold add_notification_logs, set_logs. cbn. by rewrite app_assoc.
Qed.

(** A stored result's check exists: each is evaluated. *)
Lemma evaluate_all_counts tick i d l :
  (forall r, r ∈ l -> db_checks d !! cr_check_id r <> None) -> (evaluate_all wire tick i d l).2 = length l.
Proof.
  revert i d. induction l as [|r l IH]; intros i d Hl; cbn [evaluate_all]; [done|].
  destruct (evaluate_check_result wire d (tick i) r) as [d1|] eqn:E.
  - apply evaluate_result_logs in E as [rows ->].
    assert ((evaluate_all wire tick (S i) (add_notification_logs d rows) l).2 = length l) as E
      by (apply IH; intros x Hx; apply Hl; by right).
    destruct (evaluate_all wire tick (S i) _ l) as [d2 n]. cbn in *. by rewrite E.
  - exfalso. apply (Hl r); [left|]. unfold evaluate_check_result in E.
    by destruct (db_checks d !! cr_check_id r).
Qed.

(** ** What an agent may report depends on the agents and the checks alone *)

Lemma placed_on_stable d d' now now' a c : db_agents d' = db_agents d ->
  placed_on d now a false c = placed_on d' now' a false c.
Proof. intros Ea. unfold placed_on, list_active. rewrite Ea. by destruct (ck_mode c). Qed.

Lemma filter_res_ext {X} (f g : X -> res bool) l : (forall x, f x = g x) -> filter_res f l = filter_res g l.
Proof. intros E. induction l as [|x l IH]; cbn [filter_res]; [done|]. by rewrite E, IH. Qed.

Lemma reportable_stable d d' now now' a : db_agents d' = db_agents d -> db_checks d' = db_checks d ->
  get_reportable_checks d now a = get_reportable_checks d' now' a.
Proof.
  intros Ea Ec. unfold get_reportable_checks, checks_for_agent, list_assignment_candidates. rewrite Ec.
  apply filter_res_ext. intros c. by apply placed_on_stable.
Qed.

(** ** Which results are accepted *)

Definition is_ok {A} (r : res A) : bool := match r with Ok _ => true | Raise _ => false end.

Lemma expiry_ok now w now' w' e : is_ok (ssl_expiry_fields now w e) = is_ok (ssl_expiry_fields now' w' e).
Proof.
  unfold ssl_expiry_fields. destruct (negb (truthy e)); [done|]. destruct e; try done. by destruct (parse_expiry s).
Qed.

Lemma cert_ok now w now' w' m : is_ok (with_ssl_cert_info now w m) = is_ok (with_ssl_cert_info now' w' m).
Proof.
  unfold with_ssl_cert_info. destruct (assoc_get m "response") as [v|]; [|done].
  destruct (py_in "ssl_certificate" v) as [[|]|]; cbn; try done. destruct v; try done.
  unfold compute_ssl_cert_info. destruct (dict_get d "ssl_certificate" PNone); try done.
  match goal with |- context [ssl_expiry_fields now w ?e] => pose proof (expiry_ok now w now' w' e) as E end.
  destruct (ssl_expiry_fields now w _), (ssl_expiry_fields now' w' _); done.
Qed.

(** A result is accepted of an agent that may report [check_map]; when, under which
    windows and with which fresh id does not matter. *)
Definition accepted (check_map : gset uuid) (x : CheckResultCreate) : option (uuid * instant) :=
  match rc_check_id x with
  | Some c => if bool_decide (c ∈ check_map) && is_ok (with_ssl_cert_info 0 (SslWindows 0 0) (default [] (rc_metrics x)))
              then Some (c, rc_timestamp x) else None
  | None => None
  end.

Lemma row_accepted now w i cm fresh x :
  match row_of_result now w i cm fresh x with
  | Ok (Some row) => accepted cm x = Some (key row) /\ cr_agent_id row = i /\ cr_success row = rc_success x
                     /\ cr_latency_ms row = rc_latency_ms x
  | _ => accepted cm x = None
  end.
Proof.
  unfold row_of_result, accepted. destruct (rc_check_id x) as [c|]; [|done]. case_bool_decide; cbn [andb]; [|done].
  pose proof (cert_ok now w 0%Z (SslWindows 0 0) (default [] (rc_metrics x))) as E. rewrite <- E.
  by destruct (with_ssl_cert_info now w _).
Qed.

(** The metrics of a row are those of its result, stamped at its turn. *)
Definition stamped (seen : nat -> instant) (w : ssl_windows) (x : CheckResultCreate) (r : check_result) : Prop :=
  exists k m, with_ssl_cert_info (seen k) w (default [] (rc_metrics x)) = Ok m /\ cr_metrics r = metrics_json m.

Lemma row_stamped seen k w i cm fresh x r :
  row_of_result (seen k) w i cm fresh x = Ok (Some r) -> stamped seen w x r.
Proof.
  unfold row_of_result. destruct (rc_check_id x); [|done]. case_bool_decide; [|done].
  destruct (with_ssl_cert_info (seen k) w _) as [m|] eqn:E; [|done]. intros [= <-]. by exists k, m.
Qed.

(** The rows of a report are those of its accepted results, in order. *)
Lemma collect_rows_spec seen w i cm fresh k l :
  let '(rows, failed) := collect_rows seen w i cm fresh k l in
  map key (map fst rows) = omap (accepted cm) l /\ length rows + failed = length l
  /\ (forall r, r ∈ map fst rows -> cr_agent_id r = i /\ exists x, x ∈ l /\ accepted cm x = Some (key r)
        /\ cr_success r = rc_success x /\ cr_latency_ms r = rc_latency_ms x /\ stamped seen w x r).
Proof.
  revert k. induction l as [|x l IH]; intros k; cbn [collect_rows].
  { split_and!; try done. by intros r ?%elem_of_nil. }
  specialize (IH (S k)). destruct (collect_rows seen w i cm fresh (S k) l) as [rows failed].
  destruct IH as (IHk & IHn & IHr). pose proof (row_accepted (seen k) w i cm (fresh k) x) as Hx.
  destruct (row_of_result _ _ _ _ _ x) as [[row|]|] eqn:Erow; cbn [map fst length omap list_omap].
  - apply row_stamped in Erow. destruct Hx as (Ha & Hi & Hs & Hl). rewrite Ha. split_and!; [cbn; by rewrite IHk|lia|].
    intros r [->|Hr]%elem_of_cons.
    + split; [done|]. exists x. split_and!; try done. left.
    + destruct (IHr r Hr) as (? & y & ? & ? & ?). split; [done|]. exists y. split; [by right|done].
  - rewrite Hx. split_and!; [done|lia|]. intros r Hr. destruct (IHr r Hr) as (? & y & ? & ? & ?).
    split; [done|]. exists y. split; [by right|done].
  - rewrite Hx. split_and!; [done|lia|]. intros r Hr. destruct (IHr r Hr) as (? & y & ? & ? & ?).
    split; [done|]. exists y. split; [by right|done].
Qed.

(** ** What processing a report does *)

Definition reportable (d : db) (a : agent) : gset uuid :=
  match get_reportable_checks d 0 a with Ok l => list_to_set (map ck_id l) | Raise _ => ∅ end.

Lemma reportable_exists d a c : keyed d -> c ∈ reportable d a -> db_checks d !! c <> None.
Proof.
  intros Hk. unfold reportable. destruct (get_reportable_checks d 0 a) as [l|] eqn:E; [|set_solver].
  rewrite elem_of_list_to_set, list_elem_of_In, in_map_iff. intros (x & <- & Hx%list_elem_of_In).
  unfold get_reportable_checks, checks_for_agent in E. apply filter_res_sublist in E.
  eapply elem_of_sublist in Hx; [|exact E]. unfold list_assignment_candidates in Hx.
  apply list_elem_of_filter in Hx as [_ Hx]. apply elem_of_rows in Hx as [i Hi].
  by rewrite (keyed_checks d Hk _ _ Hi), Hi.
Qed.

Lemma report_spec d now w fresh seen tick report d' p :
  process_agent_report wire d now w fresh seen tick report = Ok (d', p) ->
  exists a rows inserted logs, db_agents d !! rp_agent_id report = Some a
    /\ is_ok (get_reportable_checks d 0 a) = true
    /\ map key rows = omap (accepted (reportable d a)) (rp_checks report)
    /\ (forall r, r ∈ rows -> cr_agent_id r = ag_id a /\ exists x, x ∈ rp_checks report
          /\ accepted (reportable d a) x = Some (key r) /\ cr_success r = rc_success x /\ cr_latency_ms r = rc_latency_ms x
          /\ stamped seen w x r)
    /\ insert_rows (db_results d) rows = Ok (db_results d ++ inserted, inserted)
    /\ d' = add_notification_logs (with_results d (db_results d ++ inserted)) logs
    /\ results_processed p = length rows /\ results_processed p + results_failed p = length (rp_checks report)
    /\ (keyed d -> alerts_evaluated p = length inserted)
    /\ (inserted = [] -> logs = []).
Proof.
  unfold process_agent_report. destruct (db_agents d !! rp_agent_id report) as [a|] eqn:Ea; [|done].
  rewrite (reportable_stable d d now 0%Z a) by done. unfold reportable.
  destruct (get_reportable_checks d 0 a) as [checks|] eqn:Er; cbn [mbind res_bind]; [|done].
  pose proof (collect_rows_spec seen w (ag_id a) (list_to_set (map ck_id checks)) fresh 0 (rp_checks report)) as Hc.
  destruct (collect_rows _ _ _ _ _ _ _) as [rows failed]. destruct Hc as (Hk & Hn & Hr).
  rewrite bulk_insert_is_one. destruct (insert_rows (db_results d) (map fst rows)) as [[table inserted]|] eqn:Ei;
    cbn [mbind res_bind]; [|done].
  pose proof (insert_rows_spec _ _ _ _ Ei) as (-> & Hsub & _).
  destruct (evaluate_all_logs tick 0 (with_results d (db_results d ++ inserted)) inserted) as [logs El].
  pose proof (evaluate_all_counts tick 0 (with_results d (db_results d ++ inserted)) inserted) as Hcount.
  assert (inserted = [] -> (evaluate_all wire tick 0 (with_results d (db_results d ++ inserted)) inserted).1
    = with_results d (db_results d ++ inserted)) as Hnil by by intros ->.
  destruct (evaluate_all _ _ _ _ _) as [d2 n]. cbn [fst snd] in *. intros [= <- <-].
  exists a, (map fst rows), inserted, logs. rewrite Er. cbn. split_and!; try done.
  - by rewrite length_map.
  - intros Hkd. apply Hcount. intros r Hin.
    destruct (Hr r) as (_ & x & _ & Hx & _); [by eapply elem_of_sublist|].
    apply (reportable_exists d a); [done|]. unfold reportable. rewrite Er. unfold accepted in Hx.
    destruct (rc_check_id x) as [c|]; [|done]. case_bool_decide as Hc; cbn in Hx; [|done].
    destruct (is_ok _); [|done]. by injection Hx as <-.
  - intros Hi. specialize (Hnil Hi). rewrite El in Hnil. apply (f_equal db_logs) in Hnil. cbn in Hnil.
    rewrite <- (app_nil_r (db_logs d)) in Hnil at 2. by apply app_inv_head in Hnil.
Qed.

Lemma submission_spec d now w fresh seen tick sub d' p :
  process_agent_submission wire d now w fresh seen tick sub = Ok (d', p) ->
  exists p0, process_agent_report wire d now w fresh seen tick
      (Report (sub_agent_id sub) (sub_timestamp sub) (omap validate_result (sub_checks sub))) = Ok (d', p0)
    /\ results_processed p = results_processed p0
    /\ results_failed p = results_failed p0 + (length (sub_checks sub) - length (omap validate_result (sub_checks sub)))
    /\ alerts_evaluated p = alerts_evaluated p0.
Proof.
  unfold process_agent_submission. cbn.
  destruct (process_agent_report _ _ _ _ _ _ _ _) as [[d0 p0]|]; cbn; [|done]. intros [= <- <-]. by exists p0.
Qed.

Lemma length_omap {X Y} (f : X -> option Y) l : length (omap f l) <= length l.
Proof. induction l as [|x l IH]; cbn; [lia|]. destruct (f x); cbn; lia. Qed.

(** C5: A report stores a result only for a check its agent may report, under the
    agent's own id and as the agent sent it; each (check, time) once, whatever was
    stored before and however the batch is cut into statements; and every result
    sent is counted, processed or failed. *)
Theorem report_accounted d now w fresh seen tick sub d' p :
  process_agent_submission wire d now w fresh seen tick sub = Ok (d', p) ->
  exists a inserted, db_agents d !! sub_agent_id sub = Some a
    /\ db_results d' = db_results d ++ inserted
    /\ (forall r, r ∈ inserted -> key r ∉ map key (db_results d) /\ cr_agent_id r = ag_id a
         /\ cr_check_id r ∈ reportable d a
         /\ exists raw x, raw ∈ sub_checks sub /\ validate_result raw = Some x /\ rc_check_id x = Some (cr_check_id r)
              /\ rc_timestamp x = cr_timestamp r /\ rc_success x = cr_success r /\ rc_latency_ms x = cr_latency_ms r)
    /\ (NoDup (map key (db_results d)) -> NoDup (map key (db_results d')))
    /\ results_processed p + results_failed p = length (sub_checks sub).
Proof.
  intros Hp. apply submission_spec in Hp as (p0 & Hp & E1 & E2 & _).
  apply report_spec in Hp as (a & rows & inserted & logs & Ha & _ & _ & Hr & Hi & -> & _ & Hn & _).
  pose proof (insert_rows_spec _ _ _ _ Hi) as (_ & Hsub & _ & Hnd & Hnew). cbn in Hn.
  exists a, inserted. cbn. split_and!; try done.
  - intros r Hin. destruct (Hr r) as (Hai & x & Hx & Hacc & Hs & Hl & _); [by eapply elem_of_sublist|].
    apply list_elem_of_omap in Hx as (raw & Hraw & Hv). unfold accepted in Hacc.
    destruct (rc_check_id x) as [c|] eqn:Ec; [|done]. case_bool_decide as Hc; cbn in Hacc; [|done].
    destruct (is_ok _); [|done]. injection Hacc as -> Ht. split_and!; try done; [by apply Hnew|].
    by exists raw, x.
  - rewrite E1, E2. pose proof (length_omap validate_result (sub_checks sub)). lia.
Qed.

(** A report that arrives again, as it does whenever its answer was lost or its
    batch was stored for replay, changes nothing: no row, no alert, no line of the
    audit log, at any later time and under any other certificate windows; and its
    agent is told the same counts. *)
Theorem report_again_changes_nothing d now w fresh seen tick sub d1 p1 now' w' fresh' seen' tick' :
  process_agent_submission wire d now w fresh seen tick sub = Ok (d1, p1) ->
  exists p2, process_agent_submission wire d1 now' w' fresh' seen' tick' sub = Ok (d1, p2)
    /\ results_processed p2 = results_processed p1 /\ results_failed p2 = results_failed p1 /\ alerts_evaluated p2 = 0.
Proof.
  intros Hp. apply submission_spec in Hp as (p0 & Hp & E1 & E2 & _).
  apply report_spec in Hp as (a & rows & inserted & logs & Ha & Hok & Hk & _ & Hi & -> & Hn & Hf & _).
  cbn [rp_agent_id] in Ha.
  set (d1 := add_notification_logs _ _). set (valid := omap validate_result (sub_checks sub)) in *. cbn in Hk, Hf.
  assert (reportable d1 a = reportable d a) as Er.
  { unfold reportable. by rewrite (reportable_stable d d1 0%Z 0%Z a). }
  assert (exists checks, get_reportable_checks d1 now' a = Ok checks /\ list_to_set (map ck_id checks) = reportable d a)
    as (checks & Ec & Es).
  { rewrite <- Er. unfold reportable. rewrite (reportable_stable d d1 0%Z 0%Z a) in Hok by done.
    rewrite (reportable_stable d1 d1 now' 0%Z a) by done. destruct (get_reportable_checks d1 0 a) as [l|]; [by exists l|done]. }
  pose proof (collect_rows_spec seen' w' (ag_id a) (reportable d a) fresh' 0 valid) as Hc.
  unfold process_agent_submission, validate_results, process_agent_report. cbn [sub_agent_id rp_agent_id rp_checks rp_timestamp].
  change (db_agents d1) with (db_agents d). rewrite Ha, Ec. cbn [mbind res_bind]. fold valid. rewrite Es.
  destruct (collect_rows _ _ _ _ _ _ valid) as [rows' failed]. destruct Hc as (Hk' & Hn' & _).
  rewrite bulk_insert_is_one.
  change (db_results d1) with (db_results d ++ inserted).
  rewrite insert_rows_known; cbn [mbind res_bind evaluate_all].
  - eexists. split; [reflexivity|]. cbn.
    assert (length rows' = length rows) as El by (rewrite <- (length_map fst rows'), <- (length_map key (map fst rows')), Hk', <- Hk; by rewrite length_map).
    split_and!; [by rewrite El, E1, Hn| |done]. rewrite E2. fold valid. lia.
  - intros r Hr. apply (list_elem_of_fmap_2 key) in Hr. change (key <$> map fst rows') with (map key (map fst rows')) in Hr.
    rewrite Hk', <- Hk in Hr. apply list_elem_of_In, in_map_iff in Hr as (r0 & E0 & Hr0%list_elem_of_In).
    rewrite <- E0. apply insert_rows_spec in Hi as (_ & _ & Hall & _). by apply Hall.
Qed.

(** ** Any number of reports *)

Record delivery := Delivery {
  dl_now : instant; dl_windows : ssl_windows; dl_fresh : nat -> uuid; dl_seen : nat -> instant; dl_tick : nat -> instant;
  dl_sub : AgentReportSubmission }.

Definition ingest (d : db) (e : delivery) : res db :=
  fst <$> process_agent_submission wire d (dl_now e) (dl_windows e) (dl_fresh e) (dl_seen e) (dl_tick e) (dl_sub e).
Definition ingest_all (d : db) (l : list delivery) : res db := fold_res ingest d l.

(** A result some report of the list carried, from an agent that may report it. *)
Definition delivered (d : db) (l : list delivery) (k : uuid * instant) : Prop :=
  exists e a raw x, e ∈ l /\ db_agents d !! sub_agent_id (dl_sub e) = Some a /\ raw ∈ sub_checks (dl_sub e)
    /\ validate_result raw = Some x /\ accepted (reportable d a) x = Some k.

Lemma ingest_spec d e d' : ingest d e = Ok d' ->
  db_agents d' = db_agents d /\ db_checks d' = db_checks d
  /\ (NoDup (map key (db_results d)) -> NoDup (map key (db_results d')))
  /\ (forall k, k ∈ map key (db_results d') <-> k ∈ map key (db_results d) \/ delivered d [e] k).
Proof.
  unfold ingest. destruct (process_agent_submission _ _ _ _ _ _ _ _) as [[d0 p]|] eqn:Hp; cbn; [|done]. intros [= ->].
  apply submission_spec in Hp as (p0 & Hp & _).
  apply report_spec in Hp as (a & rows & inserted & logs & Ha & _ & Hk & _ & Hi & -> & _).
  cbn [rp_agent_id rp_checks] in Ha, Hk. pose proof (insert_rows_spec _ _ _ _ Hi) as (_ & Hsub & Hall & Hnd & _).
  split_and!; [done|done|done|]. intros k. cbn.
  assert (k ∈ map key rows <-> delivered d [e] k) as Hrows.
  { rewrite Hk, list_elem_of_omap. unfold delivered. split.
    - intros (x & (raw & Hraw & Hv)%list_elem_of_omap & Hx). exists e, a, raw, x. split_and!; try done. left.
    - intros (e' & a' & raw & x & ->%list_elem_of_singleton & Ha' & Hraw & Hv & Hx). rewrite Ha in Ha'. injection Ha' as <-.
      exists x. split; [|done]. apply list_elem_of_omap. by exists raw. }
  rewrite <- Hrows. split.
  - rewrite map_app, elem_of_app. intros [?|Hin]; [by left|right].
    eapply elem_of_sublist; [exact Hin|]. change (map key) with (fmap key : list check_result -> _).
    clear -Hsub. induction Hsub; cbn; by constructor.
  - intros [Hin|Hin]; [rewrite map_app; apply elem_of_app; by left|].
    apply list_elem_of_In, in_map_iff in Hin as (r & <- & Hr%list_elem_of_In). by apply Hall.
Qed.

Lemma delivered_stable d d' l k : db_agents d' = db_agents d -> db_checks d' = db_checks d ->
  delivered d' l k <-> delivered d l k.
Proof.
  intros Ea Ec. unfold delivered. rewrite Ea.
  assert (forall a, reportable d' a = reportable d a) as Er
    by (intros a; unfold reportable; by rewrite (reportable_stable d' d 0%Z 0%Z a)).
  by setoid_rewrite Er.
Qed.

Lemma delivered_cons d e l k : delivered d (e :: l) k <-> delivered d [e] k \/ delivered d l k.
Proof.
  unfold delivered. split.
  - intros (e' & a & raw & x & [->|He]%elem_of_cons & Hr); [left; exists e|right; exists e']; exists a, raw, x;
      by split; [try left|].
  - intros [(e' & a & raw & x & ->%list_elem_of_singleton & Hr)|(e' & a & raw & x & He & Hr)];
      [exists e|exists e']; exists a, raw, x; split; try done; [left|by right].
Qed.

Lemma ingest_all_spec d l d' : ingest_all d l = Ok d' ->
  (NoDup (map key (db_results d)) -> NoDup (map key (db_results d')))
  /\ (forall k, k ∈ map key (db_results d') <-> k ∈ map key (db_results d) \/ delivered d l k).
Proof.
  unfold ingest_all. revert d. induction l as [|e l IH]; intros d; cbn [fold_res].
  { intros [= <-]. split; [done|]. intros k. split; [by left|]. intros [?|(e & _ & _ & _ & He & _)]; [done|].
    by apply elem_of_nil in He. }
  destruct (ingest d e) as [d1|] eqn:E; cbn; [|done]. intros Hl.
  apply ingest_spec in E as (Ea & Ec & Hnd & Hk). apply IH in Hl as [Hnd' Hk']. split; [auto|].
  intros k. specialize (Hk k). specialize (Hk' k). pose proof (delivered_cons d e l k) as H3.
  pose proof (delivered_stable d d1 l k Ea Ec) as H4. tauto.
Qed.

(** C7: However the reports of the agents are cut, repeated and interleaved, what
    is stored is the same: two runs that carry the same results, each at least
    once, end with the same (check, time) keys, each exactly once. *)
Theorem ingestion_order_free d l1 l2 d1 d2 : NoDup (map key (db_results d)) ->
  ingest_all d l1 = Ok d1 -> ingest_all d l2 = Ok d2 ->
  (forall k, delivered d l1 k <-> delivered d l2 k) ->
  map key (db_results d1) ≡ₚ map key (db_results d2)
  /\ (forall k, delivered d l1 k -> exists r, filter (fun r => key r = k) (db_results d1) = [r]).
Proof.
  intros Hnd Hl1 Hl2 Hsame. apply ingest_all_spec in Hl1 as [Hn1 Hk1], Hl2 as [Hn2 Hk2]. split.
  - apply NoDup_Permutation; [auto|auto|]. intros k. by rewrite Hk1, Hk2, Hsame.
  - intros k Hk. assert (k ∈ map key (db_results d1)) as Hin by (apply Hk1; by right).
    specialize (Hn1 Hnd). clear -Hn1 Hin. induction (db_results d1) as [|r rs IH]; cbn [map] in *; [by apply elem_of_nil in Hin|].
    apply NoDup_cons in Hn1 as [Hr Hrs]. rewrite filter_cons. destruct (decide (key r = k)) as [<-|Hne].
    + exists r. f_equal. apply elem_of_nil_inv. intros x Hx. apply list_elem_of_filter in Hx as [Hx Hx'].
      apply Hr. rewrite <- Hx. by apply list_elem_of_fmap_2.
    + apply IH; [done|]. apply elem_of_cons in Hin as [->|?]; done.
Qed.

(** What a report adds to the audit log keeps the chains of [AlertFacts]. *)
Lemma report_audited now0 d now w fresh seen (tick : nat -> instant) sub d' p : audit_inv now0 d -> (now0 <= tick 0%nat)%Z ->
  (forall i, (tick i <= tick (S i))%Z) ->
  process_agent_submission wire d now w fresh seen tick sub = Ok (d', p) -> exists n, audit_inv (tick n) d'.
Proof.
  intros Hinv Hfrom Hmono Hp. apply submission_spec in Hp as (p0 & Hp & _). unfold process_agent_report in Hp.
  destruct (db_agents d !! _); [|done]. destruct (get_reportable_checks _ _ _); cbn in Hp; [|done].
  destruct (collect_rows _ _ _ _ _ _ _) as [rows failed]. rewrite bulk_insert_is_one in Hp.
  destruct (insert_rows _ _) as [[table inserted]|]; cbn in Hp; [|done].
  assert (audit_inv (tick 0) (with_results d table)) as Hd1.
  { destruct Hinv as [Hc Hi Hch]. split; [|done|done]. eapply Forall_impl; [exact Hc|]. cbn. intros; lia. }
  clear Hinv. revert Hp Hd1. generalize (with_results d table), 0. intros d1 n Hp Hd1.
  assert (exists m, audit_inv (tick m) (evaluate_all wire tick n d1 inserted).1) as [m Hm].
  2: { destruct (evaluate_all _ _ _ _ _). injection Hp as <- _. by exists m. }
  clear Hp. revert n d1 Hd1. induction inserted as [|r l IH]; intros n d1 Hd1; cbn [evaluate_all]; [by exists n|].
  assert (forall dx, audit_inv (tick n) dx -> audit_inv (tick (S n)) dx) as Hstep.
  { intros dx [Hc Hi Hch]. split; [|done|done]. eapply Forall_impl; [exact Hc|]. cbn. intros. specialize (Hmono n). lia. }
  destruct (evaluate_check_result wire d1 (tick n) r) as [d2|] eqn:E.
  - apply evaluate_check_result_inv in E; [|done]. destruct (IH (S n) d2) as [m Hm]; [by apply Hstep|].
    exists m. revert Hm. by destruct (evaluate_all wire tick (S n) d2 l).
  - apply IH, Hstep, Hd1.
Qed.

(** A check whose two newest results passed has not just recovered, as the
    evaluation of any of its passing results sees it. *)
Lemma two_passes_no_recovery d a c r r1 r2 config : cr_success r = true -> al_notify_on_recovery a = true ->
  get_recent_results_for_check d (ck_id c) 2 = [r1; r2] -> cr_success r2 = true ->
  evaluate_status_change d a c r config = Ok false.
Proof. intros Hs Hn Hr H2. unfold evaluate_status_change. by rewrite Hs, Hn, Hr, H2. Qed.

(** ** The certificate of an accepted result *)

Lemma dict_get_set (d : pydict) k v v0 : dict_get (dict_set d k v) k v0 = v.
Proof. unfold dict_get. rewrite assoc_get_set. by destruct (decide _). Qed.

Lemma dict_merge_get a b k : NoDup (map fst b) ->
  assoc_get (dict_merge a b) k = match assoc_get b k with Some v => Some v | None => assoc_get a k end.
Proof.
  unfold dict_merge. revert a. induction b as [|[k' v] b IH]; intros a Hnd; cbn [fold_left map fst snd]; [done|].
  apply NoDup_cons in Hnd as [Hk Hnd]. rewrite IH, assoc_get_set by done. cbn [assoc_get].
  destruct (assoc_get b k) as [w|] eqn:E; [done|]. by destruct (decide (k' = k)), (decide (k = k')).
Qed.

Lemma expiry_fields_days st e days x y z : assoc_get (expiry_fields st e days x y z) "days_until_expiration" = Some days.
Proof. done. Qed.
Lemma expiry_fields_nodup st e days x y z : NoDup (map fst (expiry_fields st e days x y z)).
Proof. apply (bool_decide_unpack _). by vm_compute. Qed.

(** The days left are whole days, rounded down: none is left from the expiry's own
    day on, and it has expired from the instant after it. *)
Lemma days_left_expired now t : ((t - now) / us_per_day <? 0)%Z = bool_decide (t < now)%Z.
Proof.
  unfold us_per_day, us_per_hour, us_per_minute, us_per_second.
  destruct (decide (t < now)%Z); [rewrite bool_decide_eq_true_2 by done|rewrite bool_decide_eq_false_2 by done].
  - apply Z.ltb_lt, Z.div_lt_upper_bound; lia.
  - apply Z.ltb_ge, Z.div_pos; lia.
Qed.

(** What the certificate of a result comes to. *)
Lemma certificate_stamped now w m m' cert : with_ssl_cert_info now w m = Ok m' ->
  ssl_certificate (PDict m') = Ok cert -> cert <> PNone ->
  exists response raw stored days, assoc_get m "response" = Some (PDict response)
    /\ assoc_get response "ssl_certificate" = Some (PDict raw)
    /\ cert = PDict stored /\ assoc_get stored "days_until_expiration" = Some days
    /\ days = match dict_get raw "expiration_date" PNone with
              | PStr s => match (if String.eqb s "" then None else parse_expiry s) with
                          | Some t => PInt ((t - now) / us_per_day)%Z
                          | None => PNone
                          end
              | _ => PNone
              end.
Proof.
  unfold with_ssl_cert_info, ssl_certificate, py_get. intros Hm Hc Hne.
  assert (Hsame : m' = m -> exists v, assoc_get m "response" = Some v /\
    (v = PDict [] \/ exists r, v = PDict r /\ assoc_get r "ssl_certificate" = Some cert)).
  { intros ->. cbn [mbind res_bind] in Hc. unfold dict_get in Hc at 1. destruct (assoc_get m "response") as [v|].
    - cbn in Hc. destruct v as [| | | | | |r]; try done. injection Hc as Hc. unfold dict_get in Hc.
      destruct (assoc_get r "ssl_certificate") as [c|] eqn:E; cbn in Hc; [subst c|by subst cert]. eauto 6.
    - cbn in Hc. injection Hc as <-. done. }
  destruct (assoc_get m "response") as [v|] eqn:Ev.
  2: { injection Hm as <-. by destruct (Hsame eq_refl) as (? & ? & _). }
  destruct (py_in "ssl_certificate" v) as [has|] eqn:Ein; cbn [mbind res_bind] in Hm; [|done].
  destruct has; cbn [negb] in Hm.
  2: { injection Hm as <-. destruct (Hsame eq_refl) as (v' & [= <-] & [->|(r & -> & Hr)]).
       - unfold dict_get in Hc. rewrite Ev in Hc. cbn in Hc. by injection Hc as <-.
       - cbn in Ein. rewrite Hr in Ein. discriminate Ein. }
  destruct v as [| | | | | |r]; try done. cbn in Ein. injection Ein as Ein.
  destruct (assoc_get r "ssl_certificate") as [c|] eqn:Ec; [clear Ein|done].
  assert (dict_get r "ssl_certificate" PNone = c) as Ev' by (unfold dict_get; by rewrite Ec). rewrite Ev' in Hm.
  unfold compute_ssl_cert_info in Hm. destruct c as [| | | | | |raw]; try done.
  unfold ssl_expiry_fields in Hm. set (e := dict_get raw "expiration_date" PNone) in *.
  exists r, raw. cbn [fst snd].
  assert (Hfin : forall st d x y z, m' = dict_set m "response" (PDict (dict_set r "ssl_certificate" (PDict (dict_merge raw (expiry_fields st e d x y z))))) ->
    exists stored, cert = PDict stored /\ assoc_get stored "days_until_expiration" = Some d).
  { intros st d x y z ->. rewrite dict_get_set in Hc. cbn [mbind res_bind] in Hc. rewrite dict_get_set in Hc.
    assert (cert = PDict (dict_merge raw (expiry_fields st e d x y z))) as -> by congruence.
    eexists. split; [done|]. by rewrite dict_merge_get, expiry_fields_days by apply expiry_fields_nodup. }
  enough (exists stored days, cert = PDict stored /\ assoc_get stored "days_until_expiration" = Some days
    /\ days = match e with
              | PStr s => match (if String.eqb s "" then None else parse_expiry s) with
                          | Some t => PInt ((t - now) / us_per_day)%Z | None => PNone end
              | _ => PNone end) as (stored & days & Hs & Hd & Hdays) by by exists stored, days.
  destruct (truthy e) eqn:T; cbn [negb] in Hm.
  - destruct e as [|b|z|f|s|l|dd]; try done. cbn in T. apply negb_true_iff in T. rewrite T.
    destruct (parse_expiry s); cbn in Hm; injection Hm as <-; (edestruct Hfin as (stored & Hs & Hd); [done|]); eauto.
  - cbn in Hm. injection Hm as <-. edestruct Hfin as (stored & Hs & Hd); [done|]. exists stored, PNone.
    split_and!; [done|done|]. destruct e; try done. cbn in T. apply negb_false_iff in T. by rewrite T.
Qed.

(** C40: The certificate of an accepted result is stored so that the expiry alerts can
    read it: whatever certificate the metrics of a row a submission stored hold, its
    days_until_expiration is the whole days from the row's turn in the ingestion to
    the date the agent sent in it, or null where that date does not read, never left
    to what the agent wrote there. *)
Theorem ingested_certificate d now w fresh seen tick sub d' p r metrics cert :
  process_agent_submission wire d now w fresh seen tick sub = Ok (d', p) ->
  r ∈ db_results d' -> r ∉ db_results d ->
  cr_metrics r = Json metrics -> ssl_certificate metrics = Ok cert -> cert <> PNone ->
  exists sent x m response raw k stored days,
    sent ∈ sub_checks sub /\ validate_result sent = Some x /\ rc_check_id x = Some (cr_check_id r)
    /\ rc_timestamp x = cr_timestamp r /\ rc_metrics x = Some m
    /\ assoc_get m "response" = Some (PDict response) /\ assoc_get response "ssl_certificate" = Some (PDict raw)
    /\ cert = PDict stored /\ assoc_get stored "days_until_expiration" = Some days
    /\ days = match dict_get raw "expiration_date" PNone with
              | PStr s => match (if String.eqb s "" then None else parse_expiry s) with
                          | Some t => PInt ((t - seen k) / us_per_day)%Z
                          | None => PNone
                          end
              | _ => PNone
              end.
Proof.
  intros Hp Hin Hnew Hm Hc Hne. apply submission_spec in Hp as (p0 & Hp & _).
  apply report_spec in Hp as (a & rows & inserted & logs & _ & _ & _ & Hr & Hi & -> & _).
  pose proof (insert_rows_spec _ _ _ _ Hi) as (_ & Hsub & _).
  cbn in Hin. apply elem_of_app in Hin as [Hin|Hin]; [done|].
  destruct (Hr r) as (_ & x & Hx & Hacc & _ & _ & k & m' & Hst & Hmet); [by eapply elem_of_sublist|].
  apply list_elem_of_omap in Hx as (sent & Hsent & Hv). unfold accepted in Hacc.
  destruct (rc_check_id x) as [c|] eqn:Eid; [|done]. destruct (_ && _); [|done]. injection Hacc as -> Ht.
  rewrite Hm in Hmet. unfold metrics_json in Hmet. destruct m' as [|kv m'']; [done|]. injection Hmet as ->.
  destruct (certificate_stamped _ _ _ _ _ Hst Hc Hne) as (response & raw & stored & days & Hresp & Hrest).
  destruct (rc_metrics x) as [m|] eqn:Em; [|by apply option_eq in Hresp || done].
  exists sent, x, m, response, raw, k, stored, days. split_and!; try done; apply Hrest.
Qed.
End Facts.

(** ** On a small database *)

#[local] Existing Instance plain_runtime.

(** Results carry their check, time and outcome; a result id is its digits. *)
Definition plain_raw (raw : pydict) : option CheckResultCreate :=
  match assoc_get raw "check_id", assoc_get raw "timestamp", assoc_get raw "success" with
  | Some (PInt c), Some (PInt t), Some (PBool s) =>
      Some (ResultCreate t s None None (Some (Z.to_N c)) "web" "http"
              (match assoc_get raw "metrics" with Some (PDict m) => Some m | _ => None end))
  | _, _, _ => None
  end.
#[local] Instance plain_submissions : Submissions := {|
  validate_result := plain_raw;
  uuid_of_text _ := None;
  strptime_agent s := if String.eqb s "in ten days" then Some (minutes 14400) else None;
  fromisoformat_utc _ := None;
|}.
#[local] Instance minute_settings : ServerSettings := {| default_heartbeat_interval := 60 |}.

Definition raw_result (check_id t : Z) (success : bool) : pydict :=
  [("check_id", PInt check_id); ("timestamp", PInt (minutes t)); ("success", PBool success)].
Definition report_of (l : list pydict) : AgentReportSubmission := Submission 1 None l.
Definition deliver_at (t : Z) (l : list pydict) : delivery :=
  Delivery (minutes t) (SslWindows 30 14) (fun i => (1000 * Z.to_N t + N.of_nat i)%N) (fun _ => minutes t) (fun _ => minutes t)
    (report_of l).

Definition recovery_alert : alert := demo_alert STATUS_CHANGE
  [("on_status", PList [PStr "error"]); ("consecutive_failures", PInt 1)] None None.
Definition watched : db := demo_db recovery_alert None None [] [].

Definition ingested_logs (l : list delivery) : list (option string) :=
  match ingest_all wire_ok watched l with Ok d => map nl_hash (db_logs d) | Raise _ => [] end.

(** ** Divergence: a recovery within one batch

    A passing result is a recovery when the result before it failed; but the
    evaluation looks at the two newest results stored, and a report's results are
    all stored before any is evaluated. *)

(** A failure, then two passes: reported one by one, the recovery is notified; with
    the two passes in one report, as after an outage of the server, it never is. *)
Theorem batched_recovery_lost :
  ingested_logs [deliver_at 1 [raw_result 10 1 false]; deliver_at 2 [raw_result 10 2 true]; deliver_at 3 [raw_result 10 3 true]]
    = [Some "status:down"; Some "status:up"]
  /\ ingested_logs [deliver_at 1 [raw_result 10 1 false]; deliver_at 3 [raw_result 10 2 true; raw_result 10 3 true]]
    = [Some "status:down"].
Proof. split; vm_compute; reflexivity. Qed.

(** ** Witnesses *)

Definition first_delivery : delivery := deliver_at 1 [raw_result 10 1 false; raw_result 20 1 true; raw_result 99 1 true; raw_result 10 1 true].
Definition process_of (d : db) (e : delivery) : res (db * processed) :=
  process_agent_submission wire_ok d (dl_now e) (dl_windows e) (dl_fresh e) (dl_seen e) (dl_tick e) (dl_sub e).
Definition after_first : db := value_of watched (fst <$> process_of watched first_delivery).

(** Check 10 once though it was sent twice, check 20, and check 99 refused. *)
Lemma report_accounted_witness :
  map key (db_results after_first) = [(10%N, minutes 1); (20%N, minutes 1)] /\
  NoDup (map key (db_results after_first)).
Proof.
  split; [vm_compute; reflexivity|].
  assert (exists p, process_of watched first_delivery = Ok (after_first, p)) as [p Hp] by (eexists; vm_compute; reflexivity).
  destruct (report_accounted wire_ok _ _ _ _ _ _ _ _ _ Hp) as (a & inserted & _ & _ & _ & Hnd & _).
  apply Hnd. by constructor.
Defined.

Lemma report_again_changes_nothing_witness :
  exists p, process_of after_first (deliver_at 7 (sub_checks (dl_sub first_delivery))) = Ok (after_first, p) /\ alerts_evaluated p = 0.
Proof.
  assert (exists p, process_of watched first_delivery = Ok (after_first, p)) as [p Hp] by (eexists; vm_compute; reflexivity).
  destruct (report_again_changes_nothing wire_ok _ _ _ _ _ _ _ _ _ (minutes 7) (SslWindows 30 14)
    (fun i => (7000 + N.of_nat i)%N) (fun _ => minutes 7) (fun _ => minutes 7) Hp) as (p2 & Hp2 & _ & _ & H0).
  exists p2. split; [exact Hp2|exact H0].
Defined.

Definition one_by_one : list delivery :=
  [deliver_at 1 [raw_result 10 1 false]; deliver_at 2 [raw_result 10 2 true]; deliver_at 3 [raw_result 10 1 false]].
Definition at_once : list delivery := [deliver_at 5 [raw_result 10 2 true; raw_result 10 1 false]].

Lemma ingestion_order_free_witness :
  map key (db_results (value_of watched (ingest_all wire_ok watched one_by_one)))
    ≡ₚ map key (db_results (value_of watched (ingest_all wire_ok watched at_once))).
Proof.
  apply (ingestion_order_free wire_ok watched one_by_one at_once).
  - by constructor.
  - by vm_compute.
  - by vm_compute.
  - intros k. unfold delivered, one_by_one, at_once. split.
    + intros (e & a & raw & x & He & Ha & Hraw & Hv & Hx). eexists _, a, raw, x. split; [left|]. split; [|split; [|done]].
      * by repeat (apply elem_of_cons in He as [->|He]; [done|]); apply elem_of_nil in He.
      * repeat (apply elem_of_cons in He as [->|He]; [apply list_elem_of_singleton in Hraw as ->; listed; done|]).
        by apply elem_of_nil in He.
    + intros (e & a & raw & x & ->%list_elem_of_singleton & Ha & Hraw & Hv & Hx).
      apply elem_of_cons in Hraw as [-> | ->%list_elem_of_singleton].
      * exists (deliver_at 2 [raw_result 10 2 true]), a, (raw_result 10 2 true), x. split; [right; left|]. split; [done|]. split; [left|done].
      * exists (deliver_at 1 [raw_result 10 1 false]), a, (raw_result 10 1 false), x. split; [left|]. split; [done|]. split; [left|done].
Defined.

(** A certificate whose days the agent wrote itself. *)
Definition with_certificate (date : string) : pydict :=
  raw_result 10 1 true ++ [("metrics", PDict [("response", PDict [("ssl_certificate",
    PDict [("days_until_expiration", PStr "soon"); ("expiration_date", PStr date)])])])].
Definition certificate_delivery : delivery := deliver_at 1 [with_certificate "in ten days"].
Definition after_certificate : db := value_of watched (fst <$> process_of watched certificate_delivery).

Lemma ingested_certificate_witness :
  exists r metrics stored days, db_results after_certificate = [r] /\ cr_metrics r = Json metrics
    /\ ssl_certificate metrics = Ok (PDict stored) /\ assoc_get stored "days_until_expiration" = Some days
    /\ days = PInt 9.
Proof.
  assert (exists p, process_of watched certificate_delivery = Ok (after_certificate, p)) as [p Hp] by (eexists; vm_compute; reflexivity).
  assert (exists r metrics cert, db_results after_certificate = [r] /\ cr_metrics r = Json metrics
    /\ ssl_certificate metrics = Ok (PDict cert)) as (r & metrics & cert & Hr & Hmet & Hcert)
    by (eexists _, _, _; split; [vm_compute; reflexivity|split; vm_compute; reflexivity]).
  destruct (ingested_certificate wire_ok watched (dl_now certificate_delivery) (dl_windows certificate_delivery)
    (dl_fresh certificate_delivery) (dl_seen certificate_delivery) (dl_tick certificate_delivery)
    (dl_sub certificate_delivery) after_certificate p r metrics (PDict cert)) as (sent & x & m & response & raw & k & stored &
      days & Hsent & Hv & _ & _ & Hm & Hresp & Hraw & [= <-] & Hd & E).
  - exact Hp.
  - rewrite Hr. left.
  - apply not_elem_of_nil.
  - exact Hmet.
  - exact Hcert.
  - discriminate.
  - exists r, metrics, cert, days. do 4 (split; [done|]). rewrite E.
    apply list_elem_of_singleton in Hsent as ->. vm_compute in Hv. injection Hv as <-. vm_compute in Hm. injection Hm as <-.
    vm_compute in Hresp. injection Hresp as <-. vm_compute in Hraw. injection Hraw as <-. vm_compute. reflexivity.
Defined.
