(* ===== verification/SilenceAlert.v ===== *)
(** * Silence alerts

    [SilenceAlertCoreService]
    (apps/backend/app/services/core/silence_alert_core_service.py): the alerts
    that fire on the absence of data.  A pass first decides, reading only, what
    to record; then records it.  [now] is the clock the decision reads, [later]
    the clock of the recording.  Nothing a decision runs on a stored row raises
    (the configuration column holds an object), so the pass's per-alert savepoint
    never rolls back in the model. *)

From S2P Require Import Prelude Py Text Store Liveness Notify AlertEval Assignment.

Definition CHECK_SILENT : string := "no_data:silent".
Definition CHECK_SUPPRESSED : string := "no_data:agent_offline".
Definition CHECK_REPORTING : string := "no_data:reporting".
Definition AGENT_OFFLINE_KEY : string := "agent_offline:offline".
Definition AGENT_ONLINE_KEY : string := "agent_offline:online".

(** The [SilencePassCounts] field a notice counts toward. *)
Inductive counter := Notified | Suppressed | Recovered.

Record SilencePassCounts := Counts {
  n_alerts : nat;
  n_silent_checks : nat;
  n_offline_agents : nat;
  n_notified : nat;
  n_suppressed : nat;
  n_recovered : nat;
  n_failed : nat;
}.

Definition no_counts : SilencePassCounts := Counts 0 0 0 0 0 0 0.

Definition bump_alerts (n : SilencePassCounts) : SilencePassCounts :=
  Counts (S (n_alerts n)) (n_silent_checks n) (n_offline_agents n) (n_notified n)
    (n_suppressed n) (n_recovered n) (n_failed n).
Definition add_silent (k : nat) (n : SilencePassCounts) : SilencePassCounts :=
  Counts (n_alerts n) (n_silent_checks n + k) (n_offline_agents n) (n_notified n)
    (n_suppressed n) (n_recovered n) (n_failed n).
Definition add_offline (k : nat) (n : SilencePassCounts) : SilencePassCounts :=
  Counts (n_alerts n) (n_silent_checks n) (n_offline_agents n + k) (n_notified n)
    (n_suppressed n) (n_recovered n) (n_failed n).
Definition bump (c : counter) (n : SilencePassCounts) : SilencePassCounts :=
  match c with
  | Notified => Counts (n_alerts n) (n_silent_checks n) (n_offline_agents n) (S (n_notified n))
                  (n_suppressed n) (n_recovered n) (n_failed n)
  | Suppressed => Counts (n_alerts n) (n_silent_checks n) (n_offline_agents n) (n_notified n)
                    (S (n_suppressed n)) (n_recovered n) (n_failed n)
  | Recovered => Counts (n_alerts n) (n_silent_checks n) (n_offline_agents n) (n_notified n)
                   (n_suppressed n) (S (n_recovered n)) (n_failed n)
  end.

(** [_Notice] *)
Record notice := Notice {
  no_alert_id : uuid;
  no_state_key : string;
  no_counter : counter;
  no_check_id : option uuid;
  no_agent_id : option uuid;
  no_context : option notification_context;
  no_decision : send_decision;
  no_suppressed : option string;
}.

Definition missed_intervals (a : alert) : Z :=
  match assoc_get (al_config a) "missed_intervals" with
  | Some (PInt v) => if (1 <=? v)%Z && (v <=? MAX_MISSED_INTERVALS)%Z then v
                     else DEFAULT_MISSED_INTERVALS
  | _ => DEFAULT_MISSED_INTERVALS
  end.

(** [_ago] *)
Definition ago (delta : Z) : string :=
  let minutes := (delta / us_per_minute)%Z in
  if (minutes <? 60)%Z then pretty minutes +:+ " min"
  else pretty (minutes / 60)%Z +:+ " h " +:+ pretty (minutes mod 60)%Z +:+ " min".

(** ** Reads (crud/check_result_crud.py, crud/alert_crud.py) *)

Definition result_times (d : db) (check_id : uuid) : list instant :=
  map cr_timestamp (results_of d check_id).

(** [latest_result_times], for one check *)
Definition latest_result_time (d : db) (check_id : uuid) (since : instant) : option instant :=
  newest (filter (fun t => since <= t)%Z (result_times d check_id)).

(** [newest_result_times], for one check *)
Definition newest_result_time (d : db) (check_id : uuid) : option instant :=
  newest (result_times d check_id).

Definition newest_result_after (d : db) (check_id : uuid) (after : instant) : option instant :=
  newest (filter (fun t => after < t)%Z (result_times d check_id)).

Definition list_enabled_alerts_by_trigger (d : db) (triggers : list AlertTriggerType) : list alert :=
  filter (fun a => al_trigger a ∈ triggers /\ alert_live a = true) (rows (db_alerts d)).

(** The alert's enabled mapping of a check ([{m.check_id: m}]: the last one). *)
Definition enabled_mapping (d : db) (alert_id check_id : uuid) : option alert_check_mapping :=
  last (filter (fun m => cm_alert_id m = alert_id /\ cm_check_id m = check_id /\ cm_enabled m = true)
          (db_check_maps d)).

Definition has_live_provider (d : db) (a : alert) : bool :=
  match live_provider_ids d (al_id a) with [] => false | _ => true end.

Definition hash_is (row : notification_log) (key : string) : bool :=
  bool_decide (nl_hash row = Some key).

Section Silence.
Context `{PyRuntime} `{ServerSettings}.

Definition agent_title (a : agent) : string :=
  match str_or (ag_name a) None with Some n => n | None => uuid_str (ag_id a) end.

(** [_check_context] *)
Definition check_context (a : alert) (c : check) (agents : list agent) (later : instant)
    (message : option string) (recovered : bool) : notification_context :=
  let sole := match agents with [g] => Some g | _ => None end in
  NotificationContext (ck_display_name c) (ck_type c) (ag_id <$> sole)
    (g ← sole; str_or (ag_hostname g) (ag_name g))
    (if recovered then "success" else "no_data") recovered None later message
    (al_name a) recovered None.

(** [_agent_context] *)
Definition agent_context (a : alert) (g : agent) (later : instant)
    (message : option string) (recovered : bool) : notification_context :=
  NotificationContext ("Agent " +:+ agent_title g) "agent" (Some (ag_id g))
    (str_or (ag_hostname g) (ag_name g))
    (if recovered then "success" else "offline") recovered None later message
    (al_name a) recovered None.

(** ** no_data *)

Abbreviation placement := (check * list agent * list agent)%type.

Definition targets (d : db) (a : alert) (assigned : list placement) : list placement :=
  filter (fun t => enabled_mapping d (al_id a) (ck_id t.1.1) <> None /\ t.1.2 <> []) assigned.

(** [_episode_open] *)
Definition episode_open (d : db) (c : check) (last_row : option notification_log)
    (last_result : option instant) : bool :=
  match last_row with
  | None => false
  | Some row =>
      if hash_is row CHECK_SILENT || hash_is row CHECK_SUPPRESSED then
        match (match last_result with
               | Some t => Some t
               | None => newest_result_after d (ck_id c) (nl_sent_at row)
               end) with
        | None => true
        | Some t => (t <=? nl_sent_at row)%Z
        end
      else false
  end.

(** When a check is expected to have reported by: its newest result in the
    window, else its creation; later for one handed over to a new agent. *)
Definition expected_from (c : check) (agents pool : list agent) (now : instant)
    (last_result : option instant) : instant :=
  let from := default (ck_created_at c) last_result in
  match handed_over_at c pool now, agents with
  | Some moved_at, g :: _ => Z.max from (moved_at + heartbeat_interval g * us_per_second)
  | _, _ => from
  end.

Inductive verdict :=
  | Reporting (recovery : option notice)
  | Silent (at_once : option notice)
  | Announce (decision : send_decision) (last_result : option instant).

(** The body of the loop over the targets of one alert. *)
Definition judge (d : db) (a : alert) (now since : instant) (t : placement) : verdict :=
  let '(c, agents, pool) := t in
  let last_result := latest_result_time d (ck_id c) since in
  let last_row := last_notification d (al_id a) (about_check (ck_id c)) in
  let threshold := silent_after (ck_interval c) (missed_intervals a) in
  if (now - threshold <=? expected_from c agents pool now last_result)%Z then
    Reporting
      (match last_row, last_result with
       | Some row, Some seen =>
           if al_notify_on_recovery a && hash_is row CHECK_SILENT && (nl_sent_at row <? seen)%Z
           then Some (Notice (al_id a) CHECK_REPORTING Recovered (Some (ck_id c)) None
                        (Some (check_context a c agents now None true)) fresh None)
           else None
       | _, _ => None
       end)
  else if match enabled_mapping d (al_id a) (ck_id c) with
          | Some m => match cm_snoozed_until m with Some u => (now <? u)%Z | None => false end
          | None => false
          end
  then Silent None
  else
    let in_episode := episode_open d c last_row last_result in
    let offline := filter (fun g => agent_offline g now DEFAULT_MISSED_INTERVALS = true) agents in
    if (length offline =? length agents)%nat then
      Silent (if in_episode then None
              else Some (Notice (al_id a) CHECK_SUPPRESSED Suppressed (Some (ck_id c)) None None fresh
                           (Some ("Suppressed: agent offline ("
                                    +:+ join ", " (map agent_title offline) +:+ ")"))))
    else
      let decision := match last_row with
                      | Some row => if in_episode && hash_is row CHECK_SILENT
                                    then resend_decision now a row else fresh
                      | None => fresh
                      end in
      if sd_send decision then Announce decision last_result else Silent None.

Definition silent_message (c : check) (now : instant) (last_result : option instant) : string :=
  let age := (now - default (ck_created_at c) last_result)%Z in
  match last_result with
  | Some _ => "No results for " +:+ ago age +:+ " (expected every "
                +:+ pretty (int_or (ck_interval c) DEFAULT_CHECK_INTERVAL_SECONDS) +:+ " s)"
  | None => "No results since it was created " +:+ ago age +:+ " ago"
  end.

(** The second loop: a first notice with no result in the window looks up the
    newest result however old. *)
Definition announce (d : db) (a : alert) (now : instant) (t : placement)
    (decision : send_decision) (last_result : option instant) : notice :=
  let '(c, agents, _) := t in
  let known := match last_result with
               | Some r => Some r
               | None => if sd_is_resend decision then None else newest_result_time d (ck_id c)
               end in
  Notice (al_id a) CHECK_SILENT Notified (Some (ck_id c)) None
    (Some (check_context a c agents now (Some (silent_message c now known)) false)) decision None.

(** [min(now - silent_after(...) for the targets)] *)
Definition look_back (a : alert) (now : instant) (ts : list placement) : instant :=
  match map (fun t => now - silent_after (ck_interval t.1.1) (missed_intervals a))%Z ts with
  | [] => now
  | x :: xs => fold_left Z.min xs x
  end.

Definition at_once (v : verdict) : option notice :=
  match v with Reporting n | Silent n => n | Announce _ _ => None end.

Definition counts_silent (v : verdict) : bool :=
  match v with Reporting _ => false | _ => true end.

Definition decide_no_data (d : db) (a : alert) (assigned : list placement) (now : instant)
    (counts : SilencePassCounts) : SilencePassCounts * list notice :=
  match targets d a assigned with
  | [] => (counts, [])
  | ts =>
      let since := look_back a now ts in
      let judged := map (fun t => (t, judge d a now since t)) ts in
      (add_silent (length (filter (fun tv => counts_silent tv.2 = true) judged)) counts,
       omap (fun tv => at_once tv.2) judged ++
       omap (fun tv => match tv.2 with
                       | Announce decision last_result =>
                           Some (announce d a now tv.1 decision last_result)
                       | _ => None
                       end) judged)
  end.

(** ** agent_offline *)

(** The distinct agents the alert's checks may run on (keyed by id, in order
    of first appearance). *)
Fixpoint distinct_by_id (l : list agent) (seen : list uuid) : list agent :=
  match l with
  | [] => []
  | g :: l' => if bool_decide (ag_id g ∈ seen) then distinct_by_id l' seen
               else g :: distinct_by_id l' (ag_id g :: seen)
  end.

Definition covered_agents (d : db) (a : alert) (assigned : list placement) : list agent :=
  distinct_by_id
    (mjoin (map snd (filter (fun t => enabled_mapping d (al_id a) (ck_id t.1.1) <> None) assigned))) [].

(** The body of the loop over the covered agents. *)
Definition judge_agent (d : db) (a : alert) (now : instant) (g : agent) : bool * option notice :=
  let last_row := last_notification d (al_id a) (about_agent (ag_id g)) in
  let last := ag_last_seen g in
  if negb (agent_offline g now (missed_intervals a)) then
    (false,
     match last_row, last with
     | Some row, Some seen =>
         if al_notify_on_recovery a && hash_is row AGENT_OFFLINE_KEY && (nl_sent_at row <? seen)%Z
         then Some (Notice (al_id a) AGENT_ONLINE_KEY Recovered None (Some (ag_id g))
                      (Some (agent_context a g now None true)) fresh None)
         else None
     | _, _ => None
     end)
  else
    let decision :=
      match last_row with
      | Some row =>
          if hash_is row AGENT_OFFLINE_KEY &&
             match last with None => true | Some seen => (seen <=? nl_sent_at row)%Z end
          then resend_decision now a row else fresh
      | None => fresh
      end in
    (true,
     if sd_send decision then
       let message :=
         match last with
         | Some seen => "No heartbeat for " +:+ ago (now - seen)%Z +:+ " (expected every "
                          +:+ pretty (heartbeat_interval g) +:+ " s)"
         | None => "No heartbeat since it was approved"
         end in
       Some (Notice (al_id a) AGENT_OFFLINE_KEY Notified None (Some (ag_id g))
               (Some (agent_context a g now (Some message) false)) decision None)
     else None).

Definition decide_agent_offline (d : db) (a : alert) (assigned : list placement) (now : instant)
    (counts : SilencePassCounts) : SilencePassCounts * list notice :=
  let judged := map (judge_agent d a now) (covered_agents d a assigned) in
  (add_offline (length (filter (fun r => r.1 = true) judged)) counts, omap snd judged).

(** ** One pass *)

Definition decide_alert (d : db) (assigned : list placement) (now : instant)
    (st : SilencePassCounts * list notice) (a : alert) : SilencePassCounts * list notice :=
  if negb (has_live_provider d a) then st
  else
    let counts := bump_alerts st.1 in
    let '(counts', notices) :=
      if bool_decide (al_trigger a = NO_DATA) then decide_no_data d a assigned now counts
      else decide_agent_offline d a assigned now counts in
    (counts', st.2 ++ notices).

(** [_decide] *)
Definition decide_pass (d : db) (now : instant) (counts : SilencePassCounts)
    : res (SilencePassCounts * list notice) :=
  match list_enabled_alerts_by_trigger d [NO_DATA; AGENT_OFFLINE] with
  | [] => Ok (counts, [])
  | alerts =>
      assigned ← assigned_agents_by_check d now;
      Ok (fold_left (decide_alert d assigned now) alerts (counts, []))
  end.

Variable wire : provider -> notification_context -> res bool.

Definition suppressed_row (later : instant) (n : notice) (reason : string) (provider_id : uuid)
    : notification_log :=
  NotificationLog (no_alert_id n) provider_id None None (no_check_id n) None false None SUPPRESSED
    (Some reason) (Some (no_state_key n)) false 0 later.

(** [_record] *)
Definition record_notice (later : instant) (st : db * SilencePassCounts) (n : notice)
    : res (db * SilencePassCounts) :=
  let '(d, counts) := st in
  match no_suppressed n with
  | Some reason =>
      Ok (add_notification_logs d
            (map (suppressed_row later n reason) (live_provider_ids d (no_alert_id n))),
          bump Suppressed counts)
  | None =>
      match no_context n with
      | None => Ok (d, counts)
      | Some ctx =>
          '(d', written) ← send_to_providers wire d later ctx
            (SendMeta (no_alert_id n) None None (no_check_id n) (no_agent_id n)
               (Some (no_state_key n)) (sd_is_resend (no_decision n))
               (sd_resend_count (no_decision n)));
          Ok (d', if (written =? 0)%nat then counts else bump (no_counter n) counts)
      end
  end.

(** [evaluate], and the scheduler job [evaluate_silence_alerts], which records
    each notice in a transaction of its own. *)
Definition evaluate_silence_alerts (d : db) (now later : instant)
    : res (db * SilencePassCounts) :=
  '(counts, notices) ← decide_pass d now no_counts;
  fold_res (record_notice later) (d, counts) notices.
End Silence.

#[global] Arguments record_notice : simpl never.
#[global] Arguments judge : simpl never.
