(* ===== verification/SilenceTheorems.v ===== *)
(** * Silence alerts: lemmas and properties

    The two-phase decision with its bounded look-back decides what a direct
    reading of the newest result would; an episode notifies once; a dead agent's
    checks do not page; a recovery follows a notified silence, once. *)

From S2P Require Import Prelude Py Text Store Liveness Notify Fixtures AlertEval AlertFacts Assignment.
From S2P Require Import AssignmentTheorems SilenceAlert.

(** ** An abstract reading of one check's silence *)

Inductive silence_action :=
  | Nothing
  | Recover
  | Suppress
  | Notify (decision : send_decision).

Section Spec.
Context `{PyRuntime} `{ServerSettings}.

Definition snoozed_mapping (d : db) (a : alert) (c : check) (now : instant) : bool :=
  match enabled_mapping d (al_id a) (ck_id c) with
  | Some m => match cm_snoozed_until m with Some u => (now <? u)%Z | None => false end
  | None => false
  end.

(** Some notified or suppressed silence no result has ended. *)
Definition in_episode (d : db) (a : alert) (c : check) : bool :=
  match last_notification d (al_id a) (about_check (ck_id c)) with
  | None => false
  | Some row => (hash_is row CHECK_SILENT || hash_is row CHECK_SUPPRESSED) &&
                match newest_result_time d (ck_id c) with
                | None => true
                | Some t => (t <=? nl_sent_at row)%Z
                end
  end.

(** What one check's silence calls for, from its newest result, however old. *)
Definition silence_spec (d : db) (a : alert) (now : instant) (c : check) (agents : list agent)
    : silence_action :=
  let last_row := last_notification d (al_id a) (about_check (ck_id c)) in
  let seen := newest_result_time d (ck_id c) in
  let notified := match last_row with Some row => hash_is row CHECK_SILENT | None => false end in
  if (now - silent_after (ck_interval c) (missed_intervals a) <=? default (ck_created_at c) seen)%Z
  then match last_row, seen with
       | Some row, Some t => if al_notify_on_recovery a && notified && (nl_sent_at row <? t)%Z
                             then Recover else Nothing
       | _, _ => Nothing
       end
  else if snoozed_mapping d a c now then Nothing
  else if forallb (fun g => agent_offline g now DEFAULT_MISSED_INTERVALS) agents then
    if in_episode d a c then Nothing else Suppress
  else
    let decision := match last_row with
                    | Some row => if in_episode d a c && notified then resend_decision now a row
                                  else fresh
                    | None => fresh
                    end in
    if sd_send decision then Notify decision else Nothing.

Definition notice_action (n : notice) : silence_action :=
  if String.eqb (no_state_key n) CHECK_REPORTING then Recover
  else if String.eqb (no_state_key n) CHECK_SUPPRESSED then Suppress
  else Notify (no_decision n).

Definition verdict_action (v : verdict) : silence_action :=
  match v with
  | Reporting n | Silent n => match n with Some n => notice_action n | None => Nothing end
  | Announce decision _ => Notify decision
  end.

(** ** Reading the newest result through a window *)

Lemma newest_filter (P : Z -> Prop) `{!forall x, Decision (P x)} l m :
  newest l = Some m -> P m -> newest (filter P l) = Some m.
Proof.
  intros [Hm Hle]%newest_Some HP. apply newest_Some. split; [by apply list_elem_of_filter|].
  rewrite Forall_forall in Hle |- *. intros x [_ Hx]%list_elem_of_filter. by apply Hle.
Qed.

Lemma newest_filter_none (P : Z -> Prop) `{!forall x, Decision (P x)} l m :
  newest l = Some m -> (forall x, x <= m -> ~ P x)%Z -> newest (filter P l) = None.
Proof.
  intros [_ Hle]%newest_Some HP. apply newest_None. rewrite Forall_forall in Hle.
  destruct (filter P l) as [|x xs] eqn:E; [done|]. exfalso.
  assert (Hx : x ∈ filter P l) by (rewrite E; left).
  apply list_elem_of_filter in Hx as [HPx Hx]. by apply (HP x); [apply Hle|].
Qed.

Lemma latest_in_window d c since :
  latest_result_time d c since =
  match newest_result_time d c with
  | Some m => if (since <=? m)%Z then Some m else None
  | None => None
  end.
Proof.
  unfold latest_result_time, newest_result_time.
  destruct (newest (result_times d c)) as [m|] eqn:E.
  - destruct (Z.leb_spec since m).
    + by apply newest_filter.
    + eapply newest_filter_none; [done|]. cbn. lia.
  - apply newest_None in E. by rewrite E.
Qed.

Lemma newest_after_row d c t :
  newest_result_after d c t =
  match newest_result_time d c with
  | Some m => if (t <? m)%Z then Some m else None
  | None => None
  end.
Proof.
  unfold newest_result_after, newest_result_time.
  destruct (newest (result_times d c)) as [m|] eqn:E.
  - destruct (Z.ltb_spec t m).
    + by apply newest_filter.
    + eapply newest_filter_none; [done|]. cbn. lia.
  - apply newest_None in E. by rewrite E.
Qed.

(** The windowed read and the probe decide the episode as the newest result does. *)
Lemma episode_open_spec d a c since :
  episode_open d c (last_notification d (al_id a) (about_check (ck_id c)))
    (latest_result_time d (ck_id c) since) = in_episode d a c.
Proof.
  unfold episode_open, in_episode. destruct (last_notification _ _ _) as [row|]; [|done].
  destruct (hash_is row CHECK_SILENT || hash_is row CHECK_SUPPRESSED); [|done].
  rewrite latest_in_window, newest_after_row.
  destruct (newest_result_time d (ck_id c)) as [m|]; [|done].
  destruct (since <=? m)%Z; [done|]. cbn [andb].
  by destruct (Z.ltb_spec (nl_sent_at row) m), (Z.leb_spec m (nl_sent_at row)); try lia.
Qed.

Lemma all_offline (agents : list agent) now :
  (length (filter (fun g => agent_offline g now DEFAULT_MISSED_INTERVALS = true) agents)
     =? length agents)%nat = forallb (fun g => agent_offline g now DEFAULT_MISSED_INTERVALS) agents.
Proof.
  induction agents as [|g l IH]; [done|]. rewrite filter_cons. cbn [length forallb].
  destruct (agent_offline g now _).
  - rewrite decide_True by done. cbn. by rewrite <- IH.
  - rewrite decide_False by done. cbn [andb]. apply Nat.eqb_neq.
    pose proof (length_filter (fun g => agent_offline g now DEFAULT_MISSED_INTERVALS = true) l). lia.
Qed.

Lemma fold_min_le l x y : y ∈ x :: l -> (fold_left Z.min l x <= y)%Z.
Proof.
  revert x y. induction l as [|z l IH]; intros x y; cbn.
  { intros [->|[]%elem_of_nil]%elem_of_cons. done. }
  intros [->|[->|Hy]%elem_of_cons]%elem_of_cons.
  - etrans; [apply IH; left|]. lia.
  - etrans; [apply IH; left|]. lia.
  - apply IH. by right.
Qed.

Lemma look_back_le a now ts c agents pool :
  (c, agents, pool) ∈ ts ->
  (look_back a now ts <= now - silent_after (ck_interval c) (missed_intervals a))%Z.
Proof.
  intros Hin. unfold look_back.
  assert (Hx : (now - silent_after (ck_interval c) (missed_intervals a))%Z ∈
    map (fun t => now - silent_after (ck_interval t.1.1) (missed_intervals a))%Z ts).
  { apply list_elem_of_fmap. by exists (c, agents, pool). }
  destruct (map _ ts) as [|x xs]; [by apply elem_of_nil in Hx|]. by apply fold_min_le.
Qed.

Lemma expected_from_local c agents pool now last_result :
  handed_over_at c pool now = None ->
  expected_from c agents pool now last_result = default (ck_created_at c) last_result.
Proof. intros Hover. unfold expected_from. by rewrite Hover. Qed.

(** The loop body decides what the specification says of a check that has not
    been handed over and has no result older than itself. *)
Lemma judge_spec d a now since c agents pool :
  (since <= now - silent_after (ck_interval c) (missed_intervals a))%Z ->
  handed_over_at c pool now = None ->
  (forall t, newest_result_time d (ck_id c) = Some t -> ck_created_at c <= t)%Z ->
  verdict_action (judge d a now since (c, agents, pool)) = silence_spec d a now c agents.
Proof.
  intros Hsince Hover Hcreated. unfold judge, silence_spec. rewrite expected_from_local by done.
  rewrite episode_open_spec, all_offline. fold (snoozed_mapping d a c now).
  assert (Hlate : (now - silent_after (ck_interval c) (missed_intervals a) <=?
      default (ck_created_at c) (latest_result_time d (ck_id c) since))%Z =
    (now - silent_after (ck_interval c) (missed_intervals a) <=?
      default (ck_created_at c) (newest_result_time d (ck_id c)))%Z).
  { rewrite latest_in_window. destruct (newest_result_time d (ck_id c)) as [m|]; [|done].
    destruct (Z.leb_spec since m); [done|]. cbn. specialize (Hcreated m eq_refl).
    set (from := (now - silent_after _ _)%Z) in *.
    by destruct (Z.leb_spec from (ck_created_at c)), (Z.leb_spec from m); try lia. }
  rewrite Hlate. clear Hlate. destruct (_ <=? default _ _)%Z eqn:Efine.
  - rewrite latest_in_window.
    destruct (newest_result_time d (ck_id c)) as [m|]; [|by destruct (last_notification _ _ _)].
    cbn in Efine. apply Z.leb_le in Efine. rewrite (proj2 (Z.leb_le since m)) by lia.
    destruct (last_notification _ _ _) as [row|]; [|done].
    by destruct (al_notify_on_recovery a && _ && _).
  - destruct (snoozed_mapping d a c now); [done|]. destruct (forallb _ agents).
    + by destruct (in_episode d a c).
    + destruct (last_notification _ _ _) as [row|]; [|done].
      destruct (in_episode d a c && hash_is row CHECK_SILENT); [|done].
      by destruct (sd_send (resend_decision now a row)).
Qed.
End Spec.

(** ** From one check to the pass *)

Section FilterOmap.
Context {X Y K : Type} `{EqDecision K} (key : X -> K) (f : X -> option Y) (nkey : Y -> option K).

Abbreviation keyed_by k := (filter (fun n => nkey n = Some k)).

Lemma omap_cons_list x l : omap f (x :: l) = option_list (f x) ++ omap f l.
Proof. cbn. by destruct (f x). Qed.

Lemma filter_option_list_same x :
  (forall n, f x = Some n -> nkey n = Some (key x)) ->
  keyed_by (key x) (option_list (f x)) = option_list (f x).
Proof.
  intros Hx. destruct (f x) as [n|]; [|done]. cbn. by rewrite decide_True by auto.
Qed.

Lemma filter_option_list_other x k :
  (forall n, f x = Some n -> nkey n = Some (key x)) -> key x <> k ->
  keyed_by k (option_list (f x)) = [].
Proof.
  intros Hx Hk. destruct (f x) as [n|]; [|done]. cbn. rewrite decide_False; [done|].
  rewrite (Hx n eq_refl). congruence.
Qed.

Lemma filter_omap_other l k :
  (forall y n, y ∈ l -> f y = Some n -> nkey n = Some (key y)) -> k ∉ map key l ->
  keyed_by k (omap f l) = [].
Proof.
  induction l as [|x l IH]; intros Hk Hx; [done|]. cbn [map] in Hx.
  apply not_elem_of_cons in Hx as [Hx Hl]. rewrite omap_cons_list, filter_app, IH; [|by set_solver..].
  rewrite filter_option_list_other; [done|intros n; apply Hk; left|congruence].
Qed.

Lemma filter_omap_key l x :
  NoDup (map key l) -> x ∈ l ->
  (forall y n, y ∈ l -> f y = Some n -> nkey n = Some (key y)) ->
  keyed_by (key x) (omap f l) = option_list (f x).
Proof.
  induction l as [|y l IH]; intros Hnd Hx Hk; [by apply elem_of_nil in Hx|].
  cbn [map] in Hnd. apply NoDup_cons in Hnd as [Hy Hnd]. rewrite omap_cons_list, filter_app.
  assert (Hk' : forall z n, z ∈ l -> f z = Some n -> nkey n = Some (key z))
    by (intros z n Hz; apply Hk; by right).
  apply elem_of_cons in Hx as [->|Hx].
  - rewrite filter_omap_other by done. rewrite app_nil_r.
    apply filter_option_list_same. intros n. apply Hk. left.
  - rewrite IH by done. rewrite filter_option_list_other; [done|intros n; apply Hk; left|].
    intros E. apply Hy. rewrite E. by apply list_elem_of_fmap_2.
Qed.
End FilterOmap.

Section Pass.
Context `{PyRuntime} `{ServerSettings}.

Abbreviation placement := (check * list agent * list agent)%type.

Definition subject (t : placement) : uuid := ck_id t.1.1.

Definition late_notice (d : db) (a : alert) (now since : instant) (t : placement) : option notice :=
  match judge d a now since t with
  | Announce decision last_result => Some (announce d a now t decision last_result)
  | _ => None
  end.

Definition since_of (d : db) (a : alert) (assigned : list placement) (now : instant) : instant :=
  look_back a now (targets d a assigned).

Lemma decide_no_data_notices d a assigned now counts :
  (decide_no_data d a assigned now counts).2 =
  omap (fun t => at_once (judge d a now (since_of d a assigned now) t)) (targets d a assigned) ++
  omap (late_notice d a now (since_of d a assigned now)) (targets d a assigned).
Proof.
  unfold decide_no_data, since_of. destruct (targets d a assigned) as [|t ts]; [done|].
  cbn [snd]. generalize (look_back a now (t :: ts)). intros since.
  f_equal; (induction (t :: ts) as [|u us IH]; [done|]);
    cbn [map]; rewrite !omap_cons_list, IH; [done|].
  unfold late_notice. cbn. by destruct (judge d a now since u).
Qed.

Lemma judge_subject d a now since t n :
  at_once (judge d a now since t) = Some n ->
  no_alert_id n = al_id a /\ no_check_id n = Some (subject t) /\ no_agent_id n = None /\
  (no_state_key n = CHECK_REPORTING \/ no_state_key n = CHECK_SUPPRESSED).
Proof.
  destruct t as [[c agents] pool]. unfold judge.
  destruct (_ <=? expected_from _ _ _ _ _)%Z.
  - cbn. destruct (last_notification _ _ _) as [row|]; [|done].
    destruct (latest_result_time _ _ _); [|done].
    destruct (_ && _ && _); [|done]. intros [= <-]. repeat split. by left.
  - destruct (match enabled_mapping d (al_id a) (ck_id c) with Some m => _ | None => false end); [done|].
    destruct (_ =? _)%nat; cbn.
    + destruct (episode_open _ _ _ _); [done|]. intros [= <-]. repeat split. by right.
    + by destruct (sd_send _).
Qed.

Lemma late_subject d a now since t n :
  late_notice d a now since t = Some n ->
  no_alert_id n = al_id a /\ no_check_id n = Some (subject t) /\ no_agent_id n = None /\
  no_state_key n = CHECK_SILENT /\ no_counter n = Notified /\ no_suppressed n = None.
Proof.
  unfold late_notice. destruct (judge _ _ _ _ _); [done..|]. destruct t as [[c agents] pool].
  by intros [= <-].
Qed.

Lemma decide_elem d a assigned now counts n :
  n ∈ (decide_no_data d a assigned now counts).2 <->
  exists t, t ∈ targets d a assigned /\
    (at_once (judge d a now (since_of d a assigned now) t) = Some n \/
     late_notice d a now (since_of d a assigned now) t = Some n).
Proof.
  rewrite decide_no_data_notices, elem_of_app, !list_elem_of_omap. naive_solver.
Qed.

(** The notices of a pass about one check. *)
Definition about (c : check) (ns : list notice) : list notice :=
  filter (fun n => no_check_id n = Some (ck_id c)) ns.

(** C8: The bounded look-back loses nothing: for a check that has not been
    handed over and has no result older than itself, a pass decides exactly
    what its newest result, however old, calls for: at most one notice, the
    one of [silence_spec]. *)
Theorem no_data_refines d a assigned now counts c agents pool :
  NoDup (map subject assigned) -> (c, agents, pool) ∈ targets d a assigned ->
  handed_over_at c pool now = None ->
  (forall t, newest_result_time d (ck_id c) = Some t -> ck_created_at c <= t)%Z ->
  map notice_action (about c (decide_no_data d a assigned now counts).2) =
  match silence_spec d a now c agents with Nothing => [] | action => [action] end.
Proof.
  intros Hnd Ht Hover Hcreated. rewrite decide_no_data_notices. set (since := since_of _ _ _ _).
  assert (Hnd' : NoDup (map subject (targets d a assigned))).
  { eapply sublist_NoDup; [exact Hnd|]. apply fmap_sublist, sublist_filter. }
  rewrite <- (judge_spec d a now since c agents pool); [|by apply (look_back_le a now _ c agents pool)|done..].
  unfold about. rewrite filter_app. change (ck_id c) with (subject (c, agents, pool)).
  rewrite (filter_omap_key subject (fun t => at_once (judge d a now since t)) no_check_id);
    [|done|done|by intros y n _ (_&?&_)%judge_subject].
  rewrite (filter_omap_key subject (late_notice d a now since) no_check_id);
    [|done|done|by intros y n _ (_&?&_)%late_subject].
  unfold late_notice. destruct (judge d a now since _) as [[n|]|[n|]|dec lr] eqn:Ej; cbn; try done.
  all: destruct (judge_subject d a now since (c, agents, pool) n) as (_&_&_&Hkey);
    [by rewrite Ej|]; unfold notice_action; by destruct Hkey as [-> | ->].
Qed.

(** A dead agent's checks do not page: a pass sends a no-data
    notification about a check only when some agent assigned it is online;
    while all are offline it records at most a suppression. *)
Theorem dead_agents_do_not_page d a assigned now counts n :
  n ∈ (decide_no_data d a assigned now counts).2 -> no_state_key n = CHECK_SILENT ->
  exists c agents pool, (c, agents, pool) ∈ assigned /\ no_check_id n = Some (ck_id c) /\
    exists g, g ∈ agents /\ agent_offline g now DEFAULT_MISSED_INTERVALS = false.
Proof.
  intros Hn Hkey. apply decide_elem in Hn as ([[c agents] pool] & Ht & Hn).
  destruct Hn as [Hn|Hn].
  { apply judge_subject in Hn as (_&_&_&[E|E]); rewrite Hkey in E; discriminate E. }
  exists c, agents, pool. pose proof (late_subject _ _ _ _ _ _ Hn) as (_&Hid&_).
  unfold targets in Ht. apply list_elem_of_filter in Ht as [_ Hin]. split; [done|]. split; [done|].
  unfold late_notice, judge in Hn. rewrite all_offline in Hn.
  destruct (forallb _ agents) eqn:Eall.
  - destruct (_ <=? expected_from _ _ _ _ _)%Z; [done|].
    by destruct (match enabled_mapping d (al_id a) (ck_id c) with Some m => _ | None => false end).
  - clear -Eall. induction agents as [|g l IH]; [done|]. cbn in Eall.
    destruct (agent_offline g now _) eqn:Eg; [|exists g; split; [left|done]].
    destruct IH as (g' & ? & ?); [done|]. exists g'. split; [by right|done].
Qed.
End Pass.

(** ** Recording a notice *)

Section Record.
Context `{PyRuntime} `{ServerSettings}.
Variable wire : provider -> notification_context -> res bool.

(** What every row of a recorded notice carries. *)
Definition notice_row (n : notice) (later : instant) (x : notification_log) : Prop :=
  nl_alert_id x = no_alert_id n /\ nl_check_id x = no_check_id n /\
  nl_agent_id x = (if no_suppressed n then None else no_agent_id n) /\
  nl_hash x = Some (no_state_key n) /\ nl_sent_at x = later /\
  dedup_relevant (nl_status x) = true.

Lemma keyed_add_logs d rows : keyed d -> keyed (add_notification_logs d rows).
Proof. intros []. by split. Qed.

Lemma record_notice_rows later d counts n d' counts' :
  record_notice wire later (d, counts) n = Ok (d', counts') ->
  exists rows, d' = add_notification_logs d rows /\ Forall (notice_row n later) rows /\
    (map nl_provider_id rows = live_provider_ids d (no_alert_id n) \/
     no_suppressed n = None /\ no_context n = None /\ rows = []).
Proof.
  unfold record_notice, notice_row. destruct (no_suppressed n) as [reason|].
  { intros [= <- <-]. eexists. split; [done|]. split; [by apply Forall_map_all|]. left.
    generalize (live_provider_ids d (no_alert_id n)). intros ids.
    induction ids as [|i ids IH]; cbn; [done|]. by f_equal. }
  destruct (no_context n) as [ctx|].
  2: { intros [= <- <-]. exists []. rewrite add_no_logs. naive_solver. }
  unfold send_to_providers. cbn [sm_alert_id].
  destruct (live_provider_ids d (no_alert_id n)) as [|p ps] eqn:El.
  { cbn. intros [= <- <-]. exists []. rewrite add_no_logs. naive_solver. }
  destruct (send_notifications _ _ _ _ _ _) as [[d2 rows]|] eqn:Es; cbn; [|done].
  intros [= <- <-]. apply send_notifications_spec in Es as (-> & Hids & Hrows).
  exists rows. split; [done|]. split; [|by left]. eapply Forall_impl; [exact Hrows|]. naive_solver.
Qed.

Lemma record_notice_total later d counts n :
  keyed d -> exists d' counts', record_notice wire later (d, counts) n = Ok (d', counts').
Proof.
  intros Hk. unfold record_notice. destruct (no_suppressed n); [by eauto|].
  destruct (no_context n) as [ctx|]; [|by eauto]. unfold send_to_providers. cbn [sm_alert_id].
  destruct (live_provider_ids d (no_alert_id n)) as [|p ps] eqn:El; [by cbn; eauto|].
  destruct (send_notifications_total wire d later (p :: ps) ctx
    (SendMeta (no_alert_id n) None None (no_check_id n) (no_agent_id n) (Some (no_state_key n))
       (sd_is_resend (no_decision n)) (sd_resend_count (no_decision n)))) as (d' & rows & ->).
  { intros i Hi. eapply live_providers_found; [done|]. by rewrite El. }
  cbn. eauto.
Qed.

(** The newest row about the subject is then the notice's. *)
Lemma record_notice_last later d counts n d' counts' a about_ :
  Forall (fun r => nl_sent_at r <= later)%Z (db_logs d) ->
  record_notice wire later (d, counts) n = Ok (d', counts') ->
  no_alert_id n = a -> live_provider_ids d a <> [] ->
  (no_suppressed n <> None \/ no_context n <> None) ->
  (forall x, notice_row n later x -> about_ x = true) ->
  db_results d' = db_results d /\
  exists r, last_notification d' a about_ = Some r /\ notice_row n later r.
Proof.
  intros Hlogs Hrec <- Hlive Hsome Habout.
  apply record_notice_rows in Hrec as (rows & -> & Hrows & Hids). split; [done|].
  destruct Hids as [Hids|(? & ? & _)]; [|by destruct Hsome].
  destruct rows as [|r rows _] using rev_ind; [by destruct (Hlive (eq_sym Hids))|].
  apply Forall_app in Hrows as [Hrows Hr]. inversion_clear Hr as [|? ? Hr0 _]. rename Hr0 into Hr. exists r. split; [|done].
  pose proof Hr as (Ha & _ & _ & _ & Ht & Hd).
  apply (last_notification_snoc later); auto.
  eapply Forall_impl; [exact Hrows|]. unfold notice_row. cbn. intros x (_&_&_&_&->&_). lia.
Qed.

(** While a notified silence is open and is not to be resent, nothing more is
    decided about the check. *)
Lemma open_episode_quiet d a c agents pool now since row :
  last_notification d (al_id a) (about_check (ck_id c)) = Some row ->
  hash_is row CHECK_SILENT = true -> al_resend_interval a = None ->
  (forall t, newest_result_time d (ck_id c) = Some t -> t <= nl_sent_at row)%Z ->
  at_once (judge d a now since (c, agents, pool)) = None /\
  late_notice d a now since (c, agents, pool) = None.
Proof.
  intros Hlast Hh Hres Hnew.
  assert (Hep : in_episode d a c = true).
  { unfold in_episode. rewrite Hlast, Hh. cbn. destruct (newest_result_time d (ck_id c)); [|done].
    apply Z.leb_le. by apply Hnew. }
  assert (Hrd : resend_decision now a row = no_send) by (unfold resend_decision; by rewrite Hres).
  unfold late_notice, judge. rewrite episode_open_spec, Hep, Hlast, Hh, Hrd, andb_true_r.
  destruct (_ <=? expected_from _ _ _ _ _)%Z.
  - rewrite latest_in_window. destruct (newest_result_time d (ck_id c)) as [m|]; [|done].
    destruct (since <=? m)%Z; [|done]. specialize (Hnew m eq_refl).
    by rewrite (proj2 (Z.ltb_ge _ _) Hnew), andb_false_r.
  - destruct (match enabled_mapping d (al_id a) (ck_id c) with Some m => _ | None => false end); [done|].
    by destruct (_ =? _)%nat.
Qed.

(** A silence notifies once: with no resend interval, after a pass
    recorded a check's no-data notification, no later pass decides anything
    about that check until a result newer than the notification arrives. *)
Theorem silence_notified_once d d' a c n assigned assigned' now now' later cs cs' cs'' counts' :
  Forall (fun r => nl_sent_at r <= later)%Z (db_logs d) ->
  live_provider_ids d (al_id a) <> [] -> al_resend_interval a = None ->
  n ∈ (decide_no_data d a assigned now cs).2 ->
  no_check_id n = Some (ck_id c) -> no_state_key n = CHECK_SILENT ->
  record_notice wire later (d, cs') n = Ok (d', counts') ->
  (forall t, newest_result_time d (ck_id c) = Some t -> t <= later)%Z ->
  about c (decide_no_data d' a assigned' now' cs'').2 = [].
Proof.
  intros Hlogs Hlive Hres Hn Hid Hkey Hrec Hno.
  apply decide_elem in Hn as (t0 & _ & [Hn|Hn]).
  { apply judge_subject in Hn as (_&_&_&[E|E]); rewrite Hkey in E; discriminate E. }
  pose proof (late_subject _ _ _ _ _ _ Hn) as (Hal & _ & _ & _ & _ & Hsup).
  assert (Hctx : no_context n <> None).
  { unfold late_notice in Hn. destruct (judge _ _ _ _ _); [done..|]. destruct t0 as [[? ?] ?].
    by injection Hn as <-. }
  destruct (record_notice_last later d cs' n d' counts' (al_id a) (about_check (ck_id c)))
    as (Hr & row & Hlast & Hrow); auto.
  { unfold about_check. intros x (_ & E & _). apply bool_decide_eq_true. congruence. }
  destruct Hrow as (_ & _ & _ & Hh & Hat & _). rewrite Hkey in Hh.
  apply elem_of_nil_inv. intros n' Hn'. unfold about in Hn'.
  apply list_elem_of_filter in Hn' as [Hid' Hn'].
  apply decide_elem in Hn' as ([[c' agents] pool] & _ & Hn').
  assert (Hc' : ck_id c' = ck_id c).
  { destruct Hn' as [(_&E&_)%judge_subject|(_&E&_)%late_subject];
      unfold subject in E; cbn in E; congruence. }
  rewrite <- Hc' in Hlast. destruct (open_episode_quiet d' a c' agents pool now' 
    (since_of d' a assigned' now') row) as [E1 E2]; auto.
  - unfold hash_is. rewrite Hh. done.
  - intros t. rewrite Hc'. unfold newest_result_time, result_times, results_of. rewrite Hr, Hat. apply Hno.
  - rewrite E1, E2 in Hn'. by destruct Hn'.
Qed.

Lemma decide_offline_elem d a assigned now counts n :
  n ∈ (decide_agent_offline d a assigned now counts).2 <->
  exists g, g ∈ covered_agents d a assigned /\ (judge_agent d a now g).2 = Some n.
Proof.
  unfold decide_agent_offline. cbn [snd]. rewrite list_elem_of_omap. split.
  - intros (r & (g & -> & Hg)%list_elem_of_fmap & Hn). eauto.
  - intros (g & Hg & Hn). exists (judge_agent d a now g). split; [by apply list_elem_of_fmap_2|done].
Qed.

Lemma judge_agent_subject d a now g n :
  (judge_agent d a now g).2 = Some n ->
  no_alert_id n = al_id a /\ no_agent_id n = Some (ag_id g) /\ no_check_id n = None /\
  no_suppressed n = None /\ no_context n <> None /\
  (no_state_key n = AGENT_ONLINE_KEY /\ agent_offline g now (missed_intervals a) = false \/
   no_state_key n = AGENT_OFFLINE_KEY /\ agent_offline g now (missed_intervals a) = true).
Proof.
  unfold judge_agent. destruct (agent_offline g now _); cbn.
  - destruct (sd_send _); [|done]. intros [= <-]. repeat split; [done|]. by right.
  - destruct (last_notification _ _ _); [|done]. destruct (ag_last_seen g); [|done].
    destruct (_ && _ && _); [|done]. intros [= <-]. repeat split; [done|]. by left.
Qed.

Lemma outage_quiet d a now g row :
  last_notification d (al_id a) (about_agent (ag_id g)) = Some row ->
  hash_is row AGENT_OFFLINE_KEY = true -> (forall t, ag_last_seen g = Some t -> t <= nl_sent_at row)%Z ->
  al_resend_interval a = None -> (judge_agent d a now g).2 = None.
Proof.
  intros Hlast Hh Hno Hres. unfold judge_agent. rewrite Hlast, Hh, andb_true_r.
  assert (Hrd : resend_decision now a row = no_send) by (unfold resend_decision; by rewrite Hres).
  destruct (agent_offline g now _); cbn.
  - destruct (ag_last_seen g) as [t|]; [|by rewrite Hrd].
    rewrite (proj2 (Z.leb_le t (nl_sent_at row))) by (by apply Hno). by rewrite Hrd.
  - destruct (ag_last_seen g) as [t|]; [|done].
    rewrite (proj2 (Z.ltb_ge (nl_sent_at row) t)) by (by apply Hno). by rewrite andb_false_r.
Qed.

(** An outage notifies once: with no resend interval, after a pass
    recorded an agent's offline notification, no later pass decides anything
    about that agent until it heartbeats again. *)
Theorem outage_notified_once d d' a g n assigned assigned' now now' later cs cs' cs'' counts' :
  Forall (fun r => nl_sent_at r <= later)%Z (db_logs d) ->
  live_provider_ids d (al_id a) <> [] -> al_resend_interval a = None ->
  n ∈ (decide_agent_offline d a assigned now cs).2 ->
  no_agent_id n = Some (ag_id g) -> no_state_key n = AGENT_OFFLINE_KEY ->
  record_notice wire later (d, cs') n = Ok (d', counts') ->
  (forall g' t, g' ∈ covered_agents d' a assigned' -> ag_id g' = ag_id g ->
     ag_last_seen g' = Some t -> t <= later)%Z ->
  forall n', n' ∈ (decide_agent_offline d' a assigned' now' cs'').2 ->
    no_agent_id n' <> Some (ag_id g).
Proof.
  intros Hlogs Hlive Hres Hn Hid Hkey Hrec Hno n' Hn' Hid'.
  apply decide_offline_elem in Hn as (g0 & _ & Hn), Hn' as (g' & Hcov & Hn').
  apply judge_agent_subject in Hn as (Hal & _ & _ & Hsup & Hctx & _).
  pose proof (judge_agent_subject _ _ _ _ _ Hn') as (_ & E & _).
  assert (Hg : ag_id g' = ag_id g) by congruence.
  destruct (record_notice_last later d cs' n d' counts' (al_id a) (about_agent (ag_id g)))
    as (_ & row & Hlast & (_ & _ & _ & Hh & Hat & _)); auto.
  { unfold about_agent. intros x (_ & _ & Ex & _). apply bool_decide_eq_true.
    rewrite Hsup in Ex. congruence. }
  rewrite Hkey in Hh. rewrite (outage_quiet d' a now' g' row) in Hn'; [done|..|done].
  - by rewrite Hg.
  - unfold hash_is. by rewrite Hh.
  - intros t Ht. rewrite Hat. by apply (Hno g').
Qed.

(** A recovery is decided only after a notified silence and a newer result. *)
Lemma recovery_sound d a c assigned now counts n :
  n ∈ about c (decide_no_data d a assigned now counts).2 -> no_state_key n = CHECK_REPORTING ->
  no_alert_id n = al_id a /\ no_suppressed n = None /\ no_context n <> None /\
  al_notify_on_recovery a = true /\ exists row t,
    last_notification d (al_id a) (about_check (ck_id c)) = Some row /\
    nl_hash row = Some CHECK_SILENT /\ t ∈ result_times d (ck_id c) /\ (nl_sent_at row < t)%Z.
Proof.
  intros [Hid Hn]%list_elem_of_filter Hkey.
  apply decide_elem in Hn as ([[c' agents] pool] & _ & [Hn|Hn]).
  2: { apply late_subject in Hn as (_&_&_&E&_). rewrite Hkey in E. discriminate E. }
  pose proof (judge_subject _ _ _ _ _ _ Hn) as (Hal & Hid' & _).
  assert (Hc : ck_id c' = ck_id c) by (unfold subject in Hid'; cbn in Hid'; congruence).
  unfold judge in Hn. rewrite Hc in Hn. destruct (_ <=? expected_from _ _ _ _ _)%Z; cbn in Hn.
  - destruct (last_notification d _ _) as [row|]; [|done].
    destruct (latest_result_time d _ _) as [t|] eqn:Et; [|done].
    destruct (_ && _ && _) eqn:Eb; [|done]. injection Hn as <-.
    apply andb_true_iff in Eb as [[Hnr Hh]%andb_true_iff Hlt]. repeat (split; [done|]).
    exists row, t. apply bool_decide_eq_true in Hh. apply Z.ltb_lt in Hlt.
    apply newest_Some in Et as [Et _]. by apply list_elem_of_filter in Et as [_ ?].
  - destruct (match enabled_mapping d _ _ with Some m => _ | None => false end); [done|].
    destruct (_ =? _)%nat; [|by destruct (sd_send _)].
    destruct (episode_open _ _ _ _); [done|]. injection Hn as <-. discriminate Hkey.
Qed.

(** A recovery follows a notified silence, once: a pass decides a
    check's recovery only when the newest row about it is the notified silence
    and a result arrived after it; once the recovery is recorded, no later pass
    decides another before the check is notified silent again. *)
Theorem recovery_once d d' a c n assigned assigned' now now' later cs cs' cs'' counts' :
  Forall (fun r => nl_sent_at r <= later)%Z (db_logs d) ->
  live_provider_ids d (al_id a) <> [] ->
  n ∈ (decide_no_data d a assigned now cs).2 ->
  no_check_id n = Some (ck_id c) -> no_state_key n = CHECK_REPORTING ->
  record_notice wire later (d, cs') n = Ok (d', counts') ->
  (al_notify_on_recovery a = true /\ exists row t,
    last_notification d (al_id a) (about_check (ck_id c)) = Some row /\
    nl_hash row = Some CHECK_SILENT /\ t ∈ result_times d (ck_id c) /\ (nl_sent_at row < t)%Z) /\
  (forall n', n' ∈ about c (decide_no_data d' a assigned' now' cs'').2 ->
     no_state_key n' <> CHECK_REPORTING).
Proof.
  intros Hlogs Hlive Hn Hid Hkey Hrec.
  destruct (recovery_sound d a c assigned now cs n) as (Hal & Hsup & Hctx & Hrest);
    [by apply list_elem_of_filter|done|]. split; [done|].
  intros n' Hn' Hkey'. apply recovery_sound in Hn' as (_&_&_&_&row&t&Hl&Hh&_); [|done].
  destruct (record_notice_last later d cs' n d' counts' (al_id a) (about_check (ck_id c)))
    as (_ & row' & Hlast & (_ & _ & _ & Hh' & _)); auto.
  { unfold about_check. intros x (_ & E & _). apply bool_decide_eq_true. congruence. }
  rewrite Hlast in Hl. injection Hl as ->. rewrite Hh, Hkey in Hh'. discriminate Hh'.
Qed.

(** What a pass writes: rows of the enabled silence alerts, through their live
    providers, dated at the recording. *)
Definition from_silence_alert (d : db) (later : instant) (x : notification_log) : Prop :=
  exists a, a ∈ list_enabled_alerts_by_trigger d [NO_DATA; AGENT_OFFLINE] /\
    nl_alert_id x = al_id a /\ nl_provider_id x ∈ live_provider_ids d (al_id a) /\
    nl_sent_at x = later /\
    exists k, nl_hash x = Some k /\
      k ∈ [CHECK_SILENT; CHECK_SUPPRESSED; CHECK_REPORTING; AGENT_OFFLINE_KEY; AGENT_ONLINE_KEY].

Definition silence_notice (d : db) (n : notice) : Prop :=
  exists a, a ∈ list_enabled_alerts_by_trigger d [NO_DATA; AGENT_OFFLINE] /\ no_alert_id n = al_id a /\
    no_state_key n ∈ [CHECK_SILENT; CHECK_SUPPRESSED; CHECK_REPORTING; AGENT_OFFLINE_KEY; AGENT_ONLINE_KEY].

Lemma decide_alert_notices d assigned now st a :
  a ∈ list_enabled_alerts_by_trigger d [NO_DATA; AGENT_OFFLINE] ->
  Forall (silence_notice d) st.2 -> Forall (silence_notice d) (decide_alert d assigned now st a).2.
Proof.
  intros Ha Hst. unfold decide_alert. destruct (negb _); [done|].
  destruct (if bool_decide _ then _ else _) as [cs ns] eqn:E. cbn. apply Forall_app. split; [done|].
  apply Forall_forall. intros n Hn. exists a. split; [done|]. destruct (bool_decide _).
  - assert (Hn' : n ∈ (decide_no_data d a assigned now (bump_alerts st.1)).2) by (by rewrite E).
    apply decide_elem in Hn' as (t & _ & [(?&_&_&[-> | ->])%judge_subject|(?&_&_&->&_)%late_subject]);
      (split; [done|]); set_solver.
  - assert (Hn' : n ∈ (decide_agent_offline d a assigned now (bump_alerts st.1)).2) by (by rewrite E).
    apply decide_offline_elem in Hn' as (g & _ & (?&_&_&_&_&[[-> _]|[-> _]])%judge_agent_subject);
      (split; [done|]); set_solver.
Qed.

Lemma record_all_appends later d d0 counts notices :
  keyed d -> (forall i, live_provider_ids d i = live_provider_ids d0 i) ->
  Forall (silence_notice d0) notices ->
  exists rows counts', fold_res (record_notice wire later) (d, counts) notices
    = Ok (add_notification_logs d rows, counts') /\ Forall (from_silence_alert d0 later) rows.
Proof.
  revert d counts. induction notices as [|n ns IH]; intros d counts Hk Hlive Hns.
  { exists [], counts. by rewrite add_no_logs. }
  inversion_clear Hns as [|? ? (a & Ha & Hal & Hkey) Hns'].
  destruct (record_notice_total later d counts n Hk) as (d1 & counts1 & E).
  cbn. rewrite E. cbn. apply record_notice_rows in E as (rows1 & -> & Hrows & Hids).
  destruct (IH (add_notification_logs d rows1) counts1) as (rows2 & counts' & -> & Hrows2);
    [by apply keyed_add_logs|done|done|].
  exists (rows1 ++ rows2), counts'. split.
  { f_equal. f_equal. unfold add_notification_logs, set_logs. cbn. by rewrite (assoc_L (++)). }
  apply Forall_app. split; [|done]. rewrite Forall_forall in Hrows |- *. intros y Hy.
  destruct (Hrows y Hy) as (Hxa & _ & _ & Hh & Ht & _). exists a.
  split; [done|]. split; [congruence|]. split; [|split; [done|by exists (no_state_key n)]].
  destruct Hids as [Hids|(_ & _ & ->)]; [|by apply elem_of_nil in Hy].
  rewrite <- Hlive, <- Hal, <- Hids. by apply list_elem_of_fmap_2.
Qed.

(** A silence pass always completes once the placements resolve, and only
    appends to the audit log: rows of the enabled silence alerts, through their
    live providers, under the silence state keys, dated at the recording. *)
Theorem silence_pass_appends d now later table :
  keyed d -> assigned_agents_by_check d now = Ok table ->
  exists rows counts, evaluate_silence_alerts wire d now later = Ok (add_notification_logs d rows, counts) /\
    Forall (from_silence_alert d later) rows.
Proof.
  intros Hk Ht. unfold evaluate_silence_alerts, decide_pass.
  assert (Hgen : forall alerts, alerts ⊆ list_enabled_alerts_by_trigger d [NO_DATA; AGENT_OFFLINE] ->
    forall st, Forall (silence_notice d) st.2 ->
    Forall (silence_notice d) (fold_left (decide_alert d table now) alerts st).2).
  { induction alerts as [|a l IH]; intros Hsub st Hst; [done|]. cbn. apply IH; [set_solver|].
    apply decide_alert_notices; [set_solver|done]. }
  specialize (Hgen (list_enabled_alerts_by_trigger d [NO_DATA; AGENT_OFFLINE])).
  destruct (list_enabled_alerts_by_trigger d _) as [|a l] eqn:El.
  { cbn. exists [], no_counts. by rewrite add_no_logs. }
  rewrite Ht. cbn [mbind res_bind]. specialize (Hgen ltac:(done) (no_counts, []) (Forall_nil_2 _)).
  destruct (fold_left _ _ _) as [counts notices].
  destruct (record_all_appends later d d counts notices) as (rows & counts' & -> & Hrows); [done..|].
  by exists rows, counts'.
Qed.
End Record.

(** A resent silence notification forgets when the check last reported: outside
    the look-back window only a first notice looks that up, so the message says
    the check never reported at all. *)
Theorem resent_silence_forgets `{PyRuntime} `{ServerSettings} d a now c agents pool decision :
  sd_is_resend decision = true ->
  no_context (announce d a now (c, agents, pool) decision None) =
  Some (check_context a c agents now
          (Some ("No results since it was created " +:+ ago (now - ck_created_at c) +:+ " ago")) false).
Proof. intros Hr. unfold announce. by rewrite Hr. Qed.

(** ** Witnesses *)

#[local] Existing Instance plain_runtime.
#[local] Existing Instance default_settings.

Definition quiet_alert : alert := demo_alert NO_DATA [("missed_intervals", PInt 3)] None None.
Definition outage_alert : alert := demo_alert AGENT_OFFLINE [("missed_intervals", PInt 3)] None None.

(** Check 10 runs on agent 1, last seen at [seen]; its results came at [times]. *)
Definition silent_db (a : alert) (seen : instant) (times : list instant) (logs : list notification_log) : db :=
  set_agents (demo_db a None None (map (fun t => demo_result 100 10 t true) times) logs)
             {[ 1%N := demo_agent 1 seen ]}.

Definition placed (d : db) (now : instant) := value_of [] (assigned_agents_by_check d now).

Definition silent : db := silent_db quiet_alert (minutes 30) [0%Z] [].
Definition on_one : check * list agent * list agent :=
  (demo_check 10 None, [demo_agent 1 (minutes 30)], [demo_agent 1 (minutes 30)]).

Lemma no_data_refines_witness :
  map notice_action (about (demo_check 10 None)
    (decide_no_data silent quiet_alert (placed silent (minutes 30)) (minutes 30) no_counts).2)
  = [Notify fresh].
Proof.
  rewrite (no_data_refines silent quiet_alert (placed silent (minutes 30)) (minutes 30) no_counts
             (demo_check 10 None) [demo_agent 1 (minutes 30)] [demo_agent 1 (minutes 30)]).
  - vm_compute. reflexivity.
  - vm_compute. repeat constructor; set_solver.
  - listed.
  - vm_compute. reflexivity.
  - intros t Ht. vm_compute in Ht. injection Ht as <-. vm_compute. discriminate.
Defined.

Lemma dead_agents_do_not_page_witness :
  exists n, n ∈ (decide_no_data silent quiet_alert (placed silent (minutes 30)) (minutes 30) no_counts).2 /\
    exists c agents pool, (c, agents, pool) ∈ placed silent (minutes 30) /\ no_check_id n = Some (ck_id c) /\
      exists g, g ∈ agents /\ agent_offline g (minutes 30) DEFAULT_MISSED_INTERVALS = false.
Proof.
  eexists. split; [listed|].
  eapply (dead_agents_do_not_page silent quiet_alert (placed silent (minutes 30)) (minutes 30) no_counts).
  - listed.
  - reflexivity.
Defined.

Definition blank_notice : notice :=
  {| no_alert_id := 0; no_check_id := None; no_agent_id := None; no_context := None; no_state_key := "";
     no_decision := no_send; no_suppressed := None; no_counter := Notified |}.
Definition first_notice (ns : SilencePassCounts * list notice) : notice := default blank_notice (head ns.2).

(** The notice a pass decides, and the state once it is recorded. *)
Definition silence_of (d : db) (now : instant) : notice :=
  first_notice (decide_no_data d quiet_alert (placed d now) now no_counts).
Definition outage_of (d : db) (now : instant) : notice :=
  first_notice (decide_agent_offline d outage_alert (placed d now) now no_counts).
Definition recorded (d : db) (later : instant) (n : notice) : db :=
  (value_of (empty_db, no_counts) (record_notice wire_ok later (d, no_counts) n)).1.

Definition told : db := recorded silent (minutes 30) (silence_of silent (minutes 30)).

Lemma silence_notified_once_witness :
  length (db_logs told) = 1%nat /\
  about (demo_check 10 None)
    (decide_no_data told quiet_alert (placed told (minutes 60)) (minutes 60) no_counts).2 = [].
Proof.
  split; [vm_compute; reflexivity|].
  eapply (silence_notified_once wire_ok silent told quiet_alert (demo_check 10 None)
            (silence_of silent (minutes 30)) (placed silent (minutes 30)) (placed told (minutes 60))
            (minutes 30) (minutes 60) (minutes 30) no_counts no_counts).
  - constructor.
  - vm_compute. discriminate.
  - reflexivity.
  - listed.
  - vm_compute. reflexivity.
  - vm_compute. reflexivity.
  - vm_compute. reflexivity.
  - intros t Ht. vm_compute in Ht. injection Ht as <-. vm_compute. discriminate.
Defined.

(** Agent 1 was last seen at 0: half an hour later it is offline. *)
Definition dark : db := silent_db outage_alert 0 [0%Z] [].
Definition dark_told : db := recorded dark (minutes 30) (outage_of dark (minutes 30)).

Lemma outage_notified_once_witness :
  length (db_logs dark_told) = 1%nat /\
  forall n', n' ∈ (decide_agent_offline dark_told outage_alert (placed dark_told (minutes 60))
                     (minutes 60) no_counts).2 -> no_agent_id n' <> Some 1%N.
Proof.
  split; [vm_compute; reflexivity|].
  eapply (outage_notified_once wire_ok dark dark_told outage_alert (demo_agent 1 0)
            (outage_of dark (minutes 30)) (placed dark (minutes 30)) (placed dark_told (minutes 60))
            (minutes 30) (minutes 60) (minutes 30) no_counts no_counts).
  - constructor.
  - vm_compute. discriminate.
  - reflexivity.
  - listed.
  - vm_compute. reflexivity.
  - vm_compute. reflexivity.
  - vm_compute. reflexivity.
  - intros g t Hg _ Ht. vm_compute in Hg. apply list_elem_of_singleton in Hg as ->. cbn in Ht.
    injection Ht as <-. vm_compute. discriminate.
Defined.

(** Check 10 was notified silent at 30 minutes and reported at 40. *)
Definition back : db := silent_db quiet_alert (minutes 40) [0%Z; minutes 40] (db_logs told).
Definition back_told : db := recorded back (minutes 41) (silence_of back (minutes 41)).

Lemma recovery_once_witness :
  no_state_key (silence_of back (minutes 41)) = CHECK_REPORTING /\
  forall n', n' ∈ about (demo_check 10 None)
       (decide_no_data back_told quiet_alert (placed back_told (minutes 50)) (minutes 50) no_counts).2 ->
     no_state_key n' <> CHECK_REPORTING.
Proof.
  split; [vm_compute; reflexivity|].
  eapply (recovery_once wire_ok back back_told quiet_alert (demo_check 10 None)
            (silence_of back (minutes 41)) (placed back (minutes 41)) (placed back_told (minutes 50))
            (minutes 41) (minutes 50) (minutes 41) no_counts no_counts).
  - eapply (bool_decide_eq_true_1 (Forall _ _)). vm_compute. reflexivity.
  - vm_compute. discriminate.
  - listed.
  - vm_compute. reflexivity.
  - vm_compute. reflexivity.
  - vm_compute. reflexivity.
Defined.

Lemma silence_pass_appends_witness :
  exists rows counts, evaluate_silence_alerts wire_ok silent (minutes 30) (minutes 30)
      = Ok (add_notification_logs silent rows, counts) /\ Forall (from_silence_alert silent (minutes 30)) rows.
Proof.
  eapply (silence_pass_appends wire_ok silent (minutes 30) (minutes 30)).
  - split; intros i x Hx; cbn [silent silent_db set_agents demo_db db_agents db_checks db_alerts db_providers] in Hx;
      table_rows Hx; first [reflexivity | vm_compute; reflexivity].
  - vm_compute. reflexivity.
Defined.
