(* ===== verification/AlertAdmin.v ===== *)
(** * Configuring alerts

    [AlertCoreService] (apps/backend/app/services/core/alert_core_service.py),
    the writes of [AlertCRUD] (crud/alert_crud.py) and the normal forms of a
    trigger configuration (schemas/alert_trigger_config_schema.py).

    The tables' constraints are part of the model: a duplicate alert-check pair
    or a dangling foreign key raises [IntegrityError].  A transaction that raises
    commits nothing.  Where a set is iterated the model uses the order of the
    list it was built from.  Row locks are not modelled: an operation runs on the
    state its transaction sees. *)

From S2P Require Import Prelude Py Text Store Liveness Notify AlertEval Assignment.

(** ** Normal forms of a trigger configuration *)

Record CheckFilters := {
  cf_agent_ids : option (list uuid);
  cf_check_types : option (list string);
  cf_check_names : option (list string);
  cf_tags : option (list string);
}.

Inductive watched_status := on_error | on_success.
Inductive threshold_operator := op_gt | op_ge | op_lt | op_le | op_eq.

Record StatusChangeConfig := {
  sc_on_status : list watched_status;
  sc_consecutive_failures : Z;
  sc_check_filters : option CheckFilters;
}.

Record ThresholdConfig := {
  tc_operator : threshold_operator;
  tc_value : float;
  tc_check_filters : option CheckFilters;
}.

Record SslCertExpiryConfig := {
  sl_days_thresholds : list Z;
  sl_check_filters : option CheckFilters;
}.

Record SilenceConfig := {
  si_missed_intervals : Z;
  si_check_filters : option CheckFilters;
}.

Inductive trigger_config :=
  | StatusChange (c : StatusChangeConfig)
  | Threshold (c : ThresholdConfig)
  | SslCertExpiry (c : SslCertExpiryConfig)
  | Silence (c : SilenceConfig).

(** [_BY_TYPE] *)
Definition config_of_type (t : AlertTriggerType) (c : trigger_config) : bool :=
  match t, c with
  | (STATUS_CHANGE | REPEATED_FAILURE), StatusChange _
  | THRESHOLD, Threshold _
  | SSL_CERT_EXPIRY, SslCertExpiry _
  | (NO_DATA | AGENT_OFFLINE), Silence _ => true
  | _, _ => false
  end.

(** What the classes declare of their fields. *)
Definition declared (c : trigger_config) : bool :=
  match c with
  | StatusChange s =>
      (1 <=? length (sc_on_status s))%nat &&
      (1 <=? sc_consecutive_failures s)%Z && (sc_consecutive_failures s <=? 100)%Z
  | Threshold _ => true
  | SslCertExpiry s =>
      (1 <=? length (sl_days_thresholds s))%nat && (length (sl_days_thresholds s) <=? 10)%nat
  | Silence s => (1 <=? si_missed_intervals s)%Z && (si_missed_intervals s <=? MAX_MISSED_INTERVALS)%Z
  end.

Definition status_text (s : watched_status) : string :=
  match s with on_error => "error" | on_success => "success" end.

Definition operator_text (o : threshold_operator) : string :=
  match o with op_gt => ">" | op_ge => ">=" | op_lt => "<" | op_le => "<=" | op_eq => "==" end.

Definition optional (k : string) (v : option pyval) : pydict :=
  match v with Some x => [(k, x)] | None => [] end.

Definition dump_filters (f : CheckFilters) : pyval :=
  PDict (optional "agent_ids" (option_map (fun l => PList (map (fun i => PStr (uuid_str i)) l)) (cf_agent_ids f)) ++
         optional "check_types" (option_map (fun l => PList (map PStr l)) (cf_check_types f)) ++
         optional "check_names" (option_map (fun l => PList (map PStr l)) (cf_check_names f)) ++
         optional "tags" (option_map (fun l => PList (map PStr l)) (cf_tags f))).

(** [model_dump(mode="json", exclude_none=True)] *)
Definition model_dump (c : trigger_config) : pydict :=
  match c with
  | StatusChange s =>
      [("on_status", PList (map (fun x => PStr (status_text x)) (sc_on_status s)));
       ("consecutive_failures", PInt (sc_consecutive_failures s))] ++
      optional "check_filters" (option_map dump_filters (sc_check_filters s))
  | Threshold t =>
      [("metric", PStr "latency_ms"); ("operator", PStr (operator_text (tc_operator t)));
       ("value", PFloat (tc_value t))] ++
      optional "check_filters" (option_map dump_filters (tc_check_filters t))
  | SslCertExpiry s =>
      [("days_thresholds", PList (map PInt (sl_days_thresholds s)))] ++
      optional "check_filters" (option_map dump_filters (sl_check_filters s))
  | Silence s =>
      [("missed_intervals", PInt (si_missed_intervals s))] ++
      optional "check_filters" (option_map dump_filters (si_check_filters s))
  end.

(** pydantic's [model_validate] for the class of a trigger type: [None] is a
    ValidationError.  Of a parsed model, the declared constraints hold. *)
Class Pydantic := {
  model_validate : AlertTriggerType -> pydict -> option trigger_config
}.
Class PydanticLaws `{Pydantic} : Prop := {
  validated t d c : model_validate t d = Some c -> config_of_type t c = true /\ declared c = true
}.

Section Config.
Context `{Pydantic}.

Definition days_in_range (c : trigger_config) : bool :=
  match c with
  | SslCertExpiry s => forallb (fun d => (1 <=? d)%Z && (d <=? 365)%Z) (sl_days_thresholds s)
  | _ => true
  end.

(** [normalized_trigger_config], with [_valid_trigger_config]'s exception *)
Definition normalized_trigger_config (t : AlertTriggerType) (config : pydict) : res pydict :=
  match model_validate t config with
  | None => Raise (ValidationException "trigger_config")
  | Some parsed =>
      if days_in_range parsed then Ok (model_dump parsed)
      else Raise (ValidationException "trigger_config for ssl_cert_expiry: days_thresholds: each from 1 to 365")
  end.
End Config.

(** ** Mappings *)

Definition require_admin_actor (actor_is_admin : bool) : res unit :=
  if actor_is_admin then Ok tt else Raise AuthorizationException.

(** [get_alert_by_id]: soft-deleted alerts are not found. *)
Definition get_alert_by_id (d : db) (id : uuid) : res alert :=
  match db_alerts d !! id with
  | Some a => if al_deleted a then Raise NotFoundException else Ok a
  | None => Raise NotFoundException
  end.

Definition pair_of (m : alert_check_mapping) : uuid * uuid := (cm_alert_id m, cm_check_id m).

(** Rows of a table's mapping between two ids, inserted under its constraints
    (the unique pair, the two foreign keys). *)
Definition add_check_mapping (d : db) (alert_id check_id : uuid) : res db :=
  match db_alerts d !! alert_id, db_checks d !! check_id with
  | Some _, Some _ =>
      if bool_decide ((alert_id, check_id) ∈ map pair_of (db_check_maps d)) then Raise IntegrityError
      else Ok (set_check_maps d (db_check_maps d ++
                 [AlertCheckMapping alert_id check_id true None None None]))
  | _, _ => Raise IntegrityError
  end.

Definition add_notif_mapping (d : db) (alert_id provider_id : uuid) : res db :=
  match db_alerts d !! alert_id, db_providers d !! provider_id with
  | Some _, Some _ =>
      if bool_decide ((alert_id, provider_id) ∈
                      map (fun m => (nm_alert_id m, nm_provider_id m)) (db_notif_maps d))
      then Raise IntegrityError
      else Ok (set_notif_maps d (db_notif_maps d ++
                 [AlertNotificationMapping alert_id provider_id true]))
  | _, _ => Raise IntegrityError
  end.

Definition delete_check_mapping (d : db) (alert_id check_id : uuid) : db :=
  set_check_maps d (filter (fun m => pair_of m <> (alert_id, check_id)) (db_check_maps d)).

(** [list_check_ids], [list_alert_ids_for_check] *)
Definition list_check_ids (d : db) (alert_id : uuid) : list uuid :=
  map cm_check_id (filter (fun m => cm_alert_id m = alert_id) (db_check_maps d)).
Definition list_alert_ids_for_check (d : db) (check_id : uuid) : list uuid :=
  map cm_alert_id (filter (fun m => cm_check_id m = check_id) (db_check_maps d)).

Definition list_mapped_provider_ids (d : db) (alert_id : uuid) : list uuid :=
  map nm_provider_id (filter (fun m => nm_alert_id m = alert_id) (db_notif_maps d)).

(** [a - b] of two sets *)
Definition minus (a b : list uuid) : list uuid := filter (fun x => x ∉ b) (remove_dups a).

(** [replace_check_mappings]: only a check of [current] is removed, and an added
    pair already there is left ([ON CONFLICT DO NOTHING]). *)
Definition replace_check_mappings (d : db) (alert_id : uuid) (current check_ids : list uuid)
    : res (db * (nat * nat)) :=
  let removed := minus current check_ids in
  let gone m := bool_decide (cm_alert_id m = alert_id /\ cm_check_id m ∈ removed) in
  let removed_count := length (filter (fun m => gone m = true) (db_check_maps d)) in
  let d1 := set_check_maps d (filter (fun m => gone m = false) (db_check_maps d)) in
  let added := minus check_ids current in
  let inserted := filter (fun c => (alert_id, c) ∉ map pair_of (db_check_maps d1)) added in
  d2 ← fold_res (fun e c => add_check_mapping e alert_id c) d1 inserted;
  Ok (d2, (length inserted, removed_count)).

Definition replace_provider_mappings (d : db) (alert_id : uuid) (provider_ids : list uuid)
    : res (db * (nat * nat)) :=
  let current := list_mapped_provider_ids d alert_id in
  let removed := minus current provider_ids in
  let d1 := set_notif_maps d
    (filter (fun m => ~ (nm_alert_id m = alert_id /\ nm_provider_id m ∈ removed)) (db_notif_maps d)) in
  let added := minus provider_ids current in
  d2 ← fold_res (fun e p => add_notif_mapping e alert_id p) d1 added;
  Ok (d2, (length added, length removed)).

(** ** AlertCoreService *)

Definition require_check_list (a : alert) : res unit :=
  if al_is_global a
  then Raise (ValidationException "A global alert reaches checks by its filters; it takes no check list")
  else Ok tt.

Definition require_checks (d : db) (check_ids : list uuid) (actor_is_admin : bool) : res unit :=
  match filter (fun c => db_checks d !! c = None) (remove_dups check_ids) with
  | _ :: _ => Raise (ValidationException "No check has the id")
  | [] =>
      if existsb (fun i => match db_checks d !! i with
                           | Some c => String.eqb (ck_type c) SYNTHETIC
                           | None => false
                           end) check_ids
      then require_admin_actor actor_is_admin else Ok tt
  end.

Definition set_providers (d : db) (alert_id : uuid) (provider_ids : list uuid)
    : res (db * (nat * nat)) :=
  _ ← get_alert_by_id d alert_id;
  replace_provider_mappings d alert_id provider_ids.

Definition set_checks (d : db) (alert_id : uuid) (check_ids : list uuid) (actor_is_admin : bool)
    : res (db * (nat * nat)) :=
  a ← get_alert_by_id d alert_id;
  _ ← require_check_list a;
  let current := list_check_ids d alert_id in
  let wanted := remove_dups check_ids in
  _ ← require_checks d (minus current wanted ++ minus wanted current) actor_is_admin;
  replace_check_mappings d alert_id current wanted.

Definition add_check (d : db) (alert_id check_id : uuid) : res db :=
  match get_check_mapping d alert_id check_id with
  | Some _ => Raise (ValidationException "Check already added to this alert")
  | None => add_check_mapping d alert_id check_id
  end.

Definition remove_check (d : db) (alert_id check_id : uuid) : db :=
  delete_check_mapping d alert_id check_id.

(** The mapping's state fields, copied over the pair's row. *)
Definition save_mapping_state (d : db) (alert_id check_id : uuid) (source : alert_check_mapping) : db :=
  set_check_maps d
    (map (fun m => if bool_decide (pair_of m = (alert_id, check_id))
                   then AlertCheckMapping (cm_alert_id m) (cm_check_id m) (cm_enabled source)
                          (cm_snoozed_until m) (cm_override_resend source) (cm_override_max source)
                   else m) (db_check_maps d)).

Definition copy_check_mappings (d : db) (source_check_id target_check_id : uuid) : res db :=
  let held := list_alert_ids_for_check d target_check_id in
  fold_res (fun e source =>
      let alert_id := cm_alert_id source in
      e1 ← (if bool_decide (alert_id ∈ held) then Ok e else add_check_mapping e alert_id target_check_id);
      Ok (save_mapping_state e1 alert_id target_check_id source))
    d (filter (fun m => cm_check_id m = source_check_id) (db_check_maps d)).

(** [AlertCRUD.list_global_enabled_alert_ids] *)
Definition list_global_enabled_alert_ids (d : db) : list uuid :=
  map al_id (filter (fun a => al_is_global a = true /\ alert_live a = true) (rows (db_alerts d))).

Definition assign_global_alerts_to_check (d : db) (check_id : uuid) : res db :=
  let already_mapped := list_alert_ids_for_check d check_id in
  fold_res (fun e a => add_check_mapping e a check_id) d
    (filter (fun a => a ∉ already_mapped) (list_global_enabled_alert_ids d)).

Definition sync_check_alerts (d : db) (check_id : uuid) (alert_ids : list uuid) : res db :=
  let current := list_alert_ids_for_check d check_id in
  let d1 := fold_left (fun e a => remove_check e a check_id) (minus current alert_ids) d in
  fold_res (fun e a => add_check e a check_id) d1 (minus alert_ids current).

Definition bulk_assign_to_checks (d : db) (alert_id : uuid) (check_ids : list uuid) : res (db * nat) :=
  _ ← get_alert_by_id d alert_id;
  d' ← fold_res (fun e cid =>
         let existing := list_alert_ids_for_check d cid in
         if bool_decide (alert_id ∈ existing) then Ok e
         else sync_check_alerts e cid (existing ++ [alert_id])) d check_ids;
  Ok (d', length check_ids).

Definition bulk_clear_from_checks (d : db) (check_ids : list uuid) : res (db * nat) :=
  d' ← fold_res (fun e cid => sync_check_alerts e cid []) d check_ids;
  Ok (d', length check_ids).

(** ** Snoozing *)

Definition MAX_SNOOZE : Z := 24 * 60 * us_per_minute.

(** [snooze_check_mapping]: one UPDATE over the pair's row. *)
Definition snoozed_to (now extend_by latest : Z) (current : option instant) : instant :=
  let start := match current with Some u => if (now <? u)%Z then u else now | None => now end in
  Z.min (start + extend_by) latest.

Definition update_pair (d : db) (alert_id check_id : uuid)
    (f : alert_check_mapping -> option instant) : db :=
  set_check_maps d
    (map (fun m => if bool_decide (pair_of m = (alert_id, check_id))
                   then AlertCheckMapping (cm_alert_id m) (cm_check_id m) (cm_enabled m) (f m)
                          (cm_override_resend m) (cm_override_max m)
                   else m) (db_check_maps d)).

Definition snooze_alert_check (d : db) (now : instant) (alert_id check_id : uuid) (minutes : Z)
    : res (db * instant) :=
  match get_check_mapping d alert_id check_id with
  | None => Raise NotFoundException
  | Some m =>
      let until := snoozed_to now (minutes * us_per_minute) (now + MAX_SNOOZE) (cm_snoozed_until m) in
      Ok (update_pair d alert_id check_id
            (fun m => Some (snoozed_to now (minutes * us_per_minute) (now + MAX_SNOOZE) (cm_snoozed_until m))),
          until)
  end.

Definition unsnooze_alert_check (d : db) (alert_id check_id : uuid) : res db :=
  match get_check_mapping d alert_id check_id with
  | None => Raise NotFoundException
  | Some _ => Ok (update_pair d alert_id check_id (fun _ => None))
  end.

(** ** Creating, changing and deleting an alert *)

Record AlertCreate := {
  ac_name : string;
  ac_trigger : AlertTriggerType;
  ac_config : pydict;
  ac_enabled : bool;
  ac_global : bool;
  ac_notify_on_recovery : bool;
  ac_resend_interval : option Z;
  ac_max_resends : option Z;
  ac_provider_ids : list uuid;
  ac_check_ids : list uuid;
}.

(** A field of an update: [None] is not sent, [Some None] sent as null. *)
Abbreviation sent A := (option (option A)).

Record AlertUpdate := {
  au_name : sent string;
  au_trigger : sent AlertTriggerType;
  au_config : sent pydict;
  au_enabled : sent bool;
  au_global : sent bool;
  au_notify_on_recovery : sent bool;
  au_resend_interval : sent Z;
  au_max_resends : sent Z;
}.

(** A required column sent as null is left as it is. *)
Definition required {A} (v : sent A) (old : A) : A :=
  match v with Some (Some x) => x | _ => old end.
Definition nullable {A} (v : sent A) (old : option A) : option A :=
  match v with Some x => x | None => old end.
Definition was_sent {A} (v : sent A) : bool := match v with Some _ => true | None => false end.

Section Alerts.
Context `{Pydantic}.

(** [new_id] is the UUID the row is created with. *)
Definition create_alert (d : db) (new_id : uuid) (data : AlertCreate) : res db :=
  config ← normalized_trigger_config (ac_trigger data) (ac_config data);
  if bool_decide (db_alerts d !! new_id = None) then
    let a := Alert new_id (ac_name data) (ac_trigger data) config (ac_enabled data) false
               (ac_notify_on_recovery data) (ac_resend_interval data) (ac_max_resends data)
               (ac_global data) in
    let d1 := set_alerts d (<[new_id := a]> (db_alerts d)) in
    d2 ← fold_res (fun e p => add_notif_mapping e new_id p) d1 (ac_provider_ids data);
    fold_res (fun e c => add_check_mapping e new_id c) d2 (if ac_global data then [] else ac_check_ids data)
  else Raise IntegrityError.

Definition update_alert (d : db) (alert_id : uuid) (data : AlertUpdate) : res db :=
  a ← get_alert_by_id d alert_id;
  let trigger := required (au_trigger data) (al_trigger a) in
  let sent_config := required (au_config data) (al_config a) in
  config ← (if was_sent (au_trigger data) || was_sent (au_config data)
            then normalized_trigger_config trigger sent_config else Ok sent_config);
  Ok (set_alerts d (<[alert_id :=
    Alert (al_id a) (required (au_name data) (al_name a)) trigger config
      (required (au_enabled data) (al_enabled a)) (al_deleted a)
      (required (au_notify_on_recovery data) (al_notify_on_recovery a))
      (nullable (au_resend_interval data) (al_resend_interval a))
      (nullable (au_max_resends data) (al_max_resends a))
      (required (au_global data) (al_is_global a))]> (db_alerts d))).

(** A hard delete takes the alert's mappings and audit rows with it. *)
Definition delete_alert (d : db) (alert_id : uuid) (hard_delete : bool) : res db :=
  a ← get_alert_by_id d alert_id;
  if hard_delete then
    Ok (Db (db_agents d) (db_checks d) (delete alert_id (db_alerts d))
          (filter (fun m => cm_alert_id m <> alert_id) (db_check_maps d))
          (filter (fun m => nm_alert_id m <> alert_id) (db_notif_maps d))
          (db_providers d) (db_results d)
          (filter (fun r => nl_alert_id r <> alert_id) (db_logs d)))
  else
    Ok (set_alerts d (<[alert_id :=
      Alert (al_id a) (al_name a) (al_trigger a) (al_config a) (al_enabled a) true
        (al_notify_on_recovery a) (al_resend_interval a) (al_max_resends a) (al_is_global a)]>
      (db_alerts d))).
End Alerts.

#[global] Arguments add_check_mapping : simpl never.
#[global] Arguments add_notif_mapping : simpl never.
#[global] Arguments list_check_ids : simpl never.
#[global] Arguments list_alert_ids_for_check : simpl never.
