(* ===== verification/AlertAdminTheorems.v ===== *)
(** * Configuring alerts: lemmas and properties

    The pair table keeps its constraints under every operation; a check list is
    set exactly, an admin's consent covering the synthetic checks gained or lost;
    a snooze is bounded; a stored configuration cannot make evaluation raise. *)

From S2P Require Import Prelude Py Text Store Liveness Notify Fixtures AlertEval Assignment AlertAdmin.

(** ** The pair table *)

Definition pairs (d : db) : list (uuid * uuid) := map pair_of (db_check_maps d).

(** One row per pair, and no dangling reference. *)
Record maps_ok (d : db) : Prop := {
  pairs_unique : NoDup (pairs d);
  pairs_alert : forall m, m ∈ db_check_maps d -> is_Some (db_alerts d !! cm_alert_id m);
  pairs_check : forall m, m ∈ db_check_maps d -> is_Some (db_checks d !! cm_check_id m);
}.

Definition fresh_row (p : uuid * uuid) : alert_check_mapping :=
  AlertCheckMapping p.1 p.2 true None None None.

Lemma pair_of_fresh_rows l : map pair_of (map fresh_row l) = l.
Proof. induction l as [|[a c] l IH]; cbn; [done|]. by rewrite IH. Qed.

Lemma add_check_mapping_ok d a c d' :
  add_check_mapping d a c = Ok d' <->
  d' = set_check_maps d (db_check_maps d ++ [fresh_row (a, c)]) /\
  is_Some (db_alerts d !! a) /\ is_Some (db_checks d !! c) /\ (a, c) ∉ pairs d.
Proof.
  unfold add_check_mapping, pairs, fresh_row.
  destruct (db_alerts d !! a) as [al|]; [|split; [done|by intros (_ & [? ?] & _)]].
  destruct (db_checks d !! c) as [ck|]; [|split; [done|by intros (_ & _ & [? ?] & _)]].
  destruct (bool_decide_reflect ((a, c) ∈ map pair_of (db_check_maps d))); split; try done.
  - naive_solver.
  - intros [= <-]. by eauto 10.
  - by intros (-> & _).
Qed.

Definition add_pair (d : db) (p : uuid * uuid) : res db := add_check_mapping d p.1 p.2.

Lemma fold_res_map {S X Y} (f : S -> Y -> res S) (g : X -> Y) l s :
  fold_res f s (map g l) = fold_res (fun s x => f s (g x)) s l.
Proof. revert s. induction l as [|x l IH]; intros s; cbn; [done|]. destruct (f s (g x)); cbn; auto. Qed.

(** Inserting a list of pairs: all new, all resolving. *)
Lemma add_pairs_ok ps d d' :
  fold_res add_pair d ps = Ok d' <->
  d' = set_check_maps d (db_check_maps d ++ map fresh_row ps) /\
  Forall (fun p => is_Some (db_alerts d !! p.1) /\ is_Some (db_checks d !! p.2) /\ p ∉ pairs d) ps /\
  NoDup ps.
Proof.
  revert d. induction ps as [|[a c] ps IH]; intros d; cbn [fold_res].
  - rewrite app_nil_r. split.
    + intros [= <-]. split; [by destruct d|]. split; constructor.
    + intros (-> & _). by destruct d.
  - destruct (add_pair d (a, c)) as [d1|] eqn:E; unfold add_pair in E; cbn in E.
    + apply add_check_mapping_ok in E as (-> & Ha & Hc & Hn). cbn [mbind res_bind]. rewrite IH. cbn.
      unfold pairs in *. cbn. rewrite map_app, <- (assoc_L (++)). cbn.
      rewrite Forall_cons, NoDup_cons. cbn. split.
      * intros (-> & Hall & Hnd). split; [done|]. rewrite Forall_forall in Hall. split; [|split; [|done]].
        -- split; [done|]. apply Forall_forall. intros p Hp. destruct (Hall p Hp) as (?&?&Hq).
           rewrite not_elem_of_app in Hq. tauto.
        -- intros Hin. destruct (Hall _ Hin) as (_&_&Hq). apply Hq. set_solver.
      * intros (-> & [_ Hall] & Hni & Hnd). split; [done|]. split; [|done].
        rewrite Forall_forall in Hall |- *. intros p Hp. destruct (Hall p Hp) as (?&?&?).
        repeat (split; [done|]). rewrite not_elem_of_app, list_elem_of_singleton. split; [done|]. by intros ->.
    + cbn. split; [done|]. intros (_ & Hall & _). exfalso. apply Forall_cons in Hall as [(Ha & Hc & Hn) _].
      pose proof (proj2 (add_check_mapping_ok d a c _) (conj eq_refl (conj Ha (conj Hc Hn)))) as E'.
      rewrite E in E'. discriminate E'.
Qed.

Lemma maps_ok_add_pairs ps d d' : maps_ok d -> fold_res add_pair d ps = Ok d' -> maps_ok d'.
Proof.
  intros [Hu Ha Hc] Hf. apply add_pairs_ok in Hf as (-> & Hall & Hnd). rewrite Forall_forall in Hall. split.
  - unfold pairs in *. cbn. rewrite map_app, pair_of_fresh_rows. apply NoDup_app. split; [done|].
    split; [|done]. intros p Hp Hin. by apply (Hall p Hin).
  - cbn. intros m [Hm|Hm]%elem_of_app; [by apply Ha|].
    apply list_elem_of_fmap in Hm as (p & -> & Hp). by apply (Hall p Hp).
  - cbn. intros m [Hm|Hm]%elem_of_app; [by apply Hc|].
    apply list_elem_of_fmap in Hm as (p & -> & Hp). by apply (Hall p Hp).
Qed.

(** Rows dropped, or changed in their state only. *)
Lemma maps_ok_filter d (P : alert_check_mapping -> Prop) `{!forall m, Decision (P m)} :
  maps_ok d -> maps_ok (set_check_maps d (filter P (db_check_maps d))).
Proof.
  intros [Hu Ha Hc]. split; cbn.
  - eapply sublist_NoDup; [exact Hu|]. unfold pairs. cbn. apply fmap_sublist, sublist_filter.
  - intros m [_ Hm]%list_elem_of_filter. by apply Ha.
  - intros m [_ Hm]%list_elem_of_filter. by apply Hc.
Qed.

Lemma maps_ok_map d (f : alert_check_mapping -> alert_check_mapping) :
  (forall m, pair_of (f m) = pair_of m) ->
  maps_ok d -> maps_ok (set_check_maps d (map f (db_check_maps d))).
Proof.
  intros Hf [Hu Ha Hc].
  assert (Hp : map pair_of (map f (db_check_maps d)) = map pair_of (db_check_maps d)).
  { rewrite map_map. by apply map_ext. }
  split; cbn.
  - unfold pairs. cbn. by rewrite Hp.
  - intros m (m0 & -> & Hm)%list_elem_of_fmap. pose proof (Hf m0) as E. injection E as -> _. by apply Ha.
  - intros m (m0 & -> & Hm)%list_elem_of_fmap. pose proof (Hf m0) as E. injection E as _ ->. by apply Hc.
Qed.

Lemma maps_ok_same d d' :
  db_check_maps d' = db_check_maps d ->
  (forall i, is_Some (db_alerts d !! i) -> is_Some (db_alerts d' !! i)) ->
  db_checks d' = db_checks d -> maps_ok d -> maps_ok d'.
Proof.
  intros Hm Ha Hc [H1 H2 H3]. split; unfold pairs in *; rewrite Hm; [done| |rewrite Hc; done].
  intros m Hin. by apply Ha, H2.
Qed.

(** *** Reading the pair table by alert and by check *)

Lemma elem_of_list_check_ids d a c : c ∈ list_check_ids d a <-> (a, c) ∈ pairs d.
Proof.
  unfold list_check_ids, pairs. rewrite !list_elem_of_fmap. split.
  - intros (m & -> & [<- Hm]%list_elem_of_filter). by exists m.
  - intros (m & E & Hm). injection E as -> ->. exists m. split; [done|]. by apply list_elem_of_filter.
Qed.

Lemma elem_of_alert_ids d a c : a ∈ list_alert_ids_for_check d c <-> (a, c) ∈ pairs d.
Proof.
  unfold list_alert_ids_for_check, pairs. rewrite !list_elem_of_fmap. split.
  - intros (m & -> & [<- Hm]%list_elem_of_filter). by exists m.
  - intros (m & E & Hm). injection E as -> ->. exists m. split; [done|]. by apply list_elem_of_filter.
Qed.

Lemma elem_of_minus x a b : x ∈ minus a b <-> x ∈ a /\ x ∉ b.
Proof. unfold minus. rewrite list_elem_of_filter, elem_of_remove_dups. tauto. Qed.

Lemma NoDup_minus a b : NoDup (minus a b).
Proof. unfold minus. apply NoDup_filter, NoDup_remove_dups. Qed.

Lemma get_check_mapping_pair d a c m :
  get_check_mapping d a c = Some m -> m ∈ db_check_maps d /\ pair_of m = (a, c).
Proof.
  unfold get_check_mapping. intros Hm.
  assert (Hin : m ∈ filter (fun m => cm_alert_id m = a /\ cm_check_id m = c) (db_check_maps d)).
  { destruct (filter _ _) as [|x l]; [done|]. cbn in Hm. injection Hm as ->. left. }
  apply list_elem_of_filter in Hin as [[<- <-] Hin]. done.
Qed.

Lemma get_check_mapping_none d a c : get_check_mapping d a c = None <-> (a, c) ∉ pairs d.
Proof.
  unfold get_check_mapping. split.
  - intros Hn Hin. unfold pairs in Hin. apply list_elem_of_fmap in Hin as (m & E & Hm).
    injection E as -> ->.
    assert (Hx : m ∈ filter (fun m' => cm_alert_id m' = cm_alert_id m /\ cm_check_id m' = cm_check_id m)
                   (db_check_maps d)) by (by apply list_elem_of_filter).
    destruct (filter _ _); [by apply elem_of_nil in Hx|done].
  - intros Hn. destruct (filter _ _) as [|m l] eqn:E; [done|]. exfalso. apply Hn.
    assert (Hx : m ∈ filter (fun m => cm_alert_id m = a /\ cm_check_id m = c) (db_check_maps d))
      by (rewrite E; left).
    apply list_elem_of_filter in Hx as [[<- <-] Hx]. unfold pairs. apply list_elem_of_fmap. by exists m.
Qed.

(** With one row per pair, the pair's row is the one found. *)
Lemma get_check_mapping_unique d m :
  NoDup (pairs d) -> m ∈ db_check_maps d ->
  get_check_mapping d (cm_alert_id m) (cm_check_id m) = Some m.
Proof.
  intros Hnd Hm. destruct (get_check_mapping d (cm_alert_id m) (cm_check_id m)) as [m'|] eqn:E.
  - apply get_check_mapping_pair in E as [Hm' Hp]. f_equal. unfold pairs in Hnd.
    apply list_elem_of_In, in_split in Hm as (l1 & l2 & Hl). rewrite Hl in Hnd, Hm'.
    rewrite map_app in Hnd. cbn in Hnd. apply NoDup_app in Hnd as (_ & Hdisj & Hnd2).
    apply NoDup_cons in Hnd2 as [Hn2 _]. change (pair_of m' = pair_of m) in Hp.
    apply elem_of_app in Hm' as [Hin|[->|Hin]%elem_of_cons]; [| done |].
    + exfalso. apply (Hdisj (pair_of m')); [by apply list_elem_of_fmap_2|]. rewrite Hp. left.
    + exfalso. apply Hn2. rewrite <- Hp. by apply list_elem_of_fmap_2.
  - apply get_check_mapping_none in E. exfalso. apply E. unfold pairs.
    apply list_elem_of_fmap. by exists m.
Qed.

(** ** The operations as a step relation *)

Section Steps.
Context `{Pydantic}.

Inductive admin_step (d d' : db) : Prop :=
  | step_create id data : create_alert d id data = Ok d' -> admin_step d d'
  | step_update a data : update_alert d a data = Ok d' -> admin_step d d'
  | step_delete a hard : delete_alert d a hard = Ok d' -> admin_step d d'
  | step_set_providers a ps n : set_providers d a ps = Ok (d', n) -> admin_step d d'
  | step_set_checks a cs admin n : set_checks d a cs admin = Ok (d', n) -> admin_step d d'
  | step_add_check a c : add_check d a c = Ok d' -> admin_step d d'
  | step_remove_check a c : remove_check d a c = d' -> admin_step d d'
  | step_copy c c' : copy_check_mappings d c c' = Ok d' -> admin_step d d'
  | step_assign_global c : assign_global_alerts_to_check d c = Ok d' -> admin_step d d'
  | step_sync c l : sync_check_alerts d c l = Ok d' -> admin_step d d'
  | step_bulk_assign a cs n : bulk_assign_to_checks d a cs = Ok (d', n) -> admin_step d d'
  | step_bulk_clear cs n : bulk_clear_from_checks d cs = Ok (d', n) -> admin_step d d'
  | step_snooze now a c minutes u : snooze_alert_check d now a c minutes = Ok (d', u) -> admin_step d d'
  | step_unsnooze a c : unsnooze_alert_check d a c = Ok d' -> admin_step d d'.
End Steps.

Lemma add_for_alert a cs d :
  fold_res (fun e c => add_check_mapping e a c) d cs = fold_res add_pair d (map (pair a) cs).
Proof. by rewrite fold_res_map. Qed.

Lemma add_for_check c l d :
  fold_res (fun e a => add_check_mapping e a c) d l = fold_res add_pair d (map (fun a => (a, c)) l).
Proof. by rewrite fold_res_map. Qed.

Lemma maps_ok_add_one d a c d' : maps_ok d -> add_check_mapping d a c = Ok d' -> maps_ok d'.
Proof. intros Hd E. apply (maps_ok_add_pairs [(a, c)] d d' Hd). cbn. unfold add_pair. cbn. by rewrite E. Qed.

Lemma add_check_ok d a c d' : add_check d a c = Ok d' <-> add_check_mapping d a c = Ok d'.
Proof.
  unfold add_check. destruct (get_check_mapping d a c) as [m|] eqn:E; [|done].
  split; [done|]. intros (_ & _ & _ & Hn)%add_check_mapping_ok.
  apply get_check_mapping_none in Hn. congruence.
Qed.

Lemma add_notif_mapping_maps d a p d' :
  add_notif_mapping d a p = Ok d' ->
  db_check_maps d' = db_check_maps d /\ db_alerts d' = db_alerts d /\ db_checks d' = db_checks d.
Proof.
  unfold add_notif_mapping. destruct (db_alerts d !! a); [|done]. destruct (db_providers d !! p); [|done].
  destruct (bool_decide _); [done|]. by intros [= <-].
Qed.

Lemma add_notif_mappings_maps a ps d d' :
  fold_res (fun e p => add_notif_mapping e a p) d ps = Ok d' ->
  db_check_maps d' = db_check_maps d /\ db_alerts d' = db_alerts d /\ db_checks d' = db_checks d.
Proof.
  apply (fold_res_ind (fun e => db_check_maps e = db_check_maps d /\ db_alerts e = db_alerts d /\
                                db_checks e = db_checks d)); [|done].
  intros s x s' _ (E1 & E2 & E3) Hs. apply add_notif_mapping_maps in Hs as (-> & -> & ->). by rewrite E1, E2, E3.
Qed.

Lemma maps_ok_notif a ps d d' :
  maps_ok d -> fold_res (fun e p => add_notif_mapping e a p) d ps = Ok d' -> maps_ok d'.
Proof.
  intros Hd (E1 & E2 & E3)%add_notif_mappings_maps. apply (maps_ok_same d); [done| |done|done].
  by rewrite E2.
Qed.

Lemma maps_ok_remove_all l c d :
  maps_ok d -> maps_ok (fold_left (fun e a => remove_check e a c) l d).
Proof.
  revert d. induction l as [|a l IH]; intros d Hd; cbn; [done|]. apply IH. by apply maps_ok_filter.
Qed.

Lemma fold_add_check c l d :
  forall d', fold_res (fun e a => add_check e a c) d l = Ok d' <->
             fold_res add_pair d (map (fun a => (a, c)) l) = Ok d'.
Proof.
  revert d. induction l as [|a l IH]; intros d d'; cbn; [done|].
  change (add_pair d (a, c)) with (add_check_mapping d a c).
  destruct (add_check d a c) as [d1|] eqn:E.
  - apply add_check_ok in E as ->. apply IH.
  - destruct (add_check_mapping d a c) as [d1|] eqn:E'; [|done].
    apply add_check_ok in E'. congruence.
Qed.

Lemma maps_ok_sync d c l d' : maps_ok d -> sync_check_alerts d c l = Ok d' -> maps_ok d'.
Proof.
  intros Hd Hs. unfold sync_check_alerts in Hs. apply fold_add_check in Hs.
  eapply maps_ok_add_pairs; [|exact Hs]. by apply maps_ok_remove_all.
Qed.

Lemma pair_of_saved a c s m :
  pair_of (if bool_decide (pair_of m = (a, c))
           then AlertCheckMapping (cm_alert_id m) (cm_check_id m) (cm_enabled s)
                  (cm_snoozed_until m) (cm_override_resend s) (cm_override_max s)
           else m) = pair_of m.
Proof. by destruct (bool_decide _). Qed.

Lemma maps_ok_copy d c c' d' : maps_ok d -> copy_check_mappings d c c' = Ok d' -> maps_ok d'.
Proof.
  intros Hd Hc. unfold copy_check_mappings in Hc. revert Hc. apply (fold_res_ind maps_ok); [|done].
  intros s x s' _ Hs. destruct (if bool_decide _ then _ else _) as [e1|] eqn:E; cbn; [|done].
  intros [= <-]. apply maps_ok_map; [intros m; apply pair_of_saved|].
  destruct (bool_decide _); [by injection E as <-|by eapply maps_ok_add_one].
Qed.

Lemma set_checks_inv d a cs admin d' n :
  set_checks d a cs admin = Ok (d', n) ->
  let current := list_check_ids d a in let wanted := remove_dups cs in
  require_checks d (minus current wanted ++ minus wanted current) admin = Ok tt /\
  replace_check_mappings d a current wanted = Ok (d', n).
Proof.
  unfold set_checks. destruct (get_alert_by_id d a) as [al|]; cbn; [|done].
  destruct (require_check_list al); cbn; [|done].
  destruct (require_checks _ _ _) as [[]|]; cbn; [|done]. done.
Qed.

Lemma replace_check_mappings_inv d a current wanted d' n :
  replace_check_mappings d a current wanted = Ok (d', n) ->
  let d1 := set_check_maps d (filter (fun m => bool_decide (cm_alert_id m = a /\
                cm_check_id m ∈ minus current wanted) = false) (db_check_maps d)) in
  let inserted := filter (fun c => (a, c) ∉ map pair_of (db_check_maps d1)) (minus wanted current) in
  fold_res add_pair d1 (map (pair a) inserted) = Ok d' /\
  n = (length inserted, length (filter (fun m => bool_decide (cm_alert_id m = a /\
                cm_check_id m ∈ minus current wanted) = true) (db_check_maps d))).
Proof.
  unfold replace_check_mappings. cbn zeta. rewrite add_for_alert.
  destruct (fold_res add_pair _ _) as [d2|] eqn:E; cbn; [|done]. by intros [= <- <-].
Qed.

Section Invariant.
Context `{Pydantic}.

Lemma maps_ok_create d id data d' : maps_ok d -> create_alert d id data = Ok d' -> maps_ok d'.
Proof.
  intros Hd. unfold create_alert. destruct (normalized_trigger_config _ _); cbn; [|done].
  destruct (bool_decide _); [|done]. cbn zeta. set (d1 := set_alerts d _).
  assert (Hd1 : maps_ok d1).
  { apply (maps_ok_same d); [done| |done|done]. intros i Hi. cbn.
    destruct (decide (i = id)) as [->|]; [by rewrite lookup_insert_eq|by rewrite lookup_insert_ne]. }
  destruct (fold_res _ d1 _) as [d2|] eqn:E2; cbn; [|done].
  rewrite add_for_alert. apply maps_ok_add_pairs. by eapply maps_ok_notif.
Qed.

Lemma maps_ok_delete d a hard d' : maps_ok d -> delete_alert d a hard = Ok d' -> maps_ok d'.
Proof.
  intros Hd. unfold delete_alert. destruct (get_alert_by_id d a) as [al|] eqn:Ea; cbn; [|done].
  destruct hard; intros [= <-].
  - destruct (maps_ok_filter d (fun m => cm_alert_id m <> a) Hd) as [H1 H2 H3]. split; cbn in *; [done| |done].
    intros m Hm. pose proof Hm as [Hne _]%list_elem_of_filter. rewrite lookup_delete_ne by done.
    by apply H2.
  - apply (maps_ok_same d); [done| |done|done]. intros i Hi. cbn.
    destruct (decide (i = a)) as [->|]; [by rewrite lookup_insert_eq|by rewrite lookup_insert_ne].
Qed.

Lemma maps_ok_update d a data d' : maps_ok d -> update_alert d a data = Ok d' -> maps_ok d'.
Proof.
  intros Hd. unfold update_alert. destruct (get_alert_by_id d a) as [al|]; cbn; [|done].
  destruct (if _ || _ then _ else _); cbn; [|done]. intros [= <-].
  apply (maps_ok_same d); [done| |done|done]. intros i Hi. cbn.
  destruct (decide (i = a)) as [->|]; [by rewrite lookup_insert_eq|by rewrite lookup_insert_ne].
Qed.

Lemma maps_ok_step d d' : admin_step d d' -> maps_ok d -> maps_ok d'.
Proof.
  intros Hs Hd. destruct Hs as
    [id data E|a data E|a hard E|a ps n E|a cs admin n E|a c E|a c <-|c c' E|c E|c l E|a cs n E|cs n E
    |now a c minutes u E|a c E].
  - by eapply maps_ok_create.
  - by eapply maps_ok_update.
  - by eapply maps_ok_delete.
  - unfold set_providers in E. destruct (get_alert_by_id d a); cbn in E; [|done].
    unfold replace_provider_mappings in E. destruct (fold_res _ _ _) as [d2|] eqn:E2; cbn in E; [|done].
    injection E as <- _. eapply maps_ok_notif; [|exact E2]. by apply (maps_ok_same d).
  - apply set_checks_inv in E as [_ [E _]%replace_check_mappings_inv].
    eapply maps_ok_add_pairs; [|exact E]. by apply maps_ok_filter.
  - apply add_check_ok in E. by eapply maps_ok_add_one.
  - by apply maps_ok_filter.
  - by eapply maps_ok_copy.
  - unfold assign_global_alerts_to_check in E. rewrite add_for_check in E. by eapply maps_ok_add_pairs.
  - by eapply maps_ok_sync.
  - unfold bulk_assign_to_checks in E. destruct (get_alert_by_id d a); cbn in E; [|done].
    destruct (fold_res _ _ _) as [d2|] eqn:E2; cbn in E; [|done]. injection E as <- _.
    revert E2. apply (fold_res_ind maps_ok); [|done]. intros s x s' _ Hs. destruct (bool_decide _).
    + by intros [= <-].
    + by apply maps_ok_sync.
  - unfold bulk_clear_from_checks in E. destruct (fold_res _ _ _) as [d2|] eqn:E2; cbn in E; [|done].
    injection E as <- _. revert E2. apply (fold_res_ind maps_ok); [|done].
    intros s x s' _ Hs. by apply maps_ok_sync.
  - unfold snooze_alert_check in E. destruct (get_check_mapping d a c); [|done]. injection E as <- _.
    apply maps_ok_map; [|done]. intros m. by destruct (bool_decide _).
  - unfold unsnooze_alert_check in E. destruct (get_check_mapping d a c); [|done]. injection E as <-.
    apply maps_ok_map; [|done]. intros m. by destruct (bool_decide _).
Qed.

(** Whatever sequence of alert operations runs, the alert-check table
    keeps one row per pair and no dangling reference. *)
Theorem pairs_invariant d d' : star admin_step d d' -> maps_ok d -> maps_ok d'.
Proof. apply star_invariant. intros x y Hs Hx. by eapply maps_ok_step. Qed.
End Invariant.

(** ** What the operations do *)

(** [set_checks] makes the list exactly the alert's checks: the checks
    wanted and no other, rows kept as they were (a snooze survives), other
    alerts untouched; a non-admin neither gains nor loses a synthetic check. *)
Theorem set_checks_exact d a cs admin d' n :
  set_checks d a cs admin = Ok (d', n) ->
  (forall c, c ∈ list_check_ids d' a <-> c ∈ cs) /\
  (forall m, m ∈ db_check_maps d -> cm_alert_id m <> a \/ cm_check_id m ∈ cs -> m ∈ db_check_maps d') /\
  (forall m, m ∈ db_check_maps d' -> cm_alert_id m <> a -> m ∈ db_check_maps d) /\
  (admin = false -> forall c ck, (c ∈ cs <-> c ∉ list_check_ids d a) ->
     db_checks d !! c = Some ck -> ck_type ck <> SYNTHETIC).
Proof.
  intros [Hreq Hrep]%set_checks_inv. apply replace_check_mappings_inv in Hrep as [Hadd _].
  apply add_pairs_ok in Hadd as (-> & _ & _). cbn.
  set (kept := filter _ (db_check_maps d)). set (ins := filter _ (minus (remove_dups cs) _)).
  assert (Hkept : forall m, m ∈ kept <-> m ∈ db_check_maps d /\
            ~ (cm_alert_id m = a /\ cm_check_id m ∈ list_check_ids d a /\ cm_check_id m ∉ cs)).
  { intros m. unfold kept. rewrite list_elem_of_filter, bool_decide_eq_false, elem_of_minus,
      elem_of_remove_dups. tauto. }
  assert (Hins : forall c, c ∈ ins <-> c ∈ cs /\ c ∉ list_check_ids d a /\ (a, c) ∉ map pair_of kept).
  { intros c. unfold ins. rewrite list_elem_of_filter, elem_of_minus, elem_of_remove_dups. tauto. }
  repeat split.
  - intros Hc. apply elem_of_list_check_ids in Hc. unfold pairs in Hc. cbn in Hc.
    rewrite map_app, pair_of_fresh_rows, elem_of_app in Hc. destruct Hc as [Hc|Hc].
    + apply list_elem_of_fmap in Hc as (m & E & [Hm Hn]%Hkept). injection E as -> ->.
      destruct (decide (cm_check_id m ∈ cs)) as [?|Hc]; [done|]. exfalso. apply Hn.
      split; [done|]. split; [|done]. apply elem_of_list_check_ids. unfold pairs.
      apply list_elem_of_fmap. by exists m.
    + apply list_elem_of_fmap in Hc as (c' & E & Hc'). injection E as ->. by apply Hins in Hc' as [? _].
  - intros Hc. apply elem_of_list_check_ids. unfold pairs. cbn.
    rewrite map_app, pair_of_fresh_rows, elem_of_app.
    destruct (decide ((a, c) ∈ map pair_of kept)) as [?|Hk]; [by left|]. right.
    apply list_elem_of_fmap. exists c. split; [done|]. apply Hins. split; [done|]. split; [|done].
    intros Hin. apply Hk. apply elem_of_list_check_ids in Hin. unfold pairs in Hin.
    apply list_elem_of_fmap in Hin as (m & E & Hm). injection E as -> ->. apply list_elem_of_fmap.
    exists m. split; [done|]. apply Hkept. tauto.
  - intros m Hm Hor. apply elem_of_app. left. apply Hkept. tauto.
  - intros m [Hm|Hm]%elem_of_app Hne; [by apply Hkept in Hm as [? _]|].
    apply list_elem_of_fmap in Hm as (p & -> & Hp). apply list_elem_of_fmap in Hp as (c & -> & _). done.
  - intros -> c ck Hiff Hck Hsyn. unfold require_checks in Hreq.
    destruct (filter _ (remove_dups _)); [|done].
    destruct (existsb _ _) eqn:E; [done|]. rewrite <- not_true_iff_false in E. apply E.
    apply existsb_exists. exists c. rewrite Hck, Hsyn. split; [|done]. apply list_elem_of_In.
    rewrite elem_of_app, !elem_of_minus, elem_of_remove_dups.
    destruct (decide (c ∈ list_check_ids d a)); tauto.
Qed.

Lemma get_check_mapping_map d a c f m :
  get_check_mapping d a c = Some m -> (forall x, pair_of (f x) = pair_of x) ->
  get_check_mapping (set_check_maps d (map f (db_check_maps d))) a c = Some (f m).
Proof.
  unfold get_check_mapping. cbn. intros Hm Hf. induction (db_check_maps d) as [|x l IH]; [done|].
  cbn [map]. pose proof (Hf x) as E. injection E as E1 E2. rewrite filter_cons in Hm |- *.
  destruct (decide (cm_alert_id x = a /\ cm_check_id x = c)) as [Hd|Hd].
  - cbn in Hm. injection Hm as ->. rewrite decide_True by (by rewrite E1, E2). done.
  - rewrite decide_False by (by rewrite E1, E2). by apply IH.
Qed.

(** A snooze is bounded and never cut short: it ends at most a day from
    now however often it is extended, never before a live one it extends (of at
    most a day), the pair is silent exactly until it ends, and no other pair's
    row changes. *)
Theorem snooze_bounded d now alert_id check_id minutes d' until a c :
  snooze_alert_check d now alert_id check_id minutes = Ok (d', until) -> (0 <= minutes)%Z ->
  al_id a = alert_id -> ck_id c = check_id ->
  (now <= until <= now + MAX_SNOOZE)%Z /\
  (forall m u, get_check_mapping d alert_id check_id = Some m -> cm_snoozed_until m = Some u ->
     (u <= now + MAX_SNOOZE)%Z -> (u <= until)%Z) /\
  (forall t, is_snoozed d' t a c = true <-> (t < until)%Z) /\
  (forall m, m ∈ db_check_maps d -> pair_of m <> (alert_id, check_id) -> m ∈ db_check_maps d').
Proof.
  intros Hs Hmin Ha Hc. unfold snooze_alert_check in Hs.
  destruct (get_check_mapping d alert_id check_id) as [m|] eqn:Em; [|done]. injection Hs as <- <-.
  assert (Hpos : (0 <= minutes * us_per_minute)%Z) by (unfold us_per_minute, us_per_second; lia).
  assert (Hmax : (0 < MAX_SNOOZE)%Z) by done.
  split; [|split; [|split]].
  - unfold snoozed_to. destruct (cm_snoozed_until m) as [u|]; [destruct (Z.ltb_spec now u)|]; lia.
  - intros m' u [= <-] Hu Hle. unfold snoozed_to. rewrite Hu. destruct (Z.ltb_spec now u); lia.
  - intros t. unfold is_snoozed, update_pair. rewrite Ha, Hc.
    rewrite (get_check_mapping_map _ _ _ _ _ Em) by (intros x; by destruct (bool_decide _)).
    apply get_check_mapping_pair in Em as [_ Hp]. rewrite bool_decide_eq_true_2 by done. cbn.
    apply Z.ltb_lt.
  - intros x Hx Hne. cbn. apply list_elem_of_fmap. exists x. split; [|done].
    by rewrite bool_decide_eq_false_2.
Qed.

Lemma elem_of_removed l c d m :
  m ∈ db_check_maps (fold_left (fun e a => remove_check e a c) l d) <->
  m ∈ db_check_maps d /\ ~ (cm_check_id m = c /\ cm_alert_id m ∈ l).
Proof.
  revert d. induction l as [|a l IH]; intros d; cbn [fold_left].
  - rewrite elem_of_nil. tauto.
  - rewrite IH. unfold remove_check, delete_check_mapping. cbn.
    rewrite list_elem_of_filter, elem_of_cons. unfold pair_of. split.
    + intros [[Hp Hm] Hn]. split; [done|]. intros [Hc [Ha|Ha]]; [|tauto]. apply Hp. congruence.
    + intros [Hm Hn]. split; [split; [|done]|tauto]. intros E. injection E as E1 E2. tauto.
Qed.

(** [sync_check_alerts] makes the list exactly the check's alerts, keeping
    the rows of the alerts it keeps and touching no other check. *)
Theorem sync_exact d c alert_ids d' :
  sync_check_alerts d c alert_ids = Ok d' ->
  (forall a, a ∈ list_alert_ids_for_check d' c <-> a ∈ alert_ids) /\
  (forall m, m ∈ db_check_maps d -> cm_check_id m <> c \/ cm_alert_id m ∈ alert_ids ->
     m ∈ db_check_maps d') /\
  (forall m, m ∈ db_check_maps d' -> cm_check_id m <> c -> m ∈ db_check_maps d).
Proof.
  unfold sync_check_alerts. intros Hs. apply fold_add_check, add_pairs_ok in Hs as (-> & _ & _). cbn.
  set (l := fold_left _ _ d).
  assert (Hl : forall m, m ∈ db_check_maps l <-> m ∈ db_check_maps d /\
            ~ (cm_check_id m = c /\ cm_alert_id m ∈ list_alert_ids_for_check d c /\ cm_alert_id m ∉ alert_ids)).
  { intros m. unfold l. rewrite elem_of_removed, elem_of_minus. tauto. }
  assert (Hheld : forall m, m ∈ db_check_maps d -> cm_check_id m = c ->
            cm_alert_id m ∈ list_alert_ids_for_check d c).
  { intros m Hm <-. apply elem_of_alert_ids. unfold pairs. apply list_elem_of_fmap. by exists m. }
  repeat split.
  - intros Ha. apply elem_of_alert_ids in Ha. unfold pairs in Ha. cbn in Ha.
    rewrite map_app, pair_of_fresh_rows, elem_of_app in Ha. destruct Ha as [Ha|Ha].
    + apply list_elem_of_fmap in Ha as (m & E & [Hm Hn]%Hl). injection E as -> Ec. symmetry in Ec.
      specialize (Hheld m Hm Ec). destruct (decide (cm_alert_id m ∈ alert_ids)); tauto.
    + apply list_elem_of_fmap in Ha as (a' & E & Ha'). injection E as ->.
      by apply elem_of_minus in Ha' as [? _].
  - intros Ha. apply elem_of_alert_ids. unfold pairs. cbn.
    rewrite map_app, pair_of_fresh_rows, elem_of_app.
    destruct (decide (a ∈ list_alert_ids_for_check d c)) as [Hin|Hin].
    + left. apply elem_of_alert_ids in Hin. unfold pairs in Hin.
      apply list_elem_of_fmap in Hin as (m & E & Hm). injection E as -> ->. apply list_elem_of_fmap.
      exists m. split; [done|]. apply Hl. tauto.
    + right. apply list_elem_of_fmap. exists a. split; [done|]. by apply elem_of_minus.
  - intros m Hm Hor. apply elem_of_app. left. apply Hl. tauto.
  - intros m [Hm|Hm]%elem_of_app Hne; [by apply Hl in Hm as [? _]|].
    apply list_elem_of_fmap in Hm as (p & -> & Hp). by apply list_elem_of_fmap in Hp as (a & -> & _).
Qed.

(** A check created with the global alerts gets every enabled one, whatever
    the alert's filters say, and the alerts then evaluate it. *)
Theorem global_alerts_reach_every_check d c d' a :
  assign_global_alerts_to_check d c = Ok d' -> keyed d ->
  db_alerts d !! al_id a = Some a -> al_is_global a = true -> alert_live a = true ->
  list_alert_ids_for_check d c = [] ->
  a ∈ list_active_alerts_for_check d' c.
Proof.
  intros Hs Hk Ha Hg Hl Hnone. unfold assign_global_alerts_to_check in Hs.
  rewrite add_for_check in Hs. apply add_pairs_ok in Hs as (-> & _ & _).
  unfold list_active_alerts_for_check. apply list_elem_of_omap.
  exists (fresh_row (al_id a, c)). split.
  - cbn. apply elem_of_app. right. apply list_elem_of_fmap. exists (al_id a, c). split; [done|].
    apply list_elem_of_fmap. exists (al_id a). split; [done|]. apply list_elem_of_filter.
    rewrite Hnone. split; [by intros ?%elem_of_nil|]. unfold list_global_enabled_alert_ids.
    apply list_elem_of_fmap. exists a. split; [done|]. apply list_elem_of_filter.
    split; [done|]. apply elem_of_rows. eauto.
  - cbn. rewrite bool_decide_eq_true_2 by done. cbn. rewrite Ha. cbn. by rewrite Hl.
Qed.

(** ** Stored configurations evaluate *)

Section Totality.
Context `{PyRuntime} `{PydanticLaws}.

Lemma normalized_inv t config stored :
  normalized_trigger_config t config = Ok stored ->
  exists p, stored = model_dump p /\ config_of_type t p = true /\ declared p = true /\ days_in_range p = true.
Proof.
  unfold normalized_trigger_config. destruct (model_validate t config) as [p|] eqn:E; [|done].
  destruct (days_in_range p) eqn:Ed; [|done]. intros [= <-]. exists p.
  by destruct (validated _ _ _ E) as [? ?].
Qed.

(** A certificate as agents report it: absent, or a dict whose
    [days_until_expiration] is an int or null. *)
Definition certificate_shape (r : check_result) : Prop :=
  truthy (get_metrics r) = false \/
  exists m resp, get_metrics r = PDict m /\ dict_get m "response" (PDict []) = PDict resp /\
    (dict_get resp "ssl_certificate" PNone = PNone \/
     exists cert, dict_get resp "ssl_certificate" PNone = PDict cert /\
       (dict_get cert "days_until_expiration" PNone = PNone \/
        exists z, dict_get cert "days_until_expiration" PNone = PInt z)).

Lemma status_dump s k dflt :
  dict_get (model_dump (StatusChange s)) "on_status" dflt =
    PList (map (fun x => PStr (status_text x)) (sc_on_status s)) /\
  dict_get (model_dump (StatusChange s)) "consecutive_failures" k = PInt (sc_consecutive_failures s).
Proof. by destruct s as [? ? []]. Qed.

Lemma threshold_dump s m o v :
  dict_get (model_dump (Threshold s)) "metric" m = PStr "latency_ms" /\
  dict_get (model_dump (Threshold s)) "operator" o = PStr (operator_text (tc_operator s)) /\
  dict_get (model_dump (Threshold s)) "value" v = PFloat (tc_value s).
Proof. by destruct s as [? ? []]. Qed.

Lemma ssl_dump s dflt :
  dict_get (model_dump (SslCertExpiry s)) "days_thresholds" dflt =
    PList (map PInt (sl_days_thresholds s)).
Proof. by destruct s as [? []]. Qed.

Lemma status_config_total d a c r s :
  exists b, evaluate_status_change d a c r (model_dump (StatusChange s)) = Ok b.
Proof.
  unfold evaluate_status_change. destruct (status_dump s (PInt 1) (PList [PStr "error"])) as [-> ->].
  destruct (cr_success r && al_notify_on_recovery a).
  { destruct (get_recent_results_for_check _ _ _) as [|x [|y l]]; eauto. }
  cbn [py_in mbind res_bind]. destruct (negb _); [by eauto|].
  rewrite py_gt_int. cbn [mbind res_bind]. destruct (1 <? _)%Z; [|by eauto].
  unfold recent. cbn [py_int mbind res_bind]. rewrite py_lt_int. cbn [mbind res_bind].
  destruct (_ <? _)%Z; eauto.
Qed.

Lemma threshold_config_total r s : exists b, evaluate_threshold r (model_dump (Threshold s)) = Ok b.
Proof.
  unfold evaluate_threshold.
  destruct (threshold_dump s (PStr "latency_ms") (PStr ">") PNone) as (-> & -> & ->).
  destruct (negb _); [by eauto|]. destruct (cr_latency_ms r); cbn; eauto.
Qed.

Lemma ssl_config_total d a c r s :
  declared (SslCertExpiry s) = true -> certificate_shape r ->
  exists b, evaluate_ssl_cert_expiry d a c r (model_dump (SslCertExpiry s)) = Ok b.
Proof.
  intros Hd Hshape. unfold evaluate_ssl_cert_expiry. rewrite ssl_dump.
  destruct (sl_days_thresholds s) as [|t ts] eqn:Ets; [by cbn in Hd; rewrite Ets in Hd|].
  change (py_or (PList (map PInt (t :: ts))) _) with (PList (map PInt (t :: ts))).
  destruct Hshape as [-> |(m & resp & Hm & Hr & Hcert)]; [by eauto|].
  destruct (negb (truthy (get_metrics r))); [by eauto|].
  unfold ssl_certificate. rewrite Hm. cbn [py_get mbind res_bind]. rewrite Hr. cbn [py_get mbind res_bind].
  destruct Hcert as [-> |(cert & -> & Hdays)]; [by cbn; eauto|].
  destruct (negb _); [by eauto|]. cbn [py_get mbind res_bind].
  destruct Hdays as [-> |(z & ->)]; [by eauto|]. cbn [py_iter mbind res_bind].
  destruct (py_max_int t ts) as (mx & -> & _). cbn [mbind res_bind]. rewrite py_le_int. cbn [mbind res_bind].
  destruct (z <=? mx)%Z; [by eauto|]. destruct (negb _); [by eauto|].
  destruct (get_last_notification_for_dedup _ _ _) as [row|]; [destruct (nl_hash row)|]; eauto.
Qed.

(** A stored configuration cannot make evaluation raise: whatever
    configuration validation accepted for an alert's trigger, deciding whether
    the alert fires on a result returns an answer, given a certificate of the
    reported shape for the SSL trigger. *)
Theorem stored_config_evaluates d a c r config :
  normalized_trigger_config (al_trigger a) config = Ok (al_config a) ->
  (al_trigger a = SSL_CERT_EXPIRY -> certificate_shape r) ->
  exists b, should_fire_alert d a c r = Ok b.
Proof.
  intros Hn Hshape. apply normalized_inv in Hn as (p & Hp & Hty & Hdecl & _).
  unfold should_fire_alert. rewrite Hp.
  destruct (al_trigger a), p as [s|s|s|s]; cbn in Hty; try discriminate Hty; try (by eauto).
  - apply status_config_total.
  - apply threshold_config_total.
  - apply status_config_total.
  - by apply ssl_config_total; auto.
Qed.
End Totality.

(** ** Witnesses *)

#[local] Existing Instance plain_runtime.

(** A validator that answers one configuration per trigger. *)
#[local] Instance one_config : Pydantic := {|
  model_validate t _ := match t with
    | STATUS_CHANGE | REPEATED_FAILURE => Some (StatusChange (Build_StatusChangeConfig [on_error] 1 None))
    | THRESHOLD => None
    | SSL_CERT_EXPIRY => Some (SslCertExpiry (Build_SslCertExpiryConfig [30; 7]%Z None))
    | NO_DATA | AGENT_OFFLINE => Some (Silence (Build_SilenceConfig 3 None))
    end
|}.

#[local] Instance one_config_laws : PydanticLaws.
Proof. by split; intros [] d c [= <-]. Qed.

Definition plain_alert : alert := demo_alert STATUS_CHANGE [] None None.
Definition wired : db := demo_db plain_alert None None [] [].

Lemma wired_ok : maps_ok wired.
Proof.
  split.
  - vm_compute. repeat constructor; set_solver.
  - intros m Hm. vm_compute in Hm. apply list_elem_of_singleton in Hm as ->. vm_compute. eauto.
  - intros m Hm. vm_compute in Hm. apply list_elem_of_singleton in Hm as ->. vm_compute. eauto.
Qed.

Definition both : db := (value_of (empty_db, (0, 0)%nat) (set_checks wired 7 [20; 10]%N true)).1.
Definition slept : db := (value_of (empty_db, 0%Z) (snooze_alert_check both 0 7 20 30)).1.

Lemma both_set : set_checks wired 7 [20; 10]%N true = Ok (both, (1, 0)%nat).
Proof. vm_compute. reflexivity. Qed.

Lemma pairs_invariant_witness : star admin_step wired slept /\ maps_ok slept.
Proof.
  assert (Hrun : star admin_step wired slept).
  { apply (star_step _ _ both); [apply (step_set_checks _ _ 7 [20; 10]%N true (1, 0)%nat both_set)|].
    apply star_one, (step_snooze _ _ 0 7 20 30 (minutes 30)). vm_compute. reflexivity. }
  split; [exact Hrun|]. apply (pairs_invariant wired slept Hrun wired_ok).
Defined.

Lemma set_checks_exact_witness :
  set_checks wired 7 [20; 10]%N true = Ok (both, (1, 0)%nat) /\
  forall c, c ∈ list_check_ids both 7 <-> c ∈ [20; 10]%N.
Proof.
  split; [exact both_set|]. apply (set_checks_exact wired 7 [20; 10]%N true both (1, 0)%nat). exact both_set.
Defined.

Lemma snooze_bounded_witness :
  (0 <= minutes 30 <= 0 + MAX_SNOOZE)%Z /\
  forall t, is_snoozed slept t plain_alert (demo_check 20 None) = true <-> (t < minutes 30)%Z.
Proof.
  destruct (snooze_bounded both 0 7 20 30 slept (minutes 30) plain_alert (demo_check 20 None))
    as (H1 & _ & H2 & _).
  - vm_compute. reflexivity.
  - vm_compute. discriminate.
  - reflexivity.
  - reflexivity.
  - split; [exact H1|exact H2].
Defined.

Definition cleared : db := value_of empty_db (sync_check_alerts both 20 []).

Lemma sync_exact_witness :
  list_alert_ids_for_check both 20 = [7]%N /\
  forall a, a ∈ list_alert_ids_for_check cleared 20 <-> a ∈ [].
Proof. split; [done|]. apply (sync_exact both 20 [] cleared). vm_compute. reflexivity. Defined.

Definition global_alert : alert :=
  Alert 7 "alert" STATUS_CHANGE [("check_filters", PDict [("tags", PList [PStr "other"])])]
        true false true None None true.
Definition global_db : db := demo_db global_alert None None [] [].
Definition assigned : db := value_of empty_db (assign_global_alerts_to_check global_db 20).

Lemma global_alerts_reach_every_check_witness : global_alert ∈ list_active_alerts_for_check assigned 20.
Proof.
  apply (global_alerts_reach_every_check global_db 20 assigned global_alert).
  - vm_compute. reflexivity.
  - apply demo_keyed. reflexivity.
  - vm_compute. reflexivity.
  - reflexivity.
  - reflexivity.
  - vm_compute. reflexivity.
Defined.

(** The stored form of the one SSL configuration, and a result that carries a
    certificate. *)
Definition ssl_alert : alert :=
  demo_alert SSL_CERT_EXPIRY (model_dump (SslCertExpiry (Build_SslCertExpiryConfig [30; 7]%Z None))) None None.
Definition with_certificate : check_result :=
  CheckResult 100 0 1 10 true None
    (Json (PDict [("response", PDict [("ssl_certificate", PDict [("days_until_expiration", PInt 5)])])])).

Lemma stored_config_evaluates_witness :
  exists b, should_fire_alert wired ssl_alert (demo_check 10 None) with_certificate = Ok b.
Proof.
  apply (stored_config_evaluates wired ssl_alert (demo_check 10 None) with_certificate []).
  - vm_compute. reflexivity.
  - intros _. right. eexists _, _. split; [vm_compute; reflexivity|]. split; [vm_compute; reflexivity|].
    right. eexists. split; [vm_compute; reflexivity|]. right. exists 5%Z. vm_compute. reflexivity.
Defined.
