(* ===== verification/Checks.v ===== *)
(** * Checks and their dependencies

    [CheckCoreService] (apps/backend/app/services/core/check_core_service.py),
    [CheckDependencyCoreService] (services/core/check_dependency_core_service.py),
    the contract of [check_config] (core/check_config.py) and the queries and
    writes of crud/check_crud.py they use.

    Creating, cloning, changing and deleting a check, setting a parent's
    children, and the bulk toggle and delete.  The verdicts of the SSRF
    validator and of the script validator, and pydantic's of a clone, are
    parameters: what is proved holds for every verdict.  A script of None and an
    unset column read alike; an operation that raises commits nothing. *)

From S2P Require Import Prelude Py Text Store Liveness Notify AlertEval Assignment AlertAdmin.

(** ** core/check_config.py *)

Definition TYPE_FIELDS : list (string * list string) :=
  [("http", ["http_method"; "verify_ssl"; "expected_status"]);
   ("json", ["http_method"; "verify_ssl"; "expected_status"; "json_path"; "expected_value"]);
   ("dns", ["record_type"; "nameserver"; "port"; "expect_value"]);
   ("mysql", ["connection_string"; "query"]);
   ("postgres", ["connection_string"; "query"])].

(** [TYPE_FIELDS.get(check_type, ())]; a type sent as null has none. *)
Definition type_fields (check_type : option string) : list string :=
  default [] (t ← check_type; assoc_get TYPE_FIELDS t).

Definition ALL_CONFIG_FIELDS : list string := remove_dups (mjoin (map snd TYPE_FIELDS)).

Definition is_set (v : pyval) : bool :=
  match v with PNone => false | PStr s => negb (String.eqb s "") | _ => true end.

(** The fields of [names] that [values] sets. *)
Definition set_fields (names : list string) (values : pydict) : pydict :=
  omap (fun f => v ← assoc_get values f; if is_set v then Some (f, v) else None) names.

Definition pack_config (values : pydict) (check_type : string) : pydict :=
  set_fields (type_fields (Some check_type)) values.

Definition keep_type_fields (config : pydict) (check_type : option string) : pydict :=
  filter (fun kv => kv.1 ∉ ALL_CONFIG_FIELDS \/ kv.1 ∈ type_fields check_type) config.

(** The config half of an update: the fields of the type; the others are dropped. *)
Definition take_config_updates (values : pydict) (check_type : option string) : pydict :=
  set_fields (type_fields check_type) values.

(** [config.update(updates)] *)
Definition dict_update (d updates : pydict) : pydict :=
  fold_left (fun acc kv => dict_set acc kv.1 kv.2) updates d.

(** ** schemas/check_schema.py *)

Record CheckCreate := {
  cc_display_name : string;
  cc_type : string;
  cc_target : string;
  cc_interval : option Z;
  cc_enabled : bool;
  cc_mode : AssignmentMode;
  cc_selector : option pydict;
  cc_script : option string;
  cc_depends : option uuid;
  cc_columns : pydict;     (* description, timeout_seconds, retry_*, resend_*, tags *)
  cc_config : pydict;      (* the type-specific fields *)
}.

(** What was sent of an update ([exclude_unset]). *)
Record CheckUpdate := {
  cu_display_name : sent string;
  cu_type : sent string;
  cu_target : sent string;
  cu_interval : sent Z;
  cu_enabled : sent bool;
  cu_mode : sent AssignmentMode;
  cu_selector : sent pydict;
  cu_script : sent string;
  cu_depends : sent uuid;
  cu_columns : pydict;
  cu_config : pydict;
}.

(** ** CheckCRUD *)

Definition set_depends (p : option uuid) (c : check) : check :=
  Check (ck_id c) (ck_agent_id c) p (ck_display_name c) (ck_type c) (ck_target c) (ck_interval c)
    (ck_enabled c) (ck_mode c) (ck_selector c) (ck_created_at c) (ck_script c) (ck_config c) (ck_columns c).

Definition set_enabled (b : bool) (c : check) : check :=
  Check (ck_id c) (ck_agent_id c) (ck_depends_on c) (ck_display_name c) (ck_type c) (ck_target c)
    (ck_interval c) b (ck_mode c) (ck_selector c) (ck_created_at c) (ck_script c) (ck_config c) (ck_columns c).

Definition get_check_by_id (d : db) (id : uuid) : res check :=
  match db_checks d !! id with Some c => Ok c | None => Raise NotFoundException end.

Definition depends_on (p : uuid) (c : check) : bool := bool_decide (ck_depends_on c = Some p).

Definition list_dependents (d : db) (p : uuid) : list check :=
  filter (fun c => ck_depends_on c = Some p) (rows (db_checks d)).

Definition count_dependents (d : db) (p : uuid) : nat := length (list_dependents d p).

(** Which of [ids] some other check depends on. *)
Definition parents_among (d : db) (ids : list uuid) : list uuid :=
  filter (fun p => list_dependents d p <> []) (remove_dups ids).

(** [list_without_parent], [list_non_parents] *)
Definition list_without_parent (d : db) (exclude : option uuid) : list check :=
  filter (fun c => ck_depends_on c = None /\ exclude <> Some (ck_id c)) (rows (db_checks d)).
Definition list_non_parents (d : db) (exclude : uuid) : list check :=
  filter (fun c => ck_id c <> exclude /\ list_dependents d (ck_id c) = []) (rows (db_checks d)).

Definition update_rows (d : db) (ids : list uuid) (f : check -> check) : db :=
  set_checks_table d (map_imap (fun i c => Some (if bool_decide (i ∈ ids) then f c else c)) (db_checks d)).

Definition set_parent (d : db) (parent : uuid) (attach detach : list uuid) : db :=
  update_rows (update_rows d attach (set_depends (Some parent))) detach (set_depends None).

(** The rows that go with deleted checks: their mappings and results; a check
    that depended on one is freed ([ON DELETE SET NULL]). *)
Definition free_of_parents (ids : list uuid) (c : check) : check :=
  match ck_depends_on c with
  | Some p => if bool_decide (p ∈ ids) then set_depends None c else c
  | None => c
  end.

Definition drop_checks (d : db) (ids : list uuid) : db :=
  Db (db_agents d)
     (free_of_parents ids <$> filter (fun kv => kv.1 ∉ ids) (db_checks d))
     (db_alerts d) (filter (fun m => cm_check_id m ∉ ids) (db_check_maps d))
     (db_notif_maps d) (db_providers d)
     (filter (fun r => cr_check_id r ∉ ids) (db_results d)) (db_logs d).

Definition touch_agents (d : db) (now : instant) (ids : list uuid) : db :=
  set_agents d (map_imap (fun i a => Some (if bool_decide (i ∈ ids)
    then set_checks_updated_at now a else a)) (db_agents d)).

(** ** CheckDependencyCoreService *)

Definition is_synthetic (c : check) : bool := String.eqb (ck_type c) SYNTHETIC.

Definition set_dependents (d : db) (parent_check_id : uuid) (child_check_ids : list uuid)
    (actor_is_admin : bool) : res (db * (nat * nat)) :=
  match db_checks d !! parent_check_id with
  | None => Raise (ValidationException "Parent check not found")
  | Some parent =>
      if bool_decide (ck_depends_on parent <> None)
      then Raise (ValidationException "Selected parent already has its own parent (single-level only)")
      else
        let desired := remove_dups child_check_ids in
        if bool_decide (parent_check_id ∈ desired)
        then Raise (ValidationException "A check cannot depend on itself")
        else if existsb (fun c => bool_decide (db_checks d !! c = None)) desired
        then Raise (ValidationException "Check not found")
        else
          match parents_among d desired with
          | _ :: _ => Raise (ValidationException "Check is itself a parent - single-level only")
          | [] =>
              let current := map ck_id (list_dependents d parent_check_id) in
              let to_add := minus desired current in
              let to_remove := minus current desired in
              let touched := omap (fun c => db_checks d !! c) (to_add ++ to_remove) in
              _ ← (if existsb is_synthetic touched then require_admin_actor actor_is_admin else Ok tt);
              Ok (set_parent d parent_check_id to_add to_remove, (length to_add, length to_remove))
          end
  end.

Definition validate_dependency (d : db) (depends_on_check_id own_check_id : option uuid) : res unit :=
  match depends_on_check_id with
  | None => Ok tt
  | Some p =>
      if bool_decide (own_check_id = Some p)
      then Raise (ValidationException "A check cannot depend on itself")
      else
        match db_checks d !! p with
        | None => Raise (ValidationException "Parent check not found")
        | Some parent =>
            if bool_decide (ck_depends_on parent <> None)
            then Raise (ValidationException "Single-level dependencies only: the selected parent already has a parent")
            else match own_check_id with
                 | Some own =>
                     if (0 <? count_dependents d own)%nat
                     then Raise (ValidationException "Single-level dependencies only: this check is a parent itself")
                     else Ok tt
                 | None => Ok tt
                 end
        end
  end.

(** ** CheckCoreService *)

Definition get_agent_by_id (d : db) (id : uuid) : res agent :=
  match db_agents d !! id with Some a => Ok a | None => Raise NotFoundException end.

Definition UNADMITTED_AGENT_STATUSES : list AgentApprovalStatus := [PENDING; REJECTED; ARCHIVED].

Definition get_admitted_agent (d : db) (id : uuid) : res agent :=
  a ← get_agent_by_id d id;
  if bool_decide (ag_approval a ∈ UNADMITTED_AGENT_STATUSES)
  then Raise (ValidationException "Agent takes no checks") else Ok a.

(** A column that is NOT NULL, written by a flush. *)
Definition not_null {A} (v : sent A) (old : A) : res A :=
  match v with None => Ok old | Some (Some x) => Ok x | Some None => Raise IntegrityError end.

Definition text_of (v : option pyval) : option string :=
  match v with Some (PStr s) => Some s | _ => None end.

Section Checks.
(** core/check_target_validator.py under the network settings, and
    core/synthetic_security.py *)
Variable validate_check_target : string -> res unit.
Variable validate_script : string -> res unit.
(** pydantic's verdict on a merged clone, and the configured default timeout *)
Variable valid_create : CheckCreate -> bool.
Variable default_timeout : Z.

Definition validate_endpoints_ssrf (endpoints : list (option string)) : res unit :=
  fold_res (fun _ e => match e with
                       | Some s => if String.eqb s "" then Ok tt else validate_check_target s
                       | None => Ok tt
                       end) tt endpoints.

(** [if data.script_code: validate_script(...)] *)
Definition validate_if_set (script : option string) : res unit :=
  match script with
  | Some s => if String.eqb s "" then Ok tt else validate_script s
  | None => Ok tt
  end.

Definition create_check (d : db) (now : instant) (new_id agent_id : uuid) (data : CheckCreate)
    (skip_config_update actor_is_admin : bool) : res db :=
  a ← get_admitted_agent d agent_id;
  _ ← validate_endpoints_ssrf [Some (cc_target data); text_of (assoc_get (cc_config data) "nameserver");
                               text_of (assoc_get (cc_config data) "connection_string")];
  _ ← validate_dependency d (cc_depends data) None;
  let check_config := pack_config (cc_config data) (cc_type data) in
  let synthetic := String.eqb (cc_type data) SYNTHETIC in
  _ ← (if synthetic then
         _ ← require_admin_actor actor_is_admin; validate_if_set (cc_script data)
       else Ok tt);
  if bool_decide (db_checks d !! new_id = None) then
    let c := Check new_id (ag_id a) (cc_depends data) (cc_display_name data) (cc_type data)
               (cc_target data) (cc_interval data) (cc_enabled data) (cc_mode data) (cc_selector data)
               now (if synthetic then cc_script data else None) check_config (cc_columns data) in
    d1 ← assign_global_alerts_to_check (set_checks_table d (<[new_id := c]> (db_checks d))) new_id;
    Ok (if skip_config_update then d1 else touch_agents d1 now [ag_id a])
  else Raise IntegrityError.

Definition update_check (d : db) (now : instant) (check_id : uuid) (data : CheckUpdate)
    (actor_is_admin : bool) : res db :=
  c ← get_check_by_id d check_id;
  _ ← validate_endpoints_ssrf
        [match cu_target data with Some v => v | None => None end;
         text_of (assoc_get (cu_config data) "nameserver");
         text_of (assoc_get (cu_config data) "connection_string")];
  _ ← (match cu_depends data with
       | Some p => validate_dependency d p (Some check_id)
       | None => Ok tt
       end);
  let check_type := match cu_type data with Some t => t | None => Some (ck_type c) end in
  let becomes_synthetic := bool_decide (check_type = Some SYNTHETIC) in
  _ ← (if is_synthetic c || becomes_synthetic then require_admin_actor actor_is_admin else Ok tt);
  let sent_script := if becomes_synthetic then cu_script data else Some None in
  let config_updates := take_config_updates (cu_config data) check_type in
  let type_changes := negb (bool_decide (check_type = Some (ck_type c))) in
  let config :=
    match config_updates, type_changes with
    | [], false => ck_config c
    | _, _ => dict_update (if type_changes then keep_type_fields (ck_config c) check_type else ck_config c)
                config_updates
    end in
  let script := match sent_script with Some s => s | None => ck_script c end in
  let script_now_runs := was_sent sent_script || negb (is_synthetic c) in
  _ ← (if becomes_synthetic && script_now_runs then validate_if_set script else Ok tt);
  name ← not_null (cu_display_name data) (ck_display_name c);
  type ← not_null (cu_type data) (ck_type c);
  target ← not_null (cu_target data) (ck_target c);
  enabled ← not_null (cu_enabled data) (ck_enabled c);
  mode ← not_null (cu_mode data) (ck_mode c);
  _ ← (match assoc_get (cu_columns data) "retry_interval_seconds" with
       | Some PNone => Raise IntegrityError
       | _ => Ok tt
       end);
  let c' := Check (ck_id c) (ck_agent_id c) (nullable (cu_depends data) (ck_depends_on c)) name type target
              (nullable (cu_interval data) (ck_interval c)) enabled mode
              (nullable (cu_selector data) (ck_selector c)) (ck_created_at c)
              (nullable sent_script (ck_script c)) config (dict_update (ck_columns c) (cu_columns data)) in
  Ok (touch_agents (set_checks_table d (<[check_id := c']> (db_checks d))) now [ck_agent_id c]).

(** *** Cloning *)

Definition ascii_upper (c : Ascii.ascii) : Ascii.ascii :=
  let n := Ascii.nat_of_ascii c in
  if (97 <=? n)%nat && (n <=? 122)%nat then Ascii.ascii_of_nat (n - 32) else c.
Fixpoint upper (s : string) : string :=
  match s with "" => "" | String c s' => String (ascii_upper c) (upper s') end.

Definition HTTP_METHODS : list string := ["GET"; "HEAD"; "POST"; "PUT"; "PATCH"; "DELETE"; "OPTIONS"; "TRACE"; "CONNECT"].
Definition DNS_RECORD_TYPES : list string :=
  ["A"; "AAAA"; "CNAME"; "MX"; "TXT"; "NS"; "PTR"; "SOA"; "SRV"; "CAA"].

Definition config_str (c : check) (k : string) : pyval :=
  match assoc_get (ck_config c) k with Some (PStr s) => PStr s | _ => PNone end.
Definition config_int (c : check) (k : string) : pyval :=
  match assoc_get (ck_config c) k with Some (PInt z) => PInt z | _ => PNone end.
Definition config_bool (c : check) (k : string) : pyval :=
  match assoc_get (ck_config c) k with Some (PBool b) => PBool b | _ => PNone end.
Definition config_enum (c : check) (k : string) (values : list string) : pyval :=
  match assoc_get (ck_config c) k with
  | Some (PStr s) => if bool_decide (upper (strip s) ∈ values) then PStr (upper (strip s)) else PNone
  | _ => PNone
  end.

Definition database_type (t : string) : bool := String.eqb t "mysql" || String.eqb t "postgres".

(** The typed reads of check_config: the properties of the model. *)
Definition config_property (c : check) (k : string) : pyval :=
  if String.eqb k "http_method" then config_enum c k HTTP_METHODS
  else if String.eqb k "record_type" then config_enum c k DNS_RECORD_TYPES
  else if String.eqb k "verify_ssl" then config_bool c k
  else if String.eqb k "expected_status" || String.eqb k "port" then config_int c k
  else if String.eqb k "connection_string" then
    if database_type (ck_type c) then
      match config_str c k with
      | PStr s => if String.eqb s ""
                  then default PNone (assoc_get (ck_columns c) "connection_string_encrypted") else PStr s
      | _ => default PNone (assoc_get (ck_columns c) "connection_string_encrypted")
      end
    else PNone
  else config_str c k.

Definition CREATE_COLUMNS : list string :=
  ["description"; "timeout_seconds"; "retry_attempts"; "retry_interval_seconds";
   "resend_notification_after"; "tags"].

(** What a clone overrides: a field sent as null keeps the source's. *)
Definition override {A} (v : sent A) (source : A) : A := required v source.
Definition override_opt {A} (v : sent A) (source : option A) : option A :=
  match v with Some (Some x) => Some x | _ => source end.
Definition override_key (values : pydict) (k : string) (source : pyval) : pyval :=
  match assoc_get values k with Some PNone | None => source | Some v => v end.

Definition merge_clone_data (source : check) (o : CheckUpdate) : CheckCreate :=
  {| cc_display_name := override (cu_display_name o) (ck_display_name source);
     cc_type := override (cu_type o) (ck_type source);
     cc_target := override (cu_target o) (ck_target source);
     cc_interval := override_opt (cu_interval o) (ck_interval source);
     cc_enabled := override (cu_enabled o) (ck_enabled source);
     cc_mode := override (cu_mode o) (ck_mode source);
     cc_selector := override_opt (cu_selector o) (ck_selector source);
     cc_script := override_opt (cu_script o) (ck_script source);
     cc_depends := override_opt (cu_depends o) (ck_depends_on source);
     cc_columns :=
       map (fun k =>
              let v := override_key (cu_columns o) k (default PNone (assoc_get (ck_columns source) k)) in
              (k, match v with
                  | PNone => if String.eqb k "timeout_seconds" then PInt default_timeout else PNone
                  | _ => v
                  end)) CREATE_COLUMNS;
     cc_config := map (fun k => (k, override_key (cu_config o) k (config_property source k))) ALL_CONFIG_FIELDS |}.

Definition clone_check (d : db) (now : instant) (new_id check_id agent_id : uuid) (overrides : CheckUpdate)
    (skip_config_update actor_is_admin : bool) : res db :=
  source ← get_check_by_id d check_id;
  _ ← get_agent_by_id d agent_id;
  let clone_data := merge_clone_data source overrides in
  if valid_create clone_data then
    d1 ← create_check d now new_id agent_id clone_data skip_config_update actor_is_admin;
    copy_check_mappings d1 check_id new_id
  else Raise (ValidationException "CheckCreate").

(** *** Deleting, and the bulk operations *)

Definition delete_check (d : db) (now : instant) (check_id : uuid) (actor_is_admin : bool) : res db :=
  c ← get_check_by_id d check_id;
  _ ← (if is_synthetic c then require_admin_actor actor_is_admin else Ok tt);
  Ok (touch_agents (drop_checks d [check_id]) now [ck_agent_id c]).

Definition get_checks_by_ids (d : db) (ids : list uuid) : list check :=
  filter (fun c => ck_id c ∈ ids) (rows (db_checks d)).

Definition touch_agents_of (d : db) (now : instant) (check_ids : list uuid) : db :=
  touch_agents d now (map ck_agent_id (get_checks_by_ids d check_ids)).

Definition bulk_permitted (d : db) (check_ids : list uuid) (actor_is_admin : bool)
    : list uuid * list uuid :=
  if actor_is_admin then (check_ids, [])
  else
    let synthetic := map ck_id (filter (fun c => is_synthetic c = true) (get_checks_by_ids d check_ids)) in
    (filter (fun i => i ∉ synthetic) check_ids, filter (fun i => i ∈ synthetic) check_ids).

(** [errors] by what each names: a refused check, or the number not found. *)
Inductive bulk_error := NeedsAdmin (check_id : uuid) | NotFound (missing : Z).

Record bulk_result := BulkResult {
  br_success : Z;
  br_failure : Z;
  br_errors : list bulk_error;
}.

Definition with_refused (outcome : bulk_result) (refused : list uuid) : bulk_result :=
  BulkResult (br_success outcome) (br_failure outcome + Z.of_nat (length refused))
    (map NeedsAdmin refused ++ br_errors outcome).

Definition bulk_outcome (check_ids : list uuid) (success_count : Z) : bulk_result :=
  let missing := (Z.of_nat (length (remove_dups check_ids)) - success_count)%Z in
  BulkResult success_count missing (if (missing =? 0)%Z then [] else [NotFound missing]).

Definition bulk_set_enabled (d : db) (now : instant) (check_ids : list uuid)
    (enabled actor_is_admin : bool) : db * bulk_result :=
  let '(check_ids, refused) := bulk_permitted d check_ids actor_is_admin in
  match check_ids with
  | [] => (d, with_refused (BulkResult 0 0 []) refused)
  | _ =>
      let d1 := update_rows d check_ids (set_enabled enabled) in
      (touch_agents_of d1 now check_ids,
       with_refused (bulk_outcome check_ids (Z.of_nat (length (get_checks_by_ids d check_ids)))) refused)
  end.

Definition bulk_delete (d : db) (now : instant) (check_ids : list uuid) (actor_is_admin : bool)
    : db * bulk_result :=
  let '(check_ids, refused) := bulk_permitted d check_ids actor_is_admin in
  match check_ids with
  | [] => (d, with_refused (BulkResult 0 0 []) refused)
  | _ =>
      (drop_checks (touch_agents_of d now check_ids) check_ids,
       with_refused (bulk_outcome check_ids (Z.of_nat (length (get_checks_by_ids d check_ids)))) refused)
  end.
End Checks.

#[global] Arguments validate_endpoints_ssrf : simpl never.
#[global] Arguments validate_dependency : simpl never.
#[global] Arguments get_admitted_agent : simpl never.
#[global] Arguments type_fields : simpl never.
#[global] Arguments pack_config : simpl never.
#[global] Arguments set_fields : simpl never.
#[global] Arguments keep_type_fields : simpl never.
#[global] Arguments take_config_updates : simpl never.
#[global] Arguments merge_clone_data : simpl never.
#[global] Arguments drop_checks : simpl never.
#[global] Arguments set_parent : simpl never.
#[global] Arguments update_rows : simpl never.
