(* ===== verification/ChecksTheorems.v ===== *)
(** * Checks and their dependencies: lemmas and properties

    Dependencies stay single-level and resolved under every operation; a check
    holds only its own type's configuration and only a synthetic one a (valid)
    script; only an admin changes a synthetic check; a parent's children are set
    exactly; the bulk operations account for every check asked for. *)

From S2P Require Import Prelude Py Text Store Liveness Notify Fixtures AlertEval Assignment AlertAdmin.
From S2P Require Import AlertAdminTheorems Checks.

(** ** The tables under the operations *)

Lemma add_check_mapping_checks d a c d' : add_check_mapping d a c = Ok d' -> db_checks d' = db_checks d.
Proof. by intros (-> & _)%add_check_mapping_ok. Qed.

Lemma assign_global_checks d c d' : assign_global_alerts_to_check d c = Ok d' -> db_checks d' = db_checks d.
Proof.
  unfold assign_global_alerts_to_check. intros E.
  apply (fold_res_ind (fun s => db_checks s = db_checks d)) in E; [done| |done].
  intros s x s' _ Hs Hx. rewrite <- Hs. by eapply add_check_mapping_checks.
Qed.

Lemma copy_mappings_checks d c c' d' : copy_check_mappings d c c' = Ok d' -> db_checks d' = db_checks d.
Proof.
  unfold copy_check_mappings. intros E.
  apply (fold_res_ind (fun s => db_checks s = db_checks d)) in E; [done| |done].
  intros s x s' _ Hs Hx. inv_res. cbn. rewrite <- Hs.
  destruct (bool_decide _); inv_res; [done|]. by eapply add_check_mapping_checks.
Qed.

Lemma lookup_update_rows d ids f i :
  db_checks (update_rows d ids f) !! i =
  (fun c => if bool_decide (i ∈ ids) then f c else c) <$> db_checks d !! i.
Proof. unfold update_rows. cbn. rewrite map_lookup_imap. by destruct (db_checks d !! i). Qed.

Lemma lookup_set_parent d p attach detach i :
  db_checks (set_parent d p attach detach) !! i =
  (fun c => if bool_decide (i ∈ detach) then set_depends None (if bool_decide (i ∈ attach) then set_depends (Some p) c else c)
            else if bool_decide (i ∈ attach) then set_depends (Some p) c else c) <$> db_checks d !! i.
Proof.
  unfold set_parent. rewrite !lookup_update_rows. destruct (db_checks d !! i); cbn; [|done].
  by destruct (bool_decide (i ∈ detach)).
Qed.

Lemma lookup_drop_checks d ids i :
  db_checks (drop_checks d ids) !! i =
  if bool_decide (i ∈ ids) then None else free_of_parents ids <$> db_checks d !! i.
Proof.
  unfold drop_checks. cbn. rewrite lookup_fmap, map_lookup_filter.
  destruct (db_checks d !! i) as [c|] eqn:E; cbn; [|by destruct (bool_decide _)].
  destruct (bool_decide_reflect (i ∈ ids)) as [Hi|Hi]; cbn.
  - rewrite option_guard_False; [done|]. cbn. tauto.
  - by rewrite option_guard_True.
Qed.

Lemma free_of_parents_depends ids c :
  ck_depends_on (free_of_parents ids c) =
  match ck_depends_on c with
  | Some p => if bool_decide (p ∈ ids) then None else Some p
  | None => None
  end.
Proof.
  unfold free_of_parents. destruct (ck_depends_on c) as [p|] eqn:E; [|done]. by destruct (bool_decide _).
Qed.

Lemma elem_of_dependents d p c :
  c ∈ list_dependents d p <-> ck_depends_on c = Some p /\ exists i, db_checks d !! i = Some c.
Proof. unfold list_dependents. by rewrite list_elem_of_filter, elem_of_rows. Qed.

Lemma no_dependents d p :
  count_dependents d p = 0%nat -> forall i c, db_checks d !! i = Some c -> ck_depends_on c <> Some p.
Proof.
  unfold count_dependents. intros Hn%nil_length_inv i c Hc Hp.
  assert (Hin : c ∈ list_dependents d p) by (apply elem_of_dependents; eauto).
  rewrite Hn in Hin. by apply elem_of_nil in Hin.
Qed.

(** ** The invariants *)

(** A check's id is its key, and its parent is another check without a parent. *)
Definition single_level (d : db) : Prop :=
  forall i c, db_checks d !! i = Some c ->
    ck_id c = i /\
    forall p, ck_depends_on c = Some p ->
      exists parent, db_checks d !! p = Some parent /\ ck_depends_on parent = None.

Section Checks.
Variable validate_check_target : string -> res unit.
Variable validate_script : string -> res unit.
Variable valid_create : CheckCreate -> bool.
Variable default_timeout : Z.

(** The operations, [admin] the authority of their actor. *)
Inductive check_step (admin : bool) : db -> db -> Prop :=
  | step_create d now id a data skip d' :
      create_check validate_check_target validate_script d now id a data skip admin = Ok d' ->
      check_step admin d d'
  | step_clone d now id c a o skip d' :
      clone_check validate_check_target validate_script valid_create default_timeout
        d now id c a o skip admin = Ok d' ->
      check_step admin d d'
  | step_update d now c data d' :
      update_check validate_check_target validate_script d now c data admin = Ok d' ->
      check_step admin d d'
  | step_delete d now c d' : delete_check d now c admin = Ok d' -> check_step admin d d'
  | step_children d p cs d' n : set_dependents d p cs admin = Ok (d', n) -> check_step admin d d'
  | step_enable d now ids b : check_step admin d (bulk_set_enabled d now ids b admin).1
  | step_bulk_delete d now ids : check_step admin d (bulk_delete d now ids admin).1.

(** An operation of anyone. *)
Definition any_step (d d' : db) : Prop := exists admin, check_step admin d d'.

(** *** What each operation leaves in the table *)

Definition created_row (c : check) (d : db) (admin : bool) : Prop :=
  validate_dependency d (ck_depends_on c) None = Ok tt /\
  (exists values, ck_config c = pack_config values (ck_type c)) /\
  (is_synthetic c = true -> admin = true /\ validate_if_set validate_script (ck_script c) = Ok tt) /\
  (is_synthetic c = false -> ck_script c = None).

Lemma create_inv d now id a data skip admin d' :
  create_check validate_check_target validate_script d now id a data skip admin = Ok d' ->
  exists c, db_checks d' = <[id := c]> (db_checks d) /\ db_checks d !! id = None /\
    ck_id c = id /\ ck_depends_on c = cc_depends data /\ created_row c d admin.
Proof.
  unfold create_check. intros E. inv_res. destruct (bool_decide_reflect (db_checks d !! id = None)) as [Hn|]; [|done].
  inv_res. match goal with H : assign_global_alerts_to_check _ _ = Ok _ |- _ => apply assign_global_checks in H as Hd1 end.
  eexists. split; [|split; [exact Hn|]].
  { destruct skip; exact Hd1. }
  split; [done|]. split; [done|]. unfold created_row, is_synthetic. cbn.
  match goal with H : validate_dependency _ _ _ = Ok ?u |- _ => destruct u; split; [exact H|] end.
  split; [by eexists|]. destruct (String.eqb (cc_type data) SYNTHETIC); [|done].
  split; [|done]. intros _. inv_res. unfold require_admin_actor in *. destruct admin; [|done].
  split; [done|]. match goal with H : validate_if_set _ _ = Ok ?u |- _ => by destruct u end.
Qed.

Definition updated_row (c c' : check) (d : db) (admin : bool) : Prop :=
  ck_id c' = ck_id c /\
  (ck_depends_on c' = ck_depends_on c \/ validate_dependency d (ck_depends_on c') (Some (ck_id c)) = Ok tt) /\
  (is_synthetic c || is_synthetic c' = true -> admin = true) /\
  (exists values, ck_config c' = dict_update (ck_config c) (set_fields (type_fields (Some (ck_type c'))) values) /\ ck_type c' = ck_type c \/
     ck_config c' = dict_update (keep_type_fields (ck_config c) (Some (ck_type c')))
                      (set_fields (type_fields (Some (ck_type c'))) values)) /\
  (is_synthetic c' = false -> ck_script c' = None) /\
  (is_synthetic c' = true ->
     is_synthetic c = true /\ ck_script c' = ck_script c \/
     validate_if_set validate_script (ck_script c') = Ok tt).

(** The type after an update, once the flush took it. *)
Lemma check_type_after (v : sent string) old new :
  not_null v old = Ok new ->
  match v with Some t => t | None => Some old end = Some new /\
  bool_decide (Some new = Some SYNTHETIC) = String.eqb new SYNTHETIC.
Proof.
  intros Hv. split; [destruct v as [[t|]|]; cbn in Hv; congruence|].
  destruct (String.eqb_spec new SYNTHETIC) as [->|Hne]; [by apply bool_decide_eq_true_2|].
  apply bool_decide_eq_false_2. congruence.
Qed.

Lemma bool_decide_some_eq (a b : string) : bool_decide (Some a = Some b) = bool_decide (a = b).
Proof. apply bool_decide_ext. split; congruence. Qed.

Lemma update_inv d now id data admin d' :
  update_check validate_check_target validate_script d now id data admin = Ok d' ->
  exists c c', db_checks d !! id = Some c /\ db_checks d' = <[id := c']> (db_checks d) /\
    (ck_id c = id -> updated_row c c' d admin).
Proof.
  unfold update_check, get_check_by_id. intros E. inv_res.
  destruct (db_checks d !! id) as [c|]; [|done]. inv_res. eexists a, _. split; [done|]. split; [done|].
  intros Hid. destruct (check_type_after _ _ _ E6) as [Htype Hsyn]. rewrite Htype, Hsyn in *.
  unfold updated_row. cbn [ck_id ck_depends_on ck_type ck_config ck_script is_synthetic].
  unfold is_synthetic in *. cbn [ck_type]. rewrite Hid. split; [done|]. split; [|split; [|split; [|split]]].
  - destruct (cu_depends data) as [p|]; [right; cbn; by destruct a1|by left].
  - intros Hs. rewrite Hs in E3. unfold require_admin_actor in E3. by destruct admin.
  - exists (cu_config data). unfold take_config_updates. rewrite bool_decide_some_eq.
    destruct (bool_decide_reflect (a5 = ck_type a)) as [->|Hne]; cbn [negb].
    + left. split; [|done]. by destruct (set_fields _ _).
    + right. by destruct (set_fields _ _).
  - intros ->. done.
  - intros Hs. rewrite Hs in *. cbn [andb] in E4. destruct (cu_script data) as [s|] eqn:Escr; cbn [was_sent orb nullable] in *.
    + right. by destruct a3.
    + destruct (String.eqb (ck_type a) SYNTHETIC); [by left|right]. cbn in E4. by destruct a3.
Qed.

Lemma clone_inv d now id c a o skip admin d' :
  clone_check validate_check_target validate_script valid_create default_timeout
    d now id c a o skip admin = Ok d' ->
  exists data d1, create_check validate_check_target validate_script d now id a data skip admin = Ok d1 /\
    db_checks d' = db_checks d1.
Proof.
  unfold clone_check. intros E. inv_res. destruct (valid_create _); [|done]. inv_res.
  eexists _, _. split; [eassumption|]. by eapply copy_mappings_checks.
Qed.

Lemma validated_parent d p own :
  validate_dependency d (Some p) own = Ok tt ->
  own <> Some p /\ (exists parent, db_checks d !! p = Some parent /\ ck_depends_on parent = None) /\
  (forall i, own = Some i -> count_dependents d i = 0%nat).
Proof.
  unfold validate_dependency. destruct (bool_decide_reflect (own = Some p)) as [|Hne]; [done|].
  destruct (db_checks d !! p) as [parent|] eqn:Ep; [|done].
  destruct (bool_decide_reflect (ck_depends_on parent <> None)) as [|Hp]; [done|].
  apply dec_stable in Hp. intros E. split; [done|]. split; [by exists parent|].
  intros i ->. destruct (Nat.ltb_spec 0 (count_dependents d i)); [done|lia].
Qed.

(** What [set_dependents] did, once it was let. *)
Lemma set_dependents_inv d p cs admin d' n :
  set_dependents d p cs admin = Ok (d', n) ->
  exists parent, db_checks d !! p = Some parent /\ ck_depends_on parent = None /\ p ∉ cs /\
    (forall c, c ∈ cs -> is_Some (db_checks d !! c)) /\
    (forall c, c ∈ cs -> list_dependents d c = []) /\
    let current := map ck_id (list_dependents d p) in
    let to_add := minus (remove_dups cs) current in
    let to_remove := minus current (remove_dups cs) in
    (existsb is_synthetic (omap (fun c => db_checks d !! c) (to_add ++ to_remove)) = true -> admin = true) /\
    d' = set_parent d p to_add to_remove /\ n = (length to_add, length to_remove).
Proof.
  unfold set_dependents. destruct (db_checks d !! p) as [parent|] eqn:Ep; [|done].
  destruct (bool_decide_reflect (ck_depends_on parent <> None)) as [|Hp]; [done|]. apply dec_stable in Hp.
  destruct (bool_decide_reflect (p ∈ remove_dups cs)) as [|Hself]; [done|].
  destruct (existsb _ (remove_dups cs)) eqn:Emiss; [done|].
  destruct (parents_among d (remove_dups cs)) as [|q l] eqn:Epar; [|done]. intros E.
  exists parent. split; [done|]. split; [done|]. rewrite elem_of_remove_dups in Hself. split; [done|].
  split; [|split].
  - intros c Hc. destruct (db_checks d !! c) as [ck|] eqn:Ec; [done|]. exfalso.
    apply not_true_iff_false in Emiss. apply Emiss, existsb_exists. exists c. split.
    { by apply list_elem_of_In, elem_of_remove_dups. }
    by apply bool_decide_eq_true_2.
  - intros c Hc. destruct (decide (list_dependents d c = [])) as [|Hne]; [done|].
    assert (Hin : c ∈ parents_among d (remove_dups cs)).
    { apply list_elem_of_filter. split; [done|]. by rewrite !elem_of_remove_dups. }
    rewrite Epar in Hin. by apply elem_of_nil in Hin.
  - destruct (existsb is_synthetic _) eqn:Es; inv_res; (split; [|by split]); [|done].
    intros _. unfold require_admin_actor in *. by destruct admin.
Qed.

(** *** Dependencies stay single-level *)

Lemma single_level_drop d ids : single_level d -> single_level (drop_checks d ids).
Proof.
  intros Hd i c. rewrite lookup_drop_checks. destruct (bool_decide_reflect (i ∈ ids)) as [|Hi]; [done|].
  destruct (db_checks d !! i) as [c0|] eqn:E; [|done]. cbn. intros [= <-].
  destruct (Hd i c0 E) as [Hid Hp]. split.
  { unfold free_of_parents. destruct (ck_depends_on c0); [|done]. by destruct (bool_decide _). }
  intros p. rewrite free_of_parents_depends. destruct (ck_depends_on c0) as [q|]; [|done].
  destruct (bool_decide_reflect (q ∈ ids)) as [|Hq]; [done|]. intros [= <-].
  destruct (Hp q eq_refl) as (parent & Hpar & Hnone).
  exists (free_of_parents ids parent). rewrite lookup_drop_checks, bool_decide_eq_false_2, Hpar by done.
  split; [done|]. by rewrite free_of_parents_depends, Hnone.
Qed.

Lemma single_level_same d d' : db_checks d' = db_checks d -> single_level d -> single_level d'.
Proof. unfold single_level. by intros ->. Qed.

Lemma single_level_insert d d' i c :
  single_level d -> db_checks d' = <[i := c]> (db_checks d) -> ck_id c = i ->
  (forall p, ck_depends_on c = Some p ->
     p <> i /\ exists parent, db_checks d !! p = Some parent /\ ck_depends_on parent = None) ->
  (ck_depends_on c = None \/ forall j cj, db_checks d !! j = Some cj -> ck_depends_on cj <> Some i) ->
  single_level d'.
Proof.
  intros Hd Ed Hid Hp Hfree j cj. rewrite Ed. destruct (decide (j = i)) as [->|Hne].
  - rewrite lookup_insert_eq. intros [= <-]. split; [done|]. intros p Ep.
    destruct (Hp p Ep) as (Hpi & parent & Hpar & Hnone). exists parent. by rewrite lookup_insert_ne.
  - rewrite lookup_insert_ne by done. intros Ej. destruct (Hd j cj Ej) as [Hidj Hpj]. split; [done|].
    intros p Ep. destruct (Hpj p Ep) as (parent & Hpar & Hnone). destruct (decide (p = i)) as [->|].
    + exists c. rewrite lookup_insert_eq. split; [done|]. destruct Hfree as [|Hfree]; [done|].
      by destruct (Hfree j cj Ej).
    + exists parent. by rewrite lookup_insert_ne.
Qed.

Lemma single_level_create d now id a data skip admin d' :
  single_level d ->
  create_check validate_check_target validate_script d now id a data skip admin = Ok d' -> single_level d'.
Proof.
  intros Hd (c & Ed & Hfresh & Hid & Hdep & (Hv & _))%create_inv.
  eapply (single_level_insert d d' id c); [done|done|done| |].
  - intros p Ep. rewrite Ep in Hv. apply validated_parent in Hv as (_ & (parent & Hpar & Hnone) & _).
    split; [|by exists parent]. intros ->. congruence.
  - right. intros j cj Ej Hj. destruct (Hd j cj Ej) as [_ Hp].
    destruct (Hp id Hj) as (parent & Hpar & _). congruence.
Qed.

Lemma single_level_update d now id data admin d' :
  single_level d ->
  update_check validate_check_target validate_script d now id data admin = Ok d' -> single_level d'.
Proof.
  intros Hd (c & c' & Ec & Ed & Hrow)%update_inv. destruct (Hd id c Ec) as [Hid Hp].
  destruct (Hrow Hid) as (Hid' & Hdep & _). rewrite Hid in Hid', Hdep.
  eapply (single_level_insert d d' id c'); [done|done|done| |].
  - intros p Ep. rewrite Ep in Hdep. destruct Hdep as [Hdep|Hdep].
    + destruct (Hp p (eq_sym Hdep)) as (parent & Hpar & Hnone). split; [|by exists parent].
      intros ->. congruence.
    + apply validated_parent in Hdep as (Hne & Hpar & _). split; [congruence|done].
  - destruct (ck_depends_on c') as [p|] eqn:Ep; [right|by left]. intros j cj Ej Hj.
    destruct Hdep as [Hdep|Hdep].
    + destruct (Hd j cj Ej) as [_ Hpj]. destruct (Hpj id Hj) as (parent & Hpar & Hnone). congruence.
    + apply validated_parent in Hdep as (_ & _ & Hno). by apply (no_dependents _ _ (Hno id eq_refl) j cj).
Qed.

Lemma elem_of_current d p i :
  single_level d ->
  (i ∈ map ck_id (list_dependents d p) <-> exists c, db_checks d !! i = Some c /\ ck_depends_on c = Some p).
Proof.
  intros Hd. split.
  - intros (c & -> & (Hp & j & Ej)%elem_of_dependents)%list_elem_of_fmap.
    destruct (Hd j c Ej) as [-> _]. by exists c.
  - intros (c & Ec & Hp). destruct (Hd i c Ec) as [<- _]. apply list_elem_of_fmap_2, elem_of_dependents. eauto.
Qed.

(** The parent of every check once a parent's children are set. *)
Lemma set_dependents_parent d p cs admin d' n i :
  single_level d -> set_dependents d p cs admin = Ok (d', n) ->
  db_checks d' !! i =
  (fun c => if bool_decide (i ∈ cs) then (if bool_decide (ck_depends_on c = Some p) then c else set_depends (Some p) c)
            else if bool_decide (ck_depends_on c = Some p) then set_depends None c else c) <$> db_checks d !! i.
Proof.
  intros Hd (parent & Hpar & Hnone & Hself & Hall & Hno & _ & -> & _)%set_dependents_inv.
  rewrite lookup_set_parent. destruct (db_checks d !! i) as [c|] eqn:Ec; [cbn; f_equal|done].
  assert (Hcur : i ∈ map ck_id (list_dependents d p) <-> ck_depends_on c = Some p).
  { rewrite elem_of_current by done. split; [intros (c' & E & ?); congruence|eauto]. }
  assert (Hrem : i ∈ minus (map ck_id (list_dependents d p)) (remove_dups cs) <->
                 ck_depends_on c = Some p /\ i ∉ cs).
  { rewrite elem_of_minus, Hcur, elem_of_remove_dups. done. }
  assert (Hadd : i ∈ minus (remove_dups cs) (map ck_id (list_dependents d p)) <->
                 i ∈ cs /\ ck_depends_on c <> Some p).
  { rewrite elem_of_minus, Hcur, elem_of_remove_dups. done. }
  rewrite (bool_decide_ext _ _ Hrem), (bool_decide_ext _ _ Hadd).
  destruct (bool_decide_reflect (i ∈ cs)), (bool_decide_reflect (ck_depends_on c = Some p)).
  - rewrite !bool_decide_eq_false_2 by tauto. done.
  - rewrite bool_decide_eq_false_2, bool_decide_eq_true_2 by tauto. done.
  - rewrite bool_decide_eq_true_2, bool_decide_eq_false_2 by tauto. done.
  - rewrite !bool_decide_eq_false_2 by tauto. done.
Qed.

Lemma single_level_children d p cs admin d' n :
  single_level d -> set_dependents d p cs admin = Ok (d', n) -> single_level d'.
Proof.
  intros Hd E i c. rewrite (set_dependents_parent _ _ _ _ _ _ i Hd E).
  destruct (db_checks d !! i) as [c0|] eqn:Ec0; [|done]. cbn. intros [= Hc].
  destruct (Hd i c0 Ec0) as [Hid Hp]. split.
  { rewrite <- Hid, <- Hc. by repeat destruct (bool_decide _). }
  intros q Hq. rewrite (set_dependents_parent _ _ _ _ _ _ q Hd E).
  apply set_dependents_inv in E as (parent & Hpar & Hnone & Hself & Hall & Hno & _).
  assert (Hcase : q = p \/ ck_depends_on c0 = Some q /\ q <> p).
  { subst c. destruct (bool_decide (i ∈ cs)), (bool_decide_reflect (ck_depends_on c0 = Some p));
      cbn in Hq; try (left; congruence). right. split; [done|]. congruence. }
  destruct Hcase as [->|[Hq0 Hqp]].
  - rewrite Hpar. cbn. rewrite bool_decide_eq_false_2 by done. rewrite Hnone.
    rewrite bool_decide_eq_false_2 by done. by eexists.
  - destruct (Hp q Hq0) as (parent' & Hpar' & Hnone'). rewrite Hpar'. cbn.
    rewrite bool_decide_eq_false_2.
    2: { intros Hin. specialize (Hno q Hin). assert (Hc0 : c0 ∈ list_dependents d q).
         { apply elem_of_dependents. eauto. } rewrite Hno in Hc0. by apply elem_of_nil in Hc0. }
    rewrite Hnone', bool_decide_eq_false_2 by done. by eexists.
Qed.

Definition permitted (d : db) (ids : list uuid) (admin : bool) : list uuid := (bulk_permitted d ids admin).1.

Lemma bulk_enabled_lookup d now ids b admin i :
  db_checks (bulk_set_enabled d now ids b admin).1 !! i =
  (fun c => if bool_decide (i ∈ permitted d ids admin) then set_enabled b c else c) <$> db_checks d !! i.
Proof.
  unfold bulk_set_enabled, permitted. destruct (bulk_permitted d ids admin) as [[|x l] refused]; cbn [fst].
  - by destruct (db_checks d !! i).
  - apply lookup_update_rows.
Qed.

Lemma bulk_delete_lookup d now ids admin i :
  db_checks (bulk_delete d now ids admin).1 !! i =
  if bool_decide (i ∈ permitted d ids admin) then None
  else free_of_parents (permitted d ids admin) <$> db_checks d !! i.
Proof.
  unfold bulk_delete, permitted. destruct (bulk_permitted d ids admin) as [[|x l] refused]; cbn [fst].
  - destruct (db_checks d !! i) as [c|]; [|done]. cbn. unfold free_of_parents.
    by destruct (ck_depends_on c).
  - exact (lookup_drop_checks (touch_agents_of d now (x :: l)) (x :: l) i).
Qed.

Lemma single_level_enabled d now ids b admin :
  single_level d -> single_level (bulk_set_enabled d now ids b admin).1.
Proof.
  intros Hd i c. rewrite bulk_enabled_lookup. destruct (db_checks d !! i) as [c0|] eqn:E; [|done].
  intros [= Hc]. destruct (Hd i c0 E) as [Hid Hp].
  assert (Hsame : ck_id c = ck_id c0 /\ ck_depends_on c = ck_depends_on c0).
  { subst c. by destruct (bool_decide _). }
  destruct Hsame as [-> ->]. split; [done|]. intros p Ep. destruct (Hp p Ep) as (parent & Hpar & Hnone).
  rewrite bulk_enabled_lookup, Hpar. cbn [fmap option_fmap option_map]. eexists. split; [done|].
  by destruct (bool_decide (p ∈ _)).
Qed.

Lemma single_level_bulk_delete d now ids admin :
  single_level d -> single_level (bulk_delete d now ids admin).1.
Proof.
  intros Hd. unfold bulk_delete. destruct (bulk_permitted d ids admin) as [[|x l] refused]; [done|].
  apply single_level_drop. by eapply single_level_same, Hd.
Qed.

Lemma single_level_step admin d d' : check_step admin d d' -> single_level d -> single_level d'.
Proof.
  intros [d0 now id a data skip d1 E|d0 now id c a o skip d1 E|d0 now c data d1 E|d0 now c d1 E|d0 p cs d1 n E|d0 now ids b|d0 now ids] Hd.
  - by eapply single_level_create.
  - apply clone_inv in E as (data & d2 & E & Ed). eapply single_level_same; [exact Ed|].
    by eapply single_level_create.
  - by eapply single_level_update.
  - unfold delete_check in E. inv_res. by apply single_level_drop.
  - by eapply single_level_children.
  - by apply single_level_enabled.
  - by apply single_level_bulk_delete.
Qed.

Lemma remove_dups_id (l : list uuid) : NoDup l -> remove_dups l = l.
Proof.
  induction l as [|x l IH]; intros Hnd; [done|]. apply NoDup_cons in Hnd as [Hx Hnd]. cbn.
  case_decide; [done|]. by rewrite IH.
Qed.

(** Two sets differ on both sides by as much as their sizes do. *)
Lemma minus_lengths (a b : list uuid) :
  (length (minus b (remove_dups a)) + length (remove_dups a) =
   length (remove_dups b) + length (minus (remove_dups a) b))%nat.
Proof.
  assert (Hsplit : forall l m : list uuid,
    length (remove_dups l) = (length (minus l m) + length (filter (fun x => x ∈ m) (remove_dups l)))%nat).
  { intros l m. unfold minus. induction (remove_dups l) as [|x r IH]; [done|]. rewrite !filter_cons.
    destruct (decide (x ∈ m)).
    - rewrite decide_False by tauto. cbn. lia.
    - rewrite decide_True by done. cbn. lia. }
  rewrite (Hsplit b (remove_dups a)).
  assert (Ha : length (remove_dups a) =
    (length (minus (remove_dups a) b) + length (filter (fun x => x ∈ b) (remove_dups a)))%nat).
  { pose proof (Hsplit (remove_dups a) b) as Hs. by rewrite remove_dups_id in Hs by apply NoDup_remove_dups. }
  assert (Hcap : filter (fun x => x ∈ remove_dups a) (remove_dups b) ≡ₚ filter (fun x => x ∈ b) (remove_dups a)).
  { apply NoDup_Permutation; [apply NoDup_filter, NoDup_remove_dups..|]. intros x.
    rewrite !list_elem_of_filter, !elem_of_remove_dups. tauto. }
  rewrite Hcap. lia.
Qed.

(** C14: Dependencies stay single-level: through any sequence of creations,
    clones, updates, deletions, changes of a parent's children and bulk
    operations, by anyone, a check's parent exists, is another check and has
    no parent of its own. *)
Theorem dependencies_single_level d d' i c p :
  single_level d -> star any_step d d' ->
  db_checks d' !! i = Some c -> ck_depends_on c = Some p ->
  p <> i /\ exists parent, db_checks d' !! p = Some parent /\ ck_depends_on parent = None.
Proof.
  intros Hd Hstar Ec Ep.
  assert (Hd' : single_level d').
  { eapply (star_invariant any_step single_level); [intros x y [admin Hs]; apply (single_level_step admin), Hs|exact Hstar|exact Hd]. }
  destruct (Hd' i c Ec) as [_ Hp]. destruct (Hp p Ep) as (parent & Hpar & Hnone).
  split; [intros ->; congruence|]. by exists parent.
Qed.

(** A parent's children are set exactly: afterwards the checks that depend
    on it are those asked for, none of them missing, and no other check's
    row changed; the counts returned are those of the rows changed. *)
Theorem children_set_exactly d p cs admin d' added removed :
  single_level d -> set_dependents d p cs admin = Ok (d', (added, removed)) ->
  (forall i, i ∈ cs <-> exists c, db_checks d' !! i = Some c /\ ck_depends_on c = Some p) /\
  (forall i, i ∉ cs -> (forall c, db_checks d !! i = Some c -> ck_depends_on c <> Some p) ->
     db_checks d' !! i = db_checks d !! i) /\
  (removed + length (remove_dups cs) = length (remove_dups (map ck_id (list_dependents d p))) + added)%nat.
Proof.
  intros Hd E. split; [|split].
  - intros i. rewrite (set_dependents_parent _ _ _ _ _ _ i Hd E). split.
    + intros Hi. destruct (set_dependents_inv _ _ _ _ _ _ E) as (_ & _ & _ & _ & Hall & _).
      destruct (Hall i Hi) as [c Ec]. rewrite Ec. cbn. rewrite bool_decide_eq_true_2 by done.
      destruct (bool_decide_reflect (ck_depends_on c = Some p)); eexists; done.
    + intros (c' & Ec' & Hp). destruct (db_checks d !! i) as [c|]; [|done]. cbn in Ec'. injection Ec' as <-.
      destruct (bool_decide_reflect (i ∈ cs)); [done|].
      by destruct (bool_decide_reflect (ck_depends_on c = Some p)).
  - intros i Hi Hne. rewrite (set_dependents_parent _ _ _ _ _ _ i Hd E).
    destruct (db_checks d !! i) as [c|]; [|done]. cbn. rewrite bool_decide_eq_false_2 by done.
    by rewrite bool_decide_eq_false_2 by auto.
  - apply set_dependents_inv in E as (_ & _ & _ & _ & _ & _ & _ & _ & [= -> ->]).
    apply minus_lengths.
Qed.

(** *** Synthetic checks are an admin's *)

Definition freed (c c' : check) : Prop := c' = c \/ c' = set_depends None c.

(** Every synthetic check is still there as it was, its parent at most gone,
    and none is new. *)
Definition synthetics_kept (d d' : db) : Prop :=
  (forall i c, db_checks d !! i = Some c -> is_synthetic c = true ->
     exists c', db_checks d' !! i = Some c' /\ freed c c') /\
  (forall i c', db_checks d' !! i = Some c' -> is_synthetic c' = true ->
     exists c, db_checks d !! i = Some c /\ freed c c').

Lemma freed_trans a b c : freed a b -> freed b c -> freed a c.
Proof. intros [->| ->] [->| ->]; unfold freed; auto. Qed.

Lemma freed_synthetic c c' : freed c c' -> is_synthetic c' = is_synthetic c.
Proof. by intros [->| ->]. Qed.

Lemma kept_trans d1 d2 d3 : synthetics_kept d1 d2 -> synthetics_kept d2 d3 -> synthetics_kept d1 d3.
Proof.
  intros [H12 H21] [H23 H32]. split; intros i c Hc Hs.
  - destruct (H12 i c Hc Hs) as (c2 & Hc2 & Hf). destruct (H23 i c2 Hc2) as (c3 & Hc3 & Hf3).
    { by rewrite (freed_synthetic _ _ Hf). }
    exists c3. split; [done|]. by eapply freed_trans.
  - destruct (H32 i c Hc Hs) as (c2 & Hc2 & Hf). destruct (H21 i c2 Hc2) as (c1 & Hc1 & Hf1).
    { by rewrite <- (freed_synthetic _ _ Hf). }
    exists c1. split; [done|]. by eapply freed_trans.
Qed.

(** An operation that maps each row apart, synthetic ones to themselves. *)
Lemma kept_rows d d' (f : uuid -> check -> option check) :
  (forall i, db_checks d' !! i = db_checks d !! i ≫= f i) ->
  (forall i c, db_checks d !! i = Some c -> is_synthetic c = true -> exists c', f i c = Some c' /\ freed c c') ->
  (forall i c c', db_checks d !! i = Some c -> f i c = Some c' -> is_synthetic c' = true -> is_synthetic c = true) ->
  synthetics_kept d d'.
Proof.
  intros Hd Hk Hb. split; intros i c Hc Hs.
  - destruct (Hk i c Hc Hs) as (c' & Hf & Hfr). exists c'. by rewrite Hd, Hc.
  - rewrite Hd in Hc. destruct (db_checks d !! i) as [c0|] eqn:E; [|done]. cbn in Hc. exists c0. split; [done|].
    destruct (Hk i c0 E) as (c' & Hf & Hfr); [by eapply Hb|]. congruence.
Qed.

Lemma kept_same d d' : db_checks d' = db_checks d -> synthetics_kept d d'.
Proof. intros E. split; intros i c; rewrite ?E; exists c; by split; [|left]. Qed.

Lemma kept_insert d d' i c' :
  db_checks d' = <[i := c']> (db_checks d) -> is_synthetic c' = false ->
  (forall c, db_checks d !! i = Some c -> is_synthetic c = false) -> synthetics_kept d d'.
Proof.
  intros E Hc' Hold. split; intros j c; rewrite E; destruct (decide (j = i)) as [->|Hne].
  - intros Hc. rewrite (Hold c Hc). done.
  - rewrite lookup_insert_ne by done. exists c. by split; [|left].
  - rewrite lookup_insert_eq. intros [= <-]. by rewrite Hc'.
  - rewrite lookup_insert_ne by done. exists c. by split; [|left].
Qed.

(** The rows a non-admin's bulk operation may touch. *)
Lemma permitted_not_synthetic d ids i c :
  single_level d -> db_checks d !! i = Some c -> is_synthetic c = true -> i ∉ permitted d ids false.
Proof.
  intros Hd Hc Hs. unfold permitted, bulk_permitted. cbn [fst]. intros [Hn Hin]%list_elem_of_filter.
  destruct (Hd i c Hc) as [Hid _]. apply Hn. rewrite <- Hid. apply list_elem_of_fmap_2, list_elem_of_filter.
  split; [done|]. unfold get_checks_by_ids. apply list_elem_of_filter. rewrite Hid.
  split; [done|]. apply elem_of_rows. eauto.
Qed.

Lemma kept_drop d d' ids :
  (forall i, db_checks d' !! i = if bool_decide (i ∈ ids) then None else free_of_parents ids <$> db_checks d !! i) ->
  (forall i c, db_checks d !! i = Some c -> is_synthetic c = true -> i ∉ ids) -> synthetics_kept d d'.
Proof.
  intros Hd Hids. apply (kept_rows d d' (fun i c => if bool_decide (i ∈ ids) then None else Some (free_of_parents ids c))).
  - intros i. rewrite Hd. by destruct (bool_decide _), (db_checks d !! i).
  - intros i c Hc Hs. rewrite bool_decide_eq_false_2 by (by eapply Hids). eexists. split; [done|].
    unfold free_of_parents, freed. destruct (ck_depends_on c); [destruct (bool_decide _)|]; auto.
  - intros i c c' _. destruct (bool_decide _); [done|]. intros [= <-]. unfold free_of_parents.
    destruct (ck_depends_on c); [destruct (bool_decide _)|]; done.
Qed.

Lemma kept_create d now id a data skip d' :
  create_check validate_check_target validate_script d now id a data skip false = Ok d' -> synthetics_kept d d'.
Proof.
  intros (c & Ed & Hfresh & _ & _ & (_ & _ & Hadmin & _))%create_inv. apply (kept_insert d d' id c Ed).
  - destruct (is_synthetic c); [|done]. by destruct (Hadmin eq_refl).
  - intros c0. by rewrite Hfresh.
Qed.

Lemma kept_children d p cs d' n :
  single_level d -> set_dependents d p cs false = Ok (d', n) -> synthetics_kept d d'.
Proof.
  intros Hd (parent & _ & _ & _ & _ & _ & Hadmin & -> & _)%set_dependents_inv.
  set (add := minus _ _) in *. set (rem := minus (map ck_id _) _) in *.
  assert (Hno : forall i c, db_checks d !! i = Some c -> is_synthetic c = true -> i ∉ add /\ i ∉ rem).
  { intros i c Hc Hs. rewrite <- not_elem_of_app. intros Hin.
    assert (false = true); [|done]. apply Hadmin, existsb_exists. exists c. split; [|done].
    apply list_elem_of_In, list_elem_of_omap. by exists i. }
  apply (kept_rows d _ (fun i c => Some (if bool_decide (i ∈ rem) then set_depends None (if bool_decide (i ∈ add) then set_depends (Some p) c else c)
          else if bool_decide (i ∈ add) then set_depends (Some p) c else c))).
  - intros i. rewrite lookup_set_parent. by destruct (db_checks d !! i).
  - intros i c Hc Hs. destruct (Hno i c Hc Hs). rewrite !bool_decide_eq_false_2 by done.
    exists c. by split; [|left].
  - intros i c c' _ [= <-]. by destruct (bool_decide _), (bool_decide _).
Qed.

Lemma kept_step d d' : check_step false d d' -> single_level d -> synthetics_kept d d'.
Proof.
  intros [d0 now id a data skip d1 E|d0 now id c a o skip d1 E|d0 now c data d1 E|d0 now c d1 E|d0 p cs d1 n E|d0 now ids b|d0 now ids] Hd.
  - by eapply kept_create.
  - apply clone_inv in E as (data & d2 & E & Ed). eapply kept_trans; [by eapply kept_create|by apply kept_same].
  - apply update_inv in E as (c0 & c' & Ec & Ed & Hrow). destruct (Hd c c0 Ec) as [Hid _].
    destruct (Hrow Hid) as (_ & _ & Hadmin & _). eapply kept_insert; [exact Ed|..].
    + destruct (is_synthetic c'); [|done]. by rewrite orb_true_r in Hadmin; specialize (Hadmin eq_refl).
    + intros c1 Hc1. assert (c1 = c0) as -> by congruence.
      destruct (is_synthetic c0); [|done]. by specialize (Hadmin eq_refl).
  - unfold delete_check, get_check_by_id in E. destruct (db_checks d0 !! c) as [c0|] eqn:Ec; [|done].
    inv_res. eapply (kept_drop _ _ [c]); [intros i; apply lookup_drop_checks|].
    intros i c1 Hc1 Hs Hin. apply list_elem_of_singleton in Hin as ->. assert (c1 = a) as -> by congruence.
    by rewrite Hs in *.
  - by eapply kept_children.
  - apply (kept_rows _ _ (fun i c => Some (if bool_decide (i ∈ permitted d0 ids false) then set_enabled b c else c))).
    + intros i. rewrite bulk_enabled_lookup. by destruct (db_checks d0 !! i).
    + intros i c Hc Hs. rewrite bool_decide_eq_false_2 by (by eapply permitted_not_synthetic).
      exists c. by split; [|left].
    + intros i c c' _ [= <-]. by destruct (bool_decide _).
  - eapply kept_drop; [intros i; apply bulk_delete_lookup|]. intros i c Hc Hsy.
    exact (permitted_not_synthetic d0 ids i c Hd Hc Hsy).
Qed.

(** C16: Synthetic checks are an admin's alone: whatever operations a non-admin
    runs, each synthetic check is still stored under its id with its target,
    script, agent, schedule and state unchanged (a deleted parent at most
    frees it), and no check has become synthetic. *)
Theorem synthetic_is_admins d d' :
  single_level d -> star (check_step false) d d' -> synthetics_kept d d'.
Proof.
  intros Hd Hstar. induction Hstar as [d|d d1 d2 Hs _ IH]; [by apply kept_same|].
  eapply kept_trans; [by apply kept_step|]. apply IH. by eapply single_level_step.
Qed.

(** Deleting a parent writes a synthetic child's dependency, whoever deletes. *)
Theorem deletion_frees_synthetic d now p parent i c :
  db_checks d !! p = Some parent -> is_synthetic parent = false ->
  db_checks d !! i = Some c -> is_synthetic c = true -> ck_depends_on c = Some p -> i <> p ->
  exists d', delete_check d now p false = Ok d' /\ db_checks d' !! i = Some (set_depends None c).
Proof.
  intros Hp Hs Hc _ Hdep Hne. unfold delete_check, get_check_by_id. rewrite Hp. cbn. rewrite Hs. cbn.
  eexists. split; [done|]. cbn. rewrite lookup_drop_checks, bool_decide_eq_false_2.
  2: { by rewrite list_elem_of_singleton. }
  rewrite Hc. cbn. unfold free_of_parents. by rewrite Hdep, bool_decide_eq_true_2 by left.
Qed.

(** *** A check holds its own type's configuration, and a validated script *)

Definition keys (d : pydict) : list string := map fst d.

Lemma keys_dict_set d k v x : x ∈ keys (dict_set d k v) -> x ∈ keys d \/ x = k.
Proof.
  unfold keys, dict_set. destruct (assoc_get d k).
  - intros ([k' v'] & -> & (kv & E & Hkv)%list_elem_of_fmap)%list_elem_of_fmap.
    destruct (decide (kv.1 = k)); [right; by simplify_eq|left].
    subst kv. by apply (list_elem_of_fmap_2 fst _ (k', v')).
  - rewrite map_app, elem_of_app. intros [?|Hx]; [by left|right]. by apply list_elem_of_singleton in Hx.
Qed.

Lemma keys_dict_update d u x : x ∈ keys (dict_update d u) -> x ∈ keys d \/ x ∈ keys u.
Proof.
  unfold dict_update. revert d. induction u as [|[k v] u IH]; intros d; cbn; [by left|].
  intros [Hx|Hx]%IH.
  - apply keys_dict_set in Hx as [?| ->]; [by left|right; left].
  - right. by right.
Qed.

Lemma keys_set_fields names values x : x ∈ keys (set_fields names values) -> x ∈ names.
Proof.
  unfold keys, set_fields. intros ([k v] & -> & (f & Hf & E)%list_elem_of_omap)%list_elem_of_fmap.
  destruct (assoc_get values f) as [w|]; cbn in E; [|done]. destruct (is_set w); [|done]. by injection E as <- <-.
Qed.

Record row_ok (c : check) : Prop := {
  row_config : forall k, k ∈ keys (ck_config c) -> k ∈ ALL_CONFIG_FIELDS -> k ∈ type_fields (Some (ck_type c));
  row_script : forall s, ck_script c = Some s -> s <> "" ->
                 is_synthetic c = true /\ validate_script s = Ok tt;
}.

Definition rows_ok (d : db) : Prop := forall i c, db_checks d !! i = Some c -> row_ok c.

Lemma validated_script script s :
  validate_if_set validate_script script = Ok tt -> script = Some s -> s <> "" -> validate_script s = Ok tt.
Proof. unfold validate_if_set. intros Hv -> Hs. by rewrite (proj2 (String.eqb_neq s "") Hs) in Hv. Qed.

Lemma created_row_ok c d admin : created_row c d admin -> row_ok c.
Proof.
  intros (_ & [values Hv] & Hsyn & Hplain). split.
  - intros k Hk _. rewrite Hv in Hk. by apply keys_set_fields in Hk.
  - intros s Hs Hne. destruct (is_synthetic c); [|rewrite Hplain in Hs; done].
    split; [done|]. destruct (Hsyn eq_refl) as [_ Hval]. by eapply validated_script.
Qed.

Lemma updated_row_ok c c' d admin : row_ok c -> updated_row c c' d admin -> row_ok c'.
Proof.
  intros [Hconf Hscr] (_ & _ & _ & (values & Hv) & Hplain & Hsyn). split.
  - intros k Hk Hall. destruct Hv as [[Hv Ht]|Hv]; rewrite Hv in Hk; apply keys_dict_update in Hk as [Hk|Hk].
    + rewrite Ht. by apply Hconf.
    + by apply keys_set_fields in Hk.
    + unfold keys, keep_type_fields in Hk. apply list_elem_of_fmap in Hk as (kv & -> & [Hor _]%list_elem_of_filter).
      by destruct Hor.
    + by apply keys_set_fields in Hk.
  - intros s Hs Hne. destruct (is_synthetic c') eqn:Es; [|rewrite Hplain in Hs; done]. split; [done|].
    destruct (Hsyn eq_refl) as [[_ Hsame]|Hval]; [|by eapply validated_script].
    rewrite Hsame in Hs. by apply (Hscr s).
Qed.

(** Changing the parent or the switch of a row. *)
Lemma row_ok_same c c' :
  ck_config c' = ck_config c -> ck_type c' = ck_type c -> ck_script c' = ck_script c -> row_ok c -> row_ok c'.
Proof.
  intros Hc Ht Hs [H1 H2]. split.
  - by rewrite Hc, Ht.
  - unfold is_synthetic. rewrite Hs, Ht. exact H2.
Qed.

Lemma rows_ok_insert d d' i c :
  rows_ok d -> db_checks d' = <[i := c]> (db_checks d) -> row_ok c -> rows_ok d'.
Proof.
  intros Hd E Hc j cj. rewrite E. destruct (decide (j = i)) as [->|].
  - rewrite lookup_insert_eq. by intros [= <-].
  - rewrite lookup_insert_ne by done. apply Hd.
Qed.

Lemma rows_ok_drop d d' ids :
  (forall i, db_checks d' !! i = if bool_decide (i ∈ ids) then None else free_of_parents ids <$> db_checks d !! i) ->
  rows_ok d -> rows_ok d'.
Proof.
  intros E Hd i c. rewrite E. destruct (bool_decide _); [done|].
  destruct (db_checks d !! i) as [c0|] eqn:E0; [|done]. intros [= <-].
  apply (row_ok_same c0); [..|by eapply Hd]; unfold free_of_parents;
    (destruct (ck_depends_on c0); [destruct (bool_decide _)|]); done.
Qed.

Lemma rows_ok_step admin d d' : check_step admin d d' -> single_level d -> rows_ok d -> rows_ok d'.
Proof.
  intros [d0 now id a data skip d1 E|d0 now id c a o skip d1 E|d0 now c data d1 E|d0 now c d1 E|d0 p cs d1 n E|d0 now ids b|d0 now ids] Hlvl Hd.
  - apply create_inv in E as (c & Ed & _ & _ & _ & Hrow). eapply rows_ok_insert; [done|exact Ed|by eapply created_row_ok].
  - apply clone_inv in E as (data & d2 & E & Ed). apply create_inv in E as (c0 & Ed2 & _ & _ & _ & Hrow).
    eapply rows_ok_insert; [done|by rewrite Ed|by eapply created_row_ok].
  - apply update_inv in E as (c0 & c' & Ec & Ed & Hrow). destruct (Hlvl c c0 Ec) as [Hid _].
    eapply rows_ok_insert; [done|exact Ed|]. eapply updated_row_ok; [|by apply Hrow]. by eapply Hd.
  - unfold delete_check in E. inv_res. eapply (rows_ok_drop d0); [intros i; apply lookup_drop_checks|done].
  - intros i c. rewrite (set_dependents_parent _ _ _ _ _ _ i Hlvl E).
    destruct (db_checks d0 !! i) as [c0|] eqn:Ec; [|done]. intros [= <-].
    apply (row_ok_same c0); [..|by eapply Hd]; by repeat destruct (bool_decide _).
  - intros i c. rewrite bulk_enabled_lookup. destruct (db_checks d0 !! i) as [c0|] eqn:Ec; [|done]. intros [= <-].
    apply (row_ok_same c0); [..|by eapply Hd]; by destruct (bool_decide _).
  - eapply rows_ok_drop; [intros i; apply bulk_delete_lookup|done].
Qed.

(** Through any sequence of operations a check's configuration holds fields
    of its own type only (a database check turned into an http check keeps
    no connection string), and a script is stored only on a synthetic check
    and only if the validator passed it. *)
Theorem checks_hold_their_own d d' i c :
  single_level d -> rows_ok d -> star any_step d d' ->
  db_checks d' !! i = Some c ->
  (forall k, k ∈ keys (ck_config c) -> k ∈ ALL_CONFIG_FIELDS -> k ∈ type_fields (Some (ck_type c))) /\
  (forall s, ck_script c = Some s -> s <> "" -> is_synthetic c = true /\ validate_script s = Ok tt).
Proof.
  intros Hlvl Hd Hstar Hc.
  assert (Hboth : single_level d' /\ rows_ok d').
  { eapply (star_invariant any_step (fun d => single_level d /\ rows_ok d)); [|exact Hstar|by split].
    intros x y [admin Hs] [H1 H2]. split; [by eapply single_level_step|by eapply rows_ok_step]. }
  destruct Hboth as [_ Hrows]. by destruct (Hrows i c Hc).
Qed.
End Checks.

(** ** Witnesses *)

Definition free_target (target : string) : res unit :=
  if String.eqb target "http://169.254.169.254/" then Raise (ValidationException "blocked") else Ok tt.
Definition short_script (script : string) : res unit :=
  if (String.length script <=? 20)%nat then Ok tt else Raise (ValidationException "script").

Definition new_check (type : string) (script : option string) (parent : option uuid) (config : pydict) : CheckCreate :=
  {| cc_display_name := "new"; cc_type := type; cc_target := "db.example.org"; cc_interval := Some 60%Z;
     cc_enabled := true; cc_mode := MANUAL; cc_selector := None; cc_script := script; cc_depends := parent;
     cc_columns := []; cc_config := config |}.

Definition no_update : CheckUpdate :=
  {| cu_display_name := None; cu_type := None; cu_target := None; cu_interval := None; cu_enabled := None;
     cu_mode := None; cu_selector := None; cu_script := None; cu_depends := None; cu_columns := [];
     cu_config := [] |}.

Definition to_http : CheckUpdate :=
  {| cu_display_name := None; cu_type := Some (Some "http"); cu_target := None; cu_interval := None;
     cu_enabled := None; cu_mode := None; cu_selector := None; cu_script := None; cu_depends := None;
     cu_columns := []; cu_config := [("expected_status", PInt 200)] |}.

Definition base : db := demo_db (demo_alert STATUS_CHANGE [] None None) (Some 20%N) None [] [].

(** A database check under 20, a synthetic one, then the first made http. *)
Definition database_check : CheckCreate :=
  new_check "postgres" None (Some 20%N) [("connection_string", PStr "postgres://u:p@db"); ("query", PStr "")].
Definition synthetic_check : CheckCreate := new_check "synthetic" (Some "page.goto()") (Some 20%N) [].

Definition after_create : db :=
  value_of empty_db (create_check free_target short_script base 1 40 1 database_check false false).
Definition after_synthetic : db :=
  value_of empty_db (create_check free_target short_script after_create 2 41 1 synthetic_check false true).
Definition after_update : db :=
  value_of empty_db (update_check free_target short_script after_synthetic 3 40 to_http true).

Abbreviation demo_step := (any_step free_target short_script (fun _ => true) 10).

Lemma demo_runs : star demo_step base after_update.
Proof.
  apply (star_step _ _ after_create).
  { exists false. apply (step_create _ _ _ _ _ _ 1 40 1 database_check false). vm_compute. reflexivity. }
  apply (star_step _ _ after_synthetic).
  { exists true. apply (step_create _ _ _ _ _ _ 2 41 1 synthetic_check false). vm_compute. reflexivity. }
  apply star_one. exists true. apply (step_update _ _ _ _ _ _ 3 40 to_http). vm_compute. reflexivity.
Qed.

Lemma base_single_level : single_level base.
Proof.
  intros i c Hc. cbn [base demo_db db_checks] in Hc. table_rows Hc; (split; [reflexivity|]); intros p Hp;
    injection Hp as <- || discriminate Hp. eexists. split; [vm_compute; reflexivity|reflexivity].
Qed.

Lemma base_rows_ok : rows_ok short_script base.
Proof.
  intros i c Hc. cbn [base demo_db db_checks] in Hc. table_rows Hc; split; intros k Hk;
    first [by apply elem_of_nil in Hk | discriminate Hk].
Qed.

(** The row of a check, under its id. *)
Definition row_at (d : db) (i : uuid) : check := default (demo_check 0 None) (db_checks d !! i).

Lemma dependencies_single_level_witness :
  ck_depends_on (row_at after_update 40) = Some 20%N /\
  20%N <> 40%N /\ exists parent, db_checks after_update !! 20%N = Some parent /\ ck_depends_on parent = None.
Proof.
  split; [vm_compute; reflexivity|].
  apply (dependencies_single_level free_target short_script (fun _ => true) 10 base after_update 40
           (row_at after_update 40)).
  - exact base_single_level.
  - exact demo_runs.
  - vm_compute. reflexivity.
  - vm_compute. reflexivity.
Defined.

Lemma children_set_exactly_witness :
  exists d' added removed, set_dependents base 20 [] false = Ok (d', (added, removed)) /\ removed = 1%nat /\
    forall i, i ∈ [] <-> exists c, db_checks d' !! i = Some c /\ ck_depends_on c = Some 20%N.
Proof.
  eexists _, _, _. split; [vm_compute; reflexivity|]. split; [reflexivity|].
  eapply (children_set_exactly base 20 [] false).
  - exact base_single_level.
  - vm_compute. reflexivity.
Defined.

(** A non-admin disables everything: the synthetic check stays on. *)
Definition toggled : db := (bulk_set_enabled after_synthetic 5 [10; 40; 41]%N false false).1.

Lemma synthetic_is_admins_witness :
  ck_enabled (row_at toggled 40) = false /\ synthetics_kept after_synthetic toggled.
Proof.
  split; [vm_compute; reflexivity|].
  apply (synthetic_is_admins free_target short_script (fun _ => true) 10).
  - intros i c Hc. apply (single_level_step free_target short_script (fun _ => true) 10 true after_create) in Hc.
    + exact Hc.
    + apply (step_create _ _ _ _ _ _ 2 41 1 synthetic_check false). vm_compute. reflexivity.
    + apply (single_level_step free_target short_script (fun _ => true) 10 false base).
      * apply (step_create _ _ _ _ _ _ 1 40 1 database_check false). vm_compute. reflexivity.
      * exact base_single_level.
  - apply star_one. exact (step_enable free_target short_script (fun _ => true) 10 false after_synthetic 5 [10; 40; 41]%N false).
Defined.

Lemma checks_hold_their_own_witness :
  keys (ck_config (row_at after_update 40)) = ["expected_status"] /\
  forall s, ck_script (row_at after_update 41) = Some s -> s <> "" ->
    is_synthetic (row_at after_update 41) = true /\ short_script s = Ok tt.
Proof.
  split; [vm_compute; reflexivity|].
  apply (checks_hold_their_own free_target short_script (fun _ => true) 10 base after_update 41
           (row_at after_update 41)).
  - exact base_single_level.
  - exact base_rows_ok.
  - exact demo_runs.
  - vm_compute. reflexivity.
Defined.
