(* ===== verification/AgentRun.v ===== *)
(** * AgentRun

    How an agent runs its checks: the list it is served
    (services/core/check_api_core_service.py: to_response), what it makes of it
    (agent/check_manager.py: load_checks, _transform_check_config, and the
    validate_config of each check under checks/), when its loop starts each check
    (agent/core.py: run), how one run tries and tries again and what it queues
    (agent/check_executor.py).

    A check object is the configuration it was made of.  Numbers come from the
    server's JSON as integers or null; times are microseconds.  What a check's run()
    answers, how long it and the waits around it last, are an argument. *)

From S2P Require Import Prelude Py Text Url Store Checks.

(** ** What the server sends: [CheckApiCoreService.to_response] *)

Definition opt_str (s : option string) : pyval := match s with Some s => PStr s | None => PNone end.
Definition opt_int (z : option Z) : pyval := match z with Some z => PInt z | None => PNone end.

Definition column (c : check) (k : string) : pyval := default PNone (assoc_get (ck_columns c) k).
Definition mode_value (m : AssignmentMode) : string :=
  match m with MANUAL => "manual" | REPLICATE => "replicate" | DISTRIBUTE => "distribute" end.

Definition to_response (c : check) (agent_label : string) : pydict :=
  [("id", PStr (uuid_str (ck_id c))); ("agent_id", PStr (uuid_str (ck_agent_id c)));
   ("display_name", PStr (ck_display_name c)); ("check_type", PStr (ck_type c)); ("target", PStr (ck_target c));
   ("description", column c "description"); ("interval_seconds", opt_int (ck_interval c));
   ("timeout_seconds", column c "timeout_seconds"); ("enabled", PBool (ck_enabled c));
   ("expected_status", config_property c "expected_status"); ("http_method", config_property c "http_method");
   ("verify_ssl", config_property c "verify_ssl"); ("json_path", config_property c "json_path");
   ("expected_value", config_property c "expected_value"); ("record_type", config_property c "record_type");
   ("nameserver", config_property c "nameserver"); ("port", config_property c "port");
   ("expect_value", config_property c "expect_value"); ("connection_string", config_property c "connection_string");
   ("query", config_property c "query"); ("retry_attempts", column c "retry_attempts");
   ("retry_interval_seconds", column c "retry_interval_seconds");
   ("resend_notification_after", column c "resend_notification_after"); ("tags", column c "tags");
   ("script_code", opt_str (ck_script c)); ("depends_on_check_id", opt_str (uuid_str <$> ck_depends_on c));
   ("assignment_mode", PStr (mode_value (ck_mode c)));
   ("agent_selector", match ck_selector c with Some s => PDict s | None => PNone end);
   ("fully_qualified_name", PStr (agent_label +:+ ":" +:+ ck_display_name c))].

(** ** agent/check_manager.py *)

(** [int(s)] *)
Definition int_of_text (s : string) : res Z := int_of_word (strip s).

(** [if check_cfg.get(k) is not None: cfg[k'] = check_cfg[k]] *)
Definition copy_set (check_cfg : pydict) (cfg : pydict) (kk : string * string) : pydict :=
  match dict_get check_cfg kk.1 PNone with PNone => cfg | v => dict_set cfg kk.2 v end.

Definition COPIED : list (string * string) :=
  [("http_method", "method"); ("expected_status", "expected_status"); ("json_path", "json_path");
   ("expected_value", "expected_value"); ("record_type", "record_type"); ("nameserver", "nameserver");
   ("expect_value", "expect_value"); ("connection_string", "connection_string"); ("query", "query");
   ("script_code", "script_code")].

(** For a TCP check, the port that ends the target. *)
Definition tcp_target (check_cfg cfg : pydict) : res pydict :=
  match dict_get check_cfg "target" (PStr "") with
  | PStr target =>
      let '(host, found, port_str) := rpartition ":" target in
      if found then
        match int_of_text port_str with
        | Ok port => Ok (dict_set (dict_set cfg "target" (PStr host)) "port" (PInt port))
        | Raise ValueError => Ok cfg
        | Raise e => Raise e
        end
      else Ok cfg
  | target => found ← py_in ":" target; if (found : bool) then Raise AttributeError else Ok cfg
  end.

Definition transform_check_config (check_cfg : pydict) (check_type : string) : res pydict :=
  let cfg :=
    [("check_id", dict_get check_cfg "id" PNone); ("name", dict_get check_cfg "display_name" PNone);
     ("check_type", PStr check_type); ("target", dict_get check_cfg "target" PNone);
     ("interval", dict_get check_cfg "interval_seconds" (PInt 60));
     ("timeout", py_or (dict_get check_cfg "timeout_seconds" PNone) (PInt 5));
     ("enabled", dict_get check_cfg "enabled" (PBool true));
     ("retry_attempts", py_or (dict_get check_cfg "retry_attempts" PNone) (PInt 0));
     ("retry_interval", py_or (dict_get check_cfg "retry_interval_seconds" PNone) (PInt 30))] in
  let cfg := fold_left (copy_set check_cfg) COPIED cfg in
  cfg ← (if String.eqb check_type "tcp" then tcp_target check_cfg cfg else Ok cfg);
  let cfg := if String.eqb check_type "http" then copy_set check_cfg cfg ("verify_ssl", "verify_ssl") else cfg in
  Ok (if String.eqb check_type "dns" then copy_set check_cfg cfg ("port", "port") else cfg).

(** ** The checks' own validation: validate_config of checks/*.py *)

Class Drivers := { dns_available : bool; aiomysql_available : bool; asyncpg_available : bool }.

Definition has_key (d : pydict) (k : string) : bool := bool_decide (assoc_get d k <> None).
Definition check_that (b : bool) (e : exn) : res unit := if b then Ok tt else Raise e.

(** [config.get("target", "").startswith(...)] *)
Definition target_starts (cfg : pydict) (prefixes : list string) : res bool :=
  match dict_get cfg "target" (PStr "") with
  | PStr t => Ok (existsb (fun p => startswith p t) prefixes)
  | _ => Raise AttributeError
  end.

Definition base_valid (cfg : pydict) : res unit :=
  check_that (has_key cfg "check_id" && has_key cfg "target" && has_key cfg "check_type") ValueError.

Definition http_valid (cfg : pydict) : res unit :=
  _ ← base_valid cfg; b ← target_starts cfg ["http://"; "https://"]; check_that b ValueError.
Definition json_valid (cfg : pydict) : res unit :=
  _ ← base_valid cfg; b ← target_starts cfg ["http://"; "https://"]; _ ← check_that b ValueError;
  check_that (has_key cfg "json_path" && has_key cfg "expected_value") ValueError.
Definition ping_valid (cfg : pydict) : res unit :=
  _ ← base_valid cfg; b ← target_starts cfg ["http://"; "https://"]; check_that (negb b) ValueError.
Definition tcp_valid (cfg : pydict) : res unit :=
  _ ← base_valid cfg; _ ← check_that (has_key cfg "port") ValueError;
  match dict_get cfg "port" PNone with
  | PInt port => check_that ((1 <=? port) && (port <=? 65535))%Z ValueError
  | PBool b => check_that b ValueError
  | _ => Raise ValueError
  end.

Definition VALID_RECORD_TYPES : list string := ["A"; "AAAA"; "CNAME"; "MX"; "TXT"; "NS"; "PTR"; "SOA"; "SRV"; "CAA"].
Definition dns_valid `{Drivers} (cfg : pydict) : res unit :=
  _ ← base_valid cfg; _ ← check_that dns_available ValueError; _ ← check_that (has_key cfg "record_type") ValueError;
  match dict_get cfg "record_type" PNone with
  | PStr t => check_that (bool_decide (upper t ∈ VALID_RECORD_TYPES)) ValueError
  | _ => Raise AttributeError
  end.

Definition database_valid (available : bool) (schemes : list string) (cfg : pydict) : res unit :=
  _ ← base_valid cfg; _ ← check_that available ValueError;
  _ ← check_that (has_key cfg "connection_string" || has_key cfg "target") ValueError;
  match py_or (dict_get cfg "connection_string" PNone) (dict_get cfg "target" PNone) with
  | PStr s => match urlsplit s with
              | Ok parsed => check_that (bool_decide (scheme parsed ∈ schemes)) ValueError
              | Raise _ => Raise ValueError
              end
  | _ => Raise ValueError
  end.
Definition mysql_valid `{Drivers} : pydict -> res unit := database_valid aiomysql_available ["mysql"; "mariadb"].
Definition postgres_valid `{Drivers} : pydict -> res unit := database_valid asyncpg_available ["postgres"; "postgresql"].
Definition synthetic_valid (cfg : pydict) : res unit :=
  _ ← base_valid cfg; check_that (truthy (dict_get cfg "script_code" PNone)) ValueError.

(** The registry main.py fills, and the class's constructor. *)
Definition check_class `{Drivers} (check_type : string) : option (pydict -> res unit) :=
  assoc_get [("dns", dns_valid); ("http", http_valid); ("mysql", mysql_valid); ("ping", ping_valid);
             ("postgres", postgres_valid); ("tcp", tcp_valid); ("json", json_valid); ("synthetic", synthetic_valid)] check_type.

(** ** [load_checks]

    The body of the loop: the check made of one entry, if it is made at all; an
    exception is logged. *)
Definition load_one `{Drivers} (check_cfg : pydict) : option pydict :=
  match py_or (dict_get check_cfg "check_type" PNone) PNone with
  | PStr check_type =>
      if String.eqb check_type "internal" then None else
      match check_class check_type with
      | None => None
      | Some valid =>
          match (cfg ← transform_check_config check_cfg check_type;
                 if truthy (dict_get cfg "enabled" PNone) then _ ← valid cfg; Ok (Some cfg) else Ok None) with
          | Ok made => made
          | Raise _ => None
          end
      end
  | _ => None
  end.

(** The entries fetched, else the cached ones; what was fetched is cached. *)
Definition load_checks `{Drivers} (fetched : option (list pydict)) (cache : list pydict) : list pydict * list pydict :=
  match fetched with
  | Some entries => (omap load_one entries, entries)
  | None => (omap load_one cache, cache)
  end.

(** ** agent/core.py: the loop of [run] *)

Definition check_name (cfg : pydict) : string :=
  match dict_get cfg "name" (PStr "unnamed_check") with PStr s => s | _ => "None" end.

(** [now - last_run >= interval] *)
Definition interval_due (interval : pyval) (elapsed : Z) : res bool :=
  match interval with
  | PInt seconds => Ok (seconds * us_per_second <=? elapsed)%Z
  | PBool b => Ok (Z.b2z b * us_per_second <=? elapsed)%Z
  | _ => Raise TypeError
  end.

(** One pass over the checks: the runs it starts, and when each name last ran. *)
Definition start_due (default_interval : Z) (now : instant) (st : gmap string instant * list pydict) (check : pydict)
    : res (gmap string instant * list pydict) :=
  let '(last_run, started) := st in
  let name := check_name check in
  let last_run := match last_run !! name with Some _ => last_run | None => <[name := 0%Z]> last_run end in
  is_due ← interval_due (dict_get check "interval" (PInt default_interval)) (now - default 0 (last_run !! name))%Z;
  Ok (if (is_due : bool) then (<[name := now]> last_run, started ++ [check]) else (last_run, started)).

Definition pass (default_interval : Z) (now : instant) (last_run : gmap string instant) (checks : list pydict)
    : res (gmap string instant * list pydict) :=
  fold_res (start_due default_interval now) (last_run, []) checks.

(** The loop over its passes, each with the time it reads and the checks it has; an
    exception ends it, and the agent with it. *)
Fixpoint run_loop (default_interval : Z) (last_run : gmap string instant) (passes : list (instant * list pydict))
    : list (instant * list pydict) * res (gmap string instant) :=
  match passes with
  | [] => ([], Ok last_run)
  | (now, checks) :: rest =>
      match pass default_interval now last_run checks with
      | Raise e => ([], Raise e)
      | Ok (last_run, started) =>
          let '(log, r) := run_loop default_interval last_run rest in ((now, started) :: log, r)
      end
  end.

(** ** agent/check_executor.py *)

(** What check.run() comes to, within its timeout. *)
Record check_output := Output {
  out_success : bool; out_latency_ms : pyval; out_error : option string; out_metrics : pyval; out_fields : pydict }.
Inductive outcome :=
  | Completed (o : check_output)
  | Misconfigured (reason : string)     (* CheckConfigError *)
  | TimedOut                            (* TimeoutError *)
  | Blocked (reason : string)           (* SsrfBlockedError *)
  | Crashed (reason : string).          (* any other exception *)

(** One attempt: the sleep before it, the wait for its slot, how long it holds the
    slot, and what it comes to. *)
Record trial := Trial { tr_slept : Z; tr_waited : Z; tr_lasted : Z; tr_outcome : outcome }.

Record run_limits := Limits { li_timeout : Z; li_retries : nat; li_retry_interval : Z; li_interval : Z }.

(** [float(v)] of a whole number of seconds *)
Definition seconds (v : pyval) : res Z :=
  match v with
  | PInt z => Ok (z * us_per_second)%Z
  | PBool b => Ok (Z.b2z b * us_per_second)%Z
  | _ => Raise TypeError
  end.

(** The numbers [run_check] reads of the configuration. *)
Definition limits_of (cfg : pydict) : res run_limits :=
  timeout ← seconds (py_or (dict_get cfg "timeout" PNone) (PInt 10));
  retries ← py_int (py_or (dict_get cfg "retry_attempts" PNone) (PInt 0));
  retry_interval ← seconds (dict_get cfg "retry_interval" (PInt 30));
  interval ← seconds (py_or (dict_get cfg "interval" PNone) (PInt 60));
  Ok (Limits timeout (Z.to_nat retries) retry_interval interval).

Definition failure (error : string) : check_output := Output false PNone (Some error) PNone [].

(** The last configuration error logged of each check. *)
Definition note_config_error (errors : gmap string string) (key : string) (o : outcome)
    : gmap string string * list string :=
  match o with
  | Completed _ => (delete key errors, [])
  | Misconfigured reason =>
      if bool_decide (errors !! key = Some reason) then (errors, []) else (<[key := reason]> errors, [reason])
  | _ => (errors, [])
  end.

Definition output_of (o : outcome) : check_output :=
  match o with
  | Completed out => out
  | Misconfigured reason => failure ("Invalid configuration: " +:+ reason)
  | TimedOut => failure "timeout"
  | Blocked reason => failure reason
  | Crashed reason => failure reason
  end.

(** An attempt as it went: when it began and ended. *)
Record attempt := Attempt { at_begun : instant; at_ended : instant; at_outcome : outcome }.

(** [_run], in its slot from [begun]: the attempt, and the longest so far. *)
Definition run_once (l : run_limits) (longest : Z) (begun : instant) (t : trial) : attempt * Z :=
  (Attempt begun (begun + tr_lasted t)%Z (tr_outcome t), Z.max (Z.max longest (li_timeout l)) (tr_lasted t)).

(** The retries left, from the end of the last attempt. *)
Fixpoint retry (l : run_limits) (next_run : instant) (longest : Z) (last : attempt) (trials : nat -> trial) (n more : nat)
    : list attempt :=
  match more with
  | O => []
  | S more =>
      if out_success (output_of (at_outcome last)) then [] else
      if (next_run <? at_ended last + li_retry_interval l + longest)%Z then [] else
      let t := trials n in
      let begun := (at_ended last + tr_slept t + tr_waited t)%Z in
      if (next_run <? begun + longest)%Z then [] else
      let '(a, longest') := run_once l longest begun t in
      a :: retry l next_run longest' a trials (S n) more
  end.

(** The attempts of a run that starts at [started]. *)
Definition attempts_of (l : run_limits) (started : instant) (trials : nat -> trial) : list attempt :=
  let '(a, longest) := run_once l 0 (started + tr_waited (trials 0%nat))%Z (trials 0) in
  a :: retry l (started + li_interval l)%Z longest a trials 1 (li_retries l).

(** What the run reports. *)
Record run_result := RunResult {
  rr_check_id : pyval; rr_name : string; rr_result_id : uuid; rr_agent_id : string; rr_agent_run_id : string;
  rr_timestamp : instant; rr_output : check_output; rr_attempts : nat }.

Record counts := Counts { total_runs : N; successes : N; failures : N }.
#[global] Instance counts_eq_dec : EqDecision counts.
Proof. solve_decision. Defined.

Record executor := Executor {
  ex_executed : N; ex_succeeded : N; ex_failed : N; ex_queue_max : N;
  ex_stats : gmap string counts;          (* check_stats, its latency totals left out *)
  ex_errors : gmap string string;         (* _config_errors *)
  ex_warned : list string;                (* the configuration errors logged *)
  ex_last_state : gmap string run_result;
  ex_queue : list run_result }.

(** [result["metrics"]]: what the check measured, and how often it was tried. *)
Definition with_attempts (o : check_output) (attempts : nat) : check_output :=
  Output (out_success o) (out_latency_ms o) (out_error o)
    (PDict (dict_set (match out_metrics o with PDict m => m | _ => [] end) "attempts" (PInt (Z.of_nat attempts)))) (out_fields o).

(** [_record]: [ex_stats] has an entry for every loaded check. *)
Definition record (e : executor) (r : run_result) : res executor :=
  match ex_stats e !! rr_name r with
  | None => Raise KeyError
  | Some c =>
      let ok := out_success (rr_output r) in
      let c' := Counts (total_runs c + 1) (successes c + (if ok then 1 else 0)) (failures c + (if ok then 0 else 1)) in
      let queue := ex_queue e ++ [r] in
      Ok (Executor (ex_executed e + 1) (ex_succeeded e + (if ok then 1 else 0)) (ex_failed e + (if ok then 0 else 1))
            (N.max (ex_queue_max e) (N.of_nat (length queue))) (<[rr_name r := c']> (ex_stats e)) (ex_errors e) (ex_warned e)
            (<[rr_name r := r]> (ex_last_state e)) queue)
  end.

Definition note_errors (e : executor) (key : string) (outcomes : list outcome) : executor :=
  fold_left (fun e o => let '(errors, warned) := note_config_error (ex_errors e) key o in
    Executor (ex_executed e) (ex_succeeded e) (ex_failed e) (ex_queue_max e) (ex_stats e) errors (ex_warned e ++ warned)
      (ex_last_state e) (ex_queue e)) outcomes e.

(** [run_check]: [agent_id] is str(config.get('agent_id', 'unknown')), [wall] is time.time() and [started] time.monotonic() at its start. *)
Definition run_check (e : executor) (agent_id run_id : string) (cfg : pydict) (result_id : uuid)
    (wall started : instant) (trials : nat -> trial) : res executor :=
  l ← limits_of cfg;
  let attempts := attempts_of l started trials in
  let key := match dict_get cfg "check_id" PNone with PStr s => s | _ => "None" end in
  let e := note_errors e key (map at_outcome attempts) in
  let out := output_of (at_outcome (List.last attempts (Attempt started started TimedOut))) in
  record e (RunResult (dict_get cfg "check_id" PNone) (check_name cfg) result_id agent_id run_id wall
              (with_attempts out (length attempts)) (length attempts)).
