(* ===== verification/AgentRunTheorems.v ===== *)
(** * AgentRunTheorems

    What reaches an agent of a check and how the agent runs it: the fields served
    arrive; checks of distinct names run as independent timers; a run retries only
    while it can end before the next, stops at its first success and is reported
    once.  And where it does not: a check without an interval ends the agent, a
    second check of the same name never runs, a JSON check's verify_ssl is lost. *)

From S2P Require Import Prelude Py Text Url Store Checks AgentRun.

(** ** Reading what was copied *)

Lemma dict_get_other (d : pydict) k v k' v0 : k' <> k -> dict_get (dict_set d k v) k' v0 = dict_get d k' v0.
Proof. intros Hk. unfold dict_get. rewrite assoc_get_set. by rewrite decide_False. Qed.

Lemma copy_set_other src cfg kk k v0 : k <> kk.2 -> dict_get (copy_set src cfg kk) k v0 = dict_get cfg k v0.
Proof. intros Hk. unfold copy_set. destruct (dict_get src kk.1 PNone); try done; by apply dict_get_other. Qed.

Lemma copy_set_same src cfg kk : dict_get cfg kk.2 PNone = PNone ->
  dict_get (copy_set src cfg kk) kk.2 PNone = dict_get src kk.1 PNone.
Proof.
  intros Hc. unfold copy_set, dict_get in *. destruct (default PNone (assoc_get src kk.1)) eqn:E; try done;
    rewrite assoc_get_set; by destruct (decide _).
Qed.

Lemma copied_other src l cfg k v0 : k ∉ map snd l -> dict_get (fold_left (copy_set src) l cfg) k v0 = dict_get cfg k v0.
Proof.
  revert cfg. induction l as [|kk l IH]; intros cfg Hk; cbn [fold_left map] in *; [done|].
  apply not_elem_of_cons in Hk as [Hk Hl]. rewrite IH by done. by apply copy_set_other.
Qed.

Lemma copied_same src l cfg kk : kk ∈ l -> NoDup (map snd l) -> (forall x, x ∈ l -> dict_get cfg x.2 PNone = PNone) ->
  dict_get (fold_left (copy_set src) l cfg) kk.2 PNone = dict_get src kk.1 PNone.
Proof.
  revert cfg. induction l as [|x l IH]; intros cfg Hin Hnd Hc; cbn [fold_left map] in *; [by apply elem_of_nil in Hin|].
  apply NoDup_cons in Hnd as [Hx Hnd]. apply elem_of_cons in Hin as [->|Hin].
  - rewrite copied_other by done. apply copy_set_same, Hc. left.
  - apply IH; [done|done|]. intros y Hy. rewrite copy_set_other; [apply Hc; by right|].
    intros E. apply Hx. rewrite <- E. by apply list_elem_of_fmap_2.
Qed.

Lemma rpartition_join c s a b : rpartition c s = (a, true, b) -> s = a +:+ String c b.
Proof.
  revert a b. induction s as [|x s IH]; intros a b; cbn; [done|].
  destruct (rpartition c s) as [[a' [|]] b'] eqn:E.
  - intros [= <- <-]. by rewrite (IH a' b').
  - destruct (Ascii.eqb x c) eqn:X; [|done]. apply Ascii.eqb_eq in X as ->. by intros [= <- <-].
Qed.

Section Loading.
Context `{Drivers}.

(** A check that loads came through its transformation, enabled and valid. *)
Lemma load_one_inv e cfg : load_one e = Some cfg -> exists t valid, dict_get e "check_type" PNone = PStr t
  /\ check_class t = Some valid /\ transform_check_config e t = Ok cfg /\ truthy (dict_get cfg "enabled" PNone) = true
  /\ valid cfg = Ok tt.
Proof.
  unfold load_one. destruct (py_or (dict_get e "check_type" PNone) PNone) as [| | | |t| |] eqn:Et; try done.
  destruct (String.eqb t "internal"); [done|]. destruct (check_class t) as [valid|] eqn:Ec; [|done].
  destruct (transform_check_config e t) as [c|] eqn:Er; cbn; [|done].
  destruct (truthy (dict_get c "enabled" PNone)) eqn:Hen; cbn; [|done].
  destruct (valid c) as [[]|] eqn:Ev; cbn; [|done]. intros [= ->]. exists t, valid. split_and!; try done.
  unfold py_or in Et. by destruct (truthy _).
Qed.

(** Reading a TCP check's port changes its target and port only. *)
Lemma tcp_keeps e t cfg k v0 c : (if String.eqb t "tcp" then tcp_target e cfg else Ok cfg) = Ok c ->
  k <> "target" -> k <> "port" -> dict_get c k v0 = dict_get cfg k v0.
Proof.
  destruct (String.eqb t "tcp"); [|by intros [= ->]]. unfold tcp_target.
  destruct (dict_get e "target" (PStr "")) as [| | | |s| |];
    try (destruct (py_in _ _) as [[|]|]; try done; by intros [= ->]).
  destruct (rpartition ":" s) as [[host [|]] port]; [|by intros [= ->]].
  destruct (int_of_text port) as [z|x]; [intros [= <-] Ht Hp; by rewrite !dict_get_other|].
  destruct x; try done. by intros [= ->].
Qed.

(** What the transformation keeps, whatever the type: no later step touches it. *)
Lemma transform_keeps e t cfg k v0 : transform_check_config e t = Ok cfg ->
  k ∉ map snd COPIED -> k <> "target" -> k <> "port" -> k <> "verify_ssl" ->
  dict_get cfg k v0 = dict_get
    [("check_id", dict_get e "id" PNone); ("name", dict_get e "display_name" PNone);
     ("check_type", PStr t); ("target", dict_get e "target" PNone);
     ("interval", dict_get e "interval_seconds" (PInt 60));
     ("timeout", py_or (dict_get e "timeout_seconds" PNone) (PInt 5));
     ("enabled", dict_get e "enabled" (PBool true));
     ("retry_attempts", py_or (dict_get e "retry_attempts" PNone) (PInt 0));
     ("retry_interval", py_or (dict_get e "retry_interval_seconds" PNone) (PInt 30))] k v0.
Proof.
  unfold transform_check_config. intros Ht Hc Htg Hp Hv.
  set (base := [("check_id", _); _; _; _; _; _; _; _; _]) in *. set (cfg1 := fold_left (copy_set e) COPIED base) in *.
  pose proof (tcp_keeps e t cfg1 k v0) as Htcp.
  destruct (if String.eqb t "tcp" then _ else _) as [c|]; cbn [mbind res_bind] in Ht; [|done].
  specialize (Htcp c eq_refl ltac:(done) ltac:(done)). injection Ht as <-.
  destruct (String.eqb t "dns"), (String.eqb t "http"); rewrite ?copy_set_other by done; rewrite Htcp; unfold cfg1;
    by rewrite copied_other.
Qed.

(** The fields of [COPIED] arrive under the agent's names. *)
Lemma transform_copies e t cfg kk : transform_check_config e t = Ok cfg -> kk ∈ COPIED ->
  dict_get cfg kk.2 PNone = dict_get e kk.1 PNone.
Proof.
  unfold transform_check_config. intros Ht Hk.
  set (base := [("check_id", _); _; _; _; _; _; _; _; _]) in *. set (cfg1 := fold_left (copy_set e) COPIED base) in *.
  assert (kk.2 <> "target" /\ kk.2 <> "port" /\ kk.2 <> "verify_ssl") as (H1 & H2 & H3).
  { repeat (apply elem_of_cons in Hk as [->|Hk]; [by cbn|]). by apply elem_of_nil in Hk. }
  pose proof (tcp_keeps e t cfg1 kk.2 PNone) as Htcp.
  destruct (if String.eqb t "tcp" then _ else _) as [c|]; cbn [mbind res_bind] in Ht; [|done].
  specialize (Htcp c eq_refl ltac:(done) ltac:(done)). injection Ht as <-.
  destruct (String.eqb t "dns"), (String.eqb t "http"); rewrite ?copy_set_other by done; rewrite Htcp; unfold cfg1;
    apply copied_same; try done;
    try (apply (bool_decide_unpack _); by vm_compute);
    intros x Hx; repeat (apply elem_of_cons in Hx as [->|Hx]; [done|]); by apply elem_of_nil in Hx.
Qed.

(** The target of any but a TCP check. *)
Lemma target_kept e t cfg : transform_check_config e t = Ok cfg -> t <> "tcp" ->
  dict_get cfg "target" PNone = dict_get e "target" PNone.
Proof.
  unfold transform_check_config. intros Ht Hn. rewrite (proj2 (String.eqb_neq t "tcp")) in Ht by done.
  set (base := [("check_id", _); _; _; _; _; _; _; _; _]) in *. set (cfg1 := fold_left (copy_set e) COPIED base) in *.
  cbn [mbind res_bind] in Ht. injection Ht as <-. destruct (String.eqb t "dns"), (String.eqb t "http"); rewrite ?copy_set_other by done;
    unfold cfg1; (rewrite copied_other; [done|apply (bool_decide_unpack _); by vm_compute]).
Qed.

Lemma copied_absent src l cfg k : k ∉ map snd l -> assoc_get (fold_left (copy_set src) l cfg) k = assoc_get cfg k.
Proof.
  revert cfg. induction l as [|kk l IH]; intros cfg Hk; cbn [fold_left map] in *; [done|].
  apply not_elem_of_cons in Hk as [Hk Hl]. rewrite IH by done. unfold copy_set.
  destruct (dict_get src kk.1 PNone); try done; rewrite assoc_get_set; by rewrite decide_False.
Qed.

(** A TCP check: its port, and nothing after it. *)
Lemma transform_tcp e cfg : transform_check_config e "tcp" = Ok cfg ->
  exists cfg1, assoc_get cfg1 "port" = None /\ tcp_target e cfg1 = Ok cfg.
Proof.
  unfold transform_check_config. set (base := [("check_id", _); _; _; _; _; _; _; _; _]).
  set (cfg1 := fold_left (copy_set e) COPIED base). intros Ht. exists cfg1. split.
  - unfold cfg1. rewrite copied_absent; [done|apply (bool_decide_unpack _); by vm_compute].
  - clearbody cfg1. cbn [String.eqb Ascii.eqb Bool.eqb] in Ht. by destruct (tcp_target e cfg1).
Qed.

(** A TCP check that loads: its target was a host and a port. *)
Lemma tcp_split e cfg target : transform_check_config e "tcp" = Ok cfg -> tcp_valid cfg = Ok tt ->
  dict_get e "target" (PStr "") = PStr target ->
  exists host port z, target = host +:+ ":" +:+ port /\ int_of_text port = Ok z
        /\ (1 <= z <= 65535)%Z /\ dict_get cfg "target" PNone = PStr host /\ dict_get cfg "port" PNone = PInt z.
Proof.
  intros Ht Hv He. apply transform_tcp in Ht as (cfg1 & Hp & Htc). unfold tcp_target in Htc. rewrite He in Htc.
  assert (Habs : cfg = cfg1 -> False).
  { intros ->. unfold tcp_valid, base_valid, has_key in Hv. rewrite Hp in Hv.
    rewrite (bool_decide_eq_false_2 (None <> None)) in Hv by (by intros []). cbn [check_that] in Hv.
    destruct (check_that _ _); done. }
  destruct (rpartition ":" target) as [[host [|]] port] eqn:Er; [|injection Htc as <-; by destruct (Habs eq_refl)].
  apply rpartition_join in Er as ->.
  destruct (int_of_text port) as [z|x] eqn:Ez; [|destruct x; try done; injection Htc as <-; by destruct (Habs eq_refl)].
  injection Htc as <-. exists host, port, z.
  assert (dict_get (dict_set (dict_set cfg1 "target" (PStr host)) "port" (PInt z)) "port" PNone = PInt z) as Hport.
  { unfold dict_get. rewrite assoc_get_set. by destruct (decide _). }
  split_and!; try done.
  - unfold tcp_valid in Hv. destruct (base_valid _); cbn [mbind res_bind] in Hv; [|done].
    destruct (check_that (has_key _ _) _); cbn [mbind res_bind] in Hv; [|done].
    rewrite Hport in Hv. unfold check_that in Hv. destruct (_ && _)%Z eqn:E; [|done]. lia.
  - unfold tcp_valid in Hv. destruct (base_valid _); cbn [mbind res_bind] in Hv; [|done].
    destruct (check_that (has_key _ _) _); cbn [mbind res_bind] in Hv; [|done].
    rewrite Hport in Hv. unfold check_that in Hv. destruct (_ && _)%Z eqn:E; [|done]. lia.
  - rewrite dict_get_other by done. unfold dict_get. rewrite assoc_get_set. by destruct (decide _).
Qed.

(** A field copied after the common ones: as sent, or left out where it is null. *)
Lemma copied_last e cfg1 k d : assoc_get cfg1 k = None ->
  dict_get (copy_set e cfg1 (k, k)) k d = match dict_get e k PNone with PNone => d | v => v end.
Proof.
  intros Hn. unfold copy_set. cbn [fst snd].
  destruct (dict_get e k PNone); unfold dict_get; rewrite ?assoc_get_set, ?decide_True by done; by rewrite ?Hn.
Qed.

Lemma transform_tail e t cfg : transform_check_config e t = Ok cfg -> exists cfg1,
  (forall k, k ∈ ["verify_ssl"; "port"] -> assoc_get cfg1 k = None) /\
  (cfg2 ← (if String.eqb t "tcp" then tcp_target e cfg1 else Ok cfg1);
   let cfg3 := if String.eqb t "http" then copy_set e cfg2 ("verify_ssl", "verify_ssl") else cfg2 in
   Ok (if String.eqb t "dns" then copy_set e cfg3 ("port", "port") else cfg3)) = Ok cfg.
Proof.
  unfold transform_check_config. intros Ht. eexists. split; [|exact Ht].
  intros k Hk. apply elem_of_cons in Hk as [->|Hk%list_elem_of_singleton]; [|subst k];
    (rewrite copied_absent; [done|apply (bool_decide_unpack _); by vm_compute]).
Qed.

Lemma transform_last e t cfg d : transform_check_config e t = Ok cfg ->
  (t = "http" -> dict_get cfg "verify_ssl" d = match dict_get e "verify_ssl" PNone with PNone => d | v => v end) /\
  (t = "dns" -> dict_get cfg "port" d = match dict_get e "port" PNone with PNone => d | v => v end).
Proof.
  intros (cfg1 & Hk & Ht)%transform_tail. split; intros ->; cbn [String.eqb Ascii.eqb Bool.eqb mbind res_bind] in Ht;
    injection Ht as <-; apply copied_last, Hk; [left|right; left].
Qed.

(** C28: A check served to an agent runs there as it is stored: an object that loads
    carries the check's id, name and interval, its timeout and retries (or the
    agent's defaults), its script, each type-specific field of [COPIED], an HTTP
    check's verify_ssl and a DNS check's port (where set), and the target, from
    which a TCP check has taken a port between 1 and 65535.  (A JSON check's
    verify_ssl is left behind: [json_verify_ssl_dropped].) *)
Theorem served_check_arrives c label cfg : load_one (to_response c label) = Some cfg ->
  dict_get cfg "check_id" PNone = PStr (uuid_str (ck_id c)) /\ check_name cfg = ck_display_name c
  /\ dict_get cfg "check_type" PNone = PStr (ck_type c) /\ ck_enabled c = true
  /\ dict_get cfg "interval" PNone = opt_int (ck_interval c)
  /\ dict_get cfg "timeout" PNone = py_or (column c "timeout_seconds") (PInt 5)
  /\ dict_get cfg "retry_attempts" PNone = py_or (column c "retry_attempts") (PInt 0)
  /\ dict_get cfg "retry_interval" PNone = py_or (column c "retry_interval_seconds") (PInt 30)
  /\ dict_get cfg "script_code" PNone = opt_str (ck_script c)
  /\ (forall k k', (k, k') ∈ COPIED -> k <> "script_code" -> dict_get cfg k' PNone = config_property c k)
  /\ (forall d, ck_type c = "http" ->
        dict_get cfg "verify_ssl" d = match config_property c "verify_ssl" with PNone => d | v => v end)
  /\ (forall d, ck_type c = "dns" -> dict_get cfg "port" d = match config_property c "port" with PNone => d | v => v end)
  /\ (ck_type c <> "tcp" -> dict_get cfg "target" PNone = PStr (ck_target c))
  /\ (ck_type c = "tcp" -> exists host port z, ck_target c = host +:+ ":" +:+ port /\ int_of_text port = Ok z
        /\ (1 <= z <= 65535)%Z /\ dict_get cfg "target" PNone = PStr host /\ dict_get cfg "port" PNone = PInt z).
Proof.
  intros Hl. apply load_one_inv in Hl as (t & valid & Ht & Hcl & Htr & Hen & Hv).
  change (PStr (ck_type c) = PStr t) in Ht. injection Ht as <-.
  pose proof (fun k v0 => transform_keeps _ _ _ k v0 Htr) as Hk.
  pose proof (fun kk => transform_copies _ _ _ kk Htr) as Hc.
  split_and!.
  - rewrite Hk; [done|apply (bool_decide_unpack _); by vm_compute|done..].
  - unfold check_name. rewrite Hk; [done|apply (bool_decide_unpack _); by vm_compute|done..].
  - rewrite Hk; [done|apply (bool_decide_unpack _); by vm_compute|done..].
  - rewrite Hk in Hen; [|apply (bool_decide_unpack _); by vm_compute|done..]. cbn in Hen. by destruct (ck_enabled c).
  - rewrite Hk; [done|apply (bool_decide_unpack _); by vm_compute|done..].
  - rewrite Hk; [done|apply (bool_decide_unpack _); by vm_compute|done..].
  - rewrite Hk; [done|apply (bool_decide_unpack _); by vm_compute|done..].
  - rewrite Hk; [done|apply (bool_decide_unpack _); by vm_compute|done..].
  - change "script_code" with (("script_code", "script_code") : string * string).2.
    rewrite Hc; [done|apply (bool_decide_unpack _); by vm_compute].
  - intros k k' Hin Hs. change k' with ((k, k').2). rewrite Hc by done. cbn [fst].
    repeat (apply elem_of_cons in Hin as [[= -> ->]|Hin]; [done|]). by apply elem_of_nil in Hin.
  - intros d Et. apply (transform_last _ _ _ d) in Htr as [Hv' _]. by rewrite (Hv' Et).
  - intros d Et. apply (transform_last _ _ _ d) in Htr as [_ Hp]. by rewrite (Hp Et).
  - intros Hn. by apply target_kept in Htr.
  - intros Et. rewrite Et in Hcl, Htr. injection Hcl as <-. by eapply tcp_split.
Qed.
End Loading.

(** ** The loop *)

Definition int_interval (c : pydict) (i : Z) : Prop := forall d, dict_get c "interval" d = PInt i.
Definition all_ints (checks : list pydict) : Prop := forall c, c ∈ checks -> exists i, int_interval c i.

Lemma start_due_int d now lr started c i : int_interval c i ->
  start_due d now (lr, started) c = Ok
    (if (i * us_per_second <=? now - default 0 (lr !! check_name c))%Z
     then (<[check_name c := now]> lr, started ++ [c])
     else (match lr !! check_name c with Some _ => lr | None => <[check_name c := 0%Z]> lr end, started)).
Proof.
  intros Hi. unfold start_due. rewrite Hi. cbn [interval_due mbind res_bind].
  destruct (lr !! check_name c) as [v|] eqn:E; rewrite ?E; [done|]. rewrite lookup_insert_eq. cbn [default id].
  destruct (_ <=? _)%Z; [|done]. by rewrite insert_insert_eq.
Qed.

(** A pass over other names leaves a name's time, and starts none of its checks. *)
Lemma pass_other d now checks name : (forall x, x ∈ checks -> check_name x <> name) -> all_ints checks ->
  forall lr started, exists lr' more, fold_res (start_due d now) (lr, started) checks = Ok (lr', started ++ more)
    /\ lr' !! name = lr !! name /\ (forall x, x ∈ more -> x ∈ checks).
Proof.
  induction checks as [|c checks IH]; intros Hn Hint lr started; cbn [fold_res].
  { exists lr, []. by rewrite app_nil_r. }
  destruct (Hint c) as [i Hi]; [left|]. rewrite (start_due_int _ _ _ _ _ i) by done. cbn [mbind res_bind].
  assert (check_name c <> name) as Hc by (apply Hn; left).
  assert (forall lr1 s1, exists lr' more, fold_res (start_due d now) (lr1, s1) checks = Ok (lr', s1 ++ more)
    /\ lr' !! name = lr1 !! name /\ (forall x, x ∈ more -> x ∈ checks)) as IH'.
  { intros lr1 s1. apply IH; [intros x Hx; apply Hn; by right|intros x Hx; apply Hint; by right]. }
  destruct (_ <=? _)%Z.
  - destruct (IH' (<[check_name c:=now]> lr) (started ++ [c])) as (lr' & more & E & El & Em). rewrite E, <- app_assoc.
    exists lr', ([c] ++ more). split_and!; [done|by rewrite El, lookup_insert_ne|].
    intros x [->|Hx]%elem_of_cons; [left|right; by apply Em].
  - destruct (IH' (match lr !! check_name c with Some _ => lr | None => <[check_name c := 0%Z]> lr end) started) as (lr' & more & E & El & Em).
    rewrite E. exists lr', more. split_and!; [done| |intros x Hx; right; by apply Em].
    rewrite El. destruct (lr !! check_name c); [done|by rewrite lookup_insert_ne].
Qed.

(** A check alone on a timer: when it runs, of the times the loop passes. *)
Fixpoint timer (interval : Z) (last : instant) (times : list instant) : list instant :=
  match times with
  | [] => []
  | t :: rest => if (interval * us_per_second <=? t - last)%Z then t :: timer interval t rest else timer interval last rest
  end.

(** The passes at which the loop ran the check. *)
Definition starts (c : pydict) (log : list (instant * list pydict)) : list instant :=
  omap (fun p => if bool_decide (c ∈ p.2) then Some p.1 else None) log.

(** In each pass, [c] is there and alone of its name. *)
Definition alone (c : pydict) (checks : list pydict) : Prop :=
  exists before later, checks = before ++ c :: later /\ all_ints checks
    /\ forall x, x ∈ before ++ later -> check_name x <> check_name c.

Lemma pass_alone d now lr checks c i : alone c checks -> int_interval c i ->
  exists lr' started, pass d now lr checks = Ok (lr', started)
    /\ bool_decide (c ∈ started) = (i * us_per_second <=? now - default 0 (lr !! check_name c))%Z
    /\ default 0%Z (lr' !! check_name c)
       = if (i * us_per_second <=? now - default 0 (lr !! check_name c))%Z then now else default 0%Z (lr !! check_name c).
Proof.
  intros (before & later & -> & Hint & Hn) Hi. unfold pass. rewrite fold_res_app.
  destruct (pass_other d now before (check_name c)) with (lr := lr) (started := @nil pydict) as (lr1 & m1 & E1 & L1 & M1).
  { intros x Hx. apply Hn, elem_of_app. by left. }
  { intros x Hx. apply Hint, elem_of_app. by left. }
  rewrite E1. cbn [mbind res_bind fold_res app]. rewrite (start_due_int _ _ _ _ _ i) by done. rewrite L1. cbn [mbind res_bind].
  assert (forall m : list pydict, (forall x, x ∈ m -> x ∈ before) \/ (forall x, x ∈ m -> x ∈ later) -> c ∉ m) as Hnot.
  { intros m Hm Hc. apply (Hn c); [|done]. apply elem_of_app. destruct Hm as [Hm|Hm]; [left|right]; by apply Hm. }
  assert (forall lr2 s2, exists lr' m2, fold_res (start_due d now) (lr2, s2) later = Ok (lr', s2 ++ m2)
    /\ lr' !! check_name c = lr2 !! check_name c /\ (forall x, x ∈ m2 -> x ∈ later)) as Hl.
  { apply pass_other; [intros x Hx; apply Hn, elem_of_app; by right|].
    intros x Hx. apply Hint, elem_of_app. right. by right. }
  destruct (_ <=? _)%Z.
  - destruct (Hl (<[check_name c:=now]> lr1) (m1 ++ [c])) as (lr' & m2 & E2 & L2 & M2). exists lr', ((m1 ++ [c]) ++ m2).
    split; [done|]. rewrite L2, lookup_insert_eq. split; [|done]. apply bool_decide_eq_true. set_solver.
  - destruct (Hl (match lr1 !! check_name c with Some _ => lr1 | None => <[check_name c := 0%Z]> lr1 end) m1) as (lr' & m2 & E2 & L2 & M2).
    exists lr', (m1 ++ m2). rewrite L1 in E2, L2. split; [done|]. split.
    + apply bool_decide_eq_false. rewrite elem_of_app. intros [Hc|Hc]; revert Hc; apply Hnot; auto.
    + rewrite L2. destruct (lr !! check_name c) eqn:E; [by rewrite L1|by rewrite lookup_insert_eq].
Qed.

(** C11: Checks of distinct names do not disturb one another: while every check the
    agent holds has an integer interval (one without ends the loop), a check that
    stays on the list, alone of its name, is started exactly when a timer of its own
    would start it, an interval or more after its last start, at the first pass of
    the loop from then on, whatever other checks the list holds at each pass. *)
Theorem loop_is_timers d lr passes c i : (forall p, p ∈ passes -> alone c p.2) -> int_interval c i ->
  exists lr', (run_loop d lr passes).2 = Ok lr'
    /\ starts c (run_loop d lr passes).1 = timer i (default 0%Z (lr !! check_name c)) (map fst passes).
Proof.
  intros Hp Hi. revert lr. induction passes as [|[now checks] passes IH]; intros lr; cbn [run_loop map fst timer]; [by eexists|].
  destruct (pass_alone d now lr checks c i) as (lr1 & started & -> & Hs & Hl); [apply (Hp (now, checks)); left|done|].
  destruct (IH ltac:(intros p Hx; apply Hp; by right) lr1) as (lr' & E & Est).
  destruct (run_loop d lr1 passes) as [log r]. cbn in E, Est |- *. exists lr'. split; [done|].
  unfold starts in *. cbn. rewrite Hs, Est, Hl. by destruct (_ <=? _)%Z.
Qed.

(** The timer keeps its interval, and is late by less than one step of the loop. *)
Lemma timer_cadence i step last prev times : (0 < i)%Z -> (last <= prev)%Z -> (prev - last < i * us_per_second)%Z ->
  adjacent (fun a b => a <= b <= a + step)%Z (prev :: times) ->
  adjacent (fun a b => i * us_per_second <= b - a < i * us_per_second + step)%Z (last :: timer i last times).
Proof.
  intros Hi. revert last prev. induction times as [|t times IH]; intros last prev Hlp Hlt Ha; cbn [timer].
  { apply adjacent_cons. split; [done|apply adjacent_nil]. }
  apply adjacent_cons in Ha as [Ht Ha]. specialize (Ht t times eq_refl).
  destruct (_ <=? _)%Z eqn:E.
  - apply adjacent_cons. split; [intros y l' [= <- _]; lia|].
    apply (IH t t); [lia| |done]. unfold us_per_second. lia.
  - apply (IH last t); [lia| |done]. lia.
Qed.

(** So a check that keeps its name to itself runs at the loop's first pass and
    then forever, every interval: never early, and late by less than one step of the
    loop. *)
Theorem checks_keep_their_cadence d t0 passes c i step : (forall p, p ∈ passes -> alone c p.2) -> int_interval c i ->
  (0 < i)%Z -> head (map fst passes) = Some t0 -> (i * us_per_second <= t0)%Z ->
  adjacent (fun a b => a <= b <= a + step)%Z (map fst passes) ->
  exists later, starts c (run_loop d ∅ passes).1 = t0 :: later
    /\ adjacent (fun a b => i * us_per_second <= b - a < i * us_per_second + step)%Z (t0 :: later).
Proof.
  intros Hp Hint Hi Hh Ht0 Ha. destruct (loop_is_timers d ∅ passes c i Hp Hint) as (lr' & _ & ->).
  rewrite lookup_empty. cbn [default]. destruct (map fst passes) as [|t times]; [done|]. injection Hh as ->. cbn [timer].
  rewrite (proj2 (Z.leb_le _ _)) by lia. eexists. split; [done|].
  apply (timer_cadence i step t0 t0); [done|lia|unfold us_per_second; lia|done].
Qed.

(** ** Divergences of the loop *)

(** A name's time is recent: less than [i] seconds old. *)
Definition recent_run (now : instant) (name : string) (i : Z) (lr : gmap string instant) : Prop :=
  (now - default 0 (lr !! name) < i * us_per_second)%Z.

Lemma pass_recent d now name i checks : (0 < i)%Z -> all_ints checks ->
  forall lr started lr' started', recent_run now name i lr ->
  fold_res (start_due d now) (lr, started) checks = Ok (lr', started') -> recent_run now name i lr'.
Proof.
  intros Hi. induction checks as [|c checks IH]; intros Hint lr started lr' started' Hr; cbn [fold_res]; [by intros [= <- <-]|].
  destruct (Hint c) as [j Hj]; [left|]. rewrite (start_due_int _ _ _ _ _ j) by done. cbn [mbind res_bind].
  assert (forall lr1 s1, recent_run now name i lr1 -> fold_res (start_due d now) (lr1, s1) checks = Ok (lr', started') ->
    recent_run now name i lr') as IH'.
  { intros lr1 s1. apply IH. intros x Hx. apply Hint. by right. }
  destruct (_ <=? _)%Z; apply IH'; unfold recent_run in *.
  - destruct (decide (check_name c = name)) as [<-|Hne]; [rewrite lookup_insert_eq; cbn; unfold us_per_second; lia|by rewrite lookup_insert_ne].
  - destruct (lr !! check_name c) eqn:E; [done|]. destruct (decide (check_name c = name)) as [<-|Hne].
    + rewrite lookup_insert_eq. by rewrite E in Hr.
    + by rewrite lookup_insert_ne.
Qed.

(** Of two checks of one name the one listed first, if its interval is no longer,
    keeps the other from ever running. *)
Theorem same_name_starves d lr passes c1 c2 i1 i2 : check_name c1 = check_name c2 -> (0 < i1 <= i2)%Z ->
  int_interval c1 i1 -> int_interval c2 i2 ->
  (forall p, p ∈ passes -> exists a b e, p.2 = a ++ c1 :: b ++ c2 :: e /\ all_ints p.2 /\ c2 ∉ a ++ c1 :: b ++ e) ->
  starts c2 (run_loop d lr passes).1 = [].
Proof.
  intros Hname Hi H1 H2 Hp. revert lr. induction passes as [|[now checks] passes IH]; intros lr; cbn [run_loop]; [done|].
  destruct (Hp (now, checks)) as (a & b & e & E & Hint & Hnot); [left|]. cbn [snd] in E, Hint.
  destruct (pass d now lr checks) as [[lr' started]|x] eqn:Ep; [|done].
  specialize (IH ltac:(intros p Hx; apply Hp; by right) lr'). destruct (run_loop d lr' passes) as [log r]. cbn in IH |- *.
  unfold starts in *. cbn. rewrite bool_decide_eq_false_2; [done|]. clear IH log r.
  rewrite E in Ep, Hint. unfold pass in Ep. rewrite fold_res_app in Ep.
  assert (forall l lr0 s0 lr1 s1, all_ints l -> fold_res (start_due d now) (lr0, s0) l = Ok (lr1, s1) ->
    forall x, x ∈ s1 -> x ∈ s0 \/ x ∈ l) as Hin.
  { clear. induction l as [|y l IH]; intros lr0 s0 lr1 s1 Hint; cbn [fold_res]; [intros [= <- <-]; by left|].
    destruct (Hint y) as [j Hj]; [left|]. rewrite (start_due_int _ _ _ _ _ j) by done. cbn [mbind res_bind].
    destruct (_ <=? _)%Z; intros Hf x Hx; eapply IH in Hf as [?|?]; try done; try set_solver;
      intros z Hz; apply Hint; by right. }
  destruct (fold_res (start_due d now) (lr, []) a) as [[lra sa]|] eqn:Ea; cbn [mbind res_bind fold_res] in Ep; [|done].
  assert (all_ints a /\ (exists j, int_interval c1 j) /\ all_ints b /\ all_ints e) as (Ia & _ & Ib & Ie).
  { split_and!; [|by exists i1| |]; intros x Hx; apply Hint; set_solver. }
  assert (c2 ∉ sa) as Hsa.
  { intros Hx. destruct (Hin _ _ _ _ _ Ia Ea _ Hx) as [?|?]; set_solver. }
  rewrite (start_due_int _ _ _ _ _ i1) in Ep by done. cbn [mbind res_bind] in Ep.
  assert (forall lr1 s1, c2 ∉ s1 -> recent_run now (check_name c2) i1 lr1 ->
    fold_res (start_due d now) (lr1, s1) (b ++ c2 :: e) = Ok (lr', started) -> c2 ∉ started) as Hrest.
  { clear Ep. intros lr1 s1 Hs1 Hr Ep. rewrite fold_res_app in Ep.
    destruct (fold_res (start_due d now) (lr1, s1) b) as [[lrb sb]|] eqn:Eb; cbn [mbind res_bind fold_res] in Ep; [|done].
    assert (c2 ∉ sb) as Hsb.
    { intros Hx. destruct (Hin _ _ _ _ _ Ib Eb _ Hx) as [?|?]; set_solver. }
    apply (pass_recent d now (check_name c2) i1) in Eb; [|lia|done|done]. unfold recent_run in Eb.
    rewrite (start_due_int _ _ _ _ _ i2) in Ep by done. cbn [mbind res_bind] in Ep.
    rewrite (proj2 (Z.leb_gt _ _)) in Ep by (unfold us_per_second in *; nia).
    intros Hx. destruct (Hin _ _ _ _ _ Ie Ep _ Hx) as [?|?]; set_solver. }
  unfold recent_run in Hrest. destruct (_ <=? _)%Z eqn:Edue; (eapply Hrest; [| |exact Ep]).
  - set_solver.
  - rewrite <- Hname, lookup_insert_eq. cbn. unfold us_per_second. lia.
  - done.
  - rewrite <- Hname. apply Z.leb_gt in Edue. destruct (lra !! check_name c1) eqn:E1; rewrite ?lookup_insert_eq, ?E1; done.
Qed.

(** A loaded check whose interval the server sends as null ends the loop at its first
    pass, and the agent with it. *)
Lemma null_interval_raises d now checks c : c ∈ checks -> (forall v0, dict_get c "interval" v0 = PNone) ->
  forall st, fold_res (start_due d now) st checks = Raise TypeError.
Proof.
  intros Hc Hn. induction checks as [|x checks IH]; intros [lr started]; [by apply elem_of_nil in Hc|]. cbn [fold_res].
  assert (start_due d now (lr, started) x = Raise TypeError \/ exists st, start_due d now (lr, started) x = Ok st) as Hx.
  { unfold start_due. destruct (interval_due _ _) as [b|y] eqn:E; cbn; [by right; eexists|]. left.
    revert E. unfold interval_due. destruct (dict_get x "interval" _); try done; by intros [= <-]. }
  apply elem_of_cons in Hc as [<-|Hc].
  - unfold start_due. rewrite Hn. done.
  - destruct Hx as [-> | [st ->]]; [done|]. cbn. by apply IH.
Qed.

Lemma served_interval `{Drivers} c label cfg v0 : load_one (to_response c label) = Some cfg ->
  dict_get cfg "interval" v0 = opt_int (ck_interval c).
Proof.
  intros Hl. apply load_one_inv in Hl as (t & valid & _ & _ & Htr & _).
  rewrite (transform_keeps _ _ _ _ _ Htr); [done|apply (bool_decide_unpack _); by vm_compute|done..].
Qed.

(** A check stored without an interval (the default of the API's create) is sent as
    null, and the agent's default for it applies only where the key is missing: the
    loop's first pass with it raises, and no check of the agent runs again. *)
Theorem unset_interval_ends_agent `{Drivers} c label cfg d lr now checks passes : ck_interval c = None ->
  load_one (to_response c label) = Some cfg -> cfg ∈ checks ->
  run_loop d lr ((now, checks) :: passes) = ([], Raise TypeError).
Proof.
  intros Hi Hl Hin. cbn [run_loop]. unfold pass. rewrite (null_interval_raises d now checks cfg); [done|done|].
  intros v0. by rewrite (served_interval c label), Hi.
Qed.

(** Nothing after [COPIED] touches what is neither a TCP, an HTTP nor a DNS check. *)
Lemma transform_plain e t cfg k : transform_check_config e t = Ok cfg -> t <> "tcp" -> t <> "http" -> t <> "dns" ->
  k ∉ map snd COPIED -> k ∉ ["check_id"; "name"; "check_type"; "target"; "interval"; "timeout"; "enabled"; "retry_attempts"; "retry_interval"] ->
  assoc_get cfg k = None.
Proof.
  unfold transform_check_config. intros Ht Htcp Hhttp Hdns Hk Hb.
  rewrite (proj2 (String.eqb_neq t "tcp")), (proj2 (String.eqb_neq t "http")), (proj2 (String.eqb_neq t "dns")) in Ht by done.
  set (base := [("check_id", _); _; _; _; _; _; _; _; _]) in *.
  assert (assoc_get base k = None) as Hbase.
  { unfold base. repeat (apply not_elem_of_cons in Hb as [? Hb]). cbn [assoc_get]. by repeat (rewrite decide_False by done). }
  clearbody base. pose proof (copied_absent e COPIED base k Hk) as Hc. rewrite Hbase in Hc.
  set (cfg1 := fold_left (copy_set e) COPIED base) in *. clearbody cfg1.
  cbn [mbind res_bind] in Ht. by injection Ht as <-.
Qed.

(** A JSON check's verify_ssl never reaches it, though the server stores and sends it
    and the check reads it; an HTTP check's does. *)
Theorem json_verify_ssl_dropped `{Drivers} c label cfg : ck_type c = "json" -> load_one (to_response c label) = Some cfg ->
  dict_get cfg "verify_ssl" (PBool true) = PBool true.
Proof.
  intros Ht Hl. apply load_one_inv in Hl as (t & valid & Et & _ & Htr & _).
  change (PStr (ck_type c) = PStr t) in Et. injection Et as <-. rewrite Ht in Htr.
  unfold dict_get. rewrite (transform_plain _ _ _ "verify_ssl" Htr); [done|done..|apply (bool_decide_unpack _); by vm_compute|].
  apply (bool_decide_unpack _). by vm_compute.
Qed.

(** ** A run and its retries *)

(** How an attempt follows the one before it. *)
Definition retries_after (l : run_limits) (a b : attempt) : Prop :=
  out_success (output_of (at_outcome a)) = false /\ (at_ended a + li_retry_interval l <= at_begun b)%Z.

Definition lasted (a : attempt) : Z := (at_ended a - at_begun a)%Z.

(** How long an attempt is expected to last after some. *)
Definition longest_of (longest : Z) (attempts : list attempt) : Z := fold_left (fun m a => Z.max m (lasted a)) attempts longest.

(** Why no other attempt follows [last], [before] all of them. *)
Definition no_more (l : run_limits) (next_run longest : Z) (t : trial) (last : attempt) : Prop :=
  out_success (output_of (at_outcome last)) = true
  \/ (next_run < at_ended last + Z.max (li_retry_interval l) (tr_slept t + tr_waited t) + longest)%Z.

Lemma last_default {A} (a d : A) l : List.last (a :: l) d = List.last l a.
Proof. revert a d. induction l as [|x l IH]; intros a d; [done|]. transitivity (List.last (x :: l) d); [done|]. by rewrite !IH. Qed.

Lemma retry_spec l next_run trials :
  (forall n, 0 < n -> (li_retry_interval l <= tr_slept (trials n))%Z) -> (forall n, 0 <= tr_waited (trials n))%Z ->
  forall more n longest last, 0 < n -> (li_timeout l <= longest)%Z ->
  let rest := retry l next_run longest last trials n more in
  length rest <= more /\ adjacent (retries_after l) (last :: rest)
  /\ (forall k b, rest !! k = Some b -> (at_begun b + longest_of longest (take k rest) <= next_run)%Z)
  /\ (length rest = more \/ no_more l next_run (longest_of longest rest) (trials (n + length rest)) (List.last rest last)).
Proof.
  intros Hs Hw. induction more as [|more IH]; intros n longest last Hn Hl; cbn [retry].
  { split_and!; [done|apply adjacent_cons; split; [done|apply adjacent_nil]|by intros [|k] b|by left]. }
  assert (forall b : bool, (b = true -> no_more l next_run longest (trials n) last) -> forall rest,
    let rest' := if b then [] else rest in b = false \/ (length rest' <= S more /\ adjacent (retries_after l) (last :: rest')
    /\ (forall k b, rest' !! k = Some b -> (at_begun b + longest_of longest (take k rest') <= next_run)%Z)
    /\ (length rest' = S more \/ no_more l next_run (longest_of longest rest') (trials (n + length rest')) (List.last rest' last)))) as Hstop.
  { intros [|] Hb rest; [right|by left]. cbn. rewrite Nat.add_0_r.
    split_and!; [lia|apply adjacent_cons; split; [done|apply adjacent_nil]|by intros [|k] x|right; by apply Hb]. }
  destruct (out_success (output_of (at_outcome last))) eqn:Hok.
  { by destruct (Hstop true (fun _ => or_introl Hok) []). }
  destruct (next_run <? at_ended last + li_retry_interval l + longest)%Z eqn:E1.
  { destruct (Hstop true) with (rest := @nil attempt) as [?|?]; [|done..]. intros _. right. apply Z.ltb_lt in E1. lia. }
  cbn zeta. destruct (next_run <? at_ended last + tr_slept (trials n) + tr_waited (trials n) + longest)%Z eqn:E2.
  { destruct (Hstop true) with (rest := @nil attempt) as [?|?]; [|done..]. intros _. right. apply Z.ltb_lt in E2. lia. }
  clear Hstop. apply Z.ltb_ge in E2. cbn [run_once].
  set (begun := (at_ended last + tr_slept (trials n) + tr_waited (trials n))%Z) in *.
  set (a := Attempt begun (begun + tr_lasted (trials n)) (tr_outcome (trials n))).
  set (longest' := Z.max (Z.max longest (li_timeout l)) (tr_lasted (trials n))).
  assert (longest' = Z.max longest (lasted a)) as Hl' by (unfold longest', lasted, a; cbn; lia).
  destruct (IH (S n) longest' a) as (Hlen & Hadj & Hfit & Hend); [lia..|].
  set (rest := retry l next_run longest' a trials (S n) more) in *. split_and!.
  - cbn [length]. lia.
  - apply adjacent_cons. split; [|done]. intros y l' [= <- _]. split; [done|].
    cbn. unfold begun. specialize (Hs n Hn). specialize (Hw n). lia.
  - intros [|k] b Hk; cbn in Hk; [by injection Hk as <-|].
    specialize (Hfit k b Hk). unfold longest_of in *. cbn [take fold_left]. by rewrite <- Hl'.
  - cbn [length]. destruct Hend as [Hend|Hend]; [left; lia|right].
    replace (n + S (length rest)) with (S n + length rest) by lia. unfold longest_of in *. cbn [fold_left].
    rewrite <- Hl'. by rewrite last_default.
Qed.

(** C12: A run tries its check once and then again while it fails, never more than its
    retries allow: a retry follows a failure by retry_interval or more, and begins
    only when an attempt as long as the timeout or the longest one so far still ends
    by the check's next run.  It stops short of its retries only at a success, or
    when the next retry would not end in time. *)
Theorem retries_fit_the_interval l started trials : (forall n, 0 < n -> (li_retry_interval l <= tr_slept (trials n))%Z) ->
  (forall n, 0 <= tr_waited (trials n))%Z ->
  exists first rest, attempts_of l started trials = first :: rest
  /\ (started <= at_begun first)%Z /\ length rest <= li_retries l
  /\ adjacent (retries_after l) (first :: rest)
  /\ (forall k b, rest !! k = Some b -> (at_begun b + longest_of (Z.max 0 (li_timeout l)) (first :: take k rest) <= started + li_interval l)%Z)
  /\ (length rest = li_retries l
      \/ no_more l (started + li_interval l) (longest_of (Z.max 0 (li_timeout l)) (first :: rest)) (trials (S (length rest))) (List.last rest first)).
Proof.
  intros Hs Hw. unfold attempts_of. cbn [run_once].
  set (a := Attempt _ _ _). set (longest := Z.max (Z.max 0 _) _).
  assert (longest = Z.max (Z.max 0 (li_timeout l)) (lasted a)) as Hl by (unfold longest, lasted, a; cbn; lia).
  destruct (retry_spec l (started + li_interval l) trials Hs Hw (li_retries l) 1 longest a) as (Hlen & Hadj & Hfit & Hend); [lia..|].
  exists a, (retry l (started + li_interval l) longest a trials 1 (li_retries l)). split_and!; try done.
  - cbn. specialize (Hw 0). lia.
  - intros k b Hk. unfold longest_of in *. cbn [fold_left]. rewrite <- Hl. by apply Hfit.
  - unfold longest_of in *. cbn [fold_left]. by rewrite <- Hl.
Qed.

(** ** What a run reports *)

(** The executor's counts add up, the agent's and each check's. *)
Definition counted (e : executor) : Prop := ex_executed e = (ex_succeeded e + ex_failed e)%N
  /\ (N.of_nat (length (ex_queue e)) <= ex_queue_max e)%N
  /\ forall name c, ex_stats e !! name = Some c -> total_runs c = (successes c + failures c)%N.

Lemma note_errors_only e key os : exists errors warned, note_errors e key os =
  Executor (ex_executed e) (ex_succeeded e) (ex_failed e) (ex_queue_max e) (ex_stats e) errors warned (ex_last_state e) (ex_queue e).
Proof.
  revert e. induction os as [|o os IH]; intros e; cbn; [exists (ex_errors e), (ex_warned e); by destruct e|].
  destruct (note_config_error (ex_errors e) key o) as [errors warned].
  destruct (IH (Executor (ex_executed e) (ex_succeeded e) (ex_failed e) (ex_queue_max e) (ex_stats e) errors (ex_warned e ++ warned)
    (ex_last_state e) (ex_queue e))) as (er & w & E). exists er, w. exact E.
Qed.

Lemma attempts_nonempty l started trials : exists before final, attempts_of l started trials = before ++ [final].
Proof.
  unfold attempts_of. cbn [run_once]. set (a := Attempt _ _ _). generalize (retry l (started + li_interval l)%Z).
  intros f. destruct (exists_last (l := a :: f (Z.max (Z.max 0 (li_timeout l)) (tr_lasted (trials 0))) a trials 1 (li_retries l)))
    as (before & final & E); [done|]. by exists before, final.
Qed.

(** A run of a loaded check is reported exactly once, at the end of the queue,
    whatever its attempts came to: the result is its last attempt's, stamped with the
    time the run started and the number of attempts, counted once for the agent and
    once for the check; and the counts keep adding up. *)
Theorem run_reported_once e agent_id run_id cfg result_id wall started trials l c :
  counted e -> limits_of cfg = Ok l -> ex_stats e !! check_name cfg = Some c ->
  exists e' r before final, run_check e agent_id run_id cfg result_id wall started trials = Ok e' /\ counted e'
    /\ ex_queue e' = ex_queue e ++ [r] /\ ex_last_state e' !! check_name cfg = Some r
    /\ attempts_of l started trials = before ++ [final]
    /\ rr_output r = with_attempts (output_of (at_outcome final)) (S (length before))
    /\ rr_timestamp r = wall /\ rr_result_id r = result_id /\ rr_check_id r = dict_get cfg "check_id" PNone
    /\ ex_executed e' = (ex_executed e + 1)%N
    /\ ex_succeeded e' = (ex_succeeded e + (if out_success (rr_output r) then 1 else 0))%N
    /\ (exists c', ex_stats e' !! check_name cfg = Some c' /\ total_runs c' = (total_runs c + 1)%N)
    /\ forall name, name <> check_name cfg -> ex_stats e' !! name = ex_stats e !! name.
Proof.
  intros (Hsum & Hmax & Hst) Hl Hc. unfold run_check. rewrite Hl. cbn [mbind res_bind].
  destruct (attempts_nonempty l started trials) as (before & final & Ea). rewrite Ea.
  rewrite last_last, length_app, Nat.add_1_r. set (key := match dict_get cfg "check_id" PNone with PStr s => s | _ => "None" end).
  destruct (note_errors_only e key (map at_outcome (before ++ [final]))) as (errors & warned & ->).
  unfold record. cbn [ex_stats rr_name rr_output ex_queue ex_executed ex_succeeded ex_failed ex_queue_max].
  rewrite Hc. set (r := RunResult _ _ _ _ _ _ _ _). eexists _, r, before, final. split; [done|]. unfold counted. cbn.
  split_and!; try done.
  - destruct (out_success _); lia.
  - lia.
  - intros name c'. destruct (decide (name = check_name cfg)) as [->|Hne].
    + rewrite lookup_insert_eq. intros [= <-]. cbn. specialize (Hst _ _ Hc). destruct (out_success _); lia.
    + rewrite lookup_insert_ne by done. apply Hst.
  - by rewrite lookup_insert_eq.
  - eexists. by rewrite lookup_insert_eq.
  - intros name Hne. by rewrite lookup_insert_ne.
Qed.

(** A configuration error is logged when it appears or changes, not at every run. *)
Lemma config_error_logged_once e key reason n : ex_errors e !! key = Some reason ->
  note_errors e key (replicate n (Misconfigured reason)) = e.
Proof.
  intros He. induction n as [|n IH]; cbn; [done|]. rewrite bool_decide_eq_true_2 by done. rewrite app_nil_r.
  destruct e. exact IH.
Qed.

(** ** On concrete checks *)

Module Examples.
#[local] Instance all_drivers : Drivers := {| dns_available := true; aiomysql_available := true; asyncpg_available := false |}.

Definition tcp_check : check :=
  Check 10 1 None "port" "tcp" "example.org:443" (Some 60%Z) true MANUAL None 0 None [] [].
Definition tcp_cfg : pydict := default [] (load_one (to_response tcp_check "agent")).

Lemma served_check_arrives_witness :
  load_one (to_response tcp_check "agent") = Some tcp_cfg /\ dict_get tcp_cfg "target" PNone = PStr "example.org"
  /\ dict_get tcp_cfg "port" PNone = PInt 443 /\ dict_get tcp_cfg "interval" PNone = PInt 60.
Proof.
  assert (load_one (to_response tcp_check "agent") = Some tcp_cfg) as Hl by (vm_compute; reflexivity).
  destruct (served_check_arrives _ _ _ Hl) as (_ & _ & _ & _ & Hi & _ & _ & _ & _ & _ & _ & _ & _ & Ht).
  split_and!; [exact Hl|vm_compute; reflexivity|vm_compute; reflexivity|exact Hi].
Defined.

(** The attempts of a run that fails once: after the wait, the retry succeeds. *)
Definition ok_output : check_output := Output true (PInt 12) None PNone [].
Definition scripted_trials (n : nat) : trial :=
  Trial (if n is O then 0 else 5000000) 1000 2000000 (if n is O then TimedOut else Completed ok_output).
Definition one_minute : run_limits := AgentRun.Limits 5000000 2 5000000 60000000.

Lemma scripted_slept n : 0 < n -> (li_retry_interval one_minute <= tr_slept (scripted_trials n))%Z.
Proof. by destruct n; [lia|]. Qed.
Lemma scripted_waited n : (0 <= tr_waited (scripted_trials n))%Z.
Proof. done. Qed.

Lemma retries_fit_the_interval_witness :
  map at_begun (attempts_of one_minute 0 scripted_trials) = [1000; 7002000]%Z
  /\ adjacent (retries_after one_minute) (attempts_of one_minute 0 scripted_trials).
Proof.
  split; [vm_compute; reflexivity|].
  destruct (retries_fit_the_interval one_minute 0 scripted_trials scripted_slept scripted_waited) as (first & rest & -> & _ & _ & Ha & _).
  exact Ha.
Defined.

Definition a_check : pydict := [("check_id", PStr "a"); ("name", PStr "a"); ("interval", PInt 2); ("timeout", PInt 5); ("retry_attempts", PInt 2)].
Definition b_check : pydict := [("check_id", PStr "b"); ("name", PStr "b"); ("interval", PInt 3)].

(** The second check comes and goes; the first keeps its time. *)
Definition second (n : Z) : Z := (n * us_per_second)%Z.
Definition passes : list (instant * list pydict) :=
  [(second 100, [a_check; b_check]); (second 101, [a_check; b_check]); (second 102, [b_check; a_check]);
   (second 103, [a_check; b_check]); (second 104, [a_check])].

Lemma a_interval : int_interval a_check 2.
Proof. done. Qed.

Lemma a_alone p : p ∈ passes -> alone a_check p.2.
Proof.
  assert (all_ints [a_check; b_check]) as Hab.
  { intros x Hx. apply elem_of_cons in Hx as [->|Hx]; [by exists 2%Z|]. apply list_elem_of_singleton in Hx as ->. by exists 3%Z. }
  assert (forall l, (forall x, x ∈ l -> x = a_check \/ x = b_check) -> all_ints l) as Hl.
  { intros l H x [->| ->]%H; apply Hab; [left|right; left]. }
  intros Hp. unfold passes in Hp.
  repeat (apply elem_of_cons in Hp as [->|Hp]); [..|by apply elem_of_nil in Hp]; cbn [snd];
    [exists [], [b_check]|exists [], [b_check]|exists [b_check], []|exists [], [b_check]|exists [], []];
    (split_and!; [done| |]);
    try (apply Hl; intros x Hx; repeat (apply elem_of_cons in Hx as [->|Hx]; [auto|]); by apply elem_of_nil in Hx);
    intros x Hx; cbn in Hx; repeat (apply elem_of_cons in Hx as [->|Hx]; [done|]); by apply elem_of_nil in Hx.
Qed.

Lemma loop_is_timers_witness :
  starts a_check (run_loop 60 ∅ passes).1 = [second 100; second 102; second 104]
  /\ starts a_check (run_loop 60 ∅ passes).1 = timer 2 0 (map fst passes).
Proof.
  split; [vm_compute; reflexivity|].
  destruct (loop_is_timers 60 ∅ passes a_check 2 a_alone a_interval) as (lr' & _ & E). exact E.
Defined.

Lemma passes_steady : adjacent (fun a b => a <= b <= a + second 1)%Z (map fst passes).
Proof.
  unfold passes. cbn [map fst].
  repeat (apply adjacent_cons; split; [intros y l [= <- _]; unfold second, us_per_second; lia|]).
  apply adjacent_nil.
Qed.

Lemma checks_keep_their_cadence_witness :
  exists later, starts a_check (run_loop 60 ∅ passes).1 = second 100 :: later
    /\ adjacent (fun a b => 2 * us_per_second <= b - a < 2 * us_per_second + second 1)%Z (second 100 :: later).
Proof.
  exact (checks_keep_their_cadence 60 (second 100) passes a_check 2 (second 1) a_alone a_interval eq_refl eq_refl
    ltac:(vm_compute; discriminate) passes_steady).
Defined.

Definition new_executor : executor := Executor 0 0 0 0 {[ "a" := Counts 0 0 0 ]} ∅ [] ∅ [].

Lemma new_executor_counted : counted new_executor.
Proof.
  unfold counted, new_executor. cbn. split_and!; [done|done|]. intros name c Hc.
  apply lookup_singleton_Some in Hc as [_ <-]. done.
Qed.

Lemma run_reported_once_witness :
  exists e', run_check new_executor "agent" "run" a_check 9 (second 5) 0 (fun n => scripted_trials n) = Ok e'
    /\ counted e' /\ map rr_attempts (ex_queue e') = [1] /\ ex_failed e' = 1%N.
Proof.
  destruct (run_reported_once new_executor "agent" "run" a_check 9 (second 5) 0 (fun n => scripted_trials n)
    (AgentRun.Limits 5000000 2 30000000 2000000) (Counts 0 0 0) new_executor_counted eq_refl eq_refl) as (e' & r & b & f & E & Hc & _).
  exists e'. split; [exact E|]. split; [exact Hc|]. revert E. vm_compute. intros [= <-]. split; reflexivity.
Defined.
End Examples.
