(* ===== verification/CheckRuns.v ===== *)
(** * CheckRuns

    What one run of a check answers: the run() of checks/http.py, checks/json.py,
    checks/tcp.py, checks/ping.py, checks/dns.py, checks/mysql.py and
    checks/postgres.py, with create_result of checks/base.py and the redirects of
    checks/_ssrf_http.py.

    A run is a function of the configuration, the policy on addresses and what the
    network answers to each attempt; what it raises is what [AgentRun.outcome] makes
    of it.  The libraries the code calls (re, httpx, jsonata) are a class; what a
    socket, a driver or a subprocess answers is an argument, an exception given by
    the class the code asks for and its text.  A name resolves as [Sockets] has it.
    A target is a text, as the server sends it.  An [await] that outlives the check's
    timeout is AgentRun's [TimedOut]. *)

From S2P Require Import Prelude Py Text Net Url Ssrf Store Checks AgentRun.

(** ** Common parts *)

(** What a call comes to: a value, or an exception's text. *)
Inductive tried (A : Type) :=
  | Got (a : A)
  | Threw (text : string).
Arguments Got {A} a.
Arguments Threw {A} text.

Class CheckEnv := {
  describe : exn -> string;                          (* str(e) of what the language raises *)
  re_search : string -> string -> res bool;          (* re.search(p, s) is not None *)
  json_dumps : pyval -> string;
  jsonata_evaluate : pyval -> pyval -> tried pyval;  (* Jsonata(path).evaluate(data) *)
}.

(** What an HTTP response gives: [dict(headers)], [headers.get], [len(content)],
    [text] and [json()].  httpx decodes the text by the codec the answer's charset
    names; [None] where that is one that decodes no text, as base64 and hex are. *)
Record response := Response {
  rs_status : Z; rs_headers : pydict; rs_header : string -> option string; rs_size : Z; rs_text : option string;
  rs_json : tried pyval }.

Definition text (r : response) : res string := match rs_text r with Some t => Ok t | None => Raise DecodingError end.

Class Httpx := {
  request : Type;
  build_request : string -> string -> pyval -> pyval -> tried request;   (* method, url, headers, content *)
  is_redirect : response -> bool;
  next_request : response -> option request;
}.

(** [range(v)] *)
Definition py_range (v : pyval) : res nat :=
  match v with
  | PInt z => Ok (Z.to_nat z)
  | PBool b => Ok (Z.to_nat (Z.b2z b))
  | _ => Raise TypeError
  end.

(** [d[k]] *)
Definition item_of (d : pydict) (k : string) : res pyval :=
  match assoc_get d k with Some v => Ok v | None => Raise KeyError end.

(** A method of [str] called on [v]. *)
Definition as_text (v : pyval) : res string := match v with PStr s => Ok s | _ => Raise AttributeError end.

(** checks/base.py: [create_result]; "metrics" is a field like the others there. *)
Definition create_result (success : bool) (latency_ms : pyval) (error : option string) (metrics : pyval) (fields : pydict)
    : check_output :=
  Output success latency_ms (match error with Some "" => None | e => e end) metrics fields.

(** [for _attempt in range(n)] over the variables the attempts share; [true] is a
    [break]. *)
Section Tries.
Context {S : Type} (attempt : nat -> S -> S * bool).

Fixpoint tries (n i : nat) (s : S) : S * bool :=
  match n with
  | O => (s, false)
  | Datatypes.S n => let '(s, done) := attempt i s in if done then (s, true) else tries n (Datatypes.S i) s
  end.
End Tries.

Section Outcome.
Context `{CheckEnv}.

(** What [CheckExecutor._run] catches of a run. *)
Definition outcome_of_run (r : res check_output) : outcome :=
  match r with
  | Ok o => Completed o
  | Raise CheckConfigError => Misconfigured (describe CheckConfigError)
  | Raise TimeoutError => TimedOut
  | Raise SsrfBlockedError => Blocked (describe SsrfBlockedError)
  | Raise e => Crashed (describe e)
  end.
End Outcome.

(** ** checks/_ssrf_http.py: [ssrf_guarded_send] *)

Section Http.
Context `{PyRuntime} `{CheckEnv} `{Httpx}.

(** [send i request] is what the client answers to the attempt's [i]-th request. *)
Fixpoint hops (send : nat -> request -> tried response) (limit i : nat) (request : request) : tried response :=
  match limit with
  | O => send i request
  | S limit =>
      match send i request with
      | Threw e => Threw e
      | Got response =>
          if is_redirect response then
            match next_request response with
            | Some request => hops send limit (S i) request
            | None => Got response
            end
          else Got response
      end
  end.

Definition ssrf_guarded_send (send : nat -> request -> tried response) (method : pyval) (url : string) (headers body : pyval)
    (follow_redirects : bool) (max_redirects : nat) : tried response :=
  match method with
  | PStr method =>
      let content := if bool_decide (upper method ∈ ["GET"; "HEAD"; "OPTIONS"]) then PNone else body in
      match build_request method url headers content with
      | Threw e => Threw e
      | Got request => hops send (if follow_redirects then max_redirects else 0) 0 request
      end
  | _ => Threw (describe AttributeError)
  end.

(** ** checks/http.py and checks/json.py: the attempts

    The response of the first attempt that has one, and its latency; else the text
    of the last failure. *)
Fixpoint request_tries (once : nat -> tried response) (latency : nat -> pyval) (n i : nat) (last_error : option string)
    : (response * pyval) + option string :=
  match n with
  | O => inr last_error
  | S n => match once i with
           | Got response => inl (response, latency i)
           | Threw e => request_tries once latency n (S i) (Some e)
           end
  end.

Definition no_response (retries : pyval) (last_error : option string) : check_output :=
  create_result false PNone
    (Some (match last_error with
           | Some e => "Failed after " +:+ py_str retries +:+ " attempts: " +:+ e
           | None => "Unknown error"
           end)) PNone [].

Section Wire.
Context (send : nat -> nat -> request -> tried response) (latency : nat -> pyval).

Definition attempt_request (cfg : pydict) (target : string) (headers body : pyval) (i : nat) : tried response :=
  ssrf_guarded_send (send i) (dict_get cfg "method" (PStr "GET")) target headers body
    (truthy (dict_get cfg "follow_redirects" (PBool true))) 20.

(** The part the two checks share, up to a response; [inr] is the run's result. *)
Definition fetch (cfg : pydict) (headers body : pyval) : res ((response * pyval) + check_output) :=
  target ← item_of cfg "target";
  target ← as_text target;
  match (u ← urlsplit target; port u) with
  | Raise ValueError => Ok (inr (create_result false PNone (Some ("Invalid URL: " +:+ describe ValueError)) PNone []))
  | Raise e => Raise e
  | Ok _ =>
      let retries := dict_get cfg "retries" (PInt 1) in
      n ← py_range retries;
      Ok (match request_tries (attempt_request cfg target headers body) latency n 0 None with
          | inl answer => inl answer
          | inr last_error => inr (no_response retries last_error)
          end)
  end.

(** ** checks/http.py *)

Definition int_str (z : Z) : string := py_str (PInt z).

Definition check_status (response : response) (expected : pyval) : list string :=
  match expected with
  | PList l => if existsb (py_eqb (PInt (rs_status response))) l then []
               else ["Status code " +:+ int_str (rs_status response) +:+ " not in expected list: " +:+ py_str expected]
  | _ => if py_eqb (PInt (rs_status response)) expected then []
         else ["Status code " +:+ int_str (rs_status response) +:+ " != expected " +:+ py_str expected]
  end.

Definition check_time (latency max_time : pyval) : res (list string) :=
  if negb (truthy max_time) then Ok [] else
  slow ← py_gt latency max_time;
  Ok (if (slow : bool) then ["Response time " +:+ py_str latency +:+ "ms > maximum " +:+ py_str max_time +:+ "ms"] else []).

Definition check_content (response : response) (content_regex : pyval) : res (list string) :=
  if negb (truthy content_regex) then Ok [] else
  content ← text response;
  match content_regex with
  | PStr pattern =>
      found ← re_search pattern content;
      Ok (if (found : bool) then [] else ["Content does not match regex: " +:+ pattern])
  | _ => Raise TypeError
  end.

Definition check_header (response : response) (check : string * pyval) : list string :=
  let '(header, expected) := check in
  if bool_decide (lower header ∈ map (fun kv => lower kv.1) (rs_headers response)) then
    let actual := match rs_header response header with Some v => PStr v | None => PNone end in
    if py_eqb actual expected then []
    else ["Header " +:+ header +:+ ": " +:+ py_str actual +:+ " != expected " +:+ py_str expected]
  else ["Required header missing: " +:+ header].

(** [_validate_response]: its errors; the check passes when there is none. *)
Definition validate_response (response : response) (cfg : pydict) (latency : pyval) : res (list string) :=
  slow ← check_time latency (dict_get cfg "max_response_time" PNone);
  unmatched ← check_content response (dict_get cfg "content_regex" PNone);
  match dict_get cfg "header_checks" (PDict []) with
  | PDict checks =>
      Ok (check_status response (dict_get cfg "expected_status" (PInt 200)) ++ slow ++ unmatched
          ++ concat (map (check_header response) checks))
  | _ => Raise AttributeError
  end.

Definition response_data (response : response) (latency : pyval) : pydict :=
  [("status_code", PInt (rs_status response)); ("headers", PDict (rs_headers response)); ("latency_ms", latency);
   ("response_size", PInt (rs_size response))].

(** [ssl_info] is what [get_ssl_certificate_info] answers. *)
Definition http_run (ssl_info : option pydict) (cfg : pydict) : res check_output :=
  answer ← fetch cfg (dict_get cfg "headers" (PDict [])) (dict_get cfg "body" PNone);
  match answer with
  | inr failed => Ok failed
  | inl (response, latency) =>
      errors ← validate_response response cfg latency;
      let data := response_data response latency
                  ++ match ssl_info with
                     | Some (_ :: _ as info) => [("ssl_certificate", PDict info)]
                     | _ => []
                     end in
      Ok (create_result (match errors with [] => true | _ => false end) latency
            (match errors with [] => None | _ => Some (join "; " errors) end)
            (PDict [("response", PDict data)])
            [("http_status_code", PInt (rs_status response)); ("http_response_time_ms", latency)])
  end.

(** ** checks/json.py *)

(** [headers["Content-Type"] = ...] where no header is a content type: on the
    configuration's own dict, so once. *)
Definition json_headers (headers : pyval) : res pyval :=
  names ← py_iter headers;
  names ← map_res as_text names;
  if bool_decide ("content-type" ∈ map lower names) then Ok headers else
  match headers with
  | PDict d => Ok (PDict (dict_set d "Content-Type" (PStr "application/json")))
  | _ => Raise TypeError
  end.

Definition json_body (body : pyval) : pyval := match body with PDict _ => PStr (json_dumps body) | _ => body end.

(** [_resolve_json_path] *)
Definition resolve_json_path (json_data path : pyval) : tried pyval :=
  if negb (truthy path) then Got json_data else
  match jsonata_evaluate path json_data with
  | Got v => Got v
  | Threw error_msg =>
      Threw (if substringb "undefined" (lower error_msg)
             then "Path '" +:+ py_str path +:+ "' not found in JSON response. Check that the path exists and is spelled correctly."
             else if substringb "syntax" (lower error_msg)
             then "Invalid JSONata syntax in path '" +:+ py_str path +:+ "': " +:+ error_msg
                  +:+ ". See https://jsonata.org for syntax reference."
             else "JSONata query error: " +:+ error_msg)
  end.

(** [int(v)], [float(v)] *)
Definition int_of_value (v : pyval) : res Z := match v with PStr s => int_of_text s | _ => py_int v end.
Definition float_of_value (v : pyval) : res float :=
  match v with
  | PStr s => match float_of_str s with Some f => Ok f | None => Raise ValueError end
  | PFloat f => Ok f
  | PInt z => float_of_Z z
  | PBool b => float_of_Z (Z.b2z b)
  | _ => Raise TypeError
  end.

(** [except ValueError, TypeError: pass] *)
Definition or_keep (expected : pyval) (r : res pyval) : res pyval :=
  match r with Raise ValueError | Raise TypeError => Ok expected | r => r end.

Definition convert_expected (actual expected : pyval) : res pyval :=
  or_keep expected
    match actual, expected with
    | PBool _, PStr s => Ok (PBool (String.eqb (lower s) "true"))
    | PBool _, _ => Ok expected
    | PInt _, _ => PInt <$> int_of_value expected
    | PFloat _, _ => PFloat <$> float_of_value expected
    | _, _ => Ok expected
    end.

Definition type_name (v : pyval) : string :=
  match v with
  | PNone => "NoneType" | PBool _ => "bool" | PInt _ => "int" | PFloat _ => "float" | PStr _ => "str"
  | PList _ => "list" | PDict _ => "dict"
  end.

Definition is_number (v : pyval) : bool := match v with PBool _ | PInt _ | PFloat _ => true | _ => false end.

Definition verdict_of (ok : bool) (error : string) : bool * option string := if ok then (true, None) else (false, Some error).

(** [_compare_values] *)
Definition compare_values (actual expected comparison_type : pyval) : res (bool * option string) :=
  expected ← convert_expected actual expected;
  let named names := match comparison_type with PStr s => bool_decide (s ∈ names) | _ => false end in
  let cannot how := Ok (false, Some ("Cannot perform " +:+ how +:+ " comparison on " +:+ type_name actual)) in
  if named ["equals"] then
    Ok (verdict_of (py_eqb actual expected)
          ("Value '" +:+ py_str actual +:+ "' does not equal expected '" +:+ py_str expected +:+ "'"))
  else if named ["contains"] then
    match actual, expected with
    | PStr a, PStr e => Ok (verdict_of (substringb e a) ("Value '" +:+ a +:+ "' does not contain '" +:+ e +:+ "'"))
    | PList l, _ =>
        Ok (verdict_of (existsb (fun v => py_eqb v expected) l)
              ("List '" +:+ py_str actual +:+ "' does not contain '" +:+ py_str expected +:+ "'"))
    | _, _ => cannot "'contains'"
    end
  else if named ["regex"] then
    match actual, expected with
    | PStr a, PStr e =>
        found ← re_search e a;
        Ok (verdict_of found ("Value '" +:+ a +:+ "' does not match regex '" +:+ e +:+ "'"))
    | _, _ => cannot "regex"
    end
  else if named ["greater_than"; "gt"] then
    if is_number actual && is_number expected then
      b ← py_gt actual expected;
      Ok (verdict_of b ("Value " +:+ py_str actual +:+ " is not greater than " +:+ py_str expected))
    else cannot "'greater than'"
  else if named ["less_than"; "lt"] then
    if is_number actual && is_number expected then
      b ← py_lt actual expected;
      Ok (verdict_of b ("Value " +:+ py_str actual +:+ " is not less than " +:+ py_str expected))
    else cannot "'less than'"
  else if named ["not_equals"; "ne"] then
    Ok (verdict_of (negb (py_eqb actual expected))
          ("Value '" +:+ py_str actual +:+ "' equals '" +:+ py_str expected +:+ "' when it should not"))
  else Ok (false, Some ("Unknown comparison type: " +:+ py_str comparison_type)).

Definition json_failure (response : response) (latency : pyval) (error : string) (more : pydict) : check_output :=
  create_result false latency (Some error) PNone [("response", PDict (response_data response latency ++ more))].

Definition json_run (cfg : pydict) : res check_output :=
  json_path ← item_of cfg "json_path";
  expected_value ← item_of cfg "expected_value";
  headers ← json_headers (dict_get cfg "headers" (PDict []));
  answer ← fetch cfg headers (json_body (dict_get cfg "body" PNone));
  match answer with
  | inr failed => Ok failed
  | inl (response, latency) =>
      let expected_status := dict_get cfg "expected_status" (PInt 200) in
      if negb (py_eqb (PInt (rs_status response)) expected_status) then
        Ok (json_failure response latency
              ("Status code " +:+ int_str (rs_status response) +:+ " != expected " +:+ py_str expected_status) [])
      else
      match rs_json response with
      | Threw e =>
          content ← text response;
          Ok (json_failure response latency ("Failed to parse response as JSON: " +:+ e)
                [("response_text", PStr (String.substring 0 1000 content))])
      | Got parsed_json =>
          match resolve_json_path parsed_json json_path with
          | Threw e =>
              Ok (create_result false latency (Some ("JSON path error: " +:+ e)) PNone
                    [("response", PDict [("status_code", PInt (rs_status response)); ("json", parsed_json);
                                         ("latency_ms", latency)])])
          | Got actual_value =>
              '(success, error) ← compare_values actual_value expected_value (dict_get cfg "comparison_type" (PStr "equals"));
              Ok (create_result success latency error PNone
                    [("response", PDict [("status_code", PInt (rs_status response)); ("headers", PDict (rs_headers response));
                                         ("latency_ms", latency); ("json_path", json_path);
                                         ("actual_value", actual_value); ("expected_value", expected_value)])])
          end
      end
  end.
End Wire.
End Http.

(** ** checks/http.py: the certificate of an HTTPS target *)

(** What the code reads of an X.509 certificate: its dates, and the values of the
    subject's common names and of the issuer's organizations and common names. *)
Record certificate := Certificate {
  ct_not_before : instant; ct_not_after : instant; ct_common_names : list (option string);
  ct_issuer_organizations : list (option string); ct_issuer_common_names : list (option string) }.

Section Certificate.
Context `{Sockets}.
(** Whether a connection to an address is answered, the certificate a handshake
    there under a name gives, and [strftime("%b %d %H:%M:%S %Y GMT")]. *)
Context (answers : string -> Z -> bool) (handshake : string -> Z -> string -> option certificate)
  (strftime : instant -> string).

(** [_vetted_connection]: the address it connects to. *)
Definition vetted_connection (block_private : bool) (now : instant) (hostname : string) (port : Z) : res string :=
  addresses ← policy_allowed_addresses block_private now hostname;
  match filter (fun a => answers a port = true) addresses with
  | address :: _ => Ok address
  | [] => Raise OSError
  end.

(** [str(attributes[0].value)], [dflt] where the value is None. *)
Definition first_value (dflt : string) (values : list (option string)) : option string :=
  default dflt <$> head values.

Definition certificate_info (hostname : string) (c : certificate) : pydict :=
  let issuer := match first_value "Unknown" (ct_issuer_organizations c) with
                | Some name => name
                | None => default "Unknown" (first_value "Unknown" (ct_issuer_common_names c))
                end in
  [("expiration_date", PStr (strftime (ct_not_after c))); ("valid_from", PStr (strftime (ct_not_before c)));
   ("issuer", PStr issuer); ("subject", PStr (default hostname (first_value hostname (ct_common_names c))))].

(** [_get_ssl_certificate_info]: whatever it raises is logged. *)
Definition get_ssl_certificate_info (block_private : bool) (now : instant) (target : string) : option pydict :=
  if negb (startswith "https://" target) then None else
  match (parsed ← urlsplit target; port ← port parsed; Ok (Url.hostname parsed, port)) with
  | Ok (Some hostname, port) =>
      let port := match port with Some p => if (p =? 0)%Z then 443%Z else p | None => 443%Z end in
      match vetted_connection block_private now hostname port with
      | Ok address => certificate_info hostname <$> handshake address port hostname
      | Raise _ => None
      end
  | _ => None
  end.
End Certificate.

(** ** checks/tcp.py *)

(** An exception of a socket's call, as the handlers tell them apart. *)
Inductive socket_error :=
  | SockTimeout                     (* TimeoutError *)
  | SockRefused                     (* ConnectionRefusedError *)
  | SockAddress (text : string)     (* socket.gaierror *)
  | SockOS (text : string)          (* any other OSError *)
  | SockOther (text : string).

Definition socket_text (describe : exn -> string) (e : socket_error) : string :=
  match e with
  | SockTimeout => describe TimeoutError
  | SockRefused => describe ConnectError
  | SockAddress t | SockOS t | SockOther t => t
  end.

(** What the network answers to one attempt: the addresses of getaddrinfo, where
    they are texts; how long the connection to one took; what came of writing, the reply
    read and its time; and what closing the writer raised but an OSError. *)
Inductive resolution := Resolved (infos : list (option string)) | Unresolved | ResolveThrew (e : socket_error).
Record tcp_attempt := TcpAttempt {
  ta_infos : resolution; ta_connect : string -> pyval + socket_error; ta_write : option socket_error;
  ta_read : string + socket_error; ta_echo_latency : pyval; ta_close : option string }.

(** What the body of the loop raises. *)
Inductive tcp_error := TcpSocket (e : socket_error) | TcpBlocked | TcpEcho (text : string) | TcpUnexpected (text : string).

(** The variables the attempts share. *)
Record tcp_state := TcpState { tc_latency : pyval; tc_error : option string; tc_data : pydict }.

Section Tcp.
Context `{PyRuntime} `{CheckEnv} (block_private : bool).

(** [_get_address_info]: the first address the policy allows. *)
Definition get_address_info (infos : resolution) : option string + tcp_error :=
  match infos with
  | Unresolved => inl None
  | ResolveThrew e => inr (TcpSocket e)
  | Resolved infos =>
      let addressed := omap id infos in
      match filter (fun a => policy_ip_allowed block_private a = true) addressed with
      | info :: _ => inl (Some info)
      | [] =>
          match addressed with
          | first :: _ =>
              match policy_assert_ip_allowed block_private first with
              | Ok _ => inl None
              | Raise SsrfBlockedError => inr TcpBlocked
              | Raise e => inr (TcpUnexpected (describe e))
              end
          | [] => inl None
          end
      end
  end.

(** [_test_echo] *)
Definition echo_failed (e : socket_error) : tcp_error :=
  match e with
  | SockTimeout => TcpEcho "Timed out waiting for response"
  | e => TcpEcho ("Echo test failed: " +:+ socket_text describe e)
  end.

Definition test_echo (a : tcp_attempt) (send_string expect_string : pyval) : (option string * option pyval) + tcp_error :=
  if negb (truthy send_string) then inl (None, None) else
  match send_string with
  | PStr _ =>
      match ta_write a with
      | Some e => inr (echo_failed e)
      | None =>
          if negb (truthy expect_string) then inl (None, None) else
          match ta_read a with
          | inr e => inr (echo_failed e)
          | inl response =>
              if String.eqb response "" then inl (Some response, Some (ta_echo_latency a)) else
              match expect_string with
              | PStr expected =>
                  if substringb expected response then inl (Some response, Some (ta_echo_latency a))
                  else inr (TcpEcho "Echo test failed: Response does not match expected string")
              | _ => inr (TcpEcho ("Echo test failed: " +:+ describe TypeError))
              end
          end
      end
  | _ => inr (TcpEcho ("Echo test failed: " +:+ describe AttributeError))
  end.

Definition tcp_error_text (timeout : pyval) (e : tcp_error) : string :=
  match e with
  | TcpSocket SockTimeout => "Connection timed out after " +:+ py_str timeout +:+ "s"
  | TcpSocket SockRefused => "Connection refused"
  | TcpSocket (SockAddress t) => "Address resolution error: " +:+ t
  | TcpSocket (SockOS t) => "Socket error: " +:+ t
  | TcpSocket (SockOther t) | TcpUnexpected t => "Unexpected error: " +:+ t
  | TcpBlocked => "Target blocked: " +:+ describe SsrfBlockedError
  | TcpEcho t => t
  end.

(** What an attempt's connection does to the shared variables, and how it ends. *)
Definition exchange (cfg : pydict) (a : tcp_attempt) (s : tcp_state) (latency : pyval) : tcp_state * option tcp_error :=
  let data := dict_set (tc_data s) "connect_latency_ms" latency in
  let s := TcpState latency (tc_error s) data in
  let send_string := dict_get cfg "send_string" PNone in
  let expect_string := dict_get cfg "expect_string" PNone in
  let '(s, failed) :=
    if truthy send_string || truthy expect_string then
      match test_echo a send_string expect_string with
      | inr e => (s, Some e)
      | inl (response, echo_latency) =>
          let data := match echo_latency with Some l => dict_set data "echo_latency_ms" l | None => data end in
          let data := match response with Some r => dict_set data "response" (PStr r) | None => data end in
          (TcpState latency (tc_error s) data, None)
      end
    else (s, None) in
  (s, match ta_close a with Some t => Some (TcpUnexpected t) | None => failed end).

Definition tcp_attempt_once (cfg : pydict) (host : string) (timeout : pyval) (net : nat -> tcp_attempt) (i : nat) (s : tcp_state)
    : tcp_state * bool :=
  let a := net i in
  let failed s e := (TcpState (tc_latency s) (Some (tcp_error_text timeout e)) (tc_data s), false) in
  match get_address_info (ta_infos a) with
  | inr e => failed s e
  | inl None => (TcpState (tc_latency s) (Some ("Could not resolve host: " +:+ host)) (tc_data s), false)
  | inl (Some address) =>
      match policy_assert_ip_allowed block_private address with
      | Raise SsrfBlockedError => failed s TcpBlocked
      | Raise e => failed s (TcpUnexpected (describe e))
      | Ok _ =>
          match ta_connect a address with
          | inr e => failed s (TcpSocket e)
          | inl latency =>
              match exchange cfg a s latency with
              | (s, Some e) => failed s e
              | (s, None) => (s, true)
              end
          end
      end
  end.

Definition tcp_run (net : nat -> tcp_attempt) (cfg : pydict) : res check_output :=
  host ← item_of cfg "target"; host ← as_text host;
  port ← item_of cfg "port";
  n ← py_range (dict_get cfg "retries" (PInt 1));
  let timeout := dict_get cfg "timeout" (PInt 2) in
  let '(s, success) := tries (tcp_attempt_once cfg host timeout net) n 0 (TcpState PNone None []) in
  Ok (create_result success (tc_latency s) (tc_error s) PNone
        ([("target_host", PStr host); ("target_port", port)] ++ tc_data s)).
End Tcp.

(** ** checks/ping.py *)

(** *** Regular expressions over ping's output *)

(** The longest run of a class of characters, and what follows it. *)
Definition run_of (f : ascii -> bool) (s : string) : string * string := cut_at (fun c => negb (f c)) s.

(** What follows the text [p], where the string begins with it. *)
Fixpoint after (p s : string) : option string :=
  match p, s with
  | EmptyString, _ => Some s
  | String a p, String b s => if Ascii.eqb a b then after p s else None
  | _, _ => None
  end.

(** A run of one character at least, and what follows. *)
Definition some_run (f : ascii -> bool) (s : string) : option (string * string) :=
  let '(d, rest) := run_of f s in if String.eqb d "" then None else Some (d, rest).

(** [re.search]: the leftmost match; and [re.finditer] of a pattern whose matches do
    not overlap. *)
Fixpoint search {A} (m : string -> option A) (s : string) : option A :=
  match m s with
  | Some a => Some a
  | None => match s with EmptyString => None | String _ s => search m s end
  end.
Fixpoint all_matches {A} (m : string -> option A) (s : string) : list A :=
  match m s with Some a => [a] | None => [] end ++ match s with EmptyString => [] | String _ s => all_matches m s end.

Definition is_decimal (c : ascii) : bool := is_digit c || Ascii.eqb c ".".

(** [(\d+)% packet loss] *)
Definition loss_at (s : string) : option string :=
  '(d, rest) ← some_run is_digit s; _ ← after "% packet loss" rest; Some d.

(** [(\d+) packets transmitted, (\d+) (?:packets )?received] *)
Definition packets_at (s : string) : option (string * string) :=
  '(sent, rest) ← some_run is_digit s;
  rest ← after " packets transmitted, " rest;
  '(received, rest) ← some_run is_digit rest;
  rest ← after " " rest;
  _ ← after "received" (default rest (after "packets " rest));
  Some (sent, received).

(** [min/avg/max(?:/mdev|/stddev)? = ([\d.]+)/([\d.]+)/([\d.]+)(?:/([\d.]+))?] *)
Definition rtt_at (s : string) : option (string * string * string * option string) :=
  rest ← after "min/avg/max" s;
  let rest := match after "/mdev" rest with Some r => r | None => default rest (after "/stddev" rest) end in
  rest ← after " = " rest;
  '(low, rest) ← some_run is_decimal rest; rest ← after "/" rest;
  '(average, rest) ← some_run is_decimal rest; rest ← after "/" rest;
  '(high, rest) ← some_run is_decimal rest;
  Some (low, average, high, rest ← after "/" rest; fst <$> some_run is_decimal rest).

(** [time=([\d.]+) ms] *)
Definition time_at (s : string) : option string :=
  rest ← after "time=" s; '(d, rest) ← some_run is_decimal rest; _ ← after " ms" rest; Some d.

(** *** [_parse_ping_output] *)

Record ping_stats := PingStats {
  ps_sent : Z; ps_received : Z; ps_packet_loss : float; ps_min_ms : option float; ps_avg_ms : option float;
  ps_max_ms : option float; ps_stddev_ms : option float; ps_raw_output : string; ps_times : list float }.

(** 100.0 *)
Definition one_hundred : float := S754_finite false 7036874417766400 (-46).

(** [sum(l)] of floats: compensated. *)
Definition sum_step (total : float * float) (x : float) : float * float :=
  let '(hi, lo) := total in
  let t := SFadd prec emax hi x in
  let larger := match SFcompare (SFabs hi) (SFabs x) with Some Gt | Some Eq => true | _ => false end in
  let '(a, b) := if larger then (hi, x) else (x, hi) in
  (t, SFadd prec emax lo (SFadd prec emax (SFsub prec emax a t) b)).
Definition float_sum (first : float) (l : list float) : float :=
  let '(hi, lo) := fold_left sum_step l (first, S754_zero false) in
  match lo with S754_finite _ _ _ => SFadd prec emax hi lo | _ => hi end.

Definition opt_float (f : option float) : pyval := match f with Some f => PFloat f | None => PNone end.

(** What running ping comes to. *)
Inductive ping_attempt :=
  | Ran (returncode : option Z) (stdout stderr : string)
  | PingTimeout
  | PingThrew (text : string).

Section Ping.
Context `{PyRuntime} `{CheckEnv} `{Sockets}.

Definition float_of_text (s : string) : res float := match float_of_str s with Some f => Ok f | None => Raise ValueError end.

Definition average (times : list float) : res (option float) :=
  match times with
  | [] => Ok None
  | t :: rest => n ← float_of_Z (Z.of_nat (length times)); Ok (Some (SFdiv prec emax (float_sum t rest) n))
  end.

Definition parse_ping_output (output : string) : res ping_stats :=
  loss ← match search loss_at output with Some d => float_of_text d | None => Ok one_hundred end;
  let packets := default ("0", "0") (search packets_at output) in
  rtt ← match search rtt_at output with
        | Some (low, average, high, deviation) =>
            low ← float_of_text low; average ← float_of_text average; high ← float_of_text high;
            deviation ← match deviation with Some d => Some <$> float_of_text d | None => Ok None end;
            Ok (Some low, Some average, Some high, deviation)
        | None => Ok (None, None, None, None)
        end;
  let '(low, avg, high, deviation) := rtt in
  times ← map_res float_of_text (all_matches time_at output);
  avg ← match avg with Some a => Ok (Some a) | None => average times end;
  Ok (PingStats (int_of_digits packets.1) (int_of_digits packets.2) loss low avg high deviation output times).

Definition stats_dict (st : ping_stats) : pydict :=
  [("sent", PInt (ps_sent st)); ("received", PInt (ps_received st)); ("packet_loss", PFloat (ps_packet_loss st));
   ("min_ms", opt_float (ps_min_ms st)); ("avg_ms", opt_float (ps_avg_ms st)); ("max_ms", opt_float (ps_max_ms st));
   ("stddev_ms", opt_float (ps_stddev_ms st)); ("raw_output", PStr (ps_raw_output st));
   ("times", PList (map PFloat (ps_times st)))].

Definition ping_once (timeout : pyval) (net : nat -> ping_attempt) (i : nat) (s : option string * option ping_stats)
    : (option string * option ping_stats) * bool :=
  match net i with
  | Ran (Some 0%Z) stdout _ =>
      match parse_ping_output stdout with
      | Ok stats => ((s.1, Some stats), true)
      | Raise e => ((Some ("Ping failed: " +:+ describe e), s.2), false)
      end
  | Ran code _ stderr =>
      ((Some ("Ping failed with return code " +:+ py_str (opt_int code) +:+ ": " +:+ stderr), s.2), false)
  | PingTimeout => ((Some ("Ping timed out after " +:+ py_str timeout +:+ "s"), s.2), false)
  | PingThrew t => ((Some ("Ping failed: " +:+ t), s.2), false)
  end.

(** [platform.system().lower()] *)
Inductive os_name := Windows | Darwin | Linux.

(** [_get_ping_args] *)
Definition get_ping_args (os : os_name) (host : string) (count timeout : pyval) : res (list string) :=
  match os with
  | Windows => seconds ← match timeout with
                         | PInt z => Ok (z * 1000)%Z
                         | PBool b => Ok (Z.b2z b * 1000)%Z
                         | PFloat f => thousand ← float_of_Z 1000; py_int (PFloat (SFmul prec emax f thousand))
                         | _ => Raise TypeError
                         end;
               Ok ["ping"; "-n"; py_str count; "-w"; py_str (PInt seconds); host]
  | Darwin => if contains ":" host then Ok ["ping6"; "-c"; py_str count; host]
              else seconds ← int_of_value timeout; Ok ["ping"; "-c"; py_str count; "-t"; py_str (PInt seconds); host]
  | Linux => seconds ← int_of_value timeout; Ok ["ping"; "-c"; py_str count; "-W"; py_str (PInt seconds); host]
  end.

(** [net args] is what the command answers, attempt by attempt. *)
Definition ping_run (os : os_name) (block_private : bool) (now : instant) (net : list string -> nat -> ping_attempt) (cfg : pydict)
    : res check_output :=
  host ← item_of cfg "target"; host ← as_text host;
  addresses ← policy_allowed_addresses block_private now host;
  match addresses with
  | [] => Ok (create_result false PNone (Some ("Could not resolve host: " +:+ host)) PNone
                [("target_host", PStr host); ("packet_loss", PInt 100); ("ping_statistics", PNone)])
  | ping_host :: _ =>
      let timeout := dict_get cfg "timeout" (PInt 1) in
      args ← get_ping_args os ping_host (dict_get cfg "count" (PInt 1)) timeout;
      n ← py_range (dict_get cfg "retries" (PInt 1));
      let '((error, stats), success) := tries (ping_once timeout (net args)) n 0 (None, None) in
      Ok (create_result success (match stats with Some st => opt_float (ps_avg_ms st) | None => PNone end) error PNone
            [("target_host", PStr host);
             ("packet_loss", match stats with Some st => PFloat (ps_packet_loss st) | None => PInt 100 end);
             ("ping_statistics", match stats with Some st => PDict (stats_dict st) | None => PNone end)])
  end.
End Ping.

(** ** checks/dns.py *)

(** [bytes.decode("utf-8", errors="backslashreplace")]: well-formed sequences are
    kept, every other byte is shown as its escape. *)
Definition byte_in (low high : N) (c : ascii) : bool := let n := N_of_ascii c in ((low <=? n) && (n <=? high))%N.
Definition continuation : ascii -> bool := byte_in 128 191.

(** How many bytes the character that starts a text takes; 0 where none does. *)
Definition utf8_length (s : string) : nat :=
  match s with
  | EmptyString => 0
  | String c s =>
      if byte_in 0 127 c then 1 else
      match s with
      | EmptyString => 0
      | String c1 s =>
          if byte_in 194 223 c && continuation c1 then 2 else
          match s with
          | EmptyString => 0
          | String c2 s =>
              let second := if byte_in 224 224 c then byte_in 160 191 c1
                            else if byte_in 237 237 c then byte_in 128 159 c1 else continuation c1 in
              if byte_in 224 239 c && second && continuation c2 then 3 else
              match s with
              | EmptyString => 0
              | String c3 _ =>
                  let second := if byte_in 240 240 c then byte_in 144 191 c1
                                else if byte_in 244 244 c then byte_in 128 143 c1 else continuation c1 in
                  if byte_in 240 244 c && second && continuation c2 && continuation c3 then 4 else 0
              end
          end
      end
  end.

Definition byte_escape (c : ascii) : string := "\x" +:+ hex_digits 2 (N_of_ascii c) "".

(** [kept] bytes are of a character already seen to be whole. *)
Fixpoint decode_acc (kept : nat) (s : string) : string :=
  match s with
  | EmptyString => ""
  | String c rest =>
      match kept with
      | S kept => String c (decode_acc kept rest)
      | O => match utf8_length s with
             | S more => String c (decode_acc more rest)
             | O => byte_escape c +:+ decode_acc 0 rest
             end
      end
  end.

(** [_txt_value] *)
Definition txt_value (strings : list string) : string := decode_acc 0 (String.concat "" strings).

(** What the code reads of a record: its own fields, else its text. *)
Inductive rdata_fields :=
  | AddressData (address : string)
  | TargetData (target : string)
  | MxData (preference exchange : string)
  | TxtData (strings : list string)
  | SoaData (mname rname serial refresh retry expire minimum : string)
  | SrvData (priority weight port target : string)
  | CaaData (flags tag value : string).
Record rdata := Rdata { rd_fields : rdata_fields; rd_str : string }.

Definition quoted (s : string) : string := String (chr 34) (s +:+ String (chr 34) "").

(** One record of [_extract_records]. *)
Definition extract_record (record_type : string) (r : rdata) : res string :=
  let named names := bool_decide (record_type ∈ names) in
  if named ["A"; "AAAA"] then match rd_fields r with AddressData a => Ok a | _ => Raise AttributeError end
  else if named ["CNAME"; "NS"; "PTR"] then
    match rd_fields r with TargetData t | SrvData _ _ _ t => Ok t | _ => Raise AttributeError end
  else if named ["MX"] then match rd_fields r with MxData p e => Ok (p +:+ " " +:+ e) | _ => Raise AttributeError end
  else if named ["TXT"] then match rd_fields r with TxtData strings => Ok (txt_value strings) | _ => Raise AttributeError end
  else if named ["SOA"] then
    match rd_fields r with
    | SoaData mname rname serial refresh retry expire minimum =>
        Ok (join " " [mname; rname; serial; refresh; retry; expire; minimum])
    | _ => Raise AttributeError
    end
  else if named ["SRV"] then
    match rd_fields r with SrvData p w port t => Ok (join " " [p; w; port; t]) | _ => Raise AttributeError end
  else if named ["CAA"] then
    match rd_fields r with CaaData flags tag value => Ok (join " " [flags; tag; quoted value]) | _ => Raise AttributeError end
  else Ok (rd_str r).

Inductive dns_error :=
  | NXDOMAIN | NoAnswer | NoNameservers | DnsTimeout
  | DnsException (text : string)
  | DnsOther (text : string).

(** An answer: its records, the ttl of its set, the flags of its response and the
    canonical name where it is not the one asked for. *)
Record dns_answer := DnsAnswer {
  da_records : list rdata; da_ttl : option Z; da_flags : option Z; da_canonical : option string }.

(** One attempt: why the nameserver is refused, if it is, and what the query answers. *)
Record dns_attempt := DnsAttempt { dt_nameserver : option string; dt_answer : dns_answer + dns_error; dt_latency : pyval }.

Record dns_state := DnsState { dn_latency : pyval; dn_error : option string; dn_data : pydict }.

Section Dns.
Context `{PyRuntime} `{CheckEnv} `{Sockets}.

Definition AA : Z := 0x400.
Definition TC : Z := 0x200.
Definition RD : Z := 0x100.
Definition RA : Z := 0x80.
Definition flag (flags mask : Z) : pyval := PBool (negb (Z.land flags mask =? 0)%Z).

Definition with_answer (data : pydict) (a : dns_answer) (records : list string) : pydict :=
  let data := dict_set data "record_count" (PInt (Z.of_nat (length records))) in
  let data := dict_set data "records" (PList (map PStr records)) in
  let data :=
    match da_flags a with
    | Some flags =>
        let data := dict_set data "ttl" (opt_int (da_ttl a)) in
        let data := dict_set data "authoritative" (flag flags AA) in
        let data := dict_set data "truncated" (flag flags TC) in
        let data := dict_set data "recursion_desired" (flag flags RD) in
        dict_set data "recursion_available" (flag flags RA)
    | None => data
    end in
  match da_canonical a with Some name => dict_set data "canonical_name" (PStr name) | None => data end.

(** [_validate_expect_value] *)
Definition validate_expect_value (records : list string) (expect_value : string) : bool :=
  existsb (fun r => substringb (lower expect_value) (lower r)) records.

(** What the records lack of what is expected, if anything. *)
Definition expectation (records : list string) (expect_value expect_count : pyval) : res (option string) :=
  missing ← (if truthy expect_value then e ← as_text expect_value; Ok (negb (validate_expect_value records e)) else Ok false);
  if (missing : bool) then Ok (Some ("DNS record does not contain expected value: " +:+ py_str expect_value)) else
  match expect_count with
  | PNone => Ok None
  | _ => if py_eqb (PInt (Z.of_nat (length records))) expect_count then Ok None
         else Ok (Some ("Expected " +:+ py_str expect_count +:+ " records but got "
                        +:+ py_str (PInt (Z.of_nat (length records)))))
  end.

Definition dns_error_text (domain record_type : string) (timeout : pyval) (e : dns_error) : string :=
  match e with
  | NXDOMAIN => "Domain does not exist: " +:+ domain
  | NoAnswer => "No " +:+ record_type +:+ " records found for " +:+ domain
  | NoNameservers => "No nameservers available to answer the query"
  | DnsTimeout => "DNS query timed out after " +:+ py_str timeout +:+ "s"
  | DnsException t => "DNS error: " +:+ t
  | DnsOther t => "Unexpected error: " +:+ t
  end.

Definition dns_once (cfg : pydict) (domain record_type : string) (timeout : pyval) (net : nat -> dns_attempt) (i : nat)
    (s : dns_state) : dns_state * bool :=
  let a := net i in
  let failed latency e data := (DnsState latency (Some e) data, false) in
  match dt_nameserver a with
  | Some e => failed (dn_latency s) ("Invalid nameserver: " +:+ e) (dn_data s)
  | None =>
      match dt_answer a with
      | inr e => failed (dn_latency s) (dns_error_text domain record_type timeout e) (dn_data s)
      | inl answer =>
          match map_res (extract_record record_type) (da_records answer) with
          | Raise e => failed (dt_latency a) ("Unexpected error: " +:+ describe e) (dn_data s)
          | Ok records =>
              let data := with_answer (dn_data s) answer records in
              match expectation records (dict_get cfg "expect_value" PNone) (dict_get cfg "expect_count" PNone) with
              | Raise e => failed (dt_latency a) ("Unexpected error: " +:+ describe e) data
              | Ok (Some e) => failed (dt_latency a) e data
              | Ok None => (DnsState (dt_latency a) (dn_error s) data, true)
              end
          end
      end
  end.

Definition dns_run (block_private : bool) (now : instant) (net : nat -> dns_attempt) (cfg : pydict) : res check_output :=
  domain ← item_of cfg "target"; domain ← as_text domain;
  record_type ← item_of cfg "record_type"; record_type ← as_text record_type;
  let record_type := upper record_type in
  let timeout := dict_get cfg "timeout" (PInt 5) in
  let nameserver := dict_get cfg "nameserver" (PStr "1.1.1.1") in
  host ← as_text nameserver;
  _ ← policy_assert_target_allowed block_private now host;
  n ← py_range (dict_get cfg "retries" (PInt 1));
  let data := [("nameserver", nameserver); ("port", dict_get cfg "port" (PInt 53))] in
  let '(s, success) := tries (dns_once cfg domain record_type timeout net) n 0 (DnsState PNone None data) in
  Ok (create_result success (dn_latency s) (dn_error s)
        (PDict [("dns", PDict ([("target_domain", PStr domain); ("record_type", PStr record_type)] ++ dn_data s))]) []).
End Dns.

(** ** checks/mysql.py and checks/postgres.py *)

(** [parsed.path.lstrip("/") if parsed.path else dflt] *)
Definition database_of (dflt : string) (u : url) : string :=
  let path := path_without_params u in
  if String.eqb path "" then dflt else lstrip_by (Ascii.eqb "/") path.

(** [parsed.port or dflt] *)
Definition port_or (dflt : Z) (u : url) : res Z :=
  port ← port u; Ok (match port with Some p => if (p =? 0)%Z then dflt else p | None => dflt end).

(** The variables the attempts share. *)
Record db_state := DbState {
  bs_connected : pyval; bs_queried : pyval; bs_total : pyval; bs_rows : pyval; bs_columns : pyval;
  bs_error : option string; bs_error_type : option string }.
Definition db_start : db_state := DbState PNone PNone PNone PNone PNone None None.

Definition db_connected (s : db_state) (latency : pyval) : db_state :=
  DbState latency (bs_queried s) (bs_total s) (bs_rows s) (bs_columns s) (bs_error s) (bs_error_type s).
Definition db_failed (s : db_state) (failure : string * string) : db_state :=
  DbState (bs_connected s) (bs_queried s) (bs_total s) (bs_rows s) (bs_columns s) (Some failure.1) (Some failure.2).

(** What a query answers: its rows, the names of its columns, and the latencies. *)
Record db_answer := DbAnswer { ba_rows : Z; ba_columns : list string; ba_queried : pyval; ba_total : pyval }.

Definition db_answered (s : db_state) (a : db_answer) : db_state :=
  DbState (bs_connected s) (ba_queried a) (ba_total a) (PInt (ba_rows a))
    (match ba_columns a with [] => bs_columns s | l => PList (map PStr l) end) (bs_error s) (bs_error_type s).

Definition db_result (kind : string) (host : string) (port : pyval) (database : string) (query : pyval) (s : db_state)
    (success : bool) : check_output :=
  create_result success (bs_total s) (bs_error s)
    (PDict [(kind, PDict [("host", PStr host); ("port", port); ("database", PStr database); ("query", query);
                          ("connection_latency_ms", bs_connected s); ("query_latency_ms", bs_queried s);
                          ("row_count", bs_rows s); ("columns", bs_columns s);
                          ("error_type", opt_str (bs_error_type s))])]) [].

(** An exception of aiomysql, of the socket or of the code's own. *)
Inductive mysql_error :=
  | MyOperational (code : pyval) (text : string)    (* the first argument, None where there is none *)
  | MyProgramming (text : string)
  | MyIntegrity (text : string)
  | MyDatabase (text : string)                      (* any other DatabaseError *)
  | MyTimeout
  | MyUnicodeEncode
  | MyOther (text : string).

(** One attempt: the connection, the query, and what closing the cursor raised. *)
Record mysql_attempt := MysqlAttempt {
  ma_connect : pyval + mysql_error; ma_query : db_answer + mysql_error; ma_cursor_close : option mysql_error }.

Section Mysql.
Context `{PyRuntime} `{CheckEnv} `{Sockets}.

(** What [_parse_connection_string] gives the rest of the run. *)
Definition parse_connection_string (connection_string : string) : res (string * Z * string) :=
  parsed ← urlsplit connection_string;
  match port_or 3306 parsed with
  | Raise ValueError => Raise CheckConfigError
  | Raise e => Raise e
  | Ok port => Ok (default "localhost" (Url.hostname parsed), port, database_of "" parsed)
  end.

Definition mysql_failure (host : string) (port : Z) (database : string) (timeout : pyval) (e : mysql_error) : string * string :=
  match e with
  | MyOperational code text =>
      let coded z := py_eqb code (PInt z) in
      if coded 1045%Z then ("Authentication failed - invalid username or password", "authentication_error")
      else if coded 1049%Z then ("Database does not exist: " +:+ database, "connection_error")
      else if coded 2003%Z then ("Cannot connect to " +:+ host +:+ ":" +:+ py_str (PInt port) +:+ " - connection refused", "connection_error")
      else if coded 2005%Z then ("Unknown MySQL server host: " +:+ host, "connection_error")
      else if coded 2006%Z then ("MySQL server has gone away", "connection_error")
      else if coded 2013%Z then ("Lost connection to MySQL server during query", "connection_error")
      else ("MySQL operational error: " +:+ text, "connection_error")
  | MyProgramming text => ("SQL syntax error in query: " +:+ text, "query_error")
  | MyIntegrity text => ("Database integrity error: " +:+ text, "query_error")
  | MyDatabase text => ("MySQL database error: " +:+ text, "database_error")
  | MyTimeout => ("Connection/query timed out after " +:+ py_str timeout +:+ "s", "timeout_error")
  | MyUnicodeEncode => ("The user name or password has a character MySQL's login cannot encode", "authentication_error")
  | MyOther text => ("Unexpected error: " +:+ text, "unknown_error")
  end.

Definition mysql_once (failure : mysql_error -> string * string) (net : nat -> mysql_attempt) (i : nat) (s : db_state)
    : db_state * bool :=
  let a := net i in
  match ma_connect a with
  | inr e => (db_failed s (failure e), false)
  | inl latency =>
      let s := db_connected s latency in
      match ma_query a with
      | inr e => (db_failed s (failure (default e (ma_cursor_close a))), false)
      | inl answer =>
          let s := db_answered s answer in
          match ma_cursor_close a with
          | Some e => (db_failed s (failure e), false)
          | None => (s, true)
          end
      end
  end.

Definition mysql_run (block_private : bool) (now : instant) (net : nat -> mysql_attempt) (cfg : pydict) : res check_output :=
  let timeout := dict_get cfg "timeout" (PInt 5) in
  let query := dict_get cfg "query" (PStr "SELECT 1") in
  match py_or (dict_get cfg "connection_string" PNone) (dict_get cfg "target" PNone) with
  | PStr connection_string =>
      '(host, port, database) ← parse_connection_string connection_string;
      _ ← policy_assert_target_allowed block_private now connection_string;
      n ← py_range (dict_get cfg "retries" (PInt 1));
      let '(s, success) := tries (mysql_once (mysql_failure host port database timeout) net) n 0 db_start in
      Ok (db_result "mysql" host (PInt port) database query s success)
  | _ => Raise ValueError
  end.
End Mysql.

(** What caused an InternalClientError. *)
Inductive login_cause :=
  | CauseInterface (text : string)
  | CauseAttribute
  | CauseOther (text : string).

(** An exception of asyncpg by the classes the handlers name, of the socket, or of
    the code's own. *)
Inductive pg_error :=
  | PgInvalidPassword
  | PgInvalidCatalogName
  | PgCannotConnectNow
  | PgConnectionDoesNotExist
  | PgSyntax (text : string)
  | PgTooManyConnections (text : string)
  | PgServer (text : string)                        (* any other PostgresError *)
  | PgTimeout
  | PgOS (text : string)
  | PgClientConfiguration (text : string)
  | PgInterface (text : string)
  | PgInternalClient (text : string) (cause : option login_cause)
  | PgOther (text : string).

(** [isinstance(e, asyncpg.PostgresError)], and what asyncpg documents of it: the
    errors a server reports are, that it has too many connections among them. *)
Class Asyncpg := { postgres_error : pg_error -> bool }.
Class AsyncpgLaws `{Asyncpg} : Prop := {
  server_errors e : postgres_error e = match e with
    | PgInvalidPassword | PgInvalidCatalogName | PgCannotConnectNow | PgConnectionDoesNotExist | PgSyntax _
    | PgTooManyConnections _ | PgServer _ => true
    | _ => false
    end }.

Record pg_attempt := PgAttempt { pa_connect : pyval + pg_error; pa_query : db_answer + pg_error }.

Section Postgres.
Context `{PyRuntime} `{CheckEnv} `{Sockets} `{Asyncpg}.

(** [_endpoint] *)
Definition endpoint (connection_string : string) : res (string * option Z) :=
  parsed ← urlsplit connection_string;
  match port_or 5432 parsed with
  | Ok port => Ok (default "unknown" (Url.hostname parsed), Some port)
  | Raise ValueError =>
      if contains "," (rpartition "@" (netloc parsed)).2 then
        let hosts := join "," (extract_hosts connection_string) in
        Ok (if String.eqb hosts "" then "unknown" else hosts, None)
      else Raise CheckConfigError
  | Raise e => Raise e
  end.

(** [_login_failure] *)
Definition login_failure (cause : option login_cause) : option (string * string) :=
  match cause with
  | None => None
  | Some (CauseInterface t) => Some ("Login method unavailable: " +:+ t, "connection_error")
  | Some CauseAttribute =>
      Some ("Authentication failed - the server asked for a password and the connection string gives none",
            "authentication_error")
  | Some (CauseOther t) => Some ("Authentication failed: " +:+ t, "authentication_error")
  end.

(** [str(e)] *)
Definition pg_text (e : pg_error) : string :=
  match e with
  | PgSyntax t | PgTooManyConnections t | PgServer t | PgOS t | PgClientConfiguration t | PgInterface t
  | PgInternalClient t _ | PgOther t => t
  | _ => ""
  end.

(** The handlers, in their order; [logged_in] is [conn is not None]. *)
Definition pg_failure (site database : string) (timeout : pyval) (logged_in : bool) (e : pg_error) : string * string :=
  match e with
  | PgInvalidPassword => ("Authentication failed - invalid username or password", "authentication_error")
  | PgInvalidCatalogName => ("Database does not exist: " +:+ database, "connection_error")
  | PgCannotConnectNow => ("Database is not accepting connections", "connection_error")
  | PgConnectionDoesNotExist => ("Cannot connect to " +:+ site, "connection_error")
  | PgSyntax t => ("SQL syntax error in query: " +:+ t, "query_error")
  | _ =>
      if postgres_error e then ("PostgreSQL error: " +:+ pg_text e, "database_error") else
      match e with
      | PgTooManyConnections _ => ("Too many connections to database", "connection_error")
      | PgTimeout => ("Connection/query timed out after " +:+ py_str timeout +:+ "s", "timeout_error")
      | PgOS t => ("Cannot connect to " +:+ site +:+ ": " +:+ t, "connection_error")
      | PgClientConfiguration t => ("Connection settings refused: " +:+ t, "connection_error")
      | PgInterface t =>
          if logged_in then ("PostgreSQL client error: " +:+ t, "query_error")
          else ("Login method unavailable: " +:+ t, "connection_error")
      | PgInternalClient t cause =>
          match (if logged_in then None else login_failure cause) with
          | Some failure => failure
          | None => ("Unexpected error: " +:+ t, "unknown_error")
          end
      | e => ("Unexpected error: " +:+ pg_text e, "unknown_error")
      end
  end.

Definition pg_once (failure : bool -> pg_error -> string * string) (net : nat -> pg_attempt) (i : nat) (s : db_state)
    : db_state * bool :=
  let a := net i in
  match pa_connect a with
  | inr e => (db_failed s (failure false e), false)
  | inl latency =>
      let s := db_connected s latency in
      match pa_query a with
      | inr e => (db_failed s (failure true e), false)
      | inl answer => (db_answered s answer, true)
      end
  end.

Definition postgres_run (block_private : bool) (now : instant) (net : nat -> pg_attempt) (cfg : pydict) : res check_output :=
  let timeout := dict_get cfg "timeout" (PInt 5) in
  let query := dict_get cfg "query" (PStr "SELECT 1") in
  match py_or (dict_get cfg "connection_string" PNone) (dict_get cfg "target" PNone) with
  | PStr connection_string =>
      parsed ← urlsplit connection_string;
      '(host, port) ← endpoint connection_string;
      let site := match port with Some p => host +:+ ":" +:+ py_str (PInt p) | None => host end in
      let database := database_of "unknown" parsed in
      _ ← policy_assert_target_allowed block_private now connection_string;
      n ← py_range (dict_get cfg "retries" (PInt 1));
      let '(s, success) := tries (pg_once (pg_failure site database timeout) net) n 0 db_start in
      Ok (db_result "postgres" host (opt_int port) database query s success)
  | _ => Raise CheckConfigError
  end.
End Postgres.

(** ** A check's run *)

(** What the network answers to a run of each kind, and the time it resolves at. *)
Record network `{Httpx} := Network {
  nw_now : instant;
  nw_send : nat -> nat -> request -> tried response;
  nw_latency : nat -> pyval;
  nw_answers : string -> Z -> bool;
  nw_handshake : string -> Z -> string -> option certificate;
  nw_tcp : string -> pyval -> nat -> tcp_attempt;       (* by the host and the port *)
  nw_ping : list string -> nat -> ping_attempt;         (* by the command *)
  nw_dns : nat -> dns_attempt;
  nw_mysql : nat -> mysql_attempt;
  nw_pg : nat -> pg_attempt;
  nw_script : res check_output;                         (* what a synthetic check's script comes to *)
}.

Section Run.
Context `{PyRuntime} `{CheckEnv} `{Httpx} `{Sockets} `{Asyncpg}.
Context (os : os_name) (strftime : instant -> string) (block_private : bool).

(** [check.run()], by the class of the check's type. *)
Definition run (net : network) (cfg : pydict) : res check_output :=
  match dict_get cfg "check_type" PNone with
  | PStr t =>
      if String.eqb t "http" then
        http_run (nw_send net) (nw_latency net)
          (match dict_get cfg "target" PNone with
           | PStr target => get_ssl_certificate_info (nw_answers net) (nw_handshake net) strftime block_private (nw_now net) target
           | _ => None
           end) cfg
      else if String.eqb t "json" then json_run (nw_send net) (nw_latency net) cfg
      else if String.eqb t "tcp" then
        tcp_run block_private
          (nw_tcp net (match dict_get cfg "target" PNone with PStr h => h | _ => "" end) (dict_get cfg "port" PNone)) cfg
      else if String.eqb t "ping" then ping_run os block_private (nw_now net) (nw_ping net) cfg
      else if String.eqb t "dns" then dns_run block_private (nw_now net) (nw_dns net) cfg
      else if String.eqb t "mysql" then mysql_run block_private (nw_now net) (nw_mysql net) cfg
      else if String.eqb t "postgres" then postgres_run block_private (nw_now net) (nw_pg net) cfg
      else nw_script net
  | _ => Raise KeyError
  end.

(** An attempt of [CheckExecutor] as the network has it: the sleep before it, the
    wait for its slot and how long it holds it, cut at the check's timeout. *)
Definition attempt_of (timeout : Z) (cfg : pydict) (net : network) (slept waited lasted : Z) : trial :=
  Trial slept waited lasted (if (timeout <? lasted)%Z then TimedOut else outcome_of_run (run net cfg)).
End Run.
