(* ===== verification/CheckRunsTheorems.v ===== *)
(** * CheckRunsTheorems

    What a check's run answers.  An HTTP check passes when the first response meets
    every criterion of its configuration, a JSON check when the value its path finds
    is what the expected text says; redirects are followed one at a time and no more
    than twenty.  As the server configures them, every run ends with a result, which
    has an error exactly when it failed, unless the policy or the configuration
    forbids the attempt.  And where a result misleads: a peer that answers nothing
    passes a test of its answer, a failed attempt's error stays on a success. *)

From S2P Require Import Prelude Py Text Net Url Ssrf SsrfTheorems Store Checks AgentRun AgentRunTheorems CheckRuns.

(** ** Attempts *)

Section Tries.
Context {S : Type} (attempt : nat -> S -> S * bool) (ok : nat -> bool).
Hypothesis decided : forall i s, (attempt i s).2 = ok i.

(** The first attempt that succeeds ends the loop. *)
Lemma tries_done n i s : (tries attempt n i s).2 = existsb ok (seq i n).
Proof.
  revert i s. induction n as [|n IH]; intros i s; cbn [tries seq existsb]; [done|].
  pose proof (decided i s) as Hd. destruct (attempt i s) as [s' b]. cbn in Hd. subst b.
  destruct (ok i); [done|]. apply IH.
Qed.
End Tries.

(** Something holds of the result when every attempt ends with it; [P] is what an
    attempt leaves. *)
Lemma tries_result {S} (attempt : nat -> S -> S * bool) (P : S * bool -> Prop) n i s :
  P (s, false) -> (forall i s, P (s, false) -> P (attempt i s)) -> P (tries attempt n i s).
Proof.
  intros H0 Ha. revert i s H0. induction n as [|n IH]; intros i s H0; cbn [tries]; [done|].
  pose proof (Ha i s H0) as H1. destruct (attempt i s) as [s' [|]]; [done|]. by apply IH.
Qed.

(** [x], after failures only. *)
Definition first_answer {A} (once : nat -> tried A) (n i : nat) (x : A) : Prop :=
  i < n /\ once i = Got x /\ forall j, j < i -> exists e, once j = Threw e.

Lemma first_answer_unique {A} (once : nat -> tried A) n i j x y : first_answer once n i x -> first_answer once n j y -> j = i /\ y = x.
Proof.
  intros (_ & Hi & Hbi) (_ & Hj & Hbj). assert (j = i) as ->.
  { destruct (decide (j < i)) as [Hl|]; [destruct (Hbi _ Hl); congruence|].
    destruct (decide (i < j)) as [Hl|]; [destruct (Hbj _ Hl); congruence|lia]. }
  split; congruence.
Qed.

Section Requests.
Context (once : nat -> tried response) (latency : nat -> pyval).

Lemma request_tries_threw n i last e : request_tries once latency n i last = inr e -> last <> None \/ 0 < n -> e <> None.
Proof.
  revert i last. induction n as [|n IH]; intros i last; cbn [request_tries]; [intros [= <-]; intros [|]; [done|lia]|].
  destruct (once i); [done|]. intros E _. apply (IH _ _ E). by left.
Qed.

Lemma request_tries_got n i last r l : request_tries once latency n i last = inl (r, l) <->
  exists j, i <= j < i + n /\ once j = Got r /\ l = latency j /\ forall k, i <= k < j -> exists e, once k = Threw e.
Proof.
  revert i last. induction n as [|n IH]; intros i last; cbn [request_tries]; [split; [done|intros (j & ? & _); lia]|].
  destruct (once i) as [x|e] eqn:E.
  - split.
    + intros [= <- <-]. exists i. split_and!; [lia|lia|done|done|]. intros k. lia.
    + intros (j & Hj & Hr & -> & Hk). destruct (decide (i < j)) as [Hlt|]; [destruct (Hk i) as [? ?]; [lia|congruence]|].
      replace j with i in * by lia. congruence.
  - rewrite IH. split; intros (j & Hj & Hr & Hl & Hk); exists j.
    + split_and!; [lia|lia|done|done|]. intros k Hk'. destruct (decide (k = i)) as [->|]; [by exists e|]. apply Hk. lia.
    + assert (j <> i) by congruence. split_and!; [lia|lia|done|done|]. intros k Hk'. apply Hk. lia.
Qed.

Lemma request_tries_first n r l : request_tries once latency n 0 None = inl (r, l) <-> exists j, first_answer once n j r /\ l = latency j.
Proof.
  rewrite request_tries_got. split.
  - intros (j & Hj & Hr & Hl & Hk). exists j. split; [|done]. split_and!; [lia|done|]. intros k Hk'. apply Hk. lia.
  - intros (j & (Hj & Hr & Hk) & Hl). exists j. split_and!; [lia|lia|done|done|]. intros k Hk'. apply Hk. lia.
Qed.
End Requests.

(** ** Redirects *)

Section Redirects.
Context `{PyRuntime} `{CheckEnv} `{Httpx}.

(** From [q], its [i]-th, [send] goes through redirects to [r], [n] requests on. *)
Inductive leads (send : nat -> request -> tried response) : nat -> request -> nat -> response -> Prop :=
  | leads_here i q r : send i q = Got r -> leads send i q 0 r
  | leads_on i q r q' n r' : send i q = Got r -> is_redirect r = true -> next_request r = Some q' ->
      leads send (S i) q' n r' -> leads send i q (S n) r'.

Definition final (r : response) : Prop := is_redirect r = true -> next_request r = None.

Lemma hops_spec send limit i q r : hops send limit i q = Got r ->
  exists n, n <= limit /\ leads send i q n r /\ (n < limit -> final r).
Proof.
  revert i q. induction limit as [|limit IH]; intros i q; cbn [hops].
  { intros E. exists 0. split_and!; [lia|by constructor|lia]. }
  destruct (send i q) as [x|] eqn:E; [|done]. destruct (is_redirect x) eqn:Er.
  - destruct (next_request x) as [q'|] eqn:En.
    + intros (n & Hn & Hl & Hf)%IH. exists (S n). split_and!; [lia|by eapply leads_on|]. intros Hlt. apply Hf. lia.
    + intros [= <-]. exists 0. split_and!; [lia|by constructor|]. by intros _ _.
  - intros [= <-]. exists 0. split_and!; [lia|by constructor|]. intros _ ?. congruence.
Qed.

(** The answer of a guarded send is reached from the request asked for by redirects
    alone, each taken from the response before it: none where they are off, at most
    twenty, and only a twentieth may leave a redirect unfollowed. *)
Theorem redirects_followed send method url headers body follow r :
  ssrf_guarded_send send method url headers body follow 20 = Got r ->
  exists m q n, method = PStr m /\ leads send 0 q n r /\ n <= 20 /\ (follow = false -> n = 0)
    /\ build_request m url headers (if bool_decide (upper m ∈ ["GET"; "HEAD"; "OPTIONS"]) then PNone else body) = Got q
    /\ (follow = true -> n < 20 -> final r).
Proof.
  unfold ssrf_guarded_send. destruct method as [| | | |m| |]; try done. destruct (build_request _ _ _ _) as [q|] eqn:Eq; [|done].
  intros (n & Hn & Hl & Hf)%hops_spec. exists m, q, n. destruct follow; (split_and!; [done|done|lia|..]); try done; lia.
Qed.
End Redirects.

(** ** A result, and why *)

(** A result succeeds without an error, or fails with one that says something. *)
Definition reports (o : check_output) : Prop :=
  match out_error o with None => out_success o = true | Some e => out_success o = false /\ e <> "" end.

Lemma failure_reports latency e metrics fields : e <> "" -> reports (create_result false latency (Some e) metrics fields).
Proof. intros He. unfold create_result, reports; cbn. by destruct e. Qed.
Lemma success_reports latency metrics fields : reports (create_result true latency None metrics fields).
Proof. done. Qed.

Lemma reports_verdict o : reports o -> out_success o = true <-> out_error o = None.
Proof. unfold reports. destruct (out_error o); [intros [-> _]; split; congruence|intros ->; done]. Qed.

Lemma join_nonempty sep l : l <> [] -> Forall (fun e => e <> "") l -> join sep l <> "".
Proof.
  destruct l as [|x l]; [done|]. intros _ Hl. inversion_clear Hl as [|? ? Hx _]. cbn.
  destruct l as [|y l]; [done|]. by destruct x.
Qed.

(** ** HTTP *)

Section Http.
Context `{PyRuntime} `{CheckEnv} `{Httpx}.

(** The status is the expected one, or one of them. *)
Definition status_expected (status : Z) (expected : pyval) : Prop :=
  match expected with
  | PList l => exists v, v ∈ l /\ py_eqb (PInt status) v = true
  | v => py_eqb (PInt status) v = true
  end.

Definition header_matches (r : response) (check : string * pyval) : Prop :=
  lower check.1 ∈ map (fun kv => lower kv.1) (rs_headers r)
  /\ py_eqb (match rs_header r check.1 with Some v => PStr v | None => PNone end) check.2 = true.

(** What the configuration asks of a response. *)
Record meets (cfg : pydict) (r : response) (latency : pyval) : Prop := {
  meets_status : status_expected (rs_status r) (dict_get cfg "expected_status" (PInt 200));
  meets_time : let m := dict_get cfg "max_response_time" PNone in truthy m = true -> py_gt latency m = Ok false;
  meets_content : let p := dict_get cfg "content_regex" PNone in truthy p = true ->
    exists s t, p = PStr s /\ rs_text r = Some t /\ re_search s t = Ok true;
  meets_headers : exists checks, dict_get cfg "header_checks" (PDict []) = PDict checks /\ Forall (header_matches r) checks }.

Lemma existsb_py_eqb v l : existsb (py_eqb v) l = true <-> exists x, x ∈ l /\ py_eqb v x = true.
Proof. rewrite existsb_exists. split; intros (x & Hx & He); exists x; split; try done; by apply list_elem_of_In. Qed.

Lemma check_status_nil r expected : check_status r expected = [] <-> status_expected (rs_status r) expected.
Proof.
  unfold check_status, status_expected. destruct expected as [| | | | |l|]; try (case_match; done).
  rewrite <- existsb_py_eqb. by destruct (existsb _ _).
Qed.

Lemma check_time_nil latency m : check_time latency m = Ok [] <-> (truthy m = true -> py_gt latency m = Ok false).
Proof.
  unfold check_time. destruct (truthy m); cbn [negb]; [|split; [done|by intros _]].
  destruct (py_gt latency m) as [[|]|]; cbn [mbind res_bind]; split; try done; intros Hm; discriminate (Hm eq_refl).
Qed.

Lemma check_content_nil r p : check_content r p = Ok [] <->
  (truthy p = true -> exists s t, p = PStr s /\ rs_text r = Some t /\ re_search s t = Ok true).
Proof.
  unfold check_content, text. destruct (truthy p); cbn [negb]; [|split; [done|by intros _]].
  destruct (rs_text r) as [t|]; cbn [mbind res_bind]; [|split; [done|intros Hs; destruct (Hs eq_refl) as (? & ? & _ & ? & _); done]].
  destruct p as [| | | |s| |]; try (split; [done|intros Hs; destruct (Hs eq_refl) as (? & ? & ? & _); done]).
  destruct (re_search s t) as [b|] eqn:E; cbn [mbind res_bind].
  - split; [intros Hb _; exists s, t; by destruct b|]. intros Hs. destruct (Hs eq_refl) as (? & ? & [= <-] & [= <-] & Hb).
    rewrite E in Hb. by injection Hb as ->.
  - split; [done|]. intros Hs. destruct (Hs eq_refl) as (? & ? & [= <-] & [= <-] & Hb). congruence.
Qed.

Lemma check_header_nil r c : check_header r c = [] <-> header_matches r c.
Proof.
  unfold check_header, header_matches. destruct c as [h v]. cbn. case_bool_decide as Hin; [|split; [done|by intros [? _]]].
  destruct (py_eqb _ v); split; try done. by intros [_ ?].
Qed.

Lemma concat_nil {A} (l : list (list A)) : concat l = [] <-> Forall (fun x => x = []) l.
Proof.
  induction l as [|x l IH]; cbn; [by split|]. rewrite app_nil, Forall_cons, IH. done.
Qed.

Lemma validate_nil r cfg latency : validate_response r cfg latency = Ok [] <-> meets cfg r latency.
Proof.
  unfold validate_response. split.
  - intros E. inv_res. destruct (dict_get cfg "header_checks" _) as [| | | | | |checks] eqn:Ec; try done. injection E as E.
    apply app_nil in E as [Ha [Hb [Hc Hd]%app_nil]%app_nil]. subst. split; [by apply check_status_nil|by apply check_time_nil|by apply check_content_nil|].
    exists checks. split; [done|]. apply concat_nil in Hd. rewrite Forall_fmap in Hd. eapply Forall_impl; [exact Hd|].
    intros c. apply check_header_nil.
  - intros [Ha Hb Hc (checks & Ec & Hd)]. apply check_status_nil in Ha. apply check_time_nil in Hb. apply check_content_nil in Hc.
    rewrite Hb, Hc. cbn [mbind res_bind]. rewrite Ec, Ha. cbn. f_equal. apply concat_nil. rewrite Forall_fmap.
    eapply Forall_impl; [exact Hd|]. intros c. apply check_header_nil.
Qed.

(** Every error has a text. *)
Abbreviation speaking := (Forall (fun e : string => e <> "")).

Lemma validate_speaking r cfg latency errors : validate_response r cfg latency = Ok errors -> speaking errors.
Proof.
  assert (speaking (check_status r (dict_get cfg "expected_status" (PInt 200)))) as Hst.
  { unfold check_status. repeat case_match; repeat constructor; done. }
  assert (forall m e, check_time latency m = Ok e -> speaking e) as Hti.
  { unfold check_time. intros m e E. case_match; inv_res; [constructor|]. case_match; repeat constructor; done. }
  assert (forall p e, check_content r p = Ok e -> speaking e) as Hco.
  { unfold check_content. intros p e E. repeat case_match; inv_res; try done; repeat case_match; repeat constructor; done. }
  unfold validate_response. intros E. inv_res. destruct (dict_get cfg "header_checks" _) as [| | | | | |checks]; try done.
  injection E as <-. rewrite !Forall_app. split_and!; [done|by eapply Hti|by eapply Hco|].
  induction checks as [|[h v] checks IH]; cbn; [constructor|]. apply Forall_app. split; [|exact IH].
  unfold check_header. repeat case_match; repeat constructor; done.
Qed.

Section Wire.
Context (send : nat -> nat -> request -> tried response) (latency : nat -> pyval).

(** The target is a text whose port can be read. *)
Definition readable_target (cfg : pydict) (target : string) : Prop :=
  assoc_get cfg "target" = Some (PStr target) /\ exists u p, urlsplit target = Ok u /\ port u = Ok p.

Lemma url_errors target e : (u ← urlsplit target; port u) = Raise e -> e = ValueError.
Proof.
  unfold urlsplit, port. intros E. repeat (case_match; simplify_eq/=; try done); try congruence.
Qed.

(** Getting a response: the first attempt that has one, or a failure that says why. *)
Lemma fetch_inv cfg headers body x : fetch send latency cfg headers body = Ok x ->
  exists target, assoc_get cfg "target" = Some (PStr target) /\ match x with
    | inl (r, l) => readable_target cfg target /\ exists n j, py_range (dict_get cfg "retries" (PInt 1)) = Ok n
        /\ first_answer (attempt_request send cfg target headers body) n j r /\ l = latency j
    | inr o => out_success o = false /\ reports o
        /\ forall n j r, py_range (dict_get cfg "retries" (PInt 1)) = Ok n -> readable_target cfg target ->
             ~ first_answer (attempt_request send cfg target headers body) n j r
    end.
Proof.
  unfold fetch, item_of. intros E. destruct (assoc_get cfg "target") as [[| | | |target| |]|] eqn:Et; cbn [mbind res_bind as_text] in E; try done.
  exists target. destruct (u ← urlsplit target; port u) as [p|e] eqn:Ep.
  - destruct (py_range _) as [n|] eqn:En; cbn [mbind res_bind] in E; [|done]. split; [done|].
    assert (readable_target cfg target) as Hr.
    { split; [done|]. destruct (urlsplit target) as [u|]; [|done]. exists u, p. done. }
    destruct (request_tries _ _ _ _ _) as [[r l]|last] eqn:Erq; injection E as <-.
    + apply request_tries_first in Erq as (j & Hj & ->). split; [done|]. by exists n, j.
    + split; [done|]. split; [apply failure_reports; by destruct last|]. intros n' j r [= <-] _ Hf.
      assert (request_tries (attempt_request send cfg target headers body) latency n 0 None = inl (r, latency j)) as E2.
      { apply request_tries_first. by exists j. }
      congruence.
  - split; [done|]. assert (e = ValueError) as -> by (by eapply url_errors). injection E as <-.
    split; [done|]. split; [by apply failure_reports|]. intros n j r _ (_ & u & p & Hu & Hp). rewrite Hu in Ep. cbn in Ep. congruence.
Qed.

(** An HTTP check passes exactly when an attempt has a response, no earlier one has,
    and that response meets every criterion of the configuration; and it reports an
    error exactly when it does not pass. *)
Theorem http_verdict ssl_info cfg o : http_run send latency ssl_info cfg = Ok o ->
  reports o /\ (out_success o = true <-> exists target n j r, readable_target cfg target
    /\ py_range (dict_get cfg "retries" (PInt 1)) = Ok n
    /\ first_answer (attempt_request send cfg target (dict_get cfg "headers" (PDict [])) (dict_get cfg "body" PNone)) n j r
    /\ meets cfg r (latency j)).
Proof.
  unfold http_run. intros E. destruct (fetch _ _ _ _ _) as [x|] eqn:Ef; cbn [mbind res_bind] in E; [|done].
  apply fetch_inv in Ef as (target & Ht & Hx). destruct x as [[r l]|failed].
  - destruct Hx as (Hread & n & j & Hn & Hj & ->). destruct (validate_response _ _ _) as [errors|] eqn:Ev; cbn [mbind res_bind] in E; [|done].
    assert (errors = [] <-> meets cfg r (latency j)) as Hm.
    { rewrite <- validate_nil, Ev. split; [by intros ->|congruence]. }
    injection E as <-. split.
    { destruct errors as [|e errors]; [done|]. apply failure_reports. apply join_nonempty; [done|]. by eapply validate_speaking. }
    transitivity (errors = []); [by destruct errors|]. rewrite Hm. split; [intros Hmt; by exists target, n, j, r|].
    intros (t' & n' & j' & r' & (Ht' & _) & Hn' & Hj' & Hmt). assert (t' = target) as -> by congruence. assert (n' = n) as -> by congruence.
    destruct (first_answer_unique _ _ _ _ _ _ Hj Hj') as [-> ->]. done.
  - injection E as <-. destruct Hx as (Hf & Hr & Hno). split; [done|]. rewrite Hf. split; [done|].
    intros (t' & n & j & r & Hread & Hn & Hj & _). destruct Hread as [Ht' Hu]. assert (t' = target) as -> by congruence.
    by destruct (Hno n j r).
Qed.
(** ** JSON *)

(** What an expected text says of a value read from a document. *)
Definition says (expected : string) (v : pyval) : Prop :=
  match v with
  | PBool b => b = String.eqb (lower expected) "true"
  | PInt z => int_of_text expected = Ok z
  | PFloat f => exists g, float_of_str expected = Some g /\ num_cmp (NFloat f) (NFloat g) = Some Eq
  | PStr s => s = expected
  | _ => False
  end.

Lemma int_of_text_errors s e : int_of_text s = Raise e -> e = ValueError.
Proof. unfold int_of_text, int_of_word. intros E. repeat (case_match; simplify_eq; try done); congruence. Qed.

Lemma text_converted v expected : exists e, convert_expected v (PStr expected) = Ok e /\ (py_eqb v e = true <-> says expected v).
Proof.
  unfold convert_expected, says. destruct v as [|b|z|f|s|l|d]; cbn [int_of_value float_of_value or_keep].
  - by exists (PStr expected).
  - eexists. split; [done|]. destruct b, (String.eqb _ "true"); done.
  - destruct (int_of_text expected) as [y|e] eqn:E; cbn [fmap res_fmap].
    + exists (PInt y). split; [done|]. cbn. destruct (Z.compare_spec z y) as [->|Hl|Hl]; split; try done; intros [= ->]; lia.
    + apply int_of_text_errors in E as ->. by exists (PStr expected).
  - destruct (float_of_str expected) as [g|] eqn:E; cbn [fmap res_fmap].
    + exists (PFloat g). split; [done|]. cbn. split.
      * intros Hc. exists g. split; [done|]. cbn. by destruct (SFcompare f g) as [[]|].
      * intros (g' & [= <-] & Hc). cbn in Hc. by rewrite Hc.
    + exists (PStr expected). split; [done|]. split; [done|]. by intros (g & ? & _).
  - exists (PStr expected). split; [done|]. cbn. apply String.eqb_eq.
  - by exists (PStr expected).
  - by exists (PStr expected).
Qed.

Lemma text_equals v expected : exists b e, compare_values v (PStr expected) (PStr "equals") = Ok (b, e)
  /\ (b = true <-> says expected v) /\ (if b then e = None else exists t, e = Some t /\ t <> "").
Proof.
  destruct (text_converted v expected) as (e & Ee & He). unfold compare_values. rewrite Ee. cbn [mbind res_bind].
  rewrite bool_decide_eq_true_2 by by left. unfold verdict_of. destruct (py_eqb v e).
  - exists true, None. split; [done|]. split; [tauto|done].
  - eexists false, _. split; [done|]. split; [tauto|]. eexists. split; done.
Qed.

(** A JSON check whose expected value is a text to equal passes exactly when an
    attempt has a response, no earlier one has, its status is the expected one, its
    body is a JSON document, and the value the path finds there is what the text
    says: as a boolean, a number or a text, by what it is. *)
Theorem json_verdict cfg path expected o : assoc_get cfg "json_path" = Some path ->
  assoc_get cfg "expected_value" = Some (PStr expected) -> dict_get cfg "comparison_type" (PStr "equals") = PStr "equals" ->
  json_run send latency cfg = Ok o ->
  reports o /\ (out_success o = true <-> exists target headers n j r document v, readable_target cfg target
    /\ json_headers (dict_get cfg "headers" (PDict [])) = Ok headers
    /\ py_range (dict_get cfg "retries" (PInt 1)) = Ok n
    /\ first_answer (attempt_request send cfg target headers (json_body (dict_get cfg "body" PNone))) n j r
    /\ py_eqb (PInt (rs_status r)) (dict_get cfg "expected_status" (PInt 200)) = true
    /\ rs_json r = Got document /\ resolve_json_path document path = Got v /\ says expected v).
Proof.
  intros Hp He Hc. unfold json_run, item_of. rewrite Hp, He, Hc. cbn [mbind res_bind].
  destruct (json_headers _) as [headers|]; cbn [mbind res_bind]; [|done].
  destruct (fetch _ _ _ _ _) as [x|] eqn:Ef; cbn [mbind res_bind]; [|done].
  apply fetch_inv in Ef as (target & Ht & Hx). destruct x as [[r l]|failed]; intros E.
  - destruct Hx as (Hread & n & j & Hn & Hj & ->).
    enough (reports o /\ (out_success o = true <-> py_eqb (PInt (rs_status r)) (dict_get cfg "expected_status" (PInt 200)) = true
      /\ exists document v, rs_json r = Got document /\ resolve_json_path document path = Got v /\ says expected v)) as [Hr Hiff].
    { split; [done|]. rewrite Hiff. split.
      - intros (Hs & document & v & Hd & Hv & Hsay). by exists target, headers, n, j, r, document, v.
      - intros (t' & h' & n' & j' & r' & document & v & (Ht' & _) & Hh' & Hn' & Hj' & Hs & Hd & Hv & Hsay).
        assert (t' = target) as -> by congruence. assert (h' = headers) as -> by congruence. assert (n' = n) as -> by congruence.
        destruct (first_answer_unique _ _ _ _ _ _ Hj Hj') as [-> ->]. split; [done|]. by exists document, v. }
    destruct (py_eqb _ _) eqn:Es; cbn [negb] in E; [|injection E as <-; split; [by apply failure_reports|split; [done|by intros [? _]]]].
    destruct (rs_json r) as [document|e];
      [|destruct (text r); [|done]; injection E as <-; split; [by apply failure_reports|split; [done|by intros (_ & ? & ? & ? & _)]]].
    destruct (resolve_json_path document path) as [v|e] eqn:Ev;
      [|injection E as <-; split; [by apply failure_reports|split; [done|intros (_ & ? & ? & [= <-] & ? & _); congruence]]].
    destruct (text_equals v expected) as (b & e & Ec & Hb & Hw). rewrite Ec in E. cbn [mbind res_bind] in E. injection E as <-.
    split.
    + destruct b; [by rewrite Hw|]. destruct Hw as (t & -> & Hne). by apply failure_reports.
    + cbn. rewrite Hb. split; [intros Hsay; split; [done|]; by exists document, v|].
      intros (_ & ? & ? & [= <-] & Hv & Hsay). congruence.
  - injection E as <-. destruct Hx as (Hf & Hr & Hno). split; [done|]. rewrite Hf. split; [done|].
    intros (t' & h' & n & j & r & ? & ? & Hread & Hh & Hn & Hj & _). destruct Hread as [Ht' Hu]. assert (t' = target) as -> by congruence.
    assert (h' = headers) as -> by congruence. by destruct (Hno n j r).
Qed.
End Wire.
End Http.

(** ** The policy on addresses *)

(** [getaddrinfo] of a name IDNA encodes raises socket.gaierror alone, an OSError. *)
Class SocketLaws `{Sockets} : Prop := {
  getaddrinfo_errors now h e : vet_host_name h = Ok tt -> getaddrinfo now h = Raise e -> e = OSError }.

(** What a run may end with: a result that reports, or a refusal. *)
Definition answers (r : res check_output) : Prop :=
  match r with Ok o => reports o | Raise CheckConfigError | Raise SsrfBlockedError => True | Raise _ => False end.
Definition refusal (e : exn) : Prop := e = CheckConfigError \/ e = SsrfBlockedError.

Lemma refusal_answers e : refusal e -> answers (Raise e).
Proof. by intros [-> | ->]. Qed.

Lemma answers_bind {A} (r : res A) (f : A -> res check_output) : (forall e, r = Raise e -> refusal e) ->
  (forall a, r = Ok a -> answers (f a)) -> answers (r ≫= f).
Proof. destruct r as [a|e]; intros He Hf; cbn; [by apply Hf|by apply refusal_answers, He]. Qed.

Lemma fold_unit_errors {X} (f : X -> res unit) l e : fold_res (fun _ x => f x) tt l = Raise e -> exists x, x ∈ l /\ f x = Raise e.
Proof.
  induction l as [|x l IH]; cbn [fold_res]; [done|]. destruct (f x) as [[]|e'] eqn:E; cbn [mbind res_bind].
  - intros (y & Hy & Ey)%IH. exists y. split; [by right|done].
  - intros [= ->]. exists x. split; [by left|done].
Qed.

Lemma vet_errors h e : vet_host_name h = Raise e -> e = CheckConfigError.
Proof. unfold vet_host_name. case_match; congruence. Qed.

Lemma assert_ip_errors bm bp ip e : assert_ip_allowed bm bp ip = Raise e -> e = SsrfBlockedError.
Proof. unfold assert_ip_allowed. case_match; congruence. Qed.

Section Policy.
Context `{SocketLaws}.

Lemma resolve_errors now h e : vet_host_name h = Ok tt -> resolve_host now h = Raise e -> False.
Proof.
  unfold resolve_host. intros Hv. destruct (ip_address h); [done|]. destruct (getaddrinfo now h) as [l|x] eqn:E; [done|].
  by apply getaddrinfo_errors in E as ->.
Qed.

Lemma policy_assert_errors bp now target e : policy_assert_target_allowed bp now target = Raise e -> refusal e.
Proof.
  unfold policy_assert_target_allowed. destruct (fold_res _ _ _) as [[]|x] eqn:Ev; cbn [mbind res_bind].
  - pose proof (proj1 (fold_unit_ok vet_host_name (extract_hosts target)) Ev) as Hv.
    unfold assert_target_allowed. cbn [negb andb]. intros (h & Hh & E)%(fold_unit_errors (fun host => _ ← _; _)).
    destruct (resolve_host now h) as [addresses|y] eqn:Er; cbn [mbind res_bind] in E.
    + apply (fold_unit_errors (assert_ip_allowed true bp)) in E as (ip & _ & E). right. by eapply assert_ip_errors.
    + by apply resolve_errors in Er; [|apply Hv].
  - intros [= <-]. apply (fold_unit_errors vet_host_name) in Ev as (h & _ & E). left. by eapply vet_errors.
Qed.

Lemma policy_allowed_errors bp now host e : policy_allowed_addresses bp now host = Raise e -> refusal e.
Proof.
  unfold policy_allowed_addresses. destruct (vet_host_name host) as [[]|x] eqn:Ev; cbn [mbind res_bind].
  - unfold allowed_addresses. destruct (resolve_host now host) as [addresses|y] eqn:Er; cbn [mbind res_bind].
    + destruct addresses as [|first addresses]; [done|]. destruct (filter _ _); [|done].
      destruct (assert_ip_allowed _ _ _) eqn:E; cbn [mbind res_bind]; [done|]. intros [= <-]. right. by eapply assert_ip_errors.
    + by apply resolve_errors in Er.
  - intros [= <-]. left. by eapply vet_errors.
Qed.
End Policy.

(** ** The other kinds *)

(** One attempt, as the server has every check run. *)
Lemma tries_one {S} (attempt : nat -> S -> S * bool) s : tries attempt 1 0 s = attempt 0 s.
Proof. cbn. by destruct (attempt 0 s) as [s' [|]]. Qed.

Lemma no_retries cfg : assoc_get cfg "retries" = None -> dict_get cfg "retries" (PInt 1) = PInt 1.
Proof. intros Hr. unfold dict_get. by rewrite Hr. Qed.

(** The error an attempt leaves and whether it ends the loop agree. *)
Definition tells (error : option string) (success : bool) : Prop :=
  match error with None => success = true | Some e => success = false /\ e <> "" end.

Lemma tells_reports success latency error metrics fields : tells error success ->
  reports (create_result success latency error metrics fields).
Proof. unfold tells, reports, create_result. cbn. destruct error as [e|]; [|done]. intros [-> He]. by destruct e. Qed.

Section Kinds.
Context `{PyRuntime} `{CheckEnv} (bp : bool).

Lemma tcp_error_speaks timeout e : (forall t, e <> TcpEcho t) -> tcp_error_text timeout e <> "".
Proof. intros He. destruct e as [[]| |t|]; cbn; try done. by destruct (He t). Qed.

Lemma echo_speaks timeout a send expect e : test_echo a send expect = inr e -> tcp_error_text timeout e <> "".
Proof.
  unfold test_echo. intros E. repeat (case_match; simplify_eq; try done); unfold echo_failed; repeat case_match; done.
Qed.

Lemma tcp_tells cfg host timeout net i s : tc_error s = None ->
  let '(s', success) := tcp_attempt_once bp cfg host timeout net i s in tells (tc_error s') success.
Proof.
  intros Hs. unfold tcp_attempt_once. assert (forall infos t, get_address_info bp infos <> inr (TcpEcho t)) as Hinfo.
  { intros infos t. unfold get_address_info. destruct infos; try done. repeat (case_match; try done). }
  destruct (get_address_info bp (ta_infos (net i))) as [[address|]|e] eqn:Ei; cbn.
  - destruct (policy_assert_ip_allowed bp address) as [[]|e].
    + destruct (ta_connect _ _) as [latency|e]; [|by destruct e].
      unfold exchange. destruct (truthy _ || truthy _).
      * destruct (test_echo _ _ _) as [[response echo]|e] eqn:Ee; destruct (ta_close (net i)); cbn; rewrite ?Hs; try done.
        split; [done|]. by eapply echo_speaks.
      * destruct (ta_close (net i)); cbn; by rewrite ?Hs.
    + by destruct e.
  - done.
  - split; [done|]. apply tcp_error_speaks. intros t ->. by apply Hinfo in Ei.
Qed.

Lemma tcp_answers net cfg host p : assoc_get cfg "target" = Some (PStr host) -> assoc_get cfg "port" = Some p ->
  assoc_get cfg "retries" = None -> answers (tcp_run bp net cfg).
Proof.
  intros Ht Hp Hr. unfold tcp_run, item_of. rewrite Ht, Hp. rewrite (no_retries cfg Hr). cbn [mbind res_bind as_text py_range].
  rewrite (tries_one (tcp_attempt_once bp cfg host _ net)).
  pose proof (tcp_tells cfg host (dict_get cfg "timeout" (PInt 2)) net 0 (TcpState PNone None []) eq_refl) as Hs.
  destruct (tcp_attempt_once _ _ _ _ _ _ _) as [s success]. by apply tells_reports.
Qed.

Context `{SocketLaws}.

Lemma ping_answers os now net cfg host t : assoc_get cfg "target" = Some (PStr host) -> dict_get cfg "timeout" (PInt 1) = PInt t ->
  assoc_get cfg "retries" = None -> answers (ping_run os bp now net cfg).
Proof.
  intros Ht Htm Hr. unfold ping_run, item_of. rewrite Ht. cbn [mbind res_bind as_text].
  apply answers_bind; [intros e; apply policy_allowed_errors|]. intros [|address addresses] _; [by apply failure_reports|].
  rewrite Htm. apply answers_bind.
  { unfold get_ping_args. intros e E. destruct os; cbn [mbind res_bind int_of_value py_int] in E; try done. by destruct (contains _ _). }
  intros args _. rewrite (no_retries cfg Hr). cbn [mbind res_bind py_range].
  rewrite (tries_one (ping_once (PInt t) (net args))). unfold ping_once.
  destruct (net args 0) as [[[]|] stdout stderr| |]; cbn; try done; try (by apply failure_reports).
  destruct (parse_ping_output stdout); [done|by apply failure_reports].
Qed.

Lemma dns_tells cfg domain rt timeout net i s : dn_error s = None ->
  let '(s', success) := dns_once cfg domain rt timeout net i s in tells (dn_error s') success.
Proof.
  intros Hs. unfold dns_once. destruct (dt_nameserver (net i)); [done|]. destruct (dt_answer (net i)) as [a|e]; [|by destruct e].
  destruct (map_res _ _) as [records|]; [|done].
  assert (forall v c t, expectation records v c = Ok (Some t) -> t <> "") as He.
  { unfold expectation. intros v c t E. inv_res. repeat (case_match; simplify_eq; try done). }
  destruct (expectation _ _ _) as [[t|]|] eqn:Ee; cbn; rewrite ?Hs; [split; [done|by eapply He]|done|done].
Qed.

Lemma dns_answers now net cfg domain rt ns : assoc_get cfg "target" = Some (PStr domain) -> assoc_get cfg "record_type" = Some (PStr rt) ->
  dict_get cfg "nameserver" (PStr "1.1.1.1") = PStr ns -> assoc_get cfg "retries" = None -> answers (dns_run bp now net cfg).
Proof.
  intros Ht Hrt Hns Hr. unfold dns_run, item_of. rewrite Ht, Hrt, Hns. cbn [mbind res_bind as_text].
  apply answers_bind; [intros e; apply policy_assert_errors|]. intros [] _. rewrite (no_retries cfg Hr).
  cbn [mbind res_bind py_range]. rewrite (tries_one (dns_once cfg domain (upper rt) _ net)).
  match goal with |- context [dns_once ?c ?d ?r ?t ?n ?i ?s] => pose proof (dns_tells c d r t n i s eq_refl) as Hs end.
  destruct (dns_once _ _ _ _ _ _ _) as [s success]. by apply tells_reports.
Qed.

(** *** Databases *)

Lemma port_or_errors dflt u e : port_or dflt u = Raise e -> e = ValueError.
Proof. unfold port_or, port. intros E. repeat (case_match; simplify_eq/=; try done). Qed.

Lemma mysql_failure_speaks host p database timeout e : (mysql_failure host p database timeout e).1 <> "".
Proof. unfold mysql_failure. repeat case_match; done. Qed.

Lemma mysql_answers now net cfg cs u : py_or (dict_get cfg "connection_string" PNone) (dict_get cfg "target" PNone) = PStr cs ->
  urlsplit cs = Ok u -> assoc_get cfg "retries" = None -> answers (mysql_run bp now net cfg).
Proof.
  intros Hc Hu Hr. unfold mysql_run, parse_connection_string. rewrite Hc, Hu. cbn [mbind res_bind].
  destruct (port_or 3306 u) as [p|e] eqn:Ep; cbn [mbind res_bind]; [|by apply port_or_errors in Ep as ->].
  apply answers_bind; [intros e; apply policy_assert_errors|]. intros [] _. rewrite (no_retries cfg Hr).
  cbn [mbind res_bind py_range]. change (Z.to_nat 1) with 1. match goal with |- context [tries ?f 1 0 ?s] => rewrite (tries_one f s) end.
  unfold mysql_once. match goal with |- context [mysql_failure ?h ?p ?d ?t] => pose proof (mysql_failure_speaks h p d t) as Hs end.
  destruct (ma_connect _); [|by apply failure_reports].
  destruct (ma_query _); [|by apply failure_reports]. destruct (ma_cursor_close _); [by apply failure_reports|done].
Qed.

Lemma pg_failure_speaks `{Asyncpg} site database timeout logged e : (pg_failure site database timeout logged e).1 <> "".
Proof. unfold pg_failure, login_failure. repeat case_match; simplify_eq; done. Qed.

Lemma postgres_answers `{Asyncpg} now net cfg cs u : py_or (dict_get cfg "connection_string" PNone) (dict_get cfg "target" PNone) = PStr cs ->
  urlsplit cs = Ok u -> assoc_get cfg "retries" = None -> answers (postgres_run bp now net cfg).
Proof.
  intros Hc Hu Hr. unfold postgres_run. rewrite Hc, Hu. cbn [mbind res_bind]. apply answers_bind.
  { unfold endpoint. rewrite Hu. cbn [mbind res_bind]. intros e. destruct (port_or 5432 u) as [p|x] eqn:Ep; [done|].
    apply port_or_errors in Ep as ->. destruct (contains _ _); [done|]. intros [= <-]. by left. }
  intros [host p] _. apply answers_bind; [intros e; apply policy_assert_errors|]. intros [] _. rewrite (no_retries cfg Hr).
  cbn [mbind res_bind py_range]. change (Z.to_nat 1) with 1. match goal with |- context [tries ?f 1 0 ?s] => rewrite (tries_one f s) end.
  unfold pg_once. match goal with |- context [pg_failure ?h ?d ?t] => pose proof (pg_failure_speaks h d t) as Hs end.
  destruct (pa_connect _); [|by apply failure_reports]. destruct (pa_query _); [done|by apply failure_reports].
Qed.
End Kinds.

(** ** Checks as the server sends them *)

Lemma dict_get_some (d : pydict) k v : dict_get d k PNone = v -> v <> PNone -> assoc_get d k = Some v.
Proof. unfold dict_get. destruct (assoc_get d k); cbn; congruence. Qed.

Lemma dict_get_absent (d : pydict) k : (forall v0, dict_get d k v0 = v0) -> assoc_get d k = None.
Proof.
  unfold dict_get. intros Hd. destruct (assoc_get d k) as [v|]; [|done]. pose proof (Hd PNone) as Ha. pose proof (Hd (PBool true)) as Hb.
  cbn in *. congruence.
Qed.

Section Served.
Context `{Drivers}.

(** The keys only a check written by hand would have. *)
Definition unserved : list string :=
  ["retries"; "headers"; "body"; "follow_redirects"; "max_response_time"; "content_regex"; "header_checks"; "comparison_type";
   "send_string"; "expect_string"; "count"; "expect_count"].

Lemma copy_set_never_none src cfg kk k : assoc_get cfg k <> Some PNone -> assoc_get (copy_set src cfg kk) k <> Some PNone.
Proof.
  intros Hk. unfold copy_set. destruct (dict_get src kk.1 PNone); try done; rewrite assoc_get_set; destruct (decide _); congruence.
Qed.

Lemma transform_never_none e t cfg k v : transform_check_config e t = Ok cfg -> (v, k) ∈ COPIED ->
  assoc_get cfg k <> Some PNone.
Proof.
  unfold transform_check_config. set (base := [("check_id", _); _; _; _; _; _; _; _; _]). intros Ht Hk.
  assert (k <> "target" /\ k <> "port" /\ assoc_get base k = None) as (Htg & Hp & Hb).
  { clear Ht. repeat (apply elem_of_cons in Hk as [[= -> ->]|Hk]; [by split_and!|]). by apply elem_of_nil in Hk. }
  set (cfg1 := fold_left (copy_set e) COPIED base) in *.
  assert (assoc_get cfg1 k <> Some PNone) as H1.
  { unfold cfg1. assert (assoc_get base k <> Some PNone) as H0 by congruence. clearbody base. revert H0. generalize COPIED base.
    intros l. induction l as [|kk l IH]; intros b Hb'; cbn [fold_left]; [done|]. by apply IH, copy_set_never_none. }
  clearbody cfg1.
  assert (forall c, (if String.eqb t "tcp" then tcp_target e cfg1 else Ok cfg1) = Ok c -> assoc_get c k <> Some PNone) as H2.
  { intros c Hc. destruct (String.eqb t "tcp"); [|by injection Hc as <-]. unfold tcp_target in Hc.
    destruct (dict_get e "target" (PStr "")) as [| | | |s| |];
      try (destruct (py_in _ _) as [[|]|]; cbn in Hc; try done; by injection Hc as <-).
    destruct (rpartition ":" s) as [[host [|]] port]; [|by injection Hc as <-].
    destruct (int_of_text port) as [z|x]; [|by destruct x; try done; injection Hc as <-].
    injection Hc as <-. by rewrite !assoc_get_set, !decide_False by done. }
  destruct (if String.eqb t "tcp" then _ else _) as [c|]; cbn [mbind res_bind] in Ht; [|done]. specialize (H2 c eq_refl).
  injection Ht as <-. destruct (String.eqb t "dns"), (String.eqb t "http"); by repeat apply copy_set_never_none.
Qed.

Lemma transform_unserved e t cfg k : transform_check_config e t = Ok cfg -> k ∈ unserved -> assoc_get cfg k = None.
Proof.
  intros Ht Hk. apply dict_get_absent. intros v0. unfold unserved in Hk.
  repeat (apply elem_of_cons in Hk as [->|Hk];
    [rewrite (transform_keeps _ _ _ _ _ Ht); [done|apply (bool_decide_unpack _); by vm_compute|done..]|]).
  by apply elem_of_nil in Hk.
Qed.

(** What a check that loads has, and has not. *)
Record served (c : check) (cfg : pydict) : Prop := {
  served_type : dict_get cfg "check_type" PNone = PStr (ck_type c);
  served_valid : exists valid, check_class (ck_type c) = Some valid /\ valid cfg = Ok tt;
  served_copied k k' v0 : (k, k') ∈ COPIED -> k <> "script_code" ->
    dict_get cfg k' v0 = match config_property c k with PNone => v0 | v => v end;
  served_timeout v0 : dict_get cfg "timeout" v0 = py_or (column c "timeout_seconds") (PInt 5);
  served_target : ck_type c <> "tcp" -> assoc_get cfg "target" = Some (PStr (ck_target c));
  served_unserved k : k ∈ unserved -> assoc_get cfg k = None }.

Lemma response_copied c label k k' : (k, k') ∈ COPIED -> k <> "script_code" ->
  dict_get (to_response c label) k PNone = config_property c k.
Proof.
  intros Hin Hs. repeat (apply elem_of_cons in Hin as [[= -> ->]|Hin]; [done|]). by apply elem_of_nil in Hin.
Qed.

Lemma load_served c label cfg : load_one (to_response c label) = Some cfg -> served c cfg.
Proof.
  intros Hl. apply load_one_inv in Hl as (t & valid & Ht & Hcl & Htr & Hen & Hv).
  change (PStr (ck_type c) = PStr t) in Ht. injection Ht as <-. split.
  - rewrite (transform_keeps _ _ _ _ _ Htr); [done|apply (bool_decide_unpack _); by vm_compute|done..].
  - by exists valid.
  - intros k k' v0 Hin Hs. pose proof (transform_copies _ _ _ _ Htr Hin) as Hc. cbn [fst snd] in Hc.
    pose proof (response_copied c label k k' Hin Hs) as Hr.
    rewrite Hr in Hc. destruct (config_property c k) eqn:Ep.
    2-7: (unfold dict_get; by rewrite (dict_get_some _ _ _ Hc)).
    assert (assoc_get cfg k' = None) as Ha; [|unfold dict_get; by rewrite Ha].
    assert (assoc_get cfg k' <> Some PNone) as Hn.
    { by eapply transform_never_none. }
    unfold dict_get in Hc. destruct (assoc_get cfg k') as [v|]; [|done]. cbn in Hc. congruence.
  - intros v0. rewrite (transform_keeps _ _ _ _ _ Htr); [done|apply (bool_decide_unpack _); by vm_compute|done..].
  - intros Hn. apply dict_get_some; [|done]. by rewrite (target_kept _ _ _ Htr Hn).
  - intros k Hk. by eapply transform_unserved.
Qed.

Lemma served_default c cfg k v0 : served c cfg -> bool_decide (k ∈ unserved) = true -> dict_get cfg k v0 = v0.
Proof. intros Hs Hk%bool_decide_eq_true. unfold dict_get. by rewrite (served_unserved c cfg Hs k Hk). Qed.

Lemma served_tcp c label cfg : ck_type c = "tcp" -> load_one (to_response c label) = Some cfg ->
  exists host z, assoc_get cfg "target" = Some (PStr host) /\ assoc_get cfg "port" = Some (PInt z).
Proof.
  intros Ec Hl. apply load_one_inv in Hl as (t & valid & Ht & Hcl & Htr & Hen & Hv).
  change (PStr (ck_type c) = PStr t) in Ht. injection Ht as <-. rewrite Ec in *. injection Hcl as <-.
  destruct (tcp_split _ _ (ck_target c) Htr Hv) as (host & _ & z & _ & _ & _ & Hh & Hp); [done|].
  exists host, z. split; by apply dict_get_some.
Qed.
End Served.

Section Run.
Context `{Drivers} `{PyRuntime} `{CheckEnv} `{Httpx} `{SocketLaws} `{Asyncpg}.
Context (os : os_name) (strftime : instant -> string) (bp : bool).

Lemma config_int_typed c k : exists t, config_int c k = opt_int t.
Proof. unfold config_int. destruct (assoc_get _ _) as [[]|]; try (by exists None). by exists (Some z). Qed.
Lemma config_str_typed c k : exists t, config_str c k = opt_str t.
Proof. unfold config_str. destruct (assoc_get _ _) as [[]|]; try (by exists None). by exists (Some s). Qed.

Lemma fetch_served send latency cfg target headers body : assoc_get cfg "target" = Some (PStr target) ->
  assoc_get cfg "retries" = None -> exists x, fetch send latency cfg headers body = Ok x.
Proof.
  intros Ht Hr. unfold fetch, item_of. rewrite Ht. cbn [mbind res_bind as_text].
  destruct (u ← urlsplit target; port u) as [p|e] eqn:Ep; [|apply url_errors in Ep as ->; eauto].
  rewrite (no_retries cfg Hr). cbn [mbind res_bind py_range]. eauto.
Qed.

Lemma fetch_of_served c cfg send latency headers body : served c cfg -> ck_type c <> "tcp" ->
  exists x, fetch send latency cfg headers body = Ok x.
Proof.
  intros Hs Ht. eapply fetch_served; [by apply (served_target c cfg Hs)|]. apply (served_unserved c cfg Hs). by left.
Qed.

Lemma http_answers c cfg send latency ssl : served c cfg -> ck_type c = "http" -> exists o, http_run send latency ssl cfg = Ok o.
Proof.
  intros Hs Ht. unfold http_run.
  destruct (fetch_of_served c cfg send latency (dict_get cfg "headers" (PDict [])) (dict_get cfg "body" PNone) Hs ltac:(by rewrite Ht))
    as [[[r l]|failed] ->]; cbn [mbind res_bind]; [|eauto]. unfold validate_response.
  pose proof (fun k v0 => served_default c cfg k v0 Hs) as Hd.
  rewrite (Hd "max_response_time"), (Hd "content_regex"), (Hd "header_checks") by (by vm_compute). cbn. eauto.
Qed.

Lemma json_served c cfg : served c cfg -> ck_type c = "json" ->
  exists path expected, assoc_get cfg "json_path" = Some path /\ config_property c "json_path" = path
    /\ assoc_get cfg "expected_value" = Some (PStr expected) /\ config_property c "expected_value" = PStr expected.
Proof.
  intros Hs Ht. destruct (served_valid c cfg Hs) as (valid & Hc & Hv). rewrite Ht in Hc. injection Hc as <-.
  unfold json_valid in Hv. destruct (base_valid cfg); cbn [mbind res_bind] in Hv; [|done].
  destruct (target_starts _ _) as [b|]; cbn [mbind res_bind] in Hv; [|done]. destruct (check_that b _); cbn [mbind res_bind] in Hv; [|done].
  unfold check_that, has_key in Hv. case_bool_decide as Hp; [|done]. case_bool_decide as He; cbn in Hv; [|done].
  assert (forall k, (k, k) ∈ COPIED -> k <> "script_code" -> assoc_get cfg k <> None ->
            assoc_get cfg k = Some (config_property c k) /\ config_property c k <> PNone) as Hk.
  { intros k Hin Hne Ha. assert (config_property c k <> PNone) as Hcp.
    { intros E. apply Ha, dict_get_absent. intros v0. by rewrite (served_copied c cfg Hs k k v0 Hin Hne), E. }
    split; [|done]. apply dict_get_some; [|done]. rewrite (served_copied c cfg Hs k k PNone Hin Hne). by destruct (config_property c k). }
  destruct (Hk "json_path") as [Hp1 _]; [apply (bool_decide_unpack _); by vm_compute|done|done|].
  destruct (Hk "expected_value") as [He1 He2]; [apply (bool_decide_unpack _); by vm_compute|done|done|].
  destruct (config_str_typed c "expected_value") as [[t|] Et]; change (config_str c "expected_value") with (config_property c "expected_value") in Et;
    [|by rewrite Et in He2]. exists (config_property c "json_path"), t. by rewrite He1, Et.
Qed.

(** *** What the server configures *)

Definition served_method (c : check) : pyval := match config_property c "http_method" with PNone => PStr "GET" | m => m end.
Definition served_status (c : check) : pyval := match config_property c "expected_status" with PNone => PInt 200 | s => s end.
Definition url_with_port (target : string) : Prop := exists u p, urlsplit target = Ok u /\ port u = Ok p.

(** The one request of a served check. *)
Lemma served_attempt c cfg send headers body i : served c cfg ->
  attempt_request send cfg (ck_target c) headers body i
    = ssrf_guarded_send (send i) (served_method c) (ck_target c) headers body true 20.
Proof.
  intros Hs. unfold attempt_request. rewrite (served_default c cfg "follow_redirects" _ Hs) by (by vm_compute).
  rewrite (served_copied c cfg Hs "http_method" "method"); [done|apply (bool_decide_unpack _); by vm_compute|done].
Qed.

Lemma served_expected c cfg : served c cfg -> dict_get cfg "expected_status" (PInt 200) = served_status c.
Proof.
  intros Hs. rewrite (served_copied c cfg Hs "expected_status" "expected_status"); [done|apply (bool_decide_unpack _); by vm_compute|done].
Qed.

Lemma served_status_number c : exists z, served_status c = PInt z.
Proof.
  unfold served_status. destruct (config_int_typed c "expected_status") as [t Ht].
  change (config_int c "expected_status") with (config_property c "expected_status") in Ht. rewrite Ht. destruct t; eexists; done.
Qed.

Lemma served_status_is c s : py_eqb (PInt s) (served_status c) = true <-> PInt s = served_status c.
Proof.
  destruct (served_status_number c) as [z ->]. cbn. destruct (Z.compare_spec s z) as [->|Hlt|Hlt]; (split; [try done|]); [done|..];
    intros E; injection E; lia.
Qed.

Lemma one_answer {A} (once : nat -> tried A) x n j : py_range (PInt 1) = Ok n -> first_answer once n j x <-> j = 0 /\ n = 1 /\ once 0 = Got x.
Proof.
  intros [= <-]. unfold first_answer. change (Z.to_nat 1) with 1. split.
  - intros (Hj & Hx & _). assert (j = 0) as -> by lia. done.
  - intros (-> & _ & Hx). split_and!; [lia|done|lia].
Qed.

(** The one way a run goes wrong: the answer to a JSON check's request has the status
    expected, no document, and a text that cannot be read. *)
Definition undecodable (send : nat -> nat -> request -> tried response) (c : check) : Prop := exists r refused,
  ssrf_guarded_send (send 0) (served_method c) (ck_target c) (PDict [("Content-Type", PStr "application/json")]) PNone true 20 = Got r
  /\ PInt (rs_status r) = served_status c /\ rs_json r = Threw refused /\ rs_text r = None.

Lemma json_answers c cfg send latency : served c cfg -> ck_type c = "json" ->
  (exists o, json_run send latency cfg = Ok o) \/ json_run send latency cfg = Raise DecodingError /\ undecodable send c.
Proof.
  intros Hs Ht. destruct (json_served c cfg Hs Ht) as (path & expected & Hp & _ & He & _).
  unfold json_run, item_of. rewrite Hp, He. cbn [mbind res_bind].
  pose proof (fun k v0 => served_default c cfg k v0 Hs) as Hd.
  rewrite (Hd "headers"), (Hd "body"), (Hd "comparison_type") by (by vm_compute).
  change (json_headers (PDict [])) with (Ok (PDict [("Content-Type", PStr "application/json")])). cbn [mbind res_bind].
  destruct (fetch_of_served c cfg send latency (PDict [("Content-Type", PStr "application/json")]) (json_body PNone) Hs ltac:(by rewrite Ht))
    as [[[r l]|failed] Ef]; rewrite Ef; cbn [mbind res_bind]; [|left; eauto].
  rewrite (served_expected c cfg Hs). destruct (py_eqb _ _) eqn:Es; cbn [negb]; [|left; eauto]. destruct (rs_json r) as [document|refused] eqn:Ej.
  - left. destruct (resolve_json_path document path) as [v|]; [|eauto]. destruct (text_equals v expected) as (b & e & -> & _). cbn. eauto.
  - unfold text. destruct (rs_text r) as [t|] eqn:Etx; [left; cbn; eauto|right]. split; [done|]. exists r, refused. split_and!; try done.
    + apply fetch_inv in Ef as (target & Htg & [Ht2 _] & n & j & Hn & Hf & _). rewrite (Hd "retries") in Hn by (by vm_compute).
      apply (one_answer _ _ _ _ Hn) in Hf as (_ & _ & Hf). rewrite (served_target c cfg Hs) in Htg by (by rewrite Ht). injection Htg as <-.
      by rewrite (served_attempt c cfg) in Hf.
    + by apply served_status_is.
Qed.

Lemma dns_served c cfg : served c cfg -> ck_type c = "dns" -> exists rt ns,
  assoc_get cfg "record_type" = Some (PStr rt) /\ dict_get cfg "nameserver" (PStr "1.1.1.1") = PStr ns.
Proof.
  intros Hs Ht. destruct (served_valid c cfg Hs) as (valid & Hc & Hv). rewrite Ht in Hc. injection Hc as <-.
  unfold dns_valid in Hv. inv_res. destruct (dict_get cfg "record_type" PNone) as [| | | |rt| |] eqn:Er; try done.
  exists rt. rewrite (served_copied c cfg Hs "nameserver" "nameserver") by (done || (apply (bool_decide_unpack _); by vm_compute)).
  destruct (config_str_typed c "nameserver") as [[ns|] En]; change (config_str c "nameserver") with (config_property c "nameserver") in En;
    rewrite En; eexists; (split; [by apply dict_get_some|done]).
Qed.

Lemma database_served available schemes cfg : database_valid available schemes cfg = Ok tt ->
  exists cs u, py_or (dict_get cfg "connection_string" PNone) (dict_get cfg "target" PNone) = PStr cs /\ urlsplit cs = Ok u.
Proof.
  unfold database_valid. intros Hv. inv_res. destruct (py_or _ _) as [| | | |cs| |]; try done.
  exists cs. destruct (urlsplit cs) as [u|]; [|done]. by exists u.
Qed.

(** C29: A check as the server sends it, of any kind but synthetic, ends with a result,
    one that succeeds without an error or fails with a text that says why, unless the
    policy refuses its target or its configuration names what cannot be reached.  Of all
    a network may answer, one thing alone makes a run crash: to a JSON check, an answer
    of the status expected that is no document, and whose charset names a codec that
    decodes no text. *)
Theorem served_run_reports c label cfg net : (exists t, column c "timeout_seconds" = opt_int t) -> ck_type c <> "synthetic" ->
  load_one (to_response c label) = Some cfg ->
  match outcome_of_run (run os strftime bp net cfg) with
  | Completed o => reports o
  | Misconfigured _ | Blocked _ => True
  | Crashed _ => ck_type c = "json" /\ undecodable (nw_send net) c
  | TimedOut => False
  end.
Proof.
  intros [timeout Htm] Hsyn Hl.
  enough (answers (run os strftime bp net cfg)
    \/ run os strftime bp net cfg = Raise DecodingError /\ ck_type c = "json" /\ undecodable (nw_send net) c) as [Ha|[-> Ha]]; [|done|].
  { destruct (run os strftime bp net cfg) as [o|[]]; done. }
  pose proof (load_served c label cfg Hl) as Hs. unfold run. rewrite (served_type c cfg Hs).
  destruct (served_valid c cfg Hs) as (valid & Hc & Hv). pose proof (served_unserved c cfg Hs "retries" ltac:(by left)) as Hr.
  assert (forall v0, exists t, dict_get cfg "timeout" v0 = PInt t) as Ht.
  { intros v0. rewrite (served_timeout c cfg Hs v0), Htm. destruct timeout as [t|]; [|by exists 5%Z].
    unfold py_or. destruct (truthy _); [by exists t|by exists 5%Z]. }
  assert (ck_type c ∈ ["http"; "json"; "tcp"; "ping"; "dns"; "mysql"; "postgres"]) as Hin.
  { clear -Hc Hsyn. unfold check_class in Hc. cbn [assoc_get] in Hc. repeat (case_decide; [subst; set_solver|]). done. }
  repeat (apply elem_of_cons in Hin as [Et|Hin]); [..|by apply elem_of_nil in Hin]; rewrite Et in *; cbn [String.eqb Ascii.eqb Bool.eqb].
  - destruct (http_answers c cfg (nw_send net) (nw_latency net) (get_ssl_certificate_info (nw_answers net) (nw_handshake net) strftime bp (nw_now net) (ck_target c)) Hs Et) as [o Ho].
    assert (dict_get cfg "target" PNone = PStr (ck_target c)) as -> by (unfold dict_get; rewrite (served_target c cfg Hs); [done|by rewrite Et]).
    rewrite Ho. left. by eapply http_verdict.
  - destruct (json_answers c cfg (nw_send net) (nw_latency net) Hs Et) as [[o Ho]|[-> Ha]]; [|by right]. rewrite Ho.
    destruct (json_served c cfg Hs Et) as (path & expected & Hp & _ & He & _).
    left. eapply json_verdict; [exact Hp|exact He|by apply (served_default c cfg)|exact Ho].
  - destruct (served_tcp c label cfg Et Hl) as (host & z & Hh & Hp). left. by eapply tcp_answers.
  - destruct (Ht (PInt 1)) as [t Htt]. pose proof (served_target c cfg Hs ltac:(by rewrite Et)) as Htg. left. by eapply ping_answers.
  - destruct (dns_served c cfg Hs Et) as (rt & ns & Hrt & Hns). pose proof (served_target c cfg Hs ltac:(by rewrite Et)) as Htg.
    left. by eapply dns_answers.
  - injection Hc as <-. destruct (database_served _ _ _ Hv) as (cs & u & Hcs & Hu). left. by eapply mysql_answers.
  - injection Hc as <-. destruct (database_served _ _ _ Hv) as (cs & u & Hcs & Hu). left. by eapply postgres_answers.
Qed.

(** *** What passes, as the server configures it *)

(** C30: An HTTP check runs as it is stored: it passes exactly when the one request it
    makes, with the stored method to the stored target and following redirects, is
    answered with the stored status, or 200. *)
Theorem served_http_verdict c label cfg net : ck_type c = "http" -> load_one (to_response c label) = Some cfg ->
  exists o, run os strftime bp net cfg = Ok o /\ reports o
    /\ (out_success o = true <-> url_with_port (ck_target c) /\ exists r,
          ssrf_guarded_send (nw_send net 0) (served_method c) (ck_target c) (PDict []) PNone true 20 = Got r
          /\ PInt (rs_status r) = served_status c).
Proof.
  intros Et Hl. pose proof (load_served c label cfg Hl) as Hs. unfold run. rewrite (served_type c cfg Hs), Et. cbn [String.eqb Ascii.eqb Bool.eqb].
  pose proof (served_target c cfg Hs ltac:(by rewrite Et)) as Htg.
  match goal with |- context [http_run _ _ ?ssl _] => destruct (http_answers c cfg (nw_send net) (nw_latency net) ssl Hs Et) as [o Ho] end.
  exists o. split; [done|]. apply http_verdict in Ho as [Hr Hiff]. split; [done|]. rewrite Hiff.
  pose proof (fun k v0 => served_default c cfg k v0 Hs) as Hd.
  rewrite (Hd "retries"), (Hd "headers"), (Hd "body") by (by vm_compute). destruct (served_status_number c) as [z Hz].
  assert (forall r l, meets cfg r l <-> PInt (rs_status r) = served_status c) as Hm.
  { intros r l. split.
    - intros [Hst _ _ _]. rewrite (served_expected c cfg Hs), Hz in *. cbn in Hst. f_equal.
      destruct (Z.compare_spec (rs_status r) z); done.
    - intros E. split; rewrite ?(served_expected c cfg Hs), ?(Hd "max_response_time"), ?(Hd "content_regex"), ?(Hd "header_checks") by (by vm_compute).
      + rewrite <- E. cbn. by rewrite Z.compare_refl.
      + done.
      + done.
      + exists []. by split. }
  split.
  - intros (target & n & j & r & [Ht Hu] & Hn & Hf & Hmt). assert (target = ck_target c) as -> by congruence.
    apply (one_answer _ _ _ _ Hn) in Hf as (-> & _ & Hf). rewrite (served_attempt c cfg) in Hf by done.
    split; [done|]. exists r. split; [done|]. by eapply Hm.
  - intros (Hu & r & Hf & Hst). exists (ck_target c), 1, 0, r. split_and!; [done|done| |by apply Hm].
    apply one_answer; [done|]. split_and!; [done|done|]. by rewrite (served_attempt c cfg).
Qed.

(** C31: And a JSON check: it passes exactly when its one request is answered with the
    stored status and a document in which the stored path finds what the stored value
    says.  It has a result, which reports, unless that answer is no document and its
    text cannot be read: then the run raises. *)
Theorem served_json_verdict c label cfg net : ck_type c = "json" -> load_one (to_response c label) = Some cfg ->
  exists expected, config_property c "expected_value" = PStr expected
    /\ ((exists o, run os strftime bp net cfg = Ok o /\ out_success o = true)
        <-> url_with_port (ck_target c) /\ exists r document v,
          ssrf_guarded_send (nw_send net 0) (served_method c) (ck_target c) (PDict [("Content-Type", PStr "application/json")]) PNone true 20 = Got r
          /\ PInt (rs_status r) = served_status c /\ rs_json r = Got document
          /\ resolve_json_path document (config_property c "json_path") = Got v /\ says expected v)
    /\ ((exists o, run os strftime bp net cfg = Ok o /\ reports o)
        \/ run os strftime bp net cfg = Raise DecodingError /\ undecodable (nw_send net) c).
Proof.
  intros Et Hl. pose proof (load_served c label cfg Hl) as Hs. unfold run. rewrite (served_type c cfg Hs), Et. cbn [String.eqb Ascii.eqb Bool.eqb].
  pose proof (served_target c cfg Hs ltac:(by rewrite Et)) as Htg. destruct (json_served c cfg Hs Et) as (path & expected & Hp & Hp' & He & He').
  exists expected. split; [done|]. pose proof (fun k v0 => served_default c cfg k v0 Hs) as Hd.
  destruct (json_answers c cfg (nw_send net) (nw_latency net) Hs Et) as [[o Ho]|[Ho Hbad]].
  2:{ rewrite Ho. split; [|by right]. split; [by intros (o & ? & _)|]. intros (_ & r & document & v & Hr & _ & Hdoc & _).
      destruct Hbad as (r' & refused & Hr' & _ & Hj & _). congruence. }
  rewrite Ho. apply (json_verdict _ _ _ path expected) in Ho as [Hr Hiff]; [|done|done|by apply Hd]. split; [|left; by exists o].
  transitivity (out_success o = true); [split; [intros (? & [= <-] & ?); done|intros Hx; by exists o]|]. rewrite Hiff, Hp'.
  rewrite (Hd "retries"), (Hd "headers"), (Hd "body") by (by vm_compute). rewrite (served_expected c cfg Hs).
  change (json_headers (PDict [])) with (Ok (PDict [("Content-Type", PStr "application/json")])).
  split.
  - intros (target & headers & n & j & r & document & v & [Ht Hu] & [= <-] & Hn & Hf & Hst & Hdoc). assert (target = ck_target c) as -> by congruence.
    apply (one_answer _ _ _ _ Hn) in Hf as (-> & _ & Hf). rewrite (served_attempt c cfg) in Hf by done.
    split; [done|]. exists r, document, v. split_and!; [done|by apply served_status_is|apply Hdoc..].
  - intros (Hu & r & document & v & Hf & Hst & Hdoc). exists (ck_target c), (PDict [("Content-Type", PStr "application/json")]), 1, 0, r, document, v.
    split_and!; [done|done|done| |by apply served_status_is|apply Hdoc..].
    apply one_answer; [done|]. split_and!; [done|done|]. by rewrite (served_attempt c cfg).
Qed.
End Run.

(** ** What passes, of the other kinds *)

Section Verdicts.
Context `{PyRuntime} `{CheckEnv}.

Lemma existsb_seq ok n : existsb ok (seq 0 n) = true <-> exists i, i < n /\ ok i = true.
Proof.
  rewrite existsb_exists. split; intros (i & Hi & Ho); exists i; (split; [|done]); apply in_seq in Hi || apply in_seq; lia.
Qed.

(** Attempts each of which passes or not whatever came before: one does. *)
Lemma tries_passes {S} (attempt : nat -> S -> S * bool) (passes : nat -> Prop) n s0 :
  (forall i s, (attempt i s).2 = true <-> passes i) -> (tries attempt n 0 s0).2 = true <-> exists i, i < n /\ passes i.
Proof.
  intros Hp. rewrite (tries_done attempt (fun i => (attempt i s0).2)).
  - rewrite existsb_seq. split; intros (i & Hi & Hx); exists i; (split; [done|]); by eapply Hp.
  - intros i s. apply eq_true_iff_eq. by rewrite (Hp i s), (Hp i s0).
Qed.

(** A TCP attempt that passes: the address connected to is the first the policy
    allows; it answers, and so does the exchange asked for. *)
Definition tcp_passes (bp : bool) (cfg : pydict) (a : tcp_attempt) : Prop := exists address latency,
  get_address_info bp (ta_infos a) = inl (Some address) /\ blocked_range true bp address = None
  /\ ta_connect a address = inl latency /\ ta_close a = None
  /\ forall e, test_echo a (dict_get cfg "send_string" PNone) (dict_get cfg "expect_string" PNone) <> inr e.

Lemma tcp_once_passes bp cfg host timeout net i s : (tcp_attempt_once bp cfg host timeout net i s).2 = true <-> tcp_passes bp cfg (net i).
Proof.
  unfold tcp_attempt_once, tcp_passes. destruct (get_address_info bp (ta_infos (net i))) as [[address|]|e]; cbn.
  2: by split; [done|intros (? & ? & ? & _)].
  2: by split; [done|intros (? & ? & ? & _)].
  unfold policy_assert_ip_allowed, assert_ip_allowed. destruct (blocked_range true bp address) eqn:Eb; cbn.
  { split; [done|]. intros (? & ? & [= <-] & ? & _). congruence. }
  destruct (ta_connect (net i) address) as [latency|e] eqn:Ec; cbn; [|split; [done|intros (? & ? & [= <-] & ? & ? & _); congruence]].
  assert ((match exchange cfg (net i) s latency with (s0, Some e) => (TcpState (tc_latency s0) (Some (tcp_error_text timeout e)) (tc_data s0), false)
           | (s0, None) => (s0, true) end).2 = true
          <-> ta_close (net i) = None /\ forall e, test_echo (net i) (dict_get cfg "send_string" PNone) (dict_get cfg "expect_string" PNone) <> inr e) as Hx.
  { unfold exchange. destruct (truthy (dict_get cfg "send_string" PNone)) eqn:Es.
    - cbn [orb]. destruct (test_echo _ _ _) as [[response echo]|e]; destruct (ta_close (net i)); cbn;
        (split; [intros ?; first [done|by split]|intros [? Hn]; first [done|by destruct (Hn e)]]).
    - assert (forall x, test_echo (net i) (dict_get cfg "send_string" PNone) x = inl (None, None)) as Hn by (intros x; unfold test_echo; by rewrite Es).
      rewrite Hn. cbn [orb]. destruct (truthy (dict_get cfg "expect_string" PNone)); destruct (ta_close (net i)); cbn;
        (split; [intros ?; first [done|by split]|intros [??]; done]). }
  rewrite Hx. split; [intros [Hc Hn]; by exists address, latency|intros (? & ? & [= <-] & _ & _ & Hc & Hn); done].
Qed.

(** A TCP check passes exactly when one of its attempts does. *)
Theorem tcp_verdict bp net cfg o : tcp_run bp net cfg = Ok o ->
  out_success o = true <-> exists n i, py_range (dict_get cfg "retries" (PInt 1)) = Ok n /\ i < n /\ tcp_passes bp cfg (net i).
Proof.
  unfold tcp_run. intros E. inv_res.
  match type of E with context [tries (tcp_attempt_once bp cfg ?h ?t net) ?n 0 ?s] =>
    pose proof (tries_passes _ _ n s (fun i => tcp_once_passes bp cfg h t net i)) as Hp;
    destruct (tries (tcp_attempt_once bp cfg h t net) n 0 s) as [s0 success] end.
  injection E as <-. cbn in *. rewrite Hp. split; [intros (i & Hi); by eexists _, i|intros (n & i & [= <-] & Hi); by exists i].
Qed.

(** A DNS attempt that passes: an answer whose records can be read, hold the text
    expected, and are as many as expected. *)
Definition dns_passes (cfg : pydict) (record_type : string) (a : dns_attempt) : Prop := exists answer records,
  dt_nameserver a = None /\ dt_answer a = inl answer /\ map_res (extract_record record_type) (da_records answer) = Ok records
  /\ expectation records (dict_get cfg "expect_value" PNone) (dict_get cfg "expect_count" PNone) = Ok None.

Lemma dns_once_passes cfg domain rt timeout net i s : (dns_once cfg domain rt timeout net i s).2 = true <-> dns_passes cfg rt (net i).
Proof.
  unfold dns_once, dns_passes. destruct (dt_nameserver (net i)); [split; [done|by intros (? & ? & ? & _)]|].
  destruct (dt_answer (net i)) as [answer|e]; [|split; [done|by intros (? & ? & _ & ? & _)]].
  destruct (map_res _ _) as [records|] eqn:Er; [|split; [done|intros (? & ? & _ & [= <-] & ? & _); congruence]].
  destruct (expectation _ _ _) as [[t|]|] eqn:Ee; cbn; split; try done; try (intros (? & ? & _ & [= <-] & ? & ?); congruence).
  intros _. by exists answer, records.
Qed.

(** The records hold a text, wherever and in whatever case, and are so many. *)
Lemma expectation_met records v count : expectation records (PStr v) count = Ok None <->
  (v <> "" -> exists r, r ∈ records /\ substringb (lower v) (lower r) = true)
  /\ (count <> PNone -> py_eqb (PInt (Z.of_nat (length records))) count = true).
Proof.
  unfold expectation. cbn [truthy as_text]. assert (validate_expect_value records v = true <-> exists r, r ∈ records /\ substringb (lower v) (lower r) = true) as Hv.
  { unfold validate_expect_value. rewrite existsb_exists. split; intros (r & Hr & Hx); exists r; (split; [|done]); by apply list_elem_of_In. }
  assert (forall b : string, match count with PNone => Ok (@None string) | _ => if py_eqb (PInt (Z.of_nat (length records))) count then Ok None else Ok (Some b) end = Ok None
          <-> (count <> PNone -> py_eqb (PInt (Z.of_nat (length records))) count = true)) as Hc.
  { intros b. destruct count; [by split|..]; (destruct (py_eqb _ _); (split; [done|]); intros Hn; first [done|by discriminate Hn]). }
  destruct (String.eqb_spec v "") as [->|Hne]; cbn [negb mbind res_bind]; [rewrite Hc; split; [intros ?; split; [done|done]|by intros [_ ?]]|].
  destruct (validate_expect_value records v); cbn [negb].
  - rewrite Hc. split; [intros ?; split; [by intros _; apply Hv|done]|by intros [_ ?]].
  - split; [done|]. intros [Hx _]. by apply Hv in Hx.
Qed.

(** *** TXT records *)

(** Well-formed UTF-8: a sequence of characters of the encoding. *)
Inductive utf8 : string -> Prop :=
  | utf8_nil : utf8 ""
  | utf8_char ch rest : utf8_length (ch +:+ rest) = String.length ch -> ch <> "" -> utf8 rest -> utf8 (ch +:+ rest).

Lemma decode_kept a b : decode_acc (String.length a) (a +:+ b) = a +:+ decode_acc 0 b.
Proof.
  induction a as [|c a IH]; [done|]. change (String c (decode_acc (String.length a) (a +:+ b)) = String c (a +:+ decode_acc 0 b)). by rewrite IH.
Qed.

Lemma decode_char c s n : utf8_length (String c s) = S n -> decode_acc 0 (String c s) = String c (decode_acc n s).
Proof. intros Hl. cbn -[utf8_length]. by rewrite Hl. Qed.

(** The text of a TXT record is read whole, wherever its strings were cut. *)
Theorem txt_value_whole strings : utf8 (String.concat "" strings) -> txt_value strings = String.concat "" strings.
Proof.
  unfold txt_value. generalize (String.concat "" strings) as s. intros s. induction 1 as [|ch rest Hl Hne _ IH]; [done|].
  destruct ch as [|c ch]; [done|]. change (String c ch +:+ rest) with (String c (ch +:+ rest)) in *.
  rewrite (decode_char _ _ _ Hl). by rewrite decode_kept, IH.
Qed.

(** *** Databases *)

Definition mysql_passes (a : mysql_attempt) : Prop := exists latency answer,
  ma_connect a = inl latency /\ ma_query a = inl answer /\ ma_cursor_close a = None.

Lemma mysql_once_passes failure net i s : (mysql_once failure net i s).2 = true <-> mysql_passes (net i).
Proof.
  unfold mysql_once, mysql_passes. destruct (ma_connect (net i)) as [l|]; [|split; [done|by intros (? & ? & ? & _)]].
  destruct (ma_query (net i)) as [a|]; [|split; [done|by intros (? & ? & _ & ? & _)]].
  destruct (ma_cursor_close (net i)); cbn; split; try done; [by intros (? & ? & _ & _ & ?)|intros _; by exists l, a].
Qed.

(** What a run reports of the query is what the attempt that passed saw: its rows
    and latencies, whatever the failed attempts before it left. *)
Theorem mysql_success_is_the_last failure net n i s0 s : tries (mysql_once failure net) n i s0 = (s, true) ->
  exists j latency answer, i <= j < i + n /\ ma_connect (net j) = inl latency /\ ma_query (net j) = inl answer
    /\ bs_connected s = latency /\ bs_queried s = ba_queried answer /\ bs_total s = ba_total answer /\ bs_rows s = PInt (ba_rows answer)
    /\ forall k, i <= k < j -> ~ mysql_passes (net k).
Proof.
  revert i s0. induction n as [|n IH]; intros i s0; cbn [tries]; [done|].
  pose proof (mysql_once_passes failure net i s0) as Hp. destruct (mysql_once failure net i s0) as [s1 done] eqn:E1.
  destruct done; cbn in Hp.
  - intros [= ->]. unfold mysql_once in E1. destruct (ma_connect (net i)) as [l|] eqn:Ec; [|done]. destruct (ma_query (net i)) as [a|] eqn:Eq; [|done].
    destruct (ma_cursor_close (net i)); [done|]. injection E1 as <-. exists i, l, a. split_and!; try done; try lia.
  - intros (j & l & a & Hj & H1 & H2 & H3 & H4 & H5 & H6 & Hk)%IH. exists j, l, a. split_and!; try done; try lia.
    intros k Hk' Hpass. destruct (decide (k = i)) as [->|]; [by apply Hp in Hpass|]. apply (Hk k); [lia|done].
Qed.
End Verdicts.

(** ** Where a result misleads *)

Section Misleading.
Context `{PyRuntime} `{CheckEnv}.

(** A peer that closes the connection without an answer passes a test of its answer,
    though an answer without the text expected fails it. *)
Lemma silent_peer_passes a send expect : ta_write a = None -> ta_read a = inl "" ->
  exists x, test_echo a (PStr send) expect = inl x.
Proof.
  intros Hw Hr. unfold test_echo. rewrite Hw, Hr. destruct (negb (truthy (PStr send))); [eauto|]. destruct (negb _); eauto.
Qed.

(** Without a text to send, the text expected is never looked for. *)
Lemma banner_never_read a expect : test_echo a PNone expect = inl (None, None).
Proof. done. Qed.

(** The server's refusal of a connection over its limit is a PostgresError, whose
    handler comes first: the one for it is never reached. *)
Lemma too_many_connections_unnamed `{AsyncpgLaws} site database timeout logged_in t :
  pg_failure site database timeout logged_in (PgTooManyConnections t) = ("PostgreSQL error: " +:+ t, "database_error").
Proof. unfold pg_failure. by rewrite server_errors. Qed.
End Misleading.

(** The packet loss of a summary with decimals is read from them. *)
Lemma fractional_loss_misread :
  search loss_at "3 packets transmitted, 2 received, 33.3333% packet loss, time 2003ms" = Some "3333".
Proof. done. Qed.

(** ** Witnesses *)

Module Demo.
#[local] Instance runtime : PyRuntime := plain_runtime.
#[local] Instance drivers : Drivers := {| dns_available := true; aiomysql_available := true; asyncpg_available := true |}.
#[local] Instance env : CheckEnv := {|
  describe := fun _ => "an error";
  re_search := fun p s => Ok (substringb p s);
  json_dumps := fun _ => "{}";
  jsonata_evaluate := fun path data =>
    match path, data with PStr k, PDict d => Got (dict_get d k PNone) | _, _ => Threw "undefined" end |}.
#[local] Instance httpx : Httpx := {|
  request := string;
  build_request := fun _ url _ _ => Got url;
  is_redirect := fun r => (rs_status r =? 302)%Z;
  next_request := fun r => rs_header r "location" |}.
#[local] Instance sockets : Sockets := {|
  getaddrinfo := fun _ _ => Ok [Some "192.0.2.7"];
  stream := unit;
  connect_tcp := fun _ _ _ => Ok tt |}.
#[local] Instance socket_laws : SocketLaws.
Proof. by split. Qed.
#[local] Instance asyncpg : Asyncpg := {| postgres_error := fun e => match e with
    | PgInvalidPassword | PgInvalidCatalogName | PgCannotConnectNow | PgConnectionDoesNotExist | PgSyntax _
    | PgTooManyConnections _ | PgServer _ => true | _ => false end |}.

(** A site that moved: its first answer redirects to the second. *)
Definition reply (status : Z) (location : option string) : response :=
  Response status [] (fun _ => location) 2 (Some "ok") (Got (PDict [("up", PBool true)])).
Definition sent (url : string) : tried response :=
  if String.eqb url "https://old.example.org" then Got (reply 302 (Some "https://example.org"))
  else Got (reply 200 None).
Definition tcp_down : tcp_attempt :=
  TcpAttempt (Resolved [Some "192.0.2.7"]) (fun _ => inr SockRefused) None (inl "") (PInt 1) None.
Definition tcp_up : tcp_attempt := TcpAttempt (Resolved [Some "192.0.2.7"]) (fun _ => inl (PInt 3)) None (inl "") (PInt 1) None.
Definition net : network := Network httpx 0 (fun _ _ => sent) (fun _ => PInt 12) (fun _ _ => true) (fun _ _ _ => None)
  (fun _ _ _ => tcp_down) (fun _ _ => PingTimeout) (fun _ => DnsAttempt None (inr NXDOMAIN) (PInt 1))
  (fun _ => MysqlAttempt (inr MyTimeout) (inr MyTimeout) None) (fun _ => PgAttempt (inr PgTimeout) (inr PgTimeout)) (Raise TypeError).

Definition http_check : check :=
  Check 10 1 None "site" "http" "https://old.example.org" (Some 60%Z) true MANUAL None 0 None [("expected_status", PInt 200)] [].
Definition http_cfg : pydict := default [] (load_one (to_response http_check "agent")).
Definition json_check : check :=
  Check 11 1 None "api" "json" "https://example.org" (Some 60%Z) true MANUAL None 0 None
    [("json_path", PStr "up"); ("expected_value", PStr "True")] [].
Definition json_cfg : pydict := default [] (load_one (to_response json_check "agent")).
Definition tcp_check : check :=
  Check 12 1 None "port" "tcp" "example.org:443" (Some 60%Z) true MANUAL None 0 None [] [("timeout_seconds", PInt 5)].
Definition tcp_cfg : pydict := default [] (load_one (to_response tcp_check "agent")).
Definition no_time (_ : instant) : string := "".

Lemma served_run_reports_witness :
  load_one (to_response tcp_check "agent") = Some tcp_cfg
  /\ outcome_of_run (run Linux no_time false net tcp_cfg)
     = Completed (Output false PNone (Some "Connection refused") PNone [("target_host", PStr "example.org"); ("target_port", PInt 443)])
  /\ match outcome_of_run (run Linux no_time false net tcp_cfg) with
     | Completed o => reports o
     | Misconfigured _ | Blocked _ => True
     | Crashed _ => ck_type tcp_check = "json" /\ undecodable (nw_send net) tcp_check
     | TimedOut => False
     end.
Proof.
  assert (load_one (to_response tcp_check "agent") = Some tcp_cfg) as Hl by (vm_compute; reflexivity).
  split; [exact Hl|]. split; [vm_compute; reflexivity|].
  apply (served_run_reports Linux no_time false tcp_check "agent" tcp_cfg net); [by exists (Some 5%Z)|discriminate|exact Hl].
Defined.

Lemma served_http_verdict_witness :
  load_one (to_response http_check "agent") = Some http_cfg /\ url_with_port "https://old.example.org"
  /\ ssrf_guarded_send (nw_send net 0) (PStr "GET") "https://old.example.org" (PDict []) PNone true 20 = Got (reply 200 None)
  /\ exists o, run Linux no_time false net http_cfg = Ok o /\ out_success o = true.
Proof.
  assert (load_one (to_response http_check "agent") = Some http_cfg) as Hl by (vm_compute; reflexivity).
  assert (url_with_port "https://old.example.org") as Hu by (eexists _, _; split; vm_compute; reflexivity).
  split; [exact Hl|]. split; [exact Hu|]. split; [vm_compute; reflexivity|].
  destruct (served_http_verdict Linux no_time false http_check "agent" http_cfg net eq_refl Hl) as (o & Ho & _ & Hv).
  exists o. split; [exact Ho|]. apply Hv. split; [exact Hu|]. exists (reply 200 None). split; vm_compute; reflexivity.
Defined.

Lemma served_json_verdict_witness :
  load_one (to_response json_check "agent") = Some json_cfg
  /\ exists o, run Linux no_time false net json_cfg = Ok o /\ out_success o = true.
Proof.
  assert (load_one (to_response json_check "agent") = Some json_cfg) as Hl by (vm_compute; reflexivity).
  split; [exact Hl|].
  destruct (served_json_verdict Linux no_time false json_check "agent" json_cfg net eq_refl Hl) as (expected & He & Hv & _).
  apply Hv. split; [eexists _, _; split; vm_compute; reflexivity|].
  exists (reply 200 None), (PDict [("up", PBool true)]), (PBool true).
  assert (expected = "True") as -> by (injection He as <-; reflexivity). split_and!; vm_compute; reflexivity.
Defined.

(** An answer that is no JSON, and says its charset is base64: the text that was to be
    quoted raises where nothing catches it. *)
Definition base64_page : response := Response 200 [] (fun _ => None) 2 None (Threw "Expecting value").
Definition base64_net : network := Network httpx 0 (fun _ _ _ => Got base64_page) (fun _ => PInt 12) (fun _ _ => true) (fun _ _ _ => None)
  (fun _ _ _ => tcp_down) (fun _ _ => PingTimeout) (fun _ => DnsAttempt None (inr NXDOMAIN) (PInt 1))
  (fun _ => MysqlAttempt (inr MyTimeout) (inr MyTimeout) None) (fun _ => PgAttempt (inr PgTimeout) (inr PgTimeout)) (Raise TypeError).

Theorem undecodable_answer_crashes : load_one (to_response json_check "agent") = Some json_cfg
  /\ outcome_of_run (run Linux no_time false base64_net json_cfg) = Crashed "an error".
Proof. split; vm_compute; reflexivity. Qed.

(** A check tried twice keeps the first attempt's error on its success. *)
Lemma retried_success_keeps_error :
  (fun o => (out_success o, out_error o)) <$>
    tcp_run false (fun i => if (i =? 0)%nat then tcp_down else tcp_up)
      [("target", PStr "example.org"); ("port", PInt 443); ("retries", PInt 2)]
  = Ok (true, Some "Connection refused").
Proof. vm_compute. reflexivity. Qed.
End Demo.
