(* ===== verification/AgentTasks.v ===== *)
(** * AgentTasks

    The agent's background work: the queue of the jobs the server dispatched and its
    worker (agent/job_processor.py), the way of a check's result to the reporter and
    of its artifacts to the server (agent/result_processor.py), and what a shutdown
    does with the results left (agent/lifecycle.py).

    The processor is one task that awaits each job in turn; other tasks add jobs, take
    the counts for a heartbeat and stop it between its steps.  The handlers' classes
    and what a job comes to are arguments.  Of the reporter only the calls are kept,
    in their order. *)

From S2P Require Import Prelude Py Text Store AgentRun CheckRuns.

(** ** agent/job_processor.py *)

(** A queued job: its negated priority, its place in the order of arrival, its data. *)
Record queue_entry := Entry { en_priority : Z; en_sequence : N; en_job : pydict }.

(** The worker's job: still running, or its result about to be posted, with the
    failure counted only after that when it did not run to its end. *)
Inductive stage := Working | Sending (result : pydict) (counts_failure : bool).

Record processor := Processor {
  pr_running : bool;
  pr_queue : list queue_entry;
  pr_sequence : N;                              (* next(_sequence) *)
  pr_active : option (queue_entry * stage);           (* active_jobs: the worker runs one *)
  pr_completed_since : N; pr_failed_since : N; pr_total_completed : N; pr_total_failed : N;
  pr_notices : list N;                          (* the start notices posted, by sequence *)
  pr_submitted : list (N * string * pydict);    (* the results posted: whose, to which job's URL *)
  pr_cut_off : list (N * bool);                 (* the jobs a stop cut off, and whether already counted *)
  pr_unreadable : list N;                       (* the jobs whose type raised before they could begin *)
  pr_taken : list (N * N);                      (* the counts [get_stats] gave the heartbeats *)
}.

Definition new_processor : processor := Processor false [] 0 None 0 0 0 0 [] [] [] [] [].

(** The handler classes: whether one is registered for a type, and what its
    constructor raises of a job, if it does. *)
Class Handlers := { registered : string -> bool; construct : string -> string -> pyval -> option string }.

(** What [asyncio.wait_for(job.run(), timeout)] comes to. *)
Inductive ran := Returned (result : pydict) | Overran | Died (text : string).

Section Processor.
Context `{PyRuntime} `{CheckEnv} `{Handlers}.

(** [enqueue_jobs]: a priority that is no number stops it at that job. *)
Definition put (p : processor) (priority : Z) (job : pydict) : processor :=
  Processor (pr_running p) (pr_queue p ++ [Entry priority (pr_sequence p) job]) (pr_sequence p + 1) (pr_active p)
    (pr_completed_since p) (pr_failed_since p) (pr_total_completed p) (pr_total_failed p) (pr_notices p) (pr_submitted p)
    (pr_cut_off p) (pr_unreadable p) (pr_taken p).

Fixpoint enqueue_jobs (p : processor) (jobs : list pydict) : processor * res unit :=
  match jobs with
  | [] => (p, Ok tt)
  | job :: jobs =>
      match int_of_value (dict_get job "priority" (PInt 0)) with
      | Ok priority => enqueue_jobs (put p (- priority) job) jobs
      | Raise e => (p, Raise e)
      end
  end.

(** [job_queue.get()]: the least (priority, sequence). *)
Definition entry_before (a b : queue_entry) : bool :=
  (en_priority a <? en_priority b)%Z || (en_priority a =? en_priority b)%Z && (en_sequence a <=? en_sequence b)%N.

Fixpoint pop_min (q : list queue_entry) : option (queue_entry * list queue_entry) :=
  match q with
  | [] => None
  | x :: q =>
      match pop_min q with
      | None => Some (x, [])
      | Some (y, rest) => if entry_before x y then Some (x, q) else Some (y, x :: rest)
      end
  end.

Definition job_id (e : queue_entry) : string := py_str (dict_get (en_job e) "job_id" PNone).

(** Whether a job can be run: its type and its handler's constructor say; a type no
    dict can look up raises. *)
Inductive admission := Runnable | Refused (error : string) | Unhashable.

Definition handler_of (e : queue_entry) : admission :=
  let job_type := dict_get (en_job e) "job_type" PNone in
  let unknown := Refused ("Unknown job type: " +:+ py_str job_type) in
  if negb (truthy job_type) then unknown else
  if negb (hashable job_type) then Unhashable else
  match job_type with
  | PStr t =>
      if registered t then
        match construct t (job_id e) (dict_get (en_job e) "params" (PDict [])) with
        | Some error => Refused ("Failed to create job handler: " +:+ error)
        | None => Runnable
        end
      else unknown
  | _ => unknown
  end.

Definition failed (error : string) : pydict := [("status", PStr "failed"); ("result", PNone); ("error", PStr error)].

(** The worker cancelled, and its job with it: an end already counted stays so. *)
Definition cut_off (p : processor) : processor :=
  Processor false (pr_queue p) (pr_sequence p) None (pr_completed_since p) (pr_failed_since p) (pr_total_completed p)
    (pr_total_failed p) (pr_notices p) (pr_submitted p)
    (pr_cut_off p ++ match pr_active p with
                     | Some (e, Sending _ false) => [(en_sequence e, true)]
                     | Some (e, _) => [(en_sequence e, false)]
                     | None => []
                     end)
    (pr_unreadable p) (pr_taken p).

Definition unreadable (p : processor) (queue : list queue_entry) (e : queue_entry) : processor :=
  Processor (pr_running p) queue (pr_sequence p) None (pr_completed_since p) (pr_failed_since p) (pr_total_completed p)
    (pr_total_failed p) (pr_notices p) (pr_submitted p) (pr_cut_off p) (pr_unreadable p ++ [en_sequence e]) (pr_taken p).

Definition with_active (p : processor) (queue : list queue_entry) (active : option (queue_entry * stage)) (notices : list N) : processor :=
  Processor (pr_running p) queue (pr_sequence p) active (pr_completed_since p) (pr_failed_since p) (pr_total_completed p)
    (pr_total_failed p) notices (pr_submitted p) (pr_cut_off p) (pr_unreadable p) (pr_taken p).

(** [_job_worker] takes a job, and [_execute_job] begins it: a job that cannot be run
    has its result at once; another is announced first.  What the first raises is
    logged, and the next job's turn comes. *)
Definition begin_job (p : processor) : option processor :=
  if negb (pr_running p) then None else
  match pr_active p, pop_min (pr_queue p) with
  | None, Some (e, rest) =>
      Some (match handler_of e with
            | Refused error => with_active p rest (Some (e, Sending (failed error) true)) (pr_notices p)
            | Runnable => with_active p rest (Some (e, Working)) (pr_notices p ++ [en_sequence e])
            | Unhashable => unreadable p rest e
            end)
  | _, _ => None
  end.

Definition count_ended (p : processor) (completed : bool) : processor :=
  let c := if completed then 1%N else 0%N in
  let f := if completed then 0%N else 1%N in
  Processor (pr_running p) (pr_queue p) (pr_sequence p) (pr_active p) (pr_completed_since p + c) (pr_failed_since p + f)
    (pr_total_completed p + c) (pr_total_failed p + f) (pr_notices p) (pr_submitted p) (pr_cut_off p) (pr_unreadable p) (pr_taken p).

(** The job ends: what it returned is counted before it is posted, a failure to run
    after. *)
Definition end_run (p : processor) (outcome : ran) : option processor :=
  match pr_active p with
  | Some (e, Working) =>
      let sending p result later := with_active p (pr_queue p) (Some (e, Sending result later)) (pr_notices p) in
      Some (match outcome with
            | Returned result =>
                match assoc_get result "status" with
                | Some status => sending (count_ended p (py_eqb status (PStr "completed"))) result false
                | None => sending p (failed (describe KeyError)) true
                end
            | Overran =>
                sending p (failed ("Job timed out after " +:+ py_str (dict_get (en_job e) "timeout_seconds" (PInt 300)) +:+ " seconds")) true
            | Died text => sending p (failed text) true
            end)
  | _ => None
  end.

(** [_submit_result]: what the server answers, or that it does not, is logged. *)
Definition submit_result (p : processor) : option processor :=
  match pr_active p with
  | Some (e, Sending result counts_failure) =>
      let p := if counts_failure then count_ended p false else p in
      Some (Processor (pr_running p) (pr_queue p) (pr_sequence p) None (pr_completed_since p) (pr_failed_since p)
              (pr_total_completed p) (pr_total_failed p) (pr_notices p)
              (pr_submitted p ++ [(en_sequence e, job_id e, result)]) (pr_cut_off p) (pr_unreadable p) (pr_taken p))
  | _ => None
  end.

(** [get_stats], for a heartbeat: how many wait and run, and the counts since the last. *)
Definition get_stats (p : processor) : processor * pydict :=
  (Processor (pr_running p) (pr_queue p) (pr_sequence p) (pr_active p) 0 0 (pr_total_completed p) (pr_total_failed p)
     (pr_notices p) (pr_submitted p) (pr_cut_off p) (pr_unreadable p) (pr_taken p ++ [(pr_completed_since p, pr_failed_since p)]),
   [("jobs_pending", PInt (Z.of_nat (length (pr_queue p))));
    ("jobs_running", PInt (match pr_active p with Some _ => 1 | None => 0 end));
    ("jobs_completed_since_last", PInt (Z.of_N (pr_completed_since p)));
    ("jobs_failed_since_last", PInt (Z.of_N (pr_failed_since p)))]).

Definition start_worker (p : processor) : processor :=
  Processor true (pr_queue p) (pr_sequence p) (pr_active p) (pr_completed_since p) (pr_failed_since p) (pr_total_completed p)
    (pr_total_failed p) (pr_notices p) (pr_submitted p) (pr_cut_off p) (pr_unreadable p) (pr_taken p).

(** [stop]: the worker is cancelled where it waits, its job with it. *)
Definition stop (p : processor) : processor := if pr_running p then cut_off p else p.

(** What the agent's tasks do to the processor, one after another. *)
Inductive processor_step : processor -> processor -> Prop :=
  | step_start p : processor_step p (start_worker p)
  | step_enqueue p jobs : processor_step p (enqueue_jobs p jobs).1
  | step_begin p p' : begin_job p = Some p' -> processor_step p p'
  | step_end_run p outcome p' : end_run p outcome = Some p' -> processor_step p p'
  | step_submit p p' : submit_result p = Some p' -> processor_step p p'
  | step_stats p : processor_step p (get_stats p).1
  | step_stop p : processor_step p (stop p).
End Processor.

(** ** agent/result_processor.py *)

(** The calls on the reporter and the server, in order. *)
Inductive reporter_call :=
  | AddResult (result : pydict)
  | Flush
  | Upload (artifact : pydict).

(** Base64 of an artifact's data, and the UTC date of a timestamp; each may refuse. *)
Class Encoders := { b64encode : pyval -> res string; utc_isoformat : pyval -> res string }.

Section Results.
Context `{PyRuntime} `{Encoders} (agent_id : pyval).

(** [{k: v for k, v in d.items() if k != key}], and [d.pop(key, None)] *)
Definition without (key : string) (d : pydict) : pydict := filter (fun kv => kv.1 <> key) d.

(** What is posted of one artifact; one that lacks a field is skipped. *)
Definition artifact_data (result : pydict) (timestamp : string) (artifact : pyval) : res pydict :=
  match artifact with
  | PDict a =>
      data ← item_of a "data"; encoded ← b64encode data;
      type ← item_of a "type"; content_type ← item_of a "content_type"; filename ← item_of a "filename";
      Ok [("agent_id", PStr (py_str agent_id)); ("check_id", dict_get result "check_id" PNone);
          ("check_result_id", dict_get result "result_id" PNone); ("check_result_timestamp", PStr timestamp);
          ("artifact_type", type); ("content_type", content_type); ("filename", filename); ("data_base64", PStr encoded)]
  | _ => Raise TypeError
  end.

(** One that is no dict ends the loop: its own error message reads it as one. *)
Fixpoint uploads (result : pydict) (timestamp : string) (artifacts : list pyval) : list reporter_call :=
  match artifacts with
  | (PDict _ as a) :: artifacts =>
      match artifact_data result timestamp a with Ok data => [Upload data] | Raise _ => [] end
      ++ uploads result timestamp artifacts
  | _ => []
  end.

(** [upload_artifacts]: the posts, and the result, which loses its artifacts whatever
    happens.  [now] is time.time(). *)
Definition upload_artifacts (now : pyval) (result : pydict) : list reporter_call * pydict :=
  let artifacts := dict_get result "artifacts" PNone in
  if negb (truthy artifacts) then ([], result) else
  (match utc_isoformat (dict_get result "timestamp" now), py_iter artifacts with
   | Ok timestamp, Ok artifacts => uploads result timestamp artifacts
   | _, _ => []
   end, without "artifacts" result).

(** The body of [process_results]' loop, for one result; [reporter] is what a call
    raises, if it does.  The result left is the object the executor keeps as the
    check's last. *)
Definition process_result (now : pyval) (reporter : reporter_call -> res unit) (result : pydict) : list reporter_call * pydict :=
  match assoc_get result "success" with
  | None => ([], result)
  | Some _ =>
      if truthy (dict_get result "artifacts" PNone) then
        let add := AddResult (without "artifacts" result) in
        match reporter add with
        | Raise _ => ([add], result)
        | Ok _ =>
            match reporter Flush with
            | Raise _ => ([add; Flush], result)
            | Ok _ => let '(posts, result) := upload_artifacts now result in (add :: Flush :: posts, result)
            end
        end
      else ([AddResult result], result)
  end.

(** ** agent/lifecycle.py: the results left in the queue at a shutdown

    The batches of at most 50, until the reporter refuses a result. *)
Fixpoint add_all (reporter : reporter_call -> res unit) (results : list pydict) : list reporter_call * bool :=
  match results with
  | [] => ([], true)
  | r :: results =>
      match reporter (AddResult r) with
      | Ok _ => let '(events, ok) := add_all reporter results in (AddResult r :: events, ok)
      | Raise _ => ([AddResult r], false)
      end
  end.

Fixpoint drain_from (reporter : reporter_call -> res unit) (fuel : nat) (queue : list pydict) : list reporter_call :=
  match fuel, queue with
  | S fuel, _ :: _ =>
      let '(events, ok) := add_all reporter (take 50 queue) in
      events ++ if ok then drain_from reporter fuel (drop 50 queue) else []
  | _, _ => []
  end.
Definition drain (reporter : reporter_call -> res unit) (queue : list pydict) : list reporter_call := drain_from reporter (length queue) queue.
End Results.
