(* ===== verification/AgentTasksTheorems.v ===== *)
(** * AgentTasksTheorems

    The job processor accounts for every job it was given: each waits, runs, was cut
    off by a stop, or had its one result posted; one runs at a time, the best first;
    every ended job is counted once, and every count reaches one heartbeat.  A check's
    result goes to the reporter without its artifacts, and they follow it.  A shutdown
    hands over every result left, but its artifacts with it. *)

From S2P Require Import Prelude Py Text Store AgentRun CheckRuns AgentTasks.

(** ** The queue *)

Lemma pop_min_perm q e rest : pop_min q = Some (e, rest) -> q ≡ₚ e :: rest.
Proof.
  revert e rest. induction q as [|x q IH]; intros e rest; cbn [pop_min]; [done|].
  destruct (pop_min q) as [[y r]|] eqn:E.
  - specialize (IH _ _ eq_refl). destruct (entry_before x y); intros [= <- <-]; [done|]. rewrite IH. apply perm_swap.
  - intros [= <- <-]. destruct q as [|z q]; [done|]. cbn in E. destruct (pop_min q) as [[]|]; [by destruct (entry_before _ _)|done].
Qed.

Lemma pop_min_nonempty x q : exists e rest, pop_min (x :: q) = Some (e, rest).
Proof. cbn. destruct (pop_min q) as [[y r]|]; [destruct (entry_before x y)|]; eauto. Qed.

(** A higher priority first, then the earlier arrival. *)
Definition served_before (a b : queue_entry) : Prop :=
  (en_priority a < en_priority b)%Z \/ en_priority a = en_priority b /\ (en_sequence a <= en_sequence b)%N.

Lemma entry_before_spec a b : entry_before a b = true <-> served_before a b.
Proof.
  unfold entry_before, served_before. rewrite orb_true_iff, andb_true_iff, Z.ltb_lt, Z.eqb_eq, N.leb_le. done.
Qed.
Lemma not_before a b : entry_before a b = false -> served_before b a.
Proof.
  intros H. assert (~ served_before a b) as Hn by (rewrite <- entry_before_spec; congruence). unfold served_before in *. lia.
Qed.

Lemma pop_min_best q e rest : pop_min q = Some (e, rest) -> Forall (served_before e) q.
Proof.
  revert e rest. induction q as [|x q IH]; intros e rest; cbn [pop_min]; [done|].
  destruct (pop_min q) as [[y r]|] eqn:E.
  - specialize (IH _ _ eq_refl). destruct (entry_before x y) eqn:Eb; intros [= <- <-].
    + apply entry_before_spec in Eb. constructor; [right; split; [done|lia]|]. eapply Forall_impl; [exact IH|]. intros z Hz.
      unfold served_before in *. lia.
    + apply not_before in Eb. by constructor.
  - intros [= <- <-]. destruct q as [|z q]; [|by destruct (pop_min_nonempty z q) as (? & ? & ?); congruence].
    constructor; [right; split; [done|lia]|constructor].
Qed.

(** ** Every job is accounted for *)

Section Accounts.
Context `{PyRuntime} `{CheckEnv} `{Handlers}.

Definition active_sequences (p : processor) : list N := match pr_active p with Some (e, _) => [en_sequence e] | None => [] end.
Definition posted (p : processor) : list N := map (fun x => x.1.1) (pr_submitted p).

(** Everything ever enqueued, by what became of it. *)
Definition fates (p : processor) : list N :=
  map en_sequence (pr_queue p) ++ active_sequences p ++ posted p ++ map fst (pr_cut_off p) ++ pr_unreadable p.

Definition upto (n : N) : list N := map N.of_nat (seq 0 (N.to_nat n)).

Lemma upto_succ n : upto (n + 1) = upto n ++ [n].
Proof. unfold upto. replace (N.to_nat (n + 1)) with (S (N.to_nat n)) by lia. rewrite seq_S, map_app. cbn. by rewrite N2Nat.id. Qed.

Lemma upto_nodup n : NoDup (upto n).
Proof. unfold upto. apply NoDup_fmap; [intros x y; lia|]. apply NoDup_seq. Qed.

(** Whether the worker's job is already counted. *)
Definition counted_early (p : processor) : N := match pr_active p with Some (_, Sending _ false) => 1 | _ => 0 end.

(** How many of the jobs a stop cut off had ended, and were counted. *)
Definition cut_counted (p : processor) : N := N.of_nat (length (filter (fun x => x.2 = true) (pr_cut_off p))).

Definition taken_completed (p : processor) : N := foldr (fun t n => (t.1 + n)%N) 0%N (pr_taken p).
Definition taken_failed (p : processor) : N := foldr (fun t n => (t.2 + n)%N) 0%N (pr_taken p).

Record accounted (p : processor) : Prop := {
  acc_fates : fates p ≡ₚ upto (pr_sequence p);
  acc_idle : pr_running p = false -> pr_active p = None;
  acc_completed : (taken_completed p + pr_completed_since p)%N = pr_total_completed p;
  acc_failed : (taken_failed p + pr_failed_since p)%N = pr_total_failed p;
  acc_ended : (pr_total_completed p + pr_total_failed p
    = N.of_nat (length (pr_submitted p)) + counted_early p + cut_counted p)%N }.

Lemma foldr_taken (f : N * N -> N) (l : list (N * N)) x :
  foldr (fun t n => (f t + n)%N) 0%N (l ++ [x]) = (foldr (fun t n => (f t + n)%N) 0%N l + f x)%N.
Proof. induction l as [|t l IH]; cbn; [lia|]. rewrite IH. lia. Qed.

Lemma put_accounted p priority job : accounted p -> accounted (put p priority job).
Proof.
  intros [Hf Hi Hc Hx He]. split; cbn; try done. unfold fates, put in *. cbn.
  rewrite upto_succ, <- Hf, map_app. cbn. unfold active_sequences, posted. cbn. solve_Permutation.
Qed.

Lemma enqueue_accounted p jobs : accounted p -> accounted (enqueue_jobs p jobs).1.
Proof.
  revert p. induction jobs as [|job jobs IH]; intros p Hp; cbn [enqueue_jobs]; [done|].
  destruct (int_of_value _); [|done]. by apply IH, put_accounted.
Qed.

Lemma begin_accounted p p' : begin_job p = Some p' -> accounted p -> accounted p'.
Proof.
  unfold begin_job. destruct (pr_running p) eqn:Er; cbn [negb]; [|done]. destruct (pr_active p) eqn:Ea; [done|].
  destruct (pop_min (pr_queue p)) as [[e rest]|] eqn:Eq; [|done]. intros [= <-] [Hf Hi Hc Hx He].
  apply pop_min_perm in Eq. unfold counted_early in He. rewrite Ea in He.
  assert (forall s n, fates (with_active p rest (Some (e, s)) n) ≡ₚ upto (pr_sequence p)) as Hf'.
  { intros s n. rewrite <- Hf. unfold fates, active_sequences, posted. cbn. rewrite Ea, Eq. cbn. solve_Permutation. }
  destruct (handler_of e); [split; [apply Hf'|cbn; congruence|done|done|exact He]..|].
  split; [|done|done|done|exact He].
  rewrite <- Hf. unfold fates, active_sequences, posted, unreadable. cbn. rewrite Ea, Eq. cbn. solve_Permutation.
Qed.

Lemma end_run_accounted p outcome p' : end_run p outcome = Some p' -> accounted p -> accounted p'.
Proof.
  unfold end_run. destruct (pr_active p) as [[e [|]]|] eqn:Ea; try done. intros [= <-] [Hf Hi Hc Hx He].
  assert (pr_running p = true) as Hr by (destruct (pr_running p); [done|specialize (Hi eq_refl); congruence]).
  unfold fates, active_sequences, posted in Hf. rewrite Ea in Hf. unfold counted_early in He. rewrite Ea in He.
  assert (forall q s n, pr_queue q = pr_queue p -> pr_submitted q = pr_submitted p -> pr_cut_off q = pr_cut_off p ->
    pr_unreadable q = pr_unreadable p ->
    fates (with_active q (pr_queue p) (Some (e, s)) n) ≡ₚ upto (pr_sequence p)) as Hf'.
  { intros q s n Hq Hs Hct Hu. rewrite <- Hf. unfold fates, active_sequences, posted. cbn. by rewrite Hs, Hct, Hu. }
  destruct outcome as [result| |text]; [destruct (assoc_get result "status") as [status|]; [destruct (py_eqb status _)|]|..];
    (split; [by apply Hf'|cbn; congruence|..]); unfold taken_completed, taken_failed, counted_early, cut_counted in *;
    cbn -[filter] in *; lia.
Qed.

Lemma submit_accounted p p' : submit_result p = Some p' -> accounted p -> accounted p'.
Proof.
  unfold submit_result. destruct (pr_active p) as [[e [|result later]]|] eqn:Ea; try done. intros [= <-] [Hf Hi Hc Hx He].
  unfold fates, active_sequences, posted in Hf. rewrite Ea in Hf. unfold counted_early in He. rewrite Ea in He.
  split; [|destruct later; try done; unfold taken_completed, taken_failed, counted_early, cut_counted in *; cbn -[filter] in *; rewrite ?length_app; cbn -[filter]; try done; try lia..].
  destruct later; unfold fates, active_sequences, posted; cbn; rewrite <- Hf, map_app; cbn; solve_Permutation.
Qed.

Lemma stop_accounted p : accounted p -> accounted (stop p).
Proof.
  intros [Hf Hi Hc Hx He]. unfold stop. destruct (pr_running p) eqn:Er; [|split; auto].
  unfold counted_early in He. split; cbn; try done.
  - rewrite <- Hf. unfold fates, active_sequences, posted, cut_off. cbn.
    destruct (pr_active p) as [[e [|r [|]]]|]; cbn; rewrite ?map_app, ?app_nil_r; cbn; solve_Permutation.
  - rewrite He. unfold counted_early, cut_counted, cut_off. cbn.
    destruct (pr_active p) as [[e [|r [|]]]|]; rewrite ?filter_app, ?length_app;
      rewrite ?filter_cons, ?filter_nil, ?decide_True, ?decide_False by done; cbn -[filter]; lia.
Qed.

Lemma step_accounted p p' : processor_step p p' -> accounted p -> accounted p'.
Proof.
  intros Hs Hp. destruct Hs as [p|p jobs|p p' E|p outcome p' E|p p' E|p|p].
  - destruct Hp as [Hf Hi Hc Hx He]. by split.
  - by apply enqueue_accounted.
  - by eapply begin_accounted.
  - by eapply end_run_accounted.
  - by eapply submit_accounted.
  - destruct Hp as [Hf Hi Hc Hx He]. split; [done|done| | |done]; unfold taken_completed, taken_failed in *; cbn.
    + rewrite (foldr_taken fst). cbn. lia.
    + rewrite (foldr_taken snd). cbn. lia.
  - by apply stop_accounted.
Qed.

(** C25: Whatever the heartbeats bring, however the jobs end and whenever the processor is
    stopped: every job enqueued waits, runs, was cut off by a stop, was dropped
    because its type is a value no table can be asked for (a list or an object), or
    had a result posted, each in one of these and with one result at most; the
    counts taken by the heartbeats, with those not yet taken, are the totals; and
    the totals count the results posted and the runs that ended with theirs still to
    be posted, whether under way or cut off there. *)
Theorem jobs_accounted p : star processor_step new_processor p ->
  fates p ≡ₚ upto (pr_sequence p) /\ NoDup (posted p)
  /\ (taken_completed p + pr_completed_since p)%N = pr_total_completed p
  /\ (taken_failed p + pr_failed_since p)%N = pr_total_failed p
  /\ (pr_total_completed p + pr_total_failed p
      = N.of_nat (length (pr_submitted p)) + counted_early p + cut_counted p)%N.
Proof.
  intros Hs. assert (accounted p) as [Hf Hi Hc Hx He].
  { apply (star_invariant processor_step accounted new_processor p); [intros x y; apply step_accounted|done|]. by split. }
  split; [done|]. split; [|by split].
  pose proof (upto_nodup (pr_sequence p)) as Hn. rewrite <- Hf in Hn. unfold fates in Hn.
  by apply NoDup_app in Hn as (_ & _ & (_ & _ & (Hn & _ & _)%NoDup_app)%NoDup_app).
Qed.

(** The worker takes the job of the highest priority, the earliest of those. *)
Theorem best_job_first p p' : begin_job p = Some p' -> exists e rest, pop_min (pr_queue p) = Some (e, rest)
  /\ pr_queue p' = rest /\ (hashable (dict_get (en_job e) "job_type" PNone) = true -> exists s, pr_active p' = Some (e, s))
  /\ forall e', e' ∈ pr_queue p -> served_before e e'.
Proof.
  unfold begin_job. destruct (negb _); [done|]. destruct (pr_active p); [done|].
  destruct (pop_min (pr_queue p)) as [[e rest]|] eqn:Eq; [|done]. intros [= <-].
  pose proof (pop_min_best _ _ _ Eq) as Hb. rewrite Forall_forall in Hb. exists e, rest. split; [done|].
  split; [by destruct (handler_of e)|]. split; [|done]. intros Hh. unfold handler_of. destruct (negb (truthy _)); [eauto|].
  rewrite Hh. cbn [negb]. destruct (dict_get _ "job_type" _); eauto. destruct (registered s); [|eauto]. destruct (construct _ _ _); eauto.
Qed.

(** And only when it has ended its last: the configured concurrency is never used. *)
Theorem one_job_at_a_time p p' : begin_job p = Some p' -> pr_active p = None.
Proof. unfold begin_job. destruct (negb _); [done|]. by destruct (pr_active p). Qed.

(** *** A batch of the server's *)

(** The jobs a worker takes, one after another. *)
Fixpoint taken_in_order (n : nat) (q : list queue_entry) : list pydict :=
  match n, pop_min q with S n, Some (e, rest) => en_job e :: taken_in_order n rest | _, _ => [] end.

Lemma pop_min_first x q : Forall (served_before x) q -> pop_min (x :: q) = Some (x, q).
Proof.
  intros Hx. cbn. destruct (pop_min q) as [[y rest]|] eqn:E.
  - assert (entry_before x y = true) as ->; [|done]. apply entry_before_spec. rewrite Forall_forall in Hx. apply Hx.
    rewrite (pop_min_perm _ _ _ E). by left.
  - destruct q as [|z q]; [done|]. destruct (pop_min_nonempty z q) as (? & ? & ?). congruence.
Qed.

Lemma taken_sorted q : StronglySorted served_before q -> taken_in_order (length q) q = map en_job q.
Proof.
  induction 1 as [|x q _ IH Hx]; [done|]. cbn [length taken_in_order map]. by rewrite pop_min_first, IH.
Qed.

Definition priority_of (job : pydict) (z : Z) : Prop := int_of_value (dict_get job "priority" (PInt 0)) = Ok z.

Fixpoint entries (n : N) (jobs : list pydict) (priorities : list Z) : list queue_entry :=
  match jobs, priorities with
  | job :: jobs, z :: priorities => Entry (- z) n job :: entries (n + 1) jobs priorities
  | _, _ => []
  end.

Lemma enqueue_entries p jobs priorities : Forall2 priority_of jobs priorities ->
  pr_queue (enqueue_jobs p jobs).1 = pr_queue p ++ entries (pr_sequence p) jobs priorities /\ (enqueue_jobs p jobs).2 = Ok tt.
Proof.
  intros Hj. revert p. induction Hj as [|job z jobs priorities Hz _ IH]; intros p; cbn [enqueue_jobs entries]; [by rewrite app_nil_r|].
  unfold priority_of in Hz. rewrite Hz. destruct (IH (put p (- z) job)) as [-> ->]. cbn. by rewrite <- app_assoc.
Qed.

Lemma entries_sorted n jobs priorities : Forall2 priority_of jobs priorities -> StronglySorted Z.ge priorities ->
  StronglySorted served_before (entries n jobs priorities) /\ map en_job (entries n jobs priorities) = jobs
  /\ Forall (fun e => (n <= en_sequence e)%N /\ (- en_priority e)%Z ∈ priorities) (entries n jobs priorities).
Proof.
  intros Hj. revert n. induction Hj as [|job z jobs priorities Hz _ IH]; intros n Hs; cbn [entries map]; [by repeat constructor|].
  inversion_clear Hs as [|? ? Hs' Hge]. destruct (IH (n + 1)%N Hs') as (H1' & H2' & H3'). rewrite Forall_forall in Hge.
  split_and!.
  - constructor; [done|]. eapply Forall_impl; [exact H3'|]. intros e [Hn Hin]. specialize (Hge _ Hin). unfold served_before. cbn. lia.
  - by rewrite H2'.
  - constructor; [cbn; rewrite Z.opp_involutive; split; [lia|by left]|]. eapply Forall_impl; [exact H3'|].
    intros e [Hn Hin]. split; [lia|by right].
Qed.

(** The jobs of one heartbeat, which the server sends by priority, are taken in the
    order it sent them by a worker with nothing else to do. *)
Theorem batch_runs_as_sent p jobs priorities : pr_queue p = [] -> Forall2 priority_of jobs priorities ->
  StronglySorted Z.ge priorities -> taken_in_order (length jobs) (pr_queue (enqueue_jobs p jobs).1) = jobs.
Proof.
  intros Hq Hj Hs. destruct (enqueue_entries p jobs priorities Hj) as [-> _]. rewrite Hq. cbn [app].
  destruct (entries_sorted (pr_sequence p) jobs priorities Hj Hs) as (Ho & Hm & _).
  rewrite <- Hm at 1. rewrite length_map, taken_sorted by done. exact Hm.
Qed.
End Accounts.

(** ** Results and their artifacts *)

Section Results.
Context `{PyRuntime} `{Encoders} (agent_id : pyval).

Lemma without_get key d k v0 : dict_get (without key d) k v0 = if decide (k = key) then v0 else dict_get d k v0.
Proof.
  unfold dict_get, without. assert (assoc_get (filter (fun kv : string * pyval => kv.1 <> key) d) k = if decide (k = key) then None else assoc_get d k) as ->;
    [|by destruct (decide (k = key))].
  induction d as [|[k' v] d IH]; [by destruct (decide _)|]. rewrite filter_cons. cbn [fst assoc_get].
  destruct (decide (k' <> key)) as [Hne|He]; cbn [assoc_get]; rewrite IH; destruct (decide (k = key)) as [->|]; cbn.
  - by rewrite decide_False.
  - done.
  - done.
  - destruct (assoc_get d k); [done|]. rewrite decide_False; [done|]. intros ->. by apply He.
Qed.

Lemma uploads_of result timestamp artifacts x : x ∈ uploads agent_id result timestamp artifacts ->
  exists data, x = Upload data /\ dict_get data "check_id" PNone = dict_get result "check_id" PNone
    /\ dict_get data "check_result_id" PNone = dict_get result "result_id" PNone.
Proof.
  induction artifacts as [|a artifacts IH]; cbn [uploads]; [by intros ?%elem_of_nil|].
  destruct a as [| | | | | |d]; try by intros ?%elem_of_nil. intros [Hx|Hx]%elem_of_app; [|by apply IH].
  destruct (artifact_data agent_id result timestamp (PDict d)) as [data|] eqn:E; [|by apply elem_of_nil in Hx].
  apply list_elem_of_singleton in Hx as ->. exists data. split; [done|]. unfold artifact_data in E. inv_res. done.
Qed.

(** A result reaches the reporter without artifacts; where it has some, the reporter
    is flushed before they are posted, each under the result's id and its check's,
    and the result kept loses them. *)
Theorem artifacts_follow_their_result now reporter result events left : assoc_get result "success" <> None ->
  process_result agent_id now reporter result = (events, left) ->
  exists added, head events = Some (AddResult added) /\ truthy (dict_get added "artifacts" PNone) = false
    /\ (forall k v0, k <> "artifacts" -> dict_get added k v0 = dict_get result k v0)
    /\ (truthy (dict_get result "artifacts" PNone) = false -> events = [AddResult result])
    /\ (truthy (dict_get result "artifacts" PNone) = true -> (forall e, reporter e = Ok tt) ->
        dict_get left "artifacts" PNone = PNone /\ exists posts, events = AddResult added :: Flush :: posts
        /\ forall x, x ∈ posts -> exists data, x = Upload data /\ dict_get data "check_id" PNone = dict_get result "check_id" PNone
          /\ dict_get data "check_result_id" PNone = dict_get result "result_id" PNone).
Proof.
  intros Hsuc. unfold process_result, upload_artifacts. destruct (assoc_get result "success"); [clear Hsuc|done].
  destruct (truthy (dict_get result "artifacts" PNone)) eqn:Et; cbn [negb].
  - assert (truthy (dict_get (without "artifacts" result) "artifacts" PNone) = false) as Hw by (rewrite without_get; by destruct (decide _)).
    assert (forall k v0, k <> "artifacts" -> dict_get (without "artifacts" result) k v0 = dict_get result k v0) as Hk
      by (intros k v0 Hk; rewrite without_get; by rewrite decide_False).
    intros E. exists (without "artifacts" result). assert (head events = Some (AddResult (without "artifacts" result))) as Hh.
    { destruct (reporter _); [destruct (reporter Flush)|]; by injection E as <- _. }
    split_and!; [done|done|done|done|]. intros _ Hr. rewrite !Hr in E. injection E as <- <-.
    split; [rewrite without_get; by destruct (decide _)|]. eexists. split; [done|]. intros x.
    destruct (utc_isoformat _) as [t|]; [|by intros ?%elem_of_nil]. destruct (py_iter _); [|by intros ?%elem_of_nil].
    apply uploads_of.
  - intros [= <- <-]. exists result. by split_and!.
Qed.

(** ** The shutdown *)

Lemma add_all_ok (reporter : reporter_call -> res unit) results : (forall e, reporter e = Ok tt) -> add_all reporter results = (map AddResult results, true).
Proof. intros Ha. induction results as [|r results IH]; [done|]. cbn. by rewrite Ha, IH. Qed.

(** A shutdown hands every result left in the queue to the reporter, in their order,
    as long as it takes them. *)
Theorem drain_takes_all reporter queue : (forall e, reporter e = Ok tt) -> drain reporter queue = map AddResult queue.
Proof.
  intros Ha. unfold drain. assert (length queue <= length queue) as Hl by lia. revert Hl. generalize (length queue) at 2 3 as fuel.
  intros fuel. revert queue. induction fuel as [|fuel IH]; intros [|r queue] Hl; try done; [cbn in Hl; lia|].
  cbn [drain_from]. rewrite add_all_ok by done. rewrite IH; [|rewrite length_drop; cbn in *; lia].
  by rewrite <- map_app, take_drop.
Qed.

(** With their artifacts, which the result processor takes off because JSON cannot
    hold their bytes. *)
Lemma drained_keeps_artifacts reporter result : (forall e, reporter e = Ok tt) -> drain reporter [result] = [AddResult result].
Proof. intros Ha. by rewrite drain_takes_all. Qed.
End Results.

(** ** Witnesses *)

Module Demo.
#[local] Instance runtime : PyRuntime := plain_runtime.
#[local] Instance env : CheckEnv := {|
  describe := fun _ => "an error"; re_search := fun p s => Ok (substringb p s); json_dumps := fun _ => "{}";
  jsonata_evaluate := fun _ data => Got data |}.
#[local] Instance handlers : Handlers := {|
  registered := fun t => String.eqb t "network_scan"; construct := fun _ _ _ => None |}.

Definition a_job (id : string) (priority : Z) : pydict :=
  [("job_id", PStr id); ("job_type", PStr "network_scan"); ("priority", PInt priority)].
Definition queued : processor := (enqueue_jobs (start_worker new_processor) [a_job "a" 1; a_job "b" 5]).1.
Definition begun : processor := default queued (begin_job queued).
Definition ended : processor := default begun (end_run begun (Returned [("status", PStr "completed")])).
Definition sent : processor := default ended (submit_result ended).
Definition after_heartbeat : processor := (get_stats sent).1.

Lemma jobs_accounted_witness :
  star processor_step new_processor after_heartbeat /\ posted after_heartbeat = [1%N] /\ fates after_heartbeat ≡ₚ upto 2
  /\ (taken_completed after_heartbeat + pr_completed_since after_heartbeat)%N = 1%N.
Proof.
  assert (star processor_step new_processor after_heartbeat) as Hs.
  { eapply star_step; [apply step_start|]. eapply star_step; [apply (step_enqueue _ [a_job "a" 1; a_job "b" 5])|].
    eapply star_step; [apply (step_begin _ begun); vm_compute; reflexivity|].
    eapply star_step; [apply (step_end_run _ (Returned [("status", PStr "completed")]) ended); vm_compute; reflexivity|].
    eapply star_step; [apply (step_submit _ sent); vm_compute; reflexivity|].
    eapply star_step; [apply step_stats|]. apply star_refl. }
  destruct (jobs_accounted after_heartbeat Hs) as (Hf & _ & Hc & _).
  split; [exact Hs|]. split; [vm_compute; reflexivity|]. split; [exact Hf|]. rewrite Hc. vm_compute. reflexivity.
Defined.
End Demo.
