(* ===== verification/Credentials.v ===== *)
(** * Agent credentials

    What an agent proves itself with: its own key (core/agent_key.py,
    core/bcrypt_secret.py), its recovery secret (core/recovery_secret.py) and
    the registration key every install shares
    (services/core/registration_key_core_service.py,
    crud/registration_key_crud.py), and the checks of core/security.py that
    accept or refuse them.  A refusal is the HTTPException it answers with: its
    status and the value of the refusal header ("" for none).  bcrypt, the
    random source and the budgets of core/rate_limit.py are given. *)

From S2P Require Import Prelude Py Text Store.

(** shared/agent_protocol.py *)
Definition AGENT_KEY_REFUSED : string := "agent-key".
Definition RECOVERY_SECRET_REFUSED : string := "recovery-secret".
Definition REGISTRATION_KEY_REFUSED : string := "registration-key".

(** bcrypt: [hashpw salt k], and [checkpw], which raises ValueError on a stored
    text that is no bcrypt hash. *)
Class Bcrypt := {
  hashpw : string -> string -> string;
  checkpw : string -> string -> res bool;
}.

(** A hash is a nonempty text that checks against the secret it was made from. *)
Class BcryptLaws `{Bcrypt} : Prop := {
  checkpw_hashpw salt k : (String.length k <= 72)%nat -> checkpw k (hashpw salt k) = Ok true;
  hashpw_nonempty salt k : hashpw salt k <> "";
}.

(** [bool(x)] of an optional text *)
Definition present (x : option string) : bool :=
  match x with Some (String _ _) => true | _ => false end.

Definition AGENT_KEY_PREFIX : string := "luxswirl_ak_".
Definition RECOVERY_SECRET_PREFIX : string := "luxswirl_rs_".
Definition REGISTRATION_KEY_PREFIX : string := "luxswirl_rk_".

(** [secrets.token_hex(nbytes)], [random] the number it draws. *)
Definition token_hex (nbytes : nat) (random : N) : string := hex_digits (2 * nbytes) random "".

Definition new_agent_key (random : N) : string := AGENT_KEY_PREFIX +:+ token_hex 16 random.
Definition generate_key (random : N) : string := REGISTRATION_KEY_PREFIX +:+ token_hex 16 random.

(** The token of an Authorization header: two words, the first "bearer". *)
Definition bearer_token (authorization : string) : option string :=
  match words authorization with
  | [scheme; token] => if String.eqb (lower scheme) "bearer" then Some token else None
  | _ => None
  end.

Definition bearer_holds_agent_key (authorization : option string) : bool :=
  match bearer_token (default "" authorization) with
  | Some token => startswith AGENT_KEY_PREFIX token
  | None => false
  end.

Definition MAX_SECRET_BYTES : nat := 72.

(** ** Lemmas on tokens *)

Lemma words_acc_word cur s : all_chars not_space s -> s <> "" -> words_acc cur s = [cur +:+ s].
Proof.
  revert cur. induction s as [|c s IH]; intros cur Hall Hne; [done|]. destruct Hall as [Hc Hs].
  cbn [words_acc]. rewrite Hc.
  destruct s as [|d s].
  - cbn. destruct cur; done.
  - rewrite IH by done. f_equal. clear. induction cur as [|e cur IHc]; [done|]. exact (f_equal (String e) IHc).
Qed.

(** A header that carries a token without white space. *)
Lemma bearer_token_of token : all_chars not_space token -> token <> "" ->
  bearer_token ("Bearer " +:+ token) = Some token.
Proof.
  intros Ht Hne. unfold bearer_token, words. cbn [String.append words_acc is_space].
  change (words_acc "" ("Bearer " +:+ token)) with ("Bearer" :: words_acc "" token).
  by rewrite words_acc_word.
Qed.

Lemma hex_digit_not_space c : is_hex_digit c -> not_space c.
Proof.
  intros (n & Hn & ->).
  assert (H : forallb (fun k => negb (is_space (hex_digit k))) (map N.of_nat (seq 0 16)) = true) by reflexivity.
  rewrite forallb_forall in H. apply negb_true_iff, H.
  rewrite <- (N2Nat.id n). apply in_map, in_seq. lia.
Qed.

Lemma all_chars_app (P : ascii -> Prop) s t : all_chars P s -> all_chars P t -> all_chars P (s +:+ t).
Proof. induction s as [|c s IH]; cbn; [done|]. intros [? ?] ?. by split; [|apply IH]. Qed.

Lemma token_hex_chars n random : all_chars not_space (token_hex n random).
Proof. eapply all_chars_impl; [apply hex_digit_not_space|]. by apply hex_digits_chars. Qed.

Lemma hex_digits_length k n acc : String.length (hex_digits k n acc) = (k + String.length acc)%nat.
Proof. revert n acc. induction k as [|k IH]; intros n acc; [done|]. cbn [hex_digits]. rewrite IH. cbn. lia. Qed.

Lemma string_app_length s t : String.length (s +:+ t) = (String.length s + String.length t)%nat.
Proof. induction s as [|c s IH]; [done|]. exact (f_equal S IH). Qed.

Lemma new_agent_key_chars random : all_chars not_space (new_agent_key random).
Proof. apply all_chars_app; [by repeat split|apply token_hex_chars]. Qed.

Lemma new_agent_key_length random : String.length (new_agent_key random) = 44%nat.
Proof.
  unfold new_agent_key, token_hex. change (2 * 16)%nat with 32%nat. rewrite string_app_length, hex_digits_length. done.
Qed.

Section Credentials.
Context `{PyRuntime} `{Bcrypt}.

Definition bcrypt_matches (secret secret_hash : string) : res bool :=
  if (MAX_SECRET_BYTES <? String.length secret)%nat then Ok false
  else checkpw secret secret_hash.

(** [is_valid]: an exception of the check is a mismatch. *)
Definition matches_or_not (secret secret_hash : string) : bool :=
  match bcrypt_matches secret secret_hash with Ok b => b | Raise _ => false end.

(** ** The recovery secret *)

Definition NO_SECRET_DIGEST : string :=
  "0000000000000000000000000000000000000000000000000000000000000000".

Definition recovery_secret_digest (secret : string) : string := sha256_hex secret.

Definition recovery_secret_matches (stored presented : option string) : bool :=
  let stored_or := match stored with Some (String _ _ as s) => s | _ => NO_SECRET_DIGEST end in
  let matches := String.eqb (recovery_secret_digest (default "" presented)) stored_or in
  matches && present stored && present presented.

(** ** Registration keys *)

Record registration_key := RegistrationKey {
  rk_id : uuid;
  rk_name : string;
  rk_key_hash : string;
  rk_description : option string;
  rk_created_by : option string;
  rk_last_used_at : option instant;
  rk_usage_count : Z;
  rk_revoked_at : option instant;
  rk_revoked_by : option string;
  rk_revoked_reason : option string;
}.

Definition record_usage (now : instant) (k : registration_key) : registration_key :=
  RegistrationKey (rk_id k) (rk_name k) (rk_key_hash k) (rk_description k) (rk_created_by k)
    (Some now) (rk_usage_count k + 1) (rk_revoked_at k) (rk_revoked_by k) (rk_revoked_reason k).

Definition set_revoked (now : instant) (by_ reason : option string) (k : registration_key) : registration_key :=
  RegistrationKey (rk_id k) (rk_name k) (rk_key_hash k) (rk_description k) (rk_created_by k)
    (rk_last_used_at k) (rk_usage_count k) (Some now) by_ reason.

Definition is_active (k : registration_key) : bool := bool_decide (rk_revoked_at k = None).

(** [list_active] *)
Definition list_active_keys (t : gmap uuid registration_key) : list registration_key :=
  filter (fun k => Is_true (is_active k)) (rows t).

Definition hash_key (salt key : string) : string := hashpw salt key.
Definition verify_key (key key_hash : string) : bool := matches_or_not key key_hash.

(** [create_key]: the row and the plaintext, shown once; the hash is unique. *)
Definition create_key (t : gmap uuid registration_key) (id : uuid) (salt name : string) (random : N)
    (description created_by : option string) : res (string * gmap uuid registration_key) :=
  let plaintext_key := generate_key random in
  let key_hash := hash_key salt plaintext_key in
  if existsb (fun k => String.eqb (rk_key_hash k) key_hash) (rows t) then Raise IntegrityError
  else match t !! id with
       | Some _ => Raise IntegrityError
       | None => Ok (plaintext_key,
           <[id := RegistrationKey id name key_hash description created_by None 0 None None None]> t)
       end.

(** [revoke] of the CRUD: only a key not revoked yet. *)
Definition revoke_row (t : gmap uuid registration_key) (now : instant) (id : uuid) (by_ reason : option string)
    : option (registration_key * gmap uuid registration_key) :=
  k ← t !! id;
  if is_active k then let k' := set_revoked now by_ reason k in Some (k', <[id := k']> t) else None.

Definition revoke_key (t : gmap uuid registration_key) (now : instant) (id : uuid) (by_ reason : option string)
    : res (gmap uuid registration_key) :=
  match t !! id with
  | None => Raise NotFoundException
  | Some _ =>
      match revoke_row t now id by_ reason with
      | Some (_, t') => Ok t'
      | None => Raise (ValidationException "Registration key is already revoked")
      end
  end.

Definition delete_key (t : gmap uuid registration_key) (now : instant) (id : uuid) (hard_delete : bool)
    : res (gmap uuid registration_key) :=
  match t !! id with
  | None => Raise NotFoundException
  | Some k =>
      if hard_delete then Ok (delete id t)
      else if negb (is_active k) then Ok t
      else Ok (match revoke_row t now id None (Some "Deleted by admin") with
               | Some (_, t') => t' | None => t end)
  end.

(** The first active key the text matches, its use counted. *)
Definition verify_key_and_update_usage (t : gmap uuid registration_key) (now : instant)
    (plaintext_key : string) : option registration_key * gmap uuid registration_key :=
  match head (filter (fun k => Is_true (verify_key plaintext_key (rk_key_hash k))) (list_active_keys t)) with
  | None => (None, t)
  | Some k =>
      match t !! rk_id k with
      | Some row => if is_active row then let k' := record_usage now row in (Some k', <[rk_id k := k']> t)
                    else (None, t)
      | None => (None, t)
      end
  end.

(** ** The checks of core/security.py *)

Section Checked.
Variable auth_enabled : bool.

Definition verify_registration_token (t : gmap uuid registration_key) (now : instant)
    (authorization : option string) : res (string * gmap uuid registration_key) :=
  if negb auth_enabled then Ok ("disabled", t)
  else
    match authorization with
    | None => Raise (HTTPException 401 REGISTRATION_KEY_REFUSED)
    | Some header =>
        match bearer_token header with
        | None => Raise (HTTPException 401 REGISTRATION_KEY_REFUSED)
        | Some token =>
            match verify_key_and_update_usage t now token with
            | (Some _, t') => Ok (token, t')
            | (None, _) => Raise (HTTPException 401 REGISTRATION_KEY_REFUSED)
            end
        end
    end.

Definition verify_agent_recovery_secret (a : agent) (recovery_secret : option string) : res unit :=
  if negb auth_enabled then Ok tt
  else if recovery_secret_matches (ag_recovery_secret_hash a) recovery_secret then Ok tt
  else Raise (HTTPException 401 RECOVERY_SECRET_REFUSED).

(** The token accepted, and whether the use of the key is stamped. *)
Definition verify_agent_token (a : agent) (authorization : option string) : res (string * bool) :=
  if negb auth_enabled then Ok ("disabled", false)
  else
    match authorization with
    | None => Raise (HTTPException 401 "")
    | Some header =>
        match bearer_token header with
        | None => Raise (HTTPException 401 "")
        | Some token =>
            match ag_api_key_hash a with
            | Some (String _ _ as hash) =>
                if negb (matches_or_not token hash) then Raise (HTTPException 401 "")
                else if bool_decide (ag_approval a = ACTIVE) then Ok (token, true)
                else Raise (HTTPException 403 "")
            | _ => Raise (HTTPException 401 "")
            end
        end
    end.

(** What a heartbeat's check came to: its answer, and whether the attempt it
    reserved, if it reserved one, was settled as refused. *)
Record heartbeat_check := HeartbeatCheck {
  hc_answer : res (bool * gmap uuid registration_key);
  hc_refused : option bool;
}.

(** [budget]: what [reserve_pending_heartbeat_attempt] answers, the seconds to
    wait or room for one check. *)
Definition authenticate_heartbeat (t : gmap uuid registration_key) (now : instant) (a : agent)
    (authorization recovery_secret : option string) (budget : option Z) : heartbeat_check :=
  let pending_credential :=
    if auth_enabled && bool_decide (recovery_secret = None) && bearer_holds_agent_key authorization
    then HeartbeatCheck (Raise (HTTPException 401 AGENT_KEY_REFUSED)) None
    else
      match budget with
      | Some wait => HeartbeatCheck (Raise (HTTPException 429 "")) None
      | None =>
          match recovery_secret with
          | Some _ =>
              match verify_agent_recovery_secret a recovery_secret with
              | Ok _ => HeartbeatCheck (Ok (false, t)) (Some false)
              | Raise e => HeartbeatCheck (Raise e) (Some true)
              end
          | None =>
              match verify_registration_token t now authorization with
              | Ok (_, t') => HeartbeatCheck (Ok (false, t')) (Some false)
              | Raise (HTTPException 401 _) =>
                  let never_keyed := negb (present (ag_api_key_hash a))
                    && bool_decide (ag_approval a ∈ [PENDING; REJECTED]) in
                  HeartbeatCheck (Raise (HTTPException 401
                    (if never_keyed then REGISTRATION_KEY_REFUSED else AGENT_KEY_REFUSED))) (Some true)
              | Raise e => HeartbeatCheck (Raise e) (Some false)
              end
          end
      end in
  if present (ag_api_key_hash a) then
    match verify_agent_token a authorization with
    | Ok _ => HeartbeatCheck (Ok (true, t)) None
    | Raise (HTTPException 401 _) => pending_credential
    | Raise e => HeartbeatCheck (Raise e) None
    end
  else pending_credential.

(** [require_heartbeat_sender] (api/deps.py): what the check proved, and the
    hashes it was checked against. *)
Record heartbeat_sender := HeartbeatSender {
  hs_using_agent_key : bool;
  hs_verified_key_hash : option string;
  hs_verified_secret_hash : option string;
}.

Definition require_heartbeat_sender (a : agent) (recovery_secret : option string) (using_agent_key : bool)
    : heartbeat_sender :=
  let used_secret := negb using_agent_key && bool_decide (recovery_secret <> None) in
  HeartbeatSender using_agent_key
    (if using_agent_key then ag_api_key_hash a else None)
    (if used_secret then ag_recovery_secret_hash a else None).
End Checked.
End Credentials.

(** A stand-in for bcrypt that keeps its laws. *)
Definition plain_bcrypt : Bcrypt := {|
  hashpw := fun _ k => String "$" k;
  checkpw := fun k h => Ok (String.eqb h (String "$" k));
|}.

Lemma plain_bcrypt_laws : @BcryptLaws plain_bcrypt.
Proof. split; [|done]. intros salt k _. cbn. by rewrite String.eqb_refl. Qed.
