(* ===== verification/Jobs.v ===== *)
(** * Jobs dispatched to agents

    services/core/job_core_service.py over crud/job_crud.py and
    models/job_model.py: a job is created for an agent, handed to it in the
    reply to a heartbeat, reported running, and finished by its result or by a
    cancel.  The table of jobs is a value of its own, [jobs]; the agents are
    read from the [db] of [Store].  A write that the code makes in one guarded
    UPDATE is one function here ([move_open_job]); the dispatch, which reads the
    rows first and flushes them afterwards, is two ([pending_for_agent],
    [flush_assigned]), so that what lands between them can be told. *)

From S2P Require Import Prelude Py Text Store Checks.

(** ** Enumerations and rows *)

Inductive JobType := NETWORK_SCAN | NETWORK_DISCOVER.
Inductive JobStatus := PENDING | ASSIGNED | RUNNING | COMPLETED | FAILED | CANCELLED.

#[global] Instance JobType_eq : EqDecision JobType.
Proof. solve_decision. Defined.
#[global] Instance JobStatus_eq : EqDecision JobStatus.
Proof. solve_decision. Defined.

Record job := Job {
  jb_id : uuid;
  jb_type : JobType;
  jb_agent_id : option uuid;       (* NULL: runs on the server *)
  jb_params : pydict;
  jb_status : JobStatus;
  jb_priority : Z;
  jb_created_at : instant;
  jb_assigned_at : option instant;
  jb_started_at : option instant;
  jb_completed_at : option instant;
  jb_expires_at : option instant;
  jb_result : option pydict;
  jb_error : option string;
  jb_created_by : option string;
  jb_tags : option (list string);
  jb_schedule : option pydict;
  jb_automation : option pydict;
}.

Abbreviation jobs := (gmap uuid job).

(** [_FINISHED], [Job.is_terminal] *)
Definition finished (s : JobStatus) : bool :=
  match s with COMPLETED | FAILED | CANCELLED => true | _ => false end.

(** [Job.assign] *)
Definition assign (now : instant) (j : job) : job :=
  Job (jb_id j) (jb_type j) (jb_agent_id j) (jb_params j) ASSIGNED (jb_priority j)
      (jb_created_at j) (Some now) (jb_started_at j) (jb_completed_at j) (jb_expires_at j)
      (jb_result j) (jb_error j) (jb_created_by j) (jb_tags j) (jb_schedule j) (jb_automation j).

(** [Job.set_expiration] *)
Definition expiration (now : instant) (retention_days : Z) : instant :=
  (now + retention_days * us_per_day)%Z.

(** ** JobCRUD *)

(** The WHERE of [move_open_job]: not finished, not already there, and only an
    assigned job starts running. *)
Definition movable (status : JobStatus) (j : job) : bool :=
  (if decide (status = RUNNING) then bool_decide (jb_status j = ASSIGNED)
   else negb (finished (jb_status j)))
  && bool_decide (jb_status j <> status).

(** The VALUES of [move_open_job]; [coalesce] keeps the first stamp. *)
Definition moved (now : instant) (status : JobStatus) (result : option pydict)
    (error : option string) (j : job) : job :=
  Job (jb_id j) (jb_type j) (jb_agent_id j) (jb_params j) status (jb_priority j)
      (jb_created_at j) (jb_assigned_at j)
      (if decide (status = RUNNING) then Some (default now (jb_started_at j)) else jb_started_at j)
      (if finished status then Some (default now (jb_completed_at j)) else jb_completed_at j)
      (jb_expires_at j)
      (match result with Some r => Some r | None => jb_result j end)
      (match error with Some e => Some e | None => jb_error j end)
      (jb_created_by j) (jb_tags j) (jb_schedule j) (jb_automation j).

Definition move_open_job (t : jobs) (now : instant) (job_id : uuid) (status : JobStatus)
    (result : option pydict) (error : option string) : option job * jobs :=
  match t !! job_id with
  | Some j =>
      if movable status j then
        let j' := moved now status result error j in (Some j', <[job_id := j']> t)
      else (None, t)
  | None => (None, t)
  end.

(** ORDER BY priority DESC, created_at ASC *)
Definition job_before (j1 j2 : job) : Prop :=
  (jb_priority j2 < jb_priority j1)%Z \/
  (jb_priority j1 = jb_priority j2 /\ (jb_created_at j1 <= jb_created_at j2)%Z).

#[global] Instance job_before_dec j1 j2 : Decision (job_before j1 j2).
Proof. unfold job_before. apply _. Defined.

Definition waits_for (agent_id : uuid) (j : job) : Prop :=
  jb_agent_id j = Some agent_id /\ jb_status j = PENDING.

Definition get_pending_for_agent (t : jobs) (agent_id : uuid) (limit : nat) : list job :=
  take limit (merge_sort job_before (filter (waits_for agent_id) (rows t))).

(** [delete_expired_terminal]: a row with no [expires_at] is never expired. *)
Definition expired (now : instant) (j : job) : bool :=
  match jb_expires_at j with Some e => (e <? now)%Z | None => false end && finished (jb_status j).

Definition delete_expired_terminal (t : jobs) (now : instant) : nat * jobs :=
  (length (filter (fun j => Is_true (expired now j)) (rows t)),
   filter (fun kv => ~ Is_true (expired now kv.2)) t).

(** ** JobCoreService *)

(** What the service calls beyond the tables: pydantic's verdict on the
    parameters ([params_schema.model_validate], with the defaults filled in),
    the enrichment of a result by its type (services/core/_job_enrichers.py),
    and two settings (core/config.py). *)
Class JobEnv := {
  params_schema : JobType -> pydict -> option pydict;
  enrich_job_result : JobType -> pydict -> res pydict;
  job_retention_days : Z;
  job_max_dispatch_per_heartbeat : nat;
}.

(** [JOB_CLASSES[...].requires_agent] (shared/jobs/network_scan.py, network_discover.py) *)
Definition requires_agent (ty : JobType) : bool :=
  match ty with NETWORK_SCAN => true | NETWORK_DISCOVER => true end.

(** What an agent may submit: [JobResultSubmit]; its status is one of two. *)
Inductive SubmitStatus := SUBMIT_COMPLETED | SUBMIT_FAILED.

Record JobResultSubmit := {
  rs_status : SubmitStatus;
  rs_result : option pydict;
  rs_error : option string;
}.

Record JobCreate := {
  jc_job_type : JobType;
  jc_agent_id : option uuid;
  jc_params : pydict;
  jc_priority : Z;
  jc_tags : option (list string);
  jc_schedule : option pydict;
  jc_automation_config : option pydict;
}.

(** One job of a heartbeat's reply. *)
Record JobDispatch := Dispatch {
  dp_job_id : uuid;
  dp_job_type : JobType;
  dp_params : pydict;
  dp_priority : Z;
  dp_timeout_seconds : Z;
}.

(** [x or d] for a dict and for a text. *)
Definition dict_or (x : option pydict) (d : pydict) : pydict :=
  match x with Some (_ :: _ as r) => r | _ => d end.
Definition text_or (x : option string) (d : string) : string :=
  match x with Some (String _ _ as s) => s | _ => d end.

Section Service.
Context `{JobEnv}.

Definition validated_params (ty : JobType) (params : pydict) : res pydict :=
  match params_schema ty params with
  | Some p => Ok p
  | None => Raise (ValidationException "Invalid params")
  end.

(** [id] is the uuid4 the row gets; the primary key refuses one in use. *)
Definition create_job (d : db) (t : jobs) (now : instant) (id : uuid) (data : JobCreate)
    (created_by : option string) : res (job * jobs) :=
  _ ← (if requires_agent (jc_job_type data) && bool_decide (jc_agent_id data = None)
       then Raise (ValidationException "name its agent_id") else Ok tt);
  params ← validated_params (jc_job_type data) (jc_params data);
  _ ← match jc_agent_id data with
      | None => Ok tt
      | Some a =>
          match db_agents d !! a with
          | None => Raise NotFoundException
          | Some ag => if bool_decide (ag_approval ag ∈ UNADMITTED_AGENT_STATUSES)
                       then Raise (ValidationException "it takes no jobs") else Ok tt
          end
      end;
  let j := Job id (jc_job_type data) (jc_agent_id data) params PENDING (jc_priority data) now
               None None None (Some (expiration now job_retention_days)) None None created_by
               (jc_tags data) (jc_schedule data) (jc_automation_config data) in
  match t !! id with
  | Some _ => Raise IntegrityError
  | None => Ok (j, <[id := j]> t)
  end.

Definition pending_for_agent (t : jobs) (agent_id : uuid) (limit : option nat) : list job :=
  get_pending_for_agent t agent_id (default job_max_dispatch_per_heartbeat limit).

(** The flush of the rows [Job.assign] marked: UPDATE ... WHERE id = :id. *)
Definition flush_assigned (now : instant) (picked : list job) (t : jobs) : jobs :=
  fold_left (fun t j => alter (assign now) (jb_id j) t) picked t.

Definition get_pending_jobs_for_agent (t : jobs) (now : instant) (agent_id : uuid)
    (limit : option nat) : list job * jobs :=
  let picked := pending_for_agent t agent_id limit in
  (map (assign now) picked, flush_assigned now picked t).

(** The execution timeout by type; the settings table holds integers under
    these keys.  [JobDispatch] refuses one outside 1..3600 (pydantic's
    ValidationError is a ValueError). *)
Definition job_to_dispatch (settings : gmap string Z) (j : job) : res JobDispatch :=
  let timeout := match jb_type j with
    | NETWORK_SCAN => default 600%Z (settings !! "job_network_scan_timeout_seconds")
    | NETWORK_DISCOVER => default 60%Z (settings !! "job_network_discover_timeout_seconds")
    end in
  if ((1 <=? timeout) && (timeout <=? 3600))%Z
  then Ok (Dispatch (jb_id j) (jb_type j) (jb_params j) (jb_priority j) timeout)
  else Raise ValueError.

Definition get_jobs_for_dispatch (settings : gmap string Z) (t : jobs) (now : instant)
    (agent_id : uuid) : res (list JobDispatch * jobs) :=
  let '(picked, t') := get_pending_jobs_for_agent t now agent_id None in
  ds ← map_res (job_to_dispatch settings) picked;
  Ok (ds, t').

Definition update_job_status (t : jobs) (now : instant) (job_id : uuid) (status : JobStatus)
    : option job * jobs :=
  match move_open_job t now job_id status None None with
  | (Some j, t') => (Some j, t')
  | (None, t') => (t' !! job_id, t')
  end.

Definition submit_job_result (t : jobs) (now : instant) (job_id : uuid) (data : JobResultSubmit)
    : res (option job * jobs) :=
  match t !! job_id with
  | None => Ok (None, t)
  | Some j =>
      '(m, t') ←
        match rs_status data with
        | SUBMIT_COMPLETED =>
            enriched ← enrich_job_result (jb_type j) (dict_or (rs_result data) []);
            Ok (move_open_job t now job_id COMPLETED (Some enriched) None)
        | SUBMIT_FAILED =>
            Ok (move_open_job t now job_id FAILED None
                  (Some (text_or (rs_error data) "Unknown error")))
        end;
      match m with
      | Some j' => Ok (Some j', t')
      | None => Ok (t' !! job_id, t')
      end
  end.

Definition cancel_job (t : jobs) (now : instant) (job_id : uuid) : option job * jobs :=
  move_open_job t now job_id CANCELLED None None.

Definition delete_job (t : jobs) (job_id : uuid) : res jobs :=
  match t !! job_id with Some _ => Ok (delete job_id t) | None => Raise NotFoundException end.

Definition purge_expired_jobs (t : jobs) (now : instant) : nat * jobs :=
  delete_expired_terminal t now.

(** JobApiCoreService.mark_job_started *)
Definition mark_job_started (t : jobs) (now : instant) (job_id : uuid) : option job * jobs :=
  update_job_status t now job_id RUNNING.

(** AdminJobCoreService.cancel_job *)
Definition admin_cancel_job (t : jobs) (now : instant) (job_id : uuid) : res (job * jobs) :=
  match t !! job_id with
  | None => Raise NotFoundException
  | Some _ =>
      match cancel_job t now job_id with
      | (Some j, t') => Ok (j, t')
      | (None, _) => Raise JobFinishedException
      end
  end.

(** ** The service as a transition system

    One transaction each; the dispatched ids are kept beside the table, as the
    replies that carried them. *)
Inductive job_op :=
  | OpCreate (d : db) (id : uuid) (data : JobCreate) (created_by : option string)
  | OpDispatch (settings : gmap string Z) (agent_id : uuid)
  | OpStart (id : uuid)
  | OpSubmit (id : uuid) (data : JobResultSubmit)
  | OpCancel (id : uuid)
  | OpDelete (id : uuid)
  | OpPurge.

Definition job_step (t : jobs) (now : instant) (op : job_op) : res (list uuid * jobs) :=
  match op with
  | OpCreate d id data by_ => r ← create_job d t now id data by_; Ok ([], r.2)
  | OpDispatch settings a =>
      r ← get_jobs_for_dispatch settings t now a; Ok (map dp_job_id r.1, r.2)
  | OpStart id => Ok ([], (mark_job_started t now id).2)
  | OpSubmit id data => r ← submit_job_result t now id data; Ok ([], r.2)
  | OpCancel id => r ← admin_cancel_job t now id; Ok ([], r.2)
  | OpDelete id => t' ← delete_job t id; Ok ([], t')
  | OpPurge => Ok ([], (purge_expired_jobs t now).2)
  end.
End Service.
