(* ===== verification/JobsTheorems.v ===== *)
(** * What the job queue promises

    The operations of [Jobs] act on a row as one of five steps ([row_step]); the
    properties are proved of those steps and lifted to runs of the service, in
    which the clock does not go back and a new job's id is new. *)

From S2P Require Import Prelude Py Text Store Fixtures Checks Jobs.

#[local] Arguments flush_assigned : simpl never.
#[local] Arguments pending_for_agent : simpl never.
#[local] Arguments create_job : simpl never.
#[local] Arguments get_jobs_for_dispatch : simpl never.
#[local] Arguments mark_job_started : simpl never.
#[local] Arguments submit_job_result : simpl never.
#[local] Arguments admin_cancel_job : simpl never.
#[local] Arguments delete_job : simpl never.
#[local] Arguments purge_expired_jobs : simpl never.

Definition jobs_keyed (t : jobs) : Prop := forall i j, t !! i = Some j -> jb_id j = i.

(** ** The lifecycle of a job *)

Inductive job_moves : JobStatus -> JobStatus -> Prop :=
  | moves_dispatched : job_moves PENDING ASSIGNED
  | moves_started : job_moves ASSIGNED RUNNING
  | moves_finished s s' : finished s = false -> finished s' = true -> job_moves s s'.

(** What a move may write with a status. *)
Inductive outcome : JobStatus -> option pydict -> option string -> Prop :=
  | outcome_running : outcome RUNNING None None
  | outcome_completed r : outcome COMPLETED (Some r) None
  | outcome_failed e : e <> "" -> outcome FAILED None (Some e)
  | outcome_cancelled : outcome CANCELLED None None.

Section Rows.
Context `{JobEnv}.

(** What one operation did to the row under an id; [sent] are the ids its reply
    dispatched. *)
Inductive row_step (now : instant) (op : job_op) (sent : list uuid) (i : uuid)
    : option job -> option job -> Prop :=
  | row_same r : i ∉ sent -> row_step now op sent i r r
  | row_created d data by_ j : op = OpCreate d i data by_ -> i ∉ sent ->
      jb_id j = i -> jb_status j = PENDING -> jb_created_at j = now ->
      jb_expires_at j = Some (expiration now job_retention_days) ->
      jb_assigned_at j = None -> jb_started_at j = None -> jb_completed_at j = None ->
      jb_result j = None -> jb_error j = None ->
      row_step now op sent i None (Some j)
  | row_dispatched j : jb_status j = PENDING -> i ∈ sent ->
      row_step now op sent i (Some j) (Some (assign now j))
  | row_moved j status result error : i ∉ sent -> movable status j = true ->
      outcome status result error ->
      row_step now op sent i (Some j) (Some (moved now status result error j))
  | row_deleted j : i ∉ sent -> op = OpDelete i -> row_step now op sent i (Some j) None
  | row_purged j : i ∉ sent -> op = OpPurge -> expired now j = true ->
      row_step now op sent i (Some j) None.

Hint Constructors row_step outcome : lux.

Lemma not_in_no_ids (i : uuid) : i ∉ ([] : list uuid).
Proof. apply not_elem_of_nil. Qed.
Hint Resolve not_in_no_ids : lux.

Lemma flush_lookup now picked (t : jobs) i :
  flush_assigned now picked t !! i =
  if decide (i ∈ map jb_id picked) then assign now <$> t !! i else t !! i.
Proof.
  unfold flush_assigned. revert t. induction picked as [|j l IH]; intros t; cbn.
  { by rewrite decide_False by apply not_elem_of_nil. }
  rewrite IH. destruct (decide (i = jb_id j)) as [->|Hi].
  - rewrite lookup_alter_eq, (decide_True (P := jb_id j ∈ _ :: _)) by left.
    case_decide; [|done]. by destruct (t !! jb_id j).
  - rewrite lookup_alter_ne by done.
    destruct (decide (i ∈ map jb_id l)) as [Hin|Hin].
    + by rewrite decide_True by by right.
    + by rewrite decide_False by (rewrite elem_of_cons; tauto).
Qed.

Lemma pending_elem t a limit j :
  j ∈ pending_for_agent t a limit -> waits_for a j /\ exists i, t !! i = Some j.
Proof.
  unfold pending_for_agent, get_pending_for_agent. intros Hj%subseteq_take.
  rewrite merge_sort_Permutation in Hj. apply list_elem_of_filter in Hj as [? ?%elem_of_rows].
  by split.
Qed.

Lemma dispatch_ids settings (l : list job) ds :
  map_res (job_to_dispatch settings) l = Ok ds -> map dp_job_id ds = map jb_id l.
Proof.
  revert ds. induction l as [|j l IH]; intros ds; cbn; [by intros [= <-]|].
  destruct (job_to_dispatch settings j) as [dp|] eqn:E; cbn; [|done].
  destruct (map_res _ l) as [ds'|]; cbn; [|done]. intros [= <-]. cbn. f_equal; [|by apply IH].
  unfold job_to_dispatch in E. case_match; [|done]. by injection E as <-.
Qed.

Lemma map_assign_ids now (l : list job) : map jb_id (map (assign now) l) = map jb_id l.
Proof. by rewrite map_map. Qed.

Lemma rows_dispatched settings t now a ds t' i :
  jobs_keyed t -> get_jobs_for_dispatch settings t now a = Ok (ds, t') ->
  row_step now (OpDispatch settings a) (map dp_job_id ds) i (t !! i) (t' !! i).
Proof.
  intros Hk. unfold get_jobs_for_dispatch, get_pending_jobs_for_agent.
  destruct (map_res _ _) as [ds'|] eqn:Ed; cbn; [|done]. intros [= <- <-].
  apply dispatch_ids in Ed. rewrite map_assign_ids in Ed. cbn [fst snd].
  rewrite Ed, flush_lookup.
  case_decide as Hi; [|by apply row_same].
  apply list_elem_of_fmap in Hi as (j & -> & Hj).
  pose proof Hj as ([_ Hs] & i & Ht)%pending_elem. rewrite (Hk _ _ Ht), Ht. cbn.
  apply row_dispatched; [done|]. apply list_elem_of_fmap. exists j. by rewrite (Hk _ _ Ht).
Qed.

Lemma rows_moved t now id status result error op i :
  outcome status result error ->
  row_step now op [] i (t !! i) ((move_open_job t now id status result error).2 !! i).
Proof.
  intros Ho. unfold move_open_job. destruct (t !! id) as [j|] eqn:E; [|auto with lux].
  destruct (movable status j) eqn:Em; cbn; [|auto with lux].
  destruct (decide (i = id)) as [->|]; [rewrite E, lookup_insert_eq|rewrite lookup_insert_ne by done];
    auto with lux.
Qed.

Lemma text_or_nonempty x d : d <> "" -> text_or x d <> "".
Proof. destruct x as [[|c s]|]; cbn; congruence. Qed.

Lemma move_none t now id status result error t' :
  move_open_job t now id status result error = (None, t') -> t' = t.
Proof.
  unfold move_open_job. destruct (t !! id) as [j|]; [|by intros [= <-]].
  destruct (movable status j); [done|by intros [= <-]].
Qed.

Lemma submit_moves t now id data r :
  submit_job_result t now id data = Ok r ->
  r.2 = t \/ exists status result error,
    outcome status result error /\ r.2 = (move_open_job t now id status result error).2.
Proof.
  unfold submit_job_result. destruct (t !! id) as [j|]; [|intros [= <-]; by left].
  destruct (rs_status data); cbn.
  - destruct (enrich_job_result _ _) as [e|]; cbn; [|done].
    destruct (move_open_job _ _ _ _ _ _) as [[j'|] t'] eqn:E; intros [= <-]; right;
      exists COMPLETED, (Some e), None; rewrite E; auto with lux.
  - destruct (move_open_job _ _ _ _ _ _) as [[j'|] t'] eqn:E; intros [= <-]; right;
      eexists FAILED, None, _; (split; [|by rewrite E]); constructor; by apply text_or_nonempty.
Qed.

Lemma start_moves t now id :
  (mark_job_started t now id).2 = (move_open_job t now id RUNNING None None).2.
Proof.
  unfold mark_job_started, update_job_status. by destruct (move_open_job _ _ _ _ _ _) as [[j|] t'].
Qed.

(** Every operation is a step on every row. *)
Lemma job_step_rows t now op sent t' i :
  jobs_keyed t -> job_step t now op = Ok (sent, t') ->
  row_step now op sent i (t !! i) (t' !! i).
Proof.
  intros Hk. destruct op as [d id data by_|settings a|id|id data|id|id|]; cbn.
  - destruct (create_job _ _ _ _ _ _) as [[j t1]|] eqn:E; cbn; [|done]. intros [= <- <-].
    unfold create_job in E. inv_res. destruct (t !! id) eqn:Eid; [done|]. injection E as <- <-.
    destruct (decide (i = id)) as [->|]; [rewrite Eid, lookup_insert_eq|rewrite lookup_insert_ne by done];
      [eapply row_created|]; auto with lux.
  - destruct (get_jobs_for_dispatch _ _ _ _) as [[ds t1]|] eqn:E; cbn; [|done].
    intros [= <- <-]. by apply rows_dispatched.
  - intros [= <- <-]. rewrite start_moves. apply rows_moved. constructor.
  - destruct (submit_job_result _ _ _ _) as [r|] eqn:E; cbn; [|done]. intros [= <- <-].
    apply submit_moves in E as [->|(st & re & er & Ho & ->)]; [auto with lux|by apply rows_moved].
  - unfold admin_cancel_job. destruct (t !! id) as [j0|]; [|done].
    destruct (cancel_job t now id) as [[j|] t1] eqn:E; cbn; [|done]. intros [= <- <-].
    change t1 with (Some j, t1).2. rewrite <- E. apply rows_moved. constructor.
  - unfold delete_job. destruct (t !! id) as [j|] eqn:Eid; cbn; [|done]. intros [= <- <-].
    destruct (decide (i = id)) as [->|]; [rewrite Eid, lookup_delete_eq|rewrite lookup_delete_ne by done];
      auto with lux.
  - intros [= <- <-]. unfold purge_expired_jobs, delete_expired_terminal. cbn.
    destruct (t !! i) as [j|] eqn:Ej.
    + destruct (expired now j) eqn:Ex.
      * rewrite map_lookup_filter_None_2; [auto with lux|]. right. intros j' Hj' Hn. apply Hn. cbn.
        rewrite Ej in Hj'. injection Hj' as <-. by rewrite Ex.
      * rewrite (map_lookup_filter_Some_2 _ _ _ j); [auto with lux|done|]. cbn. rewrite Ex. by intros [].
    + rewrite map_lookup_filter_None_2 by (by left). auto with lux.
Qed.

(** *** One row *)

Lemma row_step_moves now op sent i j r :
  row_step now op sent i (Some j) r ->
  match r with
  | Some j' => j' = j \/ job_moves (jb_status j) (jb_status j')
  | None => op = OpDelete i \/ (op = OpPurge /\ expired now j = true)
  end.
Proof.
  inversion 1 as [| |? Hs|j0 st re er _ Hm Ho|? _ Hop|? _ Hop Hx]; subst; auto.
  - right. cbn. rewrite Hs. constructor.
  - right. cbn. unfold movable in Hm. apply andb_prop in Hm as [Hm _].
    case_decide as Hr.
    + subst. apply bool_decide_eq_true_1 in Hm as ->. constructor.
    + apply negb_true_iff in Hm. apply moves_finished; [done|]. by destruct Ho.
Qed.

Lemma finished_row now op sent i j r :
  finished (jb_status j) = true -> row_step now op sent i (Some j) r -> r = Some j \/ r = None.
Proof.
  intros Hf Hr. apply row_step_moves in Hr. destruct r as [j'|]; [|by right]. left.
  destruct Hr as [->|Hm]; [done|]. inversion Hm as [Hs|Hs|s s' Hs]; subst;
    rewrite <- ?Hs in Hf; cbn in Hf; congruence.
Qed.

Lemma sent_row now op sent i r r' : row_step now op sent i r r' -> i ∈ sent ->
  exists j, r = Some j /\ jb_status j = PENDING /\ r' = Some (assign now j).
Proof. inversion 1; subst; intros Hi; try done. eauto. Qed.

Lemma row_id now op sent i r j' : row_step now op sent i r (Some j') ->
  (forall j, r = Some j -> jb_id j = i) -> jb_id j' = i.
Proof. inversion 1; subst; intros Hk; cbn; auto. Qed.

Lemma row_born now op sent i j' : row_step now op sent i None (Some j') ->
  exists d data by_, op = OpCreate d i data by_.
Proof. inversion 1; subst; eauto. Qed.

(** ** The times and the outcome a row carries *)

Definition after (x y : option instant) : Prop :=
  forall a b, x = Some a -> y = Some b -> (a <= b)%Z.

Record job_wf (clock : instant) (j : job) : Prop := {
  wf_expires : jb_expires_at j = Some (expiration (jb_created_at j) job_retention_days);
  wf_created : (jb_created_at j <= clock)%Z;
  wf_past : forall a, Some a ∈ [jb_assigned_at j; jb_started_at j; jb_completed_at j] ->
              (jb_created_at j <= a <= clock)%Z;
  wf_assigned_started : after (jb_assigned_at j) (jb_started_at j);
  wf_assigned_completed : after (jb_assigned_at j) (jb_completed_at j);
  wf_started_completed : after (jb_started_at j) (jb_completed_at j);
  wf_pending : jb_status j = PENDING -> jb_assigned_at j = None;
  wf_assigned : jb_status j = ASSIGNED \/ jb_status j = RUNNING -> is_Some (jb_assigned_at j);
  wf_waits : jb_status j = PENDING \/ jb_status j = ASSIGNED -> jb_started_at j = None;
  wf_running : jb_status j = RUNNING -> is_Some (jb_started_at j);
  wf_started : is_Some (jb_started_at j) -> is_Some (jb_assigned_at j);
  wf_completed : is_Some (jb_completed_at j) <-> finished (jb_status j) = true;
  wf_result : is_Some (jb_result j) <-> jb_status j = COMPLETED;
  wf_error : (exists e, jb_error j = Some e /\ e <> "") <-> jb_status j = FAILED;
  wf_no_error : jb_status j <> FAILED -> jb_error j = None;
}.

Lemma job_wf_later clock clock' j : (clock <= clock')%Z -> job_wf clock j -> job_wf clock' j.
Proof. intros Hc []. split; auto; [lia|]. intros a Ha. pose proof (wf_past0 a Ha). lia. Qed.

Lemma not_finished_open j clock : job_wf clock j -> finished (jb_status j) = false ->
  jb_completed_at j = None /\ jb_result j = None /\ jb_error j = None.
Proof.
  intros Hw Hf. split; [|split].
  - apply eq_None_not_Some. rewrite (wf_completed _ _ Hw), Hf. done.
  - apply eq_None_not_Some. rewrite (wf_result _ _ Hw). by intros E; rewrite E in Hf.
  - apply (wf_no_error _ _ Hw). by intros E; rewrite E in Hf.
Qed.

Lemma assign_wf clock now j :
  (clock <= now)%Z -> jb_status j = PENDING -> job_wf clock j -> job_wf now (assign now j).
Proof.
  intros Hc Hs Hw. destruct (not_finished_open _ _ Hw) as (Ec & Er & Ee); [by rewrite Hs|].
  pose proof (wf_waits _ _ Hw (or_introl Hs)) as Et. pose proof (wf_created _ _ Hw).
  split; cbn; rewrite ?Ec, ?Er, ?Ee, ?Et; try done; try (by intros []); try (intros; congruence).
  - apply (wf_expires _ _ Hw).
  - lia.
  - intros a. rewrite !elem_of_cons. intros [[= ->]|[?|[?|?%elem_of_nil]]]; [lia|done..].
  - split; [by intros (? & ? & ?)|done].
Qed.

(** The clock's stamp comes after every stamp of the row. *)
Lemma stamped_last clock now j x :
  (clock <= now)%Z -> job_wf clock j -> x ∈ [jb_assigned_at j; jb_started_at j] ->
  after x (Some now).
Proof.
  intros Hc Hw Hx a b -> [= <-]. apply (Z.le_trans _ clock); [|done].
  apply (wf_past _ _ Hw a). rewrite !elem_of_cons in *. tauto.
Qed.

Lemma moved_wf clock now j status result error :
  (clock <= now)%Z -> movable status j = true -> outcome status result error ->
  job_wf clock j -> job_wf now (moved now status result error j).
Proof.
  intros Hc Hm Ho Hw. unfold movable in Hm. apply andb_prop in Hm as [Hm _].
  assert (Hf : finished (jb_status j) = false).
  { case_decide; [by apply bool_decide_eq_true_1 in Hm as ->|by apply negb_true_iff]. }
  destruct (not_finished_open _ _ Hw Hf) as (Ec & Er & Ee).
  pose proof (wf_created _ _ Hw) as Hcr. pose proof (wf_expires _ _ Hw) as Hex.
  pose proof (wf_past _ _ Hw) as Hpast. pose proof (wf_started _ _ Hw) as Hst.
  pose proof (stamped_last clock now j) as Hlast.
  assert (Hp : forall x a, x ∈ [jb_assigned_at j; jb_started_at j; jb_completed_at j] ->
                      x = Some a -> (jb_created_at j <= a <= now)%Z).
  { intros x a Hx ->. specialize (Hpast a Hx). lia. }
  case_decide as Hr.
  - subst. inversion Ho; subst. apply bool_decide_eq_true_1 in Hm.
    destruct (wf_assigned _ _ Hw (or_introl Hm)) as [a Ea].
    pose proof (wf_waits _ _ Hw (or_intror Hm)) as Et.
    unfold moved. rewrite decide_True by done.
    split; cbn; rewrite ?Ec, ?Er, ?Ee, ?Et, ?Ea in *; cbn; eauto; try done; try (by intros []);
      try (intros; congruence).
    + lia.
    + intros x. rewrite !elem_of_cons. intros [[= ->]|[[= ->]|[?|?%elem_of_nil]]]; [|lia|done..].
      apply (Hp (Some a)); [left|done].
    + apply Hlast; [done..|left].
    + split; [by intros (? & ? & ?)|done].
  - assert (Hfs : finished status = true) by (by destruct Ho).
    unfold moved. rewrite decide_False, Hfs by done.
    split; cbn; rewrite ?Ec, ?Er, ?Ee in *; cbn; try done.
    + lia.
    + intros x. rewrite !elem_of_cons. intros [E|[E|[[= ->]|?%elem_of_nil]]]; [| |lia|done].
      * apply (Hp (jb_assigned_at j)); [left|done].
      * apply (Hp (jb_started_at j)); [right; left|done].
    + apply (wf_assigned_started _ _ Hw).
    + apply Hlast; [done..|left].
    + apply Hlast; [done..|right; left].
    + intros ->. inversion Ho.
    + intros [-> | ->]; [inversion Ho|by destruct Hr].
    + intros [-> | ->]; inversion Ho.
    + destruct Ho; split; try done; by intros [].
    + destruct Ho; split; try done; try (by intros (? & ? & ?)). intros _. eauto.
    + by destruct Ho.
Qed.

Lemma row_step_wf clock now op sent i r j' :
  (clock <= now)%Z -> row_step now op sent i r (Some j') ->
  (forall j, r = Some j -> job_wf clock j) -> job_wf now j'.
Proof.
  intros Hc Hs Hw. inversion Hs as [? Hn|d data by_ j Hop Hn Hid Hst Hcr Hex Ha Ht Hco Hre Her|? Hp Hi| | |]; subst.
  - by eapply job_wf_later; [|apply Hw].
  - split; rewrite ?Hst, ?Hex, ?Ha, ?Ht, ?Hco, ?Hre, ?Her; try done; try (by intros []);
      try (intros; congruence).
    + intros a. rewrite !elem_of_cons. by intros [?|[?|[?|?%elem_of_nil]]].
    + split; [by intros (? & ? & ?)|done].
  - eapply assign_wf; eauto.
  - eapply moved_wf; eauto.
Qed.

(** ** Runs

    [s_ids] are the ids of every job ever created, a uuid4 each; [s_sent] those
    the replies to heartbeats have carried, newest first. *)
Record sys := Sys {
  s_jobs : jobs;
  s_clock : instant;
  s_ids : list uuid;
  s_sent : list uuid;
}.

Definition created_by_op (op : job_op) : list uuid :=
  match op with OpCreate _ id _ _ => [id] | _ => [] end.

Inductive sys_step : sys -> sys -> Prop :=
  | sys_op s now op sent t' :
      (s_clock s <= now)%Z -> Forall (fun i => i ∉ s_ids s) (created_by_op op) ->
      job_step (s_jobs s) now op = Ok (sent, t') ->
      sys_step s (Sys t' now (created_by_op op ++ s_ids s) (sent ++ s_sent s)).

(** One transaction of a run, executable; an operation that raises commits nothing. *)
Definition sys_exec (s : sys) (now : instant) (op : job_op) : option sys :=
  if bool_decide (s_clock s <= now)%Z && forallb (fun i => bool_decide (i ∉ s_ids s)) (created_by_op op)
  then match job_step (s_jobs s) now op with
       | Ok (sent, t') => Some (Sys t' now (created_by_op op ++ s_ids s) (sent ++ s_sent s))
       | Raise _ => Some s
       end
  else None.

Fixpoint sys_run (s : sys) (ops : list (instant * job_op)) : option sys :=
  match ops with
  | [] => Some s
  | (now, op) :: ops => match sys_exec s now op with Some s' => sys_run s' ops | None => None end
  end.

Lemma jobs_exec_star s now op s' : sys_exec s now op = Some s' -> star sys_step s s'.
Proof.
  unfold sys_exec. destruct (_ && _) eqn:E; [|done]. apply andb_prop in E as [Hc Hf].
  destruct (job_step _ _ _) as [[sent t']|] eqn:Eo; intros [= <-]; [|apply star_refl].
  apply star_one. constructor; [by apply bool_decide_eq_true_1 in Hc| |done].
  apply Forall_forall. intros i Hi. rewrite forallb_forall in Hf.
  apply list_elem_of_In in Hi. by apply Hf, bool_decide_eq_true_1 in Hi.
Qed.

Lemma jobs_run_star s ops s' : sys_run s ops = Some s' -> star sys_step s s'.
Proof.
  revert s. induction ops as [|[now op] ops IH]; intros s; cbn; [intros [= <-]; apply star_refl|].
  destruct (sys_exec s now op) as [s1|] eqn:E; [|done]. intros Hr.
  eapply star_trans; [by eapply jobs_exec_star|by apply IH].
Qed.

Definition sys_start (clock : instant) : sys := Sys ∅ clock [] [].

Record sys_inv (s : sys) : Prop := {
  inv_keyed : jobs_keyed (s_jobs s);
  inv_ids : forall i j, s_jobs s !! i = Some j -> i ∈ s_ids s;
  inv_wf : forall i j, s_jobs s !! i = Some j -> job_wf (s_clock s) j;
  inv_sent : forall i, i ∈ s_sent s -> i ∈ s_ids s;
  inv_handed : forall i j, i ∈ s_sent s -> s_jobs s !! i = Some j -> jb_status j <> PENDING;
  inv_once : NoDup (s_sent s);
}.

Lemma pending_nodup t a limit : jobs_keyed t -> NoDup (map jb_id (pending_for_agent t a limit)).
Proof.
  intros Hk. unfold pending_for_agent, get_pending_for_agent.
  eapply sublist_NoDup; [|apply (fmap_sublist jb_id), sublist_take].
  change (NoDup (jb_id <$> merge_sort job_before (filter (waits_for a) (rows t)))).
  rewrite merge_sort_Permutation.
  eapply sublist_NoDup; [|apply (fmap_sublist jb_id), sublist_filter].
  by apply (rows_ids_nodup jb_id).
Qed.

Lemma job_step_sent t now op sent t' : jobs_keyed t -> job_step t now op = Ok (sent, t') -> NoDup sent.
Proof.
  intros Hk. destruct op as [d id data by_|settings a|id|id data|id|id|]; cbn; intros E.
  all: try (inv_res; apply NoDup_nil_2).
  destruct (get_jobs_for_dispatch _ _ _ _) as [[ds t1]|] eqn:Eg; [|done]. cbn in E. injection E as <- <-.
  unfold get_jobs_for_dispatch, get_pending_jobs_for_agent in Eg.
  destruct (map_res _ _) as [ds'|] eqn:Ed; [|done]. cbn in Eg. injection Eg as <- <-.
  rewrite (dispatch_ids _ _ _ Ed), map_assign_ids. by apply pending_nodup.
Qed.

Lemma jobs_inv_step s s' : sys_step s s' -> sys_inv s -> sys_inv s'.
Proof.
  intros Hstep Hi. destruct Hstep as [s now op sent t' Hc Hnew Hop].
  destruct Hi as [Hk Hids Hwf Hsent Hhand Honce].
  pose proof (fun i => job_step_rows _ _ _ _ _ i Hk Hop) as Hrow.
  assert (Hidsent : forall i, i ∈ sent -> exists j, s_jobs s !! i = Some j /\
      jb_status j = PENDING /\ t' !! i = Some (assign now j)).
  { intros i Hi. by apply (sent_row _ _ _ _ _ _ (Hrow i)). }
  split; cbn.
  - intros i j Hj. pose proof (Hrow i) as Hr. rewrite Hj in Hr. eapply row_id; eauto.
  - intros i j Hj. apply elem_of_app. pose proof (Hrow i) as Hr. rewrite Hj in Hr.
    destruct (s_jobs s !! i) as [j0|] eqn:E; [right; eauto|].
    apply row_born in Hr as (d & data & by_ & ->). left. left.
  - intros i j Hj. pose proof (Hrow i) as Hr. rewrite Hj in Hr. eapply row_step_wf; eauto.
  - intros i [Hi|Hi]%elem_of_app; apply elem_of_app; right; [|by apply Hsent].
    destruct (Hidsent i Hi) as (j & Hj & _). eauto.
  - intros i j Hi Hj. destruct (decide (i ∈ sent)) as [Hin|Hout].
    { destruct (Hidsent i Hin) as (j0 & _ & _ & Hj0). rewrite Hj in Hj0. by injection Hj0 as ->. }
    apply elem_of_app in Hi as [|Hi]; [done|]. pose proof (Hrow i) as Hr. rewrite Hj in Hr.
    destruct (s_jobs s !! i) as [j0|] eqn:E.
    + apply row_step_moves in Hr as [->|Hm]; [eauto|]. intros Hp. rewrite Hp in Hm. inversion Hm.
      by subst.
    + apply row_born in Hr as (d & data & by_ & ->). cbn in Hnew.
      inversion_clear Hnew as [|? ? Hn]. by destruct Hn; apply Hsent.
  - apply NoDup_app. split; [by eapply job_step_sent|]. split; [|done].
    intros i Hi Hold. destruct (Hidsent i Hi) as (j & Hj & Hp & _). by eapply Hhand.
Qed.

Lemma jobs_inv_start clock : sys_inv (sys_start clock).
Proof.
  split; cbn; try (intros i j; rewrite lookup_empty; done); try (by intros ? ?%elem_of_nil); try constructor.
Qed.

Lemma jobs_inv_reachable clock s : star sys_step (sys_start clock) s -> sys_inv s.
Proof. intros Hs. eapply star_invariant; [exact jobs_inv_step|exact Hs|apply jobs_inv_start]. Qed.
End Rows.

(** ** Properties *)

Section Properties.
Context `{JobEnv}.

(** along any run of the job service a row only moves down the lifecycle:
    pending, assigned, running, finished, with a finish allowed from every open
    state; a finished job is never written again, whichever of a late result, a
    late start or a cancel comes; and a row leaves the table only by a delete, or
    by the purge of a finished and expired one. *)
Theorem job_lifecycle (clock now : instant) s op sent t' i j :
  star sys_step (sys_start clock) s ->
  job_step (s_jobs s) now op = Ok (sent, t') -> s_jobs s !! i = Some j ->
  match t' !! i with
  | Some j' => j' = j \/ (finished (jb_status j) = false /\ job_moves (jb_status j) (jb_status j'))
  | None => op = OpDelete i \/ (op = OpPurge /\ expired now j = true)
  end.
Proof.
  intros Hs Hop Hj. pose proof (job_step_rows _ _ _ _ _ i (inv_keyed _ (jobs_inv_reachable _ _ Hs)) Hop) as Hr.
  rewrite Hj in Hr. pose proof (row_step_moves _ _ _ _ _ _ Hr) as Hm.
  destruct (t' !! i) as [j'|]; [|done]. destruct Hm as [->|Hm]; [by left|].
  destruct (finished (jb_status j)) eqn:Hf; [|by right].
  left. by destruct (finished_row _ _ _ _ _ _ Hf Hr) as [[= ->]|].
Qed.

(** A finished job stays what it is for as long as it is kept: in every
    later state of the service its row is the same row, or gone. *)
Theorem finished_job_frozen (clock : instant) s s' i j :
  star sys_step (sys_start clock) s -> star sys_step s s' ->
  s_jobs s !! i = Some j -> finished (jb_status j) = true ->
  s_jobs s' !! i = Some j \/ s_jobs s' !! i = None.
Proof.
  intros Hs Hs' Hj Hf. apply jobs_inv_reachable in Hs as Hi.
  enough (Hp : sys_inv s' /\ i ∈ s_ids s' /\ (s_jobs s' !! i = Some j \/ s_jobs s' !! i = None))
    by apply Hp.
  eapply (star_invariant sys_step (fun s => sys_inv s /\ i ∈ s_ids s /\
            (s_jobs s !! i = Some j \/ s_jobs s !! i = None))); [|exact Hs'|].
  - intros x y Hxy (Hx & Hix & Hjx). split; [by eapply jobs_inv_step|].
    destruct Hxy as [x now op sent t' Hc Hnew Hop]. cbn. split; [apply elem_of_app; by right|].
    pose proof (job_step_rows _ _ _ _ _ i (inv_keyed _ Hx) Hop) as Hr.
    destruct Hjx as [E|E]; rewrite E in Hr; [by apply finished_row in Hr|].
    right. destruct (t' !! i) as [j'|]; [|done].
    apply row_born in Hr as (d & data & by_ & ->). inversion_clear Hnew. done.
  - split; [done|]. split; [by eapply inv_ids|by left].
Qed.

(** Every row of a reachable state carries the stamps its status calls for
    and no others, in order (created, assigned, started, completed, none later
    than the clock): a result exactly when it is completed, a nonempty error
    exactly when it failed, and the expiry its retention gives. *)
Theorem job_stamps (clock : instant) s i j :
  star sys_step (sys_start clock) s -> s_jobs s !! i = Some j -> job_wf (s_clock s) j.
Proof. intros Hs. apply (inv_wf _ (jobs_inv_reachable _ _ Hs)). Qed.

(** C19: a job is dispatched at most once: no id appears in two replies to
    heartbeats, nor twice in one. *)
Theorem dispatched_once (clock : instant) s :
  star sys_step (sys_start clock) s -> NoDup (s_sent s).
Proof. intros Hs. apply (inv_once _ (jobs_inv_reachable _ _ Hs)). Qed.

#[local] Instance job_before_total : Total job_before.
Proof. intros x y. unfold job_before. lia. Qed.
#[local] Instance job_before_trans : Transitive job_before.
Proof. intros x y z. unfold job_before. lia. Qed.

(** a heartbeat gets pending jobs of its own agent, at most the configured
    number, best first (priority, then age), and every one it gets is assigned
    when it returns; a pending job that is left out comes after every one sent,
    and is left out only when the reply is full. *)
Theorem dispatch_best_first settings t now a ds t' :
  jobs_keyed t -> get_jobs_for_dispatch settings t now a = Ok (ds, t') ->
  exists picked,
    map dp_job_id ds = map jb_id picked /\ StronglySorted job_before picked /\
    (length ds <= job_max_dispatch_per_heartbeat)%nat /\
    (forall j, j ∈ picked -> waits_for a j /\ t !! jb_id j = Some j /\
                             t' !! jb_id j = Some (assign now j)) /\
    (forall i j, t !! i = Some j -> waits_for a j -> j ∉ picked ->
       length ds = job_max_dispatch_per_heartbeat /\ Forall (fun k => job_before k j) picked).
Proof.
  intros Hk. unfold get_jobs_for_dispatch, get_pending_jobs_for_agent.
  destruct (map_res _ _) as [ds'|] eqn:Ed; cbn; [|done]. intros [= <- <-].
  apply map_res_length in Ed as Hlen. apply dispatch_ids in Ed. rewrite length_map in Hlen.
  rewrite map_assign_ids in Ed. exists (pending_for_agent t a None).
  pose proof (StronglySorted_merge_sort job_before (filter (waits_for a) (rows t))) as Hsort.
  set (l := merge_sort job_before (filter (waits_for a) (rows t))) in *.
  set (n := job_max_dispatch_per_heartbeat) in *.
  assert (El : pending_for_agent t a None = take n l) by done.
  rewrite <- (take_drop n l) in Hsort. apply StronglySorted_app in Hsort as (Hcross & Hsort & _).
  split; [done|]. rewrite Hlen, El, length_take. split; [done|]. split; [lia|]. split.
  - intros j Hj. rewrite <- El in Hj. pose proof (pending_elem _ _ _ _ Hj) as (Hw & i & Hi).
    pose proof (Hk _ _ Hi) as <-. split; [done|]. split; [done|].
    rewrite flush_lookup, decide_True, Hi; [done|]. apply list_elem_of_fmap. eauto.
  - intros i j Hi Hw Hnot.
    assert (Hl : j ∈ l).
    { unfold l. rewrite merge_sort_Permutation. apply list_elem_of_filter. split; [done|].
      apply elem_of_rows. eauto. }
    rewrite <- (take_drop n l) in Hl. apply elem_of_app in Hl as [|Hd]; [done|]. split.
    + destruct (decide (n <= length l)%nat); [lia|].
      rewrite drop_ge in Hd by lia. by apply elem_of_nil in Hd.
    + apply Forall_forall. intros k Hin. by eapply Hcross.
Qed.

Lemma update_immovable t now i st j :
  t !! i = Some j -> movable st j = false -> update_job_status t now i st = (Some j, t).
Proof. intros Hj Hm. unfold update_job_status, move_open_job. by rewrite Hj, Hm, Hj. Qed.

(** The dispatch reads its rows without a lock and flushes them by id alone:
    a cancel that lands between the two is overwritten, and the job the service
    reported cancelled is assigned again, with its completion time set. *)
Theorem late_flush_reopens t now now1 now2 a limit j j' t1 :
  jobs_keyed t -> j ∈ pending_for_agent t a limit ->
  admin_cancel_job t now1 (jb_id j) = Ok (j', t1) ->
  jb_status j' = CANCELLED /\
  exists j2, flush_assigned now (pending_for_agent t a limit) t1 !! jb_id j = Some j2 /\
             jb_status j2 = ASSIGNED /\ is_Some (jb_completed_at j2) /\
             (update_job_status t1 now2 (jb_id j) RUNNING).1 = Some j'.
Proof.
  intros Hk Hj. pose proof (pending_elem _ _ _ _ Hj) as ([_ Hp] & i & Hi).
  pose proof (Hk _ _ Hi) as Eid. rewrite Eid. unfold admin_cancel_job, cancel_job, move_open_job.
  rewrite Hi. destruct (movable CANCELLED j); [|done]. intros [= <- <-]. split; [done|].
  rewrite flush_lookup, decide_True.
  2: { rewrite <- Eid. apply list_elem_of_fmap. eauto. }
  rewrite lookup_insert_eq. cbn. eexists. split; [done|]. cbn. split; [done|]. split; [done|].
  rewrite (update_immovable _ _ _ _ (moved now1 CANCELLED None None j)); [done|apply lookup_insert_eq|done].
Qed.
End Properties.

(** ** Witnesses

    Three jobs for agent 1, two of them sent in one reply, one finished. *)
Definition demo_job_env : JobEnv :=
  {| params_schema := fun _ p => Some p; enrich_job_result := fun _ r => Ok r;
     job_retention_days := 7; job_max_dispatch_per_heartbeat := 2 |}.

Definition demo_job_data (priority : Z) : JobCreate :=
  {| jc_job_type := NETWORK_SCAN; jc_agent_id := Some 1%N; jc_params := []; jc_priority := priority;
     jc_tags := None; jc_schedule := None; jc_automation_config := None |}.

Definition demo_ops : list (instant * job_op) :=
  [(1, OpCreate (fleet_db 0 0) 11 (demo_job_data 0) None);
   (2, OpCreate (fleet_db 0 0) 12 (demo_job_data 50) None);
   (3, OpCreate (fleet_db 0 0) 13 (demo_job_data 0) None);
   (4, OpDispatch ∅ 1); (5, OpStart 12);
   (6, OpSubmit 12 {| rs_status := SUBMIT_COMPLETED; rs_result := None; rs_error := None |})]%Z.

Definition demo_sys (n : nat) : sys :=
  default (sys_start 0) (sys_run (H := demo_job_env) (sys_start 0) (take n demo_ops)).

Lemma demo_sys_reachable n : (n <= 6)%nat -> star (sys_step (H := demo_job_env)) (sys_start 0) (demo_sys n).
Proof.
  intros Hn. apply (jobs_run_star (H := demo_job_env) _ (take n demo_ops)).
  do 7 (destruct n as [|n]; [vm_compute; reflexivity|]). lia.
Qed.

Definition demo_row (n : nat) (i : uuid) : job :=
  default (assign 0 (Job 0 NETWORK_SCAN None [] PENDING 0 0 None None None None None None None None None None))
          (s_jobs (demo_sys n) !! i).

Lemma job_lifecycle_witness :
  exists t', job_step (H := demo_job_env) (s_jobs (demo_sys 5)) 6 (OpCancel 12) = Ok ([], t') /\
    (jb_status <$> t' !! 12%N) = Some CANCELLED /\
    job_moves (jb_status (demo_row 5 12)) CANCELLED.
Proof.
  eexists. split; [vm_compute; reflexivity|]. split; [vm_compute; reflexivity|].
  pose proof (job_lifecycle (H := demo_job_env) 0 6 (demo_sys 5) (OpCancel 12) [] _ 12 (demo_row 5 12)
    (demo_sys_reachable 5 ltac:(lia)) ltac:(vm_compute; reflexivity) ltac:(vm_compute; reflexivity)) as Hl.
  destruct Hl as [Heq|[_ Hm]]; [discriminate Heq|exact Hm].
Defined.

Lemma finished_job_frozen_witness :
  finished (jb_status (demo_row 6 12)) = true /\
  (s_jobs (demo_sys 6) !! 12%N = Some (demo_row 6 12) \/ s_jobs (demo_sys 6) !! 12%N = None).
Proof.
  split; [vm_compute; reflexivity|].
  apply (finished_job_frozen (H := demo_job_env) 0 (demo_sys 6) (demo_sys 6) 12 (demo_row 6 12)).
  - apply demo_sys_reachable. lia.
  - apply star_refl.
  - vm_compute; reflexivity.
  - vm_compute; reflexivity.
Defined.

Lemma job_stamps_witness :
  jb_status (demo_row 6 12) = COMPLETED /\ job_wf (H := demo_job_env) 6 (demo_row 6 12).
Proof.
  split; [vm_compute; reflexivity|].
  apply (job_stamps (H := demo_job_env) 0 (demo_sys 6) 12 (demo_row 6 12)).
  - apply demo_sys_reachable. lia.
  - vm_compute; reflexivity.
Defined.

Lemma dispatched_once_witness :
  s_sent (demo_sys 6) = [12; 11]%N /\ NoDup (s_sent (demo_sys 6)).
Proof.
  split; [vm_compute; reflexivity|].
  apply (dispatched_once (H := demo_job_env) 0 (demo_sys 6)). apply demo_sys_reachable. lia.
Defined.

Lemma demo_jobs_keyed n : (n <= 6)%nat -> jobs_keyed (s_jobs (demo_sys n)).
Proof. intros Hn. by apply (inv_keyed (H := demo_job_env)), (jobs_inv_reachable (H := demo_job_env) 0), demo_sys_reachable. Qed.

Lemma dispatch_best_first_witness :
  exists ds t', get_jobs_for_dispatch (H := demo_job_env) ∅ (s_jobs (demo_sys 3)) 4 1 = Ok (ds, t') /\
    map dp_job_id ds = [12; 11]%N /\
    exists picked, map dp_job_id ds = map jb_id picked /\ StronglySorted job_before picked.
Proof.
  eexists _, _. split; [vm_compute; reflexivity|]. split; [vm_compute; reflexivity|].
  destruct (dispatch_best_first (H := demo_job_env) ∅ (s_jobs (demo_sys 3)) 4 1 _ _
    (demo_jobs_keyed 3 ltac:(lia)) ltac:(vm_compute; reflexivity)) as (picked & Hp & Hs & _).
  exists picked. by split.
Defined.

Lemma late_flush_reopens_witness :
  exists j' t1, admin_cancel_job (s_jobs (demo_sys 3)) 4 12 = Ok (j', t1) /\ jb_status j' = CANCELLED.
Proof.
  eexists _, _. split; [vm_compute; reflexivity|].
  eapply (late_flush_reopens (H := demo_job_env) (s_jobs (demo_sys 3)) 4 4 5 1 None (demo_row 3 12)).
  - apply demo_jobs_keyed. lia.
  - listed.
  - vm_compute; reflexivity.
Defined.
