(* ===== verification/Maintenance.v ===== *)
(** * The maintenance queue

    services/core/maintenance_job_core_service.py over
    crud/maintenance_job_crud.py, and the worker of
    background/maintenance_worker.py.  A request that has long work to do stores
    an intent row; one worker claims the oldest, runs its handler in a session
    of its own and records how it ended.  What a handler does to the other
    tables is not modelled: it is the parameter [HANDLERS], which says whether
    it returned or with what it raised. *)

From S2P Require Import Prelude Py Text Store.

Inductive MaintenanceJobStatus := QUEUED | RUNNING | DONE | FAILED.
Inductive MaintenanceJobKind :=
  | AGENT_DELETE | BULK_CHECK_DELETE | BULK_CHECK_TOGGLE | BULK_CHECK_MODIFY
  | BULK_CHECK_IMPORT | BULK_CHECK_CREATE | STATUS_PAGE_DELETE.

#[global] Instance MaintenanceJobStatus_eq : EqDecision MaintenanceJobStatus.
Proof. solve_decision. Defined.
#[global] Instance MaintenanceJobKind_eq : EqDecision MaintenanceJobKind.
Proof. solve_decision. Defined.

Record maintenance_job := MaintenanceJob {
  mj_id : uuid;
  mj_kind : MaintenanceJobKind;
  mj_target_id : option uuid;
  mj_params : pydict;              (* encrypted at rest *)
  mj_status : MaintenanceJobStatus;
  mj_owner_id : option uuid;
  mj_progress : option pydict;
  mj_error : option string;
  mj_created_at : instant;
  mj_started_at : option instant;
  mj_completed_at : option instant;
}.

Abbreviation maintenance_jobs := (gmap uuid maintenance_job).

Definition inflight (s : MaintenanceJobStatus) : bool :=
  match s with QUEUED | RUNNING => true | _ => false end.

(** ** MaintenanceJobCRUD *)

Definition in_flight_for (kind : MaintenanceJobKind) (target_id : uuid) (j : maintenance_job) : bool :=
  bool_decide (mj_kind j = kind) && bool_decide (mj_target_id j = Some target_id)
  && inflight (mj_status j).

(** [scalar_one_or_none] raises when more than one row matches. *)
Definition get_inflight_for_target (t : maintenance_jobs) (kind : MaintenanceJobKind) (target_id : uuid)
    : res (option maintenance_job) :=
  match filter (fun j => Is_true (in_flight_for kind target_id j)) (rows t) with
  | [] => Ok None
  | [j] => Ok (Some j)
  | _ => Raise (RuntimeError "MultipleResultsFound")
  end.

(** ON CONFLICT DO NOTHING on the index (kind, target_id) of the rows in flight,
    in which a NULL target conflicts with none.  [id] is the uuid4 of the row. *)
Definition insert_job (t : maintenance_jobs) (now : instant) (id : uuid) (kind : MaintenanceJobKind)
    (target_id : option uuid) (params : option pydict) (owner_id : option uuid)
    : res (option maintenance_job * maintenance_jobs) :=
  let j := MaintenanceJob id kind target_id (default [] params) QUEUED owner_id None None now None None in
  match target_id with
  | Some tg =>
      if existsb (in_flight_for kind tg) (rows t) then Ok (None, t)
      else match t !! id with
           | Some _ => Raise IntegrityError
           | None => Ok (Some j, <[id := j]> t)
           end
  | None => match t !! id with
            | Some _ => Raise IntegrityError
            | None => Ok (Some j, <[id := j]> t)
            end
  end.

(** The oldest queued row (ORDER BY created_at ASC LIMIT 1). *)
Definition older (j k : maintenance_job) : Prop := (mj_created_at j <= mj_created_at k)%Z.

#[global] Instance older_dec j k : Decision (older j k).
Proof. unfold older. apply _. Defined.

Definition queued (t : maintenance_jobs) : list maintenance_job :=
  filter (fun j => mj_status j = QUEUED) (rows t).

Definition claim_next (t : maintenance_jobs) : option uuid :=
  mj_id <$> head (merge_sort older (queued t)).

Definition set_running (now : instant) (j : maintenance_job) : maintenance_job :=
  MaintenanceJob (mj_id j) (mj_kind j) (mj_target_id j) (mj_params j) RUNNING (mj_owner_id j)
    (mj_progress j) (mj_error j) (mj_created_at j) (Some now) (mj_completed_at j).

Definition set_done (now : instant) (j : maintenance_job) : maintenance_job :=
  MaintenanceJob (mj_id j) (mj_kind j) (mj_target_id j) (mj_params j) DONE (mj_owner_id j)
    (mj_progress j) (mj_error j) (mj_created_at j) (mj_started_at j) (Some now).

Definition set_failed (now : instant) (error : string) (j : maintenance_job) : maintenance_job :=
  MaintenanceJob (mj_id j) (mj_kind j) (mj_target_id j) (mj_params j) FAILED (mj_owner_id j)
    (mj_progress j) (Some error) (mj_created_at j) (mj_started_at j) (Some now).

Definition set_progress (progress : pydict) (j : maintenance_job) : maintenance_job :=
  MaintenanceJob (mj_id j) (mj_kind j) (mj_target_id j) (mj_params j) (mj_status j) (mj_owner_id j)
    (Some progress) (mj_error j) (mj_created_at j) (mj_started_at j) (mj_completed_at j).

Definition mark_done (t : maintenance_jobs) (now : instant) (job_id : uuid) : maintenance_jobs :=
  alter (set_done now) job_id t.

Definition update_progress (t : maintenance_jobs) (job_id : uuid) (progress : pydict) : maintenance_jobs :=
  alter (set_progress progress) job_id t.

Definition INTERRUPTED : string := "Interrupted by process restart".

Definition mark_interrupted_on_restart (t : maintenance_jobs) (now : instant) : nat * maintenance_jobs :=
  (length (filter (fun j => mj_status j = RUNNING) (rows t)),
   (fun j => if decide (mj_status j = RUNNING) then set_failed now INTERRUPTED j else j) <$> t).

(** [completed_at < cutoff] is NULL, so false, for a row without the stamp. *)
Definition old_terminal (cutoff : instant) (j : maintenance_job) : bool :=
  negb (inflight (mj_status j))
  && match mj_completed_at j with Some c => (c <? cutoff)%Z | None => false end.

Definition delete_old_terminal (t : maintenance_jobs) (cutoff : instant) : nat * maintenance_jobs :=
  (length (filter (fun j => Is_true (old_terminal cutoff j)) (rows t)),
   filter (fun kv => ~ Is_true (old_terminal cutoff kv.2)) t).

(** ** The worker *)

(** How a handler ended: it returned, or it raised, with str(e) and, for
    [JobFailed], the progress it keeps. *)
Inductive handler_end :=
  | Returned
  | Raised (error : string) (progress : option pydict).

(** [scrubbed] is [mask_credentials] over [scrub_text], the two credential masks
    (core/credential_mask.py and the shared log_redaction.py);
    [decrypts] is whether the configured key reads a row's params. *)
Class WorkerEnv := {
  scrubbed : string -> string;
  decrypts : maintenance_job -> bool;
  HANDLERS : MaintenanceJobKind -> option (maintenance_job -> handler_end);
}.

(** [_SQL_DETAIL.split(error, maxsplit=1)[0]]: the text before a database error's
    statement or parameters. *)
Fixpoint before_sql_detail (s : string) : string :=
  if startswith "[SQL: " s || startswith "[parameters: " s then ""
  else match s with EmptyString => "" | String c s' => String c (before_sql_detail s') end.

Section Worker.
Context `{WorkerEnv}.

Definition readable_error (error : string) : string := scrubbed (strip (before_sql_detail error)).

Definition mark_running (t : maintenance_jobs) (now : instant) (job_id : uuid)
    : res (option maintenance_job * maintenance_jobs) :=
  match t !! job_id with
  | None => Ok (None, t)
  | Some j =>
      let j' := set_running now j in
      if decrypts j then Ok (Some j', <[job_id := j']> t) else Raise DatabaseException
  end.

(** [substring 0 2000]: [error[:2000]] *)
Definition mark_failed (t : maintenance_jobs) (now : instant) (job_id : uuid) (error : string)
    : maintenance_jobs :=
  let summary := readable_error error in
  let text := if String.eqb summary "" then "Job failed" else summary in
  alter (set_failed now (String.substring 0 2000 text)) job_id t.

Definition enqueue (t : maintenance_jobs) (now : instant) (id : uuid) (kind : MaintenanceJobKind)
    (target_id : option uuid) (params : option pydict) (owner_id : option uuid)
    : res (maintenance_job * maintenance_jobs) :=
  '(job, t') ← insert_job t now id kind target_id params owner_id;
  match job with
  | Some j => Ok (j, t')
  | None =>
      match target_id with
      | None => Raise (RuntimeError "AssertionError")
      | Some tg =>
          existing ← get_inflight_for_target t' kind tg;
          match existing with
          | Some j => Ok (j, t')
          | None => Raise (RuntimeError "enqueue hit ON CONFLICT but found no inflight job")
          end
      end
  end.

(** [_claim_one]: one transaction, so a row that does not decrypt stays queued. *)
Definition claim_one (t : maintenance_jobs) (now : instant) : res (option maintenance_job * maintenance_jobs) :=
  match claim_next t with
  | None => Ok (None, t)
  | Some job_id => mark_running t now job_id
  end.

Definition run_handler (j : maintenance_job) : handler_end :=
  match HANDLERS (mj_kind j) with
  | None => Raised "No handler registered for maintenance job kind" None
  | Some handler => handler j
  end.

Definition finalize (t : maintenance_jobs) (now : instant) (job_id : uuid) (e : handler_end)
    : maintenance_jobs :=
  match e with
  | Returned => mark_done t now job_id
  | Raised error progress =>
      let t' := match progress with Some p => update_progress t job_id p | None => t end in
      mark_failed t' now job_id (if String.eqb error "" then "Unknown error" else error)
  end.

(** [process_next_job], with nothing else running between its transactions;
    [now] claims and [now'] records the end. *)
Definition process_next_job (t : maintenance_jobs) (now now' : instant) : res (bool * maintenance_jobs) :=
  '(job, t') ← claim_one t now;
  match job with
  | None => Ok (false, t')
  | Some j => Ok (true, finalize t' now' (mj_id j) (run_handler j))
  end.

Definition TERMINAL_RETENTION : Z := 6 * 60 * us_per_minute.
Definition CLEANUP_EVERY : Z := 60 * us_per_minute.

(** [_periodic_cleanup_if_due]: at most once an hour. *)
Definition periodic_cleanup_if_due (t : maintenance_jobs) (now : instant) (last_cleanup_at : option instant)
    : option instant * maintenance_jobs :=
  match last_cleanup_at with
  | Some l => if (now - l <? CLEANUP_EVERY)%Z then (last_cleanup_at, t)
              else (Some now, (delete_old_terminal t (now - TERMINAL_RETENTION)).2)
  | None => (Some now, (delete_old_terminal t (now - TERMINAL_RETENTION)).2)
  end.

(** [n] turns of the loop with no request between them, at the instants [clock]
    gives its transactions. *)
Fixpoint worker_turns (n : nat) (clock : nat -> instant) (t : maintenance_jobs) : res maintenance_jobs :=
  match n with
  | 0 => Ok t
  | S n => '(_, t') ← process_next_job t (clock 0) (clock 1);
           worker_turns n (fun k => clock (2 + k)) t'
  end.

(** ** The queue as a transition system

    Requests enqueue at any time.  The process has one worker ([w_on]), idle or
    busy with a claimed job ([w_busy]).  It may be killed or cancelled at any
    moment ([world_stop]), or fail to record an end ([world_lost]: the loop logs
    the error and goes on); the next start reaps what it left. *)
Record world := World {
  w_jobs : maintenance_jobs;
  w_on : bool;
  w_busy : option maintenance_job;
  w_cleanup : option instant;
  w_clock : instant;
}.

Inductive world_step : world -> world -> Prop :=
  | world_enqueue t on b c k now id kind target params owner j t' : (k <= now)%Z ->
      enqueue t now id kind target params owner = Ok (j, t') ->
      world_step (World t on b c k) (World t' on b c now)
  | world_start t b c k now : (k <= now)%Z ->
      world_step (World t false b c k) (World (mark_interrupted_on_restart t now).2 true None None now)
  | world_claim t c k now job t' : (k <= now)%Z ->
      claim_one t now = Ok (job, t') ->
      world_step (World t true None c k) (World t' true job c now)
  | world_finalize t c j k now : (k <= now)%Z ->
      world_step (World t true (Some j) c k)
                 (World (finalize t now (mj_id j) (run_handler j)) true None c now)
  | world_lost t c j k : world_step (World t true (Some j) c k) (World t true None c k)
  | world_cleanup t c k now : (k <= now)%Z -> claim_next t = None ->
      world_step (World t true None c k)
        (World (periodic_cleanup_if_due t now c).2 true None (periodic_cleanup_if_due t now c).1 now)
  | world_stop t on b c k : world_step (World t on b c k) (World t false None c k).
End Worker.
