(* ===== verification/MaintenanceTheorems.v ===== *)
(** * What the maintenance queue promises

    Each step of the queue ([world_step]) acts on a row as one of four moves
    ([row_move]); the invariant of the reachable worlds, the one row in flight
    for a target among it, is proved of those moves. *)

From S2P Require Import Prelude Py Text Store Maintenance.

#[local] Arguments insert_job : simpl never.
#[local] Arguments enqueue : simpl never.
#[local] Arguments claim_one : simpl never.
#[local] Arguments finalize : simpl never.
#[local] Arguments delete_old_terminal : simpl never.
#[local] Arguments mark_interrupted_on_restart : simpl never.
#[local] Arguments process_next_job : simpl never.

Section Rows.
Context `{WorkerEnv}.

Definition keyed_jobs (t : maintenance_jobs) : Prop := forall i j, t !! i = Some j -> mj_id j = i.

(** A row that ended: done without an error, or failed with one. *)
Definition ended (now : instant) (j j' : maintenance_job) : Prop :=
  (mj_status j' = DONE /\ mj_error j' = mj_error j \/
   mj_status j' = FAILED /\ exists e, mj_error j' = Some e /\ e <> "") /\
  mj_completed_at j' = Some now /\ mj_started_at j' = mj_started_at j /\
  mj_id j' = mj_id j /\ mj_kind j' = mj_kind j /\ mj_target_id j' = mj_target_id j /\
  mj_created_at j' = mj_created_at j.

Inductive row_move (now : instant) (i : uuid) : option maintenance_job -> option maintenance_job -> Prop :=
  | move_same r : row_move now i r r
  | move_born kind target params owner :
      row_move now i None (Some (MaintenanceJob i kind target params QUEUED owner None None now None None))
  | move_run j : mj_status j = QUEUED -> row_move now i (Some j) (Some (set_running now j))
  | move_end j j' : mj_status j = RUNNING -> ended now j j' -> row_move now i (Some j) (Some j')
  | move_drop j : inflight (mj_status j) = false -> is_Some (mj_completed_at j) ->
      row_move now i (Some j) None.
Hint Constructors row_move : lux.

(** The stamps and the error each status carries. *)
Definition job_ok (clock : instant) (j : maintenance_job) : Prop :=
  (mj_created_at j <= clock)%Z /\
  (forall a, mj_started_at j = Some a -> mj_created_at j <= a <= clock)%Z /\
  (forall a c, mj_started_at j = Some a -> mj_completed_at j = Some c -> a <= c)%Z /\
  match mj_status j with
  | QUEUED => mj_started_at j = None /\ mj_completed_at j = None /\ mj_error j = None
  | RUNNING => is_Some (mj_started_at j) /\ mj_completed_at j = None /\ mj_error j = None
  | DONE => is_Some (mj_started_at j) /\ is_Some (mj_completed_at j) /\ mj_error j = None
  | FAILED => is_Some (mj_started_at j) /\ is_Some (mj_completed_at j) /\
              exists e, mj_error j = Some e /\ e <> ""
  end.

Lemma job_ok_later clock clock' j : (clock <= clock')%Z -> job_ok clock j -> job_ok clock' j.
Proof.
  intros Hc (H1 & H2 & H3 & H4). split; [lia|]. split; [|done]. intros a Ha. specialize (H2 a Ha). lia.
Qed.

Lemma row_move_ok clock now i r j' :
  (clock <= now)%Z -> row_move now i r (Some j') ->
  (forall j, r = Some j -> job_ok clock j) -> job_ok now j'.
Proof.
  intros Hc Hm Hok. inversion Hm as [? |kind target params owner|j Hs|j j0 Hs He|]; subst.
  - by eapply job_ok_later; [|apply Hok].
  - split_and!; cbn; try done; lia.
  - destruct (Hok j eq_refl) as (H1 & H2 & H3 & H4). rewrite Hs in H4. destruct H4 as (Es & Ec & Ee).
    split_and!; cbn; eauto; [lia|intros a [= <-]; lia|by rewrite Ec].
  - destruct (Hok j eq_refl) as (H1 & H2 & H3 & H4). rewrite Hs in H4. destruct H4 as (Es & Ec & Ee).
    destruct He as (Hst & Ecm & Est & _ & _ & _ & Ecr). split_and!; rewrite ?Ecr, ?Est, ?Ecm.
    + lia.
    + intros a Ha. specialize (H2 a Ha). lia.
    + intros a c Ha [= <-]. specialize (H2 a Ha). lia.
    + destruct Hst as [[-> ->]|[-> He]]; eauto.
Qed.

Lemma row_move_id now i r j' :
  row_move now i r (Some j') -> (forall j, r = Some j -> mj_id j = i) -> mj_id j' = i.
Proof.
  inversion 1 as [| |? ?|? ? ? He|]; subst; intros Hk; cbn; auto.
  destruct He as (_ & _ & _ & -> & _). auto.
Qed.

(** A row in flight was in flight before, for the same target, or was just born. *)
Lemma row_move_inflight now i r j' :
  row_move now i r (Some j') -> inflight (mj_status j') = true ->
  r = None \/ exists j, r = Some j /\ inflight (mj_status j) = true /\
                        mj_kind j = mj_kind j' /\ mj_target_id j = mj_target_id j'.
Proof.
  inversion 1 as [| |j Hs|j ? Hs He|]; subst; intros Hf; auto.
  - right. eauto.
  - right. exists j. by rewrite Hs.
  - right. exists j. rewrite Hs. destruct He as (_ & _ & _ & _ & -> & -> & _). done.
Qed.

(** *** The operations are moves *)

Lemma substring_nonempty n s : s <> "" -> String.substring 0 (S n) s <> "".
Proof. by destruct s. Qed.

Lemma mark_failed_lookup t now id error j : t !! id = Some j ->
  exists e, e <> "" /\ mark_failed t now id error !! id = Some (set_failed now e j).
Proof.
  intros Hj. unfold mark_failed. rewrite lookup_alter_eq, Hj. eexists. split; [|done].
  apply substring_nonempty. case_match eqn:E; [done|]. by apply String.eqb_neq in E.
Qed.

Lemma finalize_ends t now e id j :
  t !! id = Some j -> exists j', finalize t now id e !! id = Some j' /\ ended now j j' /\
                                 (mj_status j' = DONE <-> e = Returned).
Proof.
  intros Hj. destruct e as [|error progress]; unfold finalize.
  - unfold mark_done. rewrite lookup_alter_eq, Hj. eexists. split; [done|].
    split; [split; [by left|done]|done].
  - set (t1 := match progress with Some _ => _ | None => _ end).
    assert (exists j1, t1 !! id = Some j1 /\ (mj_started_at j1 = mj_started_at j /\ mj_id j1 = mj_id j
              /\ mj_kind j1 = mj_kind j /\ mj_target_id j1 = mj_target_id j
              /\ mj_created_at j1 = mj_created_at j)) as (j1 & H1 & Hsame).
    { unfold t1, update_progress. destruct progress as [p|]; [|by exists j].
      rewrite lookup_alter_eq, Hj. cbn. by eexists. }
    edestruct (mark_failed_lookup t1) as (e & He & ->); [exact H1|]. eexists. split; [done|].
    split; [|done]. split; [right; split; [done|]; by exists e|]. cbn. done.
Qed.

Lemma finalize_elsewhere t now e id i : i <> id -> finalize t now id e !! i = t !! i.
Proof.
  intros Hi. destruct e as [|error [p|]]; unfold finalize, mark_done, mark_failed, update_progress;
    by rewrite ?lookup_alter_ne.
Qed.

Lemma finalize_move t now id e i j :
  t !! id = Some j -> mj_status j = RUNNING ->
  row_move now i (t !! i) (finalize t now id e !! i).
Proof.
  intros Hj Hs. destruct (decide (i = id)) as [->|Hi].
  - rewrite Hj. destruct (finalize_ends t now e id j Hj) as (j' & -> & He & _). by apply move_end.
  - rewrite finalize_elsewhere by done. apply move_same.
Qed.

Lemma restart_lookup t now i :
  (mark_interrupted_on_restart t now).2 !! i =
  (fun j => if decide (mj_status j = RUNNING) then set_failed now INTERRUPTED j else j) <$> t !! i.
Proof. unfold mark_interrupted_on_restart. cbn. by rewrite lookup_fmap. Qed.

Lemma restart_move t now i : row_move now i (t !! i) ((mark_interrupted_on_restart t now).2 !! i).
Proof.
  rewrite restart_lookup. destruct (t !! i) as [j|]; cbn; [|apply move_same].
  case_decide as Hs; [|apply move_same]. apply move_end; [done|]. split; [|done].
  right. split; [done|]. by exists INTERRUPTED.
Qed.

Lemma cleanup_lookup t cutoff i :
  (delete_old_terminal t cutoff).2 !! i =
  j ← t !! i; if old_terminal cutoff j then None else Some j.
Proof.
  unfold delete_old_terminal. cbn. destruct (t !! i) as [j|] eqn:Ej; cbn.
  - destruct (old_terminal cutoff j) eqn:E.
    + apply map_lookup_filter_None_2. right. intros j' Hj' Hn. apply Hn. cbn.
      rewrite Ej in Hj'. injection Hj' as <-. by rewrite E.
    + apply map_lookup_filter_Some_2; [done|]. cbn. rewrite E. by intros [].
  - apply map_lookup_filter_None_2. by left.
Qed.

Lemma cleanup_move t now cutoff i : row_move now i (t !! i) ((delete_old_terminal t cutoff).2 !! i).
Proof.
  rewrite cleanup_lookup. destruct (t !! i) as [j|]; cbn; [|apply move_same].
  destruct (old_terminal cutoff j) eqn:E; [|apply move_same]. unfold old_terminal in E.
  apply andb_prop in E as [E1 E2]. apply move_drop; [by apply negb_true_iff|].
  destruct (mj_completed_at j); [by eexists|done].
Qed.

Lemma periodic_move t now c i :
  row_move now i (t !! i) ((periodic_cleanup_if_due t now c).2 !! i).
Proof.
  unfold periodic_cleanup_if_due. destruct c as [l|]; [|apply cleanup_move].
  case_match; [apply move_same|apply cleanup_move].
Qed.

(** *** Enqueuing and claiming *)

Definition fresh_job (id : uuid) kind target (params : option pydict) owner (now : instant) : maintenance_job :=
  MaintenanceJob id kind target (default [] params) QUEUED owner None None now None None.

Definition none_in_flight (t : maintenance_jobs) kind (target : option uuid) : Prop :=
  forall tg i j, target = Some tg -> t !! i = Some j -> in_flight_for kind tg j = false.

Lemma insert_spec t now id kind target params owner r :
  insert_job t now id kind target params owner = Ok r ->
  (r = (Some (fresh_job id kind target params owner now),
        <[id := fresh_job id kind target params owner now]> t) /\
   t !! id = None /\ none_in_flight t kind target) \/
  (r = (None, t) /\ exists tg i j, target = Some tg /\ t !! i = Some j /\ in_flight_for kind tg j = true).
Proof.
  unfold insert_job. destruct target as [tg|].
  - destruct (existsb _ _) eqn:E.
    + intros [= <-]. right. split; [done|]. apply existsb_exists in E as (j & Hj & E).
      apply list_elem_of_In, elem_of_rows in Hj as [i Hi]. eauto 6.
    + destruct (t !! id) eqn:Ei; [done|]. intros [= <-]. left. split; [done|]. split; [done|].
      intros tg' i j [= <-] Hj. destruct (in_flight_for kind tg j) eqn:Ef; [|done].
      rewrite <- E. symmetry. apply existsb_exists. exists j. split; [|done].
      apply list_elem_of_In, elem_of_rows. eauto.
  - destruct (t !! id) eqn:Ei; [done|]. intros [= <-]. left. done.
Qed.

Lemma inflight_found t kind tg j : 
  get_inflight_for_target t kind tg = Ok (Some j) ->
  in_flight_for kind tg j = true /\ exists i, t !! i = Some j.
Proof.
  unfold get_inflight_for_target. destruct (filter _ _) as [|j0 [|j1 l]] eqn:E; try done.
  intros [= ->]. assert (Hj : j ∈ [j]) by left. rewrite <- E in Hj.
  apply list_elem_of_filter in Hj as [Hf Hi%elem_of_rows]. split; [by apply Is_true_true|done].
Qed.

Lemma enqueue_spec t now id kind target params owner j t' :
  enqueue t now id kind target params owner = Ok (j, t') ->
  (j = fresh_job id kind target params owner now /\ t' = <[id := j]> t /\
   t !! id = None /\ none_in_flight t kind target) \/
  (t' = t /\ exists tg i, target = Some tg /\ t !! i = Some j /\ in_flight_for kind tg j = true).
Proof.
  unfold enqueue. destruct (insert_job _ _ _ _ _ _ _) as [r|] eqn:E; cbn; [|done].
  apply insert_spec in E as [(-> & Hid & Hno)|(-> & tg & i & j0 & -> & _)].
  - intros [= <- <-]. by left.
  - destruct (get_inflight_for_target t kind tg) as [[k|]|] eqn:Ef; cbn; [|done|done].
    intros [= <- <-]. right. apply inflight_found in Ef as [Hf [i' Hi']]. eauto 6.
Qed.

Lemma enqueue_move t now id kind target params owner j t' i :
  enqueue t now id kind target params owner = Ok (j, t') -> row_move now i (t !! i) (t' !! i).
Proof.
  intros [(-> & -> & Hid & _)|(-> & _)]%enqueue_spec; [|apply move_same].
  destruct (decide (i = id)) as [->|]; [|rewrite lookup_insert_ne by done; apply move_same].
  rewrite Hid, lookup_insert_eq. apply move_born.
Qed.

#[local] Instance older_total : Total older.
Proof. intros x y. unfold older. lia. Qed.
#[local] Instance older_trans : Transitive older.
Proof. intros x y z. unfold older. lia. Qed.

Lemma elem_of_queued t j : j ∈ queued t <-> mj_status j = QUEUED /\ exists i, t !! i = Some j.
Proof. unfold queued. by rewrite list_elem_of_filter, elem_of_rows. Qed.

Lemma claim_next_spec t : keyed_jobs t ->
  match claim_next t with
  | Some i => exists j, t !! i = Some j /\ mj_status j = QUEUED /\
                        (forall i' k, t !! i' = Some k -> mj_status k = QUEUED -> older j k)
  | None => queued t = []
  end.
Proof.
  intros Hk. unfold claim_next. pose proof (merge_sort_Permutation older (queued t)) as Hp.
  pose proof (StronglySorted_merge_sort older (queued t)) as Hs.
  destruct (merge_sort older (queued t)) as [|j l]; cbn; [by apply Permutation_nil_l in Hp|].
  assert (Hj : j ∈ queued t) by (rewrite <- Hp; left).
  apply elem_of_queued in Hj as [Hq [i Hi]]. rewrite (Hk _ _ Hi). exists j. split; [done|]. split; [done|].
  intros i' k Hk' Hqk. assert (Hin : k ∈ j :: l) by (rewrite Hp; apply elem_of_queued; eauto).
  apply StronglySorted_inv in Hs as [_ Hall]. rewrite Forall_forall in Hall.
  apply elem_of_cons in Hin as [->|Hin]; [unfold older; lia|by apply Hall].
Qed.

Lemma claim_spec t now r : keyed_jobs t -> claim_one t now = Ok r ->
  (r = (None, t) /\ queued t = []) \/
  exists i j, r = (Some (set_running now j), <[i := set_running now j]> t) /\
    t !! i = Some j /\ mj_status j = QUEUED /\
    (forall i' k, t !! i' = Some k -> mj_status k = QUEUED -> older j k).
Proof.
  intros Hk. unfold claim_one, mark_running. pose proof (claim_next_spec t Hk) as Hc.
  destruct (claim_next t) as [i|]; [|intros [= <-]; by left].
  destruct Hc as (j & Hj & Hq & Ho). rewrite Hj. destruct (decrypts j); [|done].
  intros [= <-]. right. eauto 7.
Qed.

Lemma claim_move t now job t' i : keyed_jobs t -> claim_one t now = Ok (job, t') ->
  row_move now i (t !! i) (t' !! i).
Proof.
  intros Hk [([= -> ->] & _)|(i0 & j & [= -> ->] & Hj & Hq & _)]%claim_spec; [apply move_same| |done].
  destruct (decide (i = i0)) as [->|]; [|rewrite lookup_insert_ne by done; apply move_same].
  rewrite Hj, lookup_insert_eq. by apply move_run.
Qed.

(** ** The invariant of the worlds *)

Definition one_in_flight (t : maintenance_jobs) : Prop :=
  forall kind tg i i' j j', t !! i = Some j -> t !! i' = Some j' ->
    in_flight_for kind tg j = true -> in_flight_for kind tg j' = true -> i = i'.

Record world_inv (w : world) : Prop := {
  winv_keyed : keyed_jobs (w_jobs w);
  winv_one : one_in_flight (w_jobs w);
  winv_ok : forall i j, w_jobs w !! i = Some j -> job_ok (w_clock w) j;
  winv_busy : forall j, w_busy w = Some j ->
    w_jobs w !! mj_id j = Some j /\ mj_status j = RUNNING;
  winv_off : w_on w = false -> w_busy w = None;
}.

Definition world_start0 (clock : instant) : world := World ∅ false None None clock.

Lemma in_flight_for_true kind tg j : in_flight_for kind tg j = true <->
  mj_kind j = kind /\ mj_target_id j = Some tg /\ inflight (mj_status j) = true.
Proof. unfold in_flight_for. rewrite !andb_true_iff, !bool_decide_eq_true. tauto. Qed.

(** A row born only where none is in flight keeps the one. *)
Lemma one_in_flight_moves now t t' :
  one_in_flight t ->
  (forall i, row_move now i (t !! i) (t' !! i)) ->
  (forall i j, t !! i = None -> t' !! i = Some j ->
     none_in_flight t (mj_kind j) (mj_target_id j) /\
     forall i', i' <> i -> t' !! i' = t !! i') ->
  one_in_flight t'.
Proof.
  intros Ho Hm Hb kind tg i i' j j' Hj Hj' Hf Hf'.
  pose proof (Hm i) as Mi. pose proof (Hm i') as Mi'. rewrite Hj in Mi. rewrite Hj' in Mi'.
  apply in_flight_for_true in Hf as (Hk & Htg & Hs). apply in_flight_for_true in Hf' as (Hk' & Htg' & Hs').
  apply row_move_inflight in Mi as [Ei|(k & Ek & Hsk & Hkk & Htk)]; [..|done].
  - destruct (Hb i j Ei Hj) as [Hno Hsame]. destruct (decide (i = i')) as [|Hne]; [done|].
    rewrite Hsame in Hj' by done. specialize (Hno tg i' j' Htg Hj'). rewrite Hk in Hno.
    rewrite (proj2 (in_flight_for_true kind tg j')) in Hno; done.
  - apply row_move_inflight in Mi' as [Ei'|(k' & Ek' & Hsk' & Hkk' & Htk')]; [..|done].
    + destruct (Hb i' j' Ei' Hj') as [Hno Hsame]. destruct (decide (i = i')) as [|Hne]; [done|].
      rewrite Hsame in Hj by done. specialize (Hno tg i j Htg' Hj). rewrite Hk' in Hno.
      rewrite (proj2 (in_flight_for_true kind tg j)) in Hno; done.
    + eapply (Ho kind tg i i' k k'); [done|done|..]; apply in_flight_for_true;
        rewrite ?Hkk, ?Htk, ?Hkk', ?Htk'; done.
Qed.

(** What every step but an enqueue does: moves, and no birth. *)
Definition moves_only (now : instant) (t t' : maintenance_jobs) : Prop :=
  forall i, row_move now i (t !! i) (t' !! i) /\ (t !! i = None -> t' !! i = None).

Lemma moves_only_inv now clock t t' : (clock <= now)%Z ->
  moves_only now t t' -> keyed_jobs t -> one_in_flight t ->
  (forall i j, t !! i = Some j -> job_ok clock j) ->
  keyed_jobs t' /\ one_in_flight t' /\ (forall i j, t' !! i = Some j -> job_ok now j).
Proof.
  intros Hc Hm Hk Ho Hok. split_and!.
  - intros i j Hj. destruct (Hm i) as [Mi _]. rewrite Hj in Mi. eapply row_move_id; eauto.
  - eapply one_in_flight_moves; [done|intros i; apply (Hm i)|].
    intros i j Hi Hj. by rewrite (proj2 (Hm i) Hi) in Hj.
  - intros i j Hj. destruct (Hm i) as [Mi _]. rewrite Hj in Mi. eapply row_move_ok; eauto.
Qed.

Lemma claim_moves_only t now job t' : keyed_jobs t -> claim_one t now = Ok (job, t') -> moves_only now t t'.
Proof.
  intros Hk E i. split; [by eapply claim_move|]. intros Hi.
  apply claim_spec in E as [([= -> ->] & _)|(i0 & j & [= -> ->] & Hj & _)]; [done| |done].
  rewrite lookup_insert_ne; [done|]. intros ->. congruence.
Qed.

Lemma finalize_moves_only t now e j :
  t !! mj_id j = Some j -> mj_status j = RUNNING -> moves_only now t (finalize t now (mj_id j) e).
Proof.
  intros Hj Hs i. pose proof (finalize_move t now _ e i j Hj Hs) as Hm. split; [done|].
  intros Hi. rewrite finalize_elsewhere; [done|]. intros ->. congruence.
Qed.

Lemma restart_moves_only t now : moves_only now t (mark_interrupted_on_restart t now).2.
Proof. intros i. split; [apply restart_move|]. rewrite restart_lookup. by intros ->. Qed.

Lemma periodic_moves_only t now c : moves_only now t (periodic_cleanup_if_due t now c).2.
Proof.
  intros i. split; [apply periodic_move|]. intros Hi. unfold periodic_cleanup_if_due.
  destruct c as [l|]; [case_match; [done|]|]; cbn [snd]; rewrite cleanup_lookup, Hi; done.
Qed.

(** A busy worker's row is nobody else's to change. *)
Lemma enqueue_keeps t now id kind target params owner j t' i k :
  enqueue t now id kind target params owner = Ok (j, t') -> t !! i = Some k -> t' !! i = Some k.
Proof.
  intros [(_ & -> & Hid & _)|(-> & _)]%enqueue_spec Hi; [|done].
  rewrite lookup_insert_ne; [done|]. intros ->. congruence.
Qed.

Lemma world_inv_step w w' : world_step w w' -> world_inv w -> world_inv w'.
Proof.
  intros Hstep [Hk Ho Hok Hb Hoff]. destruct Hstep as
    [t on b c k now id kind target params owner j t' Hc E|t b c k now Hc|t c k now job t' Hc E
    |t c j k now Hc|t c j k|t c k now Hc Hn|t on b c k]; cbn in *.
  - pose proof (fun i => enqueue_move _ _ _ _ _ _ _ _ _ i E) as Hm. split; cbn.
    + intros i j0 Hj. pose proof (Hm i) as Mi. rewrite Hj in Mi. eapply row_move_id; eauto.
    + eapply one_in_flight_moves; [done..|]. intros i j0 Hi Hj.
      apply enqueue_spec in E as [(-> & -> & Hid & Hno)|(-> & _)]; [|congruence].
      destruct (decide (i = id)) as [->|]; [|rewrite lookup_insert_ne in Hj by done; congruence].
      rewrite lookup_insert_eq in Hj. injection Hj as <-. split; [done|].
      intros i' Hi'. by rewrite lookup_insert_ne.
    + intros i j0 Hj. pose proof (Hm i) as Mi. rewrite Hj in Mi. eapply row_move_ok; eauto.
    + intros j0 Hj. destruct (Hb j0 Hj). split; [by eapply enqueue_keeps|done].
    + done.
  - destruct (moves_only_inv now k t _ Hc (restart_moves_only t now) Hk Ho Hok) as (? & ? & ?).
    by split.
  - pose proof (claim_moves_only _ _ _ _ Hk E) as Hm.
    destruct (moves_only_inv now k t _ Hc Hm Hk Ho Hok) as (? & ? & ?). split; cbn; try done.
    intros j ->. apply claim_spec in E as [([= ] & _)|(i0 & j0 & [= -> ->] & Hj & _)]; [|done].
    cbn. rewrite (Hk _ _ Hj), lookup_insert_eq. done.
  - destruct (Hb j eq_refl) as [Hj Hs].
    destruct (moves_only_inv now k t _ Hc (finalize_moves_only t now (run_handler j) j Hj Hs) Hk Ho Hok)
      as (? & ? & ?). by split.
  - by split.
  - destruct (moves_only_inv now k t _ Hc (periodic_moves_only t now c) Hk Ho Hok) as (? & ? & ?).
    by split.
  - by split.
Qed.

Lemma world_inv_start clock : world_inv (world_start0 clock).
Proof.
  split; cbn; try done; try (intros i j; by rewrite lookup_empty).
Qed.

Lemma world_inv_reachable clock w : star world_step (world_start0 clock) w -> world_inv w.
Proof. intros Hs. eapply star_invariant; [exact world_inv_step|exact Hs|apply world_inv_start]. Qed.


(** *** Turns of the worker *)

Lemma queued_nodup t : keyed_jobs t -> NoDup (queued t).
Proof.
  intros Hk. unfold queued. eapply sublist_NoDup; [|apply sublist_filter].
  apply (NoDup_fmap_1 mj_id). by apply (rows_ids_nodup mj_id).
Qed.

(** A turn ends the oldest queued row and touches no other. *)
Lemma process_one t now now' :
  keyed_jobs t -> (forall i j, t !! i = Some j -> mj_status j = QUEUED -> decrypts j = true) ->
  queued t <> [] ->
  exists i j j' t', process_next_job t now now' = Ok (true, t') /\
    t !! i = Some j /\ mj_status j = QUEUED /\
    (forall i' k, t !! i' = Some k -> mj_status k = QUEUED -> older j k) /\
    t' !! i = Some j' /\ ended now' (set_running now j) j' /\
    (mj_status j' = DONE <-> run_handler (set_running now j) = Returned) /\
    (forall i', i' <> i -> t' !! i' = t !! i').
Proof.
  intros Hk Hd Hq. unfold process_next_job, claim_one, mark_running.
  pose proof (claim_next_spec t Hk) as Hc. destruct (claim_next t) as [i|]; [|done].
  destruct Hc as (j & Hj & Hs & Ho). rewrite Hj, (Hd i j Hj Hs). cbn [mbind res_bind].
  replace (mj_id (set_running now j)) with i by (symmetry; exact (Hk i j Hj)).
  destruct (finalize_ends (<[i := set_running now j]> t) now' (run_handler (set_running now j)) i
              (set_running now j)) as (j' & Hj' & He & Hst); [apply lookup_insert_eq|].
  exists i, j, j'. eexists. split; [reflexivity|]. split_and!; try done.
  intros i' Hi'. rewrite finalize_elsewhere by done. by rewrite lookup_insert_ne.
Qed.

Lemma turn_keyed t t' i j' :
  keyed_jobs t -> t' !! i = Some j' -> mj_id j' = i ->
  (forall i', i' <> i -> t' !! i' = t !! i') -> keyed_jobs t'.
Proof.
  intros Hk Hj Hid Hrest i' k Hi'. destruct (decide (i' = i)) as [->|Hne]; [congruence|].
  rewrite Hrest in Hi' by done. by apply Hk.
Qed.

Lemma turn_queued t t' i j j' :
  keyed_jobs t -> keyed_jobs t' -> t !! i = Some j -> mj_status j = QUEUED ->
  t' !! i = Some j' -> mj_status j' <> QUEUED ->
  (forall i', i' <> i -> t' !! i' = t !! i') -> queued t ≡ₚ j :: queued t'.
Proof.
  intros Hk Hk' Hj Hs Hj' Hs' Hrest. apply NoDup_Permutation.
  - by apply queued_nodup.
  - constructor; [|by apply queued_nodup]. intros [_ [i' Hi']]%elem_of_queued.
    assert (i' = i) as -> by (rewrite <- (Hk' _ _ Hi'); exact (Hk _ _ Hj)). congruence.
  - intros k. rewrite elem_of_cons, !elem_of_queued. split.
    + intros [Hq [i' Hi']]. destruct (decide (i' = i)) as [->|Hne]; [left; congruence|].
      right. split; [done|]. exists i'. by rewrite Hrest.
    + intros [->|[Hq [i' Hi']]]; [by eauto|]. split; [done|].
      destruct (decide (i' = i)) as [->|Hne]; [congruence|]. exists i'. by rewrite <- Hrest.
Qed.

Lemma ended_not_queued now j j' : ended now j j' -> mj_status j' <> QUEUED.
Proof. intros ([[-> _]|[-> _]] & _); done. Qed.
End Rows.

(** ** Properties *)

Section Properties.
Context `{WorkerEnv}.

(** C20: at every moment, whatever requests, claims, failures to record, clean-ups,
    kills and restarts came before, at most one row is in flight for a kind and
    a target, and every row carries the stamps and the error its status calls for. *)
Theorem one_job_in_flight (clock : instant) w :
  star world_step (world_start0 clock) w ->
  one_in_flight (w_jobs w) /\ (forall i j, w_jobs w !! i = Some j -> job_ok (w_clock w) j).
Proof.
  intros Hs%world_inv_reachable. split; [apply (winv_one _ Hs)|apply (winv_ok _ Hs)].
Qed.

Lemma enqueue_again t now id kind tg params owner i j :
  one_in_flight t -> keyed_jobs t -> t !! i = Some j -> in_flight_for kind tg j = true ->
  enqueue t now id kind (Some tg) params owner = Ok (j, t).
Proof.
  intros Ho Hk Hi Hf. unfold enqueue, insert_job.
  assert (E : existsb (in_flight_for kind tg) (rows t) = true).
  { apply existsb_exists. exists j. split; [|done]. apply list_elem_of_In, elem_of_rows. eauto. }
  rewrite E. cbn [mbind res_bind]. unfold get_inflight_for_target.
  assert (Hp : filter (fun j => Is_true (in_flight_for kind tg j)) (rows t) ≡ₚ [j]).
  { apply NoDup_Permutation.
    - eapply sublist_NoDup; [|apply sublist_filter]. apply (NoDup_fmap_1 mj_id).
      by apply (rows_ids_nodup mj_id).
    - apply NoDup_singleton.
    - intros k. rewrite list_elem_of_filter, elem_of_rows, list_elem_of_singleton. split.
      + intros [Hk1%Is_true_true [i' Hi']]. rewrite <- (Ho kind tg i i' j k Hi Hi' Hf Hk1) in Hi'. congruence.
      + intros ->. split; [by apply Is_true_true|eauto]. }
  by apply Permutation_singleton_r in Hp as ->.
Qed.

(** Enqueuing work for a target never raises: where a row is in flight for
    it, that row is returned and nothing is stored, so a second request gets the
    first one's row; elsewhere one queued row is stored. *)
Theorem enqueue_idempotent (clock : instant) w now id kind tg params owner :
  star world_step (world_start0 clock) w -> (w_clock w <= now)%Z -> w_jobs w !! id = None ->
  exists j t', enqueue (w_jobs w) now id kind (Some tg) params owner = Ok (j, t') /\
    in_flight_for kind tg j = true /\ t' !! mj_id j = Some j /\
    (t' = w_jobs w \/ none_in_flight (w_jobs w) kind (Some tg) /\ t' = <[id := j]> (w_jobs w)) /\
    (forall now' id' params' owner', enqueue t' now' id' kind (Some tg) params' owner' = Ok (j, t')).
Proof.
  intros Hs Hc Hid. apply world_inv_reachable in Hs as Hi.
  assert (Hown : exists j t', enqueue (w_jobs w) now id kind (Some tg) params owner = Ok (j, t') /\
            in_flight_for kind tg j = true /\ (exists i, t' !! i = Some j)).
  { destruct (existsb (in_flight_for kind tg) (rows (w_jobs w))) eqn:E.
    - apply existsb_exists in E as (j & Hj & Hf). apply list_elem_of_In, elem_of_rows in Hj as [i Hj].
      exists j, (w_jobs w). split; [|eauto]. by eapply enqueue_again; [apply Hi..| |].
    - exists (fresh_job id kind (Some tg) params owner now). eexists.
      unfold enqueue, insert_job. rewrite E, Hid. cbn [mbind res_bind]. split; [done|].
      split; [by apply in_flight_for_true|]. exists id. apply lookup_insert_eq. }
  destruct Hown as (j & t' & E & Hf & i & Hj). exists j, t'.
  assert (Hi' : world_inv (World t' (w_on w) (w_busy w) (w_cleanup w) now)).
  { destruct w. cbn in *. eapply world_inv_step; [by eapply world_enqueue|done]. }
  split_and!; [done|done| | |].
  - by rewrite (winv_keyed _ Hi' _ _ Hj).
  - apply enqueue_spec in E as [(_ & -> & _ & Hno)|(-> & _)]; auto.
  - intros. eapply enqueue_again; [apply (winv_one _ Hi')|apply (winv_keyed _ Hi')|exact Hj|done].
Qed.

(** A turn of the worker claims the oldest queued row, whatever was enqueued
    when, and records how its handler ended: done if it returned, failed with a
    nonempty error if it raised; no other row changes. *)
Theorem worker_takes_oldest (clock : instant) w now now' :
  star world_step (world_start0 clock) w ->
  (forall i j, w_jobs w !! i = Some j -> mj_status j = QUEUED -> decrypts j = true) ->
  queued (w_jobs w) <> [] ->
  exists i j j' t', process_next_job (w_jobs w) now now' = Ok (true, t') /\
    w_jobs w !! i = Some j /\ mj_status j = QUEUED /\
    (forall i' k, w_jobs w !! i' = Some k -> mj_status k = QUEUED -> older j k) /\
    t' !! i = Some j' /\ ended now' (set_running now j) j' /\
    (mj_status j' = DONE <-> run_handler (set_running now j) = Returned) /\
    (forall i', i' <> i -> t' !! i' = w_jobs w !! i').
Proof. intros Hs%world_inv_reachable. apply process_one, (winv_keyed _ Hs). Qed.

(** C39: the worker drains its queue: as many turns as there are queued rows,
    with no request between them, end every one of them, and leave the others
    as they were; no turn raises while the rows decrypt. *)
Theorem worker_drains (t : maintenance_jobs) clock :
  keyed_jobs t -> (forall i j, t !! i = Some j -> mj_status j = QUEUED -> decrypts j = true) ->
  exists t', worker_turns (length (queued t)) clock t = Ok t' /\ queued t' = [] /\
    (forall i, match t !! i with
               | Some j => if decide (mj_status j = QUEUED)
                           then exists now now' j', t' !! i = Some j' /\ ended now' (set_running now j) j'
                           else t' !! i = Some j
               | None => t' !! i = None
               end).
Proof.
  remember (length (queued t)) as n eqn:En. revert t clock En.
  induction n as [|n IH]; intros t clock En Hk Hd.
  { exists t. split; [done|]. assert (Eq : queued t = []) by (by destruct (queued t)). split; [done|].
    intros i. destruct (t !! i) as [j|] eqn:Ej; [|done]. case_decide as Hs; [|done].
    assert (Hq : j ∈ queued t) by (apply elem_of_queued; eauto). rewrite Eq in Hq. by apply elem_of_nil in Hq. }
  destruct (process_one t (clock 0) (clock 1) Hk Hd) as
    (i & j & j' & t1 & E & Hj & Hs & _ & Hj' & He & _ & Hrest); [by intros Eq; rewrite Eq in En|].
  assert (Hid : mj_id j' = i) by (destruct He as (_ & _ & _ & -> & _); exact (Hk i j Hj)).
  pose proof (turn_keyed _ _ _ _ Hk Hj' Hid Hrest) as Hk1.
  pose proof (turn_queued _ _ _ _ _ Hk Hk1 Hj Hs Hj' (ended_not_queued _ _ _ He) Hrest) as Hp.
  apply Permutation_length in Hp. cbn in Hp.
  assert (Hd1 : forall i' k, t1 !! i' = Some k -> mj_status k = QUEUED -> decrypts k = true).
  { intros i' k Hi' Hq. destruct (decide (i' = i)) as [->|Hne].
    - rewrite Hj' in Hi'. injection Hi' as <-. by apply ended_not_queued in He.
    - rewrite Hrest in Hi' by done. by eapply Hd. }
  destruct (IH t1 (fun k => clock (2 + k)) ltac:(lia) Hk1 Hd1) as (t' & Et & Hq' & Hall). exists t'.
  split; [cbn [worker_turns]; rewrite E; exact Et|]. split; [done|]. intros i'.
  specialize (Hall i'). destruct (decide (i' = i)) as [->|Hne].
  - rewrite Hj, decide_True by done. rewrite Hj', decide_False in Hall by (by eapply ended_not_queued).
    eauto.
  - by rewrite Hrest in Hall.
Qed.

(** A start of the process leaves no row running: each one the last process
    left is failed with its reason, and every other row is as it was. *)
Theorem restart_reaps (t : maintenance_jobs) now i :
  (mark_interrupted_on_restart t now).2 !! i =
    (j ← t !! i; Some (if decide (mj_status j = RUNNING) then set_failed now INTERRUPTED j else j)) /\
  (forall j, (mark_interrupted_on_restart t now).2 !! i = Some j -> mj_status j <> RUNNING).
Proof.
  rewrite restart_lookup. split; [by destruct (t !! i)|].
  intros j. destruct (t !! i) as [k|]; cbn; [|done]. intros [= <-]. by case_decide.
Qed.

(** An ended row is never run or written again: the next state has it
    unchanged, or dropped by the hourly clean-up six hours or more after it ended. *)
Theorem ended_job_stays (clock : instant) w w' i j :
  star world_step (world_start0 clock) w -> world_step w w' ->
  w_jobs w !! i = Some j -> inflight (mj_status j) = false ->
  w_jobs w' !! i = Some j \/
  (w_jobs w' !! i = None /\
   exists c, mj_completed_at j = Some c /\ (c < w_clock w' - TERMINAL_RETENTION)%Z).
Proof.
  intros Hs%world_inv_reachable Hstep Hj Hf.
  destruct Hs as [Hk Ho Hok Hb Hoff]. destruct Hstep as
    [t on b c k now id kind target params owner j0 t' Hc E|t b c k now Hc|t c k now job t' Hc E
    |t c j0 k now Hc|t c j0 k|t c k now Hc Hn|t on b c k]; cbn in *; auto.
  - left. by eapply enqueue_keeps.
  - left. rewrite restart_lookup, Hj. cbn. by rewrite decide_False by (intros Hr; by rewrite Hr in Hf).
  - left. apply claim_spec in E as [([= -> ->] & _)|(i0 & j0 & [= -> ->] & Hj0 & Hq & _)]; [done| |done].
    rewrite lookup_insert_ne; [done|]. intros ->. rewrite Hj0 in Hj. injection Hj as <-. by rewrite Hq in Hf.
  - left. destruct (Hb j0 eq_refl) as [Hj0 Hr]. rewrite finalize_elsewhere; [done|].
    intros ->. rewrite Hj0 in Hj. injection Hj as <-. by rewrite Hr in Hf.
  - assert (Hcl : forall cutoff, (delete_old_terminal t cutoff).2 !! i = Some j \/
        (delete_old_terminal t cutoff).2 !! i = None /\
        exists c, mj_completed_at j = Some c /\ (c < cutoff)%Z).
    { intros cutoff. rewrite cleanup_lookup, Hj. cbn. unfold old_terminal. rewrite Hf. cbn.
      destruct (mj_completed_at j) as [c0|]; [|by left]. destruct (c0 <? cutoff)%Z eqn:El; [right|by left].
      split; [done|]. exists c0. by apply Z.ltb_lt in El. }
    unfold periodic_cleanup_if_due. destruct c as [l|]; [case_match; [by left|]|]; apply Hcl.
Qed.
End Properties.

(** ** Witnesses

    One agent to delete, enqueued, claimed and done. *)
Definition demo_worker : WorkerEnv :=
  {| scrubbed := fun e => e; decrypts := fun _ => true;
     HANDLERS := fun k => match k with AGENT_DELETE => Some (fun _ => Returned) | _ => None end |}.

Definition demo_job : maintenance_job := fresh_job 1 AGENT_DELETE (Some 5%N) None None 1.
Definition demo_queue : maintenance_jobs := {[ 1%N := demo_job ]}.
Definition demo_queued : world := World demo_queue false None None 1.
Definition demo_idle : world := World (mark_interrupted_on_restart demo_queue 2).2 true None None 2.
Definition demo_claimed : maintenance_jobs :=
  <[1%N := set_running 3 demo_job]> (mark_interrupted_on_restart demo_queue 2).2.
Definition demo_done : world :=
  World (finalize (H := demo_worker) demo_claimed 4 1 Returned) true None None 4.

Lemma demo_queued_reachable : star (world_step (H := demo_worker)) (world_start0 0) demo_queued.
Proof.
  apply star_one. unfold demo_queued, world_start0.
  eapply (world_enqueue (H := demo_worker) _ _ _ _ _ 1 1 AGENT_DELETE (Some 5%N) None None); [lia|].
  vm_compute. reflexivity.
Qed.

Lemma demo_done_reachable : star (world_step (H := demo_worker)) (world_start0 0) demo_done.
Proof.
  eapply star_trans; [exact demo_queued_reachable|].
  eapply star_step; [apply (world_start (H := demo_worker) _ _ _ _ 2); lia|].
  eapply star_step; [eapply (world_claim (H := demo_worker) _ _ _ 3); [lia|vm_compute; reflexivity]|].
  eapply star_step; [apply (world_finalize (H := demo_worker) _ _ _ _ 4); lia|].
  apply star_refl.
Qed.

Lemma one_job_in_flight_witness : queued (w_jobs demo_queued) = [demo_job] /\ one_in_flight (w_jobs demo_queued).
Proof.
  split; [vm_compute; reflexivity|].
  apply (one_job_in_flight (H := demo_worker) 0 demo_queued), demo_queued_reachable.
Defined.

Lemma enqueue_idempotent_witness :
  exists j t', enqueue (w_jobs demo_queued) 2 9 AGENT_DELETE (Some 5%N) None None = Ok (j, t') /\
    in_flight_for AGENT_DELETE 5 j = true.
Proof.
  destruct (enqueue_idempotent (H := demo_worker) 0 demo_queued 2 9 AGENT_DELETE 5 None None)
    as (j & t' & E & Hf & _).
  - apply demo_queued_reachable.
  - vm_compute. intros Hc; discriminate Hc.
  - vm_compute. reflexivity.
  - exists j, t'. by split.
Defined.

Lemma demo_decrypts (t : maintenance_jobs) i j :
  t !! i = Some j -> mj_status j = QUEUED -> decrypts (WorkerEnv := demo_worker) j = true.
Proof. done. Qed.

Lemma worker_takes_oldest_witness :
  exists t', process_next_job (H := demo_worker) (w_jobs demo_queued) 3 4 = Ok (true, t').
Proof.
  destruct (worker_takes_oldest (H := demo_worker) 0 demo_queued 3 4) as (i & j & j' & t' & E & _).
  - apply demo_queued_reachable.
  - apply demo_decrypts.
  - vm_compute. intros Hc; discriminate Hc.
  - exists t'. exact E.
Defined.

Lemma worker_drains_witness :
  exists t', worker_turns (H := demo_worker) (length (queued demo_queue)) (fun k => Z.of_nat k) demo_queue = Ok t' /\
             queued t' = [].
Proof.
  destruct (worker_drains (H := demo_worker) demo_queue (fun k => Z.of_nat k)) as (t' & E & Hq & _).
  - apply (winv_keyed demo_queued), (world_inv_reachable (H := demo_worker) 0), demo_queued_reachable.
  - apply demo_decrypts.
  - exists t'. by split.
Defined.

Lemma ended_job_stays_witness :
  exists j, w_jobs demo_done !! 1%N = Some j /\ mj_status j = DONE /\
    (w_jobs demo_done !! 1%N = Some j \/ w_jobs demo_done !! 1%N = None).
Proof.
  eexists. split; [vm_compute; reflexivity|]. split; [vm_compute; reflexivity|].
  edestruct (ended_job_stays (H := demo_worker) 0 demo_done (World (w_jobs demo_done) false None None 4) 1)
    as [Hs|[Hn _]].
  - apply demo_done_reachable.
  - apply (world_stop (H := demo_worker)).
  - vm_compute. reflexivity.
  - vm_compute. reflexivity.
  - left. exact Hs.
  - right. exact Hn.
Defined.
