(* ===== verification/StatusPages.v ===== *)
(** * StatusPages

    Status pages: models/status_page_model.py, crud/status_page_crud.py,
    services/core/status_page_core_service.py and
    services/core/admin_status_page_core_service.py, the schemas they take
    (schemas/status_page_schema.py, schemas/admin_status_page_schema.py), the edits
    by position of web/routers/status_pages_router.py, and of the views who may see
    a page and the bars it is drawn with.

    An item of a page is a value with the keys its writers store; a check's id is
    stored as str(UUID), which is one to one, and is here the id.  [locked] says
    that another transaction holds the page's row.  What pydantic makes of a group's
    name and of a filter, UUID(s), and what the Unicode tables say of the characters
    past ASCII are a parameter.  A text is its UTF-8 bytes, and its length here the
    number of its characters. *)

From S2P Require Import Prelude Py Text Url Store Checks Maintenance.

(** ** Items *)

Record GroupFilter := MkFilter {
  gf_agent_id : option uuid; gf_check_type : option string; gf_tags : list string; gf_search : option string }.

(** What a group shows: the checks it lists ("checks"), or those its filter picks
    ("filter"). *)
Inductive group_content := Listed (checks : list uuid) | Filtered (f : GroupFilter).

Record page_group := Group {
  pg_name : string; pg_collapsed : bool; pg_sort_by : string; pg_sort_direction : string; pg_content : group_content }.

(** "order" is the second argument of each; a new item may lack it. *)
Inductive page_item :=
  | CheckItem (check_id : uuid) (order : option nat)
  | GroupItem (g : page_group) (order : option nat).

#[global] Instance GroupFilter_eq : EqDecision GroupFilter.
Proof. solve_decision. Defined.
#[global] Instance group_content_eq : EqDecision group_content.
Proof. solve_decision. Defined.
#[global] Instance page_group_eq : EqDecision page_group.
Proof. solve_decision. Defined.
#[global] Instance page_item_eq : EqDecision page_item.
Proof. solve_decision. Defined.

Record status_page := StatusPage {
  sp_id : uuid; sp_name : string; sp_slug : string; sp_description : option string; sp_is_public : bool;
  sp_config : option pydict; sp_items : list page_item; sp_updated_at : instant }.

Abbreviation status_pages := (gmap uuid status_page).

Class PageInput := {
  group_name : string -> option string;           (* GroupName; None is a ValidationError *)
  group_filter : pydict -> option GroupFilter;    (* GroupFilter.model_validate *)
  uuid_of : string -> option uuid;                (* UUID(s) *)
  wide_alnum : string -> bool;                    (* str.isalnum of a character past ASCII *)
  wide_lower : string -> string;                  (* str.lower of a text that is not all ASCII *)
}.

(** ** Schemas *)

Definition MAX_ITEMS : nat := 500.
Definition MAX_GROUP_CHECKS : nat := 1000.
Definition MAX_PAGE_CHECKS : nat := 10000.

Definition ALLOWED_TIME_RANGES : list Z := [30; 60; 120; 240; 480; 1440]%Z.
Definition SORT_BY : list string := ["manual"; "name"; "status"; "latency"; "uptime"].
Definition SORT_DIRECTION : list string := ["asc"; "desc"].

Definition is_alnum (c : ascii) : bool := is_alpha c || is_digit c.
Definition is_ascii (c : ascii) : bool := (N_of_ascii c <? 128)%N.

(** The characters of a text, each by its bytes: one, and those that continue it. *)
Definition continues (c : ascii) : bool := let n := N_of_ascii c in ((128 <=? n) && (n <? 192))%N.
Fixpoint characters (s : string) : list string :=
  match s with
  | EmptyString => []
  | String c s =>
      match characters s with
      | String d x :: rest => if continues d then String c (String d x) :: rest else String c "" :: String d x :: rest
      | rest => String c "" :: rest
      end
  end.

Definition slug_char (c : ascii) : bool := is_alnum c || Ascii.eqb c "-" || Ascii.eqb c "_".
Definition length_in (lo hi : nat) (s : string) : bool :=
  let n := length (characters s) in (lo <=? n)%nat && (n <=? hi)%nat.

(** [v.replace("-", "").replace("_", "")] *)
Definition bare_slug (v : string) : string :=
  remove_chars (fun c => Ascii.eqb c "_") (remove_chars (fun c => Ascii.eqb c "-") v).

Section Slugs.
Context `{PageInput}.

Definition char_alnum (x : string) : bool :=
  match x with String c "" => if is_ascii c then is_alnum c else wide_alnum x | _ => wide_alnum x end.
(** [str.isalnum], [str.lower] *)
Definition isalnum (s : string) : bool := negb (String.eqb s "") && forallb char_alnum (characters s).
Definition str_lower (s : string) : string := if all_of is_ascii s then lower s else wide_lower s.

(** [validate_slug] of StatusPageBase and StatusPageUpdate *)
Definition validate_slug (v : string) : res string :=
  if length_in 1 255 v && isalnum (bare_slug v) then Ok (str_lower v) else Raise ValueError.
End Slugs.

(** [Slug] of the admin API *)
Definition admin_slug (v : string) : res string :=
  if length_in 1 255 v && all_of slug_char v then Ok (lower v) else Raise ValueError.

(** An item as the admin API takes it, [_checks_or_filter] included; a group's name
    as it was sent. *)
Inductive StatusPageItem :=
  | PageCheck (check_id : uuid)
  | PageGroup (name : string) (collapsed : bool) (sort_by sort_direction : string) (content : group_content).

(** [AdminStatusPageCreate], [AdminStatusPageUpdate]: a field left out is [None]. *)
Record AdminStatusPageCreate := PageCreate {
  ac_name : string; ac_slug : string; ac_description : option string; ac_is_public : bool;
  ac_status_bar_minutes : Z; ac_items : list StatusPageItem }.
Record AdminStatusPageUpdate := PageUpdate {
  au_name : option string; au_slug : option string; au_description : option (option string); au_is_public : option bool;
  au_status_bar_minutes : option Z }.

(** [StatusPageUpdate]: the fields set. *)
Record StatusPageUpdate := Update {
  pu_name : option string; pu_slug : option string; pu_description : option (option string);
  pu_is_public : option bool; pu_config : option (option pydict); pu_items : option (list page_item) }.

Record EditorReorderItem := EditorItem {
  er_group : bool;                      (* type is "group" *)
  er_old_index : option nat;
  er_checks : option (list uuid);
  er_check_id : option string }.

Definition editor_item_ok (i : EditorReorderItem) : bool :=
  (match er_checks i with Some l => (length l <=? MAX_GROUP_CHECKS)%nat | None => true end)
  && (match er_check_id i with Some s => (String.length s <=? 64)%nat | None => true end)
  && (match er_old_index i, er_check_id i with
      | Some _, _ => true
      | None, Some _ => negb (er_group i)
      | None, None => false
      end).

(** ** models/status_page_model.py *)

Definition set_order (i : nat) (item : page_item) : page_item :=
  match item with CheckItem c _ => CheckItem c (Some i) | GroupItem g _ => GroupItem g (Some i) end.
Definition reorder_items (items : list page_item) : list page_item := imap set_order items.

(** [page_add_check], [add_group]: [order] is written, and written over. *)
Definition page_add_check (items : list page_item) (check_id : uuid) (order : option nat) : list page_item :=
  reorder_items (items ++ [CheckItem check_id (Some (default (length items) order))]).
Definition add_group (items : list page_item) (name : string) (filter : option GroupFilter) (order : option nat)
    (collapsed : bool) : list page_item :=
  reorder_items (items ++ [GroupItem
    (Group name collapsed "manual" "asc" (match filter with Some f => Filtered f | None => Listed [] end))
    (Some (default (length items) order))]).

(** [0 <= index < len(items)] *)
Definition position (items : list page_item) (index : Z) : option nat :=
  if ((0 <=? index) && (index <? Z.of_nat (length items)))%Z then Some (Z.to_nat index) else None.

Definition remove_item (items : list page_item) (index : Z) : list page_item :=
  match position items index with Some i => reorder_items (delete i items) | None => items end.

Definition insert_at (i : nat) (x : page_item) (items : list page_item) : list page_item := take i items ++ x :: drop i items.

Definition reorder_item (items : list page_item) (from_index to_index : Z) : list page_item :=
  match position items from_index, position items to_index with
  | Some i, Some j =>
      match items !! i with
      | Some item => reorder_items (insert_at j item (delete i items))
      | None => items
      end
  | _, _ => items
  end.

Definition update_group (items : list page_item) (index : Z) (f : page_group -> option page_group) : option (list page_item) :=
  i ← position items index;
  match items !! i with
  | Some (GroupItem g o) => g' ← f g; Some (<[i := GroupItem g' o]> items)
  | _ => None
  end.

(** ** services/core/status_page_core_service.py *)

Definition listed_checks (item : page_item) : list uuid :=
  match item with CheckItem _ _ => [] | GroupItem g _ => match pg_content g with Listed l => l | Filtered _ => [] end end.
Definition named (item : page_item) : list uuid :=
  match item with CheckItem c _ => [c] | _ => listed_checks item end.

Definition named_check_ids (items : list page_item) : gset uuid := list_to_set (concat (map named items)).

Definition item_cap (stored : list page_item) : nat := Nat.max MAX_ITEMS (length stored).
Definition check_cap (stored : list page_item) : nat := Nat.max MAX_PAGE_CHECKS (size (named_check_ids stored)).
Definition room_for_one_more (items : list page_item) : res unit :=
  if (MAX_ITEMS <=? length items)%nat then Raise ValueError else Ok tt.

Definition get_status_page_by_id (t : status_pages) (id : uuid) : res status_page :=
  match t !! id with Some p => Ok p | None => Raise NotFoundException end.

Definition get_status_page_for_update (t : status_pages) (id : uuid) (locked wait : bool) : res status_page :=
  if locked && negb wait then Raise StalePageException else get_status_page_by_id t id.

Definition require_drawn_version (t : status_pages) (id : uuid) (locked : bool) (drawn : option instant) : res unit :=
  p ← get_status_page_for_update t id locked false;
  if bool_decide (drawn = Some (sp_updated_at p)) then Ok tt else Raise StalePageException.

Definition get_by_slug (t : status_pages) (slug : string) : option status_page :=
  head (filter (fun p => sp_slug p = slug) (rows t)).
Definition slug_taken (t : status_pages) (slug : string) : bool := bool_decide (get_by_slug t slug <> None).

(** What the write answers with: the row as a StatusPageInDB, its slug validated again. *)
Definition model_validate `{PageInput} (t : status_pages) (p : status_page) : res status_pages :=
  if (255 <? length (characters (sp_slug p)))%nat then Raise DataError else
  _ ← validate_slug (sp_slug p); Ok (<[sp_id p := p]> t).

(** The table [seen] by the look-up of the slug, and the one the write finds. *)
Definition create_status_page `{PageInput} (seen t : status_pages) (now : instant) (id : uuid) (name slug : string)
    (description : option string) (is_public : bool) (config : option pydict) (items : list page_item) : res status_pages :=
  slug ← validate_slug slug;
  if negb (length_in 1 255 name) then Raise ValueError else
  if slug_taken seen slug then Raise DuplicateResourceException else
  if slug_taken t slug then Raise DuplicateResourceException else
  model_validate t (StatusPage id name slug description is_public config items now).

Definition updated_page (p : status_page) (u : StatusPageUpdate) (now : instant) : status_page :=
  StatusPage (sp_id p) (default (sp_name p) (pu_name u)) (default (sp_slug p) (pu_slug u))
    (default (sp_description p) (pu_description u)) (default (sp_is_public p) (pu_is_public u))
    (default (sp_config p) (pu_config u)) (default (sp_items p) (pu_items u)) now.

(** [u]'s slug is validated where it is built. *)
Definition update_status_page `{PageInput} (seen t : status_pages) (now : instant) (id : uuid) (locked : bool) (u : StatusPageUpdate)
    : res status_pages :=
  slug ← match pu_slug u with Some s => s' ← validate_slug s; Ok (Some s') | None => Ok None end;
  if negb (match pu_name u with Some n => length_in 1 255 n | None => true end) then Raise ValueError else
  let u := Update (pu_name u) slug (pu_description u) (pu_is_public u) (pu_config u) (pu_items u) in
  p ← get_status_page_for_update t id locked false;
  let moved := match slug with Some s => if String.eqb s (sp_slug p) then None else Some s | None => None end in
  if (match moved with Some s => slug_taken seen s | None => false end) then Raise DuplicateResourceException else
  if (match moved with Some s => slug_taken t s | None => false end) then Raise DuplicateResourceException else
  model_validate t (updated_page p u now).

Definition delete_status_page (t : status_pages) (id : uuid) (locked wait : bool) : res status_pages :=
  _ ← get_status_page_for_update t id locked wait; Ok (delete id t).

(** The page's items and version written. *)
Definition save_items (t : status_pages) (now : instant) (p : status_page) (items : list page_item) : status_pages :=
  <[sp_id p := StatusPage (sp_id p) (sp_name p) (sp_slug p) (sp_description p) (sp_is_public p) (sp_config p) items now]> t.

Definition add_check_to_page (t : status_pages) (d : db) (now : instant) (id : uuid) (locked : bool) (check_id : uuid)
    (order : option nat) : res status_pages :=
  p ← get_status_page_for_update t id locked false;
  let named := named_check_ids (sp_items p) in
  if bool_decide (check_id ∈ named) then Raise ValueError else
  _ ← room_for_one_more (sp_items p);
  if (MAX_PAGE_CHECKS <? size (named ∪ {[check_id]}))%nat then Raise ValueError else
  match get_checks_by_ids d [check_id] with
  | [] => Raise ValueError
  | _ => Ok (save_items t now p (page_add_check (sp_items p) check_id order))
  end.

Definition remove_item_from_page (t : status_pages) (now : instant) (id : uuid) (locked : bool) (index : Z) : res status_pages :=
  p ← get_status_page_for_update t id locked false; Ok (save_items t now p (remove_item (sp_items p) index)).

Definition reorder_item_of_page (t : status_pages) (now : instant) (id : uuid) (locked : bool) (from_index to_index : Z)
    : res status_pages :=
  p ← get_status_page_for_update t id locked false; Ok (save_items t now p (reorder_item (sp_items p) from_index to_index)).

Definition require_within_caps (items stored : list page_item) : res unit :=
  if (item_cap stored <? length items)%nat then Raise ValueError else
  if (check_cap stored <? size (named_check_ids items))%nat then Raise ValueError else Ok tt.

Section Editing.
Context `{PageInput}.

Definition group_name_valid (name : string) : res string :=
  match group_name name with Some n => Ok n | None => Raise ValueError end.
Definition stored_filter (f : pydict) : res GroupFilter :=
  match group_filter f with Some g => Ok g | None => Raise ValueError end.

Definition add_group_to_page (t : status_pages) (now : instant) (id : uuid) (locked : bool) (name : string)
    (filter : option pydict) (order : option nat) (collapsed : bool) : res status_pages :=
  name ← group_name_valid name;
  filter ← match filter with Some f => g ← stored_filter f; Ok (Some g) | None => Ok None end;
  p ← get_status_page_for_update t id locked false;
  _ ← room_for_one_more (sp_items p);
  Ok (save_items t now p (add_group (sp_items p) name filter order collapsed)).

(** A group changed in place; the page is saved only when the index names one. *)
Definition change_group (t : status_pages) (now : instant) (id : uuid) (locked : bool) (item_index : Z)
    (f : page_group -> option page_group) : res status_pages :=
  p ← get_status_page_for_update t id locked false;
  match update_group (sp_items p) item_index f with
  | Some items => Ok (save_items t now p items)
  | None => Ok t
  end.

Definition rename_group (t : status_pages) (now : instant) (id : uuid) (locked : bool) (item_index : Z) (new_name : string)
    : res status_pages :=
  n ← group_name_valid new_name;
  change_group t now id locked item_index
    (fun g => Some (Group n (pg_collapsed g) (pg_sort_by g) (pg_sort_direction g) (pg_content g))).

Definition update_group_filters (t : status_pages) (now : instant) (id : uuid) (locked : bool) (item_index : Z) (filter : pydict)
    : res status_pages :=
  f ← stored_filter filter;
  change_group t now id locked item_index
    (fun g => match pg_content g with
              | Filtered _ => Some (Group (pg_name g) (pg_collapsed g) (pg_sort_by g) (pg_sort_direction g) (Filtered f))
              | Listed _ => None
              end).

(** [update_group_sort] saves the page, the index naming a group or not. *)
Definition update_group_sort (t : status_pages) (now : instant) (id : uuid) (locked : bool) (item_index : Z)
    (sort_by sort_direction : string) : res status_pages :=
  if negb (bool_decide (sort_by ∈ SORT_BY) && bool_decide (sort_direction ∈ SORT_DIRECTION)) then Raise ValueError else
  p ← get_status_page_for_update t id locked false;
  Ok (save_items t now p (default (sp_items p)
    (update_group (sp_items p) item_index
      (fun g => Some (Group (pg_name g) (pg_collapsed g) sort_by sort_direction (pg_content g)))))).

(** *** [reorder_all_items] *)

(** One entry: the item it makes of the stored ones, [None] where it names none. *)
Definition placed_item (stored : list page_item) (e : EditorReorderItem) : res (option page_item) :=
  match er_old_index e with
  | None =>
      match uuid_of (default "None" (er_check_id e)) with
      | Some c => Ok (Some (CheckItem c None))
      | None => Raise ValueError
      end
  | Some i =>
      Ok (match stored !! i with
          | Some (GroupItem g o) =>
              match pg_content g with
              | Listed _ =>
                  if er_group e
                  then Some (GroupItem (Group (pg_name g) (pg_collapsed g) (pg_sort_by g) (pg_sort_direction g)
                                         (Listed (first_seen (default [] (er_checks e))))) o)
                  else Some (GroupItem g o)
              | Filtered _ => Some (GroupItem g o)
              end
          | other => other
          end)
  end.

Fixpoint placed_items (stored : list page_item) (entries : list EditorReorderItem) : res (list page_item) :=
  match entries with
  | [] => Ok []
  | e :: rest =>
      item ← placed_item stored e;
      items ← placed_items stored rest;
      Ok (match item with Some i => i :: items | None => items end)
  end.

(** An item that has no entry of its own must be a check dragged into a group. *)
Definition left_out (placed : list nat) (grouped : gset uuid) (index : nat) (stored : page_item) : bool :=
  negb (bool_decide (index ∈ placed))
  && negb (match stored with CheckItem c _ => bool_decide (c ∈ grouped) | GroupItem _ _ => false end).

Definition existing (d : db) (ids : gset uuid) : gset uuid := list_to_set (map ck_id (get_checks_by_ids d (elements ids))).

Definition reordered_items (d : db) (stored : list page_item) (entries : list EditorReorderItem) : res (list page_item) :=
  if (item_cap stored <? length entries)%nat then Raise ValueError else
  let placed := omap er_old_index entries in
  if negb (bool_decide (NoDup placed)) then Raise ValueError else
  new_items ← placed_items stored entries;
  let named := named_check_ids new_items in
  if (check_cap stored <? size named)%nat then Raise ValueError else
  let grouped : gset uuid := list_to_set (concat (map listed_checks new_items)) in
  if existsb id (imap (left_out placed grouped) stored) then Raise ValueError else
  let stored_ids := named_check_ids stored in
  let new_ids := named ∖ stored_ids in
  let lost_ids := stored_ids ∖ named in
  let found := existing d (new_ids ∪ lost_ids) in
  if negb (bool_decide (new_ids ∖ found = ∅)) then Raise ValueError else
  if negb (bool_decide (lost_ids ∩ found = ∅)) then Raise ValueError else
  Ok (reorder_items new_items).

Definition reorder_all_items (t : status_pages) (d : db) (now : instant) (id : uuid) (locked : bool)
    (client_items : list EditorReorderItem) : res status_pages :=
  if negb (forallb editor_item_ok client_items) then Raise ValueError else
  p ← get_status_page_for_update t id locked false;
  items ← reordered_items d (sp_items p) client_items;
  Ok (save_items t now p items).
End Editing.

(** ** services/core/admin_status_page_core_service.py *)

Definition stored_item `{PageInput} (order : nat) (item : StatusPageItem) : page_item :=
  match item with
  | PageCheck c => CheckItem c (Some order)
  | PageGroup name collapsed sort_by sort_direction content =>
      GroupItem (Group (default name (group_name name)) collapsed sort_by sort_direction
        (match content with Listed l => Listed (first_seen l) | Filtered f => Filtered f end)) (Some order)
  end.
Definition stored_items `{PageInput} (items : list StatusPageItem) : list page_item := imap stored_item items.

(** schemas/admin_status_page_schema.py: [named_check_ids] *)
Definition request_check_ids (items : list StatusPageItem) : list uuid :=
  first_seen (concat (map (fun i => match i with
    | PageCheck c => [c]
    | PageGroup _ _ _ _ (Listed l) => l
    | PageGroup _ _ _ _ (Filtered _) => []
    end) items)).

Definition request_agent_ids (items : list StatusPageItem) : list uuid :=
  first_seen (omap (fun i => match i with
    | PageGroup _ _ _ _ (Filtered f) => gf_agent_id f
    | _ => None
    end) items).

Definition require_references (d : db) (items : list StatusPageItem) : res unit :=
  let check_ids := request_check_ids items in
  match filter (fun c => c ∉ map ck_id (get_checks_by_ids d check_ids)) check_ids with
  | _ :: _ => Raise (ValidationException "No check has the id")
  | [] => if forallb (fun a => match get_agent_by_id d a with Ok _ => true | Raise _ => false end) (request_agent_ids items)
          then Ok tt else Raise (ValidationException "No agent has the id")
  end.

(** What pydantic proves of an item, of a new page's items and of the whole. *)
Definition page_item_ok `{PageInput} (i : StatusPageItem) : bool :=
  match i with
  | PageCheck _ => true
  | PageGroup name _ sort_by sort_direction content =>
      bool_decide (group_name name <> None) && bool_decide (sort_by ∈ SORT_BY) && bool_decide (sort_direction ∈ SORT_DIRECTION)
      && (match content with Listed l => (length l <=? MAX_GROUP_CHECKS)%nat | Filtered _ => true end)
  end.
Definition page_items_ok `{PageInput} (items : list StatusPageItem) : bool :=
  forallb page_item_ok items && (length items <=? MAX_ITEMS)%nat && (length (request_check_ids items) <=? MAX_PAGE_CHECKS)%nat.

Definition minutes_ok (m : Z) : bool := bool_decide (m ∈ ALLOWED_TIME_RANGES).

Definition create_page `{PageInput} (seen t : status_pages) (d : db) (now : instant) (id : uuid) (data : AdminStatusPageCreate)
    : res status_pages :=
  slug ← admin_slug (ac_slug data);
  if negb (page_items_ok (ac_items data) && minutes_ok (ac_status_bar_minutes data)) then Raise ValueError else
  _ ← require_references d (ac_items data);
  create_status_page seen t now id (ac_name data) slug (ac_description data) (ac_is_public data)
    (Some [("status_bar_minutes", PInt (ac_status_bar_minutes data))]) (stored_items (ac_items data)).

Definition with_minutes (config : option pydict) (minutes : Z) : pydict :=
  dict_set (default [] config) "status_bar_minutes" (PInt minutes).

(** The config is read before the page is locked. *)
Definition update_page `{PageInput} (seen t : status_pages) (now : instant) (id : uuid) (locked : bool) (data : AdminStatusPageUpdate)
    : res status_pages :=
  slug ← match au_slug data with Some s => s' ← admin_slug s; Ok (Some s') | None => Ok None end;
  if negb (match au_status_bar_minutes data with Some m => minutes_ok m | None => true end) then Raise ValueError else
  config ← match au_status_bar_minutes data with
           | Some m => existing ← get_status_page_by_id seen id; Ok (Some (Some (with_minutes (sp_config existing) m)))
           | None => Ok None
           end;
  update_status_page seen t now id locked
    (Update (au_name data) slug (au_description data) (au_is_public data) config None).

Definition replace_items `{PageInput} (t : status_pages) (d : db) (now : instant) (id : uuid) (locked : bool)
    (data : list StatusPageItem) : res status_pages :=
  if negb (forallb page_item_ok data) then Raise ValueError else
  stored ← get_status_page_for_update t id locked false;
  let items := stored_items data in
  match require_within_caps items (sp_items stored) with
  | Raise _ => Raise (ValidationException "A page holds at most")
  | Ok _ =>
      _ ← require_references d data;
      update_status_page t t now id false (Update None None None None None (Some items))
  end.

Definition delete_page (t : status_pages) (jobs : maintenance_jobs) (now : instant) (job_id id owner_id : uuid)
    : res (maintenance_job * maintenance_jobs) :=
  _ ← get_status_page_by_id t id;
  enqueue jobs now job_id STATUS_PAGE_DELETE (Some id) None (Some owner_id).

(** ** services/views/status_pages_view_service.py *)

Definition normalize_status_bar_minutes (minutes : option Z) : Z :=
  match minutes with Some m => if minutes_ok m then m else 30%Z | None => 30%Z end.

Definition web_create `{PageInput} (seen t : status_pages) (now : instant) (id : uuid) (name slug description : string) (is_public : bool)
    (status_bar_minutes : Z) : res status_pages :=
  create_status_page seen t now id name slug (if String.eqb description "" then None else Some description) is_public
    (Some [("status_bar_minutes", PInt (normalize_status_bar_minutes (Some status_bar_minutes)))]) [].

Definition web_update `{PageInput} (seen t : status_pages) (now : instant) (id : uuid) (locked : bool) (name slug description : string)
    (is_public : bool) (status_bar_minutes : Z) : res status_pages :=
  existing ← get_status_page_by_id seen id;
  update_status_page seen t now id locked
    (Update (Some name) (Some slug) (Some (if String.eqb description "" then None else Some description)) (Some is_public)
       (Some (Some (with_minutes (sp_config existing) (normalize_status_bar_minutes (Some status_bar_minutes))))) None).

(** A window: the one asked for, else the page's own, else 30 minutes. *)
Definition resolve_time_range (query_value : option Z) (page_config : option pydict) : Z :=
  match query_value with
  | Some q => if minutes_ok q then q else
      match dict_get (default [] page_config) "status_bar_minutes" (PInt 30) with
      | PInt m => if minutes_ok m then m else 30%Z
      | _ => 30%Z
      end
  | None =>
      match dict_get (default [] page_config) "status_bar_minutes" (PInt 30) with
      | PInt m => if minutes_ok m then m else 30%Z
      | _ => 30%Z
      end
  end.

Inductive public_view := NotFound | RedirectLogin | ShowPage (p : status_page) (time_range_minutes : Z).

Definition build_public_view (t : status_pages) (signed_in : bool) (slug : string) (time_range : option Z) : public_view :=
  match get_by_slug t slug with
  | None => NotFound
  | Some p =>
      if negb (sp_is_public p) && negb signed_in then RedirectLogin
      else ShowPage p (resolve_time_range time_range (sp_config p))
  end.

(** ** services/views/_dashboard_render.py: the runs of check cards, the bars *)

(** [types]: whether each rendered item is a check; for each check, whether it
    opens and closes a run. *)
Definition mark_check_runs (types : list bool) : list (option (bool * bool)) :=
  imap (fun index is_check =>
    if (is_check : bool) then
      Some (bool_decide (index = 0) || negb (default false (types !! (index - 1))),
            bool_decide (index = length types - 1) || negb (default false (types !! (index + 1))))
    else None) types.

Definition get_bucket_size (minutes : Z) : Z :=
  if (minutes <=? 60)%Z then 1 else if (minutes <=? 240)%Z then 5 else if (minutes <=? 480)%Z then 10 else 30.

(** A stored result as a bar reads it. *)
Record bar_result := BarResult { br_timestamp : instant; br_success : bool }.

(** [round(x)] of a time in microseconds, to whole minutes, half to even. *)
Definition nearest_minute (us : Z) : Z :=
  let q := (us / us_per_minute)%Z in let r := (us mod us_per_minute)%Z in
  if (2 * r <? us_per_minute)%Z then q
  else if (us_per_minute <? 2 * r)%Z then (q + 1)%Z
  else if Z.even q then q else (q + 1)%Z.

Definition off_minute (now : instant) (r : bar_result) (minute : Z) : Z := Z.abs (now - br_timestamp r - minute * us_per_minute).

Definition put_bar (now : instant) (minutes : Z) (bars : gmap Z bar_result) (r : bar_result) : gmap Z bar_result :=
  let nearest := nearest_minute (now - br_timestamp r) in
  if ((0 <=? nearest) && (nearest <? minutes))%Z then
    match bars !! nearest with
    | None => <[nearest := r]> bars
    | Some shown => if (off_minute now r nearest <? off_minute now shown nearest)%Z then <[nearest := r]> bars else bars
    end
  else bars.

(** The bars of one check, newest first, for a window in one-minute buckets. *)
Definition minute_bars (now : instant) (minutes : Z) (results : list bar_result) : list (option bar_result) :=
  let shown := fold_left (put_bar now minutes) results ∅ in map (fun m => shown !! m) (seqZ 0 minutes).
