(* ===== verification/StatusPagesTheorems.v ===== *)
(** * StatusPagesTheorems

    What holds of status pages: slugs are unique and fit a URL, a page keeps to its
    caps, its items are numbered by their places, a reorder loses and invents
    nothing, an edit by position falls on the item its editor saw, an anonymous
    visitor sees public pages only. *)

From S2P Require Import Prelude Py Text Url Store Checks Maintenance StatusPages.

(** ** Items and their places *)

Definition order_of (item : page_item) : option nat := match item with CheckItem _ o | GroupItem _ o => o end.
Definition numbered (items : list page_item) : Prop := forall i item, items !! i = Some item -> order_of item = Some i.

Lemma named_set_order i item : named (set_order i item) = named item.
Proof. by destruct item. Qed.
Lemma listed_set_order i item : listed_checks (set_order i item) = listed_checks item.
Proof. by destruct item. Qed.

Lemma imap_set_order {B} (f : page_item -> B) items : (forall i x, f (set_order i x) = f x) ->
  map f (reorder_items items) = map f items.
Proof.
  intros Hf. apply list_eq. intros i. unfold reorder_items.
  rewrite !list_lookup_fmap, list_lookup_imap. destruct (items !! i); cbn; [by rewrite Hf|done].
Qed.

Lemma named_reorder items : named_check_ids (reorder_items items) = named_check_ids items.
Proof. unfold named_check_ids. by rewrite imap_set_order by apply named_set_order. Qed.

Lemma length_reorder items : length (reorder_items items) = length items.
Proof. apply length_imap. Qed.

Lemma numbered_reorder items : numbered (reorder_items items).
Proof.
  intros i item. unfold reorder_items. rewrite list_lookup_imap. destruct (items !! i) as [x|]; [|done]. cbn.
  intros [= <-]. by destruct x.
Qed.

Lemma elem_of_concat_map {A B} `{EqDecision B} (f : A -> list B) l c : c ∈ concat (map f l) <-> exists x, x ∈ l /\ c ∈ f x.
Proof.
  induction l as [|x l IH]; cbn [map concat]; [split; [by intros ?%elem_of_nil|by intros (y & ?%elem_of_nil & _)]|].
  rewrite elem_of_app, IH. split.
  - intros [Hc|(y & Hy & Hc)]; [exists x|exists y]; by rewrite elem_of_cons; auto.
  - intros (y & [->|Hy]%elem_of_cons & Hc); [by left|right; by exists y].
Qed.

Lemma elem_of_named items c : c ∈ named_check_ids items <-> exists item, item ∈ items /\ c ∈ named item.
Proof. unfold named_check_ids. by rewrite elem_of_list_to_set, elem_of_concat_map. Qed.

(** ** Slugs *)

Section Slugs.
Context `{PageInput}.

(** A slug the schemas accept, and lower-cased from one. *)
Definition slug_safe (s : string) : Prop :=
  length_in 1 255 s = true /\ isalnum (bare_slug s) = true /\ exists v, isalnum (bare_slug v) = true /\ s = str_lower v.

Lemma all_of_removed (f q p : ascii -> bool) s : (forall c, f c = true -> q c = true) -> (forall c, p c = true -> q c = true) ->
  all_of p (remove_chars f s) = true -> all_of q s = true.
Proof.
  intros Hf Hp. induction s as [|c s IH]; cbn [remove_chars]; [done|]. rewrite all_of_cons.
  destruct (f c) eqn:E; [intros Hs; by rewrite (Hf c E), IH|].
  rewrite all_of_cons. intros [Hc Hs]%andb_true_iff. by rewrite (Hp c Hc), IH.
Qed.

Lemma all_of_remove (f p : ascii -> bool) s : all_of p s = true -> all_of p (remove_chars f s) = true.
Proof.
  induction s as [|c s IH]; [done|]. rewrite all_of_cons. intros [Hc Hs]%andb_true_iff. cbn [remove_chars].
  destruct (f c); [by apply IH|]. by rewrite all_of_cons, Hc, IH.
Qed.

(** The bytes of an ASCII text are its characters. *)
Lemma characters_ascii s : all_of is_ascii s = true -> characters s = map (fun c => String c "") (String.list_ascii_of_string s).
Proof.
  induction s as [|c s IH]; [done|]. rewrite all_of_cons. intros [_ Hs]%andb_true_iff. cbn [characters String.list_ascii_of_string map].
  rewrite (IH Hs). destruct s as [|d s]; [done|]. rewrite all_of_cons in Hs. apply andb_true_iff in Hs as [Hd _]. cbn.
  assert (continues d = false) as ->; [|done]. unfold is_ascii, continues in *. apply N.ltb_lt in Hd.
  by rewrite (proj2 (N.leb_gt 128 (N_of_ascii d)) Hd).
Qed.

Lemma isalnum_ascii s : all_of is_ascii s = true -> isalnum s = true -> all_of is_alnum s = true.
Proof.
  intros Ha. unfold isalnum. rewrite (characters_ascii s Ha). intros [_ Hs]%andb_true_iff. revert Ha Hs.
  induction s as [|c s IH]; [done|]. rewrite !all_of_cons. intros [Hc Ha]%andb_true_iff. cbn [String.list_ascii_of_string map forallb char_alnum].
  rewrite Hc. intros [-> Hs]%andb_true_iff. by apply IH.
Qed.

(** Of ASCII characters it holds letters, digits, hyphens and underscores only. *)
Lemma slug_safe_ascii s : slug_safe s -> all_of is_ascii s = true -> all_of slug_char s = true.
Proof.
  intros (_ & Hs & _) Ha. apply isalnum_ascii in Hs; [|by do 2 apply all_of_remove]. unfold bare_slug in Hs.
  apply (all_of_removed _ slug_char is_alnum) in Hs; unfold slug_char in *;
    [|intros c ->; by rewrite orb_true_r|by intros c ->].
  apply (all_of_removed _ slug_char slug_char) in Hs; unfold slug_char in *; [done| |done].
  intros c ->. by rewrite orb_true_r.
Qed.

Lemma validate_slug_inv v s : validate_slug v = Ok s -> length_in 1 255 v = true /\ isalnum (bare_slug v) = true /\ s = str_lower v.
Proof. unfold validate_slug. destruct (length_in 1 255 v), (isalnum (bare_slug v)); cbn; try done. by intros [= <-]. Qed.

(** What is answered with a row is written, and its slug was accepted again. *)
Lemma model_validate_inv t p t' : model_validate t p = Ok t' ->
  t' = <[sp_id p := p]> t /\ length_in 1 255 (sp_slug p) = true /\ isalnum (bare_slug (sp_slug p)) = true.
Proof.
  unfold model_validate. destruct (255 <? _)%nat; [done|]. destruct (validate_slug (sp_slug p)) as [s|] eqn:E; [|done].
  apply validate_slug_inv in E as (H1 & H2 & _). by intros [= <-].
Qed.
End Slugs.

Lemma slug_free t s : slug_taken t s = false -> forall id p, t !! id = Some p -> sp_slug p <> s.
Proof.
  unfold slug_taken, get_by_slug. intros Hs id p Hp He. apply bool_decide_eq_false in Hs. apply Hs. clear Hs.
  assert (p ∈ filter (fun p => sp_slug p = s) (rows t)) as Hin.
  { apply list_elem_of_filter. split; [done|]. apply elem_of_rows. by exists id. }
  destruct (filter _ _); [by apply elem_of_nil in Hin|done].
Qed.

(** What pydantic and the service prove of a group. *)
Definition group_ok `{PageInput} (g : page_group) : Prop :=
  (exists raw, group_name raw = Some (pg_name g))
  /\ pg_sort_by g ∈ SORT_BY /\ pg_sort_direction g ∈ SORT_DIRECTION
  /\ match pg_content g with Listed l => NoDup l /\ length l <= MAX_GROUP_CHECKS | Filtered _ => True end.

Section Pages.
Context `{PageInput}.

Definition groups_ok (items : list page_item) : Prop :=
  forall g o, GroupItem g o ∈ items -> group_ok g.

Definition within_caps (items : list page_item) : Prop :=
  length items <= MAX_ITEMS /\ size (named_check_ids items) <= MAX_PAGE_CHECKS.

Definition items_ok (items : list page_item) : Prop := numbered items /\ groups_ok items /\ within_caps items.

Lemma groups_ok_reorder items : groups_ok items -> groups_ok (reorder_items items).
Proof.
  intros Hg g o Hin. apply list_elem_of_lookup in Hin as [i Hi]. unfold reorder_items in Hi. rewrite list_lookup_imap in Hi.
  destruct (items !! i) as [x|] eqn:E; [|done]. cbn in Hi. apply list_elem_of_lookup_2 in E.
  destruct x as [c oo|g' oo]; [done|]. injection Hi as <- _. by apply (Hg g' oo).
Qed.

Lemma items_ok_reorder items : groups_ok items -> within_caps items -> items_ok (reorder_items items).
Proof.
  intros Hg [Hl Hn]. split_and!; [apply numbered_reorder|by apply groups_ok_reorder|].
  unfold within_caps. by rewrite length_reorder, named_reorder.
Qed.

(** Fewer items of the same kind. *)
Lemma named_mono l m : (forall x, x ∈ l -> x ∈ m) -> size (named_check_ids l) <= size (named_check_ids m).
Proof.
  intros Hlm. apply subseteq_size. intros c. rewrite !elem_of_named. intros (i & Hi & Hc). exists i. auto.
Qed.

Lemma items_ok_sublist items items' : items_ok items -> (forall x, x ∈ items' -> x ∈ items) -> length items' <= length items ->
  items_ok (reorder_items items').
Proof.
  intros (_ & Hg & Hl & Hn) Hs Hlen. apply items_ok_reorder; [intros g o Hin; by eapply Hg, Hs|].
  split; [lia|]. pose proof (named_mono items' items Hs). lia.
Qed.
End Pages.

(** ** The pages along a run *)

Section Runs.
Context `{PageInput}.

Inductive page_op :=
  | AdminCreate (id : uuid) (data : AdminStatusPageCreate)
  | AdminUpdate (id : uuid) (data : AdminStatusPageUpdate)
  | AdminReplace (id : uuid) (items : list StatusPageItem)
  | WebCreate (id : uuid) (name slug description : string) (is_public : bool) (minutes : Z)
  | WebUpdate (id : uuid) (name slug description : string) (is_public : bool) (minutes : Z)
  | AddCheck (id : uuid) (check_id : uuid) (order : option nat)
  | AddGroup (id : uuid) (name : string) (filter : option pydict) (order : option nat) (collapsed : bool)
  | RemoveItem (id : uuid) (index : Z)
  | MoveItem (id : uuid) (from_index to_index : Z)
  | Reorder (id : uuid) (client_items : list EditorReorderItem)
  | Rename (id : uuid) (index : Z) (name : string)
  | Filters (id : uuid) (index : Z) (filter : pydict)
  | Sort (id : uuid) (index : Z) (sort_by sort_direction : string)
  | Delete (id : uuid) (wait : bool).

Definition perform (seen t : status_pages) (d : db) (now : instant) (locked : bool) (op : page_op) : res status_pages :=
  match op with
  | AdminCreate id data => create_page seen t d now id data
  | AdminUpdate id data => update_page seen t now id locked data
  | AdminReplace id items => replace_items t d now id locked items
  | WebCreate id name slug desc pub m => web_create seen t now id name slug desc pub m
  | WebUpdate id name slug desc pub m => web_update seen t now id locked name slug desc pub m
  | AddCheck id c order => add_check_to_page t d now id locked c order
  | AddGroup id name filter order collapsed => add_group_to_page t now id locked name filter order collapsed
  | RemoveItem id i => remove_item_from_page t now id locked i
  | MoveItem id i j => reorder_item_of_page t now id locked i j
  | Reorder id entries => reorder_all_items t d now id locked entries
  | Rename id i n => rename_group t now id locked i n
  | Filters id i f => update_group_filters t now id locked i f
  | Sort id i by_ dir => update_group_sort t now id locked i by_ dir
  | Delete id wait => delete_status_page t id locked wait
  end.

(** A new page's id is new. *)
Definition fresh_for (t : status_pages) (op : page_op) : Prop :=
  match op with AdminCreate id _ | WebCreate id _ _ _ _ _ => t !! id = None | _ => True end.

(** A committed operation, at a later time than the one before; the checks, and the
    table an earlier read of the same transaction saw, are any. *)
Definition page_step (s s' : instant * status_pages) : Prop :=
  (s.1 < s'.1)%Z /\ exists seen d locked op, fresh_for s.2 op /\ perform seen s.2 d s'.1 locked op = Ok s'.2.

Record page_ok (t : status_pages) (id : uuid) (p : status_page) : Prop := {
  page_keyed : sp_id p = id;
  page_slug_safe : slug_safe (sp_slug p);
  page_slug_own : forall id' q, t !! id' = Some q -> sp_slug q = sp_slug p -> id' = id;
  page_items_fine : items_ok (sp_items p);
}.

Definition pages_ok (t : status_pages) : Prop := forall id p, t !! id = Some p -> page_ok t id p.

(** What an operation does to the table: nothing, a deletion, or one page written. *)
Inductive wrote (t : status_pages) (now : instant) (t' : status_pages) : Prop :=
  | Unwritten : t' = t -> wrote t now t'
  | Deleted id : t' = delete id t -> wrote t now t'
  | Written id p : t' = <[id := p]> t -> sp_id p = id -> sp_updated_at p = now -> slug_safe (sp_slug p) ->
      (forall id' q, t !! id' = Some q -> id' <> id -> sp_slug q <> sp_slug p) -> items_ok (sp_items p) -> wrote t now t'.

Lemma written_ok t now t' : wrote t now t' -> pages_ok t -> pages_ok t'.
Proof.
  intros [-> | id -> | id p -> Hid _ Hs Hu Hi] Ht; [done| |].
  - intros i q Hq. apply lookup_delete_Some in Hq as [Hne Hq]. destruct (Ht i q Hq) as [H1 H2 H3 H4].
    constructor; try done. intros j r Hr. apply lookup_delete_Some in Hr as [_ Hr]. by apply H3.
  - intros i q Hq. destruct (decide (i = id)) as [->|Hne].
    + rewrite lookup_insert_eq in Hq. injection Hq as <-. constructor; try done. intros j r Hr Hsl.
      destruct (decide (j = id)) as [|Hj]; [done|]. rewrite lookup_insert_ne in Hr by done. by destruct (Hu j r Hr Hj).
    + rewrite lookup_insert_ne in Hq by done. destruct (Ht i q Hq) as [H1 H2 H3 H4]. constructor; try done.
      intros j r Hr Hsl. destruct (decide (j = id)) as [->|Hj].
      * rewrite lookup_insert_eq in Hr. injection Hr as <-. by destruct (Hu i q Hq Hne).
      * rewrite lookup_insert_ne in Hr by done. by apply (H3 j r).
Qed.

(** A page read for update, and its items written back. *)
Lemma saved_written t now id p items : pages_ok t -> t !! id = Some p -> items_ok items -> wrote t now (save_items t now p items).
Proof.
  intros Ht Hp Hi. destruct (Ht id p Hp) as [Hk Hs Hu _]. unfold save_items. eapply Written; [done|done|done|done| |done].
  cbn. intros j q Hq Hj Hsl. apply Hj. rewrite Hk. by apply (Hu j q).
Qed.

Lemma for_update_inv t id locked wait p : get_status_page_for_update t id locked wait = Ok p -> t !! id = Some p.
Proof.
  unfold get_status_page_for_update, get_status_page_by_id. destruct (_ && _); [done|].
  destruct (t !! id); [by intros [= ->]|done].
Qed.

(** *** What each edit leaves *)

Lemma ok_caps items : items_ok items -> item_cap items = MAX_ITEMS /\ check_cap items = MAX_PAGE_CHECKS.
Proof. intros (_ & _ & Hl & Hn). unfold item_cap, check_cap. split; apply Nat.max_l; done. Qed.

Lemma named_snoc items x : named_check_ids (items ++ [x]) = named_check_ids items ∪ list_to_set (named x).
Proof.
  apply set_eq. intros c. rewrite elem_of_union, elem_of_list_to_set, !elem_of_named. split.
  - intros (i & [Hi| ->%list_elem_of_singleton]%elem_of_app & Hc); [left; by exists i|by right].
  - intros [(i & Hi & Hc)|Hc]; [exists i|exists x]; rewrite elem_of_app, list_elem_of_singleton; auto.
Qed.

Lemma snoc_ok items x : items_ok items -> length items < MAX_ITEMS -> (forall g o, x = GroupItem g o -> group_ok g) ->
  size (named_check_ids (items ++ [x])) <= MAX_PAGE_CHECKS -> items_ok (reorder_items (items ++ [x])).
Proof.
  intros (_ & Hg & _ & _) Hl Hx Hn. apply items_ok_reorder.
  - intros g o [Hin|Hin%list_elem_of_singleton]%elem_of_app; [by eapply Hg|by eapply Hx].
  - split; [|done]. rewrite length_app. cbn. lia.
Qed.

Lemma room_inv items : room_for_one_more items = Ok tt -> length items < MAX_ITEMS.
Proof. unfold room_for_one_more. destruct (MAX_ITEMS <=? length items)%nat eqn:E; [done|]. intros _. by apply Nat.leb_gt. Qed.

Lemma position_inv items index i : position items index = Some i -> i < length items.
Proof. unfold position. destruct (_ && _)%Z eqn:E; [|done]. intros [= <-]. lia. Qed.

Lemma remove_ok items index : items_ok items -> items_ok (remove_item items index).
Proof.
  intros Hi. unfold remove_item. destruct (position items index) as [i|]; [|done]. apply (items_ok_sublist items); [done| |].
  - intros x Hx. by eapply elem_of_sublist, sublist_delete.
  - apply sublist_length, sublist_delete.
Qed.

Lemma insert_at_perm i x items : insert_at i x items ≡ₚ x :: items.
Proof.
  unfold insert_at. rewrite <- (take_drop i items) at 3. symmetry. apply Permutation_middle.
Qed.

Lemma delete_perm items i (x : page_item) : items !! i = Some x -> x :: delete i items ≡ₚ items.
Proof. intros Hi. symmetry. by apply delete_Permutation. Qed.

Lemma move_perm items from_index to_index : exists l, reorder_item items from_index to_index = reorder_items l /\ l ≡ₚ items
  \/ reorder_item items from_index to_index = items.
Proof.
  unfold reorder_item. destruct (position items from_index) as [i|]; [|by exists []; right].
  destruct (position items to_index) as [j|]; [|by exists []; right].
  destruct (items !! i) as [x|] eqn:E; [|by exists []; right]. eexists. left. split; [done|].
  rewrite insert_at_perm. by apply delete_perm.
Qed.

Lemma move_ok items from_index to_index : items_ok items -> items_ok (reorder_item items from_index to_index).
Proof.
  intros Hi. destruct (move_perm items from_index to_index) as (l & [[-> Hl]| ->]); [|done].
  apply (items_ok_sublist items); [done| |by rewrite Hl]. intros x. by rewrite Hl.
Qed.

Lemma update_group_inv items index f items' : update_group items index f = Some items' ->
  exists i g o g', items !! i = Some (GroupItem g o) /\ f g = Some g' /\ items' = <[i := GroupItem g' o]> items.
Proof.
  unfold update_group. destruct (position items index) as [i|]; [|done]. cbn.
  destruct (items !! i) as [[c o|g o]|] eqn:E; try done. destruct (f g) as [g'|] eqn:Ef; [|done]. cbn. intros [= <-].
  exists i, g, o, g'. auto.
Qed.

Lemma update_group_ok items index f items' : (forall g g', group_ok g -> f g = Some g' -> group_ok g' /\
    match pg_content g' with Listed l => pg_content g = Listed l | Filtered _ => True end) ->
  items_ok items -> update_group items index f = Some items' -> items_ok items'.
Proof.
  intros Hf (Ho & Hg & Hl & Hn) (i & g & o & g' & Ei & Eg & ->)%update_group_inv.
  destruct (Hf g g') as [Hg' Hc]; [by eapply Hg, list_elem_of_lookup_2|done|].
  split_and!; [| |split].
  - intros j x Hx. destruct (decide (i = j)) as [<-|Hne].
    + rewrite list_lookup_insert_eq in Hx by (by eapply lookup_lt_Some). injection Hx as <-. by apply (Ho i (GroupItem g o)).
    + rewrite list_lookup_insert_ne in Hx by done. by apply Ho.
  - intros h ho Hin. apply list_elem_of_lookup in Hin as [j Hj]. destruct (decide (i = j)) as [<-|Hne].
    + rewrite list_lookup_insert_eq in Hj by (by eapply lookup_lt_Some). by injection Hj as <- <-.
    + rewrite list_lookup_insert_ne in Hj by done. by eapply Hg, list_elem_of_lookup_2.
  - by rewrite length_insert.
  - etransitivity; [|exact Hn]. apply subseteq_size. intros c. rewrite !elem_of_named. intros (x & Hx & Hcx).
    apply list_elem_of_lookup in Hx as [j Hj]. destruct (decide (i = j)) as [<-|Hne].
    + rewrite list_lookup_insert_eq in Hj by (by eapply lookup_lt_Some). injection Hj as <-. cbn in Hcx.
      exists (GroupItem g o). split; [by eapply list_elem_of_lookup_2|]. cbn.
      destruct (pg_content g') as [l|]; [by rewrite Hc|by apply elem_of_nil in Hcx].
    + rewrite list_lookup_insert_ne in Hj by done. exists x. split; [by eapply list_elem_of_lookup_2|done].
Qed.

(** *** The reorder *)

(** A group, what it lists left out. *)
Definition group_frame (item : page_item) : option page_group :=
  match item with
  | CheckItem _ _ => None
  | GroupItem g _ => Some (Group (pg_name g) (pg_collapsed g) (pg_sort_by g) (pg_sort_direction g)
                            (match pg_content g with Listed _ => Listed [] | Filtered f => Filtered f end))
  end.
Definition frame_at (stored : list page_item) (i : nat) : option page_group := stored !! i ≫= group_frame.

(** One entry's item: a check dragged out, or the stored item, its list at most
    replaced. *)
Lemma placed_item_inv stored e item : placed_item stored e = Ok item ->
  (er_old_index e = None /\ exists c, item = Some (CheckItem c None))
  \/ exists i, er_old_index e = Some i /\ match stored !! i with
       | None => item = None
       | Some (CheckItem c o) => item = Some (CheckItem c o)
       | Some (GroupItem g o) => exists content, item = Some (GroupItem
             (Group (pg_name g) (pg_collapsed g) (pg_sort_by g) (pg_sort_direction g) content) o)
           /\ match pg_content g with
              | Filtered f => content = Filtered f
              | Listed l => content = Listed l \/ content = Listed (first_seen (default [] (er_checks e)))
              end
       end.
Proof.
  unfold placed_item. destruct (er_old_index e) as [i|].
  - intros [= <-]. right. exists i. split; [done|]. destruct (stored !! i) as [[c o|g o]|]; try done.
    destruct (pg_content g) as [l|f] eqn:E.
    + destruct (er_group e); [by eexists; split; [|right]|]. exists (Listed l). split; [|by left]. rewrite <- E. by destruct g.
    + exists (Filtered f). split; [|done]. rewrite <- E. by destruct g.
  - destruct (uuid_of _) as [c|]; [|done]. intros [= <-]. left. eauto.
Qed.

Lemma placed_items_frames stored entries items : placed_items stored entries = Ok items ->
  omap group_frame items = omap (frame_at stored) (omap er_old_index entries).
Proof.
  revert items. induction entries as [|e entries IH]; intros items; cbn [placed_items]; [by intros [= <-]|].
  destruct (placed_item stored e) as [item|] eqn:Ei; [|done]. cbn [mbind res_bind].
  destruct (placed_items stored entries) as [rest|]; [|done]. cbn [mbind res_bind]. intros [= <-]. cbn [omap list_omap].
  apply placed_item_inv in Ei as [(-> & c & ->)|(i & -> & Hi)]; [cbn; by apply IH|].
  cbn [omap list_omap]. unfold frame_at at 1. destruct (stored !! i) as [[c o|g o]|] eqn:Es.
  - subst item. cbn. by apply IH.
  - destruct Hi as (content & -> & Hc). cbn. rewrite (IH rest eq_refl). f_equal. f_equal.
    destruct (pg_content g) as [l|f]; [by destruct Hc as [-> | ->]|by subst].
  - subst item. cbn. by apply IH.
Qed.

Lemma placed_items_elem stored entries items x : placed_items stored entries = Ok items -> x ∈ items ->
  exists e, e ∈ entries /\ placed_item stored e = Ok (Some x).
Proof.
  revert items. induction entries as [|e entries IH]; intros items; cbn [placed_items]; [intros [= <-] ?%elem_of_nil; done|].
  destruct (placed_item stored e) as [item|] eqn:Ei; [|done]. cbn [mbind res_bind].
  destruct (placed_items stored entries) as [rest|]; [|done]. cbn [mbind res_bind]. intros [= <-] Hx.
  assert (item = Some x \/ x ∈ rest) as [->|Hr].
  { destruct item as [y|]; [|by right]. apply elem_of_cons in Hx as [->|Hx]; auto. }
  - exists e. split; [left|done].
  - destruct (IH rest eq_refl Hr) as (e' & He' & Hp). exists e'. split; [by right|done].
Qed.

Lemma placed_items_has stored entries items e x : placed_items stored entries = Ok items -> e ∈ entries ->
  placed_item stored e = Ok (Some x) -> x ∈ items.
Proof.
  revert items. induction entries as [|y entries IH]; intros items; cbn [placed_items]; [intros _ ?%elem_of_nil; done|].
  destruct (placed_item stored y) as [item|] eqn:Ei; [|done]. cbn [mbind res_bind].
  destruct (placed_items stored entries) as [rest|]; [|done]. cbn [mbind res_bind]. intros [= <-] [->|Hin]%elem_of_cons Hp.
  - rewrite Ei in Hp. injection Hp as ->. left.
  - specialize (IH rest eq_refl Hin Hp). destruct item; [by right|done].
Qed.

Lemma placed_items_length stored entries items : placed_items stored entries = Ok items -> length items <= length entries.
Proof.
  revert items. induction entries as [|e entries IH]; intros items; cbn [placed_items]; [by intros [= <-]|].
  destruct (placed_item stored e) as [item|]; [|done]. cbn [mbind res_bind].
  destruct (placed_items stored entries) as [rest|]; [|done]. cbn [mbind res_bind]. intros [= <-].
  specialize (IH rest eq_refl). destruct item; cbn; lia.
Qed.

Lemma omap_filter_some {A B} (f : A -> option B) (l : list A) : omap f l = omap f (filter (fun x => is_Some (f x)) l).
Proof.
  induction l as [|x l IH]; [done|]. rewrite filter_cons. cbn. destruct (f x) eqn:E.
  - rewrite decide_True by done. cbn. rewrite E. by f_equal.
  - rewrite decide_False by (by intros []). done.
Qed.

(** Indexes once each, among them all that name a group, read the groups. *)
Lemma frames_perm stored placed : NoDup placed -> (forall i, is_Some (frame_at stored i) -> i ∈ placed) ->
  omap (frame_at stored) placed ≡ₚ omap group_frame stored.
Proof.
  intros Hnd Hall.
  assert (omap group_frame stored = omap (frame_at stored) (seq 0 (length stored))) as ->.
  { clear. unfold frame_at. induction stored as [|x stored IH] using rev_ind; [done|].
    rewrite length_app, Nat.add_1_r, seq_S, !omap_app, IH. cbn [omap list_omap]. f_equal.
    - apply list_omap_ext, Forall2_same_length_lookup_2; [done|]. intros i j k Hj Hk. rewrite Hj in Hk. injection Hk as <-.
      apply list_elem_of_lookup_2, elem_of_seq in Hj. by rewrite lookup_app_l by lia.
    - by rewrite Nat.add_0_l, lookup_app_r, Nat.sub_diag by lia. }
  rewrite (omap_filter_some _ placed), (omap_filter_some _ (seq _ _)).
  apply (omap_Permutation (frame_at stored)), NoDup_Permutation; [by apply NoDup_filter|apply NoDup_filter, NoDup_seq|].
  intros i. rewrite !list_elem_of_filter. split; intros [Hi Hin]; (split; [done|]); [|by apply Hall].
  apply elem_of_seq. destruct Hi as [g Hg]. unfold frame_at in Hg. apply bind_Some in Hg as (x & Hx & _).
  apply lookup_lt_Some in Hx. lia.
Qed.

Definition check_exists (d : db) (c : uuid) : Prop := c ∈ map ck_id (rows (db_checks d)).

Lemma elem_of_existing d ids c : c ∈ existing d ids <-> c ∈ ids /\ check_exists d c.
Proof.
  unfold existing, check_exists, get_checks_by_ids. rewrite elem_of_list_to_set, !list_elem_of_fmap. split.
  - intros (x & -> & [Hx Hr]%list_elem_of_filter). split; [by apply elem_of_elements|by exists x].
  - intros (Hc & x & -> & Hx). exists x. split; [done|]. apply list_elem_of_filter. split; [by apply elem_of_elements|done].
Qed.

(** The guards of a reorder that went through. *)
Lemma reordered_inv d stored entries items : reordered_items d stored entries = Ok items ->
  exists new, placed_items stored entries = Ok new /\ items = reorder_items new /\ NoDup (omap er_old_index entries)
  /\ length entries <= item_cap stored /\ size (named_check_ids new) <= check_cap stored
  /\ (forall i x, stored !! i = Some x -> i ∈ omap er_old_index entries \/
        exists c o, x = CheckItem c o /\ c ∈ concat (map listed_checks new))
  /\ (forall c, c ∈ named_check_ids new -> c ∈ named_check_ids stored \/ check_exists d c)
  /\ (forall c, c ∈ named_check_ids stored -> check_exists d c -> c ∈ named_check_ids new).
Proof.
  unfold reordered_items. cbn zeta. destruct (item_cap stored <? length entries)%nat eqn:El; [done|].
  case_bool_decide as Hnd; cbn [negb]; [|done].
  destruct (placed_items stored entries) as [new|]; [|done]. cbn [mbind res_bind].
  destruct (check_cap stored <? size (named_check_ids new))%nat eqn:Ec; [done|].
  destruct (existsb id _) eqn:Ex; [done|].
  case_bool_decide as Hnew; cbn [negb]; [|done]. case_bool_decide as Hlost; cbn [negb]; [|done]. intros [= <-].
  exists new. split_and!; try done; [by apply Nat.ltb_ge|by apply Nat.ltb_ge| | |].
  - intros i x Hx. destruct (decide (i ∈ omap er_old_index entries)) as [|Hi]; [by left|right].
    assert (left_out (omap er_old_index entries) (list_to_set (concat (map listed_checks new))) i x = false) as Hl.
    { apply not_true_is_false. intros Ht. apply not_true_iff_false in Ex. apply Ex, existsb_exists. exists true. split; [|done].
      apply list_elem_of_In, list_elem_of_lookup. exists i. rewrite list_lookup_imap, Hx. cbn. by rewrite Ht. }
    unfold left_out in Hl. rewrite bool_decide_eq_false_2 in Hl by done. cbn [negb andb] in Hl. destruct x as [c o|g o]; [|done].
    exists c, o. split; [done|]. case_bool_decide as Hg; [|done]. by apply elem_of_list_to_set in Hg.
  - intros c Hc. destruct (decide (c ∈ named_check_ids stored)) as [|Hn]; [by left|right].
    destruct (decide (c ∈ existing d ((named_check_ids new ∖ named_check_ids stored) ∪ (named_check_ids stored ∖ named_check_ids new))))
      as [He%elem_of_existing|He]; [tauto|].
    exfalso. apply (not_elem_of_empty (C := gset uuid) c). rewrite <- Hnew. apply elem_of_difference. split; [|done].
    by apply elem_of_difference.
  - intros c Hc He. destruct (decide (c ∈ named_check_ids new)) as [|Hn]; [done|exfalso].
    apply (not_elem_of_empty (C := gset uuid) c). rewrite <- Hlost.
    assert (c ∈ named_check_ids stored ∖ named_check_ids new) as Hd by (by apply elem_of_difference).
    apply elem_of_intersection. split; [done|]. apply elem_of_existing. split; [|done]. apply elem_of_union. by right.
Qed.

(** A reorder moves items and checks and does nothing else: every group is there
    once, with its name, its sort and its filter; every check that exists and that
    the page named is still named, as an item of its own or in a group; and no check
    comes in that does not exist. *)
Theorem reorder_keeps_everything d stored entries items : reordered_items d stored entries = Ok items ->
  omap group_frame items ≡ₚ omap group_frame stored
  /\ (forall c, c ∈ named_check_ids stored -> check_exists d c -> c ∈ named_check_ids items)
  /\ (forall c, c ∈ named_check_ids items -> c ∈ named_check_ids stored \/ check_exists d c)
  /\ (forall c o, CheckItem c o ∈ stored -> (exists o', CheckItem c o' ∈ items) \/ c ∈ concat (map listed_checks items)).
Proof.
  intros (new & Hp & -> & Hnd & _ & _ & Hout & Hin & Hkeep)%reordered_inv.
  rewrite named_reorder. rewrite (imap_set_order listed_checks) by apply listed_set_order. split_and!; [|done|done|].
  - assert (omap group_frame (reorder_items new) = omap group_frame new) as ->.
    { unfold reorder_items. apply list_omap_ext, Forall2_same_length_lookup_2; [apply length_imap|]. intros i x y.
      rewrite list_lookup_imap. intros Hx Hy. rewrite Hy in Hx. injection Hx as <-. by destruct y. }
    rewrite (placed_items_frames stored entries new Hp). apply frames_perm; [done|].
    intros i [g Hg]. unfold frame_at in Hg. apply bind_Some in Hg as (x & Hx & Hg).
    destruct (Hout i x Hx) as [|(c & o & -> & _)]; done.
  - intros c o Hc. apply list_elem_of_lookup in Hc as [i Hi]. destruct (Hout i _ Hi) as [Hpl|(c' & o' & [= <- _] & Hg)]; [left|by right].
    apply list_elem_of_omap in Hpl as (e & He & Hei).
    assert (CheckItem c o ∈ new) as Hn.
    { eapply placed_items_has; [done|done|]. unfold placed_item. by rewrite Hei, Hi. }
    apply list_elem_of_lookup in Hn as [j Hj]. exists (Some j). apply list_elem_of_lookup. exists j.
    unfold reorder_items. by rewrite list_lookup_imap, Hj.
Qed.

Lemma editor_checks e : editor_item_ok e = true -> length (first_seen (default [] (er_checks e))) <= MAX_GROUP_CHECKS.
Proof.
  unfold editor_item_ok. intros [[H1 _]%andb_true_iff _]%andb_true_iff. pose proof (length_first_seen (default [] (er_checks e))) as Hf.
  destruct (er_checks e) as [l|]; cbn in *; [apply Nat.leb_le in H1; lia|lia].
Qed.

Lemma reordered_ok d stored entries items : items_ok stored -> forallb editor_item_ok entries = true ->
  reordered_items d stored entries = Ok items -> items_ok items.
Proof.
  intros Hs He (new & Hp & -> & _ & Hl & Hn & _)%reordered_inv. destruct (ok_caps stored Hs) as [E1 E2]. rewrite E1 in Hl. rewrite E2 in Hn.
  apply items_ok_reorder; [|split; [|done]; apply placed_items_length in Hp; lia].
  intros g o Hg. destruct (placed_items_elem stored entries new _ Hp Hg) as (e & Hin & Hi).
  assert (editor_item_ok e = true) as Hok by (rewrite forallb_forall in He; by apply He, list_elem_of_In).
  apply editor_checks in Hok. destruct Hs as (_ & Hs & _).
  apply placed_item_inv in Hi as [(_ & c & [=])|(i & _ & Hi)].
  destruct (stored !! i) as [[c oo|h oo]|] eqn:Ei; [done| |done]. destruct Hi as (content & [= -> _] & Hc).
  destruct (Hs h oo) as (H1 & H2 & H3 & H4); [by eapply list_elem_of_lookup_2|]. split_and!; try done. cbn.
  destruct (pg_content h) as [l|f]; [|by subst]. destruct Hc as [-> | ->]; [done|]. split; [apply NoDup_first_seen|done].
Qed.

(** *** Every operation *)

Lemma created_written seen t now id name slug description pub config items t' : pages_ok t -> t !! id = None ->
  items_ok items -> create_status_page seen t now id name slug description pub config items = Ok t' -> wrote t now t'.
Proof.
  intros Ht Hid Hi. unfold create_status_page. destruct (validate_slug slug) as [s|] eqn:Es; [|done]. cbn [mbind res_bind].
  destruct (negb _); [done|]. destruct (slug_taken seen s); [done|]. destruct (slug_taken t s) eqn:Et; [done|].
  intros (-> & H1 & H2)%model_validate_inv. apply validate_slug_inv in Es as (_ & Hv & Es).
  eapply Written; [done|done|done|split_and!; [done|done|by exists slug]| |done]. cbn. intros j q Hq _. by eapply slug_free.
Qed.

Lemma updated_written seen t now id locked u t' : pages_ok t -> (forall items, pu_items u = Some items -> items_ok items) ->
  update_status_page seen t now id locked u = Ok t' -> wrote t now t'.
Proof.
  intros Ht Hi. unfold update_status_page.
  destruct (match pu_slug u with Some s => s' ← validate_slug s; Ok (Some s') | None => Ok None end) as [slug|] eqn:Es; [|done].
  cbn [mbind res_bind]. destruct (negb _); [done|]. cbn zeta.
  destruct (get_status_page_for_update t id locked false) as [p|] eqn:Ep; [|done]. cbn [mbind res_bind].
  apply for_update_inv in Ep. destruct (Ht id p Ep) as [Hk Hs Hu Hf].
  destruct slug as [s|].
  - assert (exists v, isalnum (bare_slug v) = true /\ s = str_lower v) as Hsafe.
    { destruct (pu_slug u) as [s0|]; [|done]. destruct (validate_slug s0) as [s1|] eqn:E1; [|done]. injection Es as <-.
      apply validate_slug_inv in E1 as (_ & ? & ?). by exists s0. }
    destruct (String.eqb_spec s (sp_slug p)) as [->|Hne].
    + intros (-> & H1 & H2)%model_validate_inv. eapply (Written _ _ _ id); [by cbn; rewrite Hk|done|done|by split_and!| |]; cbn.
      * intros j q Hq Hj Hsl. apply Hj. by eapply Hu.
      * destruct (pu_items u) eqn:E; cbn; auto.
    + destruct (slug_taken seen s); [done|]. destruct (slug_taken t s) eqn:Et; [done|].
      intros (-> & H1 & H2)%model_validate_inv. eapply (Written _ _ _ id); [by cbn; rewrite Hk|done|done|by split_and!| |]; cbn.
      * intros j q Hq _. by eapply slug_free.
      * destruct (pu_items u) eqn:E; cbn; auto.
  - intros (-> & _ & _)%model_validate_inv. eapply (Written _ _ _ id); [by cbn; rewrite Hk|done|done|done| |]; cbn.
    + intros j q Hq Hj Hsl. apply Hj. by eapply Hu.
    + destruct (pu_items u) eqn:E; cbn; auto.
Qed.

Lemma stored_items_ok items : forallb page_item_ok items = true -> length items <= MAX_ITEMS ->
  size (named_check_ids (stored_items items)) <= MAX_PAGE_CHECKS -> items_ok (stored_items items).
Proof.
  intros Hok Hl Hn. split_and!; [| |split; [unfold stored_items; by rewrite length_imap|done]].
  - intros i x. unfold stored_items. rewrite list_lookup_imap. destruct (items !! i) as [y|]; [|done]. cbn. intros [= <-]. by destruct y.
  - intros g o Hg. apply list_elem_of_lookup in Hg as [i Hi]. unfold stored_items in Hi. rewrite list_lookup_imap in Hi.
    destruct (items !! i) as [y|] eqn:Ey; [|done]. cbn in Hi. apply list_elem_of_lookup_2 in Ey.
    rewrite forallb_forall in Hok. apply list_elem_of_In, Hok in Ey. destruct y as [c|name col sb sd content]; [done|].
    cbn in Ey. apply andb_true_iff in Ey as [[[H1 H2]%andb_true_iff H3]%andb_true_iff H4].
    apply bool_decide_eq_true in H1, H2, H3. injection Hi as <- _. split_and!; cbn; try done.
    + exists name. by destruct (group_name name).
    + destruct content as [l|f]; [|done]. split; [apply NoDup_first_seen|]. pose proof (length_first_seen l). apply Nat.leb_le in H4. lia.
Qed.

Lemma stored_named items c : c ∈ named_check_ids (stored_items items) <-> c ∈ request_check_ids items.
Proof.
  unfold request_check_ids. rewrite elem_of_first_seen, elem_of_concat_map, elem_of_named. split.
  - intros (x & Hx & Hc). apply list_elem_of_lookup in Hx as [i Hi]. unfold stored_items in Hi. rewrite list_lookup_imap in Hi.
    destruct (items !! i) as [y|] eqn:Ey; [|done]. apply list_elem_of_lookup_2 in Ey. exists y. split; [done|].
    cbn in Hi. destruct y as [c'|n co sb sd [l|f]]; injection Hi as <-; cbn [named listed_checks pg_content] in Hc; [done| |done].
    by rewrite elem_of_first_seen in Hc.
  - intros (y & Hy & Hc). apply list_elem_of_lookup in Hy as [i Hi]. exists (stored_item i y). split.
    + apply list_elem_of_lookup. exists i. unfold stored_items. by rewrite list_lookup_imap, Hi.
    + destruct y as [c'|n co sb sd [l|f]]; cbn [stored_item named listed_checks pg_content]; [done| |done]. by rewrite elem_of_first_seen.
Qed.

Lemma size_stored_named items : size (named_check_ids (stored_items items)) <= length (request_check_ids items).
Proof.
  rewrite <- (size_list_to_set (C := gset uuid) (request_check_ids items)) by apply NoDup_first_seen.
  apply subseteq_size. intros c Hc. by apply elem_of_list_to_set, stored_named.
Qed.

(** The steps of an operation that edits a page's items. *)
Ltac read_page Ht :=
  match goal with |- context [get_status_page_for_update ?t ?id ?l ?w] =>
    let p := fresh "p" in let Ep := fresh "Ep" in
    destruct (get_status_page_for_update t id l w) as [p|] eqn:Ep; [|done]; cbn [mbind res_bind]; apply for_update_inv in Ep;
    pose proof (page_items_fine _ _ _ (Ht _ _ Ep))
  end.

Lemma add_check_written t d now id locked c order t' : pages_ok t ->
  add_check_to_page t d now id locked c order = Ok t' -> wrote t now t'.
Proof.
  intros Ht. unfold add_check_to_page. read_page Ht. cbn zeta. case_bool_decide; [done|].
  destruct (room_for_one_more (sp_items p)) as [[]|] eqn:Er; [|done]. cbn [mbind res_bind].
  destruct (MAX_PAGE_CHECKS <? _)%nat eqn:El; [done|]. destruct (get_checks_by_ids d [c]); [done|]. intros [= <-].
  apply (saved_written t now id); [done|done|]. apply snoc_ok; [done|by apply room_inv|done|].
  rewrite named_snoc. cbn [named]. apply Nat.ltb_ge in El. etransitivity; [|exact El]. apply subseteq_size.
  intros x. rewrite !elem_of_union, elem_of_list_to_set, list_elem_of_singleton, elem_of_singleton. tauto.
Qed.

Lemma add_group_written t now id locked name filter order collapsed t' : pages_ok t ->
  add_group_to_page t now id locked name filter order collapsed = Ok t' -> wrote t now t'.
Proof.
  intros Ht. unfold add_group_to_page, group_name_valid. destruct (group_name name) as [n|] eqn:En; [|done]. cbn [mbind res_bind].
  destruct (match filter with Some f => g ← stored_filter f; Ok (Some g) | None => Ok None end) as [f|]; [|done]. cbn [mbind res_bind].
  read_page Ht. destruct (room_for_one_more (sp_items p)) as [[]|] eqn:Er; [|done]. cbn [mbind res_bind]. intros [= <-].
  apply (saved_written t now id); [done|done|]. apply snoc_ok; [done|by apply room_inv| |].
  - intros g o [= <- _]. split_and!; cbn; [by exists name|by left|by left|]. destruct f; [done|]. split; [constructor|cbn; lia].
  - rewrite named_snoc. destruct H0 as (_ & _ & _ & Hn). etransitivity; [|exact Hn]. apply subseteq_size. intros x.
    rewrite elem_of_union, elem_of_list_to_set. intros [|Hx]; [done|]. destruct f; by apply elem_of_nil in Hx.
Qed.

Lemma change_written t now id locked index f t' : pages_ok t ->
  (forall g g', group_ok g -> f g = Some g' -> group_ok g' /\
    match pg_content g' with Listed l => pg_content g = Listed l | Filtered _ => True end) ->
  change_group t now id locked index f = Ok t' -> wrote t now t'.
Proof.
  intros Ht Hf. unfold change_group. read_page Ht. destruct (update_group _ _ _) as [items|] eqn:E; intros [= <-]; [|by apply Unwritten].
  apply (saved_written t now id); [done|done|]. by apply (update_group_ok (sp_items p) index f).
Qed.

Lemma sort_written t now id locked index a b t' : pages_ok t -> update_group_sort t now id locked index a b = Ok t' -> wrote t now t'.
Proof.
  intros Ht. unfold update_group_sort. destruct (negb _) eqn:E; [done|]. apply negb_false_iff, andb_true_iff in E as [E1 E2].
  apply bool_decide_eq_true in E1, E2. read_page Ht. intros [= <-]. apply (saved_written t now id); [done|done|].
  destruct (update_group _ _ _) as [items|] eqn:E; cbn; [|done]. revert E. apply update_group_ok; [|done].
  intros g g' (H1 & _ & _ & H4) [= <-]. split; [split_and!; done|]. cbn. by destruct (pg_content g).
Qed.

Lemma replaced_written t d now id locked data t' : pages_ok t -> replace_items t d now id locked data = Ok t' -> wrote t now t'.
Proof.
  intros Ht. unfold replace_items. destruct (forallb page_item_ok data) eqn:Hok; [|done]. cbn [negb]. read_page Ht. cbn zeta.
  destruct (require_within_caps (stored_items data) (sp_items p)) as [|] eqn:Ec; [|done].
  destruct (require_references d data); [|done]. cbn [mbind res_bind]. apply updated_written; [done|]. intros items [= <-].
  unfold require_within_caps in Ec. destruct (ok_caps _ H0) as [C1 C2]. rewrite C1, C2 in Ec.
  destruct (MAX_ITEMS <? _)%nat eqn:E1 in Ec; [done|]. destruct (MAX_PAGE_CHECKS <? _)%nat eqn:E2 in Ec; [done|].
  apply Nat.ltb_ge in E1, E2. apply stored_items_ok; [done| |done]. unfold stored_items in E1. by rewrite length_imap in E1.
Qed.

Lemma perform_written seen t d now locked op t' : pages_ok t -> fresh_for t op ->
  perform seen t d now locked op = Ok t' -> wrote t now t'.
Proof.
  intros Ht Hf. destruct op as [id data|id data|id items|id n s de pu m|id n s de pu m|id c o|id n f o co|id i|id i j|id es|id i n|id i f|id i a b|id w];
    cbn [perform].
  - unfold create_page. destruct (admin_slug _) as [s|]; [|done]. cbn [mbind res_bind].
    destruct (negb _) eqn:E; [done|]. apply negb_false_iff, andb_true_iff in E as [[[E1 E2]%andb_true_iff E3]%andb_true_iff _].
    destruct (require_references _ _); [|done]. cbn [mbind res_bind]. apply created_written; [done|done|].
    apply stored_items_ok; [done|by apply Nat.leb_le|]. apply Nat.leb_le in E3. pose proof (size_stored_named (ac_items data)). lia.
  - unfold update_page. destruct (match au_slug data with Some s => _ | None => _ end) as [s|]; [|done]. cbn [mbind res_bind].
    destruct (negb _); [done|]. destruct (match au_status_bar_minutes data with Some _ => _ | None => _ end); [|done].
    cbn [mbind res_bind]. by apply updated_written.
  - by apply replaced_written.
  - unfold web_create. apply created_written; [done|done|].
    split_and!; [by intros [|?] ?|by intros g o ?%elem_of_nil|split; [cbn; unfold MAX_ITEMS; lia|]].
    transitivity 0; [|lia]. done.
  - unfold web_update. destruct (get_status_page_by_id seen id); [|done]. cbn [mbind res_bind]. by apply updated_written.
  - by apply add_check_written.
  - by apply add_group_written.
  - unfold remove_item_from_page. read_page Ht. intros [= <-]. apply (saved_written t now id); [done|done|]. by apply remove_ok.
  - unfold reorder_item_of_page. read_page Ht. intros [= <-]. apply (saved_written t now id); [done|done|]. by apply move_ok.
  - unfold reorder_all_items. destruct (forallb _ _) eqn:E; [|done]. cbn [negb]. read_page Ht.
    destruct (reordered_items _ _ _) as [items|] eqn:Er; [|done]. cbn [mbind res_bind]. intros [= <-].
    apply (saved_written t now id); [done|done|]. by eapply reordered_ok.
  - unfold rename_group, group_name_valid. destruct (group_name n) as [n'|] eqn:En; [|done]. cbn [mbind res_bind]. apply change_written; [done|].
    intros g g' (_ & H2 & H3 & H4) [= <-]. split; [split_and!; cbn; eauto|]. cbn. by destruct (pg_content g).
  - unfold update_group_filters. destruct (stored_filter f) as [f'|]; [|done]. cbn [mbind res_bind]. apply change_written; [done|].
    intros g g' (H1 & H2 & H3 & _). destruct (pg_content g); [done|]. intros [= <-]. split; [split_and!; done|done].
  - by apply sort_written.
  - unfold delete_status_page. destruct (get_status_page_for_update _ _ _ _); [|done]. cbn [mbind res_bind]. intros [= <-]. by eapply Deleted.
Qed.

(** C26: Whatever the web editor and the admin API do, in any order and racing on
    slugs: every page keeps a slug of its own, of 1 to 255 characters, lower-cased from
    one the schema accepts and accepted itself, which is letters and digits of any
    alphabet, hyphens and underscores, and where all its characters are ASCII those of
    ASCII alone; it numbers its items by their places, holds no more items and names no
    more checks than the caps allow, and has only groups whose name, sort and list the
    schemas accept. *)
Theorem status_pages_hold s s' : star page_step s s' -> pages_ok s.2 ->
  pages_ok s'.2
  /\ forall id p, s'.2 !! id = Some p -> all_of is_ascii (sp_slug p) = true -> all_of slug_char (sp_slug p) = true.
Proof.
  intros Hs Hp. assert (pages_ok s'.2) as Hp'.
  { apply (star_invariant page_step (fun s => pages_ok s.2) s s'); [|done|done].
    intros x y (_ & seen & d & locked & op & Hf & Hop) Hx. eapply written_ok; [|done]. by eapply perform_written. }
  split; [done|]. intros id p Hid. apply slug_safe_ascii. by destruct (Hp' id p Hid).
Qed.

(** *** Edits by position *)

(** A page's version is never from the future, and moves with every write. *)
Definition past (s : instant * status_pages) : Prop := pages_ok s.2 /\ forall id p, s.2 !! id = Some p -> (sp_updated_at p <= s.1)%Z.

Lemma past_step s s' : page_step s s' -> past s -> past s'.
Proof.
  intros (Hc & seen & d & locked & op & Hf & Hp) [Hok Hu]. pose proof (perform_written _ _ _ _ _ _ _ Hok Hf Hp) as Hw.
  split; [by eapply written_ok|]. intros id p Hid. destruct Hw as [E|i E|i q E Hi Hq _ _ _]; rewrite E in Hid.
  - specialize (Hu id p Hid). lia.
  - apply lookup_delete_Some in Hid as [_ Hid]. specialize (Hu id p Hid). lia.
  - destruct (decide (i = id)) as [->|Hne]; [rewrite lookup_insert_eq in Hid; injection Hid as <-; lia|].
    rewrite lookup_insert_ne in Hid by done. specialize (Hu id p Hid). lia.
Qed.

(** Since a page was read it is as it was, or its version is later, or it is gone
    and whatever comes in its place is later. *)
Definition not_later (u : instant) (id : uuid) (p : status_page) (s : instant * status_pages) : Prop :=
  past s /\ (u <= s.1)%Z /\ (s.2 !! id = Some p \/ forall q, s.2 !! id = Some q -> (u < sp_updated_at q)%Z).

Lemma not_later_step u id p s s' : page_step s s' -> not_later u id p s -> not_later u id p s'.
Proof.
  intros Hstep (Hpast & Hu & Hor). pose proof (past_step _ _ Hstep Hpast) as Hpast'. split; [done|].
  destruct Hstep as (Hc & seen & d & locked & op & Hf & Hp). split; [lia|]. destruct Hpast as [Hok _].
  pose proof (perform_written _ _ _ _ _ _ _ Hok Hf Hp) as [->|i ->|i q -> Hi Hq _ _ _]; [done| |].
  - destruct (decide (i = id)) as [->|Hne]; [right; intros q; by rewrite lookup_delete_eq|by rewrite lookup_delete_ne].
  - destruct (decide (i = id)) as [->|Hne]; [right; intros r; rewrite lookup_insert_eq; intros [= <-]; lia|by rewrite lookup_insert_ne].
Qed.

(** C27: An edit that names an item by its place is applied to the page its editor
    drew: when its version passes the check, whatever was written in between (each
    write stamped later than the one before), the page is, item by item, the one that version was read from. *)
Theorem drawn_page_unchanged s s' id p locked : past s -> s.2 !! id = Some p -> star page_step s s' ->
  require_drawn_version s'.2 id locked (Some (sp_updated_at p)) = Ok tt -> s'.2 !! id = Some p.
Proof.
  intros Hs Hp Hr. assert (not_later s.1 id p s') as (_ & _ & Hor).
  { apply (star_invariant page_step (not_later s.1 id p) s s'); [by apply not_later_step|done|]. split_and!; [done|done|by left]. }
  unfold require_drawn_version. destruct (get_status_page_for_update _ _ _ _) as [q|] eqn:Eq; [|done]. cbn [mbind res_bind].
  apply for_update_inv in Eq. case_bool_decide as Hd; [|done]. intros _. injection Hd as Hd.
  destruct Hor as [|Hl]; [done|]. specialize (Hl q Eq). destruct Hs as [_ Hs]. specialize (Hs id p Hp). lia.
Qed.

(** And an edit drawn on another version changes nothing. *)
Lemma stale_edit_refused t id locked drawn p : t !! id = Some p -> drawn <> Some (sp_updated_at p) ->
  require_drawn_version t id locked drawn = Raise StalePageException.
Proof.
  intros Hp Hd. unfold require_drawn_version, get_status_page_for_update, get_status_page_by_id.
  destruct (locked && negb false); [done|]. rewrite Hp. cbn. by rewrite bool_decide_eq_false_2.
Qed.

(** The place asked for a new check is not where it goes: it is numbered, then
    numbered over. *)
Theorem add_check_order_ignored items c o o' : page_add_check items c o = page_add_check items c o'.
Proof. unfold page_add_check, reorder_items. rewrite !imap_app. done. Qed.
End Runs.

(** ** What a visitor sees *)

Lemma minutes_ok_range m : minutes_ok m = true -> m ∈ ALLOWED_TIME_RANGES.
Proof. unfold minutes_ok. by intros H%bool_decide_eq_true. Qed.

Lemma time_range_allowed q config : resolve_time_range q config ∈ ALLOWED_TIME_RANGES.
Proof.
  assert (30%Z ∈ ALLOWED_TIME_RANGES) as H30 by left. unfold resolve_time_range.
  destruct q as [q|]; [destruct (minutes_ok q) eqn:E; [by apply minutes_ok_range|]|];
    (destruct (dict_get _ _ _) as [| |m| | | |]; try done; destruct (minutes_ok m) eqn:Em; [by apply minutes_ok_range|done]).
Qed.

(** A visitor who is not signed in is shown a public page or none: under the slug
    asked for, over one of the windows offered, whose bars, one for each bucket, fill
    it and are 24 to 60. *)
Theorem public_view_guarded t slug time_range p minutes : build_public_view t false slug time_range = ShowPage p minutes ->
  sp_is_public p = true /\ sp_slug p = slug /\ (exists id, t !! id = Some p) /\ minutes ∈ ALLOWED_TIME_RANGES
  /\ let bars := (minutes / get_bucket_size minutes)%Z in (bars * get_bucket_size minutes = minutes)%Z /\ (24 <= bars <= 60)%Z.
Proof.
  unfold build_public_view, get_by_slug. destruct (filter _ (rows t)) as [|q l] eqn:Ef; cbn [head]; [done|].
  destruct (sp_is_public q) eqn:Epub; cbn [negb andb]; [|done]. intros [= <- <-].
  assert (q ∈ filter (fun p => sp_slug p = slug) (rows t)) as Hq by (rewrite Ef; left).
  apply list_elem_of_filter in Hq as [Hs Hq]. apply elem_of_rows in Hq. pose proof (time_range_allowed time_range (sp_config q)) as Hm.
  split; [done|]. split; [done|]. split; [done|]. split; [done|].
  repeat (apply elem_of_cons in Hm as [->|Hm]; [split; [done|split; by vm_compute]|]). by apply elem_of_nil in Hm.
Qed.

(** A page that is not public sends a visitor to the login, and an unknown slug shows
    none. *)
Lemma private_view_redirects t slug time_range p : get_by_slug t slug = Some p -> sp_is_public p = false ->
  build_public_view t false slug time_range = RedirectLogin.
Proof. intros Hp Hq. unfold build_public_view. by rewrite Hp, Hq. Qed.

(** *** The rows of check cards

    Read in order, a row is opened only when none is open, closed only when one is,
    and is open at a card exactly when the card is a check's. *)
Fixpoint rows_open (opened : bool) (marks : list (option (bool * bool))) : option bool :=
  match marks with
  | [] => Some opened
  | None :: rest => if opened then None else rows_open false rest
  | Some (opens, closes) :: rest =>
      if Bool.eqb opens opened then None else rows_open (negb closes) rest
  end.

Definition mark_at (types : list bool) (index : nat) (is_check : bool) : option (bool * bool) :=
  if is_check then
    Some (bool_decide (index = 0) || negb (default false (types !! (index - 1))),
          bool_decide (index = length types - 1) || negb (default false (types !! (index + 1))))
  else None.

Lemma mark_at_middle before types : mark_at (before ++ true :: types) (length before) true =
  Some (negb (default false (last before)), negb (default false (head types))).
Proof.
  unfold mark_at. f_equal. f_equal.
  - destruct before as [|x before _] using rev_ind; [done|]. rewrite last_snoc, length_app. cbn [length default].
    rewrite bool_decide_eq_false_2 by lia. cbn [orb]. rewrite <- app_assoc. cbn [app].
    replace (length before + 1 - 1) with (length before) by lia. by rewrite list_lookup_middle.
  - rewrite length_app. cbn [length]. destruct types as [|y types]; cbn [length head].
    + rewrite bool_decide_eq_true_2 by lia. done.
    + rewrite bool_decide_eq_false_2 by lia. cbn [orb].
      change (true :: y :: types) with ([true] ++ y :: types). rewrite app_assoc.
      rewrite list_lookup_middle; [done|by rewrite length_app].
Qed.

Lemma marks_nest before types :
  rows_open (default false (last before) && default false (head types))
    (imap (fun i c => mark_at (before ++ types) (length before + i) c) types) = Some false.
Proof.
  revert before. induction types as [|ty types IH]; intros before; [cbn; by rewrite andb_false_r|].
  rewrite imap_cons. specialize (IH (before ++ [ty])). rewrite <- app_assoc, last_snoc in IH. cbn [app default] in IH.
  rewrite (imap_ext _ (fun i c => mark_at (before ++ ty :: types) (length (before ++ [ty]) + i) c)) by
    (intros i c _; cbn; rewrite length_app; cbn; f_equal; lia).
  rewrite Nat.add_0_r. cbn [head default]. destruct ty.
  - rewrite mark_at_middle. cbn [rows_open]. rewrite andb_true_r, negb_involutive. destruct (default false (last before)); exact IH.
  - cbn [mark_at rows_open]. rewrite andb_false_r. exact IH.
Qed.

Theorem check_runs_nest types : rows_open false (mark_check_runs types) = Some false.
Proof. exact (marks_nest [] types). Qed.

(** ** The bars of a check *)

(** A minute's bar shows, of the results nearest to that minute, one that is nearest
    to it; and a minute without one is drawn as unknown. *)
Definition nearest_for (now : instant) (minutes : Z) (results : list bar_result) (bars : gmap Z bar_result) : Prop :=
  forall m, match bars !! m with
       | Some r => (0 <= m < minutes)%Z /\ r ∈ results /\ nearest_minute (now - br_timestamp r) = m
                   /\ forall r', r' ∈ results -> nearest_minute (now - br_timestamp r') = m -> (off_minute now r m <= off_minute now r' m)%Z
       | None => (0 <= m < minutes)%Z -> forall r', r' ∈ results -> nearest_minute (now - br_timestamp r') <> m
       end.

Lemma nearest_for_other now minutes results (bars bars' : gmap Z bar_result) r m : nearest_minute (now - br_timestamp r) <> m ->
  bars' !! m = bars !! m -> nearest_for now minutes results bars ->
  match bars' !! m with
  | Some x => (0 <= m < minutes)%Z /\ x ∈ results ++ [r] /\ nearest_minute (now - br_timestamp x) = m
              /\ forall r', r' ∈ results ++ [r] -> nearest_minute (now - br_timestamp r') = m -> (off_minute now x m <= off_minute now r' m)%Z
  | None => (0 <= m < minutes)%Z -> forall r', r' ∈ results ++ [r] -> nearest_minute (now - br_timestamp r') <> m
  end.
Proof.
  intros Hk -> Hb. specialize (Hb m). destruct (bars !! m) as [x|].
  - destruct Hb as (H0 & H1 & H2 & H3). split_and!; [lia|lia|apply elem_of_app; by left|done|].
    intros r' [Hr| ->%list_elem_of_singleton]%elem_of_app He; [by apply H3|done].
  - intros Hm r' [Hr| ->%list_elem_of_singleton]%elem_of_app; [by apply Hb|done].
Qed.

Lemma put_bar_nearest now minutes results bars r : nearest_for now minutes results bars ->
  nearest_for now minutes (results ++ [r]) (put_bar now minutes bars r).
Proof.
  intros Hb m. unfold put_bar. cbn zeta. set (k := nearest_minute (now - br_timestamp r)) in *.
  destruct (decide (k = m)) as [Hk|Hk].
  2: { apply (nearest_for_other now minutes results bars); [done| |done].
       destruct (_ && _)%Z; [|done]. destruct (bars !! k) as [x|]; [destruct (_ <? _)%Z|]; rewrite ?lookup_insert_ne by done; done. }
  subst m. specialize (Hb k).
  destruct ((0 <=? k) && (k <? minutes))%Z eqn:Er.
  - destruct (bars !! k) as [x|] eqn:Ex.
    + destruct Hb as (H0 & H1 & H2 & H3). destruct (off_minute now r k <? off_minute now x k)%Z eqn:Eo.
      * rewrite lookup_insert_eq. split_and!; [lia|lia|apply elem_of_app; right; by apply list_elem_of_singleton|done|].
        intros r' [Hr| ->%list_elem_of_singleton]%elem_of_app He; [|lia]. specialize (H3 r' Hr He). lia.
      * rewrite Ex. split_and!; [lia|lia|apply elem_of_app; by left|done|].
        intros r' [Hr| ->%list_elem_of_singleton]%elem_of_app He; [by apply H3|lia].
    + rewrite lookup_insert_eq. split_and!; [lia|lia|apply elem_of_app; right; by apply list_elem_of_singleton|done|].
      intros r' [Hr| ->%list_elem_of_singleton]%elem_of_app He; [|lia]. by destruct (Hb ltac:(lia) r' Hr).
  - destruct (bars !! k) as [x|]; [lia|]. intros Hm. lia.
Qed.

(** A minute's bar is, of the results that round to that minute, one nearest to it;
    a minute to which none rounds is unknown; and every minute of the window has a
    bar, newest first. *)
Theorem minute_bars_nearest now minutes results m : (0 <= m < minutes)%Z ->
  length (minute_bars now minutes results) = Z.to_nat minutes
  /\ match minute_bars now minutes results !! Z.to_nat m with
     | Some (Some r) => r ∈ results /\ nearest_minute (now - br_timestamp r) = m
         /\ forall r', r' ∈ results -> nearest_minute (now - br_timestamp r') = m -> (off_minute now r m <= off_minute now r' m)%Z
     | Some None => forall r', r' ∈ results -> nearest_minute (now - br_timestamp r') <> m
     | None => False
     end.
Proof.
  intros Hm. unfold minute_bars. set (shown := fold_left _ _ _).
  assert (nearest_for now minutes results shown) as Hs.
  { unfold shown. clear. induction results as [|r results IH] using rev_ind; [intros m; change (fold_left (put_bar now minutes) [] ∅ !! m) with ((∅ : gmap Z bar_result) !! m); rewrite lookup_empty; by intros _ r ?%elem_of_nil|].
    rewrite fold_left_app. cbn [fold_left]. by apply put_bar_nearest. }
  rewrite length_map, length_seqZ. split; [lia|].
  rewrite list_lookup_fmap, lookup_seqZ_lt by lia. cbn. replace (0 + Z.of_nat (Z.to_nat m))%Z with m by lia.
  specialize (Hs m). destruct (shown !! m) as [r|]; [tauto|by apply Hs].
Qed.

(** ** On a concrete page *)

Module OnePage.

(** Latin-1's letters, after the byte 195: all of its 64 but the signs of times and
    division; the first 32 are the capitals of the others. *)
Definition latin_letter (x : string) : bool :=
  match x with
  | String a (String b "") => Ascii.eqb a (ascii_of_N 195) && negb (bool_decide (N_of_ascii b ∈ [151; 183]%N))
  | _ => false
  end.
Fixpoint latin_lower_after (a : ascii) (s : string) : string :=
  match s with
  | EmptyString => EmptyString
  | String b s =>
      String (if latin_letter (String a (String b "")) && (N_of_ascii b <? 159)%N then ascii_of_N (N_of_ascii b + 32) else lower_char b)
        (latin_lower_after b s)
  end.
Definition latin_lower : string -> string := latin_lower_after Ascii.zero.

#[local] Instance plain_input : PageInput := {|
  group_name s := if length_in 1 255 s then Some s else None;
  group_filter _ := Some (MkFilter None None ["api"] None);
  uuid_of s := if String.eqb s "twenty" then Some 20%N else None;
  wide_alnum := latin_letter;
  wide_lower := latin_lower;
|}.

Definition a_check (id : uuid) : check := Check id 1 None "web" "http" "https://example.org" (Some 60%Z) true MANUAL None 0 None [] [].
Definition checks_db : db := Db ∅ {[ 10%N := a_check 10; 20%N := a_check 20 ]} ∅ [] [] ∅ [] [].

(** A page is created, takes two checks and a group. *)
Definition pages_at (n : nat) : status_pages :=
  let run (op : page_op) (now : instant) (t : status_pages) :=
    match perform t t checks_db now false op with Ok t' => t' | Raise _ => t end in
  let t1 := run (WebCreate 1 "Production" "Prod-EU" "" true 60) 1%Z ∅ in
  let t2 := run (AddCheck 1 10 None) 2%Z t1 in
  let t3 := run (AddCheck 1 20 (Some 0)) 3%Z t2 in
  let t4 := run (AddGroup 1 "Web" None None false) 4%Z t3 in
  match n with 0 => ∅ | 1 => t1 | 2 => t2 | 3 => t3 | _ => t4 end.

Lemma one_step op now t t' : (now > 0)%Z -> fresh_for t op -> perform t t checks_db now false op = Ok t' ->
  page_step ((now - 1)%Z, t) (now, t').
Proof. intros Hn Hf Hp. split; [cbn; lia|]. exists t, checks_db, false, op. done. Qed.

Lemma first_steps : star page_step (0%Z, ∅) (3%Z, pages_at 3).
Proof.
  eapply star_step; [apply (one_step (WebCreate 1 "Production" "Prod-EU" "" true 60) 1 ∅ (pages_at 1)); [done|done|vm_compute; reflexivity]|].
  eapply star_step; [apply (one_step (AddCheck 1 10 None) 2 (pages_at 1) (pages_at 2)); [done|done|vm_compute; reflexivity]|].
  eapply star_step; [apply (one_step (AddCheck 1 20 (Some 0)) 3 (pages_at 2) (pages_at 3)); [done|done|vm_compute; reflexivity]|].
  apply star_refl.
Qed.

Lemma none_ok : pages_ok (∅ : status_pages).
Proof. intros id p Hp. by rewrite lookup_empty in Hp. Qed.

Lemma status_pages_hold_witness :
  star page_step (0%Z, ∅) (3%Z, pages_at 3) /\ pages_ok (pages_at 3) /\ map sp_slug (rows (pages_at 3)) = ["prod-eu"].
Proof.
  split_and!; [exact first_steps| |vm_compute; reflexivity].
  exact (proj1 (status_pages_hold (0%Z, ∅) (3%Z, pages_at 3) first_steps none_ok)).
Defined.

(** A slug the web editor stores and the admin API refuses, though both are to be
    URL-safe: [str.isalnum] takes the letters of every alphabet. *)
Theorem accented_slug_stored :
  (exists t p, web_create ∅ ∅ 1 1 "Status" "État" "" true 60 = Ok t /\ t !! 1%N = Some p /\ sp_slug p = "état")
  /\ admin_slug "État" = Raise ValueError /\ all_of slug_char "état" = false.
Proof.
  split; [|split; vm_compute; reflexivity]. eexists. exists (StatusPage 1 "Status" "état" None true (Some [("status_bar_minutes", PInt 60)]) [] 1).
  split; [vm_compute; reflexivity|split; vm_compute; reflexivity].
Qed.

(** The second check is dragged into the group, which moves to the front. *)
Definition dragged : list EditorReorderItem :=
  [EditorItem true (Some 2) (Some [20%N]) None; EditorItem false (Some 0) None None].
Definition items_at (n : nat) : list page_item := match pages_at n !! 1%N with Some p => sp_items p | None => [] end.

Lemma reorder_keeps_everything_witness :
  exists items, reordered_items checks_db (items_at 4) dragged = Ok items
  /\ map listed_checks items = [[20%N]; []] /\ 20%N ∈ named_check_ids items.
Proof.
  destruct (reordered_items checks_db (items_at 4) dragged) as [items|] eqn:E; [|vm_compute in E; discriminate E].
  exists items. split; [reflexivity|]. split; [vm_compute in E; injection E as <-; reflexivity|].
  apply (proj1 (proj2 (reorder_keeps_everything _ _ _ _ E))); [|unfold check_exists]; apply (bool_decide_unpack _); vm_compute; exact I.
Defined.

Lemma drawn_page_unchanged_witness :
  exists p, pages_at 3 !! 1%N = Some p /\ require_drawn_version (pages_at 3) 1 false (Some (sp_updated_at p)) = Ok tt
  /\ require_drawn_version (pages_at 4) 1 false (Some (sp_updated_at p)) = Raise StalePageException.
Proof.
  destruct (pages_at 3 !! 1%N) as [p|] eqn:E; [|vm_compute in E; discriminate E].
  assert (past (3%Z, pages_at 3)) as Hpast.
  { apply (star_invariant page_step past (0%Z, ∅) (3%Z, pages_at 3)); [exact past_step|exact first_steps|].
    split; [exact none_ok|]. intros id q Hq. cbn in Hq. by rewrite lookup_empty in Hq. }
  assert (sp_updated_at p = 3%Z) as Hu by (vm_compute in E; injection E as <-; reflexivity).
  exists p. rewrite Hu. split; [|split; vm_compute; reflexivity].
  refine (eq_trans (eq_sym E) (drawn_page_unchanged (3%Z, pages_at 3) (3%Z, pages_at 3) 1 p false Hpast E (star_refl _ _) _)).
  rewrite Hu. vm_compute. reflexivity.
Defined.

Lemma public_view_guarded_witness :
  exists p, build_public_view (pages_at 3) false "prod-eu" (Some 120%Z) = ShowPage p 120 /\ sp_is_public p = true.
Proof.
  destruct (build_public_view (pages_at 3) false "prod-eu" (Some 120%Z)) as [| |p m] eqn:E; [vm_compute in E; discriminate E..|].
  assert (m = 120%Z) as -> by (vm_compute in E; injection E as _ <-; reflexivity).
  exists p. split; [reflexivity|]. exact (proj1 (public_view_guarded _ _ _ _ _ E)).
Defined.
End OnePage.
