(* ===== verification/Scheduler.v ===== *)
(** * The scheduler of the backend's own jobs

    services/core/scheduler_core_service.py over crud/scheduler_crud.py: due
    jobs are leased, run, counted and released.  A run reads its configuration
    when it begins and works for as long as the job takes, so [run] keeps that
    copy; what it writes at its end goes to the row as it then is.  What a job's
    function does, and whether its time limit cut it, is the [run_end] a step is
    given; zones and the random jitter are parameters. *)

From S2P Require Import Prelude Py Text Store Liveness.

Inductive SchedulerTriggerType := INTERVAL | CRON | MANUAL_TRIGGER.
Inductive SchedulerExecutionStatus := RUNNING | SUCCESS | WARNING | FAILED.

#[global] Instance SchedulerExecutionStatus_eq : EqDecision SchedulerExecutionStatus.
Proof. solve_decision. Defined.
#[global] Instance SchedulerTriggerType_eq : EqDecision SchedulerTriggerType.
Proof. solve_decision. Defined.

Record job_configuration := JobConfiguration {
  cf_job_key : string;
  cf_function_name : string;
  cf_enabled : bool;
  cf_trigger_type : SchedulerTriggerType;
  cf_interval_seconds : option Z;
  cf_cron_expression : option string;
  cf_timezone : string;
  cf_next_run_at : option instant;
  cf_max_runtime_seconds : Z;
  cf_jitter_ms : Z;
  cf_lease_token : option uuid;
  cf_lease_expires_at : option instant;
  cf_retry_limit : Z;
  cf_retry_count : Z;
  cf_backoff_seconds : Z;
  cf_last_run_at : option instant;
  cf_last_status : option SchedulerExecutionStatus;
  cf_total_runs : Z;
  cf_failed_runs : Z;
}.

Abbreviation configurations := (gmap string job_configuration).

(** ** Writes of a row *)

Definition set_lease (token : option uuid) (expires_at : option instant) (c : job_configuration) :=
  JobConfiguration (cf_job_key c) (cf_function_name c) (cf_enabled c) (cf_trigger_type c)
    (cf_interval_seconds c) (cf_cron_expression c) (cf_timezone c) (cf_next_run_at c)
    (cf_max_runtime_seconds c) (cf_jitter_ms c) token expires_at
    (cf_retry_limit c) (cf_retry_count c) (cf_backoff_seconds c)
    (cf_last_run_at c) (cf_last_status c) (cf_total_runs c) (cf_failed_runs c).

Definition set_schedule (enabled : bool) (next_run_at : option instant) (c : job_configuration) :=
  JobConfiguration (cf_job_key c) (cf_function_name c) enabled (cf_trigger_type c)
    (cf_interval_seconds c) (cf_cron_expression c) (cf_timezone c) next_run_at
    (cf_max_runtime_seconds c) (cf_jitter_ms c) (cf_lease_token c) (cf_lease_expires_at c)
    (cf_retry_limit c) (cf_retry_count c) (cf_backoff_seconds c)
    (cf_last_run_at c) (cf_last_status c) (cf_total_runs c) (cf_failed_runs c).

Definition set_counts (retry_count : Z) (last_run_at : option instant)
    (last_status : option SchedulerExecutionStatus) (total failed : Z) (c : job_configuration) :=
  JobConfiguration (cf_job_key c) (cf_function_name c) (cf_enabled c) (cf_trigger_type c)
    (cf_interval_seconds c) (cf_cron_expression c) (cf_timezone c) (cf_next_run_at c)
    (cf_max_runtime_seconds c) (cf_jitter_ms c) (cf_lease_token c) (cf_lease_expires_at c)
    (cf_retry_limit c) retry_count (cf_backoff_seconds c) last_run_at last_status total failed.

(** JobConfigurationCRUD.count_success, count_failure: on the row as stored. *)
Definition count_success (status : SchedulerExecutionStatus) (now : instant)
    (next_run_at : option instant) (c : job_configuration) : job_configuration :=
  set_schedule (cf_enabled c) next_run_at
    (set_counts 0 (Some now) (Some status) (cf_total_runs c + 1) (cf_failed_runs c) c).

Definition count_failure (counts_as_retry : bool) (c : job_configuration) : job_configuration :=
  set_counts (cf_retry_count c + (if counts_as_retry then 1 else 0)) (cf_last_run_at c)
    (Some FAILED) (cf_total_runs c) (cf_failed_runs c + 1) c.

(** ** Leases *)

Definition lease_free (now : instant) (c : job_configuration) : bool :=
  match cf_lease_expires_at c with None => true | Some e => (e <=? now)%Z end.

Definition due (now : instant) (c : job_configuration) : bool :=
  cf_enabled c && match cf_next_run_at c with Some n => (n <=? now)%Z | None => false end
  && lease_free now c.

Definition earlier (c1 c2 : job_configuration) : Prop :=
  (default 0 (cf_next_run_at c1) <= default 0 (cf_next_run_at c2))%Z.

#[global] Instance earlier_dec c1 c2 : Decision (earlier c1 c2).
Proof. unfold earlier. apply _. Defined.

(** A SELECT over the table; [locked] are the rows another transaction holds,
    which SKIP LOCKED leaves out. *)
Definition get_due_jobs (t : configurations) (now : instant) (locked : string -> bool)
    : list job_configuration :=
  take 10 (merge_sort earlier
    (filter (fun c => Is_true (due now c && negb (locked (cf_job_key c)))) (map_to_list t).*2)).

Definition lease_until (now : instant) (c : job_configuration) : instant :=
  (now + cf_max_runtime_seconds c * 2 * us_per_second)%Z.

Definition take_lease (t : configurations) (job_key : string) (lease_token : uuid)
    (now expires_at : instant) : bool * configurations :=
  match t !! job_key with
  | Some c => if lease_free now c
              then (true, <[job_key := set_lease (Some lease_token) (Some expires_at) c]> t)
              else (false, t)
  | None => (false, t)
  end.

Definition release_lease (t : configurations) (job_key : string) (lease_token : uuid)
    : bool * configurations :=
  match t !! job_key with
  | Some c => if bool_decide (cf_lease_token c = Some lease_token)
              then (true, <[job_key := set_lease None None c]> t) else (false, t)
  | None => (false, t)
  end.

Definition get_by_job_key_with_lease (t : configurations) (job_key : string) (lease_token : uuid)
    : option job_configuration :=
  c ← t !! job_key; if bool_decide (cf_lease_token c = Some lease_token) then Some c else None.

(** [_process_due_jobs]: each due job is leased with a token of its own. *)
Fixpoint lease_all (t : configurations) (now : instant) (jobs : list job_configuration)
    (tokens : list uuid) : list (string * uuid) * configurations :=
  match jobs, tokens with
  | c :: jobs, tk :: tokens =>
      let t1 := alter (set_lease (Some tk) (Some (lease_until now c))) (cf_job_key c) t in
      let '(dispatch, t2) := lease_all t1 now jobs tokens in
      ((cf_job_key c, tk) :: dispatch, t2)
  | _, _ => ([], t)
  end.

Definition process_due_jobs (t : configurations) (now : instant) (locked : string -> bool)
    (tokens : list uuid) : list (string * uuid) * configurations :=
  lease_all t now (get_due_jobs t now locked) tokens.

(** ** The next run *)

(** [datetime.replace] of the minute, and of the hour and the minute, down to
    the second; [wall] is a local wall-clock time. *)
Definition at_minute (wall m : Z) : res Z :=
  if ((0 <=? m) && (m <=? 59))%Z
  then Ok (wall / us_per_hour * us_per_hour + m * us_per_minute)%Z else Raise ValueError.

Definition at_time (wall h m : Z) : res Z :=
  if ((0 <=? h) && (h <=? 23) && (0 <=? m) && (m <=? 59))%Z
  then Ok (wall / us_per_day * us_per_day + h * us_per_hour + m * us_per_minute)%Z else Raise ValueError.

(** [while next_run <= now: next_run += interval] *)
Fixpoint catch_up (fuel : nat) (now interval next_run : Z) : res Z :=
  if (next_run <=? now)%Z then
    match fuel with
    | 0 => Raise OutOfFuel
    | S fuel => catch_up fuel now interval (next_run + interval)
    end
  else Ok next_run.

Definition catch_up_fuel (now interval next_run : Z) : nat :=
  Z.to_nat ((now - next_run) / interval + 1).

(** zoneinfo: the wall time of an instant and the instant of a wall time, in a
    zone it knows. *)
Class Zones := {
  zone_known : string -> bool;
  local_of : string -> instant -> Z;
  utc_of : string -> Z -> instant;
}.

(** [v or 60] on an optional int *)
Definition interval_of (c : job_configuration) : Z :=
  (int_or (cf_interval_seconds c) 60 * us_per_second)%Z.

Section NextRun.
Context `{Zones}.

Definition cron_next (now : instant) (tz : string) (parts : list string) : res instant :=
  let now_local := local_of tz now in
  match parts with
  | minute :: hour :: day :: month :: day_of_week :: _ =>
      if String.eqb day "*" && String.eqb month "*" && String.eqb day_of_week "*" then
        if negb (String.eqb minute "*") && String.eqb hour "*" then
          m ← int_of_word minute;
          next ← at_minute now_local m;
          Ok (utc_of tz (if (next <=? now_local)%Z then next + us_per_hour else next)%Z)
        else if negb (String.eqb minute "*") && negb (String.eqb hour "*") then
          h ← int_of_word hour;
          m ← int_of_word minute;
          next ← at_time now_local h m;
          Ok (utc_of tz (if (next <=? now_local)%Z then next + us_per_day else next)%Z)
        else Ok (now + us_per_day)%Z
      else Ok (now + us_per_day)%Z
  | _ => Ok (now + us_per_day)%Z
  end.

(** [_calculate_next_run]; [jitter] is random.randint(-jitter_ms, jitter_ms). *)
Definition calculate_next_run (now : instant) (jitter : Z) (c : job_configuration)
    : res (option instant) :=
  match cf_trigger_type c with
  | INTERVAL =>
      let interval := interval_of c in
      let next_run := (default now (cf_next_run_at c) + interval)%Z in
      next_run ← catch_up (catch_up_fuel now interval next_run) now interval next_run;
      Ok (Some (if (0 <? cf_jitter_ms c)%Z then next_run + jitter * 1000 else next_run)%Z)
  | CRON =>
      match cf_cron_expression c with
      | Some (String _ _ as expr) =>
          let tz := if String.eqb (cf_timezone c) "" then "UTC" else cf_timezone c in
          if zone_known tz then next ← cron_next now tz (words expr); Ok (Some next)
          else Raise KeyError
      | _ => Ok (Some (now + us_per_day)%Z)
      end
  | MANUAL_TRIGGER => Ok None
  end.

(** ** A run *)

(** How a run ended: the function returned, with or without errors in its
    result, or it raised (a timeout and an unknown function included). *)
Inductive run_end := Finished (has_errors : bool) | Failed.

Record run := Run {
  rn_key : string;
  rn_token : uuid;
  rn_by_hand : bool;
  rn_config : job_configuration;   (* as the run read it *)
  rn_started : instant;
}.

(** [_handle_job_failure] *)
Definition handle_job_failure (now : instant) (c : job_configuration) : job_configuration :=
  let c := count_failure true c in
  if (cf_retry_limit c =? 0)%Z || (cf_retry_count c <=? cf_retry_limit c)%Z then
    let backoff := (cf_backoff_seconds c * 2 ^ (cf_retry_count c - 1))%Z in
    let backoff := if (cf_retry_limit c =? 0)%Z then Z.min backoff 3600 else backoff in
    set_schedule (cf_enabled c) (Some (now + backoff * us_per_second)%Z) c
  else set_schedule false (cf_next_run_at c) c.

(** The end of [_execute_job]'s and [_run_leased_by_hand]'s [try]: a raise of
    [calculate_next_run] is a failure of the run. *)
Definition finish_run (t : configurations) (now : instant) (jitter : Z) (r : run) (e : run_end)
    : SchedulerExecutionStatus * configurations :=
  let failure := (FAILED, alter (if rn_by_hand r then count_failure false
                                 else handle_job_failure now) (rn_key r) t) in
  match e with
  | Failed => failure
  | Finished has_errors =>
      match calculate_next_run now jitter (rn_config r) with
      | Ok next_run_at =>
          let status := if has_errors then WARNING else SUCCESS in
          (status, alter (count_success status now next_run_at) (rn_key r) t)
      | Raise _ => failure
      end
  end.

(** [_execute_job] up to the call: the lease is verified, and the configuration read. *)
Definition begin_run (t : configurations) (now : instant) (job_key : string) (lease_token : uuid)
    : option run :=
  c ← get_by_job_key_with_lease t job_key lease_token;
  Some (Run job_key lease_token false c now).

(** [_lease_for_manual_run] *)
Definition lease_for_manual_run (t : configurations) (now : instant) (job_key : string)
    (lease_token : uuid) : res configurations :=
  match t !! job_key with
  | None => Raise NotFoundException
  | Some c =>
      match take_lease t job_key lease_token now (lease_until now c) with
      | (true, t') => Ok t'
      | (false, _) => Raise SchedulerJobBusyException
      end
  end.

(** [_run_leased_by_hand] up to the call: it reads the row by its key alone. *)
Definition begin_manual (t : configurations) (now : instant) (job_key : string) (lease_token : uuid)
    : res run :=
  match t !! job_key with
  | None => Raise NotFoundException
  | Some c => Ok (Run job_key lease_token true c now)
  end.

(** ** Administration *)

Definition set_job_enabled (t : configurations) (now : instant) (jitter : Z) (job_key : string)
    (enabled : bool) : res configurations :=
  match t !! job_key with
  | None => Raise NotFoundException
  | Some c =>
      if Bool.eqb (cf_enabled c) enabled then Ok t
      else
        next ← (if enabled then calculate_next_run now jitter (set_schedule enabled (cf_next_run_at c) c)
                else Ok (cf_next_run_at c));
        Ok (<[job_key := set_schedule enabled next c]> t)
  end.

Definition toggle_job (t : configurations) (job_key : string) : res configurations :=
  match t !! job_key with
  | None => Raise NotFoundException
  | Some c => Ok (<[job_key := set_schedule (negb (cf_enabled c)) (cf_next_run_at c) c]> t)
  end.

Definition reset_job (t : configurations) (now : instant) (jitter : Z) (job_key : string)
    : res configurations :=
  match t !! job_key with
  | None => Raise NotFoundException
  | Some c =>
      let c' := set_counts 0 (cf_last_run_at c) (cf_last_status c) (cf_total_runs c) 0 c in
      next ← (if cf_enabled c then Ok (cf_next_run_at c) else calculate_next_run now jitter c');
      Ok (<[job_key := set_schedule true next c']> t)
  end.

(** ** The scheduler as a transition system

    [sc_dispatch] are the leased jobs whose tasks have not begun, [sc_leased]
    the leases taken by hand whose run has not, [sc_active] the runs in
    progress, [sc_tokens] every lease token ever drawn (uuid4) with the expiry
    its lease was given.  The process may die ([sched_die]) and leave its leases
    to expire. *)
Record sched := Sched {
  sc_jobs : configurations;
  sc_dispatch : list (string * uuid);
  sc_leased : list (string * uuid);
  sc_active : list run;
  sc_tokens : list (uuid * instant);
  sc_clock : instant;
}.

Inductive sched_step : sched -> sched -> Prop :=
  | sched_due t d l a u k now locked tokens d' t' : (k <= now)%Z ->
      NoDup tokens -> Forall (fun tk => tk ∉ map fst u) tokens ->
      length tokens = length (get_due_jobs t now locked) ->
      process_due_jobs t now locked tokens = (d', t') ->
      sched_step (Sched t d l a u k)
        (Sched t' (d' ++ d) l a (zip tokens (map (lease_until now) (get_due_jobs t now locked)) ++ u) now)
  | sched_begin t d1 d2 l a u k now key tk r : (k <= now)%Z ->
      begin_run t now key tk = Some r ->
      sched_step (Sched t (d1 ++ (key, tk) :: d2) l a u k) (Sched t (d1 ++ d2) l (r :: a) u now)
  | sched_lost t d1 d2 l a u k key tk :
      get_by_job_key_with_lease t key tk = None ->
      sched_step (Sched t (d1 ++ (key, tk) :: d2) l a u k) (Sched t (d1 ++ d2) l a u k)
  | sched_end t d l a1 a2 u k now jitter r e : (k <= now)%Z -> rn_by_hand r = false ->
      sched_step (Sched t d l (a1 ++ r :: a2) u k)
        (Sched (release_lease (finish_run t now jitter r e).2 (rn_key r) (rn_token r)).2 d l (a1 ++ a2) u now)
  | sched_by_hand t d l a u k now key tk c t' : (k <= now)%Z -> tk ∉ map fst u ->
      t !! key = Some c -> lease_for_manual_run t now key tk = Ok t' ->
      sched_step (Sched t d l a u k)
        (Sched t' d ((key, tk) :: l) a ((tk, lease_until now c) :: u) now)
  | sched_begin_hand t d l1 l2 a u k now key tk r : (k <= now)%Z ->
      begin_manual t now key tk = Ok r ->
      sched_step (Sched t d (l1 ++ (key, tk) :: l2) a u k) (Sched t d (l1 ++ l2) (r :: a) u now)
  | sched_record_hand t d l a1 a2 u k now jitter r e : (k <= now)%Z -> rn_by_hand r = true ->
      sched_step (Sched t d l (a1 ++ r :: a2) u k)
        (Sched (finish_run t now jitter r e).2 d l (a1 ++ r :: a2) u now)
  | sched_release_hand t d l a1 a2 u k r : rn_by_hand r = true ->
      sched_step (Sched t d l (a1 ++ r :: a2) u k)
        (Sched (release_lease t (rn_key r) (rn_token r)).2 d l (a1 ++ a2) u k)
  | sched_admin t d l a u k now jitter key enabled t' : (k <= now)%Z ->
      (set_job_enabled t now jitter key enabled = Ok t' \/ toggle_job t key = Ok t' \/
       reset_job t now jitter key = Ok t') ->
      sched_step (Sched t d l a u k) (Sched t' d l a u now)
  | sched_die t d l a u k : sched_step (Sched t d l a u k) (Sched t [] [] [] u k).
End NextRun.
