(* ===== verification/SchedulerTheorems.v ===== *)
(** * What the scheduler promises

    Leases exclude: no two runs of a job are in progress while both leases last.
    The interval trigger keeps its grid and never schedules the past, and
    failures back off, or turn the job off once its retries are spent. *)

From S2P Require Import Prelude Py Text Store Liveness Scheduler.

#[local] Arguments finish_run : simpl never.
#[local] Arguments release_lease : simpl never.

(** ** What a write does to the leases *)

Definition lease_of (c : job_configuration) : string * option uuid * option instant :=
  (cf_job_key c, cf_lease_token c, cf_lease_expires_at c).

(** The two tables have the same leases. *)
Definition same_leases (t t' : configurations) : Prop := lease_of <$> t = lease_of <$> t'.

Definition row_holds (t : configurations) (key : string) (tk : uuid) (e : instant) : Prop :=
  exists c, t !! key = Some c /\ cf_lease_token c = Some tk /\ cf_lease_expires_at c = Some e.

Lemma same_leases_lookup t t' key :
  same_leases t t' -> lease_of <$> t !! key = lease_of <$> t' !! key.
Proof. intros Hs. by rewrite <- !lookup_fmap, Hs. Qed.

Lemma same_leases_holds t t' key tk e : same_leases t t' -> row_holds t key tk e -> row_holds t' key tk e.
Proof.
  intros Hs (c & Hc & Ht & He). apply (same_leases_lookup _ _ key) in Hs. rewrite Hc in Hs.
  destruct (t' !! key) as [c'|] eqn:E; [|done]. cbn in Hs. injection Hs as Hk Ht' He'.
  exists c'. by rewrite <- Ht', <- He'.
Qed.

Lemma same_leases_alter f key t : (forall c, lease_of (f c) = lease_of c) -> same_leases t (alter f key t).
Proof.
  intros Hf. unfold same_leases. apply map_eq. intros i. rewrite !lookup_fmap.
  destruct (decide (i = key)) as [->|]; [|by rewrite lookup_alter_ne].
  rewrite lookup_alter_eq. destruct (t !! key); cbn; [by rewrite Hf|done].
Qed.

Lemma same_leases_insert key c c' t :
  t !! key = Some c -> lease_of c' = lease_of c -> same_leases t (<[key := c']> t).
Proof.
  intros Hc Hl. unfold same_leases. rewrite fmap_insert, Hl. symmetry. apply insert_id.
  by rewrite lookup_fmap, Hc.
Qed.

Section Leases.
Context `{Zones}.

Lemma handle_failure_lease now c : lease_of (handle_job_failure now c) = lease_of c.
Proof. unfold handle_job_failure. by case_match. Qed.

Lemma finish_same_leases t now jitter r e : same_leases t (finish_run t now jitter r e).2.
Proof.
  unfold finish_run. destruct e as [he|].
  - destruct (calculate_next_run _ _ _); [by apply same_leases_alter|].
    destruct (rn_by_hand r); apply same_leases_alter; [done|apply handle_failure_lease].
  - destruct (rn_by_hand r); apply same_leases_alter; [done|apply handle_failure_lease].
Qed.

Lemma admin_same_leases t now jitter key enabled t' :
  set_job_enabled t now jitter key enabled = Ok t' \/ toggle_job t key = Ok t' \/
  reset_job t now jitter key = Ok t' -> same_leases t t'.
Proof.
  unfold set_job_enabled, toggle_job, reset_job. destruct (t !! key) as [c|] eqn:Ec; [|naive_solver].
  intros [E|[E|E]].
  - destruct (Bool.eqb _ _); [by injection E as <-|].
    destruct (if enabled then _ else _) as [n|]; cbn in E; [|done]. injection E as <-.
    by eapply same_leases_insert.
  - injection E as <-. by eapply same_leases_insert.
  - destruct (if cf_enabled c then _ else _) as [n|]; cbn in E; [|done]. injection E as <-.
    by eapply same_leases_insert.
Qed.

(** ** The invariant of the leases

    [hs] are the jobs and tokens held by tasks and runs, [u] the tokens drawn. *)
Record lease_inv (t : configurations) (hs : list (string * uuid)) (u : list (uuid * instant))
    (clock : instant) : Prop := {
  li_keyed : forall key c, t !! key = Some c -> cf_job_key c = key;
  li_lease : forall key c tk, t !! key = Some c -> cf_lease_token c = Some tk ->
      exists e, cf_lease_expires_at c = Some e /\ (tk, e) ∈ u;
  li_tokens : NoDup (map fst u);
  li_holders : NoDup (map snd hs);
  li_known : forall key tk, (key, tk) ∈ hs -> tk ∈ map fst u;
  li_held : forall key tk e, (key, tk) ∈ hs -> (tk, e) ∈ u -> row_holds t key tk e \/ (e <= clock)%Z;
}.

Lemma token_expiry (u : list (uuid * instant)) tk e e' :
  NoDup (map fst u) -> (tk, e) ∈ u -> (tk, e') ∈ u -> e = e'.
Proof.
  induction u as [|[tk0 e0] u IH]; cbn; [by intros _ ?%elem_of_nil|].
  intros [Hn Hu]%NoDup_cons [[= -> ->]|H1]%elem_of_cons [[= ->]|H2]%elem_of_cons; [done|..].
  - destruct Hn. apply list_elem_of_fmap. by exists (tk0, e').
  - destruct Hn. subst. apply list_elem_of_fmap. by exists (tk0, e).
  - by apply IH.
Qed.

Lemma lease_inv_leases t t' hs u clock clock' :
  same_leases t t' -> (clock <= clock')%Z -> lease_inv t hs u clock -> lease_inv t' hs u clock'.
Proof.
  intros Hs Hc [Hk Hl Ht Hh Hkn Hhe].
  assert (Hback : forall key c', t' !! key = Some c' -> exists c, t !! key = Some c /\ lease_of c = lease_of c').
  { intros key c' Hc'. apply (same_leases_lookup _ _ key) in Hs. rewrite Hc' in Hs.
    destruct (t !! key) as [c|]; [|done]. injection Hs as ???. exists c. split; [done|].
    unfold lease_of. congruence. }
  split; auto.
  - intros key c' (c & Ec & [= <- _ _])%Hback. eauto.
  - intros key c' tk Hc' Htk. destruct (Hback _ _ Hc') as (c & Ec & [= _ Et Ee]).
    rewrite <- Ee. apply (Hl key c tk); congruence.
  - intros key tk e Hin Hu. destruct (Hhe key tk e Hin Hu) as [Hr|]; [|right; lia].
    left. by eapply same_leases_holds.
Qed.

Lemma lease_inv_fewer t hs hs' extra u clock :
  hs ≡ₚ extra ++ hs' -> lease_inv t hs u clock -> lease_inv t hs' u clock.
Proof.
  intros Hp [Hk Hl Ht Hh Hkn Hhe].
  assert (Hin : forall x, x ∈ hs' -> x ∈ hs) by (intros x Hx; rewrite Hp; apply elem_of_app; by right).
  split; eauto. change (map snd hs) with (snd <$> hs) in Hh. rewrite Hp, fmap_app in Hh.
  by apply NoDup_app in Hh as (_ & _ & ?).
Qed.

Lemma release_lookup t key tk key' :
  (release_lease t key tk).2 !! key' =
  (if decide (key' = key)
   then (fun c => if bool_decide (cf_lease_token c = Some tk) then set_lease None None c else c) <$> t !! key'
   else t !! key').
Proof.
  unfold release_lease. destruct (decide (key' = key)) as [->|Hk].
  - destruct (t !! key) as [c|] eqn:Ec; cbn [fmap option_fmap option_map]; [|done].
    destruct (bool_decide _); cbn [snd]; [by rewrite lookup_insert_eq|done].
  - destruct (t !! key) as [c|]; [|done]. destruct (bool_decide _); cbn [snd]; [|done].
    by rewrite lookup_insert_ne.
Qed.

Lemma lease_inv_release t key tk hs u clock :
  lease_inv t ((key, tk) :: hs) u clock -> lease_inv (release_lease t key tk).2 hs u clock.
Proof.
  intros [Hk Hl Ht Hh Hkn Hhe]. cbn in Hh. apply NoDup_cons in Hh as [Hout Hh]. split; auto.
  - intros key' c. rewrite release_lookup. destruct (decide (key' = key)); [|apply Hk].
    destruct (t !! key') as [c0|] eqn:E; [|done]. cbn. intros [= <-]. specialize (Hk _ _ E).
    by case_match.
  - intros key' c tk'. rewrite release_lookup. destruct (decide (key' = key)); [|apply Hl].
    destruct (t !! key') as [c0|] eqn:E; [|done]. cbn. intros [= <-].
    case_match; [done|]. by apply Hl with key'.
  - intros key' tk' Hin. apply (Hkn key'). by right.
  - intros key' tk' e Hin Hu. destruct (Hhe key' tk' e ltac:(by right) Hu) as [(c & Hc & Htk & He)|]; [|by right].
    left. exists c. split; [|done]. rewrite release_lookup. destruct (decide (key' = key)); [|done]. rewrite Hc. cbn.
    rewrite bool_decide_false; [done|]. rewrite Htk. intros [= ->]. apply Hout.
    apply list_elem_of_fmap. by exists (key', tk).
Qed.

(** A lease is only given where the last one has expired. *)
Lemma lease_inv_give t key c tk hs u clock now :
  (clock <= now)%Z -> tk ∉ map fst u -> t !! key = Some c -> lease_free now c = true ->
  lease_inv t hs u clock ->
  lease_inv (<[key := set_lease (Some tk) (Some (lease_until now c)) c]> t) ((key, tk) :: hs)
            ((tk, lease_until now c) :: u) now.
Proof.
  intros Hc Hnew Hkc Hfree [Hk Hl Ht Hh Hkn Hhe]. split.
  - intros key' c'. destruct (decide (key' = key)) as [->|]; [rewrite lookup_insert_eq|rewrite lookup_insert_ne by done; apply Hk].
    intros [= <-]. exact (Hk _ _ Hkc).
  - intros key' c' tk'. destruct (decide (key' = key)) as [->|].
    + rewrite lookup_insert_eq. intros [= <-] [= <-]. eexists. split; [done|left].
    + rewrite lookup_insert_ne by done. intros H1 H2. destruct (Hl _ _ _ H1 H2) as (e & He & Hu).
      exists e. split; [done|by right].
  - cbn. by constructor.
  - cbn. constructor; [|done]. intros ([key' tk'] & -> & Hin)%list_elem_of_fmap. by eapply Hnew, Hkn.
  - intros key' tk' [[= -> ->]|Hin]%elem_of_cons; [left|right; by eapply Hkn].
  - assert (Hne : forall key' tk', (key', tk') ∈ hs -> tk' <> tk) by (intros key' tk' Hin ->; by eapply Hnew, Hkn).
    intros key' tk' e Hin Hu. apply elem_of_cons in Hin as [[= -> ->]|Hin].
    + apply elem_of_cons in Hu as [[= ->]|Hu].
      * left. eexists. by rewrite lookup_insert_eq.
      * destruct Hnew. apply list_elem_of_fmap. by exists (tk, e).
    + apply elem_of_cons in Hu as [[= -> ->]|Hu]; [by destruct (Hne _ _ Hin)|].
      destruct (Hhe key' tk' e Hin Hu) as [(c' & Hc' & Htk & He)|]; [|right; lia].
      destruct (decide (key' = key)) as [->|].
      * right. rewrite Hkc in Hc'. injection Hc' as <-. unfold lease_free in Hfree.
        rewrite He in Hfree. by apply Z.leb_le in Hfree.
      * left. exists c'. by rewrite lookup_insert_ne.
Qed.

Lemma lease_inv_perm t hs hs' u u' clock :
  hs ≡ₚ hs' -> u ≡ₚ u' -> lease_inv t hs u clock -> lease_inv t hs' u' clock.
Proof.
  intros Hh Hu Hi. apply (lease_inv_fewer _ _ hs' [] _ _ Hh) in Hi as [Hk Hl Ht Hho Hkn Hhe].
  split; auto.
  - intros key c tk H1 H2. destruct (Hl key c tk H1 H2) as (e & He & Hin). exists e. by rewrite <- Hu.
  - change (NoDup (fst <$> u')). by rewrite <- Hu.
  - intros key tk Hin. change (tk ∈ fst <$> u'). rewrite <- Hu. by eapply Hkn.
  - intros key tk e Hin Hu'. apply Hhe; [done|by rewrite Hu].
Qed.

Lemma lease_inv_due now jobs : forall tokens t d t' hs u clock,
  (clock <= now)%Z -> NoDup (map cf_job_key jobs) ->
  (forall c, c ∈ jobs -> t !! cf_job_key c = Some c /\ lease_free now c = true) ->
  NoDup tokens -> Forall (fun tk => tk ∉ map fst u) tokens -> length tokens = length jobs ->
  lease_all t now jobs tokens = (d, t') -> lease_inv t hs u clock ->
  lease_inv t' (d ++ hs) (zip tokens (map (lease_until now) jobs) ++ u) now.
Proof.
  induction jobs as [|c jobs IH]; intros [|tk tokens] t d t' hs u clock Hc Hn Hj Ht Hf Hlen E Hi;
    cbn in E, Hlen; try done.
  { injection E as <- <-. eapply lease_inv_leases; [done|exact Hc|exact Hi]. }
  destruct (lease_all _ now jobs tokens) as [d1 t2] eqn:E1. injection E as <- <-.
  cbn in Hn. apply NoDup_cons in Hn as [Hout Hn]. apply NoDup_cons in Ht as [Htk Ht].
  apply Forall_cons in Hf as [Hfk Hf]. destruct (Hj c) as [Hkc Hfree]; [left|].
  pose proof (lease_inv_give _ _ _ _ _ _ _ _ Hc Hfk Hkc Hfree Hi) as Hg.
  assert (Ealter : alter (set_lease (Some tk) (Some (lease_until now c))) (cf_job_key c) t =
                   <[cf_job_key c := set_lease (Some tk) (Some (lease_until now c)) c]> t).
  { apply map_eq. intros i. destruct (decide (i = cf_job_key c)) as [->|].
    - by rewrite lookup_alter_eq, lookup_insert_eq, Hkc.
    - by rewrite lookup_alter_ne, lookup_insert_ne. }
  rewrite Ealter in E1.
  eapply lease_inv_perm; [| |eapply (IH tokens _ d1 t2); [apply Z.le_refl|exact Hn| |exact Ht| |lia|exact E1|exact Hg]].
  - cbn. by rewrite Permutation_middle.
  - cbn. by rewrite Permutation_middle.
  - intros c' Hc'. destruct (Hj c') as [H1 H2]; [by right|]. split; [|done].
    rewrite lookup_insert_ne; [done|]. intros Heq. apply Hout, list_elem_of_fmap. eauto.
  - eapply Forall_impl; [apply Forall_and; split; [exact Hf|]|].
    + apply Forall_forall. intros tk' Hin. instantiate (1 := fun tk' => tk' <> tk). by intros ->.
    + cbn. intros tk' [H1 H2]. rewrite elem_of_cons. by intros [->|].
Qed.

Lemma get_due_jobs_spec t now locked :
  (forall key c, t !! key = Some c -> cf_job_key c = key) ->
  NoDup (map cf_job_key (get_due_jobs t now locked)) /\
  (forall c, c ∈ get_due_jobs t now locked ->
     t !! cf_job_key c = Some c /\ due now c = true).
Proof.
  intros Hk. unfold get_due_jobs.
  set (l := filter _ _). pose proof (merge_sort_Permutation earlier l) as Hp. split.
  - eapply sublist_NoDup; [|apply (fmap_sublist cf_job_key), sublist_take].
    change (NoDup (cf_job_key <$> merge_sort earlier l)). rewrite Hp.
    eapply sublist_NoDup; [|apply (fmap_sublist cf_job_key), sublist_filter].
    replace (cf_job_key <$> (map_to_list t).*2) with ((map_to_list t).*1); [apply NoDup_fst_map_to_list|].
    rewrite <- list_fmap_compose. apply list_fmap_ext. intros n [i x] Hn. cbn. symmetry.
    apply Hk, elem_of_map_to_list. by eapply list_elem_of_lookup_2.
  - intros c Hc%subseteq_take. rewrite Hp in Hc. apply list_elem_of_filter in Hc as [Hd Hc].
    apply list_elem_of_fmap in Hc as ([key c'] & -> & Hin%elem_of_map_to_list). cbn.
    rewrite (Hk _ _ Hin). split; [done|]. apply Is_true_true, andb_prop in Hd as [? _]. done.
Qed.

(** ** The invariant of the scheduler *)

Definition holders (s : sched) : list (string * uuid) :=
  sc_dispatch s ++ sc_leased s ++ map (fun r => (rn_key r, rn_token r)) (sc_active s).

Definition sched_inv (s : sched) : Prop :=
  lease_inv (sc_jobs s) (holders s) (sc_tokens s) (sc_clock s).

Lemma lease_inv_clock t hs u clock clock' :
  (clock <= clock')%Z -> lease_inv t hs u clock -> lease_inv t hs u clock'.
Proof. by apply lease_inv_leases. Qed.

Lemma due_free now c : due now c = true -> lease_free now c = true.
Proof. unfold due. intros E. by apply andb_prop in E as [_ ?]. Qed.

Lemma sched_inv_step s s' : sched_step s s' -> sched_inv s -> sched_inv s'.
Proof.
  unfold sched_inv, holders. destruct 1 as
    [t d l a u k now locked tokens d' t' Hc Hn Hf Hlen E|t d1 d2 l a u k now key tk r Hc E|t d1 d2 l a u k key tk E
    |t d l a1 a2 u k now jitter r e Hc Hr|t d l a u k now key tk c t' Hc Hf Hkc E|t d l1 l2 a u k now key tk r Hc E
    |t d l a1 a2 u k now jitter r e Hc Hr|t d l a1 a2 u k r Hr|t d l a u k now jitter key enabled t' Hc E
    |t d l a u k]; cbn; intros Hi.
  - rewrite <- (assoc_L (++)). destruct (get_due_jobs_spec t now locked (li_keyed _ _ _ _ Hi)) as [Hnd Hdue].
    eapply lease_inv_due; try done. intros c Hin. destruct (Hdue c Hin). split; [done|by apply due_free].
  - unfold begin_run in E. destruct (get_by_job_key_with_lease t key tk); [|done]. injection E as <-.
    eapply lease_inv_perm; [| |by eapply lease_inv_clock]; [|done]. cbn. solve_Permutation.
  - eapply lease_inv_fewer; [|done]. rewrite <- (assoc_L (++) d1). cbn.
    instantiate (1 := [(key, tk)]). solve_Permutation.
  - apply lease_inv_release. eapply lease_inv_leases; [apply finish_same_leases|exact Hc|].
    eapply lease_inv_perm; [|done|exact Hi]. rewrite !map_app. cbn. solve_Permutation.
  - unfold lease_for_manual_run, take_lease in E. rewrite Hkc in E.
    destruct (lease_free now c) eqn:Ef; [|done]. injection E as <-.
    eapply lease_inv_perm; [|done|by eapply lease_inv_give]. solve_Permutation.
  - unfold begin_manual in E. destruct (t !! key); [|done]. injection E as <-.
    eapply lease_inv_perm; [| |by eapply lease_inv_clock]; [|done]. cbn. solve_Permutation.
  - eapply lease_inv_leases; [apply finish_same_leases|exact Hc|done].
  - apply lease_inv_release. eapply lease_inv_perm; [|done|exact Hi]. rewrite !map_app. cbn. solve_Permutation.
  - eapply lease_inv_leases; [by eapply admin_same_leases|exact Hc|done].
  - eapply lease_inv_fewer; [|done]. by rewrite app_nil_r.
Qed.
End Leases.

(** ** Properties *)

Section Properties.
Context `{Zones}.

(** A scheduler that starts on rows no lease holds. *)
Definition sched_start (t : configurations) (clock : instant) : sched := Sched t [] [] [] [] clock.

Definition unleased (t : configurations) : Prop :=
  forall key c, t !! key = Some c -> cf_job_key c = key /\ cf_lease_token c = None.

Lemma sched_inv_reachable t clock s :
  unleased t -> star sched_step (sched_start t clock) s -> sched_inv s.
Proof.
  intros Ht Hs. eapply star_invariant; [exact sched_inv_step|exact Hs|].
  split; cbn; try apply NoDup_nil_2.
  - intros key c Hc. apply (Ht _ _ Hc).
  - intros key c tk Hc Htk. destruct (Ht _ _ Hc) as [_ Hn]. congruence.
  - intros key tk Hin. by apply elem_of_nil in Hin.
  - intros key tk e Hin. by apply elem_of_nil in Hin.
Qed.

(** C32: single-runner: along any run of the scheduler, with requests by hand,
    administration and deaths of the process between its steps, two runs of one
    job are never in progress while the leases of both last. *)
Theorem lease_excludes t clock s r1 r2 e1 e2 :
  unleased t -> star sched_step (sched_start t clock) s ->
  r1 ∈ sc_active s -> r2 ∈ sc_active s -> rn_key r1 = rn_key r2 ->
  (rn_token r1, e1) ∈ sc_tokens s -> (rn_token r2, e2) ∈ sc_tokens s ->
  (sc_clock s < e1)%Z -> (sc_clock s < e2)%Z -> r1 = r2.
Proof.
  intros Ht Hs H1 H2 Hk Hu1 Hu2 Hl1 Hl2. pose proof (sched_inv_reachable _ _ _ Ht Hs) as [_ _ _ Hh _ Hhe].
  assert (Hin : forall r, r ∈ sc_active s -> (rn_key r, rn_token r) ∈ holders s).
  { intros r Hr. unfold holders. rewrite !elem_of_app. right; right. apply list_elem_of_fmap. eauto. }
  destruct (Hhe _ _ _ (Hin r1 H1) Hu1) as [(c1 & Hc1 & Ht1 & _)|]; [|lia].
  destruct (Hhe _ _ _ (Hin r2 H2) Hu2) as [(c2 & Hc2 & Ht2 & _)|]; [|lia].
  rewrite Hk, Hc2 in Hc1. injection Hc1 as <-. rewrite Ht2 in Ht1. injection Ht1 as Htok.
  unfold holders in Hh. rewrite !map_app in Hh.
  apply NoDup_app in Hh as (_ & _ & (_ & _ & Hh)%NoDup_app).
  clear -Hh H1 H2 Htok. induction (sc_active s) as [|r l IH]; [by apply elem_of_nil in H1|].
  cbn in Hh. apply NoDup_cons in Hh as [Hout Hh].
  assert (Hnot : forall r', r' ∈ l -> rn_token r' <> rn_token r).
  { intros r' Hr' Heq. apply Hout. rewrite map_map. apply list_elem_of_fmap. exists r'. by cbn. }
  apply elem_of_cons in H1 as [->|H1]; apply elem_of_cons in H2 as [->|H2]; [done|..|by apply IH].
  - by destruct (Hnot r2 H2).
  - by destruct (Hnot r1 H1).
Qed.

Lemma catch_up_spec interval now fuel next :
  (0 < interval)%Z -> (now - next < interval * Z.of_nat fuel)%Z ->
  exists k, (0 <= k)%Z /\ catch_up fuel now interval next = Ok (next + k * interval)%Z /\
            (now < next + k * interval)%Z /\ (k = 0 \/ next + k * interval <= now + interval)%Z.
Proof.
  intros Hi. revert next. induction fuel as [|fuel IH]; intros next Hf; cbn.
  - rewrite (proj2 (Z.leb_gt _ _)) by lia. exists 0%Z. rewrite Z.mul_0_l, Z.add_0_r. split_and!; auto; lia.
  - destruct (Z.leb_spec next now) as [Hle|Hgt].
    + destruct (IH (next + interval)%Z) as (k & Hk & -> & Hn & Hb); [lia|].
      exists (k + 1)%Z. split_and!; [lia|f_equal; lia|lia|right; lia].
    + exists 0%Z. rewrite Z.mul_0_l, Z.add_0_r. split_and!; auto; lia.
Qed.

(** the interval trigger is fixed-rate: the loop that catches up ends, on
    the grid of the time the job was due, in the future, and no more than one
    interval after the later of now and that time; only the jitter moves it off
    the grid. *)
Theorem interval_grid now jitter c :
  cf_trigger_type c = INTERVAL -> (0 <= default 0 (cf_interval_seconds c))%Z ->
  exists n k,
    calculate_next_run now jitter c = Ok (Some (if (0 <? cf_jitter_ms c)%Z then n + jitter * 1000 else n)%Z) /\
    n = (default now (cf_next_run_at c) + k * interval_of c)%Z /\ (1 <= k)%Z /\ (now < n)%Z /\
    (n <= Z.max now (default now (cf_next_run_at c)) + interval_of c)%Z.
Proof.
  intros Ht Hpos. unfold calculate_next_run. rewrite Ht.
  set (base := default now (cf_next_run_at c)).
  assert (Hi : (0 < interval_of c)%Z).
  { unfold interval_of, int_or, us_per_second. destruct (cf_interval_seconds c) as [i|]; cbn in Hpos; [|lia].
    destruct (Z.eqb_spec i 0); lia. }
  destruct (catch_up_spec (interval_of c) now (catch_up_fuel now (interval_of c) (base + interval_of c))
              (base + interval_of c) Hi) as (k & Hk & -> & Hn & Hb).
  { unfold catch_up_fuel. set (q := (now - (base + interval_of c))%Z).
    pose proof (Z.mul_succ_div_gt q (interval_of c) Hi).
    assert (Z.of_nat (Z.to_nat (q / interval_of c + 1)) = Z.max 0 (q / interval_of c + 1)) as -> by lia.
    nia. }
  cbn. eexists _, (k + 1)%Z. split; [done|]. split_and!; lia.
Qed.

(** Scheduled runs that fail one after another, at the given instants. *)
Definition fail_at (c : job_configuration) (now : instant) : job_configuration :=
  handle_job_failure now c.

Lemma fail_counts nows c :
  let c' := fold_left fail_at nows c in
  cf_retry_limit c' = cf_retry_limit c /\ cf_backoff_seconds c' = cf_backoff_seconds c /\
  cf_retry_count c' = (cf_retry_count c + Z.of_nat (length nows))%Z /\
  cf_failed_runs c' = (cf_failed_runs c + Z.of_nat (length nows))%Z.
Proof.
  revert c. induction nows as [|now nows IH]; intros c; cbn; [split_and!; [done|done|lia|lia]|].
  destruct (IH (fail_at c now)) as (-> & -> & -> & ->).
  assert (Hc : cf_retry_limit (fail_at c now) = cf_retry_limit c /\
               cf_backoff_seconds (fail_at c now) = cf_backoff_seconds c /\
               cf_retry_count (fail_at c now) = (cf_retry_count c + 1)%Z /\
               cf_failed_runs (fail_at c now) = (cf_failed_runs c + 1)%Z)
    by (unfold fail_at, handle_job_failure; by case_match).
  destruct Hc as (-> & -> & -> & ->). split_and!; [done|done|lia|lia].
Qed.

Lemma fail_enabled nows c :
  cf_enabled c = true -> (cf_retry_count c = 0)%Z ->
  (cf_retry_limit c = 0 \/ Z.of_nat (length nows) <= cf_retry_limit c)%Z ->
  cf_enabled (fold_left fail_at nows c) = true.
Proof.
  intros He Hr. induction nows as [|now nows IH] using rev_ind; intros Hl; [done|].
  rewrite length_app in Hl. cbn in Hl. rewrite fold_left_app. cbn.
  destruct (fail_counts nows c) as (El & _ & Ec & _).
  unfold fail_at at 1, handle_job_failure. cbn. rewrite El, Ec, Hr.
  destruct ((cf_retry_limit c =? 0)%Z || (0 + Z.of_nat (length nows) + 1 <=? cf_retry_limit c)%Z) eqn:E.
  - cbn. apply IH. lia.
  - apply orb_false_iff in E as [E1%Z.eqb_neq E2%Z.leb_gt]. lia.
Qed.

(** consecutive failures of a scheduled job are counted, and back off twice
    as long each time, at most an hour where the retries are unlimited; the
    failure after the last retry turns the job off, and no other does. *)
Theorem failures_back_off c nows now :
  cf_enabled c = true -> (cf_retry_count c = 0)%Z -> (0 <= cf_retry_limit c)%Z ->
  let n := (Z.of_nat (length nows) + 1)%Z in
  let c' := fold_left fail_at (nows ++ [now]) c in
  let backoff := (cf_backoff_seconds c * 2 ^ (n - 1))%Z in
  cf_retry_count c' = n /\ cf_failed_runs c' = (cf_failed_runs c + n)%Z /\
  if (cf_retry_limit c =? 0)%Z || (n <=? cf_retry_limit c)%Z
  then cf_enabled c' = true /\
       cf_next_run_at c' = Some (now + (if (cf_retry_limit c =? 0)%Z then Z.min backoff 3600 else backoff)
                                       * us_per_second)%Z
  else cf_enabled c' = false.
Proof.
  intros He Hr Hlim n c' backoff.
  assert (Hn : n = Z.of_nat (length (nows ++ [now]))) by (rewrite length_app; cbn; lia).
  destruct (fail_counts (nows ++ [now]) c) as (_ & _ & Hc & Hf). rewrite Hr in Hc.
  split; [unfold c'; lia|]. split; [unfold c'; lia|]. clear Hc Hf.
  destruct (fail_counts nows c) as (El & Eb & Ec & _).
  destruct ((cf_retry_limit c =? 0)%Z || (n <=? cf_retry_limit c)%Z) eqn:E.
  - split; [apply fail_enabled; [done|done|]; lia|].
    unfold c'. rewrite fold_left_app. cbn. unfold fail_at at 1, handle_job_failure. cbn.
    rewrite El, Eb, Ec, Hr. replace (0 + Z.of_nat (length nows) + 1)%Z with n by lia. by rewrite E.
  - unfold c'. rewrite fold_left_app. cbn. unfold fail_at at 1, handle_job_failure. cbn.
    rewrite El, Ec, Hr. replace (0 + Z.of_nat (length nows) + 1)%Z with n by lia. by rewrite E.
Qed.

(** In a zone at a fixed offset from UTC, a daily cron job runs next within
    a day from now, strictly later than now, at the hour and minute it names on
    the zone's clock. *)
Theorem cron_daily_next now tz off minute hour h m rest :
  (forall i, local_of tz i = i + off)%Z -> (forall w, utc_of tz w = w - off)%Z ->
  int_of_word minute = Ok m -> int_of_word hour = Ok h ->
  (0 <= m <= 59)%Z -> (0 <= h <= 23)%Z ->
  exists next, cron_next now tz (minute :: hour :: "*" :: "*" :: "*" :: rest) = Ok next /\
    (now < next <= now + us_per_day)%Z /\
    ((next + off) mod us_per_day = h * us_per_hour + m * us_per_minute)%Z.
Proof.
  intros Hl Hu Hm Hh Hmr Hhr. unfold cron_next.
  assert (Hns : forall w z, int_of_word w = Ok z -> String.eqb w "*" = false).
  { intros w z Hw. destruct (String.eqb_spec w "*"); [by subst|done]. }
  rewrite (Hns _ _ Hm), (Hns _ _ Hh). cbn [negb andb String.eqb Ascii.eqb Bool.eqb].
  rewrite Hh, Hm. cbn [mbind res_bind]. unfold at_time.
  assert (((0 <=? h) && (h <=? 23) && (0 <=? m) && (m <=? 59))%Z = true) as -> by lia.
  cbn [mbind res_bind]. rewrite !Hl, Hu.
  set (w := (now + off)%Z). set (next := (w / us_per_day * us_per_day + h * us_per_hour + m * us_per_minute)%Z).
  eexists. split; [reflexivity|].
  pose proof (Z.div_mod w us_per_day ltac:(done)) as Hd.
  pose proof (Z.mod_pos_bound w us_per_day ltac:(done)) as Hb.
  assert (Hr : (0 <= h * us_per_hour + m * us_per_minute < us_per_day)%Z).
  { unfold us_per_day, us_per_hour, us_per_minute, us_per_second. lia. }
  assert (Hmod : forall k, ((k * us_per_day + (h * us_per_hour + m * us_per_minute)) mod us_per_day =
                       h * us_per_hour + m * us_per_minute)%Z).
  { intros k. rewrite Z.add_comm, Z.mod_add by done. by apply Z.mod_small. }
  destruct (Z.leb_spec next w) as [Hle|Hgt].
  - split; [unfold next, w in *; lia|].
    replace (next + us_per_day - off + off)%Z with
      ((w / us_per_day + 1) * us_per_day + (h * us_per_hour + m * us_per_minute))%Z by (unfold next; lia).
    apply Hmod.
  - split; [unfold next, w in *; lia|].
    replace (next - off + off)%Z with
      (w / us_per_day * us_per_day + (h * us_per_hour + m * us_per_minute))%Z by (unfold next; lia).
    apply Hmod.
Qed.
End Properties.

(** ** Witnesses *)
Definition utc_only : Zones :=
  {| zone_known := fun z => String.eqb z "UTC"; local_of := fun _ i => i; utc_of := fun _ w => w |}.

Definition demo_config (trigger : SchedulerTriggerType) (cron : option string) (next : instant) : job_configuration :=
  JobConfiguration "cleanup" "cleanup_old_sessions" true trigger (Some 60%Z) cron "UTC" (Some next)
    300 0 None None 3 0 30 None None 0 0.

Definition demo_table : configurations := {[ "cleanup" := demo_config INTERVAL None 5 ]}.

(** The scheduler leases the due job and begins it; the request by hand is refused. *)
Definition demo_run : run :=
  Run "cleanup" 9 false (set_lease (Some 9%N) (Some (lease_until 10 (demo_config INTERVAL None 5)))
                                   (demo_config INTERVAL None 5)) 11.

Definition demo_busy : sched :=
  Sched (process_due_jobs demo_table 10 (fun _ => false) [9%N]).2 [] [] [demo_run]
        [(9%N, lease_until 10 (demo_config INTERVAL None 5))] 11.

Lemma demo_busy_reachable : star (sched_step (H := utc_only)) (sched_start demo_table 0) demo_busy.
Proof.
  eapply star_step; [|apply star_one].
  - eapply (sched_due (H := utc_only) _ _ _ _ _ _ 10 (fun _ => false) [9%N]); [lia|..].
    + apply NoDup_singleton.
    + repeat constructor. by intros ?%elem_of_nil.
    + vm_compute. reflexivity.
    + reflexivity.
  - eapply (sched_begin (H := utc_only) _ [] [] _ _ _ 10 11 "cleanup" 9 demo_run); [lia|].
    vm_compute. reflexivity.
Qed.

Lemma demo_unleased : unleased demo_table.
Proof.
  intros key c Hc. unfold demo_table in Hc. apply lookup_singleton_Some in Hc as [<- <-]. done.
Qed.

Lemma lease_excludes_witness :
  lease_for_manual_run (sc_jobs demo_busy) 12 "cleanup" 4 = Raise SchedulerJobBusyException /\
  demo_run = demo_run.
Proof.
  split; [vm_compute; reflexivity|].
  apply (lease_excludes (H := utc_only) demo_table 0 demo_busy demo_run demo_run
           (lease_until 10 (demo_config INTERVAL None 5)) (lease_until 10 (demo_config INTERVAL None 5))).
  - exact demo_unleased.
  - exact demo_busy_reachable.
  - left.
  - left.
  - reflexivity.
  - left.
  - left.
  - vm_compute. reflexivity.
  - vm_compute. reflexivity.
Defined.

Lemma interval_grid_witness :
  exists n, calculate_next_run (H := utc_only) (200 * us_per_second) 0 (demo_config INTERVAL None 5) = Ok (Some n) /\
    (200 * us_per_second < n)%Z.
Proof.
  destruct (interval_grid (H := utc_only) (200 * us_per_second) 0 (demo_config INTERVAL None 5))
    as (n & k & E & _ & _ & Hn & _).
  - reflexivity.
  - vm_compute. intros Hc; discriminate Hc.
  - exists n. split; [exact E|exact Hn].
Defined.

Lemma failures_back_off_witness :
  cf_enabled (fold_left fail_at [1; 2; 3; 4]%Z (demo_config INTERVAL None 5)) = false.
Proof.
  destruct (failures_back_off (demo_config INTERVAL None 5) [1; 2; 3]%Z 4) as (_ & _ & He).
  - reflexivity.
  - reflexivity.
  - vm_compute. intros Hc; discriminate Hc.
  - exact He.
Defined.

Lemma cron_daily_next_witness :
  words "0 2 * * *" = ["0"; "2"; "*"; "*"; "*"] /\
  exists next, cron_next (H := utc_only) 5 "UTC" ["0"; "2"; "*"; "*"; "*"] = Ok next /\ (5 < next)%Z.
Proof.
  split; [vm_compute; reflexivity|].
  destruct (cron_daily_next (H := utc_only) 5 "UTC" 0 "0" "2" 2 0 []) as (next & E & Hn & _).
  - intros i. cbn. lia.
  - intros w. cbn. lia.
  - reflexivity.
  - reflexivity.
  - lia.
  - lia.
  - exists next. split; [exact E|lia].
Defined.
