(* ===== verification/Scopes.v ===== *)
(** * What a token may do

    The scope vocabulary (core/authorization/scopes.py), the gates of the admin
    API that read it (api/deps.py) and of the MCP server
    (mcp/authorization/gates.py, registry.py).  A scope is the text a token row
    holds; a refusal is an exception or a denial code. *)

From S2P Require Import Prelude Py Text Store Liveness Assignment.

Inductive UserRole := ADMIN | EDITOR | VIEWER.
#[global] Instance UserRole_eq : EqDecision UserRole.
Proof. solve_decision. Defined.

(** ** core/authorization/scopes.py *)

Definition FAMILIES : list string :=
  ["agents"; "alerts"; "checks"; "jobs"; "notifications"; "registration_keys"; "scheduler"; "settings";
   "status_pages"; "users"].
Definition ACTIONS : list string := ["read"; "write"; "admin"].
Definition DEFAULT_SCOPES : list string := ["*:read"].

(** [[a-z_]] *)
Definition scope_char (c : ascii) : bool :=
  let n := N_of_ascii c in ((97 <=? n) && (n <=? 122) || (n =? 95))%N.

Fixpoint all_scope_chars (s : string) : bool :=
  match s with EmptyString => true | String c s' => scope_char c && all_scope_chars s' end.

(** [\*|[a-z_]+] *)
Definition scope_part (s : string) : bool :=
  String.eqb s "*" || negb (String.eqb s "") && all_scope_chars s.

(** [$] also matches before one final newline. *)
Fixpoint chomp (s : string) : string :=
  match s with
  | EmptyString => EmptyString
  | String c EmptyString => if Ascii.eqb c (ascii_of_N 10) then EmptyString else s
  | String c s' => String c (chomp s')
  end.

(** [s.split(":", 1)] when it has two parts. *)
Fixpoint split_colon (s : string) : option (string * string) :=
  match s with
  | EmptyString => None
  | String c s' =>
      if Ascii.eqb c ":" then Some ("", s')
      else '(f, a) ← split_colon s'; Some (String c f, a)
  end.

(** A text that matches the pattern without a colon is ["*\n"], which the split
    refuses with a ValueError too. *)
Definition parse_scope_string (scope : string) : res (string * string) :=
  if String.eqb scope "*" then Ok ("*", "*")
  else match split_colon scope with
       | Some (family, action) =>
           if scope_part family && scope_part (chomp action) then Ok (family, action) else Raise ValueError
       | None => Raise ValueError
       end.

Definition validate_scope (scope : string) : bool :=
  match parse_scope_string scope with
  | Ok (family, action) =>
      (String.eqb family "*" || bool_decide (family ∈ FAMILIES))
      && (String.eqb action "*" || bool_decide (action ∈ ACTIONS))
  | Raise _ => false
  end.

Definition atom (family action : string) : string := family +:+ ":" +:+ action.

Definition expand_wildcards (scopes : list string) : gset string :=
  list_to_set (s ← scopes;
    if validate_scope s then
      match parse_scope_string s with
      | Ok (family, action) =>
          f ← (if String.eqb family "*" then FAMILIES else [family]);
          a ← (if String.eqb action "*" then ACTIONS else [action]);
          [atom f a]
      | Raise _ => []
      end
    else []).

Definition scopes_or_default (granted : list string) : list string :=
  match granted with [] => DEFAULT_SCOPES | _ => granted end.

Definition scope_grants (granted_scopes : list string) (required : string) : bool :=
  let granted := scopes_or_default granted_scopes in
  validate_scope required &&
  match parse_scope_string required with
  | Ok (family, action) =>
      negb (String.eqb family "*" || String.eqb action "*")
      && bool_decide (required ∈ expand_wildcards granted)
  | Raise _ => false
  end.

(** ** api/deps.py *)

Record ApiPrincipal := {
  pr_user_id : uuid;
  pr_role : UserRole;
  pr_token_id : uuid;
  pr_token_name : string;
  pr_token_expires_at : option instant;
  pr_scopes : list string;
}.

Definition require_api_editor (p : ApiPrincipal) : res ApiPrincipal :=
  if bool_decide (pr_role p ∈ [ADMIN; EDITOR]) then Ok p else Raise (HTTPException 403 "").
Definition require_api_admin (p : ApiPrincipal) : res ApiPrincipal :=
  if bool_decide (pr_role p = ADMIN) then Ok p else Raise (HTTPException 403 "").

Definition READ_METHODS : list string := ["GET"; "HEAD"].

(** The scope a router's dependency requires of a request. *)
Definition required_scope (family : string) (admin_writes : bool) (http_method : string) : string :=
  atom family (if bool_decide (http_method ∈ READ_METHODS) then "read"
               else if admin_writes then "admin" else "write").

Definition require_scope (family : string) (admin_writes : bool) (http_method : string) (p : ApiPrincipal) : res unit :=
  if scope_grants (pr_scopes p) (required_scope family admin_writes http_method) then Ok tt
  else Raise (HTTPException 403 "").

Definition require_scopes (required : list string) (p : ApiPrincipal) : res unit :=
  fold_res (fun _ scope => if scope_grants (pr_scopes p) scope then Ok tt else Raise (HTTPException 403 "")) tt required.

Definition require_bulk_create_scopes (alert_ids : list uuid) (p : ApiPrincipal) : res unit :=
  if negb (bool_decide (alert_ids = [])) && negb (scope_grants (pr_scopes p) "alerts:write")
  then Raise (HTTPException 403 "") else Ok tt.

(** ** mcp/authorization *)

Record ToolGate := { tg_scopes : list string; tg_role : UserRole }.

Definition viewer_gate (scopes : list string) : ToolGate := {| tg_scopes := scopes; tg_role := VIEWER |}.
Definition editor_gate (scopes : list string) : ToolGate := {| tg_scopes := scopes; tg_role := EDITOR |}.

Definition REGISTRY : list (string * ToolGate) :=
  [("get_agent", viewer_gate ["agents:read"]); ("list_agents", viewer_gate ["agents:read"]);
   ("get_alert", viewer_gate ["alerts:read"]); ("list_alerts", viewer_gate ["alerts:read"]);
   ("snooze_alert_check", viewer_gate ["alerts:write"]); ("unsnooze_alert_check", viewer_gate ["alerts:write"]);
   ("clone_check", editor_gate ["checks:write"]); ("create_check", editor_gate ["checks:write"]);
   ("disable_check", editor_gate ["checks:write"]); ("enable_check", editor_gate ["checks:write"]);
   ("get_check", viewer_gate ["checks:read"]); ("get_check_history", viewer_gate ["checks:read"]);
   ("get_check_results", viewer_gate ["checks:read"]); ("get_check_summary", viewer_gate ["checks:read"]);
   ("list_checks", viewer_gate ["checks:read"]); ("update_check", editor_gate ["checks:write"]);
   ("create_checks_from_job", editor_gate ["jobs:write"; "checks:write"]); ("create_job", editor_gate ["jobs:write"]);
   ("get_job", viewer_gate ["jobs:read"]); ("get_maintenance_job", viewer_gate ["jobs:read"]);
   ("list_job_types", viewer_gate ["jobs:read"]); ("list_jobs", viewer_gate ["jobs:read"])].

Definition get_gate (tool_name : string) : option ToolGate := assoc_get REGISTRY tool_name.
Definition META_TOOLS : list string := ["whoami"].
Definition is_meta_tool (tool_name : string) : bool := bool_decide (tool_name ∈ META_TOOLS).

Inductive MCPDenialCode := UNKNOWN_TOOL | ROLE_INSUFFICIENT | SCOPE_INSUFFICIENT (required_scope : string).
#[global] Instance MCPDenialCode_eq : EqDecision MCPDenialCode.
Proof. solve_decision. Defined.

Definition rank (r : UserRole) : Z := match r with VIEWER => 0 | EDITOR => 1 | ADMIN => 2 end.

(** [None] allows. *)
Definition authorize_tool_call (p : ApiPrincipal) (tool_name : string) : option MCPDenialCode :=
  if is_meta_tool tool_name then None
  else match get_gate tool_name with
       | None => Some UNKNOWN_TOOL
       | Some gate =>
           if (rank (pr_role p) <? rank (tg_role gate))%Z then Some ROLE_INSUFFICIENT
           else SCOPE_INSUFFICIENT <$> head (filter (fun s => scope_grants (pr_scopes p) s = false) (tg_scopes gate))
       end.

Definition may_call (p : ApiPrincipal) (tool_name : string) : bool :=
  bool_decide (authorize_tool_call p tool_name = None).

(** [list_tools]: with nobody authenticated, the meta tools. *)
Definition list_tools (principal : option ApiPrincipal) (all_tools : list string) : list string :=
  match principal with
  | None => filter (fun t => is_meta_tool t = true) all_tools
  | Some p => filter (fun t => may_call p t = true) all_tools
  end.

(** [call_tool], up to the dispatch: the handler runs, or the denial. *)
Definition call_tool {A} (principal : option ApiPrincipal) (handlers : string -> option A) (name : string)
    : res (A + MCPDenialCode) :=
  match principal with
  | None => Raise (RuntimeError "principal missing from MCP context")
  | Some p =>
      match authorize_tool_call p name with
      | Some denial => Ok (inr denial)
      | None => match handlers name with
                | Some h => Ok (inl h)
                | None => Raise (RuntimeError "Tool is registered but has no handler")
                end
      end
  end.

(** ** The web form's access choices (api_token_core_service.py) *)

Inductive ApiTokenAccess := READ | WRITE | FULL.

Definition ACCESS_SCOPES : list (ApiTokenAccess * list string) :=
  [(READ, ["*:read"]); (WRITE, ["*:read"; "*:write"]); (FULL, ["*"])].

Definition scopes_for (access : ApiTokenAccess) : list string :=
  match access with READ => ["*:read"] | WRITE => ["*:read"; "*:write"] | FULL => ["*"] end.

Definition access_of (scopes : list string) : option ApiTokenAccess :=
  fst <$> head (filter (fun kv => sort_strings kv.2 = sort_strings scopes) ACCESS_SCOPES).

(** [ApiTokenCreate._known_scopes]: known scopes only, the repeated ones once. *)
Definition known_scopes (scopes : list string) : res (list string) :=
  if forallb validate_scope scopes then Ok (reverse (remove_dups (reverse scopes))) else Raise ValueError.
