(* ===== verification/ScopesTheorems.v ===== *)
(** * What a token may do: properties

    A scope set grants an atom exactly when one of five texts is in it
    ([scope_grants_iff]); the gates built on it let a call through exactly when
    the role and every scope of the tool's gate do, and a read-only token or a
    viewer changes nothing through the MCP server beyond a snooze. *)

From S2P Require Import Prelude Py Text Store Liveness Assignment AssignmentTheorems Scopes.

(** ** Parsing and printing *)

Lemma split_colon_spec s f a : split_colon s = Some (f, a) -> s = atom f a.
Proof.
  revert f. induction s as [|c s IH]; intros f; cbn; [done|].
  destruct (Ascii.eqb_spec c ":") as [->|Hc]; [by intros [= <- <-]|].
  destruct (split_colon s) as [[f' a']|]; cbn; [|done]. intros [= <- <-]. by rewrite (IH f' eq_refl).
Qed.

Lemma parsed_atom s f a :
  parse_scope_string s = Ok (f, a) -> s = atom f a \/ s = "*" /\ f = "*" /\ a = "*".
Proof.
  unfold parse_scope_string. destruct (String.eqb_spec s "*") as [->|_]; [intros [= <- <-]; by right|].
  destruct (split_colon s) as [[f' a']|] eqn:E; [|done]. destruct (_ && _); [|done].
  intros [= <- <-]. left. by apply split_colon_spec.
Qed.

Definition family_or_any : list string := "*" :: FAMILIES.
Definition action_or_any : list string := "*" :: ACTIONS.

(** A fact of every family and action, checked one by one. *)
Lemma every_scope (P : string -> string -> bool) :
  forallb (fun f => forallb (P f) action_or_any) family_or_any = true ->
  forall f a, f ∈ family_or_any -> a ∈ action_or_any -> P f a = true.
Proof.
  intros H f a Hf Ha. rewrite forallb_forall in H. pose proof (H f ltac:(by apply list_elem_of_In)) as Hr.
  rewrite forallb_forall in Hr. apply Hr. by apply list_elem_of_In.
Qed.

Definition round_trips (f a : string) : bool :=
  match parse_scope_string (atom f a) with
  | Ok (f', a') => String.eqb f' f && String.eqb a' a
  | Raise _ => false
  end && validate_scope (atom f a).

(** Printing then parsing a scope of the vocabulary, wildcards included, gives
    its family and action back, and it validates. *)
Theorem scope_roundtrip f a :
  f ∈ family_or_any -> a ∈ action_or_any ->
  parse_scope_string (atom f a) = Ok (f, a) /\ validate_scope (atom f a) = true.
Proof.
  intros Hf Ha.
  pose proof (every_scope round_trips ltac:(vm_compute; reflexivity) f a Hf Ha) as H. unfold round_trips in H.
  apply andb_true_iff in H as [H ?]. split; [|done]. destruct (parse_scope_string _) as [[f' a']|]; [|done].
  apply andb_true_iff in H as [->%String.eqb_eq ->%String.eqb_eq]. done.
Qed.

Lemma validated s : validate_scope s = true ->
  exists f a, parse_scope_string s = Ok (f, a) /\ f ∈ family_or_any /\ a ∈ action_or_any.
Proof.
  unfold validate_scope. destruct (parse_scope_string s) as [[f a]|]; [|done].
  intros [Hf Ha]%andb_true_iff. exists f, a. split; [done|]. unfold family_or_any, action_or_any.
  rewrite !elem_of_cons. split.
  - apply orb_true_iff in Hf as [Hf|Hf]; [left; by apply String.eqb_eq|right; by apply bool_decide_eq_true in Hf].
  - apply orb_true_iff in Ha as [Ha|Ha]; [left; by apply String.eqb_eq|right; by apply bool_decide_eq_true in Ha].
Qed.

(** ** Granting *)

Lemma elem_of_expand scopes x :
  x ∈ expand_wildcards scopes <->
  exists s f a f0 a0, s ∈ scopes /\ validate_scope s = true /\ parse_scope_string s = Ok (f, a) /\
    f0 ∈ (if String.eqb f "*" then FAMILIES else [f]) /\ a0 ∈ (if String.eqb a "*" then ACTIONS else [a]) /\
    x = atom f0 a0.
Proof.
  unfold expand_wildcards. rewrite elem_of_list_to_set, list_elem_of_bind. split.
  - intros (s & Hx & Hs). destruct (validate_scope s) eqn:Ev; [|by apply elem_of_nil in Hx].
    destruct (parse_scope_string s) as [[f a]|] eqn:Ep; [|by apply elem_of_nil in Hx].
    apply list_elem_of_bind in Hx as (f0 & Hx & Hf0). apply list_elem_of_bind in Hx as (a0 & Hx & Ha0).
    apply list_elem_of_singleton in Hx as ->. exists s, f, a, f0, a0. done.
  - intros (s & f & a & f0 & a0 & Hs & Hv & Hp & Hf0 & Ha0 & ->). exists s. split; [|done]. rewrite Hv, Hp.
    apply list_elem_of_bind. exists f0. split; [|done]. apply list_elem_of_bind. exists a0. split; [|done].
    by apply list_elem_of_singleton.
Qed.

(** The texts that grant [f:a]. *)
Definition granting (f a : string) : list string := [atom f a; atom f "*"; atom "*" a; atom "*" "*"; "*"].

Lemma concrete_any {A} (l : list A) x y : x ∈ l -> x ∈ y :: l.
Proof. by right. Qed.

Lemma not_wild f a : f ∈ FAMILIES -> a ∈ ACTIONS -> String.eqb f "*" = false /\ String.eqb a "*" = false.
Proof.
  assert (H : forall l x, forallb (fun y => negb (String.eqb y "*")) l = true -> x ∈ l -> String.eqb x "*" = false).
  { intros l x H Hx. rewrite forallb_forall in H. by apply negb_true_iff, H, list_elem_of_In. }
  intros Hf Ha. split; [by apply (H FAMILIES)|by apply (H ACTIONS)].
Qed.

(** The part of a scope, a name or the wildcard, that covers a name. *)
Lemma covering (l : list string) f f0 :
  f ∈ "*" :: l -> f0 ∈ (if String.eqb f "*" then l else [f]) -> f0 ∈ l /\ (f = f0 \/ f = "*").
Proof.
  intros Hf. destruct (String.eqb_spec f "*") as [->|Hne]; [by auto|].
  intros ->%list_elem_of_singleton. split; [|by left]. by apply elem_of_cons in Hf as [|].
Qed.

Lemma covered (l : list string) f f0 :
  f0 ∈ l -> String.eqb f0 "*" = false -> f = f0 \/ f = "*" ->
  f ∈ "*" :: l /\ f0 ∈ (if String.eqb f "*" then l else [f]).
Proof.
  intros Hf0 Hne [->| ->]; [|split; [left|done]]. rewrite Hne. split; [by right|]. by apply list_elem_of_singleton.
Qed.

(** a scope set grants a required scope exactly when that is a family and an
    action of the vocabulary and the set (or, when it is empty, the read-only
    default) holds one of the five texts that cover it: the scope itself, its
    family's wildcard, its action's wildcard, "*:*" or "*".  Nothing malformed
    or unknown grants, or is granted, anything. *)
Theorem scope_grants_iff granted required :
  scope_grants granted required = true <->
  exists f a, f ∈ FAMILIES /\ a ∈ ACTIONS /\ required = atom f a /\
    exists s, s ∈ scopes_or_default granted /\ s ∈ granting f a.
Proof.
  unfold scope_grants. split.
  - intros [Hv Hr]%andb_true_iff. destruct (validated _ Hv) as (f & a & Hp & _). rewrite Hp in Hr.
    apply andb_true_iff in Hr as [_ Hr%bool_decide_eq_true].
    apply elem_of_expand in Hr as (s & f' & a' & f0 & a0 & Hs & Hvs & Hps & Hf0 & Ha0 & ->).
    destruct (validated _ Hvs) as (f1 & a1 & Hps' & Hf1 & Ha1). rewrite Hps in Hps'. injection Hps' as <- <-.
    destruct (covering _ _ _ Hf1 Hf0) as [Hf0' Hf'], (covering _ _ _ Ha1 Ha0) as [Ha0' Ha'].
    exists f0, a0. split; [done|]. split; [done|]. split; [done|]. exists s. split; [done|]. unfold granting.
    rewrite !elem_of_cons. destruct (parsed_atom _ _ _ Hps) as [E|(E & _)]; [|by auto 6].
    destruct Hf' as [->| ->], Ha' as [->| ->]; auto 6.
  - intros (f & a & Hf & Ha & -> & s & Hs & Hg).
    destruct (scope_roundtrip f a (concrete_any _ _ _ Hf) (concrete_any _ _ _ Ha)) as [Hp Hv].
    destruct (not_wild f a Hf Ha) as [Hnf Hna]. rewrite Hv, Hp, Hnf, Hna. cbn. apply bool_decide_eq_true.
    assert (Hsc : exists f' a', parse_scope_string s = Ok (f', a') /\ validate_scope s = true /\
              (f' = f \/ f' = "*") /\ (a' = a \/ a' = "*")).
    { unfold granting in Hg. rewrite !elem_of_cons, elem_of_nil in Hg.
      pose proof (concrete_any FAMILIES f "*" Hf). pose proof (concrete_any ACTIONS a "*" Ha).
      assert (Hw : "*" ∈ family_or_any) by left. assert (Hw' : "*" ∈ action_or_any) by left.
      destruct Hg as [->|[->|[->|[->|[->|[]]]]]]; [| | | |by exists "*", "*"; auto];
        (eexists _, _; split; [apply scope_roundtrip; done|]; split; [apply scope_roundtrip; done|]; auto). }
    destruct Hsc as (f' & a' & Hp' & Hv' & Hf' & Ha').
    destruct (covered FAMILIES f' f Hf Hnf Hf') as [_ ?], (covered ACTIONS a' a Ha Hna Ha') as [_ ?].
    apply elem_of_expand. exists s, f', a', f, a. done.
Qed.

(** ** The MCP gates *)

Definition reading_tools : list string :=
  ["whoami"; "get_agent"; "list_agents"; "get_alert"; "list_alerts"; "get_check"; "get_check_history";
   "get_check_results"; "get_check_summary"; "list_checks"; "get_job"; "get_maintenance_job"; "list_job_types";
   "list_jobs"].
Definition snoozing_tools : list string := ["snooze_alert_check"; "unsnooze_alert_check"].

(** A set of scopes that only read; the empty one stands for the default. *)
Definition reads_only (scopes : list string) : Prop :=
  forall s, s ∈ scopes -> exists f, parse_scope_string s = Ok (f, "read").

Definition reads (scope : string) : bool :=
  match parse_scope_string scope with Ok (_, a) => String.eqb a "read" | Raise _ => false end.

Lemma assoc_elem {V} (d : list (string * V)) k v : assoc_get d k = Some v -> (k, v) ∈ d.
Proof.
  induction d as [|[k' v'] d IH]; cbn; [done|]. destruct (assoc_get d k) as [w|].
  - intros E. right. by apply IH.
  - destruct (decide (k = k')) as [->|]; [|done]. intros [= ->]. left.
Qed.

(** What the registry says of a tool it gates, tool by tool. *)
Lemma gate_facts t g :
  get_gate t = Some g ->
  (t ∈ reading_tools \/ exists s, s ∈ tg_scopes g /\ reads s = false) /\
  (t ∈ reading_tools ++ snoozing_tools \/ tg_role g = EDITOR).
Proof.
  intros Hg%assoc_elem.
  assert (H : forallb (fun kv => (bool_decide (kv.1 ∈ reading_tools) || existsb (fun s => negb (reads s)) (tg_scopes kv.2))
      && (bool_decide (kv.1 ∈ reading_tools ++ snoozing_tools) || bool_decide (tg_role kv.2 = EDITOR))) REGISTRY = true)
    by (vm_compute; reflexivity).
  rewrite forallb_forall in H. specialize (H (t, g) ltac:(by apply list_elem_of_In)). cbn [fst snd] in H.
  apply andb_true_iff in H as [H1 H2]. split.
  - apply orb_true_iff in H1 as [H1|H1]; [left; by apply bool_decide_eq_true in H1|right].
    apply existsb_exists in H1 as (s & Hs & Hr). exists s. split; [by apply list_elem_of_In|by apply negb_true_iff].
  - apply orb_true_iff in H2 as [H2|H2]; [left|right]; by apply bool_decide_eq_true in H2.
Qed.

Lemma read_grants_read scopes required :
  reads_only scopes -> scope_grants scopes required = true -> reads required = true.
Proof.
  intros Hro (f & a & Hf & Ha & -> & s & Hs & Hg)%scope_grants_iff.
  assert (Hr : exists f', parse_scope_string s = Ok (f', "read")).
  { destruct scopes as [|s0 scopes]; [|by apply Hro]. apply list_elem_of_singleton in Hs as ->. by exists "*". }
  destruct Hr as [f' Hr]. destruct (not_wild f a Hf Ha) as [_ Hna].
  pose proof (concrete_any FAMILIES f "*" Hf). pose proof (concrete_any ACTIONS a "*" Ha).
  assert (Hw : "*" ∈ family_or_any) by left. assert (Hw' : "*" ∈ action_or_any) by left.
  unfold reads. destruct (scope_roundtrip f a) as [-> _]; [done..|]. apply String.eqb_eq.
  unfold granting in Hg. rewrite !elem_of_cons, elem_of_nil in Hg.
  destruct Hg as [->|[->|[->|[->|[->|[]]]]]];
    [destruct (scope_roundtrip f a) as [Hp _]|destruct (scope_roundtrip f "*") as [Hp _]
    |destruct (scope_roundtrip "*" a) as [Hp _]|destruct (scope_roundtrip "*" "*") as [Hp _]|]; try done;
    rewrite ?Hp in Hr; by injection Hr.
Qed.

(** What was let through passed both axes. *)
Lemma authorized p t :
  authorize_tool_call p t = None ->
  t ∈ META_TOOLS \/ exists g, get_gate t = Some g /\ (rank (tg_role g) <= rank (pr_role p))%Z /\
    forall s, s ∈ tg_scopes g -> scope_grants (pr_scopes p) s = true.
Proof.
  unfold authorize_tool_call, is_meta_tool. destruct (bool_decide_reflect (t ∈ META_TOOLS)); [by left|].
  destruct (get_gate t) as [g|]; [|done]. destruct (Z.ltb_spec (rank (pr_role p)) (rank (tg_role g))); [done|].
  destruct (filter _ _) as [|s l] eqn:E; [|done]. intros _. right. exists g. split; [done|]. split; [lia|].
  intros s Hs. destruct (scope_grants (pr_scopes p) s) eqn:Eg; [done|]. exfalso.
  assert (Hin : s ∈ filter (fun s => scope_grants (pr_scopes p) s = false) (tg_scopes g))
    by (by apply list_elem_of_filter). rewrite E in Hin. by apply elem_of_nil in Hin.
Qed.

(** Whatever an MCP call names, a token whose scopes only read gets through
    to the reading tools alone, whatever its user's role; and a viewer's token,
    whatever its scopes, gets through to those and the two that snooze.  A name
    the registry does not know gets through to nothing. *)
Theorem mcp_narrows p t :
  authorize_tool_call p t = None ->
  (reads_only (pr_scopes p) -> t ∈ reading_tools) /\
  (pr_role p = VIEWER -> t ∈ reading_tools ++ snoozing_tools).
Proof.
  intros [Hm|(g & Hg & Hr & Hs)]%authorized.
  { apply list_elem_of_singleton in Hm as ->. split; intros _; left. }
  destruct (gate_facts t g Hg) as [H1 H2]. split.
  - intros Hro. destruct H1 as [|(s & Hsg & Hw)]; [done|]. by rewrite (read_grants_read _ _ Hro (Hs s Hsg)) in Hw.
  - intros Hv. destruct H2 as [|He]; [done|]. rewrite Hv, He in Hr. cbn in Hr. lia.
Qed.

(** The access choice a token was created with is read back from its scopes,
    in whatever order they are kept, and only from those. *)
Theorem access_roundtrip scopes access :
  access_of scopes = Some access <-> scopes ≡ₚ scopes_for access.
Proof.
  assert (Hperm : forall a b, a ≡ₚ b <-> sort_strings a = sort_strings b).
  { intros a b. split; [apply sort_strings_perm|]. intros E.
    trans (sort_strings a); [symmetry; apply merge_sort_Permutation|]. rewrite E. apply merge_sort_Permutation. }
  rewrite Hperm. unfold access_of, ACCESS_SCOPES.
  repeat (rewrite filter_cons; cbn [snd]; destruct (decide _) as [<-|?]; cbn [head fmap option_fmap option_map fst]).
  1-3: destruct access; vm_compute; split; done.
  split; [done|]. intros E. by destruct access.
Qed.

(** ** Witnesses *)

Lemma scope_roundtrip_witness : "checks" ∈ family_or_any /\ parse_scope_string "checks:write" = Ok ("checks", "write").
Proof.
  assert (Hf : "checks" ∈ family_or_any) by (vm_compute; repeat first [left | right]).
  split; [exact Hf|]. apply (scope_roundtrip "checks" "write" Hf). vm_compute; repeat first [left | right].
Defined.

Definition demo_principal (role : UserRole) (scopes : list string) : ApiPrincipal :=
  {| pr_user_id := 1; pr_role := role; pr_token_id := 2; pr_token_name := "ci"; pr_token_expires_at := None;
     pr_scopes := scopes |}.

Lemma mcp_narrows_witness :
  authorize_tool_call (demo_principal ADMIN ["*:read"]) "create_check" = Some (SCOPE_INSUFFICIENT "checks:write") /\
  authorize_tool_call (demo_principal VIEWER ["*"]) "snooze_alert_check" = None /\
  "snooze_alert_check" ∈ reading_tools ++ snoozing_tools.
Proof.
  split; [vm_compute; reflexivity|]. split; [vm_compute; reflexivity|].
  apply (mcp_narrows (demo_principal VIEWER ["*"]) "snooze_alert_check"); [vm_compute; reflexivity|reflexivity].
Defined.
