(* ===== verification/AgentKeys.v ===== *)
(** * AgentKeys

    The agent's side of its credentials: agent/credentials.py (what is held, saved
    and cleared), agent/registration.py (registration, key recovery and their
    back-off), the credential part of agent/heartbeat.py and of core.py's
    callbacks, agent/http_client.py's reading of refusals, and the fetch of
    check_manager.py that registers an orphaned agent again.

    The server, the network, the disk and the monotonic clock are the
    surroundings, a parameter: any server, any failure.  An answer is what the
    agent reads of a response: its status, refusal header, Retry-After (where it
    is a finite number, in microseconds) and the fields of its JSON object; a field
    of another type than the protocol's is read as absent.  Every request, save,
    deletion and liveness stamp is an event of the trace. *)

From S2P Require Import Prelude Text Store Credentials.

(** ** Requests and answers *)

Inductive request :=
  | Register (authorization : option string)
  | RecoverKey (agent_id : uuid) (authorization recovery_secret : string)
  | Beat (agent_id : uuid) (authorization recovery_secret : option string)
  | FetchChecks (agent_id : uuid) (authorization : option string).
#[global] Instance request_eq_dec : EqDecision request.
Proof. solve_decision. Defined.

Record body := Body {
  ab_agent_id : option uuid;
  ab_recovery_secret : option string;
  ab_api_key : option string;
  ab_approval_status : option string;
  ab_agent_key_accepted : option bool;
  ab_config_version : option (option string);   (* the key absent, or its value *)
  ab_check_sync_interval : option Z;            (* a positive integer *)
  ab_block_private_networks : option bool;
}.
#[global] Instance body_eq_dec : EqDecision body.
Proof. solve_decision. Defined.

Record answer := Answer {
  an_status : Z; an_mark : option string; an_retry_after : option Z; an_body : option body }.
#[global] Instance answer_eq_dec : EqDecision answer.
Proof. solve_decision. Defined.

(** ** http_client.py: the refusals the agent believes *)

Definition REFUSAL_STATUSES : list Z := [401; 403]%Z.
Definition is_success (a : answer) : bool := ((200 <=? an_status a) && (an_status a <=? 299))%Z.

Definition refusal_mark (a : answer) : option string :=
  if bool_decide (an_status a ∈ REFUSAL_STATUSES) then
    match an_mark a with Some m => if String.eqb m "" then None else Some m | None => None end
  else None.
Definition is_marked_refusal (a : answer) : bool := bool_decide (refusal_mark a <> None).
Definition refuses_agent_key (a : answer) : bool := bool_decide (refusal_mark a = Some AGENT_KEY_REFUSED).
Definition refuses_recovery_secret (a : answer) : bool := bool_decide (refusal_mark a = Some RECOVERY_SECRET_REFUSED).
Definition refuses_registration_key (a : answer) : bool := bool_decide (refusal_mark a = Some REGISTRATION_KEY_REFUSED).

(** ** The agent *)

(** What the credentials file holds. *)
Record stored := Stored { st_agent_id : uuid; st_api_key : option string; st_recovery_secret : option string }.
#[global] Instance stored_eq_dec : EqDecision stored.
Proof. solve_decision. Defined.

Record credentials := MkCredentials {
  cr_agent_id : option uuid; cr_api_key : option string; cr_recovery_secret : option string; cr_unsaved : bool }.

(** [AgentRegistration]'s state *)
Record registration := Registration {
  recovery_refused : bool;
  recovery_not_before : instant;
  last_recovered : option instant;
  recovery_gap : Z;
  rg_secret_refused : bool;
  register_again_not_before : instant }.

(** The config entries that change; [None] of the third: no such entry. *)
Record config := Config { cf_agent_id : option uuid; cf_auth_key : option string; cf_registration_key : option (option string) }.

(** [HeartbeatSender]'s state; [last_check_sync] is [None] for minus infinity. *)
Record sender := Sender {
  key_refused : bool;
  hb_secret_refused : bool;
  hb_config_version : option string;
  config_version_known : bool;
  check_sync_interval : Z;
  last_check_sync : option instant }.

Record agent := Agent {
  ag_cf : config; ag_cr : credentials; ag_rg : registration; ag_hb : sender; ag_block_private : bool }.

Inductive event :=
  | Asked (sent : instant) (r : request) (a : option answer) (received : instant)
  | Wrote (s : stored) (ok : bool)
  | Deleted (ok : bool)
  | Stamped.

Class Surroundings := {
  outside : Type;
  monotonic : outside -> instant;
  ask : outside -> request -> outside * option answer;    (* None: no answer *)
  write_file : outside -> stored -> outside * bool;
  delete_file : outside -> outside * bool;
}.

Section Agent.
Context `{Surroundings}.

Record sys := Sys { s_agent : agent; s_out : outside; s_file : option stored; s_trace : list event }.

(** ** A computation of the agent: its effects on the system, and its result *)

Definition M (A : Type) : Type := sys -> A * sys.
Definition ret {A} (a : A) : M A := fun s => (a, s).
Definition bind {A B} (m : M A) (f : A -> M B) : M B := fun s => let '(a, s') := m s in f a s'.
Notation "x ⇐ m ; k" := (bind m (fun x => k)) (at level 20, m at level 100, k at level 200, right associativity).

Definition get : M agent := fun s => (s_agent s, s).
Definition modify (f : agent -> agent) : M unit :=
  fun s => (tt, Sys (f (s_agent s)) (s_out s) (s_file s) (s_trace s)).
Definition now : M instant := fun s => (monotonic (s_out s), s).
Definition send (r : request) : M (option answer) :=
  fun s => let '(o, a) := ask (s_out s) r in
           (a, Sys (s_agent s) o (s_file s) (s_trace s ++ [Asked (monotonic (s_out s)) r a (monotonic o)])).
Definition stamp_liveness : M unit :=
  fun s => (tt, Sys (s_agent s) (s_out s) (s_file s) (s_trace s ++ [Stamped])).

Definition set_cf (f : config -> config) (a : agent) : agent := Agent (f (ag_cf a)) (ag_cr a) (ag_rg a) (ag_hb a) (ag_block_private a).
Definition set_cr (c : credentials) (a : agent) : agent := Agent (ag_cf a) c (ag_rg a) (ag_hb a) (ag_block_private a).
Definition set_rg (f : registration -> registration) (a : agent) : agent := Agent (ag_cf a) (ag_cr a) (f (ag_rg a)) (ag_hb a) (ag_block_private a).
Definition set_hb (f : sender -> sender) (a : agent) : agent := Agent (ag_cf a) (ag_cr a) (ag_rg a) (f (ag_hb a)) (ag_block_private a).
Definition set_auth_key (k : option string) (c : config) : config := Config (cf_agent_id c) k (cf_registration_key c).
Definition set_agent_id (i : option uuid) (c : config) : config := Config i (cf_auth_key c) (cf_registration_key c).

(** ** credentials.py *)

Definition truthy_text (s : option string) : option string := if present s then s else None.

(** [save]: on success the file holds the credentials, and so does the memory. *)
Definition save (agent_id : uuid) (api_key recovery_secret : option string) : M bool :=
  a ⇐ get;
  let c := ag_cr a in
  let secret := match recovery_secret with
                | None => if bool_decide (cr_agent_id c = Some agent_id) then cr_recovery_secret c else None
                | Some _ => recovery_secret
                end in
  let data := Stored agent_id (truthy_text api_key) (truthy_text secret) in
  fun s =>
    let '(o, ok) := write_file (s_out s) data in
    (ok, Sys (if ok then set_cr (MkCredentials (Some agent_id) api_key secret false) (s_agent s) else s_agent s)
             o (if ok then Some data else s_file s) (s_trace s ++ [Wrote data ok])).

Definition hold_unsaved (api_key : string) : M unit :=
  modify (fun a => set_cr (MkCredentials (cr_agent_id (ag_cr a)) (Some api_key) (cr_recovery_secret (ag_cr a)) true) a).

Definition hold_unsaved_registration (agent_id : uuid) (recovery_secret : option string) : M unit :=
  modify (set_cr (MkCredentials (Some agent_id) None recovery_secret true)).

Definition retry_unsaved : M unit :=
  a ⇐ get;
  let c := ag_cr a in
  match cr_unsaved c, cr_agent_id c with
  | true, Some id =>
      ok ⇐ save id (cr_api_key c) (cr_recovery_secret c);
      if (ok : bool)
      then modify (fun a => set_cr (MkCredentials (cr_agent_id (ag_cr a)) (cr_api_key (ag_cr a)) (cr_recovery_secret (ag_cr a)) false) a)
      else ret tt
  | _, _ => ret tt
  end.

(** [clear]: the memory first, then the file, if there is one. *)
Definition clear : M bool :=
  _ ⇐ modify (set_cr (MkCredentials None None None false));
  fun s =>
    match s_file s with
    | None => (true, s)
    | Some _ =>
        let '(o, ok) := delete_file (s_out s) in
        (ok, Sys (s_agent s) o (if ok then None else s_file s) (s_trace s ++ [Deleted ok]))
    end.

(** [load] of a file that reads back, at startup. *)
Definition load : M bool :=
  fun s =>
    match s_file s with
    | None => (false, s)
    | Some f => (true, Sys (set_cr (MkCredentials (Some (st_agent_id f)) (st_api_key f) (st_recovery_secret f)
                                     (cr_unsaved (ag_cr (s_agent s)))) (s_agent s)) (s_out s) (s_file s) (s_trace s))
    end.

(** ** registration.py *)

Definition _DEFAULT_RETRY_AFTER : Z := 60 * us_per_second.
Definition _RECOVERY_REPEAT_WINDOW : Z := 3600 * us_per_second.
Definition _MIN_RECOVERY_GAP : Z := 60 * us_per_second.
Definition _REGISTER_AGAIN_WAIT : Z := 300 * us_per_second.
Definition _MAX_RETRY_AFTER : Z := 3600 * us_per_second.

Definition retry_after (a : answer) : Z :=
  match an_retry_after a with
  | Some seconds => Z.min (Z.max us_per_second seconds) _MAX_RETRY_AFTER
  | None => _DEFAULT_RETRY_AFTER
  end.

Definition registration_key (a : agent) : option string :=
  match cf_registration_key (ag_cf a) with Some key => key | None => cf_auth_key (ag_cf a) end.

(** [_hold_back_repeated_recovery] *)
Definition hold_back_repeated_recovery : M unit :=
  t ⇐ now;
  modify (set_rg (fun g =>
    match last_recovered g with
    | Some last =>
        if (t - last <? _RECOVERY_REPEAT_WINDOW)%Z then
          let gap := Z.min (Z.max (recovery_gap g * 2) _MIN_RECOVERY_GAP) _RECOVERY_REPEAT_WINDOW in
          Registration (recovery_refused g) (t + gap)%Z (Some t) gap (rg_secret_refused g) (register_again_not_before g)
        else Registration (recovery_refused g) (recovery_not_before g) (Some t) 0 (rg_secret_refused g) (register_again_not_before g)
    | None => Registration (recovery_refused g) (recovery_not_before g) (Some t) 0 (rg_secret_refused g) (register_again_not_before g)
    end)).

Definition register_with_server : M bool :=
  a ⇐ get;
  response ⇐ send (Register (truthy_text (registration_key a)));
  match response with
  | Some response =>
      if negb (is_success response) then ret false else
      match an_body response with
      | Some data =>
          match ab_agent_id data with
          | Some agent_id =>
              saved ⇐ save agent_id None (ab_recovery_secret data);
              _ ⇐ (if (saved : bool) then ret tt
                   else hold_unsaved_registration agent_id (ab_recovery_secret data));
              _ ⇐ modify (set_cf (set_agent_id (Some agent_id)));
              _ ⇐ modify (set_rg (fun g =>
                    Registration false 0 None 0 (rg_secret_refused g) (register_again_not_before g)));
              ret true
          | None => ret false
          end
      | None => ret false
      end
  | None => ret false
  end.

(** [_register_afresh] *)
Definition register_afresh : M bool :=
  _ ⇐ clear;
  _ ⇐ modify (set_cf (set_agent_id None));
  register_with_server.

Definition ensure_recoverable : M bool :=
  a ⇐ get;
  if present (cr_api_key (ag_cr a)) || present (cr_recovery_secret (ag_cr a)) then ret true
  else register_afresh.

Definition set_not_before (t : instant) (g : registration) : registration :=
  Registration (recovery_refused g) t (last_recovered g) (recovery_gap g) (rg_secret_refused g) (register_again_not_before g).
Definition set_rg_secret_refused (b : bool) (g : registration) : registration :=
  Registration (recovery_refused g) (recovery_not_before g) (last_recovered g) (recovery_gap g) b (register_again_not_before g).
Definition set_recovery_refused (g : registration) : registration :=
  Registration true (recovery_not_before g) (last_recovered g) (recovery_gap g) (rg_secret_refused g) (register_again_not_before g).
Definition set_register_again (t : instant) (g : registration) : registration :=
  Registration (recovery_refused g) (recovery_not_before g) (last_recovered g) (recovery_gap g) (rg_secret_refused g) t.

(** The status the recovery was refused with ([HTTPStatusError]). *)
Definition recovery_error (response : answer) : M bool :=
  if bool_decide (an_status response ∈ REFUSAL_STATUSES) && negb (is_marked_refusal response) then
    t ⇐ now; _ ⇐ modify (set_rg (set_not_before (t + _DEFAULT_RETRY_AFTER)%Z)); ret false
  else if refuses_recovery_secret response then
    _ ⇐ modify (set_rg (set_rg_secret_refused true)); ret false
  else if refuses_registration_key response then
    _ ⇐ modify (set_rg set_recovery_refused); ret false
  else if (an_status response =? 429)%Z then
    t ⇐ now; _ ⇐ modify (set_rg (set_not_before (t + retry_after response)%Z)); ret false
  else ret false.

Definition recover_agent_key : M bool :=
  a ⇐ get;
  t ⇐ now;
  if recovery_refused (ag_rg a) || (t <? recovery_not_before (ag_rg a))%Z then ret false else
  match truthy_text (cr_recovery_secret (ag_cr a)) with
  | None => _ ⇐ register_afresh; ret false
  | Some recovery_secret =>
      match cf_agent_id (ag_cf a), truthy_text (registration_key a) with
      | Some agent_id, Some key =>
          response ⇐ send (RecoverKey agent_id key recovery_secret);
          match response with
          | Some response =>
              if negb (is_success response) then recovery_error response else
              match an_body response with
              | Some data =>
                  match truthy_text (ab_api_key data) with
                  | Some api_key =>
                      _ ⇐ hold_back_repeated_recovery;
                      saved ⇐ save agent_id (Some api_key) None;
                      _ ⇐ (if (saved : bool) then ret tt else hold_unsaved api_key);
                      _ ⇐ modify (set_cf (set_auth_key (Some api_key)));
                      ret true
                  | None => ret false
                  end
              | None => ret false
              end
          | None => ret false
          end
      | _, _ => ret false
      end
  end.

Definition register_again_after_revoke : M bool :=
  a ⇐ get;
  t ⇐ now;
  if (t <? register_again_not_before (ag_rg a))%Z then ret false else
  go ⇐ (if rg_secret_refused (ag_rg a) then ret true
        else recovered ⇐ recover_agent_key;
             if (recovered : bool) then ret false
             else a' ⇐ get; ret (rg_secret_refused (ag_rg a')));
  if negb (go : bool) then ret false else
  registered ⇐ register_with_server;
  if negb (registered : bool) then
    t' ⇐ now; _ ⇐ modify (set_rg (set_register_again (t' + _REGISTER_AGAIN_WAIT)%Z)); ret false
  else
    _ ⇐ modify (set_rg (set_rg_secret_refused false));
    _ ⇐ modify (fun a => set_cf (set_auth_key (registration_key a)) a);
    ret true.

(** ** core.py: the callbacks *)

Definition handle_recovery_secret_refused : M bool := register_again_after_revoke.

Definition handle_agent_approved : M bool :=
  success ⇐ recover_agent_key;
  if (success : bool) then ret true else
  a ⇐ get;
  _ ⇐ (if rg_secret_refused (ag_rg a) then handle_recovery_secret_refused else ret false);
  ret false.

(** ** check_manager.py: [fetch_checks_from_server]

    Whether it returned the list, or raised; [None] when the bound on its
    recursion is reached. *)
Definition apply_policy (value : option bool) : M unit :=
  match value with
  | Some b => modify (fun a => Agent (ag_cf a) (ag_cr a) (ag_rg a) (ag_hb a) b)
  | None => ret tt
  end.

Fixpoint fetch_checks (fuel : nat) : M (option bool) :=
  match fuel with
  | O => ret None
  | S fuel =>
      a ⇐ get;
      match cf_agent_id (ag_cf a) with
      | None => ret (Some true)
      | Some agent_id =>
          response ⇐ send (FetchChecks agent_id (truthy_text (cf_auth_key (ag_cf a))));
          match response with
          | None => ret (Some false)
          | Some response =>
              if is_success response then
                match an_body response with
                | Some data => _ ⇐ apply_policy (ab_block_private_networks data); ret (Some true)
                | None => ret (Some false)
                end
              else if (an_status response =? 404)%Z then
                cleared ⇐ clear;
                if negb (cleared : bool) then ret (Some false) else
                registered ⇐ register_with_server;
                if (registered : bool) then fetch_checks fuel else ret (Some false)
              else ret (Some false)
          end
      end
  end.

(** ** heartbeat.py *)

Definition set_key_refused (b : bool) (h : sender) : sender :=
  Sender b (hb_secret_refused h) (hb_config_version h) (config_version_known h) (check_sync_interval h) (last_check_sync h).
Definition set_hb_secret_refused (b : bool) (h : sender) : sender :=
  Sender (key_refused h) b (hb_config_version h) (config_version_known h) (check_sync_interval h) (last_check_sync h).
Definition set_last_sync (t : option instant) (h : sender) : sender :=
  Sender (key_refused h) (hb_secret_refused h) (hb_config_version h) (config_version_known h) (check_sync_interval h) t.

(** [_auth_headers]: the Authorization key and the recovery secret. *)
Definition auth_headers (a : agent) : option string * option string :=
  (truthy_text (cf_auth_key (ag_cf a)),
   if present (cr_recovery_secret (ag_cr a)) && (negb (present (cr_api_key (ag_cr a))) || key_refused (ag_hb a))
   then cr_recovery_secret (ag_cr a) else None).

(** [_own_key_refused] *)
Definition own_key_refused (a : agent) (data : body) (sent_secret : bool) : option bool :=
  if negb (present (cr_api_key (ag_cr a))) then Some false
  else match ab_agent_key_accepted data with
       | Some accepted => Some (negb accepted)
       | None => if negb sent_secret then Some false else None
       end.

(** [_read_refusal] *)
Definition read_refusal (response : answer) (sent_secret : bool) : M unit :=
  a ⇐ get;
  if negb (is_marked_refusal response) then ret tt
  else if negb sent_secret then
    if present (cr_api_key (ag_cr a)) && (refuses_agent_key response || refuses_registration_key response)
    then modify (set_hb (set_key_refused true)) else ret tt
  else if refuses_recovery_secret response then modify (set_hb (set_hb_secret_refused true))
  else ret tt.

(** [_register_again_if_refused] *)
Definition register_again_if_refused : M unit :=
  a ⇐ get;
  if negb (hb_secret_refused (ag_hb a)) then ret tt else
  registered ⇐ handle_recovery_secret_refused;
  if (registered : bool)
  then modify (set_hb (fun h => set_key_refused false (set_hb_secret_refused false h)))
  else ret tt.

(** [_handle_agent_approval] *)
Definition handle_agent_approval (data : body) : M unit :=
  a ⇐ get;
  if negb (bool_decide (ab_approval_status data = Some "active")) then ret tt
  else if present (cr_api_key (ag_cr a)) && negb (key_refused (ag_hb a)) then ret tt
  else
    recovered ⇐ handle_agent_approved;
    if (recovered : bool)
    then modify (set_hb (fun h => set_last_sync None (set_key_refused false h)))
    else ret tt.

(** [_sync_checks]: the version and the interval decide; a sync re-fetches. *)
Definition sync_due (t : instant) (data : body) (h : sender) : bool * sender :=
  let interval := default (check_sync_interval h) (ab_check_sync_interval data) in
  let '(changed, version, known) :=
    match ab_config_version data with
    | Some v => if negb (config_version_known h) then (false, v, true)
                else if bool_decide (v = hb_config_version h) then (false, hb_config_version h, true)
                else (true, v, true)
    | None => (false, hb_config_version h, config_version_known h)
    end in
  let due := match last_check_sync h with None => true | Some last => (interval * us_per_second <=? t - last)%Z end in
  (changed || due, Sender (key_refused h) (hb_secret_refused h) version known interval (last_check_sync h)).

Definition sync_checks (fuel : nat) (data : body) : M (option bool) :=
  t ⇐ now;
  a ⇐ get;
  let '(due, h) := sync_due t data (ag_hb a) in
  _ ⇐ modify (set_hb (fun _ => h));
  if negb due then ret (Some true) else
  fetched ⇐ fetch_checks fuel;
  t' ⇐ now;
  _ ⇐ modify (set_hb (set_last_sync (Some t')));
  ret fetched.

(** The answer of 200 with a JSON object. *)
Definition read_answer (fuel : nat) (sent_secret : bool) (data : body) : M unit :=
  a ⇐ get;
  _ ⇐ match own_key_refused a data sent_secret with
      | Some true => modify (set_hb (set_key_refused true))
      | Some false =>
          _ ⇐ modify (set_hb (set_key_refused false));
          _ ⇐ stamp_liveness;
          retry_unsaved
      | None => ret tt
      end;
  _ ⇐ apply_policy (ab_block_private_networks data);
  _ ⇐ handle_agent_approval data;
  _ ⇐ sync_checks fuel data;
  ret tt.

(** One turn of [send_heartbeat]'s loop; [agent_id] is the id it started with. *)
Definition beat (fuel : nat) (agent_id : uuid) : M unit :=
  a ⇐ get;
  let '(authorization, secret) := auth_headers a in
  response ⇐ send (Beat (default agent_id (cf_agent_id (ag_cf a))) authorization secret);
  match response with
  | None => ret tt
  | Some response =>
      _ ⇐ (if (an_status response =? 200)%Z then
             match an_body response with
             | Some data => read_answer fuel (bool_decide (secret <> None)) data
             | None => ret tt
             end
           else read_refusal response (bool_decide (secret <> None)));
      _ ⇐ (if (an_status response =? 200)%Z then modify (set_hb (set_hb_secret_refused false)) else ret tt);
      register_again_if_refused
  end.

(** ** core.py: from the start *)

(** [__init__]: [key] is LUXSWIRL_AUTH_KEY. *)
Definition start (key : option string) (interval : Z) (t : instant) : M unit :=
  _ ⇐ modify (fun _ => Agent (Config None key (Some (match key with Some k => Some k | None => Some "" end)))
        (MkCredentials None None None false) (Registration false 0 None 0 false 0)
        (Sender false false None false interval (Some t)) false);
  loaded ⇐ load;
  a ⇐ get;
  if (loaded : bool) then
    _ ⇐ modify (set_cf (set_agent_id (cr_agent_id (ag_cr a))));
    if present (cr_api_key (ag_cr a)) then modify (set_cf (set_auth_key (cr_api_key (ag_cr a)))) else ret tt
  else ret tt.

(** [run] up to its loops: whether the agent goes on. *)
Definition begin_run (fuel : nat) : M bool :=
  a ⇐ get;
  ok ⇐ (if bool_decide (cr_agent_id (ag_cr a) = None) then register_with_server else ensure_recoverable);
  if (ok : bool) then _ ⇐ fetch_checks fuel; ret true else ret false.

Fixpoint beats (fuel : nat) (agent_id : uuid) (n : nat) : M unit :=
  match n with O => ret tt | S n => _ ⇐ beat fuel agent_id; beats fuel agent_id n end.
End Agent.
