(* ===== verification/AgentKeysTheorems.v ===== *)
(** * AgentKeysTheorems

    What the agent keeps true of its credentials, whatever the server answers and
    whatever fails: what it uses is on disk or marked unsaved; its recovery secret
    leaves it only while its key is in doubt; its recoveries keep their distance;
    a refusal the server did not mark changes nothing. *)

From S2P Require Import Prelude Text Store Credentials AgentKeys.

Section Facts.
Context `{Surroundings}.

(** ** Reasoning on computations: what holds before and after *)

Definition keeps {A} (I : sys -> Prop) (m : M A) : Prop := forall s, I s -> I (m s).2.

Lemma keeping_ret {A} I (a : A) : keeps I (ret a).
Proof. by intros s. Qed.

Lemma keeping_bind {A B} I (m : M A) (f : A -> M B) : keeps I m -> (forall a, keeps I (f a)) -> keeps I (bind m f).
Proof.
  intros Hm Hf s Hs. unfold bind. specialize (Hm s Hs). destruct (m s) as [a s']. by apply Hf.
Qed.

(** From a state where the first step holds the invariant, the rest need only keep it. *)
Lemma keeps_from {A B} (I : sys -> Prop) (m : M A) (f : A -> M B) s :
  I (m s).2 -> (forall a, keeps I (f a)) -> I (bind m f s).2.
Proof. intros Hs Hf. unfold bind. destruct (m s) as [a s']. by apply Hf. Qed.

Lemma keeping_get I : keeps I get.
Proof. by intros s. Qed.
Lemma keeps_now I : keeps I now.
Proof. by intros s. Qed.

Lemma keeping_modify I f : (forall s, I s -> I (modify f s).2) -> keeps I (modify f).
Proof. by intros Hf s Hs; apply Hf. Qed.

(** [get] gives the agent the state holds, [now] its clock. *)
Lemma keeps_get_bind {B} I (f : agent -> M B) :
  (forall a s, I s -> s_agent s = a -> I (f a s).2) -> keeps I (bind get f).
Proof. intros Hf s Hs. unfold bind, get. by apply Hf. Qed.
Lemma keeps_now_bind {B} I (f : instant -> M B) :
  (forall t s, I s -> monotonic (s_out s) = t -> I (f t s).2) -> keeps I (bind now f).
Proof. intros Hf s Hs. unfold bind, now. by apply Hf. Qed.

Create HintDb agent discriminated.
#[local] Hint Resolve keeping_ret keeping_get keeps_now : agent.

(** Walk through a computation whose every step keeps the invariant. *)
Ltac keeps_steps :=
  repeat first
    [ solve [auto with agent]
    | apply keeping_bind; [|intros ?]
    | match goal with |- keeps _ (match ?x with _ => _ end) => destruct x end ].

(** ** What is used is on disk, or marked unsaved *)

Record consistent (s : sys) : Prop := {
  c_file : cr_unsaved (ag_cr (s_agent s)) = false -> forall id, cr_agent_id (ag_cr (s_agent s)) = Some id ->
    exists f, s_file s = Some f /\ st_agent_id f = id
      /\ truthy_text (st_api_key f) = truthy_text (cr_api_key (ag_cr (s_agent s)))
      /\ truthy_text (st_recovery_secret f) = truthy_text (cr_recovery_secret (ag_cr (s_agent s)));
  c_key : present (cr_api_key (ag_cr (s_agent s))) = true ->
    cf_auth_key (ag_cf (s_agent s)) = cr_api_key (ag_cr (s_agent s));
  c_id : cr_agent_id (ag_cr (s_agent s)) <> None -> cf_agent_id (ag_cf (s_agent s)) = cr_agent_id (ag_cr (s_agent s));
}.

Lemma truthy_idem k : truthy_text (truthy_text k) = truthy_text k.
Proof. unfold truthy_text, present. by destruct k as [[|c k]|]. Qed.

Lemma truthy_present k x : truthy_text k = Some x -> k = Some x /\ present k = true.
Proof. unfold truthy_text. destruct (present k) eqn:E; [|done]. by intros ->. Qed.

(** Evaluate a computation on a state, case by case. *)
Ltac unfold_ops :=
  unfold bind, ret, get, modify, now, send, stamp_liveness, save, hold_unsaved, hold_unsaved_registration, clear,
    set_cf, set_cr, set_rg, set_hb, set_auth_key, set_agent_id in *.
Ltac run := repeat (progress (unfold_ops; cbn in *) || case_match).

Lemma register_consistent : keeps consistent register_with_server.
Proof.
  intros s [Hf Hk Hi]. unfold register_with_server. unfold_ops. cbn.
  destruct (ask (s_out s) _) as [o [response|]]; cbn; [|by split].
  destruct (is_success response); cbn; [|by split].
  destruct (an_body response) as [data|]; cbn; [|by split].
  destruct (ab_agent_id data) as [id|]; cbn; [|by split].
  destruct (write_file o _) as [o' [|]]; cbn; split; cbn; try done.
  intros _ ? [= <-]. eexists. split; [done|]. cbn. by rewrite !truthy_idem.
Qed.

Lemma clear_consistent : keeps consistent clear.
Proof.
  intros s [Hf Hk Hi]. unfold clear. unfold_ops. cbn.
  destruct (s_file s); [destruct (delete_file _) as [o [|]]|]; cbn; by split.
Qed.

Lemma clear_forgets s : cr_agent_id (ag_cr (s_agent (clear s).2)) = None.
Proof. unfold clear. unfold_ops. cbn. by destruct (s_file s); [destruct (delete_file _) as [o [|]]|]. Qed.

Lemma afresh_consistent : keeps consistent register_afresh.
Proof.
  intros s Hs. unfold register_afresh, bind.
  pose proof (clear_consistent s Hs) as Hc. pose proof (clear_forgets s) as Hn.
  destruct (clear s) as [b s1]. cbn in Hc, Hn. apply (register_consistent (modify _ s1).2).
  destruct Hc as [Hf Hk Hi]. by split.
Qed.

Lemma recover_consistent : keeps consistent recover_agent_key.
Proof.
  intros s Hs. unfold recover_agent_key. unfold bind at 1, get at 1. unfold bind at 1, now at 1.
  destruct (recovery_refused _ || _); [done|].
  destruct (truthy_text (cr_recovery_secret (ag_cr (s_agent s)))) as [secret|].
  2: { unfold bind. pose proof (afresh_consistent s Hs) as Ha. by destruct (register_afresh s). }
  destruct (cf_agent_id (ag_cf (s_agent s))) as [id|] eqn:Hid; [|done].
  destruct (truthy_text (registration_key (s_agent s))) as [key|]; [|done].
  destruct Hs as [Hf Hk Hi].
  unfold bind at 1, send at 1. destruct (ask (s_out s) _) as [o [response|]]; [|by split].
  destruct (is_success response) eqn:Hok; cbn [negb].
  2: { unfold recovery_error. run; by split. }
  destruct (an_body response) as [data|]; [|by split].
  destruct (truthy_text (ab_api_key data)) as [api_key|] eqn:Hkey; [|by split].
  unfold hold_back_repeated_recovery. unfold_ops. cbn.
  destruct (write_file o _) as [o' [|]]; cbn; split; cbn; try done.
  intros _ ? [= <-]. eexists. split; [done|]. cbn. by rewrite !truthy_idem.
Qed.

Lemma retry_consistent : keeps consistent retry_unsaved.
Proof.
  intros s Hs. pose proof Hs as [Hf Hk Hi]. unfold retry_unsaved. unfold_ops. cbn.
  destruct (cr_unsaved (ag_cr (s_agent s))) eqn:U; [|done].
  destruct (cr_agent_id (ag_cr (s_agent s))) as [id|] eqn:Hid; [|done]. cbn.
  rewrite bool_decide_eq_true_2 by done.
  destruct (write_file (s_out s) _) as [o' [|]]; cbn; split; cbn; rewrite ?U; try done.
  intros _ ? [= <-]. eexists. split; [done|]. cbn. rewrite !truthy_idem.
    by destruct (cr_recovery_secret (ag_cr (s_agent s))).
  - rewrite Hid. done.
Qed.

(** A change that leaves credentials, config and file alone. *)
Lemma quiet_consistent f : (forall a, ag_cf (f a) = ag_cf a /\ ag_cr (f a) = ag_cr a) -> keeps consistent (modify f).
Proof.
  intros Hf s [H1 H2 H3]. destruct (Hf (s_agent s)) as [E1 E2]. split; cbn; by rewrite ?E1, ?E2.
Qed.

Lemma send_consistent r : keeps consistent (send r).
Proof. intros s [H1 H2 H3]. unfold send. destruct (ask (s_out s) r). by split. Qed.

Lemma stamp_consistent : keeps consistent stamp_liveness.
Proof. intros s [H1 H2 H3]. by split. Qed.

Lemma error_consistent r : keeps consistent (recovery_error r).
Proof. intros s [H1 H2 H3]. unfold recovery_error. run; by split. Qed.

#[local] Hint Resolve register_consistent clear_consistent afresh_consistent recover_consistent retry_consistent
  send_consistent stamp_consistent : agent.
#[local] Hint Extern 1 (keeps consistent (modify _)) => apply quiet_consistent; done : agent.

Lemma register_no_key s : (register_with_server s).1 = true ->
  cr_api_key (ag_cr (s_agent (register_with_server s).2)) = None.
Proof.
  unfold register_with_server. unfold_ops. cbn.
  destruct (ask (s_out s) _) as [o [response|]]; cbn; [|done].
  destruct (is_success response); cbn; [|done].
  destruct (an_body response) as [data|]; cbn; [|done].
  destruct (ab_agent_id data) as [id|]; cbn; [|done].
  by destruct (write_file o _) as [o' [|]].
Qed.

Lemma register_again_consistent : keeps consistent register_again_after_revoke.
Proof.
  unfold register_again_after_revoke. do 2 (apply keeping_bind; [auto with agent|intros ?]).
  destruct (_ <? _)%Z; [auto with agent|]. apply keeping_bind; [keeps_steps|intros go].
  destruct go; cbn [negb]; [|auto with agent]. intros s Hs. unfold bind at 1.
  pose proof (register_consistent s Hs) as Hr. pose proof (register_no_key s) as Hk.
  destruct (register_with_server s) as [[|] s1]; cbn in Hr, Hk |- *.
  - specialize (Hk eq_refl). unfold_ops. destruct Hr as [H1 H2 H3]. split; cbn; try done.
    by rewrite Hk.
  - destruct Hr as [H1 H2 H3]. by split.
Qed.
#[local] Hint Resolve register_again_consistent error_consistent : agent.

Lemma policy_consistent v : keeps consistent (apply_policy v).
Proof. unfold apply_policy. keeps_steps. Qed.
#[local] Hint Resolve policy_consistent : agent.

Lemma fetch_consistent fuel : keeps consistent (fetch_checks fuel).
Proof. induction fuel as [|fuel IH]; cbn [fetch_checks]; keeps_steps. Qed.
#[local] Hint Resolve fetch_consistent : agent.

Lemma beat_consistent fuel id : keeps consistent (beat fuel id).
Proof.
  unfold beat, read_answer, read_refusal, register_again_if_refused, handle_agent_approval, handle_agent_approved,
    handle_recovery_secret_refused, sync_checks.
  keeps_steps.
Qed.


(** ** The systems an agent reaches *)

(** From a start on any surroundings and any file: the registration of [run], then
    heartbeats. *)
Inductive reachable : sys -> Prop :=
  | reach_start key interval t a o f : reachable (start key interval t (Sys a o f [])).2
  | reach_begin s fuel : reachable s -> reachable (begin_run fuel s).2
  | reach_beat s fuel id : reachable s -> reachable (beat fuel id s).2.

Lemma reachable_inv (I : sys -> Prop) :
  (forall key interval t a o f, I (start key interval t (Sys a o f [])).2) ->
  (forall fuel, keeps I (begin_run fuel)) -> (forall fuel id, keeps I (beat fuel id)) ->
  forall s, reachable s -> I s.
Proof. intros H1 H2 H3 s Hs. induction Hs; [apply H1|by apply H2|by apply H3]. Qed.

Lemma start_consistent key interval t a o f : consistent (start key interval t (Sys a o f [])).2.
Proof.
  unfold start, load. unfold_ops. cbn. destruct f as [f|]; cbn; [|by split].
  destruct (present (st_api_key f)) eqn:P; cbn; split; cbn; try done.
  - intros _ id [= <-]. by exists f.
  - intros _ id [= <-]. by exists f.
  - by rewrite P.
Qed.

Lemma begin_consistent fuel : keeps consistent (begin_run fuel).
Proof. unfold begin_run, ensure_recoverable. keeps_steps. Qed.

(** C10: Whatever the server answers and whatever write fails, the credentials the
    agent uses are the ones on disk, or are marked to be saved at the next
    heartbeat; it authenticates with its own key as soon as it holds one, as the
    agent it is registered as. *)
Theorem credentials_kept s id : reachable s -> cr_agent_id (ag_cr (s_agent s)) = Some id ->
  cf_agent_id (ag_cf (s_agent s)) = Some id
  /\ (present (cr_api_key (ag_cr (s_agent s))) = true -> cf_auth_key (ag_cf (s_agent s)) = cr_api_key (ag_cr (s_agent s)))
  /\ (cr_unsaved (ag_cr (s_agent s)) = true
      \/ exists f, s_file s = Some f /\ st_agent_id f = id
          /\ truthy_text (st_api_key f) = truthy_text (cr_api_key (ag_cr (s_agent s)))
          /\ truthy_text (st_recovery_secret f) = truthy_text (cr_recovery_secret (ag_cr (s_agent s)))).
Proof.
  intros Hr Hid. apply (reachable_inv consistent) in Hr as [Hf Hk Hi];
    [|apply start_consistent|apply begin_consistent|apply beat_consistent].
  split_and!; [by rewrite Hi, Hid; [|rewrite Hid]|done|].
  destruct (cr_unsaved (ag_cr (s_agent s))) eqn:U; [by left|right]. by apply Hf.
Qed.

(** ** When the recovery secret leaves the agent *)

(** The server refuses the key a heartbeat carried, by its own marked word. *)
Definition refuses_key (e : event) : bool :=
  match e with
  | Asked _ (Beat _ _ secret) (Some a) _ =>
      if (an_status a =? 200)%Z
      then match an_body a with Some data => bool_decide (ab_agent_key_accepted data = Some false) | None => false end
      else bool_decide (secret = None) && (refuses_agent_key a || refuses_registration_key a)
  | _ => false
  end.

(** The server takes the key a heartbeat carried: it says so, or the key came alone. *)
Definition takes_key (e : event) : bool :=
  match e with
  | Asked _ (Beat _ _ secret) (Some a) _ =>
      (an_status a =? 200)%Z
      && match an_body a with
         | Some data => bool_decide (ab_agent_key_accepted data = Some true)
                        || bool_decide (ab_agent_key_accepted data = None /\ secret = None)
         | None => false
         end
  | _ => false
  end.

(** The agent obtained a key of its own. *)
Definition obtained_key (e : event) : option instant :=
  match e with
  | Asked _ (RecoverKey _ _ _) (Some a) received =>
      if is_success a && match an_body a with Some data => present (ab_api_key data) | None => false end
      then Some received else None
  | _ => None
  end.
(** The server's last word on the secret: a refusal of it, or an answer of the API. *)
Definition word_on_secret (x : bool) (e : event) : bool :=
  match e with
  | Asked _ (Beat _ _ secret) (Some a) _ =>
      if (an_status a =? 200)%Z then false
      else if bool_decide (secret <> None) && refuses_recovery_secret a then true else x
  | _ => x
  end.

(** Its last word on the key, and on the secret.  A new key is undoubted, unless it
    was obtained over a refusal of the secret: it inherits the doubt then. *)
Definition judge (d : bool * bool) (e : event) : bool * bool :=
  (if refuses_key e then true
   else if takes_key e then false
   else if bool_decide (obtained_key e <> None) then d.1 && d.2 else d.1, word_on_secret d.2 e).
Definition words (tr : list event) : bool * bool := fold_left judge tr (false, false).
Definition doubted (tr : list event) : bool := (words tr).1.

Lemma words_app tr e : words (tr ++ [e]) = judge (words tr) e.
Proof. unfold words. by rewrite fold_left_app. Qed.

Definition no_beat (e : event) : Prop := match e with Asked _ (Beat _ _ _ | RecoverKey _ _ _) _ _ => False | _ => True end.
#[local] Arguments words : simpl never.
Lemma judge_other d e : no_beat e -> judge d e = d.
Proof. destruct d, e as [? [] ? ?| | |]; done. Qed.

(** The heartbeats doubt the key, and the secret, only after a refusal of it. *)
Definition doubt_founded (s : sys) : Prop := key_refused (ag_hb (s_agent s)) = true -> doubted (s_trace s) = true.
Definition secret_founded (s : sys) : Prop :=
  hb_secret_refused (ag_hb (s_agent s)) = true -> (words (s_trace s)).2 = true.
Definition founded (s : sys) : Prop := doubt_founded s /\ secret_founded s.

Lemma doubt_modify f : (forall a, key_refused (ag_hb (f a)) = true -> key_refused (ag_hb a) = true) -> keeps doubt_founded (modify f).
Proof. intros Hf s Hs Hk. apply Hs. by apply Hf. Qed.
Lemma secret_modify f :
  (forall a, hb_secret_refused (ag_hb (f a)) = true -> hb_secret_refused (ag_hb a) = true) -> keeps secret_founded (modify f).
Proof. intros Hf s Hs Hk. apply Hs. by apply Hf. Qed.

(** An event that is neither a heartbeat nor a recovery. *)
Lemma founded_event s o file e : no_beat e ->
  (doubt_founded s -> doubt_founded (Sys (s_agent s) o file (s_trace s ++ [e]))) /\
  (secret_founded s -> secret_founded (Sys (s_agent s) o file (s_trace s ++ [e]))).
Proof.
  intros He. unfold doubt_founded, secret_founded, doubted. cbn. rewrite words_app, judge_other by done. by split.
Qed.

Lemma no_beat_sent t r a t' : (forall i k x, r <> Beat i k x) -> (forall i k x, r <> RecoverKey i k x) ->
  no_beat (Asked t r a t').
Proof. intros Hb Hr. destruct r as [|i k x|i k x|]; try done; [by destruct (Hr i k x)|by destruct (Hb i k x)]. Qed.

Lemma doubt_send r : (forall i k x, r <> Beat i k x) -> (forall i k x, r <> RecoverKey i k x) -> keeps doubt_founded (send r).
Proof.
  intros Hb Hr s Hs. unfold send. destruct (ask (s_out s) r) as [o a].
  by apply (founded_event s), Hs; apply no_beat_sent.
Qed.
Lemma secret_send r : (forall i k x, r <> Beat i k x) -> keeps secret_founded (send r).
Proof.
  intros Hb s Hs Hk. unfold send in *. destruct (ask (s_out s) r) as [o a]. cbn in *. rewrite words_app.
  specialize (Hs Hk). destruct r as [|i k x|i k x|]; try done. by destruct (Hb i k x).
Qed.

Lemma founded_save i k x : keeps doubt_founded (save i k x) /\ keeps secret_founded (save i k x).
Proof.
  split; intros s Hs; unfold save; unfold_ops; destruct (write_file (s_out s) _) as [o [|]]; cbn;
    unfold doubt_founded, secret_founded, doubted in *; cbn; by rewrite words_app, judge_other.
Qed.
Lemma founded_clear : keeps doubt_founded clear /\ keeps secret_founded clear.
Proof.
  split; intros s Hs; unfold clear; unfold_ops; cbn; (destruct (s_file s); [destruct (delete_file _) as [o [|]]|]); cbn;
    unfold doubt_founded, secret_founded, doubted in *; cbn; by rewrite ?words_app, ?judge_other.
Qed.
Lemma founded_stamp : keeps doubt_founded stamp_liveness /\ keeps secret_founded stamp_liveness.
Proof. split; intros s Hs; apply (founded_event s (s_out s) (s_file s) Stamped); done. Qed.

Lemma doubt_save i k x : keeps doubt_founded (save i k x).
Proof. apply founded_save. Qed.
Lemma secret_save i k x : keeps secret_founded (save i k x).
Proof. apply founded_save. Qed.
Lemma doubt_clear : keeps doubt_founded clear.
Proof. apply founded_clear. Qed.
Lemma secret_clear : keeps secret_founded clear.
Proof. apply founded_clear. Qed.
Lemma doubt_stamp : keeps doubt_founded stamp_liveness.
Proof. apply founded_stamp. Qed.
Lemma secret_stamp : keeps secret_founded stamp_liveness.
Proof. apply founded_stamp. Qed.

#[local] Hint Resolve doubt_save doubt_clear doubt_stamp secret_save secret_clear secret_stamp : agent.
#[local] Hint Extern 1 (keeps doubt_founded (modify _)) => apply doubt_modify; done : agent.
#[local] Hint Extern 1 (keeps secret_founded (modify _)) => apply secret_modify; done : agent.
#[local] Hint Extern 1 (keeps doubt_founded (send _)) => apply doubt_send; done : agent.
#[local] Hint Extern 1 (keeps secret_founded (send _)) => apply secret_send; done : agent.
#[local] Hint Extern 1 (keeps doubt_founded (hold_unsaved _)) => apply doubt_modify; done : agent.
#[local] Hint Extern 1 (keeps secret_founded (hold_unsaved _)) => apply secret_modify; done : agent.
#[local] Hint Extern 1 (keeps doubt_founded (hold_unsaved_registration _ _)) => apply doubt_modify; done : agent.
#[local] Hint Extern 1 (keeps secret_founded (hold_unsaved_registration _ _)) => apply secret_modify; done : agent.

Lemma doubt_register : keeps doubt_founded register_with_server.
Proof. unfold register_with_server. keeps_steps. Qed.
Lemma secret_register : keeps secret_founded register_with_server.
Proof. unfold register_with_server. keeps_steps. Qed.
#[local] Hint Resolve doubt_register secret_register : agent.

Lemma doubt_fetch fuel : keeps doubt_founded (fetch_checks fuel).
Proof. induction fuel as [|fuel IH]; cbn [fetch_checks]; unfold apply_policy; keeps_steps. Qed.
Lemma doubt_retry : keeps doubt_founded retry_unsaved.
Proof. unfold retry_unsaved. keeps_steps. Qed.
#[local] Hint Resolve doubt_fetch doubt_retry : agent.

Lemma secret_recover : keeps secret_founded recover_agent_key.
Proof. unfold recover_agent_key, register_afresh, recovery_error, hold_back_repeated_recovery. keeps_steps. Qed.

(** A recovery that gives no key leaves the doubt as it was; one that gives a key
    lifts it, except over a refusal of the secret. *)
Lemma doubt_recover s : doubt_founded s ->
  let '(recovered, s') := recover_agent_key s in
  recovered = false \/ (words (s_trace s)).2 = true -> doubt_founded s'.
Proof.
  intros Hs. unfold recover_agent_key. unfold bind at 1, get at 1. unfold bind at 1, now at 1.
  destruct (recovery_refused _ || _); [by intros _|].
  destruct (truthy_text (cr_recovery_secret (ag_cr (s_agent s)))) as [secret|].
  2: { assert (keeps doubt_founded (bind register_afresh (fun _ => ret false))) as Hk
         by (unfold register_afresh; keeps_steps). specialize (Hk s Hs). destruct (bind _ _ s). by intros _. }
  destruct (cf_agent_id (ag_cf (s_agent s))) as [id|]; [|by intros _].
  destruct (truthy_text (registration_key (s_agent s))) as [key|]; [|by intros _].
  unfold bind at 1, send at 1. destruct (ask (s_out s) _) as [o a]. set (e := Asked _ _ _ _). set (s1 := Sys _ o _ _).
  assert (obtained_key e = None \/ (words (s_trace s)).2 = true -> doubt_founded s1) as H1.
  { intros He Hk. cbn in Hk |- *. unfold doubted. rewrite words_app. cbn [judge fst refuses_key takes_key e].
    specialize (Hs Hk). destruct (bool_decide (obtained_key e <> None)) eqn:Eo; [|exact Hs].
    apply bool_decide_eq_true in Eo. destruct He as [He|He]; [done|]. by rewrite He, andb_true_r. }
  assert (forall m : M bool, keeps doubt_founded m -> obtained_key e = None \/ (words (s_trace s)).2 = true ->
    doubt_founded (m s1).2) as Hgo by (intros m Hm He; by apply Hm, H1).
  destruct a as [response|]; [|by intros _; apply H1; left].
  destruct (is_success response) eqn:Ok; cbn [negb].
  2: { assert (doubt_founded (recovery_error response s1).2) as Hr.
       { apply Hgo; [unfold recovery_error; keeps_steps|]. left. cbn. by rewrite Ok. }
       destruct (recovery_error response s1). by intros _. }
  destruct (an_body response) as [data|] eqn:Eb; [|intros _; apply H1; left; cbn; by rewrite Ok, Eb].
  destruct (truthy_text (ab_api_key data)) as [api_key|] eqn:Hkey.
  2: { intros _. apply H1. left. cbn. rewrite Ok, Eb. unfold truthy_text in Hkey.
       destruct (present (ab_api_key data)) eqn:P; [|done]. unfold present in P. by rewrite Hkey in P. }
  match goal with |- context [bind hold_back_repeated_recovery ?f s1] =>
    pose proof (Hgo (bind hold_back_repeated_recovery f)) as Hlast end.
  destruct (bind hold_back_repeated_recovery _ s1) as [r s2] eqn:E. cbn [snd] in Hlast.
  assert (r = true) as -> by (revert E; unfold hold_back_repeated_recovery; unfold_ops; cbn;
    destruct (write_file o _) as [? [|]]; by intros [= <- _]).
  intros [|Hx]; [done|]. apply Hlast; [unfold hold_back_repeated_recovery; keeps_steps|by right].
Qed.

(** Registering again keeps the doubt founded where it does not recover a key, or
    does over a refusal of the secret. *)
Lemma doubt_again s : doubt_founded s ->
  rg_secret_refused (ag_rg (s_agent s)) = true \/ (words (s_trace s)).2 = true ->
  doubt_founded (register_again_after_revoke s).2.
Proof.
  intros Hs Hword. unfold register_again_after_revoke. unfold bind at 1, get at 1. unfold bind at 1, now at 1.
  destruct (_ <? _)%Z; [done|]. apply (keeps_from doubt_founded); [|intros go; destruct go; cbn [negb]; keeps_steps].
  destruct (rg_secret_refused (ag_rg (s_agent s))); [done|]. destruct Hword as [|Hword]; [done|].
  pose proof (doubt_recover s Hs) as Hr. unfold bind. destruct (recover_agent_key s) as [[|] s1]; apply Hr; by right.
Qed.

Lemma secret_again : keeps secret_founded register_again_after_revoke.
Proof. pose proof secret_recover. unfold register_again_after_revoke. keeps_steps. Qed.

Lemma doubt_approval data : keeps doubt_founded (handle_agent_approval data).
Proof.
  intros s Hs. unfold handle_agent_approval. unfold bind at 1, get at 1.
  destruct (negb _); [done|]. destruct (_ && _); [done|]. unfold handle_agent_approved, bind.
  pose proof (doubt_recover s Hs) as Hr. destruct (recover_agent_key s) as [[|] s1]; [by intros ?|].
  cbn. specialize (Hr (or_introl eq_refl)).
  destruct (rg_secret_refused (ag_rg (s_agent s1))) eqn:G; [|done].
  pose proof (doubt_again s1 Hr (or_introl G)) as Ha. unfold handle_recovery_secret_refused.
  by destruct (register_again_after_revoke s1).
Qed.

Lemma doubt_sync fuel data : keeps doubt_founded (sync_checks fuel data).
Proof.
  unfold sync_checks. apply keeping_bind; [auto with agent|intros t].
  apply keeps_get_bind. intros a s Hs Ha.
  destruct (sync_due t data (ag_hb a)) as [due h] eqn:E.
  assert (key_refused h = key_refused (ag_hb a)) as Hh.
  { revert E. unfold sync_due. repeat case_match; by intros [= _ <-]. }
  apply (keeps_from doubt_founded); [|intros ?; keeps_steps].
  intros Hk. apply Hs. cbn in Hk |- *. by rewrite Ha, <- Hh.
Qed.
#[local] Hint Resolve doubt_approval doubt_sync : agent.

Lemma refused_founded s : founded s -> founded (register_again_if_refused s).2.
Proof.
  intros [Hd Hs]. unfold register_again_if_refused, handle_recovery_secret_refused. unfold bind at 1, get at 1.
  destruct (hb_secret_refused (ag_hb (s_agent s))) eqn:E; cbn [negb]; [|by split].
  split; [apply (keeps_from doubt_founded)|apply (keeps_from secret_founded)].
  - apply doubt_again; [done|]. right. by apply Hs.
  - intros []; keeps_steps.
  - exact (secret_again s Hs).
  - intros []; keeps_steps.
Qed.

(** The heartbeat's answer itself: what it makes the agent doubt, the trace shows. *)
Lemma beat_founded fuel id s : founded s -> founded (beat fuel id s).2.
Proof.
  intros [Hd Hs]. unfold beat. unfold bind at 1, get at 1.
  destruct (auth_headers (s_agent s)) as [authorization secret].
  unfold bind at 1, send at 1. destruct (ask (s_out s) _) as [o [response|]] eqn:Ea.
  2: { split; intros Hk; cbn; unfold doubted; rewrite words_app; [by apply Hd|by apply Hs]. }
  set (e := Asked _ _ _ _). set (s1 := Sys _ o _ _).
  assert (words (s_trace s1) = judge (words (s_trace s)) e) as Hw by apply words_app.
  destruct (an_status response =? 200)%Z eqn:E200.
  - (* an answer of the API *)
    match goal with |- founded (bind ?m _ s1).2 => assert (doubt_founded (m s1).2) as Hm end.
    { destruct (an_body response) as [data|] eqn:Eb.
      2: { intros Hk. unfold doubted. cbn in Hk |- *. cbn in Hw. rewrite Hw. unfold judge, e. cbn. rewrite E200, Eb. cbn. by apply Hd. }
      unfold read_answer. unfold bind at 1, get at 1. apply (keeps_from doubt_founded); [|intros ?; unfold apply_policy; keeps_steps].
      unfold own_key_refused.
      assert (forall X, doubt_founded ((bind (modify (set_hb (set_key_refused false)))
        (fun _ => bind stamp_liveness (fun _ => retry_unsaved))) X).2) as Hfree.
      { intros X. apply (keeps_from doubt_founded); [done|]. intros _. keeps_steps. }
      destruct (present _); cbn [negb]; [|apply Hfree].
      destruct (ab_agent_key_accepted data) as [[|]|] eqn:Ek; cbn [negb]; [apply Hfree| |].
      + intros _. unfold doubted. cbn. cbn in Hw. rewrite Hw. unfold judge, e. cbn. rewrite E200, Eb. by rewrite bool_decide_eq_true_2.
      + case_bool_decide as Hsec; cbn [negb]; [|apply Hfree]. intros Hk. unfold doubted. cbn. cbn in Hw. rewrite Hw.
        unfold judge, e. cbn. rewrite E200, Eb, Ek. cbn. rewrite (bool_decide_eq_false_2 (_ /\ _)) by (by intros [_ ?]). by apply Hd. }
    unfold bind at 1. destruct (_ s1) as [[] s2]. cbn in Hm. unfold bind at 1. cbn.
    split; [exact Hm|done].
  - (* a refusal, or nothing the agent reads *)
    assert (doubt_founded s1) as D1.
    { intros Hk. unfold doubted. rewrite Hw. unfold judge, e. cbn. rewrite E200. cbn.
      destruct (_ && _); [done|]. by apply Hd. }
    assert (secret_founded s1) as S1.
    { intros Hk. rewrite Hw. unfold judge, e. cbn. rewrite E200. destruct (_ && _); [done|]. by apply Hs. }
    enough (founded (read_refusal response (bool_decide (secret <> None)) s1).2) as Hf.
    { unfold bind at 1. destruct (read_refusal _ _ s1) as [[] s2]. cbn in Hf. unfold bind, ret. by apply refused_founded. }
    unfold read_refusal. unfold bind at 1, get at 1.
    destruct (negb (is_marked_refusal response)); [done|].
    destruct (bool_decide (secret <> None)) eqn:Hsec; cbn [negb].
    + destruct (refuses_recovery_secret response) eqn:Hr; [|done]. split; [exact D1|]. intros _. cbn. cbn in Hw. rewrite Hw.
      unfold judge, e. cbn. by rewrite E200, Hsec, Hr.
    + destruct (present _ && _) eqn:Hr; [|done]. split; [|exact S1]. intros _. unfold doubted. cbn. cbn in Hw. rewrite Hw.
      unfold judge, e. cbn. rewrite E200. apply bool_decide_eq_false in Hsec. apply andb_true_iff in Hr as [_ Hr].
      rewrite bool_decide_eq_true_2 by (by destruct secret; [destruct Hsec|]). by rewrite Hr.
Qed.

Lemma begin_founded fuel : keeps founded (begin_run fuel).
Proof.
  assert (keeps secret_founded (fetch_checks fuel)) as Hf.
  { induction fuel as [|fuel IH]; cbn [fetch_checks]; unfold apply_policy; keeps_steps. }
  intros s [Hd Hs]. unfold begin_run, ensure_recoverable, register_afresh.
  split; [revert s Hd Hs; intros s Hd _; revert s Hd|revert s Hs Hd; intros s Hs _; revert s Hs];
    match goal with |- forall s, ?I s -> ?I (?m s).2 => change (keeps I m) end; keeps_steps.
Qed.

Lemma start_founded key interval t a o f : founded (start key interval t (Sys a o f [])).2.
Proof.
  unfold start, load. unfold_ops. cbn. destruct f as [f|]; cbn; [|by split].
  by destruct (present (st_api_key f)).
Qed.

(** C18: While the agent holds a key of its own, a heartbeat carries its recovery
    secret only when the server's last word on that key was a refusal of it; an
    answer that does not come from the server's own authentication (a proxy's 401,
    an error page) is no such word, and a new key starts undoubted, unless it was
    obtained after the server refused the secret too: that one inherits the doubt
    of the key before it. *)
Theorem secret_only_in_doubt s secret : reachable s ->
  present (cr_api_key (ag_cr (s_agent s))) = true -> (auth_headers (s_agent s)).2 = Some secret ->
  doubted (s_trace s) = true.
Proof.
  intros Hr Hp Hs.
  apply (reachable_inv founded) in Hr as [Hd _]; [|apply start_founded|apply begin_founded|intros ???; apply beat_founded].
  apply Hd. revert Hs. unfold auth_headers. rewrite Hp. cbn.
  by destruct (present (cr_recovery_secret _) && _) eqn:E; [apply andb_true_iff in E as [_ E]|].
Qed.

(** ** How far apart the recoveries are *)

(** The clock never goes back while the agent asks, writes or deletes. *)
Class MonotonicClock : Prop := {
  clock_ask o r : (monotonic o <= monotonic (ask o r).1)%Z;
  clock_write o d : (monotonic o <= monotonic (write_file o d).1)%Z;
  clock_delete o : (monotonic o <= monotonic (delete_file o).1)%Z;
}.

(** The agent registered. *)
Definition registered (e : event) : bool :=
  match e with
  | Asked _ (Register _) (Some a) _ =>
      is_success a && match an_body a with Some data => bool_decide (ab_agent_id data <> None) | None => false end
  | _ => false
  end.

(** When the agent obtained keys since it last registered, the latest first. *)
Definition note (ts : list instant) (e : event) : list instant :=
  if registered e then [] else match obtained_key e with Some t => t :: ts | None => ts end.
Definition recoveries (tr : list event) : list instant := fold_left note tr [].

Lemma recoveries_app tr e : recoveries (tr ++ [e]) = note (recoveries tr) e.
Proof. unfold recoveries. by rewrite fold_left_app. Qed.
#[local] Arguments recoveries : simpl never.

(** The distance the next one must keep. *)
Fixpoint distance (ts : list instant) : Z :=
  match ts with
  | t :: rest =>
      match rest with
      | t' :: _ => if (t - t' <? _RECOVERY_REPEAT_WINDOW)%Z
                   then Z.min (Z.max (distance rest * 2) _MIN_RECOVERY_GAP) _RECOVERY_REPEAT_WINDOW else 0
      | [] => 0
      end
  | [] => 0
  end.

Fixpoint apart (ts : list instant) : Prop :=
  match ts with
  | t :: rest => match rest with t' :: _ => (t' + distance rest <= t)%Z | [] => True end /\ apart rest
  | [] => True
  end.

Lemma distance_nonneg ts : (0 <= distance ts)%Z.
Proof.
  destruct ts as [|t [|t' ts]]; cbn [distance]; try lia. case_match; [|lia].
  assert (0 <= _MIN_RECOVERY_GAP)%Z by done. assert (0 <= _RECOVERY_REPEAT_WINDOW)%Z by done. lia.
Qed.

(** A step from [t'] to [t], the distance before it and the one after. *)
Lemma apart_step t t' rest : apart (t :: t' :: rest) ->
  (t' + distance (t' :: rest) <= t)%Z
  /\ ((t' + _RECOVERY_REPEAT_WINDOW <= t)%Z
      \/ distance (t :: t' :: rest)
         = Z.min (Z.max (distance (t' :: rest) * 2) _MIN_RECOVERY_GAP) _RECOVERY_REPEAT_WINDOW).
Proof.
  intros [Ht _]. split; [done|]. change (distance (t :: t' :: rest)) with
    (if (t - t' <? _RECOVERY_REPEAT_WINDOW)%Z
     then Z.min (Z.max (distance (t' :: rest) * 2) _MIN_RECOVERY_GAP) _RECOVERY_REPEAT_WINDOW else 0%Z).
  destruct (_ <? _)%Z eqn:E; [by right|left]. apply Z.ltb_ge in E. lia.
Qed.

(** From [t1] on, each of them either comes an hour later, or doubles the distance. *)
Lemma apart_grows t1 a g t t' rest : apart (t :: t' :: rest) -> (t1 <= t')%Z -> (0 <= g)%Z ->
  (t1 + _RECOVERY_REPEAT_WINDOW <= t' \/ t1 + a <= t' /\ g <= distance (t' :: rest))%Z ->
  (t1 <= t /\ (t1 + _RECOVERY_REPEAT_WINDOW <= t
     \/ t1 + (a + g) <= t
        /\ Z.min (Z.max (g * 2) _MIN_RECOVERY_GAP) _RECOVERY_REPEAT_WINDOW <= distance (t :: t' :: rest)))%Z.
Proof.
  intros Ha H1 Hg Hor. pose proof (distance_nonneg (t' :: rest)) as Hd.
  apply apart_step in Ha as [Ht Hnext].
  assert (0 <= _MIN_RECOVERY_GAP)%Z by done. assert (0 <= _RECOVERY_REPEAT_WINDOW)%Z by done. lia.
Qed.

Lemma apart_tail t ts : apart (t :: ts) -> apart ts.
Proof. by intros [_ ?]. Qed.

(** Eight in a row take an hour. *)
Lemma apart_eight t8 t7 t6 t5 t4 t3 t2 t1 rest :
  apart (t8 :: t7 :: t6 :: t5 :: t4 :: t3 :: t2 :: t1 :: rest) -> (t1 + _RECOVERY_REPEAT_WINDOW <= t8)%Z.
Proof.
  intros H8. pose proof (apart_tail _ _ H8) as H7. pose proof (apart_tail _ _ H7) as H6.
  pose proof (apart_tail _ _ H6) as H5. pose proof (apart_tail _ _ H5) as H4.
  pose proof (apart_tail _ _ H4) as H3. pose proof (apart_tail _ _ H3) as H2.
  eapply (apart_grows t1 0 0) in H2 as [L2 G2];
    [|lia|done|right; pose proof (distance_nonneg (t1 :: rest)); lia].
  eapply apart_grows in H3 as [L3 G3]; [|exact L2| |exact G2]; [|by vm_compute].
  eapply apart_grows in H4 as [L4 G4]; [|exact L3| |exact G3]; [|by vm_compute].
  eapply apart_grows in H5 as [L5 G5]; [|exact L4| |exact G4]; [|by vm_compute].
  eapply apart_grows in H6 as [L6 G6]; [|exact L5| |exact G5]; [|by vm_compute].
  eapply apart_grows in H7 as [L7 G7]; [|exact L6| |exact G6]; [|by vm_compute].
  eapply apart_grows in H8 as [L8 [G8|[G8 _]]]; [done| |exact L7| |exact G7]; [|by vm_compute].
  revert G8. match goal with |- (t1 + ?x <= _)%Z -> _ =>
    let y := eval vm_compute in x in change x with y end.
  change _RECOVERY_REPEAT_WINDOW with 3600000000%Z. lia.
Qed.

Lemma apart_suffix l ts : apart (l ++ ts) -> apart ts.
Proof. induction l as [|t l IH]; [done|]. cbn [app apart]. intros [_ ?]. by apply IH. Qed.

Lemma apart_lookup ts i t t' : apart ts -> ts !! i = Some t -> ts !! (i + 7) = Some t' ->
  (t' + _RECOVERY_REPEAT_WINDOW <= t)%Z.
Proof.
  intros Ha Hi Hi'. assert (exists l a b c d e f r, ts = l ++ t :: a :: b :: c :: d :: e :: f :: t' :: r)
    as (l & a & b & c & d & e & f & r & ->).
  { exists (take i ts). apply take_drop_middle in Hi as Ei. rewrite <- (take_drop (S i) ts) in Hi'.
    assert (i + 7 < length ts) as Hlen.
    { rewrite take_drop in Hi'. by apply lookup_lt_Some in Hi'. }
    rewrite lookup_app_r, length_take, Nat.min_l in Hi' by (rewrite ?length_take; lia).
    replace (i + 7 - S i) with 6 in Hi' by lia.
    destruct (drop (S i) ts) as [|a [|b [|c [|d [|e [|f [|u r]]]]]]]; try done.
    injection Hi' as ->. by exists a, b, c, d, e, f, r. }
  eapply apart_eight, apart_suffix, Ha.
Qed.

(** The agent's own record of its recoveries is the trace's. *)
Record spacing (s : sys) : Prop := {
  sp_last : last_recovered (ag_rg (s_agent s)) = head (recoveries (s_trace s));
  sp_gap : recovery_gap (ag_rg (s_agent s)) = distance (recoveries (s_trace s));
  sp_next : forall t, head (recoveries (s_trace s)) = Some t ->
    (t + distance (recoveries (s_trace s)) <= Z.max (recovery_not_before (ag_rg (s_agent s))) (monotonic (s_out s)))%Z;
  sp_apart : apart (recoveries (s_trace s));
}.

(** The record is untouched, or only its next time moved on. *)
Lemma spacing_modify f :
  (forall a, last_recovered (ag_rg (f a)) = last_recovered (ag_rg a) /\ recovery_gap (ag_rg (f a)) = recovery_gap (ag_rg a)
     /\ recovery_not_before (ag_rg (f a)) = recovery_not_before (ag_rg a)) -> keeps spacing (modify f).
Proof.
  intros Hf s [H1 H2 H3 H4]. destruct (Hf (s_agent s)) as (E1 & E2 & E3). split; cbn; by rewrite ?E1, ?E2, ?E3.
Qed.

(** A step that adds an event the record does not notice, and moves the clock on. *)
Lemma spacing_event s a o f e : ag_rg a = ag_rg (s_agent s) -> registered e = false -> obtained_key e = None ->
  (monotonic (s_out s) <= monotonic o)%Z -> spacing s -> spacing (Sys a o f (s_trace s ++ [e])).
Proof.
  intros Ea Er Eo Ho [H1 H2 H3 H4]. split; cbn; rewrite ?Ea, recoveries_app; unfold note; rewrite Er, Eo; try done.
  intros t Ht. specialize (H3 t Ht). lia.
Qed.

Context `{!MonotonicClock}.

Lemma spacing_save i k x : keeps spacing (save i k x).
Proof.
  intros s Hs. unfold save. unfold_ops.
  match goal with |- context [write_file (s_out s) ?d] => pose proof (clock_write (s_out s) d) as Hc end.
  destruct (write_file (s_out s) _) as [o [|]]; cbn in *; by apply spacing_event.
Qed.

Lemma spacing_clear : keeps spacing clear.
Proof.
  intros s Hs. unfold clear. unfold_ops. cbn. pose proof (clock_delete (s_out s)) as Hc.
  assert (spacing (Sys (set_cr (MkCredentials None None None false) (s_agent s)) (s_out s) (s_file s) (s_trace s))) as H1
    by by destruct Hs.
  destruct (s_file s); [destruct (delete_file _) as [o [|]]; cbn in *|done]; by apply spacing_event.
Qed.

Lemma spacing_stamp : keeps spacing stamp_liveness.
Proof. intros s Hs. by apply spacing_event. Qed.

Lemma spacing_send r : (forall i k x, r <> RecoverKey i k x) -> (forall k, r <> Register k) -> keeps spacing (send r).
Proof.
  intros H1 H2 s Hs. unfold send. pose proof (clock_ask (s_out s) r) as Hc.
  destruct (ask (s_out s) r) as [o a]. cbn in *.
  apply spacing_event; try done; destruct r as [k|i k x| |]; try done; [by destruct (H2 k)|by destruct (H1 i k x)].
Qed.

#[local] Hint Resolve spacing_save spacing_clear spacing_stamp : agent.
#[local] Hint Extern 1 (keeps spacing (modify _)) => apply spacing_modify; done : agent.
#[local] Hint Extern 1 (keeps spacing (send _)) => apply spacing_send; done : agent.
#[local] Hint Extern 1 (keeps spacing (hold_unsaved _)) => apply spacing_modify; done : agent.
#[local] Hint Extern 1 (keeps spacing (hold_unsaved_registration _ _)) => apply spacing_modify; done : agent.

Lemma spacing_register : keeps spacing register_with_server.
Proof.
  intros s Hs. unfold register_with_server. unfold_ops. cbn.
  set (r := Register _). pose proof (clock_ask (s_out s) r) as Hc. destruct (ask (s_out s) r) as [o a]. cbn in Hc |- *.
  set (e := Asked _ _ _ _).
  destruct a as [response|]; [|by apply spacing_event].
  destruct (is_success response) eqn:Ok; cbn; [|by apply spacing_event; try done; cbn; rewrite Ok].
  destruct (an_body response) as [data|] eqn:Eb; cbn; [|by apply spacing_event; try done; cbn; rewrite Eb, andb_false_r].
  destruct (ab_agent_id data) as [id|] eqn:Ei; cbn; [|by apply spacing_event; try done; cbn; rewrite Eb, Ei, andb_false_r].
  assert (forall w, recoveries ((s_trace s ++ [e]) ++ [Wrote w true]) = []
    /\ recoveries ((s_trace s ++ [e]) ++ [Wrote w false]) = []) as Hn.
  { intros w. rewrite !recoveries_app. unfold note. cbn. rewrite Ok, Eb, Ei. by cbn. }
  destruct (write_file o _) as [o' [|]]; cbn; split; cbn; by rewrite ?(proj1 (Hn _)), ?(proj2 (Hn _)).
Qed.
#[local] Hint Resolve spacing_register : agent.

Lemma spacing_afresh : keeps spacing register_afresh.
Proof. unfold register_afresh. keeps_steps. Qed.
#[local] Hint Resolve spacing_afresh : agent.

Lemma obtained_none sent i k x response received :
  is_success response = false \/ an_body response = None
    \/ (exists data, an_body response = Some data /\ truthy_text (ab_api_key data) = None) ->
  obtained_key (Asked sent (RecoverKey i k x) (Some response) received) = None.
Proof.
  cbn. intros [->|[->|(data & -> & Hk)]]; [done|by rewrite andb_false_r|].
  unfold truthy_text in Hk. destruct (present (ab_api_key data)) eqn:P; [|by rewrite andb_false_r].
  by rewrite Hk in P.
Qed.

(** The next time only moves on: it was past when the refused request was sent. *)
Lemma spacing_later s t x : spacing s -> (0 <= x)%Z -> monotonic (s_out s) = t ->
  (recovery_not_before (ag_rg (s_agent s)) <= t)%Z -> spacing (modify (set_rg (set_not_before (t + x)%Z)) s).2.
Proof.
  intros [H1 H2 H3 H4] Hx Ht Hn. split; cbn; try done. intros u Hu. specialize (H3 u Hu). lia.
Qed.

Lemma retry_after_nonneg a : (0 <= retry_after a)%Z.
Proof. unfold retry_after. case_match; unfold _MAX_RETRY_AFTER, _DEFAULT_RETRY_AFTER, us_per_second; lia. Qed.

Lemma spacing_error response s : spacing s -> (recovery_not_before (ag_rg (s_agent s)) <= monotonic (s_out s))%Z ->
  spacing (recovery_error response s).2.
Proof.
  intros Hs Hn. unfold recovery_error, bind, ret, now.
  destruct (_ && _); [by apply spacing_later|].
  destruct (refuses_recovery_secret response); [by destruct Hs|].
  destruct (refuses_registration_key response); [by destruct Hs|].
  destruct (_ =? _)%Z; [|done]. apply spacing_later; try done. apply retry_after_nonneg.
Qed.

(** The recovery that obtains a key: the agent computes the distance the trace defines. *)
Lemma spacing_obtain s e : spacing s -> (recovery_not_before (ag_rg (s_agent s)) <= monotonic (s_out s))%Z ->
  forall o, (monotonic (s_out s) <= monotonic o)%Z -> registered e = false -> obtained_key e = Some (monotonic o) ->
  spacing (hold_back_repeated_recovery (Sys (s_agent s) o (s_file s) (s_trace s ++ [e]))).2.
Proof.
  intros [H1 H2 H3 H4] Hn o Ho Er Eo. unfold hold_back_repeated_recovery. unfold_ops. cbn. rewrite H1.
  assert (recoveries (s_trace s ++ [e]) = monotonic o :: recoveries (s_trace s)) as Et.
  { rewrite recoveries_app. unfold note. by rewrite Er, Eo. }
  destruct (recoveries (s_trace s)) as [|last rest] eqn:El; cbn [head].
  - split; cbn [s_agent s_trace s_out]; rewrite ?Et; cbn; [done|done| |done]. intros t [= <-]. lia.
  - specialize (H3 last eq_refl).
    assert (apart (monotonic o :: last :: rest)) as Hap by (split; [lia|done]).
    change (distance (monotonic o :: last :: rest)) with
      (if (monotonic o - last <? _RECOVERY_REPEAT_WINDOW)%Z
       then Z.min (Z.max (distance (last :: rest) * 2) _MIN_RECOVERY_GAP) _RECOVERY_REPEAT_WINDOW else 0%Z) in *.
    assert (distance (monotonic o :: last :: rest) =
      (if (monotonic o - last <? _RECOVERY_REPEAT_WINDOW)%Z
       then Z.min (Z.max (distance (last :: rest) * 2) _MIN_RECOVERY_GAP) _RECOVERY_REPEAT_WINDOW else 0%Z)) as Ed by done.
    destruct (_ <? _)%Z eqn:E; split; cbn [s_agent s_trace s_out]; rewrite ?Et, ?Ed; try done.
    + cbn. by rewrite H2.
    + intros t [= <-]. cbn [ag_rg set_rg recovery_not_before]. rewrite H2. apply Z.le_max_l.
    + intros t [= <-]. cbn. lia.
Qed.

Lemma spacing_recover : keeps spacing recover_agent_key.
Proof.
  intros s Hs. unfold recover_agent_key. unfold bind at 1, get at 1. unfold bind at 1, now at 1.
  destruct (recovery_refused _ || (_ <? _)%Z) eqn:E; [done|].
  apply orb_false_iff in E as [_ E]. apply Z.ltb_ge in E.
  destruct (truthy_text (cr_recovery_secret (ag_cr (s_agent s)))) as [secret|].
  2: { apply (keeps_from spacing); [by apply spacing_afresh|]. intros ?. keeps_steps. }
  destruct (cf_agent_id (ag_cf (s_agent s))) as [id|]; [|done].
  destruct (truthy_text (registration_key (s_agent s))) as [key|]; [|done].
  unfold bind at 1, send at 1. set (r := RecoverKey _ _ _).
  pose proof (clock_ask (s_out s) r) as Hc. destruct (ask (s_out s) r) as [o [response|]]; cbn in Hc.
  2: by apply spacing_event.
  destruct (is_success response) eqn:Ok; cbn [negb].
  2: { apply spacing_error; [|cbn; lia]. apply spacing_event; try done. apply obtained_none. by left. }
  destruct (an_body response) as [data|] eqn:Eb.
  2: { apply spacing_event; try done. apply obtained_none. by right; left. }
  destruct (truthy_text (ab_api_key data)) as [api_key|] eqn:Hkey.
  2: { apply spacing_event; try done. apply obtained_none. right; right. eauto. }
  apply (keeps_from spacing); [|intros ?; keeps_steps].
  apply spacing_obtain; try done. cbn. rewrite Ok, Eb. by apply truthy_present in Hkey as [_ ->].
Qed.
#[local] Hint Resolve spacing_recover : agent.


Lemma spacing_again : keeps spacing register_again_after_revoke.
Proof. unfold register_again_after_revoke. keeps_steps. Qed.
#[local] Hint Resolve spacing_again : agent.

Lemma spacing_fetch fuel : keeps spacing (fetch_checks fuel).
Proof. induction fuel as [|fuel IH]; cbn [fetch_checks]; unfold apply_policy; keeps_steps. Qed.
#[local] Hint Resolve spacing_fetch : agent.

Lemma spacing_beat fuel id : keeps spacing (beat fuel id).
Proof.
  unfold beat, read_answer, read_refusal, register_again_if_refused, handle_agent_approval, handle_agent_approved,
    handle_recovery_secret_refused, sync_checks, retry_unsaved, apply_policy.
  keeps_steps.
Qed.

Lemma spacing_begin fuel : keeps spacing (begin_run fuel).
Proof. unfold begin_run, ensure_recoverable. keeps_steps. Qed.

Lemma spacing_start key interval t a o f : spacing (start key interval t (Sys a o f [])).2.
Proof.
  unfold start, load. unfold_ops. cbn. destruct f as [f|]; cbn; [|by split].
  by destruct (present (st_api_key f)); split.
Qed.

(** Between two registrations the agent obtains a new key at most seven times
    in any hour, however often the server hands one out and then refuses it: of
    eight in a row, the last comes an hour or more after the first. *)
Theorem recoveries_spaced s i t t' : reachable s ->
  recoveries (s_trace s) !! i = Some t -> recoveries (s_trace s) !! (i + 7) = Some t' ->
  (t' + _RECOVERY_REPEAT_WINDOW <= t)%Z.
Proof.
  intros Hr. apply (reachable_inv spacing) in Hr as [_ _ _ Ha];
    [|apply spacing_start|apply spacing_begin|apply spacing_beat].
  by apply apart_lookup.
Qed.


(** ** Answers the agent does not believe *)

(** Neither an answer of the API to a heartbeat nor a refusal the server marked. *)
Definition unbelieved (a : option answer) : bool :=
  match a with Some a => negb (an_status a =? 200)%Z && negb (is_marked_refusal a) | None => true end.

Lemma unbelieved_beat fuel id s : hb_secret_refused (ag_hb (s_agent s)) = false ->
  (forall i k x, unbelieved (ask (s_out s) (Beat i k x)).2 = true) ->
  exists i k x o a, ask (s_out s) (Beat i k x) = (o, a)
    /\ (beat fuel id s).2 = Sys (s_agent s) o (s_file s)
         (s_trace s ++ [Asked (monotonic (s_out s)) (Beat i k x) a (monotonic o)]).
Proof.
  intros Hf Hu. set (i := default id (cf_agent_id (ag_cf (s_agent s)))). set (k := (auth_headers (s_agent s)).1).
  set (x := (auth_headers (s_agent s)).2). pose proof (Hu i k x) as Ha.
  destruct (ask (s_out s) (Beat i k x)) as [o a] eqn:Ea. exists i, k, x, o, a. split; [done|].
  unfold beat. unfold bind at 1, get at 1.
  change (auth_headers (s_agent s)) with (k, x). fold i. unfold bind at 1, send at 1. rewrite Ea.
  destruct a as [response|]; [|done]. cbn in Ha.
  apply andb_true_iff in Ha as [H200 Hm]. apply negb_true_iff in H200, Hm. rewrite H200.
  unfold read_refusal, register_again_if_refused, bind, get, ret. cbn. rewrite Hm. cbn. by rewrite Hf.
Qed.

(** A running agent that hears nothing but errors the server's authentication
    did not mark (a proxy's pages, a server being restored, or the 404 of an agent
    whose row is gone) keeps its identity, key, secret and file as they are and
    only goes on sending heartbeats: it never registers again on its own. *)
Theorem unbelieved_errors_change_nothing fuel id n s (A : outside -> Prop) : A (s_out s) ->
  (forall o i k x, A o -> unbelieved (ask o (Beat i k x)).2 = true /\ A (ask o (Beat i k x)).1) ->
  hb_secret_refused (ag_hb (s_agent s)) = false ->
  exists l, s_agent (beats fuel id n s).2 = s_agent s /\ s_file (beats fuel id n s).2 = s_file s
    /\ s_trace (beats fuel id n s).2 = s_trace s ++ l /\ length l = n /\ Forall (fun e => registered e = false) l.
Proof.
  intros HA Hask. revert s HA. induction n as [|n IH]; intros s HA Hf; cbn [beats].
  { exists []. by rewrite app_nil_r. }
  destruct (unbelieved_beat fuel id s Hf) as (i & k & x & o & a & Ea & Es).
  { intros i k x. by apply Hask. }
  unfold bind. destruct (beat fuel id s) as [u s1]. cbn in Es. subst s1.
  edestruct IH as (l & F1 & F2 & F3 & F4 & F5); [| |]; [| |eexists (_ :: l); rewrite F1, F2, F3; cbn].
  - cbn. pose proof (Hask (s_out s) i k x HA) as [_ Ho]. by rewrite Ea in Ho.
  - done.
  - rewrite <- app_assoc. split_and!; try done; [by rewrite F4|by constructor].
Qed.

(** ** An agent the server no longer knows *)

(** The fetch of checks that a 404 answers, marked or not, throws the agent's
    key and recovery secret away, in memory and on disk, before the server is asked
    to register it again; when that fails too, it is left with no credentials. *)
Theorem fetch_404_forgets fuel s id : cf_agent_id (ag_cf (s_agent s)) = Some id ->
  (forall o k, exists a, (ask o (FetchChecks id k)).2 = Some a /\ an_status a = 404%Z) ->
  (forall o k a, (ask o (Register k)).2 = Some a -> is_success a = false) ->
  (forall o, (delete_file o).2 = true) ->
  (fetch_checks (S fuel) s).1 = Some false
  /\ ag_cr (s_agent (fetch_checks (S fuel) s).2) = MkCredentials None None None false
  /\ s_file (fetch_checks (S fuel) s).2 = None.
Proof.
  intros Hid Hask Hreg Hdel.
  enough (exists o tr, fetch_checks (S fuel) s
    = (Some false, Sys (set_cr (MkCredentials None None None false) (s_agent s)) o None tr)) as (? & ? & ->) by done.
  cbn [fetch_checks]. unfold bind at 1, get at 1. rewrite Hid. unfold bind at 1, send at 1. set (k := truthy_text _). destruct (Hask (s_out s) k) as (a & Ha & H404).
  destruct (ask (s_out s) (FetchChecks id k)) as [o ?]. cbn in Ha. subst.
  assert (is_success a = false) as -> by by unfold is_success; rewrite H404.
  rewrite H404. cbn [Z.eqb Pos.eqb]. unfold clear, register_with_server. unfold_ops. cbn.
  assert (forall o x, (ask o (Register x)).2 = None \/ exists b, (ask o (Register x)).2 = Some b /\ is_success b = false) as Hr.
  { intros o' x. specialize (Hreg o' x). destruct (ask o' (Register x)) as [o2 [b|]]; [right|by left]. eauto. }
  destruct (s_file s) as [f|]; [pose proof (Hdel o) as Hd; destruct (delete_file o) as [o1 ?]; cbn in Hd; subst; cbn|cbn];
    match goal with |- context [ask ?o (Register ?x)] =>
      destruct (Hr o x) as [Hb|(b & Hb & Hb4)]; destruct (ask o (Register x)) as [o2 ?]; cbn in Hb; subst; cbn end;
    rewrite ?Hb4; cbn; eauto.
Qed.
End Facts.

(** ** On a scripted server, each answer some seconds after its request, and a sound disk *)

Module Scripted.
Definition script := list (N * option answer).
#[export] Instance scripted : Surroundings := {|
  outside := Z * script;
  monotonic o := (o.1 * us_per_second)%Z;
  ask o _ := match o.2 with
             | (seconds, a) :: rest => ((o.1 + Z.of_N seconds, rest)%Z, a)
             | [] => (o, None)
             end;
  write_file o _ := (o, true);
  delete_file o := (o, true);
|}.
#[export] Instance scripted_clock : MonotonicClock.
Proof. by split; intros [t [|[d a] l]] *; cbn; unfold us_per_second; lia. Qed.

Definition ok (b : body) : N * option answer := (1%N, Some (Answer 200 None None (Some b))).
Definition status (s : Z) (mark : option string) : N * option answer := (1%N, Some (Answer s mark None None)).
Definition after (seconds : N) (a : N * option answer) : N * option answer := (seconds, a.2).
Definition nothing_said : body := Body None None None None None None None None.
Definition registers (id : uuid) (secret : string) : N * option answer := ok (Body (Some id) (Some secret) None None None None None None).
Definition no_checks : N * option answer := ok nothing_said.
Definition says_approved : N * option answer := ok (Body None None None (Some "active") None None None None).
Definition key_given (k : string) : N * option answer := ok (Body None None (Some k) None None None None None).
Definition hears_key (taken : bool) : N * option answer := ok (Body None None None (Some "active") (Some taken) None None None).
Definition blank_agent : agent := Agent (Config None None None) (MkCredentials None None None false) (Registration false 0 None 0 false 0)
  (Sender false false None false 0 None) false.

(** A first start, with the registration key [reg]; then [n] heartbeats. *)
Definition first_run (l : script) (n : nat) : sys :=
  (beats 3 1%N n (begin_run 3 (start (Some "reg") 300 0 (Sys blank_agent (1000%Z, l) None [])).2).2).2.
Lemma first_run_reachable l n : reachable (first_run l n).
Proof.
  unfold first_run. assert (reachable (begin_run 3 (start (Some "reg") 300 0 (Sys blank_agent (1000%Z, l) None [])).2).2) as Hs
    by (apply reach_begin, reach_start).
  revert Hs. generalize (begin_run 3 (start (Some "reg") 300 0 (Sys blank_agent (1000%Z, l) None [])).2).2.
  induction n as [|n IH]; intros s Hs; cbn [beats]; [done|].
  unfold bind. pose proof (reach_beat s 3 1%N Hs) as Hb. destruct (beat 3 1%N s) as [u s1]. by apply IH.
Qed.

(** Registered, approved at the first heartbeat, then the key taken. *)
Definition approval : sys :=
  first_run [registers 1%N "secret"; no_checks; says_approved; key_given "ak_1"; no_checks; hears_key true] 2.

Lemma credentials_kept_witness : ag_cr (s_agent approval) = MkCredentials (Some 1%N) (Some "ak_1") (Some "secret") false
  /\ cf_auth_key (ag_cf (s_agent approval)) = Some "ak_1".
Proof.
  split; [by vm_compute|].
  destruct (credentials_kept approval 1%N) as (_ & Hk & _); [apply first_run_reachable|by vm_compute|].
  rewrite Hk; by vm_compute.
Defined.

(** Its key refused: from then on the secret goes along. *)
Definition refused_key : sys :=
  first_run [registers 1%N "secret"; no_checks; says_approved; key_given "ak_1"; no_checks; status 401 (Some AGENT_KEY_REFUSED)] 2.

(** A new key in its place: undoubted. *)
Definition key_obtained : sys :=
  first_run [registers 1%N "secret"; no_checks; says_approved; key_given "ak_1"; no_checks; status 401 (Some AGENT_KEY_REFUSED);
    hears_key false; key_given "ak_2"; no_checks] 3.

Lemma secret_only_in_doubt_witness : doubted (s_trace refused_key) = true
  /\ (auth_headers (s_agent approval)).2 = None
  /\ auth_headers (s_agent key_obtained) = (Some "ak_2", None) /\ doubted (s_trace key_obtained) = false.
Proof.
  split; [|by vm_compute].
  apply (secret_only_in_doubt refused_key "secret"); [apply first_run_reachable|by vm_compute|by vm_compute].
Defined.

(** A heartbeat refuses the key, the next one the secret, and recover-key gives a
    new key all the same: only a registration resets the refusal of the key, so
    the secret goes along with a key nobody refused. *)
Definition over_refused_secret : sys :=
  first_run [registers 1%N "secret"; no_checks; says_approved; key_given "ak_1"; no_checks; status 401 (Some AGENT_KEY_REFUSED);
    status 401 (Some RECOVERY_SECRET_REFUSED); key_given "ak_2"] 3.

Lemma recovered_key_inherits_doubt :
  auth_headers (s_agent over_refused_secret) = (Some "ak_2", Some "secret")
  /\ last (s_trace over_refused_secret) = Some (Wrote (Stored 1%N (Some "ak_2") (Some "secret")) true).
Proof. split; vm_compute; reflexivity. Qed.

(** Another copy takes every key the agent obtains: it asks again less and less often. *)
Definition contended : sys :=
  first_run ([registers 1%N "secret"; no_checks; says_approved; key_given "k"; no_checks]
    ++ concat (map (fun d => [after d (hears_key false); key_given "k"; no_checks]) [1; 60; 120; 240; 480; 960; 1920; 3600; 1; 60]%N)) 11.

Lemma recoveries_spaced_witness :
  map (fun t => (t / us_per_second)%Z) (reverse (recoveries (s_trace contended)))
    = [1004; 1007; 1069; 1191; 1433; 1915; 2877; 4799; 8401; 8404; 8466]%Z
  /\ (1004 * us_per_second + _RECOVERY_REPEAT_WINDOW <= 4799 * us_per_second)%Z.
Proof.
  split; [by vm_compute|].
  apply (recoveries_spaced contended 3); [apply first_run_reachable|by vm_compute|by vm_compute].
Defined.

(** The row of a running agent deleted: its heartbeats are answered 404. *)
Definition deleted : sys := first_run [registers 1%N "secret"; no_checks; says_approved; key_given "ak_1"; no_checks] 1.
Definition later (s : sys) (l : script) : sys := @Sys scripted (s_agent s) (2000%Z, l) (s_file s) [].
Definition on_404s (o : outside) : Prop := Forall (fun x => x = status 404 None) o.2.

Lemma unbelieved_errors_change_nothing_witness :
  let s := later deleted (repeat (status 404 None) 100) in
  s_agent (beats 3 1%N 50 s).2 = s_agent s
  /\ cr_api_key (ag_cr (s_agent deleted)) = Some "ak_1"
  /\ forallb (fun e => negb (registered e)) (s_trace (beats 3 1%N 50 s).2) = true.
Proof.
  cbv zeta. split; [|by vm_compute].
  destruct (unbelieved_errors_change_nothing 3 1%N 50
    (later deleted (repeat (status 404 None) 100)) on_404s) as (l & E & _).
  - unfold on_404s. cbn [s_out snd]. apply Forall_forall. intros x Hx. apply list_elem_of_In, repeat_spec in Hx. exact Hx.
  - intros [t [|[d a] r]] i k x Hf; [by split|]. unfold on_404s in *. cbn in Hf. apply Forall_cons in Hf as [[= -> ->] Hf]. by split.
  - by vm_compute.
  - exact E.
Defined.

End Scripted.

(** A server that answers 404 to everything. *)
Module Gone.
#[export] Instance gone : Surroundings := {|
  outside := Z;
  monotonic t := t;
  ask t _ := ((t + us_per_second)%Z, Some (Answer 404 None None None));
  write_file t _ := (t, true);
  delete_file t := (t, true);
|}.
Definition held : agent := Agent (Config (Some 1%N) (Some "ak_1") (Some (Some "reg"))) (MkCredentials (Some 1%N) (Some "ak_1") (Some "secret") false)
  (Registration false 0 None 0 false 0) (Sender false false None false 0 None) false.

Definition before : sys := @Sys gone held 0%Z (Some (Stored 1%N (Some "ak_1") (Some "secret"))) [].

Lemma fetch_404_forgets_witness :
  s_file (fetch_checks 1 before).2 = None.
Proof.
  apply (fetch_404_forgets 0 before 1%N); try done.
  - intros o k. by eexists.
  - by intros o k a [= <-].
Defined.
End Gone.
