(* ===== verification/Fleet.v ===== *)
(** * The agents on the server

    services/core/agent_core_service.py over crud/agent_crud.py: the life of an
    agent's row, from its registration to its deletion, its heartbeats, and the
    key and recovery secret it is issued; services/core/cleanup_core_service.py
    deletes the ones long silent.  The state is the tables the service writes:
    the [db] of [Store], the jobs a heartbeat dispatches and the metric rows it
    adds.  An operation that raises commits nothing.  [random] is what the secrets
    module draws, [salt] bcrypt's salt.  Of the row, updated_at and the columns
    nothing writes are left out. *)

From S2P Require Import Prelude Py Text Jobs Store Liveness AlertAdmin Assignment Checks Credentials.

Record agent_metric := AgentMetric {
  am_agent_id : uuid;
  am_timestamp : instant;
  am_status : AgentStatus;
  am_values : pydict;
}.

Record fleet := Fleet {
  fl_db : db;
  fl_jobs : jobs;
  fl_metrics : list agent_metric;
}.

Definition agents_of (fl : fleet) : gmap uuid agent := db_agents (fl_db fl).
Definition with_db (fl : fleet) (d : db) : fleet := Fleet d (fl_jobs fl) (fl_metrics fl).
(** The flush of one agent's changed row ([AgentCRUD.save_agent]). *)
Definition save_agent (fl : fleet) (id : uuid) (a : agent) : fleet :=
  with_db fl (set_agents (fl_db fl) (<[id := a]> (agents_of fl))).

(** ** Schemas *)

Record AgentCreate := {
  ac_agent_name : option string;
  ac_run_id : option string;
  ac_hostname : option string;
  ac_ip_address : option string;
  ac_version : option string;
  ac_tags : option (list string);
}.

(** What was sent of an update ([exclude_unset]); [ad_settings] the reporter,
    tuning and logging overrides. *)
Record AgentUpdate := {
  ad_agent_name : sent string;
  ad_run_id : sent string;
  ad_hostname : sent string;
  ad_ip_address : sent string;
  ad_version : sent string;
  ad_tags : sent (list string);
  ad_heartbeat_interval : sent Z;
  ad_check_sync_interval : sent Z;
  ad_settings : pydict;
}.

(** [hb_report]: the health fields of the payload, pydantic's defaults filled in. *)
Record AgentHeartbeat := {
  hb_run_id : option string;
  hb_hostname : option string;
  hb_ip_address : option string;
  hb_version : option string;
  hb_tags : option (list string);
  hb_status : AgentStatus;
  hb_report : pydict;
}.

Record AgentHeartbeatResponse := HeartbeatResponse {
  hr_config_version : string;
  hr_heartbeat_interval : Z;
  hr_check_sync_interval : Z;
  hr_message : option string;
  hr_agent_key_accepted : bool;
  hr_jobs : list JobDispatch;
  hr_approval_status : AgentApprovalStatus;
  hr_settings : pydict;
}.

(** ** The changes of one row *)

(** A status moved by an operator, with its reason. *)
Definition moved_to (now : instant) (status : AgentApprovalStatus) (reason : option string) (a : agent) : agent :=
  Agent (ag_id a) (ag_name a) (ag_hostname a) (ag_tags a) (ag_status a) status
    (ag_last_seen a) (ag_created_at a) (ag_heartbeat_interval a)
    (ag_checks_updated_at a) (ag_run_id a) (ag_ip_address a) (ag_version a)
    (ag_first_seen a) (ag_check_sync_interval a) (ag_settings a) (ag_health a)
    (ag_api_key_hash a) (ag_api_key_created_at a) (ag_api_key_last_used a)
    (ag_recovery_secret_hash a) (ag_approved_at a) reason (Some now).

Definition approved (now : instant) (key_hash : string) (a : agent) : agent :=
  Agent (ag_id a) (ag_name a) (ag_hostname a) (ag_tags a) (ag_status a) ACTIVE
    (ag_last_seen a) (ag_created_at a) (ag_heartbeat_interval a)
    (ag_checks_updated_at a) (ag_run_id a) (ag_ip_address a) (ag_version a)
    (ag_first_seen a) (ag_check_sync_interval a) (ag_settings a) (ag_health a)
    (Some key_hash) (Some now) (ag_api_key_last_used a) (ag_recovery_secret_hash a)
    (Some now) (ag_status_reason a) (Some now).

(** The VALUES of [claim_initial_api_key]. *)
Definition claimed_key (now : instant) (key_hash : string) (a : agent) : agent :=
  Agent (ag_id a) (ag_name a) (ag_hostname a) (ag_tags a) (ag_status a) (ag_approval a)
    (ag_last_seen a) (ag_created_at a) (ag_heartbeat_interval a)
    (ag_checks_updated_at a) (ag_run_id a) (ag_ip_address a) (ag_version a)
    (ag_first_seen a) (ag_check_sync_interval a) (ag_settings a) (ag_health a)
    (Some key_hash) (Some now) (ag_api_key_last_used a) (ag_recovery_secret_hash a)
    (ag_approved_at a) (ag_status_reason a) (ag_status_changed_at a).

Definition new_key (now : instant) (key_hash : string) (a : agent) : agent :=
  Agent (ag_id a) (ag_name a) (ag_hostname a) (ag_tags a) (ag_status a) (ag_approval a)
    (ag_last_seen a) (ag_created_at a) (ag_heartbeat_interval a)
    (ag_checks_updated_at a) (ag_run_id a) (ag_ip_address a) (ag_version a)
    (ag_first_seen a) (ag_check_sync_interval a) (ag_settings a) (ag_health a)
    (Some key_hash) (Some now) None (ag_recovery_secret_hash a) (ag_approved_at a)
    (ag_status_reason a) (ag_status_changed_at a).

Definition without_credentials (a : agent) : agent :=
  Agent (ag_id a) (ag_name a) (ag_hostname a) (ag_tags a) (ag_status a) (ag_approval a)
    (ag_last_seen a) (ag_created_at a) (ag_heartbeat_interval a)
    (ag_checks_updated_at a) (ag_run_id a) (ag_ip_address a) (ag_version a)
    (ag_first_seen a) (ag_check_sync_interval a) (ag_settings a) (ag_health a) None None
    None None (ag_approved_at a) (ag_status_reason a) (ag_status_changed_at a).

(** What [verify_agent_token] writes. *)
Definition stamp_key_use (now : instant) (a : agent) : agent :=
  Agent (ag_id a) (ag_name a) (ag_hostname a) (ag_tags a) (ag_status a) (ag_approval a)
    (ag_last_seen a) (ag_created_at a) (ag_heartbeat_interval a)
    (ag_checks_updated_at a) (ag_run_id a) (ag_ip_address a) (ag_version a)
    (ag_first_seen a) (ag_check_sync_interval a) (ag_settings a) (ag_health a)
    (ag_api_key_hash a) (ag_api_key_created_at a) (Some now) (ag_recovery_secret_hash a)
    (ag_approved_at a) (ag_status_reason a) (ag_status_changed_at a).

(** [for field, value in update_data.items(): setattr(agent, field, value)] *)
Definition apply_update (data : AgentUpdate) (a : agent) : agent :=
  Agent (ag_id a) (nullable (ad_agent_name data) (ag_name a))
    (nullable (ad_hostname data) (ag_hostname a)) (nullable (ad_tags data) (ag_tags a))
    (ag_status a) (ag_approval a) (ag_last_seen a) (ag_created_at a)
    (nullable (ad_heartbeat_interval data) (ag_heartbeat_interval a))
    (ag_checks_updated_at a) (nullable (ad_run_id data) (ag_run_id a))
    (nullable (ad_ip_address data) (ag_ip_address a))
    (nullable (ad_version data) (ag_version a)) (ag_first_seen a)
    (nullable (ad_check_sync_interval data) (ag_check_sync_interval a))
    (dict_update (ag_settings a) (ad_settings data)) (ag_health a) (ag_api_key_hash a)
    (ag_api_key_created_at a) (ag_api_key_last_used a) (ag_recovery_secret_hash a)
    (ag_approved_at a) (ag_status_reason a) (ag_status_changed_at a).

(** The health columns, and the payload field each takes. *)
Definition HEALTH_FIELDS : list (string * string) :=
  [("uptime_seconds", "uptime_seconds"); ("checks_total", "checks_total"); ("checks_active", "checks_active");
   ("checks_executed_total", "checks_executed_count"); ("checks_succeeded_total", "checks_succeeded_count");
   ("checks_failed_total", "checks_failed_count"); ("cpu_percent", "cpu_percent"); ("memory_mb", "memory_mb");
   ("queue_depth", "queue_depth"); ("last_error", "last_error_message");
   ("server_unreachable_count", "server_unreachable_count"); ("stored_reports_count", "stored_reports_count");
   ("stored_reports_oldest_timestamp", "stored_reports_oldest_timestamp");
   ("dead_letter_count", "dead_letter_count"); ("open_file_descriptors", "open_file_descriptors");
   ("fd_limit_soft", "fd_limit_soft"); ("fd_usage_percent", "fd_usage_percent");
   ("subprocess_count", "subprocess_count")].

(** The columns of a metric row, likewise. *)
Definition METRIC_FIELDS : list (string * string) :=
  [("cpu_percent", "cpu_percent"); ("memory_mb", "memory_mb"); ("queue_depth", "queue_depth");
   ("queue_max_size", "queue_max_size"); ("checks_executed", "checks_executed_count");
   ("checks_succeeded", "checks_succeeded_count"); ("checks_failed", "checks_failed_count");
   ("errors_count", "errors_since_last_heartbeat"); ("warnings_count", "warnings_since_last_heartbeat");
   ("last_error", "last_error_message"); ("open_file_descriptors", "open_file_descriptors");
   ("fd_limit_soft", "fd_limit_soft"); ("fd_usage_percent", "fd_usage_percent");
   ("subprocess_count", "subprocess_count")].

Definition reported (fields : list (string * string)) (report : pydict) : pydict :=
  map (fun f => (f.1, dict_get report f.2 PNone)) fields.

(** [if heartbeat.x: agent.x = heartbeat.x] *)
Definition if_sent (v : option string) (old : option string) : option string :=
  if present v then v else old.

(** The tags a heartbeat leaves: a pending agent's suggestion, when it fits a
    TagList ([storable_tags], pydantic's verdict). *)
Definition suggested_tags (storable_tags : list string -> option (list string)) (a : agent)
    (hb : AgentHeartbeat) : option (list string) :=
  match hb_tags hb with
  | Some (_ :: _ as tags) =>
      if bool_decide (ag_approval a = PENDING)
      then match storable_tags tags with Some t => Some t | None => ag_tags a end
      else ag_tags a
  | _ => ag_tags a
  end.

(** [_apply_heartbeat] *)
Definition apply_heartbeat (storable_tags : list string -> option (list string)) (hb : AgentHeartbeat)
    (received_at : instant) (a : agent) : agent :=
  Agent (ag_id a) (ag_name a) (if_sent (hb_hostname hb) (ag_hostname a))
    (suggested_tags storable_tags a hb) (Some (hb_status hb)) (ag_approval a)
    (Some received_at) (ag_created_at a) (ag_heartbeat_interval a)
    (ag_checks_updated_at a) (if_sent (hb_run_id hb) (ag_run_id a))
    (if_sent (hb_ip_address hb) (ag_ip_address a))
    (if_sent (hb_version hb) (ag_version a)) (ag_first_seen a)
    (ag_check_sync_interval a) (ag_settings a) (reported HEALTH_FIELDS (hb_report hb))
    (ag_api_key_hash a) (ag_api_key_created_at a) (ag_api_key_last_used a)
    (ag_recovery_secret_hash a) (ag_approved_at a) (ag_status_reason a)
    (ag_status_changed_at a).

Definition heartbeat_metric (id : uuid) (hb : AgentHeartbeat) (received_at : instant) : agent_metric :=
  AgentMetric id received_at (hb_status hb) (reported METRIC_FIELDS (hb_report hb)).

(** A row just added: no key, no reason, pending. *)
Definition new_agent (now : instant) (id : uuid) (name run_id hostname ip_address version : option string)
    (tags : option (list string)) (recovery_secret_hash : option string) : agent :=
  Agent id name hostname tags (Some UNKNOWN) PENDING (Some now) now None None run_id ip_address version
    now None [] [] None None None recovery_secret_hash None None None.

(** ** Guards *)

Definition APPROVABLE : list AgentApprovalStatus := [PENDING; REJECTED].
Definition DISABLEABLE : list AgentApprovalStatus := [ACTIVE; PAUSED].
Definition ARCHIVABLE : list AgentApprovalStatus := [ACTIVE; PAUSED; DISABLED].

Definition require_status (a : agent) (allowed : list AgentApprovalStatus) : res unit :=
  if bool_decide (ag_approval a ∈ allowed) then Ok tt
  else Raise (ValidationException "An agent can be moved so only from other statuses").


Section Fleet.
Context `{PyRuntime} `{ServerSettings} `{Bcrypt} `{JobEnv}.
(** settings.server.default_check_sync_interval, settings.security.auth_enabled *)
Variable default_check_sync_interval : Z.
Variable auth_enabled : bool.
Variable storable_tags : list string -> option (list string).

(** ** Creating, registering, changing *)

Definition get_agent_by_name (fl : fleet) (name : string) : option agent :=
  head (filter (fun a => ag_name a = Some name) (rows (agents_of fl))).

Definition add_agent (fl : fleet) (id : uuid) (a : agent) : res fleet :=
  match agents_of fl !! id with
  | Some _ => Raise IntegrityError
  | None => Ok (save_agent fl id a)
  end.

Definition create_agent (fl : fleet) (now : instant) (id : uuid) (data : AgentCreate) : res fleet :=
  match ac_agent_name data with
  | None => Raise (ValidationException "agent_name is required to create an agent")
  | Some name =>
      match get_agent_by_name fl name with
      | Some _ => Raise DuplicateResourceException
      | None => add_agent fl id (new_agent now id (Some name) (ac_run_id data) (ac_hostname data)
                  (ac_ip_address data) (ac_version data) (ac_tags data) None)
      end
  end.

(** [tags or None] *)
Definition tags_or_none (tags : option (list string)) : option (list string) :=
  match tags with Some (_ :: _) => tags | _ => None end.

Definition new_recovery_secret (random : N) : string := RECOVERY_SECRET_PREFIX +:+ token_hex 32 random.

(** The secret is returned once; the row keeps its digest. *)
Definition register_agent (fl : fleet) (now : instant) (id : uuid) (random : N) (hostname : string)
    (ip_address version : option string) (tags : option (list string)) : res (string * fleet) :=
  let recovery_secret := new_recovery_secret random in
  fl' ← add_agent fl id (new_agent now id None None (Some hostname) ip_address version
          (tags_or_none tags) (Some (recovery_secret_digest recovery_secret)));
  Ok (recovery_secret, fl').

Definition update_agent (fl : fleet) (id : uuid) (data : AgentUpdate) (actor_is_admin : bool) : res fleet :=
  a ← get_agent_by_id (fl_db fl) id;
  _ ← match ad_agent_name data with
      | Some (Some new_name) =>
          if bool_decide (Some new_name = ag_name a) then Ok tt
          else match get_agent_by_name fl new_name with
               | Some taken => if bool_decide (ag_id taken = ag_id a) then Ok tt
                               else Raise DuplicateResourceException
               | None => Ok tt
               end
      | _ => Ok tt
      end;
  let placement_changes := negb actor_is_admin
        && (was_sent (ad_agent_name data) || was_sent (ad_tags data)) in
  before ← (if placement_changes then synthetic_checks_reaching (fl_db fl) a else Ok ∅);
  let a' := apply_update data a in
  _ ← (if placement_changes then
         after ← synthetic_checks_reaching (fl_db fl) a';
         if bool_decide (before = after) then Ok tt else require_admin_actor actor_is_admin
       else Ok tt);
  Ok (save_agent fl id a').

(** ** Keys *)

Definition issue_key (salt : string) (random : N) : string * string :=
  (new_agent_key random, hashpw salt (new_agent_key random)).

(** [claim_initial_api_key] is one UPDATE that matches only an agent with no key. *)
Definition generate_agent_key (fl : fleet) (now : instant) (id : uuid) (salt : string) (random : N)
    : res (string * fleet) :=
  a ← get_agent_by_id (fl_db fl) id;
  let '(key, key_hash) := issue_key salt random in
  match ag_api_key_hash a with
  | None => Ok (key, save_agent fl id (claimed_key now key_hash a))
  | Some _ => Raise ValueError
  end.

Definition regenerate_agent_key (fl : fleet) (now : instant) (id : uuid) (salt : string) (random : N)
    : res (string * fleet) :=
  a ← get_agent_by_id (fl_db fl) id;
  let '(key, key_hash) := issue_key salt random in
  Ok (key, save_agent fl id (new_key now key_hash a)).

Definition revoke_agent_key (fl : fleet) (id : uuid) : res fleet :=
  a ← get_agent_by_id (fl_db fl) id;
  Ok (save_agent fl id (without_credentials a)).

(** The answer, and whether the attempt is settled as refused. *)
Definition recover_agent_key (fl : fleet) (now : instant) (id : uuid) (salt : string) (random : N)
    (recovery_secret : option string) : res (string * fleet) * bool :=
  let a := agents_of fl !! id in
  let stored := a ← a; ag_recovery_secret_hash a in
  match a with
  | Some row =>
      if recovery_secret_matches stored recovery_secret then
        (if bool_decide (ag_approval row = ACTIVE) then regenerate_agent_key fl now id salt random
         else Raise AuthorizationException, false)
      else (Raise RecoverySecretRefusedException, bool_decide (stored <> None))
  | None => (Raise RecoverySecretRefusedException, true)
  end.

Definition can_recover_key (fl : fleet) (id : uuid) : res bool :=
  a ← get_agent_by_id (fl_db fl) id;
  Ok (present (ag_recovery_secret_hash a) && bool_decide (ag_approval a = ACTIVE)).

(** ** The lifecycle *)

Definition approve_agent (fl : fleet) (now : instant) (id : uuid) (salt : string) (random : N)
    (actor_is_admin : bool) : res (string * fleet) :=
  a ← get_agent_by_id (fl_db fl) id;
  _ ← (if bool_decide (ag_approval a = ACTIVE)
       then Raise (ValidationException "Agent is already approved") else Ok tt);
  _ ← require_status a APPROVABLE;
  reaching ← synthetic_checks_reaching (fl_db fl) a;
  _ ← (if bool_decide (reaching = ∅) then Ok tt else require_admin_actor actor_is_admin);
  let '(key, key_hash) := issue_key salt random in
  Ok (key, save_agent fl id (approved now key_hash a)).

(** The other actions: from [allowed] to [status]. *)
Definition move_agent (fl : fleet) (now : instant) (id : uuid) (allowed : list AgentApprovalStatus)
    (status : AgentApprovalStatus) (reason : option string) : res fleet :=
  a ← get_agent_by_id (fl_db fl) id;
  _ ← require_status a allowed;
  Ok (save_agent fl id (moved_to now status reason a)).

Definition reject_agent fl now id reason := move_agent fl now id [PENDING] REJECTED reason.
Definition pause_agent fl now id reason := move_agent fl now id [ACTIVE] PAUSED reason.
Definition resume_agent fl now id := move_agent fl now id [PAUSED] ACTIVE None.
Definition disable_agent fl now id reason := move_agent fl now id DISABLEABLE DISABLED reason.
Definition enable_agent fl now id := move_agent fl now id [DISABLED] ACTIVE None.
Definition archive_agent fl now id := move_agent fl now id ARCHIVABLE ARCHIVED None.
Definition restore_agent fl now id := move_agent fl now id [ARCHIVED] DISABLED None.

Definition force_reload (fl : fleet) (now : instant) (id : uuid) : res fleet :=
  a ← get_agent_by_id (fl_db fl) id;
  Ok (save_agent fl id (set_checks_updated_at now a)).

(** ** Heartbeats *)

Definition update_from_heartbeat (fl : fleet) (now : instant) (id : uuid) (hb : AgentHeartbeat) : res fleet :=
  a ← get_agent_by_id (fl_db fl) id;
  let fl' := save_agent fl id (apply_heartbeat storable_tags hb now a) in
  if existsb (fun m => bool_decide (am_agent_id m = id /\ am_timestamp m = now)) (fl_metrics fl)
  then Raise IntegrityError
  else Ok (Fleet (fl_db fl') (fl_jobs fl') (fl_metrics fl' ++ [heartbeat_metric id hb now])).

Definition RECOVER_MESSAGE : string :=
  "Agent approved - retrieve your agent-specific key via /recover-key endpoint to receive jobs".

(** [settings]: the job timeouts of the settings table. *)
Definition process_heartbeat (settings : gmap string Z) (fl : fleet) (now : instant) (id : uuid)
    (hb : AgentHeartbeat) (sender : heartbeat_sender) : res (AgentHeartbeatResponse * fleet) :=
  a ← get_agent_by_id (fl_db fl) id;
  let using_agent_key := hs_using_agent_key sender
        && bool_decide (ag_api_key_hash a = hs_verified_key_hash sender) in
  _ ← (if auth_enabled && using_agent_key && bool_decide (ag_approval a <> ACTIVE)
       then Raise AuthorizationException else Ok tt);
  _ ← (if bool_decide (hs_verified_secret_hash sender <> None)
          && bool_decide (ag_recovery_secret_hash a <> hs_verified_secret_hash sender)
       then Raise RecoverySecretRefusedException else Ok tt);
  fl1 ← (if using_agent_key || bool_decide (ag_approval a = PENDING) && negb (present (ag_api_key_hash a))
         then update_from_heartbeat fl now id hb else Ok fl);
  a1 ← get_agent_by_id (fl_db fl1) id;
  version ← config_version (fl_db fl1) now a1;
  '(jobs_list, t) ← (if using_agent_key then get_jobs_for_dispatch settings (fl_jobs fl1) now id
                     else Ok ([], fl_jobs fl1));
  let message := if negb using_agent_key && bool_decide (ag_approval a1 = ACTIVE)
                    && present (ag_api_key_hash a1) then Some RECOVER_MESSAGE else None in
  Ok (HeartbeatResponse version (heartbeat_interval a1)
        (int_or (ag_check_sync_interval a1) default_check_sync_interval) message using_agent_key
        jobs_list (ag_approval a1) (ag_settings a1),
      Fleet (fl_db fl1) t (fl_metrics fl1)).

(** ** Deleting *)

(** [CheckCRUD.list_for_agent] *)
Definition list_for_agent (d : db) (id : uuid) : list check :=
  filter (fun c => ck_agent_id c = id) (rows (db_checks d)).

Definition require_may_delete (fl : fleet) (id : uuid) (actor_is_admin : bool) : res unit :=
  if actor_is_admin then Ok tt
  else if existsb is_synthetic (list_for_agent (fl_db fl) id) then require_admin_actor actor_is_admin
  else Ok tt.

(** Rows of agents deleted, with what the foreign keys cascade to: their checks
    (and what goes with those), the results they reported, their metrics. *)
Definition drop_agents (fl : fleet) (ids : list uuid) : fleet :=
  let own := map ck_id (filter (fun c => ck_agent_id c ∈ ids) (rows (db_checks (fl_db fl)))) in
  let d := drop_checks (fl_db fl) own in
  Fleet (Db (filter (fun kv => kv.1 ∉ ids) (db_agents d)) (db_checks d) (db_alerts d) (db_check_maps d)
            (db_notif_maps d) (db_providers d)
            (filter (fun r => cr_agent_id r ∉ ids) (db_results d)) (db_logs d))
        (fl_jobs fl) (filter (fun m => am_agent_id m ∉ ids) (fl_metrics fl)).

Definition delete_agent (fl : fleet) (id : uuid) (actor_is_admin : bool) : res fleet :=
  _ ← get_agent_by_id (fl_db fl) id;
  _ ← require_may_delete fl id actor_is_admin;
  Ok (drop_agents fl [id]).

(** The WHERE of [get_stale_agent_names] and [delete_stale_agents]; last_seen is
    NOT NULL, and SQL's comparison with NULL holds for no row. *)
Definition stale (cutoff : instant) (a : agent) : bool :=
  match ag_last_seen a with Some t => (t <? cutoff)%Z | None => false end
  && bool_decide (ag_approval a <> ARCHIVED).

Definition stale_agents (fl : fleet) (cutoff : instant) : list agent :=
  filter (fun a => Is_true (stale cutoff a)) (rows (agents_of fl)).

(** [[name for name in ... if name]] *)
Definition get_stale_agent_names (fl : fleet) (cutoff : instant) : list string :=
  omap (fun a => if present (ag_name a) then ag_name a else None) (stale_agents fl cutoff).

Definition delete_stale_agents (fl : fleet) (cutoff : instant) : nat * fleet :=
  let gone := stale_agents fl cutoff in (length gone, drop_agents fl (map ag_id gone)).

(** [cleanup_stale_agents] *)
Definition cleanup_stale_agents (fl : fleet) (now : instant) (inactive_days : Z) : nat * fleet :=
  let cutoff := (now - inactive_days * us_per_day)%Z in
  match get_stale_agent_names fl cutoff with
  | [] => (0%nat, fl)
  | _ => delete_stale_agents fl cutoff
  end.

(** ** The service as a transition system *)

(** The lifecycle actions of the admin API ([AdminAgentCoreService.act]). *)
Inductive agent_action :=
  | Reject (reason : option string)
  | Pause (reason : option string)
  | Resume
  | Disable (reason : option string)
  | Enable
  | Archive
  | Restore
  | ForceReload.

Definition act (fl : fleet) (now : instant) (id : uuid) (action : agent_action) : res fleet :=
  match action with
  | Reject reason => reject_agent fl now id reason
  | Pause reason => pause_agent fl now id reason
  | Resume => resume_agent fl now id
  | Disable reason => disable_agent fl now id reason
  | Enable => enable_agent fl now id
  | Archive => archive_agent fl now id
  | Restore => restore_agent fl now id
  | ForceReload => force_reload fl now id
  end.

Inductive fleet_op :=
  | OpCreateAgent (id : uuid) (data : AgentCreate)
  | OpRegister (id : uuid) (random : N) (hostname : string) (ip_address version : option string)
      (tags : option (list string))
  | OpUpdate (id : uuid) (data : AgentUpdate)
  | OpGenerate (id : uuid) (salt : string) (random : N)
  | OpRegenerate (id : uuid) (salt : string) (random : N)
  | OpRevoke (id : uuid)
  | OpRecover (id : uuid) (salt : string) (random : N) (recovery_secret : option string)
  | OpApprove (id : uuid) (salt : string) (random : N)
  | OpAct (id : uuid) (action : agent_action)
  | OpKeyUsed (id : uuid)
  | OpHeartbeat (settings : gmap string Z) (id : uuid) (hb : AgentHeartbeat) (sender : heartbeat_sender)
  | OpDeleteAgent (id : uuid)
  | OpCleanup (inactive_days : Z).

(** One transaction, [admin] the authority of its actor. *)
Definition fleet_step (admin : bool) (fl : fleet) (now : instant) (op : fleet_op) : res fleet :=
  match op with
  | OpCreateAgent id data => create_agent fl now id data
  | OpRegister id random hostname ip version tags =>
      snd <$> register_agent fl now id random hostname ip version tags
  | OpUpdate id data => update_agent fl id data admin
  | OpGenerate id salt random => snd <$> generate_agent_key fl now id salt random
  | OpRegenerate id salt random => snd <$> regenerate_agent_key fl now id salt random
  | OpRevoke id => revoke_agent_key fl id
  | OpRecover id salt random secret => snd <$> (recover_agent_key fl now id salt random secret).1
  | OpApprove id salt random => snd <$> approve_agent fl now id salt random admin
  | OpAct id action => act fl now id action
  | OpKeyUsed id => a ← get_agent_by_id (fl_db fl) id; Ok (save_agent fl id (stamp_key_use now a))
  | OpHeartbeat settings id hb sender => snd <$> process_heartbeat settings fl now id hb sender
  | OpDeleteAgent id => delete_agent fl id admin
  | OpCleanup days => Ok (cleanup_stale_agents fl now days).2
  end.

(** The id an operation gives a new row. *)
Definition born (op : fleet_op) : list uuid :=
  match op with OpCreateAgent id _ | OpRegister id _ _ _ _ _ => [id] | _ => [] end.
End Fleet.
