(* ===== verification/FleetTheorems.v ===== *)
(** * The agents on the server: properties

    What every operation may do to one agent's row ([row_change]), and from it:
    the lifecycle, the approval every admitted agent had, unique names, the
    recovery secret that is only ever voided, the credentials a heartbeat needs,
    the placement of synthetic checks, and what a deletion takes along. *)

From S2P Require Import Prelude Py Text Jobs Store Notify Liveness AlertAdmin Assignment Checks ChecksTheorems.
From S2P Require Import Credentials Fleet Fixtures.

Section Rows.
Context `{PyRuntime} `{ServerSettings} `{Bcrypt} `{JobEnv}.
Variable default_check_sync_interval : Z.
Variable auth_enabled : bool.
Variable storable_tags : list string -> option (list string).

#[local] Abbreviation step := (fleet_step default_check_sync_interval auth_enabled storable_tags).
#[local] Abbreviation process := (process_heartbeat default_check_sync_interval auth_enabled storable_tags).

(** The moves of an operator, approval aside. *)
Inductive operator_move : AgentApprovalStatus -> AgentApprovalStatus -> Prop :=
  | move_reject : operator_move PENDING REJECTED
  | move_pause : operator_move ACTIVE PAUSED
  | move_resume : operator_move PAUSED ACTIVE
  | move_disable s : s ∈ DISABLEABLE -> operator_move s DISABLED
  | move_enable : operator_move DISABLED ACTIVE
  | move_archive s : s ∈ ARCHIVABLE -> operator_move s ARCHIVED
  | move_restore : operator_move ARCHIVED DISABLED.

Lemma approvable_iff s : s ∈ APPROVABLE <-> s = PENDING \/ s = REJECTED.
Proof. unfold APPROVABLE. by rewrite elem_of_cons, list_elem_of_singleton. Qed.

Lemma operator_move_admitted s s' : operator_move s s' -> (s' ∈ APPROVABLE <-> s ∈ APPROVABLE).
Proof.
  rewrite !approvable_iff.
  destruct 1 as [| | |s Hs| |s Hs|]; [naive_solver..| |naive_solver| |naive_solver];
    unfold DISABLEABLE, ARCHIVABLE in Hs;
    repeat (apply elem_of_cons in Hs as [->|Hs]; [naive_solver|]); by apply elem_of_nil in Hs.
Qed.

(** A placement changed by someone who may change it. *)
Definition placement_kept (d : db) (admin : bool) (a a' : agent) : Prop :=
  admin = true \/ ag_name a' = ag_name a /\ ag_tags a' = ag_tags a \/
  exists before, synthetic_checks_reaching d a = Ok before /\ synthetic_checks_reaching d a' = Ok before.

(** What one operation may do to the row under one id. *)
Inductive row_change (d : db) (admin : bool) (now : instant) (op : fleet_op) (i : uuid) : option agent -> option agent -> Prop :=
  | rc_same x : row_change d admin now op i x x
  | rc_gone a : row_change d admin now op i (Some a) None
  | rc_born name run_id hostname ip version tags secret : i ∈ born op ->
      (forall n, name = Some n -> exists data, op = OpCreateAgent i data) ->
      row_change d admin now op i None (Some (new_agent now i name run_id hostname ip version tags secret))
  | rc_updated a data : op = OpUpdate i data -> placement_kept d admin a (apply_update data a) ->
      row_change d admin now op i (Some a) (Some (apply_update data a))
  | rc_claimed a hash : ag_api_key_hash a = None -> row_change d admin now op i (Some a) (Some (claimed_key now hash a))
  | rc_rekeyed a hash : row_change d admin now op i (Some a) (Some (new_key now hash a))
  | rc_revoked a : row_change d admin now op i (Some a) (Some (without_credentials a))
  | rc_approved a hash reaching : ag_approval a ∈ APPROVABLE ->
      synthetic_checks_reaching d a = Ok reaching -> (admin = true \/ reaching = ∅) ->
      row_change d admin now op i (Some a) (Some (approved now hash a))
  | rc_moved a status reason : operator_move (ag_approval a) status ->
      row_change d admin now op i (Some a) (Some (moved_to now status reason a))
  | rc_reloaded a : row_change d admin now op i (Some a) (Some (set_checks_updated_at now a))
  | rc_used a : row_change d admin now op i (Some a) (Some (stamp_key_use now a))
  | rc_beat a hb : row_change d admin now op i (Some a) (Some (apply_heartbeat storable_tags hb now a)).

Lemma agent_found fl i a : get_agent_by_id (fl_db fl) i = Ok a -> agents_of fl !! i = Some a.
Proof. unfold get_agent_by_id, agents_of. by destruct (db_agents (fl_db fl) !! i); intros [= ->]. Qed.

(** A write of one row leaves the others. *)
Lemma saved_row d admin now op i j fl a a' :
  agents_of fl !! j = a -> row_change d admin now op j a (Some a') ->
  row_change d admin now op i (agents_of fl !! i) (agents_of (save_agent fl j a') !! i).
Proof.
  intros <- Hr. unfold save_agent, agents_of. cbn. destruct (decide (i = j)) as [->|Hij].
  - by rewrite lookup_insert_eq.
  - rewrite lookup_insert_ne by done. constructor.
Qed.

Lemma required_status a allowed u : require_status a allowed = Ok u -> ag_approval a ∈ allowed.
Proof. unfold require_status. by destruct (decide (ag_approval a ∈ allowed)); [|rewrite bool_decide_eq_false_2]. Qed.

Lemma required_admin b : require_admin_actor b = Ok tt -> b = true.
Proof. by destruct b. Qed.

Lemma act_row fl now id action fl' admin op i :
  act fl now id action = Ok fl' -> row_change (fl_db fl) admin now op i (agents_of fl !! i) (agents_of fl' !! i).
Proof.
  assert (Hm : forall allowed st r, move_agent fl now id allowed st r = Ok fl' ->
            (forall s, s ∈ allowed -> operator_move s st) ->
            row_change (fl_db fl) admin now op i (agents_of fl !! i) (agents_of fl' !! i)).
  { unfold move_agent. intros allowed st r Hs Hmove. inv_res. eapply saved_row; [by apply agent_found|].
    constructor. by eapply Hmove, required_status. }
  destruct action; cbn; intros Hs;
    try (eapply Hm; [exact Hs|]; intros s; rewrite ?list_elem_of_singleton; (intros -> || intros ?); by constructor).
  unfold force_reload in Hs. inv_res. eapply saved_row; [by apply agent_found|constructor].
Qed.

Lemma dropped_row fl ids i :
  agents_of (drop_agents fl ids) !! i = if decide (i ∈ ids) then None else agents_of fl !! i.
Proof.
  unfold drop_agents, agents_of, drop_checks. cbn. destruct (decide (i ∈ ids)) as [Hi|Hi].
  - apply map_lookup_filter_None. right. by intros a _ Ha.
  - destruct (db_agents (fl_db fl) !! i) as [a|] eqn:E.
    + by apply map_lookup_filter_Some.
    + apply map_lookup_filter_None. by left.
Qed.

Lemma drop_row d admin now op i fl ids :
  row_change d admin now op i (agents_of fl !! i) (agents_of (drop_agents fl ids) !! i).
Proof.
  rewrite dropped_row. destruct (decide (i ∈ ids)); [|constructor].
  destruct (agents_of fl !! i); constructor.
Qed.

Lemma add_agent_inv fl id a fl' :
  add_agent fl id a = Ok fl' -> agents_of fl !! id = None /\ fl' = save_agent fl id a.
Proof. unfold add_agent. destruct (agents_of fl !! id) eqn:E; [done|]. by intros [= <-]. Qed.

Lemma update_inv_agent fl id data admin fl' :
  update_agent fl id data admin = Ok fl' ->
  exists a, agents_of fl !! id = Some a /\ fl' = save_agent fl id (apply_update data a) /\
    placement_kept (fl_db fl) admin a (apply_update data a) /\
    (forall n, ad_agent_name data = Some (Some n) -> ag_name a <> Some n ->
       forall b, get_agent_by_name fl n = Some b -> ag_id b = ag_id a).
Proof.
  unfold update_agent. intros Hs. destruct (get_agent_by_id _ _) as [a|] eqn:Ea; cbn in Hs; [|done].
  destruct (match ad_agent_name data with Some (Some _) => _ | _ => _ end) as [[]|] eqn:En; cbn in Hs; [|done].
  exists a. split; [by apply agent_found|].
  set (changes := negb admin && _) in Hs.
  assert (Hname : forall n, ad_agent_name data = Some (Some n) -> ag_name a <> Some n ->
                  forall b, get_agent_by_name fl n = Some b -> ag_id b = ag_id a).
  { intros n Hn Hna b Hb. rewrite Hn, bool_decide_eq_false_2, Hb in En by congruence.
    by destruct (decide (ag_id b = ag_id a)); [|rewrite bool_decide_eq_false_2 in En]. }
  destruct changes eqn:Ec.
  - destruct (synthetic_checks_reaching (fl_db fl) a) as [before|] eqn:Eb; cbn in Hs; [|done].
    destruct (synthetic_checks_reaching (fl_db fl) (apply_update data a)) as [after|] eqn:Eaf; cbn in Hs; [|done].
    unfold changes in Ec. apply andb_true_iff in Ec as [->%negb_true_iff _].
    destruct (decide (before = after)) as [->|Hne]; [|by rewrite bool_decide_eq_false_2 in Hs].
    rewrite bool_decide_eq_true_2 in Hs by done. cbn in Hs. injection Hs as <-.
    split; [done|]. split; [|done]. right. right. eauto.
  - cbn in Hs. injection Hs as <-. split; [done|]. split; [|done].
    unfold changes in Ec. destruct admin; [by left|]. cbn in Ec. right. left.
    apply orb_false_iff in Ec as [Hs1 Hs2].
    unfold was_sent in Hs1, Hs2. cbn. destruct (ad_agent_name data), (ad_tags data); done.
Qed.

Lemma heartbeat_inv_row fl now id hb fl' :
  update_from_heartbeat storable_tags fl now id hb = Ok fl' ->
  exists a, agents_of fl !! id = Some a /\
    fl' = Fleet (set_agents (fl_db fl) (<[id := apply_heartbeat storable_tags hb now a]> (agents_of fl)))
                (fl_jobs fl) (fl_metrics fl ++ [heartbeat_metric id hb now]).
Proof.
  unfold update_from_heartbeat. destruct (get_agent_by_id _ _) as [a|] eqn:Ea; cbn; [|done].
  destruct (existsb _ _); [done|]. intros [= <-]. exists a. by split; [apply agent_found|].
Qed.

(** The parts of a heartbeat that was answered. *)
Lemma process_inv settings fl now id hb sender r fl' :
  process settings fl now id hb sender = Ok (r, fl') ->
  exists a fl1 a1 t, agents_of fl !! id = Some a /\ agents_of fl1 !! id = Some a1 /\
    fl' = Fleet (fl_db fl1) t (fl_metrics fl1) /\
    hr_agent_key_accepted r =
      hs_using_agent_key sender && bool_decide (ag_api_key_hash a = hs_verified_key_hash sender) /\
    (auth_enabled = true -> hr_agent_key_accepted r = true -> ag_approval a = ACTIVE) /\
    (hs_verified_secret_hash sender <> None -> ag_recovery_secret_hash a = hs_verified_secret_hash sender) /\
    (if hr_agent_key_accepted r || bool_decide (ag_approval a = PENDING) && negb (present (ag_api_key_hash a))
     then update_from_heartbeat storable_tags fl now id hb = Ok fl1 else fl1 = fl) /\
    (if hr_agent_key_accepted r then get_jobs_for_dispatch settings (fl_jobs fl1) now id = Ok (hr_jobs r, t)
     else hr_jobs r = [] /\ t = fl_jobs fl1) /\
    hr_approval_status r = ag_approval a1.
Proof.
  unfold process_heartbeat. intros Hs. destruct (get_agent_by_id (fl_db fl) id) as [a|] eqn:Ea; cbn [mbind res_bind] in Hs; [|done].
  set (own := hs_using_agent_key sender && _) in Hs.
  destruct (if auth_enabled && own && _ then _ else _) as [[]|] eqn:E1; cbn [mbind res_bind] in Hs; [|done].
  destruct (if bool_decide _ && bool_decide _ then _ else _) as [[]|] eqn:E2; cbn [mbind res_bind] in Hs; [|done].
  destruct (if own || _ then _ else _) as [fl1|] eqn:E3; cbn [mbind res_bind] in Hs; [|done].
  destruct (get_agent_by_id (fl_db fl1) id) as [a1|] eqn:Ea1; cbn [mbind res_bind] in Hs; [|done].
  destruct (config_version _ _ _) as [v|]; cbn [mbind res_bind] in Hs; [|done].
  destruct (if own then _ else _) as [[js t]|] eqn:E4; cbn [mbind res_bind] in Hs; [|done].
  injection Hs as <- <-. exists a, fl1, a1, t. cbn.
  split; [by apply agent_found|]. split; [by apply agent_found|]. split; [done|]. split; [done|].
  split. { intros Hauth Hu. rewrite Hauth, Hu in E1. cbn in E1.
    by destruct (decide (ag_approval a = ACTIVE)); [|rewrite bool_decide_eq_true_2 in E1]. }
  split. { intros Hn. rewrite bool_decide_eq_true_2 in E2 by done. cbn in E2.
    by destruct (decide (ag_recovery_secret_hash a = hs_verified_secret_hash sender));
      [|rewrite bool_decide_eq_true_2 in E2]. }
  split. { by destruct (own || _); [|injection E3 as <-]. }
  split; [|done]. destruct own; [done|]. by injection E4 as <- <-.
Qed.

Lemma process_row admin settings fl now id hb sender r fl' op i :
  process settings fl now id hb sender = Ok (r, fl') ->
  row_change (fl_db fl) admin now op i (agents_of fl !! i) (agents_of fl' !! i).
Proof.
  intros (a & fl1 & a1 & t & Ha & _ & -> & _ & _ & _ & Hup & _)%process_inv.
  change (agents_of (Fleet (fl_db fl1) t (fl_metrics fl1))) with (agents_of fl1).
  destruct (_ || _) in Hup; [|subst; constructor].
  apply heartbeat_inv_row in Hup as (a' & Ha' & ->). rewrite Ha in Ha'. injection Ha' as <-.
  by apply (saved_row _ _ _ _ _ id fl (Some a)); [|constructor].
Qed.

Lemma step_row admin fl now op fl' i :
  step admin fl now op = Ok fl' ->
  row_change (fl_db fl) admin now op i (agents_of fl !! i) (agents_of fl' !! i).
Proof.
  destruct op as [id data|id random hn ip v tags|id data|id salt random|id salt random|id|id salt random secret
    |id salt random|id action|id|settings id hb sender|id|days]; cbn [fleet_step]; intros Hs.
  - unfold create_agent in Hs. destruct (ac_agent_name data); [|done]. destruct (get_agent_by_name _ _); [done|].
    apply add_agent_inv in Hs as [Hn ->]. eapply saved_row; [exact Hn|constructor; [by apply list_elem_of_singleton|naive_solver]].
  - unfold register_agent in Hs. destruct (add_agent _ _ _) as [fl1|] eqn:E; [|done].
    injection Hs as <-. apply add_agent_inv in E as [Hn ->]. eapply saved_row; [exact Hn|constructor; [by apply list_elem_of_singleton|naive_solver]].
  - apply update_inv_agent in Hs as (a & Ha & -> & Hp & _). eapply saved_row; [exact Ha|by constructor].
  - unfold generate_agent_key in Hs. destruct (get_agent_by_id _ _) as [a|] eqn:Ea; [|done]. cbn in Hs.
    destruct (ag_api_key_hash a) eqn:Ek; [done|]. injection Hs as <-.
    eapply saved_row; [by apply agent_found|by constructor].
  - unfold regenerate_agent_key in Hs. destruct (get_agent_by_id _ _) as [a|] eqn:Ea; [|done].
    injection Hs as <-. eapply saved_row; [by apply agent_found|constructor].
  - unfold revoke_agent_key in Hs. destruct (get_agent_by_id _ _) as [a|] eqn:Ea; [|done].
    injection Hs as <-. eapply saved_row; [by apply agent_found|constructor].
  - unfold recover_agent_key in Hs. destruct (agents_of fl !! id) as [a|] eqn:Ea; [|done].
    destruct (recovery_secret_matches _ _); [|done]. cbn in Hs. destruct (bool_decide _); [|done].
    unfold regenerate_agent_key, get_agent_by_id in Hs. unfold agents_of in Ea. rewrite Ea in Hs.
    injection Hs as <-. eapply saved_row; [exact Ea|constructor].
  - unfold approve_agent in Hs. destruct (get_agent_by_id _ _) as [a|] eqn:Ea; [|done]. cbn in Hs.
    destruct (bool_decide _); [done|]. cbn in Hs.
    destruct (require_status _ _) eqn:Er; [|done]. cbn in Hs.
    destruct (synthetic_checks_reaching _ _) as [reaching|] eqn:Eg; [|done]. cbn in Hs.
    destruct (if bool_decide _ then _ else _) as [[]|] eqn:Ep; [|done]. injection Hs as <-.
    eapply saved_row; [by apply agent_found|]. econstructor; [by eapply required_status|exact Eg|].
    destruct (decide (reaching = ∅)); [by right|]. rewrite bool_decide_eq_false_2 in Ep by done.
    left. by apply required_admin.
  - by eapply act_row.
  - destruct (get_agent_by_id _ _) as [a|] eqn:Ea; [|done]. injection Hs as <-.
    eapply saved_row; [by apply agent_found|constructor].
  - destruct (process settings fl now id hb sender) as [[r fl1]|] eqn:E; [|done]. injection Hs as <-.
    by eapply process_row.
  - unfold delete_agent in Hs. inv_res. apply drop_row.
  - injection Hs as <-. unfold cleanup_stale_agents. destruct (get_stale_agent_names _ _); [constructor|]. apply drop_row.
Qed.

(** ** The service over time

    The clock never goes back, a new row's id is fresh, and other transactions
    may change every table but the agents' between two operations. *)
Record sys := Sys {
  y_clock : instant;
  y_fleet : fleet;
  y_ids : list uuid;
}.

Definition sys_start : sys := Sys 0 (Fleet empty_db ∅ []) [].

Inductive sys_step : sys -> sys -> Prop :=
  | ss_op s admin now op fl' :
      (y_clock s <= now)%Z -> Forall (fun i => i ∉ y_ids s) (born op) ->
      step admin (y_fleet s) now op = Ok fl' -> sys_step s (Sys now fl' (born op ++ y_ids s))
  | ss_elsewhere s d t :
      db_agents d = agents_of (y_fleet s) ->
      sys_step s (Sys (y_clock s) (Fleet d t (fl_metrics (y_fleet s))) (y_ids s)).

Record sys_inv (s : sys) : Prop := {
  inv_key i a : agents_of (y_fleet s) !! i = Some a -> ag_id a = i;
  inv_id i a : agents_of (y_fleet s) !! i = Some a -> i ∈ y_ids s;
  inv_approval i a : agents_of (y_fleet s) !! i = Some a ->
    (ag_approval a ∈ APPROVABLE <-> ag_approved_at a = None);
  inv_name i j a b n : agents_of (y_fleet s) !! i = Some a -> agents_of (y_fleet s) !! j = Some b ->
    ag_name a = Some n -> ag_name b = Some n -> i = j;
}.

Lemma name_holder fl n i a :
  agents_of fl !! i = Some a -> ag_name a = Some n ->
  exists j b, get_agent_by_name fl n = Some b /\ agents_of fl !! j = Some b /\ ag_name b = Some n.
Proof.
  intros Ha Hn. unfold get_agent_by_name. destruct (filter _ _) as [|b l] eqn:E.
  - exfalso. assert (Hin : a ∈ filter (fun a => ag_name a = Some n) (rows (agents_of fl))).
    { apply list_elem_of_filter. split; [done|]. apply elem_of_rows. eauto. }
    rewrite E in Hin. by apply elem_of_nil in Hin.
  - assert (Hb : b ∈ filter (fun a => ag_name a = Some n) (rows (agents_of fl))) by (rewrite E; left).
    apply list_elem_of_filter in Hb as [Hb [j Hj]%elem_of_rows]. exists j, b. done.
Qed.

(** A name after an operation was there before, or is the free name its one
    renamed row took. *)
Lemma named_step admin fl now op fl' i a' n :
  step admin fl now op = Ok fl' -> (forall j b, agents_of fl !! j = Some b -> ag_id b = j) ->
  (forall j k b c, agents_of fl !! j = Some b -> agents_of fl !! k = Some c ->
     ag_name b = Some n -> ag_name c = Some n -> j = k) ->
  agents_of fl' !! i = Some a' -> ag_name a' = Some n ->
  (exists a, agents_of fl !! i = Some a /\ ag_name a = Some n) \/
  (forall j b, agents_of fl !! j = Some b -> ag_name b = Some n -> j = i) /\
  (forall j, j <> i -> agents_of fl' !! j = agents_of fl !! j).
Proof.
  intros Hs Hkey Huniq Ha' Hn. pose proof (step_row _ _ _ _ _ i Hs) as Hr. rewrite Ha' in Hr.
  destruct (agents_of fl !! i) as [a|] eqn:Ea; inversion Hr; subst;
    try (left; eexists; split; [done|]; exact Hn).
  - cbn [fleet_step] in Hs. apply update_inv_agent in Hs as (a0 & Ha0 & -> & _ & Hfree).
    rewrite Ea in Ha0. injection Ha0 as <-. cbn in Hn.
    destruct (decide (ag_name a = Some n)) as [|Hne]; [by left; eauto|]. right. split.
    + destruct (ad_agent_name data) as [[m|]|] eqn:Ed; cbn in Hn; [injection Hn as <-|done|done].
      intros j b Hb Hbn. destruct (name_holder fl _ j b Hb Hbn) as (k & c & Hc & Hk & Hkn).
      pose proof (Hfree _ eq_refl Hne c Hc) as Hid. rewrite (Hkey _ _ Hk), (Hkey _ _ Ea) in Hid.
      subst k. by eapply Huniq.
    + intros j Hj. unfold save_agent, agents_of. cbn. by rewrite lookup_insert_ne.
  - cbn in Hn. subst name. match goal with E : forall n, _ -> _ |- _ => destruct (E n eq_refl) as [data ->] end.
    right. cbn [fleet_step] in Hs. unfold create_agent in Hs. destruct (ac_agent_name data) as [m|] eqn:Em; [|done].
    destruct (get_agent_by_name fl m) eqn:Eg; [done|]. apply add_agent_inv in Hs as [_ ->].
    unfold save_agent, agents_of in Ha'. cbn in Ha'. rewrite lookup_insert_eq in Ha'.
    injection Ha' as <- <-. split.
    + intros j b Hb Hbn. destruct (name_holder fl _ j b Hb Hbn) as (k & c & Hc & _). congruence.
    + intros j Hj. unfold save_agent, agents_of. cbn. by rewrite lookup_insert_ne.
Qed.

Lemma sys_inv_step s s' : sys_step s s' -> sys_inv s -> sys_inv s'.
Proof.
  intros Hstep [Hk Hi Ha Hn]. destruct Hstep as [s admin now op fl' Hc Hf Hs|s d t Hd].
  - split; cbn [y_fleet y_ids].
    + intros i a' Ha'. pose proof (step_row _ _ _ _ _ i Hs) as Hr. rewrite Ha' in Hr.
      inversion Hr as [x Hx Hx'| |nm ? ? ? ? ? ? Hb _ Hx|a ? _ _ Hx|a ? _ Hx|a ? Hx|a Hx|a ? ? _ _ _ Hx|a ? ? _ Hx|a Hx|a Hx|a ? Hx];
        cbn; try done; symmetry in Hx || idtac; by eapply Hk.
    + intros i a' Ha'. pose proof (step_row _ _ _ _ _ i Hs) as Hr. rewrite Ha' in Hr. apply elem_of_app.
      destruct (agents_of (y_fleet s) !! i) as [a|] eqn:Ea; [right; by eapply Hi|].
      left. by inversion Hr.
    + intros i a' Ha'. pose proof (step_row _ _ _ _ _ i Hs) as Hr. rewrite Ha' in Hr.
      destruct (agents_of (y_fleet s) !! i) as [a|] eqn:Ea.
      * pose proof (Ha _ _ Ea) as Hap. inversion Hr; subst; cbn; try exact Hap.
        -- split; [|done]. by rewrite approvable_iff; intros [|].
        -- rewrite <- Hap. by apply operator_move_admitted.
      * inversion Hr; subst. cbn. rewrite approvable_iff. tauto.
    + intros i j a b n Hia Hjb Han Hbn. destruct (decide (i = j)) as [|Hij]; [done|exfalso].
      destruct (named_step _ _ _ _ _ i a n Hs Hk ltac:(eauto) Hia Han) as [(a0 & Ha0 & Hn0)|[Hfree Hrest]].
      * destruct (named_step _ _ _ _ _ j b n Hs Hk ltac:(eauto) Hjb Hbn) as [(b0 & Hb0 & Hm0)|[Hfree _]];
          [by apply Hij; eapply Hn|by apply Hij; eapply Hfree].
      * rewrite Hrest in Hjb by done. apply Hij. symmetry. by eapply Hfree.
  - assert (E : agents_of (Fleet d t (fl_metrics (y_fleet s))) = agents_of (y_fleet s)) by exact Hd.
    split; cbn [y_fleet y_ids]; rewrite E; [exact Hk|exact Hi|exact Ha|exact Hn].
Qed.

Lemma sys_inv_reachable s : star sys_step sys_start s -> sys_inv s.
Proof.
  intros Hs. eapply (star_invariant sys_step sys_inv); [|exact Hs|].
  - intros x y Hxy. by apply sys_inv_step.
  - split; cbn; intros i **; by match goal with E : _ = Some _ |- _ => rewrite lookup_empty in E end.
Qed.

(** ** The lifecycle *)

(** C13: every operation leaves an agent's status alone or moves it along the
    documented lifecycle: an operator's move, or an approval of a pending or
    rejected agent, which puts a key on the row and stamps it; and along every
    run the agents past triage (active, paused, disabled, archived) are exactly
    those some approval has stamped.  So only a restore leads out of archived,
    nothing leads back to pending, and no agent runs that was never approved. *)
Theorem agent_lifecycle s admin now op fl' i a a' :
  star sys_step sys_start s -> step admin (y_fleet s) now op = Ok fl' ->
  agents_of (y_fleet s) !! i = Some a -> agents_of fl' !! i = Some a' ->
  (ag_approval a ∈ APPROVABLE <-> ag_approved_at a = None) /\
  (ag_approval a' = ag_approval a \/
   operator_move (ag_approval a) (ag_approval a') \/
   ag_approval a ∈ APPROVABLE /\ ag_approval a' = ACTIVE /\
     ag_approved_at a' = Some now /\ is_Some (ag_api_key_hash a')).
Proof.
  intros Hr Hs Ha Ha'. split; [by eapply inv_approval; [apply sys_inv_reachable|]|].
  pose proof (step_row _ _ _ _ _ i Hs) as Hrow. rewrite Ha, Ha' in Hrow.
  inversion Hrow; subst; cbn; auto. right. right. by repeat split.
Qed.

(** No two agents ever have the same name, whatever sequence of operations
    created and renamed them. *)
Theorem agent_names_unique s i j a b n :
  star sys_step sys_start s ->
  agents_of (y_fleet s) !! i = Some a -> agents_of (y_fleet s) !! j = Some b ->
  ag_name a = Some n -> ag_name b = Some n -> i = j.
Proof. intros Hs. apply (inv_name _ (sys_inv_reachable _ Hs)). Qed.

(** ** The recovery secret *)

(** What is on record for an agent that stays: the same digest, or nothing. *)
Definition secret_left (h : option string) (x : option agent) : Prop :=
  match x with None => True | Some a => ag_recovery_secret_hash a = None \/ ag_recovery_secret_hash a = h end.

Lemma secret_step s s' i h :
  sys_step s s' -> sys_inv s -> i ∈ y_ids s -> secret_left h (agents_of (y_fleet s) !! i) ->
  i ∈ y_ids s' /\ secret_left h (agents_of (y_fleet s') !! i).
Proof.
  intros Hstep Hinv Hi Hh. destruct Hstep as [s admin now op fl' Hc Hf Hs|s d t Hd]; cbn.
  - split; [apply elem_of_app; by right|].
    pose proof (step_row _ _ _ _ _ i Hs) as Hr.
    destruct (agents_of fl' !! i) as [a'|] eqn:Ea'; [|done].
    destruct (agents_of (y_fleet s) !! i) as [a|] eqn:Ea; inversion Hr; subst; try done; [by left|].
    rewrite Forall_forall in Hf. exfalso. by eapply Hf.
  - unfold agents_of at 1. cbn [fl_db]. by rewrite Hd.
Qed.

(** The digest on record for an agent is only ever the one its registration
    stored or none: no operation replaces it, and once a revoke has cleared it
    nothing puts one back. *)
Theorem secret_never_replaced s s' i a :
  star sys_step sys_start s -> star sys_step s s' -> agents_of (y_fleet s) !! i = Some a ->
  secret_left (ag_recovery_secret_hash a) (agents_of (y_fleet s') !! i).
Proof.
  intros Hs Hs' Ha. pose proof (sys_inv_reachable _ Hs) as Hinv.
  enough (Hp : sys_inv s' /\ i ∈ y_ids s' /\ secret_left (ag_recovery_secret_hash a) (agents_of (y_fleet s') !! i))
    by apply Hp.
  eapply (star_invariant sys_step (fun x => sys_inv x /\ i ∈ y_ids x /\
           secret_left (ag_recovery_secret_hash a) (agents_of (y_fleet x) !! i))); [|exact Hs'|].
  - intros x y Hxy (Hx & Hix & Hl). split; [by eapply sys_inv_step|]. by eapply secret_step.
  - split; [done|]. split; [by eapply inv_id|]. rewrite Ha. by right.
Qed.

Lemma no_secret_matches presented : recovery_secret_matches None presented = false.
Proof. unfold recovery_secret_matches. cbn. by rewrite andb_false_r. Qed.

(** a revoke ends the install for good: from any later state, no secret
    recovers a key for the agent and none authenticates its heartbeats, and the
    refusals spend no budget while the agent is known. *)
Theorem revoke_is_final s fl1 s' i secret now salt random :
  star sys_step sys_start s -> revoke_agent_key (y_fleet s) i = Ok fl1 ->
  star sys_step (Sys (y_clock s) fl1 (y_ids s)) s' ->
  (recover_agent_key (y_fleet s') now i salt random secret).1 = Raise RecoverySecretRefusedException /\
  (forall a', agents_of (y_fleet s') !! i = Some a' ->
     (recover_agent_key (y_fleet s') now i salt random secret).2 = false /\
     can_recover_key (y_fleet s') i = Ok false /\
     verify_agent_recovery_secret true a' secret = Raise (HTTPException 401 RECOVERY_SECRET_REFUSED)).
Proof.
  intros Hs Hrev Hs'. unfold revoke_agent_key in Hrev.
  destruct (get_agent_by_id _ _) as [a|] eqn:Ea; cbn in Hrev; [|done]. injection Hrev as <-.
  set (fl1 := save_agent _ _ _) in *.
  assert (Hl : star sys_step sys_start (Sys (y_clock s) fl1 (y_ids s))).
  { eapply star_trans; [exact Hs|]. apply star_one.
    apply (ss_op s true (y_clock s) (OpRevoke i) fl1); [done|constructor|].
    cbn. unfold revoke_agent_key. by rewrite Ea. }
  assert (Hrow : agents_of fl1 !! i = Some (without_credentials a)).
  { unfold fl1, save_agent, agents_of. cbn. by rewrite lookup_insert_eq. }
  pose proof (secret_never_replaced _ _ i _ Hl Hs' Hrow) as Hleft. unfold secret_left in Hleft.
  unfold recover_agent_key. destruct (agents_of (y_fleet s') !! i) as [a'|] eqn:Ea'; cbn [mbind option_bind].
  - assert (Hnone : ag_recovery_secret_hash a' = None) by (destruct Hleft as [E|E]; by rewrite E).
    rewrite Hnone, no_secret_matches. split; [done|]. intros b [= <-]. split; [done|].
    unfold can_recover_key, get_agent_by_id, verify_agent_recovery_secret.
    unfold agents_of in Ea'. rewrite Ea'. cbn. rewrite Hnone, no_secret_matches. by split.
  - split; [done|]. by intros b [=].
Qed.

(** ** Credentials that round-trip *)

Lemma present_hash (h : string) : h <> "" -> present (Some h) = true.
Proof. by destruct h. Qed.

Lemma own_secret_matches `{!PyRuntimeLaws} random :
  recovery_secret_matches (Some (recovery_secret_digest (new_recovery_secret random)))
    (Some (new_recovery_secret random)) = true.
Proof.
  unfold recovery_secret_matches. cbn [default].
  destruct (recovery_secret_digest (new_recovery_secret random)) as [|c h] eqn:E.
  - pose proof (sha256_hex_length (new_recovery_secret random)) as Hl.
    unfold recovery_secret_digest in E. by rewrite E in Hl.
  - unfold id. by rewrite E, String.eqb_refl.
Qed.

(** A key just issued is the one its row accepts. *)
Lemma issued_key_verifies `{!BcryptLaws} a salt random :
  ag_approval a = ACTIVE -> ag_api_key_hash a = Some (issue_key salt random).2 ->
  verify_agent_token true a (Some ("Bearer " +:+ (issue_key salt random).1)) = Ok ((issue_key salt random).1, true).
Proof.
  intros Ha Hk. unfold verify_agent_token. cbn [negb issue_key fst snd] in *.
  rewrite bearer_token_of by (apply new_agent_key_chars || done). rewrite Hk.
  destruct (hashpw salt (new_agent_key random)) as [|c h] eqn:E; [by apply hashpw_nonempty in E|].
  unfold matches_or_not, bcrypt_matches. rewrite new_agent_key_length. cbn [Nat.ltb Nat.leb MAX_SECRET_BYTES].
  rewrite <- E, checkpw_hashpw by (rewrite new_agent_key_length; lia). cbn. by rewrite bool_decide_eq_true_2.
Qed.

(** the secret an agent is handed at registration works for as long as it is
    on record: from any later state where the agent is active and not revoked,
    presenting it issues a key, spends no budget, and that key, sent as a bearer
    token, is the one the agent's row then accepts. *)
Theorem recovery_roundtrip `{!PyRuntimeLaws} `{!BcryptLaws} s now id random hostname ip version tags secret fl1
    s' a now' salt random' :
  star sys_step sys_start s -> (y_clock s <= now)%Z -> id ∉ y_ids s ->
  register_agent (y_fleet s) now id random hostname ip version tags = Ok (secret, fl1) ->
  star sys_step (Sys now fl1 (id :: y_ids s)) s' ->
  agents_of (y_fleet s') !! id = Some a -> ag_approval a = ACTIVE -> ag_recovery_secret_hash a <> None ->
  can_recover_key (y_fleet s') id = Ok true /\
  exists key fl2 a2,
    recover_agent_key (y_fleet s') now' id salt random' (Some secret) = (Ok (key, fl2), false) /\
    agents_of fl2 !! id = Some a2 /\ ag_approval a2 = ACTIVE /\
    verify_agent_token true a2 (Some ("Bearer " +:+ key)) = Ok (key, true).
Proof.
  intros Hs Hc Hfresh Hreg Hs' Ha Hact Hsec.
  assert (Hr : star sys_step sys_start (Sys now fl1 (id :: y_ids s))).
  { eapply star_trans; [exact Hs|]. apply star_one.
    apply (ss_op s true now (OpRegister id random hostname ip version tags) fl1); [done|by repeat constructor|].
    cbn. by rewrite Hreg. }
  unfold register_agent in Hreg. destruct (add_agent _ _ _) as [fl1'|] eqn:E; [|done]. injection Hreg as <- <-.
  apply add_agent_inv in E as [_ ->].
  pose proof (secret_never_replaced _ _ id _ Hr Hs' ltac:(by unfold save_agent, agents_of; cbn; rewrite lookup_insert_eq)) as Hleft.
  unfold secret_left in Hleft. rewrite Ha in Hleft. destruct Hleft as [E|E]; [done|]. cbn in E.
  pose proof (own_secret_matches random) as Hm. rewrite <- E in Hm.
  assert (Hp : present (ag_recovery_secret_hash a) = true).
  { unfold recovery_secret_matches in Hm. apply andb_true_iff in Hm as [Hm _]. by apply andb_true_iff in Hm as [_ ?]. }
  unfold can_recover_key, recover_agent_key, regenerate_agent_key, get_agent_by_id.
  rewrite Ha. unfold agents_of in Ha. rewrite Ha. cbn [mbind res_bind option_bind].
  rewrite Hp, Hm, bool_decide_eq_true_2 by done. split; [done|].
  eexists _, _, _. split; [reflexivity|].
  split; [unfold save_agent, agents_of; cbn; by rewrite lookup_insert_eq|]. split; [done|].
  by apply (issued_key_verifies (new_key now' _ a) salt random').
Qed.

(** A secret whose digest is not the one on record recovers nothing: the
    attempt raises, writes nothing, and counts against the caller's budget
    exactly when the agent is unknown or has a secret left to guess. *)
Theorem wrong_secret_refused fl now id salt random secret :
  (forall a, agents_of fl !! id = Some a ->
     ag_recovery_secret_hash a <> Some (recovery_secret_digest (default "" secret))) ->
  recover_agent_key fl now id salt random secret =
    (Raise RecoverySecretRefusedException,
     match agents_of fl !! id with Some a => bool_decide (ag_recovery_secret_hash a <> None) | None => true end).
Proof.
  intros Hne. unfold recover_agent_key. destruct (agents_of fl !! id) as [a|]; [|done]. cbn [mbind option_bind].
  specialize (Hne a eq_refl). unfold recovery_secret_matches.
  destruct (ag_recovery_secret_hash a) as [[|c h]|]; cbn [present andb]; rewrite ?andb_false_r; [done| |done].
  destruct (String.eqb_spec (recovery_secret_digest (default "" secret)) (String c h)) as [E|]; [|done].
  by rewrite <- E in Hne.
Qed.

(** ** Heartbeats *)

(** The credential a heartbeat carries, judged against the row as it is now. *)
Definition holds_key (a : agent) (authorization : option string) : Prop :=
  exists token h, bearer_token (default "" authorization) = Some token /\
    ag_api_key_hash a = Some h /\ matches_or_not token h = true.

Lemma verified_token a authorization token b :
  verify_agent_token true a authorization = Ok (token, b) -> holds_key a authorization /\ ag_approval a = ACTIVE.
Proof.
  unfold verify_agent_token, holds_key. cbn [negb]. destruct authorization as [header|]; [|done]. change (default "" (Some header)) with header.
  destruct (bearer_token header) as [t|]; [|done]. destruct (ag_api_key_hash a) as [[|c h]|]; try done.
  destruct (matches_or_not t (String c h)) eqn:Em; [|done]. cbn [negb].
  destruct (decide (ag_approval a = ACTIVE)) as [Ha|]; [|by rewrite bool_decide_eq_false_2].
  intros _. split; [|done]. by exists t, (String c h).
Qed.

(** What an accepted heartbeat's check has proved. *)
Lemma authenticated keys now a authorization secret budget own keys' :
  hc_answer (authenticate_heartbeat true keys now a authorization secret budget) = Ok (own, keys') ->
  (own = true -> holds_key a authorization /\ ag_approval a = ACTIVE) /\
  (own = false -> match secret with
                  | Some _ => recovery_secret_matches (ag_recovery_secret_hash a) secret = true
                  | None => exists token, verify_registration_token true keys now authorization = Ok (token, keys')
                  end).
Proof.
  unfold authenticate_heartbeat. set (pending := if _ && _ && _ then _ else _).
  assert (Hp : hc_answer pending = Ok (own, keys') -> own = false /\
    match secret with
    | Some _ => recovery_secret_matches (ag_recovery_secret_hash a) secret = true
    | None => exists token, verify_registration_token true keys now authorization = Ok (token, keys')
    end).
  { unfold pending. destruct (_ && _ && _); [done|]. destruct budget; [done|]. destruct secret as [sec|].
    - unfold verify_agent_recovery_secret. cbn [negb].
      destruct (recovery_secret_matches _ _); [|done]. by intros [= <- _].
    - destruct (verify_registration_token true keys now authorization) as [[token k']|e]; cbn.
      + intros [= <- <-]. eauto.
      + destruct e; try done. by repeat case_match. }
  destruct (present (ag_api_key_hash a)).
  - destruct (verify_agent_token true a authorization) as [[token b]|e] eqn:Ev; cbn [hc_answer].
    + intros [= <- <-]. split; [|done]. intros _. by eapply verified_token.
    + destruct e; try done. repeat case_match; try done; intros [-> ?]%Hp; by split.
  - intros [-> ?]%Hp. by split.
Qed.

(** Past triage an agent never goes back to it. *)
Lemma admitted_stays s s' i a :
  star sys_step sys_start s -> star sys_step s s' -> agents_of (y_fleet s) !! i = Some a ->
  ag_approval a ∉ APPROVABLE ->
  forall a', agents_of (y_fleet s') !! i = Some a' -> ag_approval a' ∉ APPROVABLE.
Proof.
  intros Hs Hs' Ha Hap. pose proof (sys_inv_reachable _ Hs) as Hinv.
  set (P x := i ∈ y_ids x /\ forall a', agents_of (y_fleet x) !! i = Some a' -> ag_approval a' ∉ APPROVABLE).
  enough (HP : P s') by apply HP. eapply (star_invariant sys_step P); [|exact Hs'|].
  - intros x y Hxy [Hi Hx]. destruct Hxy as [x admin now op fl' _ Hf Hop|x d t Hd]; (split; [cbn|]).
    + apply elem_of_app. by right.
    + cbn [y_fleet]. intros a' Ha'. pose proof (step_row _ _ _ _ _ i Hop) as Hr. rewrite Ha' in Hr.
      destruct (agents_of (y_fleet x) !! i) as [b|] eqn:Eb.
      * specialize (Hx b eq_refl). inversion Hr; subst; cbn; try exact Hx.
        -- by rewrite approvable_iff; intros [|].
        -- by rewrite operator_move_admitted.
      * inversion Hr; subst. rewrite Forall_forall in Hf. exfalso. by eapply Hf.
    + done.
    + cbn [y_fleet]. intros a' Ha'. apply Hx. unfold agents_of in *. cbn in Ha'. by rewrite Hd in Ha'.
  - split; [by eapply inv_id|]. intros a'. rewrite Ha. by intros [= <-].
Qed.

(** operators may change an agent between the check of its heartbeat's
    credential and the work on it; what is then done is what the credential
    still proves.  The heartbeat counts as the agent's own only if the token it
    sent matches the key on record now and the agent is active now, and only
    then gets jobs; any other writes nothing, unless the agent is pending and
    has no key, and then the secret it sent still matches the one on record, or
    it sent none and a registration key. *)
Theorem heartbeat_current_credential s s' keys at_ a0 authorization secret budget own keys' settings now i hb r fl' a :
  auth_enabled = true -> star sys_step sys_start s -> star sys_step s s' ->
  agents_of (y_fleet s) !! i = Some a0 ->
  hc_answer (authenticate_heartbeat auth_enabled keys at_ a0 authorization secret budget) = Ok (own, keys') ->
  agents_of (y_fleet s') !! i = Some a ->
  process settings (y_fleet s') now i hb (require_heartbeat_sender a0 secret own) = Ok (r, fl') ->
  (hr_agent_key_accepted r = true -> holds_key a authorization /\ ag_approval a = ACTIVE) /\
  (hr_agent_key_accepted r = false -> hr_jobs r = [] /\
     (fl' = y_fleet s' \/
      ag_approval a = PENDING /\ present (ag_api_key_hash a) = false /\
      match secret with
      | Some _ => recovery_secret_matches (ag_recovery_secret_hash a) secret = true
      | None => exists token, verify_registration_token true keys at_ authorization = Ok (token, keys')
      end)).
Proof.
  intros Hauth Hs Hs' Ha0 Hc Ha Hp. rewrite Hauth in Hc. apply authenticated in Hc as [Hown Hpend].
  apply process_inv in Hp as (a1 & fl1 & a2 & t & Ha1 & _ & -> & Hacc & Hact & Hsec & Hup & Hjobs & _).
  rewrite Ha in Ha1. injection Ha1 as <-.
  unfold require_heartbeat_sender in *. cbn [hs_using_agent_key hs_verified_key_hash hs_verified_secret_hash] in *.
  split; intros Er; rewrite Er in *.
  - symmetry in Hacc. apply andb_true_iff in Hacc as [-> Hkey%bool_decide_eq_true]. split; [|by apply Hact].
    destruct (Hown eq_refl) as [(token & h & Ht & Hh & Hm) _]. exists token, h. by rewrite Hkey.
  - destruct Hjobs as [-> ->]. split; [done|]. cbn [orb] in Hup.
    destruct (decide (ag_approval a = PENDING)) as [Hpa|Hpa].
    2: { rewrite bool_decide_eq_false_2 in Hup by done. cbn in Hup. subst. left. by destruct (y_fleet s'). }
    destruct (present (ag_api_key_hash a)) eqn:Ek.
    { rewrite andb_false_r in Hup. subst. left. by destruct (y_fleet s'). }
    right. split; [done|]. split; [done|].
    destruct own.
    { destruct (Hown eq_refl) as [_ Ha0'].
      assert (Hno : ag_approval a ∉ APPROVABLE).
      { eapply admitted_stays; [exact Hs|exact Hs'|exact Ha0| |exact Ha]. rewrite Ha0', approvable_iff. by intros [|]. }
      rewrite approvable_iff in Hno. tauto. }
    specialize (Hpend eq_refl). destruct secret as [sec|]; [|done].
    cbn [negb andb] in Hsec. rewrite bool_decide_eq_true_2 in Hsec by done.
    rewrite Hsec; [done|]. intros E. by rewrite E, no_secret_matches in Hpend.
Qed.

(** A heartbeat changes what the agent reports of itself and nothing an
    operator manages: its name, approval, credentials, intervals and settings
    stay, its tags too once it is past pending, and no other agent's row moves. *)
Theorem heartbeat_keeps_managed settings fl now i hb sender r fl' a :
  process settings fl now i hb sender = Ok (r, fl') -> agents_of fl !! i = Some a ->
  (forall j, j <> i -> agents_of fl' !! j = agents_of fl !! j) /\
  exists a', agents_of fl' !! i = Some a' /\
    ag_name a' = ag_name a /\ ag_approval a' = ag_approval a /\
    ag_api_key_hash a' = ag_api_key_hash a /\ ag_recovery_secret_hash a' = ag_recovery_secret_hash a /\
    ag_heartbeat_interval a' = ag_heartbeat_interval a /\ ag_check_sync_interval a' = ag_check_sync_interval a /\
    ag_settings a' = ag_settings a /\ (ag_approval a <> PENDING -> ag_tags a' = ag_tags a).
Proof.
  intros (a0 & fl1 & a1 & t & Ha & _ & -> & _ & _ & _ & Hup & _)%process_inv Ha'.
  rewrite Ha' in Ha. injection Ha as <-. change (agents_of (Fleet (fl_db fl1) t (fl_metrics fl1))) with (agents_of fl1).
  destruct (_ || _) in Hup; [|subst; split; [done|]; exists a; by repeat split].
  apply heartbeat_inv_row in Hup as (b & Hb & ->). rewrite Ha' in Hb. injection Hb as <-.
  split; [intros j Hj; unfold agents_of; cbn; by rewrite lookup_insert_ne|].
  exists (apply_heartbeat storable_tags hb now a). split; [unfold agents_of; cbn; by rewrite lookup_insert_eq|].
  repeat split. cbn. unfold suggested_tags. intros Hp. rewrite (bool_decide_eq_false_2 _ Hp).
  by destruct (hb_tags hb) as [[]|].
Qed.

(** ** Synthetic checks on hosts *)

(** A check's row after an operation of the service: as it was, or freed of a
    parent that went. *)
Lemma dropped_check fl ids j c :
  db_checks (fl_db (drop_agents fl ids)) !! j = Some c ->
  exists c0, db_checks (fl_db fl) !! j = Some c0 /\ freed c0 c /\ (ck_id c0 = j -> ck_agent_id c ∉ ids).
Proof.
  unfold drop_agents. cbn [fl_db]. set (own := map ck_id _).
  change (db_checks (Db _ ?t _ _ _ _ _ _)) with t. rewrite lookup_drop_checks.
  destruct (bool_decide_reflect (j ∈ own)) as [|Hj]; [done|].
  destruct (db_checks (fl_db fl) !! j) as [c0|] eqn:E; cbn; [|done]. intros [= <-]. exists c0. split; [done|].
  assert (Hf : freed c0 (free_of_parents own c0)).
  { unfold free_of_parents, freed. destruct (ck_depends_on c0); [|by left]. destruct (bool_decide _); auto. }
  split; [done|]. intros Hid Hin. apply Hj. unfold own. apply list_elem_of_fmap. exists c0. split; [done|].
  apply list_elem_of_filter. split; [|apply elem_of_rows; eauto]. by destruct Hf as [E'|E']; rewrite E' in Hin.
Qed.

Lemma step_check admin fl now op fl' j c :
  step admin fl now op = Ok fl' -> db_checks (fl_db fl') !! j = Some c ->
  exists c0, db_checks (fl_db fl) !! j = Some c0 /\ freed c0 c /\
    (match op with OpDeleteAgent _ | OpCleanup _ => True | _ => c0 = c end).
Proof.
  intros Hs. assert (Hsame : db_checks (fl_db fl') = db_checks (fl_db fl) -> db_checks (fl_db fl') !! j = Some c ->
    exists c0, db_checks (fl_db fl) !! j = Some c0 /\ freed c0 c /\ c0 = c).
  { intros -> Hc. exists c. split; [done|]. split; [by left|done]. }
  destruct op as [id data|id random hn ip v tags|id data|id salt random|id salt random|id|id salt random secret
    |id salt random|id action|id|settings id hb sender|id|days]; cbn [fleet_step] in Hs.
  12: { unfold delete_agent in Hs. inv_res. intros (c0 & ? & ? & _)%dropped_check. eauto. }
  12: { injection Hs as <-. unfold cleanup_stale_agents. destruct (get_stale_agent_names _ _); cbn [snd].
        { intros Hc. exists c. split; [done|]. split; [by left|done]. }
        unfold delete_stale_agents. cbn [snd]. intros (c0 & ? & ? & _)%dropped_check. eauto. }
  all: apply Hsame; clear Hsame.
  - unfold create_agent in Hs. destruct (ac_agent_name data); [|done]. destruct (get_agent_by_name _ _); [done|].
    by apply add_agent_inv in Hs as [_ ->].
  - unfold register_agent in Hs. destruct (add_agent _ _ _) as [fl1|] eqn:E; [|done]. injection Hs as <-.
    by apply add_agent_inv in E as [_ ->].
  - by apply update_inv_agent in Hs as (a & _ & -> & _).
  - unfold generate_agent_key in Hs. destruct (get_agent_by_id _ _) as [a|]; [|done]. cbn in Hs.
    destruct (ag_api_key_hash a); [done|]. by injection Hs as <-.
  - unfold regenerate_agent_key in Hs. destruct (get_agent_by_id _ _) as [a|]; [|done]. by injection Hs as <-.
  - unfold revoke_agent_key in Hs. by inv_res.
  - unfold recover_agent_key, regenerate_agent_key in Hs. destruct (agents_of fl !! id) as [a|]; [|done].
    destruct (recovery_secret_matches _ _); [|done]. cbn in Hs. destruct (bool_decide _); [|done].
    destruct (get_agent_by_id _ _); [|done]. by injection Hs as <-.
  - unfold approve_agent in Hs. destruct (get_agent_by_id _ _) as [a|]; [|done]. cbn [mbind res_bind] in Hs.
    repeat match type of Hs with context [mbind _ ?r] => destruct r; cbn [mbind res_bind] in Hs; [|done] end.
    by injection Hs as <-.
  - assert (Hm : forall allowed st r, move_agent fl now id allowed st r = Ok fl' -> db_checks (fl_db fl') = db_checks (fl_db fl)).
    { unfold move_agent. intros allowed st r Hm. by inv_res. }
    destruct action; cbn in Hs; try (by eapply Hm). unfold force_reload in Hs. by inv_res.
  - by inv_res.
  - destruct (process settings fl now id hb sender) as [[r fl1]|] eqn:E; [|done]. injection Hs as <-.
    apply process_inv in E as (a & fl2 & a2 & t & _ & _ & -> & _ & _ & _ & Hup & _). cbn [fl_db].
    destruct (_ || _) in Hup; [|by subst]. by apply heartbeat_inv_row in Hup as (b & _ & ->).
Qed.

Lemma reaches_same a a' c :
  ag_id a' = ag_id a -> ag_name a' = ag_name a -> ag_tags a' = ag_tags a ->
  synthetic_reaches a' c = synthetic_reaches a c.
Proof.
  intros Hi Hn Ht. unfold synthetic_reaches, agent_matches_selector, no_tags, agent_tags. by rewrite Hi, Hn, Ht.
Qed.

Lemma reaches_freed a c0 c : freed c0 c -> synthetic_reaches a c = synthetic_reaches a c0.
Proof. by intros [->| ->]. Qed.

Lemma reaching_elem d a ids j c :
  keyed d -> synthetic_checks_reaching d a = Ok ids -> db_checks d !! j = Some c ->
  j ∈ ids <-> synthetic_reaches a c = Ok true.
Proof.
  intros Hk. unfold synthetic_checks_reaching. destruct (filter_res _ _) as [l|] eqn:El; cbn; [|done].
  intros [= <-] Hc. destruct (filter_res_spec _ _ _ El) as [_ Hl].
  rewrite elem_of_list_to_set, list_elem_of_fmap. split.
  - intros (c' & Hid & [Hin Hr]%Hl). apply list_elem_of_filter in Hin as [_ [k Hk']%elem_of_rows].
    pose proof (keyed_checks d Hk _ _ Hk') as E. rewrite <- Hid in E. subst k. rewrite Hc in Hk'. by injection Hk' as ->.
  - intros Hr. exists c. split; [symmetry; by apply (keyed_checks d Hk)|]. apply Hl. split; [|done].
    apply list_elem_of_filter. split; [|apply elem_of_rows; eauto].
    unfold synthetic_reaches in Hr. destruct (negb _); [done|].
    destruct (ck_mode c); cbn in Hr; [|by auto..]. injection Hr as Hr%bool_decide_eq_true. by left.
Qed.

(** C17: whatever a non-admin does to an agent, no synthetic check starts to run
    on a host: one that reaches an agent past triage after the operation reached
    it, past triage, before. *)
Theorem nonadmin_places_no_synthetic fl now op fl' i a' j c :
  keyed (fl_db fl) -> step false fl now op = Ok fl' ->
  agents_of fl' !! i = Some a' -> ag_approval a' ∉ APPROVABLE ->
  db_checks (fl_db fl') !! j = Some c -> synthetic_reaches a' c = Ok true ->
  exists a c0, agents_of fl !! i = Some a /\ ag_approval a ∉ APPROVABLE /\
    db_checks (fl_db fl) !! j = Some c0 /\ synthetic_reaches a c0 = Ok true.
Proof.
  intros Hk Hs Ha' Hap Hc Hr. destruct (step_check _ _ _ _ _ j c Hs Hc) as (c0 & Hc0 & Hf & _).
  rewrite (reaches_freed _ _ _ Hf) in Hr. pose proof (step_row _ _ _ _ _ i Hs) as Hrow. rewrite Ha' in Hrow.
  destruct (agents_of fl !! i) as [a|] eqn:Ea.
  2: { inversion Hrow; subst. cbn in Hap. rewrite approvable_iff in Hap. tauto. }
  assert (Hgoal : ag_approval a ∉ APPROVABLE -> synthetic_reaches a c0 = Ok true ->
    exists b c1, Some a = Some b /\ ag_approval b ∉ APPROVABLE /\
      db_checks (fl_db fl) !! j = Some c1 /\ synthetic_reaches b c1 = Ok true) by eauto 10.
  inversion Hrow as [x E1 E2|? E1 E2|? ? ? ? ? ? ? ? _ E1 E2|b data _ Hpl E1 E2|b h _ E1 E2|b h E1 E2|b E1 E2
      |b h reaching _ Hreach Hempty E1 E2|b st rs Hmv E1 E2|b E1 E2|b E1 E2|b hb E1 E2]; subst; cbn in Hap;
    try (apply Hgoal; [exact Hap|]; erewrite <- reaches_same; [exact Hr|reflexivity..]).
  - apply Hgoal; [done|]. destruct Hpl as [|[[Hn Ht]|(before & Hb & Haf)]]; [done|by erewrite <- reaches_same|].
    apply (reaching_elem _ _ _ j c0 Hk Hb Hc0). by apply (reaching_elem _ _ _ j c0 Hk Haf Hc0).
  - destruct Hempty as [|E]; [done|]. exfalso.
    assert (Hr' : synthetic_reaches a c0 = Ok true) by (by erewrite <- reaches_same).
    apply (reaching_elem _ _ _ j c0 Hk Hreach Hc0) in Hr'. subst. by apply elem_of_empty in Hr'.
  - apply Hgoal; [by rewrite <- (operator_move_admitted _ _ Hmv)|]. by erewrite <- reaches_same.
  - apply Hgoal; [done|]. erewrite <- reaches_same; [exact Hr|done..|].
    cbn. unfold suggested_tags. rewrite bool_decide_eq_false_2; [by destruct (hb_tags hb) as [[]|]|].
    intros E. rewrite E, approvable_iff in Hap. tauto.
Qed.

(** ** Deletion *)

Lemma kept_check fl ids j c :
  keyed (fl_db fl) -> db_checks (fl_db fl) !! j = Some c -> ck_agent_id c ∉ ids ->
  exists c', db_checks (fl_db (drop_agents fl ids)) !! j = Some c' /\ freed c c'.
Proof.
  intros Hk Hc Hids. unfold drop_agents. cbn [fl_db]. set (own := map ck_id _).
  change (db_checks (Db _ ?t _ _ _ _ _ _)) with t. rewrite lookup_drop_checks, Hc.
  destruct (bool_decide_reflect (j ∈ own)) as [Hj|Hj].
  - exfalso. apply list_elem_of_fmap in Hj as (c' & E & Hin). apply list_elem_of_filter in Hin as [Hin [k Hk']%elem_of_rows].
    pose proof (keyed_checks _ Hk _ _ Hk') as E'. rewrite <- E in E'. subst k. rewrite Hc in Hk'. injection Hk' as <-. done.
  - eexists. split; [reflexivity|]. unfold free_of_parents, freed.
    destruct (ck_depends_on c); [|by left]. destruct (bool_decide _); auto.
Qed.

(** a deletion takes the agent's row, the checks assigned to it, the results
    it reported and its metrics, and nothing else of the fleet: the other
    agents' rows stay, their checks too, at most freed of a parent that went; and
    a non-admin's goes through only when none of the checks it takes is
    synthetic. *)
Theorem delete_takes_all fl id admin fl' :
  keyed (fl_db fl) -> delete_agent fl id admin = Ok fl' ->
  (forall j, agents_of fl' !! j = if decide (j = id) then None else agents_of fl !! j) /\
  (forall j c, db_checks (fl_db fl') !! j = Some c -> ck_agent_id c <> id) /\
  Forall (fun r => cr_agent_id r <> id) (db_results (fl_db fl')) /\
  Forall (fun m => am_agent_id m <> id) (fl_metrics fl') /\
  (forall j c, db_checks (fl_db fl) !! j = Some c ->
     if decide (ck_agent_id c = id) then admin = false -> is_synthetic c = false
     else exists c', db_checks (fl_db fl') !! j = Some c' /\ freed c c').
Proof.
  intros Hk Hd. unfold delete_agent in Hd. destruct (get_agent_by_id _ _) as [a|]; cbn in Hd; [|done].
  destruct (require_may_delete _ _ _) as [[]|] eqn:Em; cbn in Hd; [|done]. injection Hd as <-.
  split; [intros j; rewrite dropped_row; destruct (decide (j = id)) as [->|Hj]|split; [|split; [|split]]].
  - by rewrite decide_True by (by left).
  - rewrite decide_False; [done|]. by intros ?%list_elem_of_singleton.
  - intros j c (c0 & Hc0 & _ & Hno)%dropped_check E. apply Hno; [by apply (keyed_checks _ Hk)|]. rewrite E. left.
  - cbn. apply Forall_forall. intros r [Hr _]%list_elem_of_filter E. apply Hr. rewrite E. left.
  - cbn. apply Forall_forall. intros m [Hm _]%list_elem_of_filter E. apply Hm. rewrite E. left.
  - intros j c Hc. destruct (decide (ck_agent_id c = id)) as [E|E].
    + intros ->. unfold require_may_delete in Em. destruct (existsb _ _) eqn:Ex; [done|].
      destruct (is_synthetic c) eqn:Ey; [|done]. rewrite <- Ex. symmetry. apply existsb_exists.
      exists c. split; [|done]. apply list_elem_of_In, list_elem_of_filter. split; [done|]. apply elem_of_rows. eauto.
    + apply kept_check; [done..|]. by intros ?%list_elem_of_singleton.
Qed.

Lemma elem_of_stale fl cutoff a :
  a ∈ stale_agents fl cutoff <-> stale cutoff a = true /\ exists i, agents_of fl !! i = Some a.
Proof. unfold stale_agents. rewrite list_elem_of_filter, elem_of_rows. by rewrite Is_true_true. Qed.

(** the clean-up of silent agents works off their names: when one of the
    agents not heard from since the cutoff (and not archived) has a name, it
    deletes every such agent and no other; when none has, because all were never
    approved, it deletes nothing, however long they have been silent. *)
Theorem cleanup_needs_a_name fl now days n fl' :
  (forall i a, agents_of fl !! i = Some a -> ag_id a = i) -> cleanup_stale_agents fl now days = (n, fl') ->
  let cutoff := (now - days * us_per_day)%Z in
  if bool_decide (get_stale_agent_names fl cutoff = [])
  then n = 0%nat /\ fl' = fl /\
       (forall i a, agents_of fl !! i = Some a -> stale cutoff a = true -> present (ag_name a) = false)
  else n = length (stale_agents fl cutoff) /\
       (forall i a, agents_of fl !! i = Some a ->
          agents_of fl' !! i = if stale cutoff a then None else Some a).
Proof.
  intros Hk. unfold cleanup_stale_agents. cbn zeta. set (cutoff := (now - _)%Z).
  destruct (get_stale_agent_names fl cutoff) as [|nm l] eqn:En.
  - intros [= <- <-]. rewrite bool_decide_eq_true_2 by done. split; [done|]. split; [done|]. intros i a Ha Hst.
    destruct (present (ag_name a)) eqn:Ep; [|done]. exfalso.
    destruct (ag_name a) as [nm|] eqn:Ea; [|done].
    assert (Hin : nm ∈ get_stale_agent_names fl cutoff).
    { unfold get_stale_agent_names. apply list_elem_of_omap. exists a. rewrite Ea, Ep. split; [|done].
      apply elem_of_stale. eauto. }
    rewrite En in Hin. by apply elem_of_nil in Hin.
  - unfold delete_stale_agents. intros [= <- <-]. rewrite bool_decide_eq_false_2 by done. split; [done|].
    intros i a Ha. rewrite dropped_row, Ha. pose proof (Hk i a Ha) as Hid.
    destruct (decide (i ∈ map ag_id (stale_agents fl cutoff))) as [Hin|Hin].
    + apply list_elem_of_fmap in Hin as (b & Hb & [Hst [k Hbk]]%elem_of_stale).
      rewrite (Hk _ _ Hbk) in Hb. subst k. rewrite Ha in Hbk. injection Hbk as <-. by rewrite Hst.
    + destruct (stale cutoff a) eqn:Hst; [|done]. destruct Hin. apply list_elem_of_fmap. exists a. split; [done|].
      apply elem_of_stale. eauto.
Qed.

(** ** Runs that compute *)

Definition sys_exec (s : sys) (admin : bool) (now : instant) (op : fleet_op) : option sys :=
  if bool_decide (y_clock s <= now)%Z && forallb (fun i => bool_decide (i ∉ y_ids s)) (born op) then
    match step admin (y_fleet s) now op with Ok fl' => Some (Sys now fl' (born op ++ y_ids s)) | Raise _ => None end
  else None.

Fixpoint sys_run (s : sys) (ops : list (bool * instant * fleet_op)) : option sys :=
  match ops with
  | [] => Some s
  | (admin, now, op) :: ops => s' ← sys_exec s admin now op; sys_run s' ops
  end.

Lemma sys_run_star s ops s' : sys_run s ops = Some s' -> star sys_step s s'.
Proof.
  revert s. induction ops as [|[[admin now] op] ops IH]; intros s; cbn; [intros [= <-]; apply star_refl|].
  unfold sys_exec. destruct (_ && _) eqn:E; [|done]. apply andb_prop in E as [Hc Hf].
  destruct (step _ _ _ _) as [fl'|] eqn:Eo; [|done]. cbn. intros Hr%IH.
  eapply star_trans; [|exact Hr]. apply star_one. apply (ss_op s admin); [by apply bool_decide_eq_true_1 in Hc| |done].
  apply Forall_forall. intros i Hi. rewrite forallb_forall in Hf.
  apply list_elem_of_In in Hi. by apply Hf, bool_decide_eq_true_1 in Hi.
Qed.
End Rows.

(** ** Witnesses

    Two agents register, the first is approved, named and beats. *)

#[local] Existing Instance plain_runtime.
#[local] Existing Instance default_settings.
#[local] Existing Instance plain_bcrypt.

Definition demo_jobs_env : JobEnv :=
  {| params_schema := fun _ p => Some p; enrich_job_result := fun _ r => Ok r;
     job_retention_days := 7; job_max_dispatch_per_heartbeat := 2 |}.
#[local] Existing Instance demo_jobs_env.

Definition demo_name (n : string) : AgentUpdate :=
  {| ad_agent_name := Some (Some n); ad_run_id := None; ad_hostname := None; ad_ip_address := None;
     ad_version := None; ad_tags := None; ad_heartbeat_interval := None; ad_check_sync_interval := None;
     ad_settings := [] |}.

Definition demo_beat : AgentHeartbeat :=
  {| hb_run_id := Some "run"; hb_hostname := Some "web02"; hb_ip_address := None; hb_version := Some "1.2";
     hb_tags := Some ["role:monitor"]; hb_status := ONLINE; hb_report := [("queue_depth", PInt 3)] |}.

Definition fleet_ops : list (bool * instant * fleet_op) :=
  [(false, 1, OpRegister 1 5 "web01" None None None); (false, 2, OpRegister 2 6 "web02" None None None);
   (false, 3, OpApprove 1 "salt" 7); (false, 4, OpUpdate 1 (demo_name "london"));
   (false, 5, OpKeyUsed 1); (false, 6, OpAct 1 (Pause None)); (false, 7, OpAct 1 Resume)]%Z.

#[local] Abbreviation demo_step := (fleet_step 60 true Some).
#[local] Abbreviation demo_star := (star (sys_step 60 true Some)).
Definition fleet_sys (n : nat) : sys := default sys_start (sys_run 60 true Some sys_start (take n fleet_ops)).
Definition fleet_at (n : nat) : fleet := y_fleet (fleet_sys n).

Lemma fleet_sys_run n : (n <= 7)%nat -> sys_run 60 true Some sys_start (take n fleet_ops) = Some (fleet_sys n).
Proof. intros Hn. do 8 (destruct n as [|n]; [vm_compute; reflexivity|]). lia. Qed.

Lemma fleet_sys_reachable n : (n <= 7)%nat -> demo_star sys_start (fleet_sys n).
Proof. intros Hn. eapply sys_run_star. by apply fleet_sys_run. Qed.

Definition blank_agent : agent := demo_agent 0 0.
Definition fleet_row (n : nat) (i : uuid) : agent := default blank_agent (agents_of (fleet_at n) !! i).
Definition result_of {A} (dflt : A) (r : res A) : A := match r with Ok a => a | Raise _ => dflt end.

Lemma agent_lifecycle_witness :
  exists fl', demo_step false (fleet_at 7) 9 (OpAct 1 (Disable (Some "maintenance"))) = Ok fl' /\
    (ag_approval <$> agents_of fl' !! 1%N) = Some DISABLED /\
    operator_move (ag_approval (fleet_row 7 1)) DISABLED.
Proof.
  eexists. split; [vm_compute; reflexivity|]. split; [vm_compute; reflexivity|].
  pose proof (agent_lifecycle 60 true Some (fleet_sys 7) false 9 (OpAct 1 (Disable (Some "maintenance"))) _ 1
    (fleet_row 7 1) _ (fleet_sys_reachable 7 ltac:(lia)) ltac:(vm_compute; reflexivity)
    ltac:(vm_compute; reflexivity) ltac:(vm_compute; reflexivity)) as [_ [Hl|[Hl|(_ & Hl & _)]]];
    [discriminate Hl|exact Hl|discriminate Hl].
Defined.

Lemma agent_names_unique_witness : ag_name (fleet_row 7 1) = Some "london" /\ 1%N = 1%N.
Proof.
  split; [vm_compute; reflexivity|].
  apply (agent_names_unique 60 true Some (fleet_sys 7) 1 1 (fleet_row 7 1) (fleet_row 7 1) "london");
    [apply fleet_sys_reachable; lia|vm_compute; reflexivity..].
Defined.

Lemma secret_never_replaced_witness :
  is_Some (ag_recovery_secret_hash (fleet_row 1 1)) /\
  secret_left (ag_recovery_secret_hash (fleet_row 1 1)) (agents_of (fleet_at 1) !! 1%N).
Proof.
  split; [eexists; vm_compute; reflexivity|].
  apply (secret_never_replaced 60 true Some (fleet_sys 1) (fleet_sys 1) 1 (fleet_row 1 1));
    [apply fleet_sys_reachable; lia|apply star_refl|vm_compute; reflexivity].
Defined.

Lemma revoke_is_final_witness :
  exists fl1, revoke_agent_key (fleet_at 7) 1 = Ok fl1 /\
    (recover_agent_key fl1 20 1 "salt" 9 (Some (new_recovery_secret 5))).1 = Raise RecoverySecretRefusedException.
Proof.
  eexists. split; [vm_compute; reflexivity|].
  eapply (revoke_is_final 60 true Some (fleet_sys 7) _ (Sys (y_clock (fleet_sys 7)) _ (y_ids (fleet_sys 7))));
    [apply fleet_sys_reachable; lia|vm_compute; reflexivity|apply star_refl].
Defined.

(** The rest of the run from the state after the registration. *)
Lemma registered_run :
  demo_star (Sys 1 (fleet_at 1) [1%N]) (fleet_sys 7).
Proof. apply (sys_run_star 60 true Some _ (drop 1 fleet_ops)). vm_compute. reflexivity. Qed.

Lemma recovery_roundtrip_witness :
  exists fl1, register_agent (y_fleet sys_start) 1 1 5 "web01" None None None
                = Ok (new_recovery_secret 5, fl1) /\
  can_recover_key (fleet_at 7) 1 = Ok true.
Proof.
  exists (fleet_at 1). split; [vm_compute; reflexivity|].
  apply (recovery_roundtrip 60 true Some (H3 := plain_runtime_laws) (H4 := plain_bcrypt_laws) sys_start 1 1 5 "web01" None None None
    (new_recovery_secret 5) (fleet_at 1) (fleet_sys 7) (fleet_row 7 1) 20 "salt" 9).
  - apply star_refl.
  - vm_compute. discriminate.
  - apply not_elem_of_nil.
  - vm_compute; reflexivity.
  - apply registered_run.
  - vm_compute; reflexivity.
  - vm_compute; reflexivity.
  - vm_compute. discriminate.
Defined.

Lemma wrong_secret_refused_witness :
  recover_agent_key (Fleet (fleet_db 0 0) ∅ []) 20 1 "salt" 9 (Some "guess") =
    (Raise RecoverySecretRefusedException, false).
Proof.
  etransitivity; [apply wrong_secret_refused|vm_compute; reflexivity].
  intros a [= <-]. vm_compute. discriminate.
Defined.

Definition demo_header : option string := Some ("Bearer " +:+ new_agent_key 7).
Definition demo_sender : heartbeat_sender := require_heartbeat_sender (fleet_row 5 1) None true.

Lemma heartbeat_current_credential_witness :
  exists r fl', process_heartbeat 60 true Some ∅ (fleet_at 7) 20 1 demo_beat demo_sender = Ok (r, fl') /\
    hr_agent_key_accepted r = true /\ holds_key (fleet_row 7 1) demo_header.
Proof.
  eexists _, _. split; [vm_compute; reflexivity|]. split; [vm_compute; reflexivity|].
  eapply (heartbeat_current_credential 60 true Some (fleet_sys 5) (fleet_sys 7) ∅ 5 (fleet_row 5 1) demo_header
    None None true ∅ ∅ 20 1 demo_beat _ _ (fleet_row 7 1));
    [reflexivity|apply fleet_sys_reachable; lia| |vm_compute; reflexivity..].
  apply (sys_run_star 60 true Some _ (drop 5 fleet_ops)). vm_compute. reflexivity.
Defined.

Lemma heartbeat_keeps_managed_witness :
  exists r fl', process_heartbeat 60 true Some ∅ (fleet_at 7) 20 1 demo_beat demo_sender = Ok (r, fl') /\
    agents_of fl' !! 2%N = agents_of (fleet_at 7) !! 2%N.
Proof.
  eexists _, _. split; [vm_compute; reflexivity|].
  eapply (heartbeat_keeps_managed 60 true Some ∅ (fleet_at 7) 20 1 demo_beat demo_sender _ _ (fleet_row 7 1));
    [vm_compute; reflexivity..|discriminate].
Defined.

Lemma nonadmin_places_no_synthetic_witness :
  exists fl', demo_step false (Fleet (fleet_db 0 0) ∅ []) 9 (OpAct 1 (Pause None)) = Ok fl' /\
  exists a c0, agents_of (Fleet (fleet_db 0 0) ∅ []) !! 1%N = Some a /\ ag_approval a ∉ APPROVABLE /\
    db_checks (fleet_db 0 0) !! 30%N = Some c0 /\ synthetic_reaches a c0 = Ok true.
Proof.
  eexists. split; [vm_compute; reflexivity|].
  eapply (nonadmin_places_no_synthetic 60 true Some (Fleet (fleet_db 0 0) ∅ []) 9 (OpAct 1 (Pause None)) _ 1
    (moved_to 9 PAUSED None (fleet_agent 1 0)) 30 (distributed 30 "synthetic")).
  - apply fleet_keyed.
  - vm_compute; reflexivity.
  - vm_compute; reflexivity.
  - rewrite approvable_iff. by intros [|].
  - vm_compute; reflexivity.
  - vm_compute; reflexivity.
Defined.

Definition owned_db : fleet :=
  Fleet (demo_db (demo_alert STATUS_CHANGE [] None None) None None [demo_result 90 10 5 true] []) ∅ [].

Lemma delete_takes_all_witness :
  exists fl', delete_agent owned_db 1 false = Ok fl' /\ db_results (fl_db fl') = [] /\
    agents_of fl' !! 1%N = None.
Proof.
  eexists. split; [vm_compute; reflexivity|]. split; [vm_compute; reflexivity|].
  assert (Hk : keyed (fl_db owned_db)) by (by apply demo_keyed).
  destruct (delete_takes_all owned_db 1 false _ Hk ltac:(vm_compute; reflexivity)) as [Hrow _]. exact (Hrow 1%N).
Defined.

Lemma cleanup_needs_a_name_witness :
  (cleanup_stale_agents (fleet_at 2) (40 * us_per_day) 30).1 = 0%nat /\
  forall i a, agents_of (fleet_at 2) !! i = Some a -> stale (10 * us_per_day) a = true -> present (ag_name a) = false.
Proof.
  split; [vm_compute; reflexivity|].
  assert (Hk : forall i a, agents_of (fleet_at 2) !! i = Some a -> ag_id a = i).
  { apply (inv_key (fleet_sys 2)). eapply sys_inv_reachable. apply (fleet_sys_reachable 2). lia. }
  exact (proj2 (proj2 (cleanup_needs_a_name (fleet_at 2) (40 * us_per_day) 30 0%nat (fleet_at 2) Hk
    ltac:(vm_compute; reflexivity)))).
Defined.
