(* ===== verification/Accounts.v ===== *)
(** * Accounts, sessions and API tokens

    Signing in and its lockout, sessions, passwords
    (services/core/auth_core_service.py), users (user_core_service.py,
    admin_user_core_service.py) and their API tokens
    (api_token_core_service.py), over crud/user_crud.py, session_crud.py and
    api_token_crud.py.  The state is the three tables.  The settings table holds
    a value under each key set; the default of the code stands for an unset one.
    What a lock wait comes to, bcrypt, the digest and the random texts are given.
    An operation that raises commits nothing. *)

From S2P Require Import Prelude Py Text Store AlertAdmin Scopes Credentials.

(** ** Rows *)

Record user := User {
  us_id : uuid;
  us_username : string;
  us_password_hash : string;
  us_role : UserRole;
  us_is_active : bool;
  us_full_name : option string;
  us_created_at : instant;
  us_last_login_at : option instant;
  us_password_changed_at : option instant;
  us_failed_login_attempts : Z;
  us_locked_until : option instant;
  us_must_change_password : bool;
  us_created_by : option string;
}.

Record session := Session {
  ss_id : uuid;
  ss_user_id : uuid;
  ss_token_hash : string;
  ss_expires_at : instant;
  ss_ip_address : option string;
  ss_user_agent : option string;
  ss_last_activity_at : option instant;
}.

Record api_token := ApiToken {
  tk_id : uuid;
  tk_user_id : uuid;
  tk_name : string;
  tk_token_hash : string;
  tk_token_prefix : string;
  tk_scopes : list string;
  tk_created_at : instant;
  tk_last_used_at : option instant;
  tk_expires_at : option instant;
  tk_revoked_at : option instant;
}.

Record accounts := Accounts {
  ac_users : gmap uuid user;
  ac_sessions : gmap uuid session;
  ac_tokens : gmap uuid api_token;
}.

Definition empty_accounts : accounts := Accounts ∅ ∅ ∅.

Definition set_users (st : accounts) (t : gmap uuid user) : accounts := Accounts t (ac_sessions st) (ac_tokens st).
Definition set_sessions (st : accounts) (t : gmap uuid session) : accounts := Accounts (ac_users st) t (ac_tokens st).
Definition set_tokens (st : accounts) (t : gmap uuid api_token) : accounts := Accounts (ac_users st) (ac_sessions st) t.

(** The flush of one user's changed row. *)
Definition save_user (st : accounts) (u : user) : accounts := set_users st (<[us_id u := u]> (ac_users st)).

(** [User.is_locked] *)
Definition is_locked (now : instant) (u : user) : bool :=
  match us_locked_until u with Some t => (now <? t)%Z | None => false end.

(** [Session.is_expired] *)
Definition is_expired (now : instant) (s : session) : bool := (ss_expires_at s <? now)%Z.

Definition is_active_admin (u : user) : bool := bool_decide (us_role u = ADMIN) && us_is_active u.

(** A sign-in that succeeded. *)
Definition signed_in (now : instant) (u : user) : user :=
  User (us_id u) (us_username u) (us_password_hash u) (us_role u) (us_is_active u)
    (us_full_name u) (us_created_at u) (Some now) (us_password_changed_at u) 0 None
    (us_must_change_password u) (us_created_by u).

Definition unlocked (u : user) : user :=
  User (us_id u) (us_username u) (us_password_hash u) (us_role u) (us_is_active u)
    (us_full_name u) (us_created_at u) (us_last_login_at u) (us_password_changed_at u) 0 None
    (us_must_change_password u) (us_created_by u).

(** The VALUES of [record_failed_login]. *)
Definition failed_login (max_attempts : Z) (lock_until : instant) (u : user) : user :=
  User (us_id u) (us_username u) (us_password_hash u) (us_role u) (us_is_active u)
    (us_full_name u) (us_created_at u) (us_last_login_at u) (us_password_changed_at u)
    (us_failed_login_attempts u + 1)
    (if (max_attempts <=? us_failed_login_attempts u + 1)%Z then Some lock_until else us_locked_until u)
    (us_must_change_password u) (us_created_by u).

Definition new_password (now : instant) (hash : string) (must_change : bool) (u : user) : user :=
  User (us_id u) (us_username u) hash (us_role u) (us_is_active u) (us_full_name u)
    (us_created_at u) (us_last_login_at u) (Some now) (us_failed_login_attempts u)
    (us_locked_until u) must_change (us_created_by u).

Definition touched (now : instant) (s : session) : session :=
  Session (ss_id s) (ss_user_id s) (ss_token_hash s) (ss_expires_at s) (ss_ip_address s)
    (ss_user_agent s) (Some now).

Definition used (now : instant) (t : api_token) : api_token :=
  ApiToken (tk_id t) (tk_user_id t) (tk_name t) (tk_token_hash t) (tk_token_prefix t) (tk_scopes t)
    (tk_created_at t) (Some now) (tk_expires_at t) (tk_revoked_at t).

Definition revoked (now : instant) (t : api_token) : api_token :=
  ApiToken (tk_id t) (tk_user_id t) (tk_name t) (tk_token_hash t) (tk_token_prefix t) (tk_scopes t)
    (tk_created_at t) (tk_last_used_at t) (tk_expires_at t) (Some now).

(** ** core/common_passwords.py *)

Definition COMMON_PASSWORDS : list string :=
  ["password"; "123456"; "123456789"; "12345678"; "12345"; "1234567"; "password1"; "12345679";
   "qwerty"; "abc123"; "111111"; "123123"; "1234567890"; "000000"; "password123"; "1234";
   "iloveyou"; "1q2w3e4r"; "qwertyuiop"; "123"; "monkey"; "dragon"; "princess"; "letmein";
   "starwars"; "master"; "sunshine"; "ashley"; "bailey"; "passw0rd"; "shadow"; "123321";
   "654321"; "superman"; "qazwsx"; "michael"; "football"; "baseball"; "welcome"; "hello";
   "freedom"; "whatever"; "nicole"; "jordan"; "cameron"; "secret"; "summer"; "1qaz2wsx";
   "zxcvbnm"; "trustno1"; "ranger"; "thomas"; "robert"; "222222"; "987654321"; "liverpool";
   "killer"; "harley"; "jordan23"; "chelsea"; "hunter"; "batman"; "andrew"; "charlie";
   "joshua"; "maggie"; "matrix"; "qwerty123"; "flower"; "computer"; "987654"; "daniel";
   "samsung"; "jessica"; "mustang"; "password12"; "qwe123"; "admin"; "administrator"; "root";
   "toor"; "pass"; "pass123"; "1111"; "11111"; "1111111"; "333333"; "444444"; "555555";
   "666666"; "777777"; "888888"; "999999"; "121212"; "123454321"; "abc"; "abcd"; "abcd1234";
   "qwerty1"].

Definition is_common_password (password : string) : bool := bool_decide (lower password ∈ COMMON_PASSWORDS).

(** ** Settings (services/core/settings_core_service.py) *)

(** [SettingsCoreService.get_setting]: the stored value, or the default. *)
Definition get_setting (settings : gmap string pyval) (key : string) (dflt : pyval) : pyval :=
  default dflt (settings !! key).

(** [get_security_settings] *)
Definition get_security_settings (settings : gmap string pyval) : pydict :=
  [("session_lifetime_days", get_setting settings "security.session_lifetime_days" (PInt 7));
   ("max_failed_attempts", get_setting settings "security.max_failed_attempts" (PInt 5));
   ("account_lock_duration_minutes", get_setting settings "security.account_lock_duration_minutes" (PInt 30));
   ("login_rate_limit", get_setting settings "security.login_rate_limit" (PStr "10/15minutes"));
   ("api_rate_limit", get_setting settings "security.api_rate_limit" (PStr "100/minute"));
   ("registration_rate_limit", get_setting settings "security.registration_rate_limit" (PStr "5/hour"))].

(** A value used as an integer. *)
Definition as_int (v : pyval) : res Z :=
  match v with PInt z => Ok z | PBool b => Ok (if b then 1 else 0)%Z | _ => Raise TypeError end.

(** [settings[key]] of a key the dict has *)
Definition security_int (settings : gmap string pyval) (key : string) : res Z :=
  as_int (dict_get (get_security_settings settings) key PNone).

(** ** Passwords *)

Definition special_chars : string := "!@#$%^&*()_+-=[]{}|;:,.<>?".
Definition is_special (c : ascii) : bool := has_char (Ascii.eqb c) special_chars.

(** Of ASCII text, whose length and bytes are one: the verdict, [None] for valid. *)
Definition validate_password_complexity (settings : gmap string pyval) (password : string) : res (option string) :=
  let s := get_security_settings settings in
  min_length ← as_int (dict_get s "min_password_length" (PInt 8));
  if (Z.of_nat (String.length password) <? min_length)%Z then Ok (Some "Password is too short")
  else if (MAX_SECRET_BYTES <? String.length password)%nat then Ok (Some "Password must be at most 72 bytes")
  else if truthy (dict_get s "require_uppercase" (PBool true)) && negb (has_char is_upper password)
  then Ok (Some "Password must contain at least one uppercase letter")
  else if truthy (dict_get s "require_lowercase" (PBool true)) && negb (has_char is_lower password)
  then Ok (Some "Password must contain at least one lowercase letter")
  else if truthy (dict_get s "require_number" (PBool true)) && negb (has_char is_digit password)
  then Ok (Some "Password must contain at least one digit")
  else if truthy (dict_get s "require_special_char" (PBool false)) && negb (has_char is_special password)
  then Ok (Some "Password must contain at least one special character")
  else if truthy (dict_get s "check_common_passwords" (PBool true)) && is_common_password password
  then Ok (Some "Password is too common")
  else Ok None.

(** [storable_text]: no NUL (bytes are UTF-8 already). *)
Definition storable_text (s : string) : bool := negb (has_char (Ascii.eqb (ascii_of_N 0)) s).

Definition _FAKE_PASSWORD_HASH : string := "$2b$12$LQv3c1yqBWVHxkd0LHAkCOYz6TtxMQJqhN8/LewY5GyYqNGxMhxyu".

Section Accounts.
Context `{PyRuntime} `{Bcrypt}.
Variable settings : gmap string pyval.

Definition hash_password (salt password : string) : string := hashpw salt password.
Definition verify_password (password password_hash : string) : res bool := bcrypt_matches password password_hash.
Definition hash_token (token : string) : string := sha256_hex token.

(** ** Signing in *)

Definition get_by_username (st : accounts) (username : string) : option user :=
  head (filter (fun u => us_username u = username) (rows (ac_users st))).

Definition record_failed_login (st : accounts) (u : user) (max_attempts : Z) (lock_until : instant) : accounts :=
  set_users st (alter (failed_login max_attempts lock_until) (us_id u) (ac_users st)).

(** [_count_failure] *)
Definition count_failure (st : accounts) (now : instant) (u : user) : res accounts :=
  max_attempts ← security_int settings "max_failed_attempts";
  lock_duration ← security_int settings "account_lock_duration_minutes";
  Ok (record_failed_login st u max_attempts (now + lock_duration * us_per_minute)%Z).

(** [busy]: whether the wait for the username's lock ran out. *)
Definition authenticate_user (st : accounts) (now : instant) (username password : string) (busy : bool)
    : res (option user * accounts) :=
  u ← (if storable_text username then
         if busy then (_ ← verify_password password _FAKE_PASSWORD_HASH; Raise LoginBusyException)
         else Ok (get_by_username st username)
       else Ok None);
  match u with
  | None => _ ← verify_password password _FAKE_PASSWORD_HASH; Ok (None, st)
  | Some u =>
      if is_locked now u || negb (us_is_active u)
      then _ ← verify_password password _FAKE_PASSWORD_HASH; Ok (None, st)
      else
        right_ ← verify_password password (us_password_hash u);
        if negb right_ then st' ← count_failure st now u; Ok (None, st')
        else Ok (Some (signed_in now u), save_user st (signed_in now u))
  end.

(** ** Sessions *)

Definition get_by_token_hash (st : accounts) (token_hash : string) : option session :=
  head (filter (fun s => ss_token_hash s = token_hash) (rows (ac_sessions st))).

(** [id] the new row's, [token] the random text; token_hash is unique. *)
Definition create_session (st : accounts) (now : instant) (id user_id : uuid) (token : string)
    (ip_address user_agent : option string) : res (session * string * accounts) :=
  match ac_users st !! user_id with
  | None => Raise NotFoundException
  | Some _ =>
      session_lifetime_days ← security_int settings "session_lifetime_days";
      let s := Session id user_id (hash_token token) (now + session_lifetime_days * us_per_day)%Z
                 ip_address user_agent (Some now) in
      match ac_sessions st !! id, get_by_token_hash st (hash_token token) with
      | None, None => Ok (s, token, set_sessions st (<[id := s]> (ac_sessions st)))
      | _, _ => Raise IntegrityError
      end
  end.

(** [Session.is_valid]; its user is the row the foreign key names. *)
Definition is_valid (st : accounts) (now : instant) (s : session) : bool :=
  if is_expired now s then false
  else match ac_users st !! ss_user_id s with
       | Some u => us_is_active u && negb (is_locked now u)
       | None => true
       end.

Definition verify_session (st : accounts) (now : instant) (token : string) : option session * accounts :=
  match get_by_token_hash st (hash_token token) with
  | None => (None, st)
  | Some s =>
      if is_valid st now s then
        let s' := touched now s in (Some s', set_sessions st (<[ss_id s := s']> (ac_sessions st)))
      else (None, st)
  end.

Definition logout (st : accounts) (token : string) : bool * accounts :=
  match get_by_token_hash st (hash_token token) with
  | Some s => (true, set_sessions st (delete (ss_id s) (ac_sessions st)))
  | None => (false, st)
  end.

(** [delete_active_for_user]: the sessions still unexpired. *)
Definition active_session_of (now : instant) (user_id : uuid) (s : session) : Prop :=
  ss_user_id s = user_id /\ (now < ss_expires_at s)%Z.

Definition get_user_sessions (st : accounts) (now : instant) (user_id : uuid) : list session :=
  order_desc (fun s => default 0%Z (ss_last_activity_at s))
    (filter (active_session_of now user_id) (rows (ac_sessions st))).

Definition logout_all_sessions (st : accounts) (now : instant) (user_id : uuid) : nat * accounts :=
  (length (filter (active_session_of now user_id) (rows (ac_sessions st))),
   set_sessions st (filter (fun kv => ~ active_session_of now user_id kv.2) (ac_sessions st))).

Definition cleanup_expired_sessions (st : accounts) (now : instant) : nat * accounts :=
  (length (filter (fun s => (ss_expires_at s <= now)%Z) (rows (ac_sessions st))),
   set_sessions st (filter (fun kv => ~ (ss_expires_at kv.2 <= now)%Z) (ac_sessions st))).

(** ** API tokens *)

Definition TOKEN_PREFIX : string := "lsw_".
Definition DISPLAY_LENGTH : nat := 12.

Record ApiTokenCreate := {
  tc_name : string;
  tc_expires_in_days : option Z;
  tc_scopes : list string;
}.

Definition get_by_hash (st : accounts) (token_hash : string) : option api_token :=
  head (filter (fun t => tk_token_hash t = token_hash) (rows (ac_tokens st))).

(** [random] is what [secrets.token_urlsafe] draws. *)
Definition create_token (st : accounts) (now : instant) (id user_id : uuid) (random : string) (data : ApiTokenCreate)
    : res (api_token * string * accounts) :=
  let plaintext := TOKEN_PREFIX +:+ random in
  let t := ApiToken id user_id (tc_name data) (sha256_hex plaintext) (String.substring 0 DISPLAY_LENGTH plaintext)
             (tc_scopes data) now None
             (match tc_expires_in_days data with
              | Some d => if (d =? 0)%Z then None else Some (now + d * us_per_day)%Z
              | None => None end) None in
  match ac_users st !! user_id, ac_tokens st !! id, get_by_hash st (sha256_hex plaintext) with
  | Some _, None, None => Ok (t, plaintext, set_tokens st (<[id := t]> (ac_tokens st)))
  | _, _, _ => Raise IntegrityError
  end.

Definition list_tokens (st : accounts) (user_id : uuid) : list api_token :=
  order_desc tk_created_at (filter (fun t => tk_user_id t = user_id /\ tk_revoked_at t = None) (rows (ac_tokens st))).

Definition revoke_token (st : accounts) (now : instant) (token_id actor_id : uuid) (actor_role : UserRole) : res accounts :=
  match ac_tokens st !! token_id with
  | Some t =>
      if bool_decide (tk_user_id t <> actor_id) && bool_decide (actor_role <> ADMIN) then Raise NotFoundException
      else match tk_revoked_at t with
           | Some _ => Ok st
           | None => Ok (set_tokens st (<[token_id := revoked now t]> (ac_tokens st)))
           end
  | None => Raise NotFoundException
  end.

Definition unrevoked_of (user_id : uuid) (t : api_token) : Prop := tk_user_id t = user_id /\ tk_revoked_at t = None.

Definition revoke_all_for_user (st : accounts) (now : instant) (user_id : uuid) : nat * accounts :=
  (length (filter (unrevoked_of user_id) (rows (ac_tokens st))),
   set_tokens st ((fun t => if bool_decide (unrevoked_of user_id t) then revoked now t else t) <$> ac_tokens st)).

(** [ApiTokenCoreService.authenticate] *)
Definition authenticate (st : accounts) (now : instant) (plaintext : string) : option ApiPrincipal * accounts :=
  if negb (startswith TOKEN_PREFIX plaintext) then (None, st)
  else
    match get_by_hash st (sha256_hex plaintext) with
    | None => (None, st)
    | Some t =>
        if bool_decide (tk_revoked_at t <> None)
           || match tk_expires_at t with Some e => (e <=? now)%Z | None => false end
        then (None, st)
        else match ac_users st !! tk_user_id t with
             | Some u =>
                 if negb (us_is_active u) || us_must_change_password u then (None, st)
                 else (Some {| pr_user_id := us_id u; pr_role := us_role u; pr_token_id := tk_id t;
                               pr_token_name := tk_name t; pr_token_expires_at := tk_expires_at t;
                               pr_scopes := tk_scopes t |},
                       set_tokens st (<[tk_id t := used now t]> (ac_tokens st)))
             | None => (None, st)
             end
    end.

(** [str.partition(" ")] *)
Fixpoint partition_space (s : string) : string * string :=
  match s with
  | EmptyString => ("", "")
  | String c s' => if Ascii.eqb c " " then ("", s')
                   else let '(a, b) := partition_space s' in (String c a, b)
  end.

(** [require_api_user] (api/deps.py) *)
Definition require_api_user (st : accounts) (now : instant) (authorization : option string) : res (ApiPrincipal * accounts) :=
  let '(scheme, token) := partition_space (default "" authorization) in
  let '(principal, st') :=
    if String.eqb (lower scheme) "bearer" then authenticate st now (strip token) else (None, st) in
  match principal with Some p => Ok (p, st') | None => Raise (HTTPException 401 "") end.

(** ** Changing and resetting a password *)

(** The sessions and the tokens stop with the old password. *)
Definition end_credentials (st : accounts) (now : instant) (user_id : uuid) : accounts :=
  (revoke_all_for_user (logout_all_sessions st now user_id).2 now user_id).2.

(** The form turns a refusal into its error and the session still commits, so
    the answer and the state both count. *)
Definition change_password (st : accounts) (now : instant) (user_id : uuid) (salt current new : string) (busy : bool)
    : res unit * accounts :=
  if busy then (_ ← verify_password current _FAKE_PASSWORD_HASH; Raise LoginBusyException, st)
  else
    match ac_users st !! user_id with
    | None => (Raise ValueError, st)
    | Some u =>
        if is_locked now u || negb (us_is_active u)
        then (_ ← verify_password current _FAKE_PASSWORD_HASH; Raise ValueError, st)
        else
          match verify_password current (us_password_hash u) with
          | Raise e => (Raise e, st)
          | Ok false =>
              match count_failure st now u with
              | Ok st' => (Raise ValueError, st')
              | Raise e => (Raise e, st)
              end
          | Ok true =>
              let st1 := save_user st (unlocked u) in
              match validate_password_complexity settings new with
              | Raise e => (Raise e, st1)
              | Ok (Some _) => (Raise ValueError, st1)
              | Ok None =>
                  (Ok tt, end_credentials (save_user st (new_password now (hash_password salt new) false (unlocked u)))
                            now user_id)
              end
          end
    end.

Definition reset_password (st : accounts) (now : instant) (user_id : uuid) (salt new : string) (force_change : bool)
    : res accounts :=
  verdict ← validate_password_complexity settings new;
  match verdict with
  | Some message => Raise (ValidationException message)
  | None =>
      match ac_users st !! user_id with
      | None => Raise NotFoundException
      | Some u =>
          Ok (end_credentials (save_user st (unlocked (new_password now (hash_password salt new) force_change u)))
                now user_id)
      end
  end.

(** ** Users *)

Record UserCreate := {
  uc_username : string;
  uc_password : string;
  uc_role : UserRole;
  uc_full_name : option string;
  uc_is_active : bool;
  uc_must_change_password : bool;
}.

Record UserUpdate := {
  uu_role : sent UserRole;
  uu_full_name : sent string;
  uu_is_active : sent bool;
  uu_must_change_password : sent bool;
}.

(** [add_user] inserts in a savepoint; the username is unique. *)
Definition create_user (st : accounts) (now : instant) (id : uuid) (salt : string) (data : UserCreate)
    (created_by : option string) : res (user * accounts) :=
  verdict ← validate_password_complexity settings (uc_password data);
  match verdict with
  | Some message => Raise (ValidationException message)
  | None =>
      let u := User id (uc_username data) (hash_password salt (uc_password data)) (uc_role data) (uc_is_active data)
                 (uc_full_name data) now None None 0 None (uc_must_change_password data) created_by in
      match get_by_username st (uc_username data), ac_users st !! id with
      | Some _, _ => Raise DuplicateResourceException
      | None, Some _ => Raise (ValidationException "The user could not be created")
      | None, None => Ok (u, save_user st u)
      end
  end.

(** [count_other_active_admins] *)
Definition count_other_active_admins (st : accounts) (user_id : uuid) : nat :=
  length (filter (fun u => us_id u <> user_id) (filter (fun u => is_active_admin u = true) (rows (ac_users st)))).

(** [_assert_an_active_admin_remains] *)
Definition assert_an_active_admin_remains (st : accounts) (u : user) (stays_active_admin : bool) : res unit :=
  if negb (is_active_admin u) || stays_active_admin then Ok tt
  else if (count_other_active_admins st (us_id u) =? 0)%nat then Raise LastActiveAdminException else Ok tt.

(** A NOT NULL column written null: the flush fails. *)
Definition written {A} (v : sent A) (old : A) : res A :=
  match v with
  | None => Ok old
  | Some (Some x) => Ok x
  | Some None => Raise (ValidationException "The user could not be updated")
  end.

Definition update_user (st : accounts) (now : instant) (user_id : uuid) (data : UserUpdate) : res (user * accounts) :=
  match ac_users st !! user_id with
  | None => Raise NotFoundException
  | Some u =>
      let role_after := match uu_role data with Some r => r | None => Some (us_role u) end in
      let active_after := match uu_is_active data with Some b => b | None => Some (us_is_active u) end in
      _ ← assert_an_active_admin_remains st u
            (bool_decide (role_after = Some ADMIN) && bool_decide (active_after = Some true));
      role ← written (uu_role data) (us_role u);
      is_active ← written (uu_is_active data) (us_is_active u);
      must_change ← written (uu_must_change_password data) (us_must_change_password u);
      let u' := User (us_id u) (us_username u) (us_password_hash u) role is_active
                  (nullable (uu_full_name data) (us_full_name u)) (us_created_at u) (us_last_login_at u)
                  (us_password_changed_at u) (us_failed_login_attempts u) (us_locked_until u) must_change
                  (us_created_by u) in
      let st1 := save_user st u' in
      Ok (u', if bool_decide (role = us_role u) then st1 else (logout_all_sessions st1 now user_id).2)
  end.

(** The foreign keys take the user's sessions and tokens along. *)
Definition delete_user (st : accounts) (user_id : uuid) (actor_id : option uuid) : res accounts :=
  if bool_decide (actor_id = Some user_id) then Raise (ValidationException "Cannot delete your own account")
  else
    match ac_users st !! user_id with
    | None => Raise NotFoundException
    | Some u =>
        _ ← assert_an_active_admin_remains st u false;
        Ok (Accounts (delete user_id (ac_users st))
              (filter (fun kv => ss_user_id kv.2 <> user_id) (ac_sessions st))
              (filter (fun kv => tk_user_id kv.2 <> user_id) (ac_tokens st)))
    end.

Definition unlock_user (st : accounts) (user_id : uuid) : res (user * accounts) :=
  match ac_users st !! user_id with
  | None => Raise NotFoundException
  | Some u => Ok (unlocked u, save_user st (unlocked u))
  end.

(** ** AdminUserCoreService *)

Definition is_active_admin_id (st : accounts) (user_id : option uuid) : bool :=
  match (i ← user_id; ac_users st !! i) with Some u => is_active_admin u | None => false end.
Definition is_active_editor_id (st : accounts) (user_id : option uuid) : bool :=
  match (i ← user_id; ac_users st !! i) with
  | Some u => us_is_active u && bool_decide (us_role u ∈ [EDITOR; ADMIN])
  | None => false
  end.

Definition require_active_admin (st : accounts) (actor_id : uuid) : res unit :=
  if is_active_admin_id st (Some actor_id) then Ok tt else Raise AuthorizationException.

(** ** The services as a transition system

    One transaction each; the admin's actions re-read that their actor is one. *)
Inductive account_op :=
  | OpSignIn (username password : string) (busy : bool)
  | OpSession (id user_id : uuid) (token : string)
  | OpVerify (token : string)
  | OpLogout (token : string)
  | OpLogoutAll (user_id : uuid)
  | OpCleanupSessions
  | OpChangePassword (user_id : uuid) (salt current new : string) (busy : bool)
  | OpResetPassword (actor user_id : uuid) (salt new : string) (force_change : bool)
  | OpCreateUser (actor id : uuid) (salt : string) (data : UserCreate)
  | OpUpdateUser (actor user_id : uuid) (data : UserUpdate)
  | OpDeleteUser (actor user_id : uuid)
  | OpUnlock (actor user_id : uuid)
  | OpCreateToken (id user_id : uuid) (random : string) (data : ApiTokenCreate)
  | OpRevokeToken (id actor : uuid) (role : UserRole)
  | OpAuthenticate (plaintext : string).

Definition account_step (st : accounts) (now : instant) (op : account_op) : res accounts :=
  match op with
  | OpSignIn username password busy => snd <$> authenticate_user st now username password busy
  | OpSession id user_id token => snd <$> create_session st now id user_id token None None
  | OpVerify token => Ok (verify_session st now token).2
  | OpLogout token => Ok (logout st token).2
  | OpLogoutAll user_id => Ok (logout_all_sessions st now user_id).2
  | OpCleanupSessions => Ok (cleanup_expired_sessions st now).2
  | OpChangePassword user_id salt current new busy => Ok (change_password st now user_id salt current new busy).2
  | OpResetPassword actor user_id salt new force =>
      _ ← require_active_admin st actor; reset_password st now user_id salt new force
  | OpCreateUser actor id salt data => _ ← require_active_admin st actor; snd <$> create_user st now id salt data None
  | OpUpdateUser actor user_id data => _ ← require_active_admin st actor; snd <$> update_user st now user_id data
  | OpDeleteUser actor user_id => _ ← require_active_admin st actor; delete_user st user_id (Some actor)
  | OpUnlock actor user_id => _ ← require_active_admin st actor; snd <$> unlock_user st user_id
  | OpCreateToken id user_id random data => snd <$> create_token st now id user_id random data
  | OpRevokeToken id actor role => revoke_token st now id actor role
  | OpAuthenticate plaintext => Ok (authenticate st now plaintext).2
  end.
End Accounts.
