(* ===== verification/AccountsTheorems.v ===== *)
(** * Accounts, sessions and API tokens: properties

    The lockout bounds the guesses judged against a password ([guess_budget]); an
    active admin always remains; what is handed out works until it is revoked or
    runs out, and stops with the password it was obtained under. *)

From S2P Require Import Prelude Py Text Store Notify Fixtures AlertAdmin Scopes Credentials Accounts.

Section Properties.
Context `{PyRuntime} `{Bcrypt}.
Variable settings : gmap string pyval.

#[local] Abbreviation sign_in := (authenticate_user settings).
#[local] Abbreviation change := (change_password settings).

(** Rows under their own ids, usernames distinct. *)
Record users_keyed (st : accounts) : Prop := {
  key_users i u : ac_users st !! i = Some u -> us_id u = i;
  one_username i j u v : ac_users st !! i = Some u -> ac_users st !! j = Some v ->
    us_username u = us_username v -> i = j;
}.

Lemma found_by_username st i u :
  users_keyed st -> ac_users st !! i = Some u -> get_by_username st (us_username u) = Some u.
Proof.
  intros Hk Hu. unfold get_by_username.
  assert (Hin : u ∈ filter (fun v => us_username v = us_username u) (rows (ac_users st))).
  { apply list_elem_of_filter. split; [done|]. apply elem_of_rows. eauto. }
  destruct (filter _ _) as [|v l] eqn:E; [by apply elem_of_nil in Hin|]. cbn.
  assert (Hv : v ∈ filter (fun v => us_username v = us_username u) (rows (ac_users st))) by (rewrite E; left).
  apply list_elem_of_filter in Hv as [Hn [j Hj]%elem_of_rows].
  pose proof (one_username st Hk _ _ _ _ Hj Hu Hn). subst j. congruence.
Qed.

(** ** The guesses one account answers

    A guess is a sign-in or a change of password with a wrong password: both
    judge the same hash from one budget. *)

Inductive guess := GuessSignIn (password : string) | GuessChange (salt current new : string).

Definition guessed (g : guess) : string := match g with GuessSignIn p => p | GuessChange _ p _ => p end.

Definition guess_step (st : accounts) (now : instant) (u : user) (g : guess) : accounts :=
  match g with
  | GuessSignIn p => match sign_in st now (us_username u) p false with Ok (_, st') => st' | Raise _ => st end
  | GuessChange salt p new => (change st now (us_id u) salt p new false).2
  end.

(** A run of guesses, each at its instant. *)
Definition guess_run (u : user) (st : accounts) (guesses : list (instant * guess)) : accounts :=
  fold_left (fun st ng => guess_step st ng.1 u ng.2) guesses st.

(** A guess is judged against the account's own hash when in its place the right
    password would have been accepted ([strong]: a new password the rules take). *)
Definition judged (right_ strong : string) (st : accounts) (now : instant) (u : user) (g : guess) : bool :=
  match g with
  | GuessSignIn _ => match sign_in st now (us_username u) right_ false with Ok (Some _, _) => true | _ => false end
  | GuessChange salt _ _ => match (change st now (us_id u) salt right_ strong false).1 with Ok _ => true | Raise _ => false end
  end.

(** How many guesses of a run are. *)
Fixpoint judged_guesses (right_ strong : string) (u : user) (st : accounts) (guesses : list (instant * guess)) : Z :=
  match guesses with
  | [] => 0
  | (now, g) :: rest =>
      ((if judged right_ strong st now u g then 1 else 0)
       + judged_guesses right_ strong u (guess_step st now u g) rest)%Z
  end.

Section Budget.
Variables (max_attempts lock_minutes : Z).
Hypothesis max_set : security_int settings "max_failed_attempts" = Ok max_attempts.
Hypothesis lock_set : security_int settings "account_lock_duration_minutes" = Ok lock_minutes.
Hypothesis lock_positive : (0 < lock_minutes)%Z.

Definition lock_time : Z := (lock_minutes * us_per_minute)%Z.

(** What a wrong guess does to the row. *)
Definition guess_row (now : instant) (u : user) : user :=
  if is_locked now u || negb (us_is_active u) then u else failed_login max_attempts (now + lock_time)%Z u.

Lemma save_same st i u : ac_users st !! i = Some u -> us_id u = i -> save_user st u = st.
Proof. intros Hu <-. unfold save_user, set_users. rewrite insert_id by done. by destruct st. Qed.

Lemma counted st now i u :
  ac_users st !! i = Some u -> us_id u = i ->
  count_failure settings st now u = Ok (save_user st (failed_login max_attempts (now + lock_time)%Z u)).
Proof.
  intros Hu Hi. unfold count_failure. rewrite max_set, lock_set. cbn [mbind res_bind]. f_equal.
  unfold record_failed_login, save_user, set_users. f_equal. cbn. rewrite Hi. apply map_eq. intros j.
  destruct (decide (j = i)) as [->|Hj].
  - by rewrite lookup_alter_eq, lookup_insert_eq, Hu.
  - by rewrite lookup_alter_ne, lookup_insert_ne.
Qed.

Lemma guess_step_row st now i u g :
  users_keyed st -> ac_users st !! i = Some u -> storable_text (us_username u) = true ->
  verify_password (guessed g) (us_password_hash u) = Ok false ->
  guess_step st now u g = save_user st (guess_row now u).
Proof.
  intros Hk Hu Hst Hw. pose proof (key_users st Hk _ _ Hu) as Hi. unfold guess_row.
  destruct g as [p|salt p new]; cbn [guess_step guessed] in *.
  - unfold authenticate_user. rewrite (found_by_username st i u Hk Hu).
    rewrite Hst. cbn [mbind res_bind]. destruct (_ || _).
    + rewrite (save_same st i u Hu Hi). by destruct (verify_password p _FAKE_PASSWORD_HASH).
    + rewrite Hw. cbn [mbind res_bind negb]. by rewrite (counted st now i u Hu Hi).
  - unfold change_password. rewrite Hi, Hu. destruct (_ || _).
    + by rewrite (save_same st i u Hu Hi).
    + by rewrite Hw, (counted st now i u Hu Hi).
Qed.

(** The right password is accepted exactly while the account takes sign-ins. *)
Lemma judged_row right_ strong st now i u g :
  users_keyed st -> ac_users st !! i = Some u -> storable_text (us_username u) = true ->
  verify_password right_ (us_password_hash u) = Ok true -> validate_password_complexity settings strong = Ok None ->
  judged right_ strong st now u g = negb (is_locked now u || negb (us_is_active u)).
Proof.
  intros Hk Hu Hst Hr Hs. pose proof (key_users st Hk _ _ Hu) as Hi. destruct g as [p|salt p new]; cbn [judged].
  - unfold authenticate_user. rewrite (found_by_username st i u Hk Hu), Hst. cbn [mbind res_bind].
    destruct (_ || _); [by destruct (verify_password right_ _FAKE_PASSWORD_HASH)|]. by rewrite Hr.
  - unfold change_password. rewrite Hi, Hu. destruct (_ || _).
    + by destruct (verify_password right_ _FAKE_PASSWORD_HASH).
    + by rewrite Hr, Hs.
Qed.

(** The columns a guess leaves alone. *)
Definition same_account (u v : user) : Prop :=
  us_id v = us_id u /\ us_username v = us_username u /\ us_password_hash v = us_password_hash u /\
  us_is_active v = us_is_active u.

Lemma guess_row_same now u : same_account u (guess_row now u).
Proof. unfold guess_row. by destruct (_ || _). Qed.

Lemma saved_keyed st i u v :
  users_keyed st -> ac_users st !! i = Some u -> same_account u v -> users_keyed (save_user st v).
Proof.
  intros Hk Hu (Hid & Hn & _). pose proof (key_users st Hk _ _ Hu) as Hi.
  assert (Hl : forall j w, ac_users (save_user st v) !! j = Some w ->
            exists w0, ac_users st !! j = Some w0 /\ us_id w = us_id w0 /\ us_username w = us_username w0).
  { intros j w. unfold save_user. cbn. rewrite Hid, Hi. destruct (decide (j = i)) as [->|Hj].
    - rewrite lookup_insert_eq. intros [= <-]. exists u. done.
    - rewrite lookup_insert_ne by done. eauto. }
  split.
  - intros j w (w0 & Hw0 & -> & _)%Hl. by eapply key_users.
  - intros j k w x (w0 & Hw0 & _ & ->)%Hl (x0 & Hx0 & _ & ->)%Hl. by eapply one_username.
Qed.

Lemma run_step st i u0 u now g :
  users_keyed st -> ac_users st !! i = Some u -> same_account u0 u -> storable_text (us_username u0) = true ->
  verify_password (guessed g) (us_password_hash u0) = Ok false ->
  let st' := guess_step st now u0 g in
  users_keyed st' /\ ac_users st' !! i = Some (guess_row now u) /\ same_account u0 (guess_row now u).
Proof.
  intros Hk Hu (Hid & Hn & Hh & Ha) Hst Hw. pose proof (guess_row_same now u) as Hsame.
  assert (Hstep : guess_step st now u0 g = save_user st (guess_row now u)).
  { replace (guess_step st now u0 g) with (guess_step st now u g).
    - apply (guess_step_row st now i); [done..| |]; [by rewrite Hn|by rewrite Hh].
    - destruct g; cbn [guess_step]; by rewrite ?Hn, ?Hid. }
  cbn zeta. rewrite Hstep. split; [by eapply saved_keyed|]. destruct Hsame as (Hid' & Hn' & Hh' & Ha').
  split; [|repeat split; congruence].
  unfold save_user. cbn. rewrite Hid', (key_users st Hk _ _ Hu). by rewrite lookup_insert_eq.
Qed.

Lemma run_rows st i u0 u guesses :
  users_keyed st -> ac_users st !! i = Some u -> same_account u0 u -> storable_text (us_username u0) = true ->
  Forall (fun ng => verify_password (guessed ng.2) (us_password_hash u0) = Ok false) guesses ->
  ac_users (guess_run u0 st guesses) !! i = Some (fold_left (fun u ng => guess_row ng.1 u) guesses u).
Proof.
  revert st u. induction guesses as [|[now g] guesses IH]; intros st u Hk Hu Hs Hst Hw; [done|].
  apply Forall_cons in Hw as [Hw Hws]. destruct (run_step st i u0 u now g Hk Hu Hs Hst Hw) as (Hk' & Hu' & Hs').
  by apply (IH (guess_step st now u0 g)).
Qed.

(** Every judged guess of the run is counted on the row. *)
Lemma judged_counted right_ strong st i u0 u guesses :
  users_keyed st -> ac_users st !! i = Some u -> same_account u0 u -> storable_text (us_username u0) = true ->
  verify_password right_ (us_password_hash u0) = Ok true -> validate_password_complexity settings strong = Ok None ->
  Forall (fun ng => verify_password (guessed ng.2) (us_password_hash u0) = Ok false) guesses ->
  (us_failed_login_attempts u + judged_guesses right_ strong u0 st guesses)%Z
  = us_failed_login_attempts (fold_left (fun u ng => guess_row ng.1 u) guesses u).
Proof.
  intros Hk Hu Hs Hst Hr Hstrong. revert st u Hk Hu Hs.
  induction guesses as [|[now g] guesses IH]; intros st u Hk Hu Hs Hw; [cbn; lia|].
  apply Forall_cons in Hw as [Hw Hws]. destruct (run_step st i u0 u now g Hk Hu Hs Hst Hw) as (Hk' & Hu' & Hs').
  cbn [fold_left judged_guesses fst]. rewrite <- (IH _ _ Hk' Hu' Hs' Hws).
  assert (Hj : judged right_ strong st now u0 g = negb (is_locked now u || negb (us_is_active u))).
  { destruct Hs as (Hid & Hn & Hh & Ha). rewrite <- (judged_row right_ strong st now i u g); try congruence; [|done..].
    destruct g; cbn [judged]; by rewrite ?Hn, ?Hid. }
  rewrite Hj. unfold guess_row. destruct (_ || _); cbn; lia.
Qed.

Lemma rows_bound guesses : forall t0 t1 u,
  adjacent (fun a b : instant * guess => (a.1 <= b.1)%Z) guesses ->
  Forall (fun ng => (t0 <= ng.1 <= t1)%Z) guesses -> (t0 <= t1)%Z ->
  let a := us_failed_login_attempts u in
  let final := us_failed_login_attempts (fold_left (fun u ng => guess_row ng.1 u) guesses u) in
  (final <= a + (Z.max 1 (max_attempts - a) + (t1 - t0) / lock_time))%Z /\
  (forall l, us_locked_until u = Some l -> (max_attempts <= a)%Z ->
     (final <= a + (if (t1 <? l)%Z then 0 else 1 + (t1 - l) / lock_time))%Z).
Proof.
  assert (HD : (0 < lock_time)%Z) by (unfold lock_time, us_per_minute, us_per_second; lia).
  induction guesses as [|[t g] guesses IH]; intros t0 t1 u Hadj Hall Hle a final.
  { subst final. cbn. split; [pose proof (Z.div_pos (t1 - t0) lock_time); lia|]. intros l _ _.
    destruct (Z.ltb_spec t1 l); [lia|]. pose proof (Z.div_pos (t1 - l) lock_time). lia. }
  apply Forall_cons in Hall as [Ht Hall]. cbn [fst] in Ht.
  assert (Hfrom : Forall (fun ng : instant * guess => (t <= ng.1 <= t1)%Z) guesses).
  { clear IH final. revert t g Ht Hadj. induction guesses as [|[s h] guesses IHg]; intros t g Ht Hadj; constructor.
    - apply adjacent_cons in Hadj as [Hh _]. specialize (Hh _ _ eq_refl). apply Forall_cons in Hall as [? _].
      cbn in *. lia.
    - apply adjacent_cons in Hadj as [Hh Hadj]. specialize (Hh _ _ eq_refl). cbn in Hh.
      apply Forall_cons in Hall as [Hs Hall]. cbn in Hs.
      eapply Forall_impl; [apply (IHg Hall s h); [lia|done]|]. cbn. intros; lia. }
  apply adjacent_cons in Hadj as [_ Hadj].
  pose proof (Z.div_le_mono (t1 - t) (t1 - t0) lock_time HD ltac:(lia)) as Hmono.
  pose proof (Z.div_pos (t1 - t) lock_time ltac:(lia) HD) as Hpos.
  subst final. cbn [fold_left fst]. unfold guess_row at 2 4. destruct (is_locked t u || negb (us_is_active u)) eqn:El.
  { destruct (IH t t1 u Hadj Hfrom ltac:(lia)) as [IH1 IH2]. fold a in IH1, IH2. split; [lia|exact IH2]. }
  set (u' := failed_login _ _ u). destruct (IH t t1 u' Hadj Hfrom ltac:(lia)) as [IH1 IH2].
  assert (Ha' : us_failed_login_attempts u' = (a + 1)%Z) by done. rewrite Ha' in IH1, IH2.
  apply orb_false_iff in El as [El _]. unfold is_locked in El.
  destruct (Z.leb_spec max_attempts (a + 1)) as [Hm|Hm].
  - specialize (IH2 (t + lock_time)%Z).
    assert (Hl' : us_locked_until u' = Some (t + lock_time)%Z).
    { unfold u'. cbn. fold a. by rewrite (proj2 (Z.leb_le _ _) Hm). }
    specialize (IH2 Hl' Hm).
    assert (Hfin : (us_failed_login_attempts (fold_left (fun u ng => guess_row ng.1 u) guesses u')
                    <= a + 1 + (t1 - t) / lock_time)%Z).
    { destruct (Z.ltb_spec t1 (t + lock_time)); [lia|].
      replace (t1 - (t + lock_time))%Z with (t1 - t + (-1) * lock_time)%Z in IH2 by lia.
      rewrite Z.div_add in IH2 by lia. lia. }
    split; [lia|]. intros l Hl _. rewrite Hl in El. apply Z.ltb_ge in El.
    destruct (Z.ltb_spec t1 l); [lia|].
    pose proof (Z.div_le_mono (t1 - t) (t1 - l) lock_time HD ltac:(lia)). lia.
  - split; [lia|]. intros l _ Hge. lia.
Qed.
End Budget.

(** C35: However wrong guesses at one account's password are interleaved as sign-ins
    and password changes, those judged against its hash (where the right password
    would have been accepted in their place) are at most the limit still open when
    they began (at least one), and one more for each full lock period they span;
    each of them is counted on the row. *)
Theorem guess_budget max_attempts lock_minutes right_ strong st i u t0 t1 guesses :
  security_int settings "max_failed_attempts" = Ok max_attempts ->
  security_int settings "account_lock_duration_minutes" = Ok lock_minutes -> (0 < lock_minutes)%Z ->
  users_keyed st -> ac_users st !! i = Some u -> storable_text (us_username u) = true -> (t0 <= t1)%Z ->
  verify_password right_ (us_password_hash u) = Ok true -> validate_password_complexity settings strong = Ok None ->
  adjacent (fun a b : instant * guess => (a.1 <= b.1)%Z) guesses ->
  Forall (fun ng => (t0 <= ng.1 <= t1)%Z) guesses ->
  Forall (fun ng => verify_password (guessed ng.2) (us_password_hash u) = Ok false) guesses ->
  (judged_guesses right_ strong u st guesses
     <= Z.max 1 (max_attempts - us_failed_login_attempts u) + (t1 - t0) / lock_time lock_minutes)%Z /\
  exists u', ac_users (guess_run u st guesses) !! i = Some u' /\
    us_password_hash u' = us_password_hash u /\
    us_failed_login_attempts u' = (us_failed_login_attempts u + judged_guesses right_ strong u st guesses)%Z.
Proof.
  intros Hm Hl Hp Hk Hu Hst Ht Hr Hstrong Hadj Hall Hw.
  assert (Hsame : same_account u u) by done.
  pose proof (run_rows max_attempts lock_minutes Hm Hl st i u u guesses Hk Hu Hsame Hst Hw) as Hrun.
  pose proof (judged_counted max_attempts lock_minutes Hm Hl right_ strong st i u u guesses Hk Hu Hsame Hst Hr Hstrong Hw) as Hj.
  destruct (rows_bound max_attempts lock_minutes Hp guesses t0 t1 u Hadj Hall Ht) as [Hb _].
  split; [lia|]. eexists. split; [exact Hrun|]. split; [|done].
  clear. revert u. induction guesses as [|[t g] guesses IH]; intros u; [done|]. cbn [fold_left fst].
  rewrite IH. apply (guess_row_same max_attempts lock_minutes t u).
Qed.

(** ** Who remains *)

#[local] Abbreviation step := (account_step settings).

Lemma by_username_row st n u : get_by_username st n = Some u -> exists i, ac_users st !! i = Some u.
Proof.
  unfold get_by_username. destruct (filter _ _) as [|v l] eqn:E; [done|]. intros [= ->].
  assert (Hu : u ∈ filter (fun v => us_username v = n) (rows (ac_users st))) by (rewrite E; left).
  by apply list_elem_of_filter in Hu as [_ ?%elem_of_rows].
Qed.

(** What one operation does to the users: a row's change takes an active admin
    away only while another is left. *)
Inductive users_change (st : accounts) : gmap uuid user -> Prop :=
  | uc_same : users_change st (ac_users st)
  | uc_saved i u u' : ac_users st !! i = Some u -> us_id u' = us_id u -> us_username u' = us_username u ->
      (is_active_admin u = true -> is_active_admin u' = true \/ count_other_active_admins st (us_id u) <> 0%nat) ->
      users_change st (<[us_id u := u']> (ac_users st))
  | uc_created u : ac_users st !! us_id u = None -> get_by_username st (us_username u) = None ->
      users_change st (<[us_id u := u]> (ac_users st))
  | uc_deleted i u : ac_users st !! i = Some u ->
      (is_active_admin u = true -> count_other_active_admins st (us_id u) <> 0%nat) ->
      users_change st (delete i (ac_users st)).

(** A save that keeps role and activity. *)
Lemma change_saved st i u u' :
  ac_users st !! i = Some u -> us_id u' = us_id u -> us_username u' = us_username u ->
  is_active_admin u' = is_active_admin u -> users_change st (ac_users (save_user st u')).
Proof.
  intros Hu Hi Hn Ha. unfold save_user. cbn. rewrite Hi. eapply uc_saved; [done..|]. rewrite Ha. by left.
Qed.

Lemma remains st u stays v :
  assert_an_active_admin_remains st u stays = Ok v -> is_active_admin u = true ->
  stays = true \/ count_other_active_admins st (us_id u) <> 0%nat.
Proof.
  unfold assert_an_active_admin_remains. intros Hr Ha. rewrite Ha in Hr. cbn in Hr. destruct stays; [by left|].
  destruct (Nat.eqb_spec (count_other_active_admins st (us_id u)) 0); [done|by right].
Qed.

Lemma count_change st now u st' i :
  ac_users st !! i = Some u -> us_id u = i -> count_failure settings st now u = Ok st' ->
  exists v, ac_users st' = <[us_id u := v]> (ac_users st) /\ us_id v = us_id u /\
    us_username v = us_username u /\ is_active_admin v = is_active_admin u.
Proof.
  intros Hu Hi. unfold count_failure. destruct (security_int settings "max_failed_attempts") as [m|]; cbn; [|done].
  destruct (security_int settings "account_lock_duration_minutes") as [d|]; cbn; [|done]. intros [= <-].
  exists (failed_login m (now + d * us_per_minute)%Z u). split; [|done]. cbn. rewrite Hi. apply map_eq. intros j.
  destruct (decide (j = i)) as [->|Hj]; [by rewrite lookup_alter_eq, lookup_insert_eq, Hu|].
  by rewrite lookup_alter_ne, lookup_insert_ne.
Qed.

Lemma count_change_users st now u st' i :
  ac_users st !! i = Some u -> us_id u = i -> count_failure settings st now u = Ok st' -> users_change st (ac_users st').
Proof.
  intros Hu Hi (v & -> & Hid & Hn & Ha)%(count_change st now u st' i Hu Hi).
  eapply uc_saved; [done..|]. rewrite Ha. by left.
Qed.

Lemma sign_in_users st now n p busy r st' :
  users_keyed st -> sign_in st now n p busy = Ok (r, st') -> users_change st (ac_users st').
Proof.
  intros Hk. unfold authenticate_user. destruct (if storable_text n then _ else _) as [[u|]|] eqn:E; cbn [mbind res_bind]; [| |done].
  - assert (Hu : exists i, ac_users st !! i = Some u).
    { destruct (storable_text n); [|done]. destruct busy; [by destruct (verify_password _ _)|].
      injection E as E. by eapply by_username_row. }
    destruct Hu as [i Hu]. pose proof (key_users st Hk _ _ Hu) as Hi.
    destruct (_ || _); [destruct (verify_password p _FAKE_PASSWORD_HASH); cbn; [intros [= _ <-]; constructor|done]|].
    destruct (verify_password p (us_password_hash u)) as [[]|]; cbn [mbind res_bind negb]; [| |done].
    + intros [= _ <-]. by eapply change_saved.
    + destruct (count_failure settings st now u) as [st1|] eqn:Ec; cbn; [|done]. intros [= _ <-].
      by eapply count_change_users.
  - destruct (verify_password p _FAKE_PASSWORD_HASH); cbn; [|done]. intros [= _ <-]. constructor.
Qed.

Lemma change_users st now i salt cur new busy :
  users_keyed st -> users_change st (ac_users (change st now i salt cur new busy).2).
Proof.
  intros Hk. unfold change_password. destruct busy; [constructor|].
  destruct (ac_users st !! i) as [u|] eqn:Hu; [|constructor]. pose proof (key_users st Hk _ _ Hu) as Hi.
  destruct (_ || _); [constructor|]. destruct (verify_password cur (us_password_hash u)) as [[]|]; [| |constructor].
  - destruct (validate_password_complexity settings new) as [[m|]|]; by eapply change_saved.
  - destruct (count_failure settings st now u) as [st1|] eqn:Ec; [|constructor]. by eapply count_change_users.
Qed.

Lemma update_users st now i data r st' :
  users_keyed st -> update_user st now i data = Ok (r, st') -> users_change st (ac_users st').
Proof.
  intros Hk. unfold update_user. destruct (ac_users st !! i) as [u|] eqn:Hu; [|done].
  destruct (assert_an_active_admin_remains _ _ _) as [v|] eqn:Er; cbn [mbind res_bind]; [|done].
  destruct (written (uu_role data) _) as [role|] eqn:Ero; cbn [mbind res_bind]; [|done].
  destruct (written (uu_is_active data) _) as [active|] eqn:Eac; cbn [mbind res_bind]; [|done].
  destruct (written (uu_must_change_password data) _) as [must|]; cbn [mbind res_bind]; [|done]. intros [= _ <-].
  set (u' := User _ _ _ _ _ _ _ _ _ _ _ _ _).
  assert (Hc : users_change st (ac_users (save_user st u'))).
  { unfold save_user. cbn. eapply uc_saved; [done..|]. intros Ha.
    destruct (remains _ _ _ _ Er Ha) as [Hs|]; [left|by right].
    apply andb_true_iff in Hs as [H1%bool_decide_eq_true H2%bool_decide_eq_true]. unfold is_active_admin. cbn.
    destruct (uu_role data) as [[ro|]|], (uu_is_active data) as [[ac|]|]; cbn in *;
      simplify_eq; by rewrite bool_decide_eq_true_2. }
  by destruct (bool_decide (role = us_role u)).
Qed.

Lemma create_session_inv st now id i token ip agent s tok st' :
  create_session settings st now id i token ip agent = Ok (s, tok, st') ->
  exists days, security_int settings "session_lifetime_days" = Ok days /\
    s = Session id i (hash_token token) (now + days * us_per_day)%Z ip agent (Some now) /\
    get_by_token_hash st (hash_token token) = None /\ tok = token /\
    st' = set_sessions st (<[id := s]> (ac_sessions st)).
Proof.
  unfold create_session. destruct (ac_users st !! i); [|done].
  destruct (security_int settings _) as [days|]; cbn; [|done].
  destruct (ac_sessions st !! id); [done|]. destruct (get_by_token_hash st _); [done|]. intros [= <- <- <-]. eauto 10.
Qed.

Lemma create_token_inv st now id i random data t plain st' :
  create_token st now id i random data = Ok (t, plain, st') ->
  plain = TOKEN_PREFIX +:+ random /\ tk_id t = id /\ get_by_hash st (sha256_hex plain) = None /\
  (tk_user_id t = i /\ tk_token_hash t = sha256_hex plain /\ tk_scopes t = tc_scopes data /\
   tk_revoked_at t = None) /\
  st' = set_tokens st (<[id := t]> (ac_tokens st)).
Proof.
  unfold create_token. destruct (ac_users st !! i); [|done]. destruct (ac_tokens st !! id); [done|].
  destruct (get_by_hash st _) eqn:E; [done|]. intros [= <- <- <-]. done.
Qed.

Lemma step_users st now op st' :
  users_keyed st -> step st now op = Ok st' -> users_change st (ac_users st').
Proof.
  intros Hk. destruct op as [n p busy|id i token|token|token|i| |i salt cur new busy|actor i salt new force|actor id salt data
    |actor i data|actor i|actor i|id i random data|id actor role|pt]; cbn [account_step]; intros Hs.
  - destruct (sign_in st now n p busy) as [[r st1]|] eqn:E; [|done]. injection Hs as <-. by eapply sign_in_users.
  - destruct (create_session settings st now id i token None None) as [[[r tok] st1]|] eqn:E; [|done].
    injection Hs as <-. apply create_session_inv in E as (? & ? & ? & ? & ? & ->). exact (uc_same st).
  - injection Hs as <-. unfold verify_session. repeat case_match; exact (uc_same st).
  - injection Hs as <-. unfold logout. repeat case_match; exact (uc_same st).
  - injection Hs as <-. exact (uc_same st).
  - injection Hs as <-. exact (uc_same st).
  - injection Hs as <-. by apply change_users.
  - destruct (require_active_admin st actor); cbn in Hs; [|done]. unfold reset_password in Hs.
    destruct (validate_password_complexity settings new) as [[m|]|]; cbn in Hs; [done| |done].
    destruct (ac_users st !! i) as [u|] eqn:Hu; [|done]. injection Hs as <-. by eapply change_saved.
  - destruct (require_active_admin st actor); cbn in Hs; [|done]. unfold create_user in Hs.
    destruct (validate_password_complexity settings _) as [[m|]|]; cbn in Hs; [done| |done].
    destruct (get_by_username _ _) eqn:En; cbn in Hs; [done|]. destruct (ac_users st !! id) eqn:Ei; cbn in Hs; [done|].
    injection Hs as <-. unfold save_user. by apply uc_created.
  - destruct (require_active_admin st actor); cbn in Hs; [|done].
    destruct (update_user st now i data) as [[r st1]|] eqn:E; cbn in Hs; [|done]. injection Hs as <-.
    by eapply update_users.
  - destruct (require_active_admin st actor); cbn in Hs; [|done]. unfold delete_user in Hs.
    destruct (bool_decide _); [done|]. destruct (ac_users st !! i) as [u|] eqn:Hu; [|done].
    destruct (assert_an_active_admin_remains st u false) eqn:Er; cbn in Hs; [|done]. injection Hs as <-.
    eapply uc_deleted; [exact Hu|]. intros Ha. by destruct (remains _ _ _ _ Er Ha).
  - destruct (require_active_admin st actor); cbn in Hs; [|done]. unfold unlock_user in Hs.
    destruct (ac_users st !! i) as [u|] eqn:Hu; [|done]. injection Hs as <-. by eapply change_saved.
  - destruct (create_token st now id i random data) as [[[r tok] st1]|] eqn:E; [|done].
    injection Hs as <-. apply create_token_inv in E as (? & ? & ? & ? & ->). exact (uc_same st).
  - unfold revoke_token in Hs. destruct (ac_tokens st !! id) as [t|]; [|done].
    destruct (_ && _); [done|]. destruct (tk_revoked_at t); injection Hs as <-; exact (uc_same st).
  - injection Hs as <-. unfold authenticate. repeat case_match; exact (uc_same st).
Qed.

(** The services over time; the clock of one operation is as it comes. *)
Definition later (st st' : accounts) : Prop := exists now op, step st now op = Ok st'.

Definition some_admin (st : accounts) : Prop := exists i u, ac_users st !! i = Some u /\ is_active_admin u = true.

Lemma other_admin st i :
  count_other_active_admins st i <> 0%nat ->
  exists j v, ac_users st !! j = Some v /\ us_id v <> i /\ is_active_admin v = true.
Proof.
  unfold count_other_active_admins. destruct (filter _ (filter _ _)) as [|v l] eqn:E; [done|]. intros _.
  assert (Hv : v ∈ filter (fun u => us_id u <> i) (filter (fun u => is_active_admin u = true) (rows (ac_users st))))
    by (rewrite E; left).
  apply list_elem_of_filter in Hv as [Hne [Ha [j Hj]%elem_of_rows]%list_elem_of_filter]. eauto.
Qed.

Lemma no_namesake st n i u : get_by_username st n = None -> ac_users st !! i = Some u -> us_username u <> n.
Proof.
  unfold get_by_username. intros Hn Hu E.
  assert (Hin : u ∈ filter (fun v => us_username v = n) (rows (ac_users st))).
  { apply list_elem_of_filter. split; [done|]. apply elem_of_rows. eauto. }
  destruct (filter _ _); [by apply elem_of_nil in Hin|done].
Qed.

Lemma users_change_keyed st st' : users_keyed st -> users_change st (ac_users st') -> users_keyed st'.
Proof.
  intros [Hk Hn] Hc. inversion Hc as [E|i u u' Hu Hid Hname _ E|u Hu Hfree E|i u Hu _ E].
  - split; rewrite <- E; eauto.
  - assert (Hl : forall j w, ac_users st' !! j = Some w ->
              exists w0, ac_users st !! j = Some w0 /\ us_id w = us_id w0 /\ us_username w = us_username w0).
    { intros j w. rewrite <- E. rewrite (Hk _ _ Hu). destruct (decide (j = i)) as [->|Hj].
      - rewrite lookup_insert_eq. intros [= <-]. eauto.
      - rewrite lookup_insert_ne by done. eauto. }
    split.
    + intros j w (w0 & Hw0 & -> & _)%Hl. by apply Hk.
    + intros j k w x (w0 & Hw0 & _ & ->)%Hl (x0 & Hx0 & _ & ->)%Hl. by eapply Hn.
  - assert (Hl : forall j w, ac_users st' !! j = Some w ->
              j = us_id u /\ w = u \/ j <> us_id u /\ ac_users st !! j = Some w).
    { intros j w. rewrite <- E. destruct (decide (j = us_id u)) as [->|Hj].
      - rewrite lookup_insert_eq. intros [= <-]. by left.
      - rewrite lookup_insert_ne by done. by right. }
    split.
    + intros j w [[-> ->]|[_ Hw]]%Hl; [done|by apply Hk].
    + intros j k w x [[-> ->]|[_ Hw]]%Hl [[-> ->]|[_ Hx]]%Hl Hwx; [done| | |by eapply Hn].
      * exfalso. by eapply no_namesake.
      * exfalso. symmetry in Hwx. by eapply no_namesake.
  - split; rewrite <- E.
    + intros j w [_ Hw]%lookup_delete_Some. by apply Hk.
    + intros j k w x [_ Hw]%lookup_delete_Some [_ Hx]%lookup_delete_Some. by eapply Hn.
Qed.

Lemma users_change_admin st st' : users_keyed st -> users_change st (ac_users st') -> some_admin st -> some_admin st'.
Proof.
  intros Hk Hc (j & v & Hj & Ha). pose proof (key_users st Hk) as Hid. unfold some_admin.
  destruct Hc as [|i u u' Hu Hi Hname Hadm|u Hu Hfree|i u Hu Hadm].
  - eauto.
  - destruct (decide (j = us_id u)) as [->|Hne].
    + rewrite (Hid _ _ Hu) in Hj. rewrite Hu in Hj. injection Hj as <-.
      destruct (Hadm Ha) as [Ha'|(k & w & Hw & Hwn & Hwa)%other_admin].
      * exists (us_id u), u'. by rewrite lookup_insert_eq.
      * exists k, w. rewrite lookup_insert_ne; [done|]. intros E'. by rewrite (Hid _ _ Hw) in Hwn.
    + exists j, v. by rewrite lookup_insert_ne.
  - exists j, v. rewrite lookup_insert_ne; [done|]. intros <-. congruence.
  - destruct (decide (j = i)) as [->|Hne].
    + rewrite Hu in Hj. injection Hj as <-. destruct (other_admin _ _ (Hadm Ha)) as (k & w & Hw & Hwn & Hwa).
      exists k, w. rewrite lookup_delete_ne; [done|]. intros <-. by rewrite (Hid _ _ Hw), (Hid _ _ Hu) in Hwn.
    + exists j, v. by rewrite lookup_delete_ne.
Qed.

Lemma later_keyed st st' : later st st' -> users_keyed st -> users_keyed st'.
Proof. intros (now & op & Hs) Hk. by eapply users_change_keyed, step_users. Qed.

(** C33: once there is an active admin there always is one: no sequence of
    sign-ins, lockouts, role changes, deactivations, deletions and resets leaves
    the installation without anyone to manage it; and usernames stay distinct. *)
Theorem an_admin_remains st st' :
  users_keyed st -> some_admin st -> star later st st' -> users_keyed st' /\ some_admin st'.
Proof.
  intros Hk Ha Hs. eapply (star_invariant later (fun st => users_keyed st /\ some_admin st)); [|exact Hs|done].
  intros x y Hxy [Hx Hxa]. split; [by eapply later_keyed|]. destruct Hxy as (now & op & Hop).
  by eapply users_change_admin, Hxa; [|by eapply step_users].
Qed.

(** ** What a password's end takes along *)

Lemma by_token_row st h s : get_by_token_hash st h = Some s -> ss_token_hash s = h /\ exists i, ac_sessions st !! i = Some s.
Proof.
  unfold get_by_token_hash. destruct (filter _ _) as [|v l] eqn:E; [done|]. intros [= ->].
  assert (Hu : s ∈ filter (fun v => ss_token_hash v = h) (rows (ac_sessions st))) by (rewrite E; left).
  by apply list_elem_of_filter in Hu as [? ?%elem_of_rows].
Qed.

Lemma by_hash_row st h t : get_by_hash st h = Some t -> tk_token_hash t = h /\ exists i, ac_tokens st !! i = Some t.
Proof.
  unfold get_by_hash. destruct (filter _ _) as [|v l] eqn:E; [done|]. intros [= ->].
  assert (Hu : t ∈ filter (fun v => tk_token_hash v = h) (rows (ac_tokens st))) by (rewrite E; left).
  by apply list_elem_of_filter in Hu as [? ?%elem_of_rows].
Qed.

(** Nothing of [user_id]'s outlives [now]: sessions run out by then, tokens are
    revoked. *)
Definition ended (user_id : uuid) (now : instant) (st : accounts) : Prop :=
  (forall i s, ac_sessions st !! i = Some s -> ss_user_id s = user_id -> (ss_expires_at s <= now)%Z) /\
  (forall i t, ac_tokens st !! i = Some t -> tk_user_id t = user_id -> tk_revoked_at t <> None).

(** A new credential of the user's. *)
Definition mints (user_id : uuid) (op : account_op) : bool :=
  match op with
  | OpSession _ i _ | OpCreateToken _ i _ _ => bool_decide (i = user_id)
  | _ => false
  end.

Lemma ended_after user_id now st : ended user_id now (end_credentials st now user_id).
Proof.
  unfold end_credentials, revoke_all_for_user, logout_all_sessions. split; cbn.
  - intros i s [Hs Hn]%map_lookup_filter_Some Hu. cbn in Hn. unfold active_session_of in Hn. lia.
  - intros i t Ht Hu. rewrite lookup_fmap in Ht. destruct (ac_tokens st !! i) as [t0|]; cbn in Ht; [|done].
    injection Ht as <-. destruct (bool_decide_reflect (unrevoked_of user_id t0)) as [|Hn]; [done|].
    intros Hr. apply Hn. by split.
Qed.

(** Rows kept, lost or stamped: nobody gains a credential. *)
Definition nothing_minted (st st' : accounts) : Prop :=
  (forall i s, ac_sessions st' !! i = Some s -> exists j s0, ac_sessions st !! j = Some s0 /\
     ss_user_id s = ss_user_id s0 /\ ss_expires_at s = ss_expires_at s0) /\
  (forall i t, ac_tokens st' !! i = Some t -> exists j t0, ac_tokens st !! j = Some t0 /\
     tk_user_id t = tk_user_id t0 /\ (tk_revoked_at t0 <> None -> tk_revoked_at t <> None)).

Lemma ended_mono user_id now st st' : nothing_minted st st' -> ended user_id now st -> ended user_id now st'.
Proof.
  intros [Hs Ht] [H1 H2]. split.
  - intros i s (j & s0 & Hj & -> & ->)%Hs. by eapply H1.
  - intros i t (j & t0 & Hj & -> & Hr)%Ht Hu. by eapply Hr, H2.
Qed.

Lemma minted_same st st' : ac_sessions st' = ac_sessions st -> ac_tokens st' = ac_tokens st -> nothing_minted st st'.
Proof. intros Hs Ht. split; [rewrite Hs|rewrite Ht]; eauto 10. Qed.

(** Any table of fewer sessions, and the same tokens. *)
Lemma minted_filter st st' (P : uuid * session -> Prop) `{!forall kv, Decision (P kv)} (Q : uuid * api_token -> Prop)
    `{!forall kv, Decision (Q kv)} :
  ac_sessions st' = filter P (ac_sessions st) -> ac_tokens st' = filter Q (ac_tokens st) -> nothing_minted st st'.
Proof.
  intros Hs Ht. split; [rewrite Hs|rewrite Ht].
  - intros i s [Hi _]%map_lookup_filter_Some. eauto.
  - intros i t [Hi _]%map_lookup_filter_Some. eauto 10.
Qed.

Lemma minted_logout_all st now i : nothing_minted st (logout_all_sessions st now i).2.
Proof. split; cbn; [intros j s [Hj _]%map_lookup_filter_Some; eauto|eauto 10]. Qed.

Lemma minted_revoke_all st now i : nothing_minted st (revoke_all_for_user st now i).2.
Proof.
  split; cbn; [eauto|]. intros j t Ht. rewrite lookup_fmap in Ht.
  destruct (ac_tokens st !! j) as [t0|] eqn:E; cbn in Ht; [|done]. injection Ht as <-. exists j, t0. split; [done|].
  by destruct (bool_decide _).
Qed.

Lemma minted_trans st1 st2 st3 : nothing_minted st1 st2 -> nothing_minted st2 st3 -> nothing_minted st1 st3.
Proof.
  intros [H1 H2] [H3 H4]. split.
  - intros i s (j & s0 & Hj & -> & ->)%H3. apply H1 in Hj as (k & s1 & Hk & -> & ->). eauto.
  - intros i t (j & t0 & Hj & -> & Hr)%H4. apply H2 in Hj as (k & t1 & Hk & -> & Hr'). eauto 10.
Qed.

Lemma minted_end st now i u : nothing_minted st (end_credentials (save_user st u) now i).
Proof.
  eapply minted_trans; [|apply minted_revoke_all]. eapply minted_trans; [|apply minted_logout_all]. by apply minted_same.
Qed.

Lemma count_tables st now u st' :
  count_failure settings st now u = Ok st' -> ac_sessions st' = ac_sessions st /\ ac_tokens st' = ac_tokens st.
Proof.
  unfold count_failure. destruct (security_int settings "max_failed_attempts"); cbn; [|done].
  destruct (security_int settings "account_lock_duration_minutes"); cbn; [|done]. by intros [= <-].
Qed.

Lemma sign_in_tables st now n p busy r st' :
  sign_in st now n p busy = Ok (r, st') -> ac_sessions st' = ac_sessions st /\ ac_tokens st' = ac_tokens st.
Proof.
  unfold authenticate_user. destruct (if storable_text n then _ else _) as [[u|]|]; cbn [mbind res_bind]; [| |done].
  - destruct (_ || _); [destruct (verify_password p _FAKE_PASSWORD_HASH); cbn; [by intros [= _ <-]|done]|].
    destruct (verify_password p (us_password_hash u)) as [[]|]; cbn [mbind res_bind negb]; [by intros [= _ <-]| |done].
    destruct (count_failure settings st now u) eqn:E; cbn; [|done]. intros [= _ <-]. by eapply count_tables.
  - destruct (verify_password p _FAKE_PASSWORD_HASH); cbn; [|done]. by intros [= _ <-].
Qed.

Lemma minted_change st now i salt cur new busy : nothing_minted st (change st now i salt cur new busy).2.
Proof.
  unfold change_password. destruct busy; [by apply minted_same|].
  destruct (ac_users st !! i) as [u|]; [|by apply minted_same].
  destruct (_ || _); [by apply minted_same|].
  destruct (verify_password cur (us_password_hash u)) as [[]|]; [| |by apply minted_same].
  - destruct (validate_password_complexity settings new) as [[m|]|]; cbn [snd];
      [by apply minted_same|apply minted_end|by apply minted_same].
  - destruct (count_failure settings st now u) eqn:E; cbn [snd]; [|by apply minted_same].
    apply count_tables in E as [? ?]. by apply minted_same.
Qed.

Lemma minted_verify st now token : nothing_minted st (verify_session st now token).2.
Proof.
  unfold verify_session. destruct (get_by_token_hash _ _) as [s|] eqn:E; [|by apply minted_same].
  destruct (is_valid st now s); [|by apply minted_same]. apply by_token_row in E as [_ [j Hj]].
  split; cbn; [|eauto 10]. intros i s'. destruct (decide (i = ss_id s)) as [->|Hi].
  - rewrite lookup_insert_eq. intros [= <-]. eauto.
  - rewrite lookup_insert_ne by done. eauto.
Qed.

Lemma minted_stamp st i t t' :
  (exists j, ac_tokens st !! j = Some t) -> tk_user_id t' = tk_user_id t ->
  (tk_revoked_at t <> None -> tk_revoked_at t' <> None) ->
  nothing_minted st (set_tokens st (<[i := t']> (ac_tokens st))).
Proof.
  intros [j Hj] Hu Hr. split; cbn; [eauto|]. intros k x. destruct (decide (k = i)) as [->|Hi].
  - rewrite lookup_insert_eq. intros [= <-]. eauto 10.
  - rewrite lookup_insert_ne by done. eauto 10.
Qed.

Lemma minted_authenticate st now plain : nothing_minted st (authenticate st now plain).2.
Proof.
  unfold authenticate. destruct (negb _); [by apply minted_same|].
  destruct (get_by_hash _ _) as [t|] eqn:E; [|by apply minted_same]. apply by_hash_row in E as [_ Hj].
  destruct (_ || _); [by apply minted_same|]. destruct (ac_users st !! tk_user_id t) as [u|]; [|by apply minted_same].
  destruct (_ || _); [by apply minted_same|]. by eapply minted_stamp.
Qed.

(** An operation mints for one user at most, and says so. *)
Lemma step_ended user_id now0 st now op st' :
  mints user_id op = false -> step st now op = Ok st' -> ended user_id now0 st -> ended user_id now0 st'.
Proof.
  intros Hm Hs He.
  destruct op as [n p busy|id i token|token|token|i| |i salt cur new busy|actor i salt new force|actor id salt data
    |actor i data|actor i|actor i|id i random data|id actor role|pt]; cbn [account_step] in Hs;
    try (destruct (require_active_admin st actor); cbn in Hs; [|done]).
  2: { destruct (create_session settings st now id i token None None) as [[[r tok] st1]|] eqn:E; [|done].
       injection Hs as <-. apply create_session_inv in E as (days & _ & -> & _ & _ & ->).
       cbn in Hm. apply bool_decide_eq_false in Hm. destruct He as [H1 H2]. split; cbn; [|exact H2].
       intros j s. destruct (decide (j = id)) as [->|Hj]; [rewrite lookup_insert_eq; by intros [= <-]|].
       rewrite lookup_insert_ne by done. apply H1. }
  12: { destruct (create_token st now id i random data) as [[[r tok] st1]|] eqn:E; [|done].
       injection Hs as <-. apply create_token_inv in E as (_ & _ & _ & (Hu & _) & ->).
       cbn in Hm. apply bool_decide_eq_false in Hm. destruct He as [H1 H2]. split; cbn; [exact H1|].
       intros j t. destruct (decide (j = id)) as [->|Hj]; [rewrite lookup_insert_eq; intros [= <-]; congruence|].
       rewrite lookup_insert_ne by done. apply H2. }
  all: apply (ended_mono user_id now0 st); [|exact He].
  - destruct (sign_in st now n p busy) as [[r st1]|] eqn:E; [|done]. injection Hs as <-.
    apply sign_in_tables in E as [? ?]. by apply minted_same.
  - injection Hs as <-. apply minted_verify.
  - injection Hs as <-. unfold logout. destruct (get_by_token_hash _ _); [|by apply minted_same].
    split; cbn; [intros j x [_ Hj]%lookup_delete_Some; eauto|eauto 10].
  - injection Hs as <-. apply minted_logout_all.
  - injection Hs as <-. split; cbn; [intros j x [Hj _]%map_lookup_filter_Some; eauto|eauto 10].
  - injection Hs as <-. apply minted_change.
  - unfold reset_password in Hs. destruct (validate_password_complexity settings new) as [[m|]|]; cbn in Hs; [done| |done].
    destruct (ac_users st !! i) as [u|]; [|done]. injection Hs as <-. apply minted_end.
  - destruct (create_user settings st now id salt data None) as [[r st1]|] eqn:E; [|done]. injection Hs as <-.
    unfold create_user in E. destruct (validate_password_complexity settings _) as [[m|]|]; cbn in E; [done| |done].
    destruct (get_by_username _ _), (ac_users st !! id); try done. injection E as _ <-. by apply minted_same.
  - destruct (update_user st now i data) as [[r st1]|] eqn:E; [|done]. injection Hs as <-.
    unfold update_user in E. destruct (ac_users st !! i) as [u|]; [|done].
    destruct (assert_an_active_admin_remains _ _ _); cbn [mbind res_bind] in E; [|done].
    destruct (written (uu_role data) _); cbn [mbind res_bind] in E; [|done].
    destruct (written (uu_is_active data) _); cbn [mbind res_bind] in E; [|done].
    destruct (written (uu_must_change_password data) _); cbn [mbind res_bind] in E; [|done].
    injection E as _ <-. destruct (bool_decide _); [by apply minted_same|].
    refine (minted_trans _ (save_user st _) _ _ (minted_logout_all (save_user st _) now i)). by apply minted_same.
  - unfold delete_user in Hs. destruct (bool_decide _); [done|]. destruct (ac_users st !! i) as [u|]; [|done].
    destruct (assert_an_active_admin_remains _ _ _); cbn in Hs; [|done]. injection Hs as <-. by eapply minted_filter.
  - unfold unlock_user in Hs. destruct (ac_users st !! i); [|done]. injection Hs as <-. by apply minted_same.
  - unfold revoke_token in Hs. destruct (ac_tokens st !! id) as [t|] eqn:Et; [|done].
    destruct (_ && _); [done|]. destruct (tk_revoked_at t) eqn:Er; injection Hs as <-; [by apply minted_same|].
    eapply minted_stamp; [eauto|done|done].
  - injection Hs as <-. apply minted_authenticate.
Qed.

(** Later, with nothing minted for the user. *)
Definition later_unminted (user_id : uuid) (st st' : accounts) : Prop :=
  exists now op, mints user_id op = false /\ step st now op = Ok st'.

(** A password change or reset that went through. *)
Definition password_replaced (st : accounts) (now : instant) (user_id : uuid) (st' : accounts) : Prop :=
  (exists salt cur new, change st now user_id salt cur new false = (Ok tt, st')) \/
  (exists salt new force, reset_password settings st now user_id salt new force = Ok st').

Lemma replaced_ended st now i st' : password_replaced st now i st' -> ended i now st'.
Proof.
  intros [(salt & cur & new & Hc)|(salt & new & force & Hr)].
  - unfold change_password in Hc. destruct (ac_users st !! i) as [u|]; [|done].
    destruct (_ || _); [by destruct (verify_password cur _FAKE_PASSWORD_HASH)|].
    destruct (verify_password cur (us_password_hash u)) as [[]|]; [| |done].
    + destruct (validate_password_complexity settings new) as [[m|]|]; [done| |done].
      injection Hc as <-. exact (ended_after i now (save_user st _)).
    + by destruct (count_failure settings st now u).
  - unfold reset_password in Hr. destruct (validate_password_complexity settings new) as [[m|]|]; cbn in Hr; [done| |done].
    destruct (ac_users st !! i); [|done]. injection Hr as <-. exact (ended_after i now (save_user st _)).
Qed.

(** a password's change or reset ends everything obtained under the old one:
    through any sequence of later operations that hands the user no new session
    or token, no session token verifies as the user's and no API token acts as
    them, whenever it was issued and whatever its expiry. *)
Theorem password_ends_credentials st now i st1 st2 now2 :
  users_keyed st1 -> password_replaced st now i st1 -> star (later_unminted i) st1 st2 -> (now < now2)%Z ->
  (forall token s st3, verify_session st2 now2 token = (Some s, st3) -> ss_user_id s <> i) /\
  (forall plain p st3, authenticate st2 now2 plain = (Some p, st3) -> pr_user_id p <> i).
Proof.
  intros Hk Hr Hs Hlt.
  assert (Hinv : users_keyed st2 /\ ended i now st2).
  { eapply (star_invariant (later_unminted i) (fun st => users_keyed st /\ ended i now st)); [|exact Hs|].
    - intros x y (t & op & Hm & Hop) [Hx He]. split; [by eapply users_change_keyed, step_users|by eapply step_ended].
    - split; [done|by eapply replaced_ended]. }
  destruct Hinv as [Hk2 [Hse Hto]]. split.
  - intros token s st3 Hv Hu. unfold verify_session in Hv.
    destruct (get_by_token_hash st2 _) as [s0|] eqn:E; [|done]. apply by_token_row in E as [_ [j Hj]].
    destruct (is_valid st2 now2 s0) eqn:Ev; [|done]. injection Hv as <- _. cbn in Hu.
    pose proof (Hse _ _ Hj Hu) as Hexp. unfold is_valid, is_expired in Ev.
    by rewrite (proj2 (Z.ltb_lt _ _)) in Ev by lia.
  - intros plain p st3 Ha Hu. unfold authenticate in Ha. destruct (negb _); [done|].
    destruct (get_by_hash st2 _) as [t|] eqn:E; [|done]. apply by_hash_row in E as [_ [j Hj]].
    destruct (_ || _) eqn:Eo; [done|]. destruct (ac_users st2 !! tk_user_id t) as [u|] eqn:Eu; [|done].
    destruct (_ || us_must_change_password u); [done|]. injection Ha as <- _. cbn in Hu.
    rewrite (key_users st2 Hk2 _ _ Eu) in Hu. apply orb_false_iff in Eo as [Eo _].
    apply bool_decide_eq_false in Eo. by apply Eo, (Hto j).
Qed.

(** ** Round trips *)

Lemma session_found st id s :
  get_by_token_hash st (ss_token_hash s) = None ->
  get_by_token_hash (set_sessions st (<[id := s]> (ac_sessions st))) (ss_token_hash s) = Some s.
Proof.
  intros Hn. set (st' := set_sessions _ _).
  assert (Hin : s ∈ filter (fun v => ss_token_hash v = ss_token_hash s) (rows (ac_sessions st'))).
  { apply list_elem_of_filter. split; [done|]. apply elem_of_rows. exists id. cbn. by rewrite lookup_insert_eq. }
  unfold get_by_token_hash at 1. destruct (filter _ (rows (ac_sessions st'))) as [|v l] eqn:E; [by apply elem_of_nil in Hin|].
  assert (Hv : v ∈ filter (fun v => ss_token_hash v = ss_token_hash s) (rows (ac_sessions st'))) by (rewrite E; left).
  apply list_elem_of_filter in Hv as [Hh [j Hj]%elem_of_rows]. cbn in Hj |- *.
  destruct (decide (j = id)) as [->|Hne]; [rewrite lookup_insert_eq in Hj; congruence|].
  rewrite lookup_insert_ne in Hj by done. exfalso. unfold get_by_token_hash in Hn.
  assert (Hv : v ∈ filter (fun v => ss_token_hash v = ss_token_hash s) (rows (ac_sessions st))).
  { apply list_elem_of_filter. split; [done|]. apply elem_of_rows. eauto. }
  destruct (filter _ (rows (ac_sessions st))); [by apply elem_of_nil in Hv|done].
Qed.

Lemma token_found st id t :
  get_by_hash st (tk_token_hash t) = None ->
  get_by_hash (set_tokens st (<[id := t]> (ac_tokens st))) (tk_token_hash t) = Some t.
Proof.
  intros Hn. set (st' := set_tokens _ _).
  assert (Hin : t ∈ filter (fun v => tk_token_hash v = tk_token_hash t) (rows (ac_tokens st'))).
  { apply list_elem_of_filter. split; [done|]. apply elem_of_rows. exists id. cbn. by rewrite lookup_insert_eq. }
  unfold get_by_hash at 1. destruct (filter _ (rows (ac_tokens st'))) as [|v l] eqn:E; [by apply elem_of_nil in Hin|].
  assert (Hv : v ∈ filter (fun v => tk_token_hash v = tk_token_hash t) (rows (ac_tokens st'))) by (rewrite E; left).
  apply list_elem_of_filter in Hv as [Hh [j Hj]%elem_of_rows]. cbn in Hj |- *.
  destruct (decide (j = id)) as [->|Hne]; [rewrite lookup_insert_eq in Hj; congruence|].
  rewrite lookup_insert_ne in Hj by done. exfalso. unfold get_by_hash in Hn.
  assert (Hv : v ∈ filter (fun v => tk_token_hash v = tk_token_hash t) (rows (ac_tokens st))).
  { apply list_elem_of_filter. split; [done|]. apply elem_of_rows. eauto. }
  destruct (filter _ (rows (ac_tokens st))); [by apply elem_of_nil in Hv|done].
Qed.

(** The token a session was created with verifies as that session to the end
    of its lifetime, its last instant included, exactly while the user is active
    and not locked. *)
Theorem session_roundtrip st now id i token ip agent s tok st1 now' u :
  create_session settings st now id i token ip agent = Ok (s, tok, st1) -> ac_users st1 !! i = Some u ->
  (verify_session st1 now' tok).1 =
    if (now' <=? ss_expires_at s)%Z && us_is_active u && negb (is_locked now' u) then Some (touched now' s) else None.
Proof.
  intros Hc Hu. apply create_session_inv in Hc as (days & _ & Hs & Hfree & -> & ->).
  assert (Hh : hash_token token = ss_token_hash s) by (by rewrite Hs).
  assert (Hi : ss_user_id s = i) by (by rewrite Hs). clear Hs. unfold verify_session. rewrite Hh in Hfree |- *.
  rewrite session_found by done. unfold is_valid, is_expired. rewrite Hi. cbn in Hu |- *. rewrite Hu.
  destruct (Z.leb_spec now' (ss_expires_at s)).
  - rewrite (proj2 (Z.ltb_ge _ _)) by lia. cbn [andb]. by destruct (us_is_active u && negb (is_locked now' u)).
  - by rewrite (proj2 (Z.ltb_lt _ _)) by lia.
Qed.

Lemma partition_bearer token : partition_space ("Bearer " +:+ token) = ("Bearer", token).
Proof. reflexivity. Qed.

Lemma prefix_app p s : startswith p (p +:+ s) = true.
Proof.
  unfold startswith. induction p as [|c p IH]; [by destruct s|].
  change (String.prefix (String c p) (String c (p +:+ s)) = true). cbn. by destruct (ascii_dec c c).
Qed.

(** an API token, sent as a bearer token, acts as its user, with the role the
    user has now and the scopes it was created with, exactly while it has not
    expired and the user is active and owes no password change. *)
Theorem token_roundtrip st now id i random data t plain st1 now' u :
  users_keyed st1 -> create_token st now id i random data = Ok (t, plain, st1) -> all_chars not_space random ->
  ac_users st1 !! i = Some u ->
  fst <$> require_api_user st1 now' (Some ("Bearer " +:+ plain)) =
    if negb match tk_expires_at t with Some e => (e <=? now')%Z | None => false end
       && us_is_active u && negb (us_must_change_password u)
    then Ok {| pr_user_id := i; pr_role := us_role u; pr_token_id := id; pr_token_name := tk_name t;
               pr_token_expires_at := tk_expires_at t; pr_scopes := tc_scopes data |}
    else Raise (HTTPException 401 "").
Proof.
  intros Hk Hc Hr Hu. apply create_token_inv in Hc as (-> & Hid & Hfree & (Htu & Hh & Hsc & Hrv) & ->).
  unfold require_api_user. change (default "" (Some ("Bearer " +:+ TOKEN_PREFIX +:+ random))) with ("Bearer " +:+ TOKEN_PREFIX +:+ random).
  rewrite partition_bearer. change (String.eqb (lower "Bearer") "bearer") with true. cbn iota.
  rewrite strip_word by (apply all_chars_app; [by repeat split|done]).
  unfold authenticate. rewrite prefix_app. cbn [negb]. rewrite <- Hh in Hfree |- *. rewrite token_found by done.
  rewrite Hrv, bool_decide_eq_false_2 by tauto. cbn [orb]. rewrite Htu, Hu.
  destruct (match tk_expires_at t with Some e => (e <=? now')%Z | None => false end); [done|]. cbn [negb andb].
  destruct (us_is_active u); cbn [negb orb andb]; [|done]. destruct (us_must_change_password u); [done|]. cbn.
  by rewrite Hsc, (key_users _ Hk _ _ Hu), Hid.
Qed.

Lemma valid_password_length password :
  validate_password_complexity settings password = Ok None -> (String.length password <= 72)%nat.
Proof.
  unfold validate_password_complexity. destruct (as_int _) as [m|]; cbn [mbind res_bind]; [|done].
  destruct (_ <? _)%Z; [done|]. destruct (Nat.ltb_spec MAX_SECRET_BYTES (String.length password)); [done|].
  intros _. done.
Qed.

(** A password an admin resets an account to is the one that signs it in from
    then on, whatever lock or failures it had, as long as the account is
    active. *)
Theorem reset_signs_in `{!BcryptLaws} st now i salt new force st1 now' u :
  users_keyed st -> reset_password settings st now i salt new force = Ok st1 ->
  ac_users st1 !! i = Some u -> us_is_active u = true -> storable_text (us_username u) = true ->
  exists u' st2, sign_in st1 now' (us_username u) new false = Ok (Some u', st2) /\ us_id u' = i /\
    us_must_change_password u' = force /\ us_failed_login_attempts u' = 0%Z.
Proof.
  intros Hk Hr Hu Hact Hst. unfold reset_password in Hr.
  destruct (validate_password_complexity settings new) as [[m|]|] eqn:Ev; cbn in Hr; [done| |done].
  destruct (ac_users st !! i) as [u0|] eqn:Hu0; [|done]. injection Hr as Hr.
  pose proof (key_users st Hk _ _ Hu0) as Hi.
  assert (Hk1 : users_keyed st1).
  { apply (users_change_keyed st); [done|]. subst st1. by eapply change_saved. }
  set (v := unlocked _) in Hr.
  assert (Hv : ac_users st1 !! i = Some v).
  { subst st1. change (<[us_id u0 := v]> (ac_users st) !! i = Some v). by rewrite Hi, lookup_insert_eq. }
  rewrite Hv in Hu. injection Hu as <-.
  unfold authenticate_user. rewrite Hst. rewrite (found_by_username st1 i v Hk1 Hv). cbn [mbind res_bind].
  change (is_locked now' v) with false. rewrite Hact. cbn [orb negb].
  unfold verify_password, bcrypt_matches, hash_password. change (us_password_hash v) with (hashpw salt new).
  pose proof (valid_password_length new Ev) as Hl.
  rewrite (proj2 (Nat.ltb_ge _ _)) by exact Hl. rewrite checkpw_hashpw by done. cbn [mbind res_bind negb].
  eexists _, _. split; [done|]. split; [|done]. exact Hi.
Qed.

(** The verdict on a new password never depends on the stored settings: the
    dictionary the policy is read from has none of its keys, so the minimum
    length and the other rules an admin configures are ignored and the defaults
    apply. *)
Theorem password_policy_ignored password :
  validate_password_complexity settings password = validate_password_complexity ∅ password.
Proof. reflexivity. Qed.
End Properties.

(** ** The theorems at concrete accounts

    Two active admins, 1 and 2; the first has a session and a token. *)

#[local] Existing Instance plain_runtime.
#[local] Existing Instance plain_bcrypt.

Definition demo_user (id : uuid) (name : string) : user :=
  User id name (String "$" "Passw0rdX") ADMIN true None 0 None None 0 None false None.

Definition demo_session : session := Session 50 1 (hash_token "tok") (9 * us_per_day) None None None.

Definition demo_token : api_token :=
  ApiToken 60 1 "ci" (sha256_hex (TOKEN_PREFIX +:+ "abc")) "lxs_api_abc" ["checks:read"] 0 None None None.

Definition demo_accounts : accounts :=
  Accounts (<[1%N := demo_user 1 "ann"]> {[ 2%N := demo_user 2 "bob" ]}) {[ 50%N := demo_session ]}
    {[ 60%N := demo_token ]}.

Definition two_users : accounts := set_tokens (set_sessions demo_accounts ∅) ∅.

Lemma demo_users_keyed ss ts : users_keyed (set_tokens (set_sessions demo_accounts ss) ts).
Proof.
  split.
  - intros i u Hu. cbn in Hu. by table_rows Hu.
  - intros i j u v Hu Hv. cbn in Hu, Hv. table_rows Hu; by table_rows Hv.
Qed.

(** The state after a step that returns. *)
Definition stepped (st : accounts) (now : instant) (op : account_op) : accounts :=
  value_of st (account_step ∅ st now op).

(** Seven guesses at a fresh account with a limit of five. *)
Definition seven_guesses : list (instant * guess) :=
  [(0, GuessSignIn "a"); (1, GuessChange "s" "b" "New"); (2, GuessSignIn "c"); (3, GuessChange "s" "d" "New");
   (4, GuessChange "s" "e" "New"); (5, GuessSignIn "f"); (6, GuessChange "s" "g" "New")]%Z.

Lemma guess_budget_witness :
  judged_guesses ∅ "Passw0rdX" "N3wPassword" (demo_user 1 "ann") demo_accounts seven_guesses = 5%Z /\
  (judged_guesses ∅ "Passw0rdX" "N3wPassword" (demo_user 1 "ann") demo_accounts seven_guesses <= 5)%Z.
Proof.
  split; [vm_compute; reflexivity|].
  destruct (guess_budget ∅ 5 30 "Passw0rdX" "N3wPassword" demo_accounts 1 (demo_user 1 "ann") 0 6 seven_guesses)
    as (Hb & _).
  - reflexivity.
  - reflexivity.
  - lia.
  - exact (demo_users_keyed _ _).
  - reflexivity.
  - reflexivity.
  - lia.
  - reflexivity.
  - reflexivity.
  - repeat (apply adjacent_cons; split; [intros y l' E; try discriminate E; injection E as <- _; cbn; lia|]).
    apply adjacent_nil.
  - by repeat constructor.
  - by repeat constructor.
  - etrans; [exact Hb|]. vm_compute. discriminate.
Defined.

Lemma an_admin_remains_witness :
  exists st', star (later ∅) demo_accounts st' /\ some_admin st' /\ ac_users st' !! 2%N = None.
Proof.
  assert (Hs : star (later ∅) demo_accounts (stepped demo_accounts 5 (OpDeleteUser 1 2))).
  { eapply star_step; [|apply star_refl]. exists 5%Z, (OpDeleteUser 1 2). vm_compute. reflexivity. }
  exists (stepped demo_accounts 5 (OpDeleteUser 1 2)). split; [exact Hs|]. split; [|vm_compute; reflexivity].
  apply (an_admin_remains ∅ demo_accounts _ (demo_users_keyed _ _)); [|exact Hs].
  exists 1%N, (demo_user 1 "ann"). split; reflexivity.
Defined.

Lemma password_ends_credentials_witness :
  exists st1 st2, password_replaced ∅ demo_accounts 7 1 st1 /\ star (later_unminted ∅ 1) st1 st2 /\
    (forall p st3, authenticate st2 8 (TOKEN_PREFIX +:+ "abc") = (Some p, st3) -> pr_user_id p <> 1%N) /\
    exists p st3, authenticate demo_accounts 8 (TOKEN_PREFIX +:+ "abc") = (Some p, st3) /\ pr_user_id p = 1%N.
Proof.
  assert (Hr : password_replaced ∅ demo_accounts 7 1
                 (stepped demo_accounts 7 (OpResetPassword 2 1 "s" "N3wPassword" true))).
  { right. exists "s", "N3wPassword", true. vm_compute. reflexivity. }
  assert (Hs : star (later_unminted ∅ 1) (stepped demo_accounts 7 (OpResetPassword 2 1 "s" "N3wPassword" true))
                 (stepped (stepped demo_accounts 7 (OpResetPassword 2 1 "s" "N3wPassword" true)) 8 (OpLogoutAll 2))).
  { eapply star_step; [|apply star_refl]. exists 8%Z, (OpLogoutAll 2). split; vm_compute; reflexivity. }
  eexists _, _. split; [exact Hr|]. split; [exact Hs|]. split.
  - assert (Hk : users_keyed (stepped demo_accounts 7 (OpResetPassword 2 1 "s" "N3wPassword" true))).
    { apply (users_change_keyed demo_accounts); [exact (demo_users_keyed _ _)|].
      apply (step_users ∅ demo_accounts 7 (OpResetPassword 2 1 "s" "N3wPassword" true));
        [exact (demo_users_keyed _ _)|vm_compute; reflexivity]. }
    exact (proj2 (password_ends_credentials ∅ demo_accounts 7 1 _ _ 8 Hk Hr Hs ltac:(lia)) (TOKEN_PREFIX +:+ "abc")).
  - eexists _, _. split; vm_compute; reflexivity.
Defined.

Lemma session_roundtrip_witness :
  exists s tok st1, create_session ∅ two_users 5 51 1 "other" None None = Ok (s, tok, st1) /\
    (verify_session st1 6 tok).1 = Some (touched 6 s) /\
    (verify_session st1 (8 * us_per_day) tok).1 = None.
Proof.
  eexists _, _, _. split; [vm_compute; reflexivity|].
  split; (etrans; [eapply (session_roundtrip ∅ two_users 5 51 1 "other" None None _ _ _ _ (demo_user 1 "ann"));
    [vm_compute; reflexivity..]|vm_compute; reflexivity]).
Defined.

Lemma token_roundtrip_witness :
  exists t plain st1,
    create_token two_users 5 61 2 "r4nd0m" (Build_ApiTokenCreate "ci" (Some 30%Z) ["checks:read"]) = Ok (t, plain, st1) /\
    fst <$> require_api_user st1 6 (Some ("Bearer " +:+ plain)) =
      Ok {| pr_user_id := 2; pr_role := ADMIN; pr_token_id := 61; pr_token_name := "ci";
            pr_token_expires_at := Some (5 + 30 * us_per_day)%Z; pr_scopes := ["checks:read"] |}.
Proof.
  eexists _, _, _. split; [vm_compute; reflexivity|].
  etrans; [eapply (token_roundtrip two_users 5 61 2 "r4nd0m" (Build_ApiTokenCreate "ci" (Some 30%Z) ["checks:read"])
    _ _ _ 6 (demo_user 2 "bob"))|].
  - exact (demo_users_keyed _ _).
  - vm_compute; reflexivity.
  - by repeat split.
  - reflexivity.
  - vm_compute; reflexivity.
Defined.

Lemma reset_signs_in_witness :
  exists st1, reset_password ∅ demo_accounts 7 1 "s" "N3wPassword" true = Ok st1 /\
    exists u' st2, authenticate_user ∅ st1 8 "ann" "N3wPassword" false = Ok (Some u', st2) /\ us_id u' = 1%N /\
      us_must_change_password u' = true /\ us_failed_login_attempts u' = 0%Z.
Proof.
  eexists. split; [vm_compute; reflexivity|].
  eapply (reset_signs_in (H1 := plain_bcrypt_laws) ∅ demo_accounts 7 1 "s" "N3wPassword" true _ 8
    (unlocked (new_password 7 (hash_password "s" "N3wPassword") true (demo_user 1 "ann"))));
    [exact (demo_users_keyed _ _)|reflexivity..].
Defined.
