(* ===== verification/BulkChecks.v ===== *)
(** * Many checks at once

    The rest of [CheckCoreService]
    (apps/backend/app/services/core/check_core_service.py): the bulk change, the
    bulk creation from URLs with the names of services/core/_check_bulk_names.py,
    the import, and the workflows that write a check with its alerts; the export
    of services/core/check_transfer_core_service.py; the selections of
    services/core/admin_check_core_service.py; and the handlers of
    background/maintenance_handlers that run them for a job's owner.

    A savepoint that fails leaves the state it began with.  pydantic's verdicts on
    what the code builds, what it takes for an int, a bool or a UUID, the two
    validators and [mask_credentials] are parameters;
    a uuid is an argument of what creates its row.  The update of a bulk change is
    one [build_bulk_update_data] makes, so an [update_check] that raises has
    changed nothing. *)

From S2P Require Import Prelude Py Text Url Store Liveness Notify AlertEval Assignment AlertAdmin Checks Accounts Maintenance.

Class BulkInput := {
  target_verdict : string -> res unit;     (* validate_check_target *)
  script_verdict : string -> res unit;     (* validate_script *)
  valid_create : CheckCreate -> bool;
  valid_update : CheckUpdate -> bool;
  default_timeout : Z;
  mask_credentials : string -> string;
  as_int : pyval -> option Z;              (* what pydantic takes for an int, a bool, a UUID *)
  as_bool : pyval -> option bool;
  as_uuid : pyval -> option uuid;
  plain_tag : string -> bool;              (* Tag: its length, and no control character *)
}.

(** ** The names of bulk-created checks *)

(** [s[:n]] *)
Definition prefix_of (n : nat) (s : string) : string := String.substring 0 n s.

Definition strip_char (c : ascii) (s : string) : string := rstrip_char c (lstrip_by (Ascii.eqb c) s).

(** [s.replace(a, b)] of one character by another *)
Fixpoint replace_char (a b : ascii) (s : string) : string :=
  match s with
  | EmptyString => ""
  | String c s' => String (if Ascii.eqb c a then b else c) (replace_char a b s')
  end.

(** [ParseResult.geturl()]: [urlunparse], the parameters still in the path *)
Definition uses_netloc : list string :=
  [""; "ftp"; "http"; "gopher"; "nntp"; "telnet"; "imap"; "wais"; "file"; "mms"; "https"; "shttp"; "snews";
   "prospero"; "rtsp"; "rtsps"; "rtspu"; "rsync"; "svn"; "svn+ssh"; "sftp"; "nfs"; "git"; "git+ssh"; "ws"; "wss";
   "itms-services"].
Definition geturl (u : url) : string :=
  let rooted := String.prefix "/" (path u) in
  let s :=
    if negb (String.eqb (netloc u) "")
    then "//" +:+ netloc u +:+ (if negb (String.eqb (path u) "") && negb rooted then "/" +:+ path u else path u)
    else if String.prefix "//" (path u) then "//" +:+ path u
    else if negb (String.eqb (scheme u) "") && bool_decide (scheme u ∈ uses_netloc)
            && (String.eqb (path u) "" || rooted)
    then "//" +:+ path u else path u in
  let s := if String.eqb (scheme u) "" then s else scheme u +:+ ":" +:+ s in
  let s := if String.eqb (query u) "" then s else s +:+ "?" +:+ query u in
  if String.eqb (fragment u) "" then s else s +:+ "#" +:+ fragment u.

(** [_NUMBERED.sub("", name)]: a number of one to six digits in parentheses, at the
    end, with the space before it. *)
Definition numbering (s : string) : bool :=
  match s with
  | String " " (String "(" rest) =>
      let '(digits, after) := cut_at (fun c => negb (is_digit c)) rest in
      (1 <=? String.length digits)%nat && (String.length digits <=? 6)%nat && String.eqb after ")"
  | _ => false
  end.
Fixpoint without_number (s : string) : string :=
  if numbering s then "" else
  match s with EmptyString => "" | String c s' => String c (without_number s') end.

Definition name_suffix (number : nat) : string := " (" +:+ pretty number +:+ ")".
Definition numbered_name (base : string) (number : nat) : string :=
  prefix_of (255 - String.length (name_suffix number)) base +:+ name_suffix number.

(** [while unused in taken: ...] *)
Fixpoint next_unused (fuel : nat) (base unused : string) (number : nat) (taken : gset string) : res (string * nat) :=
  match fuel with
  | O => Raise OutOfFuel
  | S fuel =>
      if bool_decide (unused ∈ taken)
      then next_unused fuel base (numbered_name base (S number)) (S number) taken
      else Ok (unused, number)
  end.

Definition unused_name (name : string) (taken : gset string) (numbers : gmap string nat)
    : res (string * gmap string nat) :=
  if negb (bool_decide (name ∈ taken)) then Ok (name, numbers) else
  let base := without_number name in
  '(unused, number) ← next_unused (S (S (size taken))) base base (default 1 (numbers !! base)) taken;
  Ok (unused, <[base := number]> numbers).

Section BulkNames.
Context `{BulkInput}.

Definition bulk_display_name (parsed : url) : res string :=
  match urlsplit (mask_credentials (geturl parsed)) with
  | Raise _ => Raise ValueError
  | Ok masked =>
      let host := replace_char "." "-" (default "unknown" (hostname masked)) in
      let path := path_without_params masked in
      let named := if String.eqb path "" || String.eqb path "/" then host
                   else host +:+ "-" +:+ replace_char "/" "-" (strip_char "/" path) in
      p ← port masked;
      Ok (prefix_of 255 (match p with
                         | Some p => if bool_decide (p ∈ [0; 80; 443]%Z) then named else named +:+ "-" +:+ pretty p
                         | None => named
                         end))
  end.
End BulkNames.

Definition CHECK_TYPES : list string := ["ping"; "http"; "tcp"; "json"; "dns"; "mysql"; "postgres"; SYNTHETIC].

(** The check's type, the URL to monitor and its parts; every refusal is a ValueError. *)
Definition classify_bulk_url (s : string) : res (string * string * url) :=
  parsed ← urlsplit s;
  if bool_decide (scheme parsed ∈ ["http"; "https"]) then Ok ("http", s, parsed) else
  if String.eqb (scheme parsed) "" then
    full ← urlsplit ("https://" +:+ s); Ok ("http", "https://" +:+ s, full)
  else if bool_decide (scheme parsed ∈ CHECK_TYPES) then Ok (scheme parsed, s, parsed) else Raise ValueError.

(** ** Creating checks from URLs *)

Definition DEFAULT_RETRY_INTERVAL_SECONDS : Z := 30.

Record BulkCheckCreateRequest := {
  bq_url : string;
  bq_display_name : option string;
  bq_interval : option Z;
  bq_timeout : option Z;
  bq_enabled : bool;
  bq_tags : option (list string);
  bq_resend : option Z;
  bq_retry_attempts : option Z;
  bq_retry_interval : option Z;
  bq_expected_status : option Z;
  bq_http_method : option string;
  bq_verify_ssl : option bool;
}.

(** A result: the check made, with its id, name and type, or the exception. *)
Record BulkCheckResult := {
  bk_url : string;
  bk_made : res (uuid * string * string);
}.
Definition made (r : BulkCheckResult) : option uuid := match bk_made r with Ok (i, _, _) => Some i | Raise _ => None end.

Definition opt_int (v : option Z) : pyval := match v with Some z => PInt z | None => PNone end.
Definition opt_str (v : option string) : pyval := match v with Some s => PStr s | None => PNone end.
Definition opt_bool (v : option bool) : pyval := match v with Some b => PBool b | None => PNone end.
Definition opt_tags (v : option (list string)) : pyval := match v with Some l => PList (map PStr l) | None => PNone end.

(** [CheckCreate(...)]: its texts stripped, as every schema strips them. *)
Definition bulk_check_data (req : BulkCheckCreateRequest) (display_name check_type url : string) : CheckCreate :=
  {| cc_display_name := strip display_name; cc_type := check_type; cc_target := strip url;
     cc_interval := bq_interval req; cc_enabled := bq_enabled req; cc_mode := MANUAL; cc_selector := None;
     cc_script := None; cc_depends := None;
     cc_columns := [("description", PNone);
                    ("timeout_seconds", PInt (match bq_timeout req with Some t => if (t =? 0)%Z then 10 else t | None => 10 end));
                    ("retry_attempts", opt_int (bq_retry_attempts req));
                    ("retry_interval_seconds", PInt (default DEFAULT_RETRY_INTERVAL_SECONDS (bq_retry_interval req)));
                    ("resend_notification_after", opt_int (bq_resend req));
                    ("tags", opt_tags (bq_tags req))];
     cc_config := [("expected_status", opt_int (bq_expected_status req));
                   ("http_method", opt_str (bq_http_method req));
                   ("verify_ssl", opt_bool (bq_verify_ssl req))] |}.

(** [a or b] of a text that may be unset *)
Definition given (s : option string) : option string :=
  match s with Some s => if String.eqb s "" then None else Some s | None => None end.

Definition display_names_for_agent (d : db) (agent_id : uuid) : list string :=
  map ck_display_name (filter (fun c => ck_agent_id c = agent_id) (rows (db_checks d))).

Record bulk_creation := BulkCreation {
  bc_db : db;
  bc_taken : gset string;
  bc_numbers : gmap string nat;
  bc_results : list BulkCheckResult;
}.

Section BulkCreate.
Context `{BulkInput}.

Let create_check := create_check target_verdict script_verdict.

(** What the [try] of one request does: [numbers] is kept even when it raises. *)
Definition create_one (st : bulk_creation) (now : instant) (agent_id new_id : uuid) (req : BulkCheckCreateRequest)
    : gmap string nat * res (db * string * (string * string * string)) :=
  match classify_bulk_url (strip (bq_url req)) with
  | Raise e => (bc_numbers st, Raise e)
  | Ok (check_type, url, parsed) =>
      match (match given (bq_display_name req) with Some n => Ok n | None => bulk_display_name parsed end) with
      | Raise e => (bc_numbers st, Raise e)
      | Ok wanted =>
          match unused_name wanted (bc_taken st) (bc_numbers st) with
          | Raise e => (bc_numbers st, Raise e)
          | Ok (display_name, numbers) =>
              let data := bulk_check_data req display_name check_type url in
              (numbers,
               if negb (valid_create data) then Raise (ValidationException "CheckCreate") else
               d ← create_check (bc_db st) now new_id agent_id data false false;
               Ok (d, display_name, (url, display_name, check_type)))
          end
      end
  end.

Definition bulk_create_step (now : instant) (agent_id : uuid) (st : bulk_creation)
    (entry : uuid * BulkCheckCreateRequest) : bulk_creation :=
  let '(new_id, req) := entry in
  match create_one st now agent_id new_id req with
  | (numbers, Ok (d, display_name, (url, name, check_type))) =>
      BulkCreation d ({[display_name]} ∪ bc_taken st) numbers
        (bc_results st ++ [{| bk_url := url; bk_made := Ok (new_id, name, check_type) |}])
  | (numbers, Raise e) =>
      BulkCreation (bc_db st) (bc_taken st) numbers
        (bc_results st ++ [{| bk_url := bq_url req; bk_made := Raise e |}])
  end.

(** [requests], each with the uuid a check made from it gets *)
Definition bulk_create_checks (d : db) (now : instant) (agent_id : uuid) (requests : list (uuid * BulkCheckCreateRequest))
    : db * list BulkCheckResult :=
  let st := fold_left (bulk_create_step now agent_id) requests
              (BulkCreation d (list_to_set (display_names_for_agent d agent_id)) ∅ []) in
  (bc_db st, bc_results st).
End BulkCreate.

(** ** Changing many checks *)

Definition sent_column (k : string) (v : option Z) : pydict := match v with Some z => [(k, PInt z)] | None => [] end.

(** [build_bulk_update_data], and [AdminBulkModify.update_fields] *)
Definition build_bulk_update_data (interval timeout retry_attempts : option Z) : CheckUpdate :=
  {| cu_display_name := None; cu_type := None; cu_target := None;
     cu_interval := match interval with Some i => Some (Some i) | None => None end;
     cu_enabled := None; cu_mode := None; cu_selector := None; cu_script := None; cu_depends := None;
     cu_columns := sent_column "timeout_seconds" timeout ++ sent_column "retry_attempts" retry_attempts;
     cu_config := [] |}.

(** A column of the update that is there and not null. *)
Definition move_columns (columns updates : pydict) : pydict :=
  fold_left (fun acc k => match assoc_get updates k with
                          | Some PNone | None => acc
                          | Some v => dict_set acc k v
                          end) ["timeout_seconds"; "retry_attempts"; "tags"; "description"] columns.

Definition move_check_to_agent (c : check) (new_agent : agent) (update_data : CheckUpdate) : check :=
  Check (ck_id c) (ag_id new_agent) (ck_depends_on c) (ck_display_name c) (ck_type c) (ck_target c)
    (override_opt (cu_interval update_data) (ck_interval c)) (override (cu_enabled update_data) (ck_enabled c))
    (ck_mode c) (ck_selector c) (ck_created_at c) (ck_script c) (ck_config c)
    (move_columns (ck_columns c) (cu_columns update_data)).

Record bulk_modification := BulkModification {
  bm_db : db;
  bm_errors : list exn;
  bm_changed : list uuid;
  bm_affected : list uuid;      (* affected_agents *)
}.

Section BulkModify.
Context `{BulkInput}.

Let create_check := create_check target_verdict script_verdict.
Let update_check := update_check target_verdict script_verdict.
Let clone_check := clone_check target_verdict script_verdict valid_create default_timeout.

(** The [try] of one check: the state, and the agents to tell. *)
Definition modify_one (d : db) (now : instant) (new_agent : option (uuid * res agent)) (update_data : CheckUpdate)
    (actor_is_admin : bool) (check_id : uuid) : res (db * list uuid) :=
  match db_checks d !! check_id with
  | None => Raise NotFoundException
  | Some c =>
      let in_place := d' ← update_check d now (ck_id c) update_data actor_is_admin; Ok (d', []) in
      match new_agent with
      | Some (new_agent_id, found) =>
          if bool_decide (new_agent_id = ck_agent_id c) then in_place else
          match found with
          | Raise _ => Raise ValueError
          | Ok a =>
              _ ← (if is_synthetic c then require_admin_actor actor_is_admin else Ok tt);
              Ok (set_checks_table d (<[check_id := move_check_to_agent c a update_data]> (db_checks d)),
                  [ck_agent_id c; ag_id a])
          end
      | None => in_place
      end
  end.

Definition bulk_modify_step (now : instant) (new_agent : option (uuid * res agent)) (update_data : CheckUpdate)
    (actor_is_admin : bool) (st : bulk_modification) (check_id : uuid) : bulk_modification :=
  match modify_one (bm_db st) now new_agent update_data actor_is_admin check_id with
  | Ok (d, agents) => BulkModification d (bm_errors st) (bm_changed st ++ [check_id]) (bm_affected st ++ agents)
  | Raise e => BulkModification (bm_db st) (bm_errors st ++ [e]) (bm_changed st) (bm_affected st)
  end.

(** The counts are the lengths of what it answers: the ids changed, the errors. *)
Definition bulk_modify (d : db) (now : instant) (check_ids : list uuid) (update_data : CheckUpdate)
    (new_agent_id : option uuid) (actor_is_admin : bool) : db * list uuid * list exn :=
  let new_agent := n ← new_agent_id; Some (n, get_admitted_agent d n) in
  let st := fold_left (bulk_modify_step now new_agent update_data actor_is_admin) check_ids
              (BulkModification d [] [] []) in
  (touch_agents (bm_db st) now (bm_affected st), bm_changed st, bm_errors st).

(** ** A check written with its alerts *)

Definition assign_alerts (d : db) (check_id : uuid) (alert_ids : list uuid) : res db :=
  _ ← get_check_by_id d check_id;
  fold_res (fun e a => match add_check e a check_id with Raise (ValidationException _) => Ok e | r => r end) d alert_ids.

Definition create_check_with_alerts (d : db) (now : instant) (new_id agent_id : uuid) (data : CheckCreate)
    (alert_ids : list uuid) (actor_is_admin : bool) : res db :=
  d' ← create_check d now new_id agent_id data false actor_is_admin; assign_alerts d' new_id alert_ids.

Definition update_check_with_alerts (d : db) (now : instant) (check_id : uuid) (data : CheckUpdate)
    (alert_ids : option (list uuid)) (actor_is_admin : bool) : res db :=
  d' ← update_check d now check_id data actor_is_admin;
  match alert_ids with Some ids => sync_check_alerts d' check_id ids | None => Ok d' end.

Definition clone_check_with_alerts (d : db) (now : instant) (new_id source_check_id target_agent_id : uuid)
    (overrides : CheckUpdate) (alert_ids : list uuid) (actor_is_admin : bool) : res db :=
  d' ← clone_check d now new_id source_check_id target_agent_id overrides false actor_is_admin;
  sync_check_alerts d' new_id alert_ids.
End BulkModify.

(** ** Import and export *)

Definition OPTIONAL_SETTINGS : list string :=
  ["retry_interval_seconds"; "resend_notification_after"; "verify_ssl"; "record_type"; "nameserver"; "port";
   "expect_value"; "connection_string"; "query"; "script_code"].

(** One entry; [ce_config] has the fields of check_config it names, as validated. *)
Record CheckExport := {
  ce_name : string;
  ce_check_type : string;
  ce_target : string;
  ce_interval : Z;
  ce_timeout : Z;
  ce_retry_attempts : Z;
  ce_enabled : bool;
  ce_description : option string;
  ce_tags : option (list string);
  ce_retry_interval : option Z;
  ce_resend : option Z;
  ce_script : option string;
  ce_config : pydict;
  ce_depends_on : option string;
  ce_depends_on_check_id : option uuid;
  ce_names_parent : bool;        (* one of the two was sent *)
}.

(** [settings()], in two halves: the columns and the fields of check_config.  The
    four of them every import names are sent as null when they are unset. *)
Definition settings_columns (e : CheckExport) : pydict :=
  [("timeout_seconds", PInt (ce_timeout e)); ("retry_attempts", PInt (ce_retry_attempts e));
   ("description", opt_str (ce_description e)); ("tags", opt_tags (ce_tags e))]
  ++ sent_column "retry_interval_seconds" (ce_retry_interval e)
  ++ sent_column "resend_notification_after" (ce_resend e).
Definition named_always : list string := ["http_method"; "expected_status"; "json_path"; "expected_value"].
Definition settings_config (e : CheckExport) : pydict :=
  map (fun k => (k, default PNone (assoc_get (ce_config e) k))) named_always
  ++ omap (fun k => match assoc_get (ce_config e) k with
                    | Some PNone | None => None
                    | Some v => Some (k, v)
                    end) (filter (fun k => k ∈ ALL_CONFIG_FIELDS) OPTIONAL_SETTINGS).

(** [CheckUpdate.model_validate(settings())] *)
Definition as_update (e : CheckExport) : CheckUpdate :=
  {| cu_display_name := None; cu_type := Some (Some (ce_check_type e)); cu_target := Some (Some (ce_target e));
     cu_interval := Some (Some (ce_interval e)); cu_enabled := Some (Some (ce_enabled e)); cu_mode := None;
     cu_selector := None; cu_script := match ce_script e with Some s => Some (Some s) | None => None end;
     cu_depends := None; cu_columns := settings_columns e; cu_config := settings_config e |}.

(** [CheckCreate.model_validate({"display_name": ..., **settings()})] *)
Definition as_create (e : CheckExport) : CheckCreate :=
  {| cc_display_name := ce_name e; cc_type := ce_check_type e; cc_target := ce_target e;
     cc_interval := Some (ce_interval e); cc_enabled := ce_enabled e; cc_mode := MANUAL; cc_selector := None;
     cc_script := ce_script e; cc_depends := None;
     cc_columns := map (fun k => (k, match assoc_get (settings_columns e) k with
                                     | Some v => v
                                     | None => if String.eqb k "retry_interval_seconds"
                                               then PInt DEFAULT_RETRY_INTERVAL_SECONDS else PNone
                                     end)) CREATE_COLUMNS;
     cc_config := settings_config e |}.

(** *** [CheckExport.model_validate]

    Of a JSON object: a field it does not name is refused, texts are stripped, a field
    left out has its default. *)
Definition MAX_TAGS : nat := 100.

(** StorableText; a lone surrogate has no bytes *)
Definition read_text (v : pyval) : option string :=
  match v with
  | PStr s => if has_char (Ascii.eqb Ascii.zero) (strip s) then None else Some (strip s)
  | _ => None
  end.
Definition or_null {A} (read : pyval -> option A) (v : pyval) : option (option A) :=
  match v with PNone => Some None | v => Some <$> read v end.
(** HttpMethodField, DnsRecordTypeField: [upper_or_none] first *)
Definition read_enum (values : list string) (v : pyval) : option pyval :=
  match v with
  | PNone => Some PNone
  | PStr s => let u := upper (strip s) in
              if String.eqb u "" then Some PNone else if bool_decide (u ∈ values) then Some (PStr u) else None
  | _ => None
  end.
Definition read_type (v : pyval) : option string :=
  match v with PStr s => if bool_decide (s ∈ CHECK_TYPES) then Some s else None | _ => None end.

Section Validation.
Context `{BulkInput}.

Definition read_tag (v : pyval) : option string :=
  match v with PStr s => if plain_tag (strip s) then Some (strip s) else None | _ => None end.
Definition read_tags (v : pyval) : option (list string) :=
  match v with PList l => if (length l <=? MAX_TAGS)%nat then mapM read_tag l else None | _ => None end.

(** A field of check_config. *)
Definition read_config (k : string) (v : pyval) : option pyval :=
  if String.eqb k "http_method" then read_enum HTTP_METHODS v
  else if String.eqb k "record_type" then read_enum DNS_RECORD_TYPES v
  else if String.eqb k "verify_ssl" then opt_bool <$> or_null as_bool v
  else if String.eqb k "expected_status" || String.eqb k "port" then opt_int <$> or_null as_int v
  else opt_str <$> or_null read_text v.

Definition EXPORT_FIELDS : list string :=
  ["name"; "check_type"; "target"; "interval"; "timeout"; "retry_attempts"; "enabled"; "description"; "tags";
   "retry_interval_seconds"; "resend_notification_after"; "script_code"; "depends_on"; "depends_on_check_id"] ++ ALL_CONFIG_FIELDS.

Definition field {A} (raw : pydict) (k : string) (read : pyval -> option A) (absent : option A) : option A :=
  match assoc_get raw k with Some v => read v | None => absent end.

Definition read_entry (raw : pydict) : option CheckExport :=
  name ← field raw "name" read_text None;
  check_type ← field raw "check_type" read_type None;
  target ← field raw "target" read_text None;
  interval ← field raw "interval" as_int (Some 60%Z);
  timeout ← field raw "timeout" as_int (Some 5%Z);
  retry_attempts ← field raw "retry_attempts" as_int (Some 2%Z);
  enabled ← field raw "enabled" as_bool (Some true);
  description ← field raw "description" (or_null read_text) (Some None);
  tags ← field raw "tags" (or_null read_tags) (Some None);
  retry_interval ← field raw "retry_interval_seconds" (or_null as_int) (Some None);
  resend ← field raw "resend_notification_after" (or_null as_int) (Some None);
  script ← field raw "script_code" (or_null read_text) (Some None);
  config ← mapM (fun k => v ← field raw k (read_config k) (Some PNone); Some (k, v)) ALL_CONFIG_FIELDS;
  depends_on ← field raw "depends_on" (or_null read_text) (Some None);
  depends_on_check_id ← field raw "depends_on_check_id" (or_null as_uuid) (Some None);
  let sent k := bool_decide (assoc_get raw k <> None) in
  Some {| ce_name := name; ce_check_type := check_type; ce_target := target; ce_interval := interval; ce_timeout := timeout;
          ce_retry_attempts := retry_attempts; ce_enabled := enabled; ce_description := description; ce_tags := tags;
          ce_retry_interval := retry_interval; ce_resend := resend; ce_script := script; ce_config := config;
          ce_depends_on := depends_on; ce_depends_on_check_id := depends_on_check_id;
          ce_names_parent := sent "depends_on" || sent "depends_on_check_id" |}.

(** [_one_parent] last *)
Definition validate_entry (raw : pydict) : res CheckExport :=
  match (if forallb (fun kv => bool_decide (kv.1 ∈ EXPORT_FIELDS)) raw then read_entry raw else None) with
  | Some e => if bool_decide (ce_depends_on e <> None) && bool_decide (ce_depends_on_check_id e <> None)
              then Raise (ValidationException "CheckExport") else Ok e
  | None => Raise (ValidationException "CheckExport")
  end.
End Validation.

(** [model_dump(mode="json")]: every field, of check_config the ones an entry has. *)
Definition dump_entry (e : CheckExport) : pydict :=
  [("name", PStr (ce_name e)); ("check_type", PStr (ce_check_type e)); ("target", PStr (ce_target e));
   ("interval", PInt (ce_interval e)); ("timeout", PInt (ce_timeout e)); ("retry_attempts", PInt (ce_retry_attempts e));
   ("enabled", PBool (ce_enabled e)); ("description", opt_str (ce_description e)); ("tags", opt_tags (ce_tags e));
   ("retry_interval_seconds", opt_int (ce_retry_interval e)); ("resend_notification_after", opt_int (ce_resend e));
   ("script_code", opt_str (ce_script e)); ("depends_on", opt_str (ce_depends_on e));
   ("depends_on_check_id", opt_str (uuid_str <$> ce_depends_on_check_id e))] ++ ce_config e.

(** An entry of the import: the uuid a check made from it gets, its name as the
    errors give it, and the object the file has. *)
Record import_entry := ImportEntry {
  ie_id : uuid;
  ie_name : string;
  ie_raw : pydict;
}.

Inductive imported := Created | Updated | Skipped.
#[global] Instance imported_eq_dec : EqDecision imported.
Proof. solve_decision. Defined.

Record import_state := ImportState {
  im_db : db;
  im_existing : gmap string uuid;      (* existing_map: a name's check *)
  im_outcomes : list imported;
  im_errors : list (string * exn);
  im_to_link : list CheckExport;
}.

(** [{c.display_name: c for c in existing}]: of two checks of a name, the later. *)
Definition existing_checks (d : db) (agent_id : uuid) : gmap string uuid :=
  fold_left (fun m c => <[ck_display_name c := ck_id c]> m)
    (filter (fun c => ck_agent_id c = agent_id) (rows (db_checks d))) ∅.

Section Importing.
Context `{BulkInput}.

Let create_check := create_check target_verdict script_verdict.
Let update_check := update_check target_verdict script_verdict.

Definition import_one (d : db) (now : instant) (agent_id new_id : uuid) (check_data : CheckExport)
    (existing_map : gmap string uuid) (overwrite actor_is_admin : bool) : res (db * gmap string uuid * imported) :=
  match existing_map !! ce_name check_data with
  | Some existing =>
      if negb overwrite then Ok (d, existing_map, Skipped) else
      if negb (valid_update (as_update check_data)) then Raise (ValidationException "CheckUpdate") else
      d' ← update_check d now existing (as_update check_data) actor_is_admin; Ok (d', existing_map, Updated)
  | None =>
      if negb (valid_create (as_create check_data)) then Raise (ValidationException "CheckCreate") else
      d' ← create_check d now new_id agent_id (as_create check_data) false actor_is_admin;
      Ok (d', <[ce_name check_data := new_id]> existing_map, Created)
  end.

(** One entry: what [CheckExport.model_validate] makes of it, imported. *)
Definition import_raw (d : db) (now : instant) (agent_id : uuid) (raw : import_entry) (existing_map : gmap string uuid)
    (overwrite actor_is_admin : bool) : res (db * gmap string uuid * imported * CheckExport) :=
  check_data ← validate_entry (ie_raw raw);
  r ← import_one d now agent_id (ie_id raw) check_data existing_map overwrite actor_is_admin; Ok (r, check_data).

Definition import_step (now : instant) (agent_id : uuid) (overwrite actor_is_admin : bool) (st : import_state)
    (raw : import_entry) : import_state :=
  match import_raw (im_db st) now agent_id raw (im_existing st) overwrite actor_is_admin with
  | Raise e => ImportState (im_db st) (im_existing st) (im_outcomes st) (im_errors st ++ [(ie_name raw, e)]) (im_to_link st)
  | Ok (d, existing_map, outcome, e) =>
      ImportState d existing_map (im_outcomes st ++ [outcome]) (im_errors st)
        (im_to_link st ++ (if negb (bool_decide (outcome = Skipped)) && ce_names_parent e then [e] else []))
  end.

Definition only_depends (p : option uuid) : CheckUpdate :=
  {| cu_display_name := None; cu_type := None; cu_target := None; cu_interval := None; cu_enabled := None;
     cu_mode := None; cu_selector := None; cu_script := None; cu_depends := Some p; cu_columns := []; cu_config := [] |}.

Definition link_parent (d : db) (now : instant) (check_data : CheckExport) (existing_map : gmap string uuid)
    (actor_is_admin : bool) : res db :=
  parent_id ← match ce_depends_on check_data with
              | Some name => match existing_map !! name with
                             | Some p => Ok (Some p)
                             | None => Raise (ValidationException "It depends on a check this agent does not have")
                             end
              | None => Ok (ce_depends_on_check_id check_data)
              end;
  match existing_map !! ce_name check_data with
  | None => Raise KeyError
  | Some check_id =>
      c ← get_check_by_id d check_id;
      if bool_decide (ck_depends_on c = parent_id) then Ok d
      else update_check d now check_id (only_depends parent_id) actor_is_admin
  end.

Definition link_step (now : instant) (existing_map : gmap string uuid) (actor_is_admin : bool)
    (st : db * list (string * exn)) (e : CheckExport) : db * list (string * exn) :=
  match link_parent st.1 now e existing_map actor_is_admin with
  | Ok d => (d, st.2)
  | Raise x => (st.1, st.2 ++ [(ce_name e, x)])
  end.

Definition has_parent (e : CheckExport) : bool :=
  bool_decide (ce_depends_on e <> None) || bool_decide (ce_depends_on_check_id e <> None).

(** The two counts and the skipped are those of the outcomes. *)
Definition bulk_import_checks (d : db) (now : instant) (agent_id : uuid) (checks : list import_entry)
    (overwrite actor_is_admin : bool) : res (db * list imported * list (string * exn)) :=
  _ ← get_admitted_agent d agent_id;
  let st := fold_left (import_step now agent_id overwrite actor_is_admin) checks
              (ImportState d (existing_checks d agent_id) [] [] []) in
  (* [to_link.sort(key=...)] is stable *)
  let to_link := filter (fun e => has_parent e = false) (im_to_link st)
                 ++ filter (fun e => has_parent e = true) (im_to_link st) in
  let '(d', errors) := fold_left (link_step now (im_existing st) actor_is_admin) to_link (im_db st, im_errors st) in
  Ok (d', im_outcomes st, errors).
End Importing.

(** [_entry]: [names] are the checks of the agent by id. *)
Definition stored (c : check) (k : string) : pyval := default PNone (assoc_get (ck_columns c) k).
Definition column_int (c : check) (k : string) : option Z :=
  match stored c k with PInt z => Some z | _ => None end.
Definition column_tags (c : check) : option (list string) :=
  match stored c "tags" with
  | PList l => Some (omap (fun v => match v with PStr s => Some s | _ => None end) l)
  | _ => None
  end.

(** What it is built of, and built: the constructor validates as [model_validate] does. *)
Definition entry_fields (c : check) (names : gmap uuid string) : CheckExport :=
  let parent_name := p ← ck_depends_on c; names !! p in
  {| ce_name := ck_display_name c; ce_check_type := ck_type c; ce_target := ck_target c;
     ce_interval := default 60%Z (ck_interval c); ce_timeout := default 5%Z (column_int c "timeout_seconds");
     ce_retry_attempts := default 2%Z (column_int c "retry_attempts"); ce_enabled := ck_enabled c;
     ce_description := text_of (Some (stored c "description")); ce_tags := column_tags c;
     ce_retry_interval := column_int c "retry_interval_seconds";
     ce_resend := column_int c "resend_notification_after"; ce_script := ck_script c;
     ce_config := map (fun k => (k, config_property c k)) ALL_CONFIG_FIELDS;
     ce_depends_on := parent_name;
     ce_depends_on_check_id := if bool_decide (parent_name = None) then ck_depends_on c else None;
     ce_names_parent := true |}.

Section Exporting.
Context `{BulkInput}.

Definition entry (c : check) (names : gmap uuid string) : res CheckExport := validate_entry (dump_entry (entry_fields c names)).

Definition export_document (d : db) (agent_id : uuid) : res (list CheckExport) :=
  _ ← get_agent_by_id d agent_id;
  let checks := filter (fun c => ck_agent_id c = agent_id) (rows (db_checks d)) in
  map_res (fun c => entry c (list_to_map (map (fun c => (ck_id c, ck_display_name c)) checks))) checks.
End Exporting.

(** ** The selections of the admin API, and the jobs queued *)

(** [_judge_selection] *)
Definition judge_selection (d : db) (actor_is_admin : bool) (check_ids : list uuid) : res unit :=
  let checks := get_checks_by_ids d check_ids in
  match filter (fun i => i ∉ map ck_id checks) check_ids with
  | _ :: _ => Raise (ValidationException "No check has the id")
  | [] => if existsb is_synthetic checks then require_admin_actor actor_is_admin else Ok tt
  end.

(** [AdminCheckCoreService.bulk_set_enabled]; [check_ids] as sent *)
Definition admin_bulk_set_enabled (d : db) (now : instant) (check_ids : list uuid) (enabled actor_is_admin : bool)
    : res (db * bulk_result) :=
  let ids := first_seen check_ids in
  _ ← judge_selection d actor_is_admin ids;
  Ok (bulk_set_enabled d now ids enabled actor_is_admin).

Definition ids_value (ids : list uuid) : pyval := PList (map (fun i => PStr (uuid_str i)) ids).
Definition id_value (i : option uuid) : pyval := match i with Some i => PStr (uuid_str i) | None => PNone end.

Definition enqueue_bulk_delete (t : maintenance_jobs) (d : db) (now : instant) (job_id owner_id : uuid)
    (actor_is_admin : bool) (check_ids : list uuid) : res (maintenance_job * maintenance_jobs) :=
  let ids := first_seen check_ids in
  _ ← judge_selection d actor_is_admin ids;
  enqueue t now job_id BULK_CHECK_DELETE None (Some [("check_ids", ids_value ids)]) (Some owner_id).

(** [update_fields.model_dump(exclude_unset=True)] *)
Definition dump_fields (interval timeout retry_attempts : option Z) : pydict :=
  sent_column "interval_seconds" interval ++ sent_column "timeout_seconds" timeout
  ++ sent_column "retry_attempts" retry_attempts.

Definition enqueue_bulk_modify (t : maintenance_jobs) (d : db) (now : instant) (job_id owner_id : uuid)
    (actor_is_admin : bool) (check_ids : list uuid) (interval timeout retry_attempts : option Z)
    (agent_id alert_id : option uuid) : res (maintenance_job * maintenance_jobs) :=
  let ids := first_seen check_ids in
  _ ← judge_selection d actor_is_admin ids;
  _ ← match agent_id with Some a => _ ← get_admitted_agent d a; Ok tt | None => Ok tt end;
  _ ← match alert_id with Some a => _ ← get_alert_by_id d a; Ok tt | None => Ok tt end;
  enqueue t now job_id BULK_CHECK_MODIFY None
    (Some [("check_ids", ids_value ids); ("update_fields", PDict (dump_fields interval timeout retry_attempts));
           ("new_agent_id", id_value agent_id); ("alert_id", id_value alert_id)]) (Some owner_id).

Definition TRANSFER_MAX : nat := 10000.

Section Queue.
(** [_request_key]: uuid5 over the JSON of kind, owner and params *)
Variable request_key : MaintenanceJobKind -> uuid -> pydict -> uuid.

Definition enqueue_import (t : maintenance_jobs) (d : db) (now : instant) (job_id owner_id agent_id : uuid)
    (mode : string) (checks : list pydict) : res (maintenance_job * maintenance_jobs) :=
  match checks with
  | [] => Raise (ValidationException "No checks to import")
  | _ =>
      if (TRANSFER_MAX <? length checks)%nat then Raise (ValidationException "An import takes at most 10,000 checks") else
      _ ← get_admitted_agent d agent_id;
      let params := [("agent_id", PStr (uuid_str agent_id)); ("mode", PStr mode); ("checks", PList (map PDict checks))] in
      enqueue t now job_id BULK_CHECK_IMPORT (Some (request_key BULK_CHECK_IMPORT owner_id params)) (Some params) (Some owner_id)
  end.

Definition enqueue_bulk_create (t : maintenance_jobs) (d : db) (now : instant) (job_id owner_id agent_id : uuid)
    (requests : list pydict) (alert_ids : list uuid) : res (maintenance_job * maintenance_jobs) :=
  match requests with
  | [] => Raise (ValidationException "No URLs to create checks from")
  | _ =>
      if (TRANSFER_MAX <? length requests)%nat then Raise (ValidationException "A bulk create takes at most 10,000 URLs") else
      _ ← get_admitted_agent d agent_id;
      let alerts := first_seen alert_ids in
      _ ← fold_res (fun _ a => match get_alert_by_id d a with
                               | Ok _ => Ok tt
                               | Raise NotFoundException => Raise (ValidationException "No alert has the id")
                               | Raise e => Raise e
                               end) tt alerts;
      let params := [("agent_id", PStr (uuid_str agent_id)); ("requests", PList (map PDict requests));
                     ("alert_ids", ids_value alerts)] in
      enqueue t now job_id BULK_CHECK_CREATE (Some (request_key BULK_CHECK_CREATE owner_id params)) (Some params) (Some owner_id)
  end.
End Queue.

(** ** The jobs, run for their owner as they are then *)

Definition ERRORS_KEPT : nat := 50.

Record job_progress := Progress {
  jp_processed : Z;
  jp_success : Z;
  jp_failure : Z;
  jp_errors : nat;       (* how many errors are kept *)
}.

(** How a handler ends: what it committed and keeps, or [JobFailed], which rolls
    back; [None] keeps no progress.  Any other exception is the result's own. *)
Inductive job_end := JobDone (d : db) (progress : option job_progress) | JobFailed (progress : option job_progress).

(** _bulk_outcome.py *)
Definition finish (d : db) (done failed : Z) (errors : nat) (fail_when_nothing_done : bool) : job_end :=
  let progress := Progress (done + failed) done failed (errors `min` ERRORS_KEPT) in
  if fail_when_nothing_done && (done =? 0)%Z && negb (failed =? 0)%Z then JobFailed (Some progress)
  else JobDone d (Some progress).

Definition finish_result (r : db * bulk_result) : job_end :=
  finish r.1 (br_success r.2) (br_failure r.2) (length (br_errors r.2)) true.

Definition owner_bulk (users : accounts) (owner_id : option uuid) (d : db) (check_ids : list uuid)
    (run : bool -> db * bulk_result) : job_end :=
  match check_ids with
  | [] => JobDone d None
  | _ => if negb (is_active_editor_id users owner_id) then JobFailed None
         else finish_result (run (is_active_admin_id users owner_id))
  end.

(** bulk_check_delete.py *)
Definition handle_delete (users : accounts) (owner_id : option uuid) (d : db) (now : instant) (check_ids : list uuid)
    : job_end := owner_bulk users owner_id d check_ids (bulk_delete d now check_ids).

(** bulk_check_toggle.py *)
Definition handle_toggle (users : accounts) (owner_id : option uuid) (d : db) (now : instant) (action : string)
    (check_ids : list uuid) : res job_end :=
  if bool_decide (action ∈ ["enable"; "disable"])
  then Ok (owner_bulk users owner_id d check_ids (bulk_set_enabled d now check_ids (String.eqb action "enable")))
  else Raise ValueError.

(** What the job does to the alerts of the checks it changed. *)
Inductive alert_choice := ClearAlerts | AssignAlert (alert_id : uuid).

Section Handlers.
Context `{BulkInput}.

(** bulk_check_modify.py *)
Definition handle_modify (users : accounts) (owner_id : option uuid) (d : db) (now : instant) (check_ids : list uuid)
    (update_data : CheckUpdate) (new_agent_id : option uuid) (alert : option alert_choice) : res job_end :=
  match check_ids with
  | [] => Ok (JobDone d None)
  | _ =>
      if negb (is_active_editor_id users owner_id) then Ok (JobFailed None) else
      let '(d1, changed, errors) :=
        bulk_modify d now check_ids update_data new_agent_id (is_active_admin_id users owner_id) in
      d2 ← match alert, changed with
           | None, _ | _, [] => Ok d1
           | Some ClearAlerts, _ => r ← bulk_clear_from_checks d1 changed; Ok r.1
           | Some (AssignAlert a), _ => r ← bulk_assign_to_checks d1 a changed; Ok r.1
           end;
      Ok (finish d2 (Z.of_nat (length changed)) (Z.of_nat (length errors)) (length errors) false)
  end.

(** bulk_check_create.py; a request that does not validate is [None]. *)
Definition assign_created (check_ids : list uuid) (st : db * nat) (alert_id : uuid) : res (db * nat) :=
  match get_alert_by_id st.1 alert_id with
  | Raise NotFoundException => Ok (st.1, S st.2)
  | Raise e => Raise e
  | Ok _ => r ← bulk_assign_to_checks st.1 alert_id check_ids; Ok (r.1, st.2)
  end.

Definition handle_create (users : accounts) (owner_id : option uuid) (d : db) (now : instant) (agent_id : uuid)
    (raw_requests : list (uuid * option BulkCheckCreateRequest)) (alert_ids : list uuid) : res job_end :=
  match raw_requests with
  | [] => Ok (JobDone d None)
  | _ =>
      if negb (is_active_editor_id users owner_id) then Ok (JobFailed None) else
      let requests := omap (fun r => q ← r.2; Some (r.1, q)) raw_requests in
      let refused := length (filter (fun r => r.2 = None) raw_requests) in
      let '(d1, results) := bulk_create_checks d now agent_id requests in
      let check_ids := omap made results in
      let failed := length (filter (fun r => made r = None) results) in
      '(d2, alert_errors) ← match check_ids with
                            | [] => Ok (d1, 0%nat)
                            | _ => fold_res (assign_created check_ids) (d1, 0%nat) alert_ids
                            end;
      Ok (finish d2 (Z.of_nat (length check_ids)) (Z.of_nat (failed + refused)) (refused + failed + alert_errors) true)
  end.

(** bulk_check_import.py; the outcome of its own *)
Record import_outcome := ImportOutcome {
  io_total : nat;
  io_created : nat;
  io_updated : nat;
  io_skipped : nat;
  io_failure : nat;
  io_errors : nat;
}.
Definition import_summary (outcomes : list imported) (errors : list (string * exn)) : import_outcome :=
  let count o := length (filter (fun x => x = o) outcomes) in
  ImportOutcome (count Created + count Updated + count Skipped + length errors) (count Created) (count Updated)
    (count Skipped) (length errors) (length errors `min` ERRORS_KEPT).

Inductive import_end := ImportDone (d : db) (progress : option import_outcome) | ImportFailed (progress : option import_outcome).

Definition handle_import (users : accounts) (owner_id : option uuid) (d : db) (now : instant) (agent_id : uuid)
    (overwrite : bool) (checks : list import_entry) : res import_end :=
  match checks with
  | [] => Ok (ImportDone d None)
  | _ =>
      if negb (is_active_admin_id users owner_id) then Ok (ImportFailed None) else
      match bulk_import_checks d now agent_id checks overwrite true with
      | Raise NotFoundException | Raise (ValidationException _) => Ok (ImportFailed None)
      | Raise e => Raise e
      | Ok (d', outcomes, errors) =>
          let p := import_summary outcomes errors in
          if (io_created p + io_updated p =? 0)%nat && negb (length errors =? 0)%nat then Ok (ImportFailed (Some p))
          else Ok (ImportDone d' (Some p))
      end
  end.
End Handlers.

#[global] Arguments prefix_of : simpl never.
#[global] Arguments name_suffix : simpl never.
#[global] Arguments numbered_name : simpl never.
#[global] Arguments bulk_check_data : simpl never.
#[global] Arguments as_update : simpl never.
#[global] Arguments as_create : simpl never.
#[global] Arguments finish : simpl never.
