(* ===== verification/BulkChecksTheorems.v ===== *)
(** * Many checks at once: lemmas and properties

    A bulk creation gives every check a name its agent does not have and accounts
    for every URL; a bulk change does what was asked to the checks it answers for
    and to nothing else; an import keeps one check per name, touches only its agent
    and accounts for every entry; an exported check comes back as it was. *)

From S2P Require Import Prelude Py Text Url Store Liveness Notify Fixtures AlertEval Assignment AlertAdmin AlertAdminTheorems Checks ChecksTheorems Credentials Scopes Accounts Maintenance BulkChecks.

(** ** Names *)

Definition not_digit (c : ascii) : Prop := forall x, pretty_N_char x <> c.

Lemma pretty_go_free c x s : not_digit c -> free_of c s -> free_of c (pretty_N_go x s).
Proof.
  intros Hc. revert s. induction (N.lt_wf_0 x) as [x _ IH]. intros s Hs. destruct (decide (x = 0)%N) as [->|Hx]; [done|].
  rewrite pretty_N_go_step by lia. apply IH; [apply N.div_lt; lia|]. by split.
Qed.

Lemma pretty_free c (n : nat) : not_digit c -> free_of c (pretty n).
Proof.
  intros Hc. unfold pretty, pretty_nat, pretty, pretty_N. case_decide; [|by apply pretty_go_free].
  split; [|done]. exact (Hc 0%N).
Qed.

Lemma paren_not_digit : not_digit "(" /\ not_digit ")".
Proof. split; intros x; unfold pretty_N_char; repeat case_match; done. Qed.

Lemma append_assoc s t u : (s +:+ t) +:+ u = s +:+ t +:+ u.
Proof. induction s as [|c s IH]; [done|]. exact (f_equal (String c) IH). Qed.

Lemma length_append s t : String.length (s +:+ t) = String.length s + String.length t.
Proof. induction s as [|c s IH]; [done|]. exact (f_equal S IH). Qed.

Lemma suffix_inj a b n m : a +:+ name_suffix n = b +:+ name_suffix m -> n = m.
Proof.
  assert (Hr : forall s k, rpartition "(" (s +:+ name_suffix k) = (s +:+ " ", true, pretty k +:+ String ")" "")).
  { intros s k. rewrite <- (rpartition_at "(" (s +:+ " ") (pretty k +:+ String ")" "")).
    - f_equal. unfold name_suffix. by rewrite !append_assoc.
    - apply all_chars_app; [apply pretty_free, paren_not_digit|by repeat split]. }
  intros E. pose proof (Hr a n) as Ha. rewrite E, Hr in Ha. injection Ha as _ Ha.
  assert (Hp : forall k : nat, (partition ")" (pretty k +:+ String ")" "")).1.1 = pretty k).
  { intros k. rewrite partition_at; [done|]. apply pretty_free, paren_not_digit. }
  apply (inj pretty). by rewrite <- (Hp n), <- (Hp m), Ha.
Qed.

Lemma length_prefix n s : String.length (prefix_of n s) <= n.
Proof.
  unfold prefix_of. revert s. induction n as [|n IH]; intros [|c s]; cbn; try lia. specialize (IH s). lia.
Qed.

Lemma prefix_short n s : String.length s <= n -> prefix_of n s = s.
Proof.
  unfold prefix_of. revert s. induction n as [|n IH]; intros [|c s]; cbn; intros Hn; [done|lia|done|]. f_equal. apply IH. lia.
Qed.

(** A search that finds none has seen only taken names; what it finds is free. *)
Lemma next_unused_out fuel base unused number taken e :
  next_unused (S fuel) base unused number taken = Raise e ->
  forall k, k < fuel -> numbered_name base (S number + k) ∈ taken.
Proof.
  revert unused number. induction fuel as [|fuel IH]; intros unused number; [lia|]. cbn [next_unused] in IH |- *.
  case_bool_decide as Hu; [|done]. intros E k Hk. destruct k as [|k].
  - rewrite Nat.add_0_r. case_bool_decide as Hn; [done|done].
  - replace (S number + S k) with (S (S number) + k) by lia. apply (IH (numbered_name base (S number))); [done|lia].
Qed.

Lemma next_unused_ok fuel base unused number taken u n :
  next_unused fuel base unused number taken = Ok (u, n) ->
  u ∉ taken /\ (u = unused \/ exists k, u = numbered_name base k).
Proof.
  revert unused number. induction fuel as [|fuel IH]; intros unused number; cbn [next_unused]; [done|].
  case_bool_decide as Hu; [|intros [= <- <-]; by split; [|left]].
  intros [Hn Hor]%IH. split; [done|]. right. destruct Hor as [->|?]; [by eexists|done].
Qed.

(** One name more than are taken is enough to find one that is not. *)
Lemma next_unused_total base unused number taken : exists r, next_unused (S (S (size taken))) base unused number taken = Ok r.
Proof.
  destruct (next_unused _ _ _ _ _) as [r|e] eqn:E; [by exists r|exfalso].
  pose proof (next_unused_out _ _ _ _ _ _ E) as Hin.
  set (names := map (numbered_name base) (seq (S number) (S (size taken)))).
  assert (NoDup names) as Hnd.
  { apply NoDup_fmap_2_strong; [|apply NoDup_seq]. intros x y _ _ Exy. by eapply suffix_inj. }
  assert (list_to_set names ⊆ taken) as Hsub.
  { intros x Hx. apply elem_of_list_to_set, list_elem_of_fmap in Hx as (k & -> & Hk%elem_of_seq).
    replace k with (S number + (k - S number)) by lia. apply Hin. lia. }
  apply subseteq_size in Hsub. rewrite size_list_to_set in Hsub by done.
  unfold names in Hsub. rewrite length_map, length_seq in Hsub. lia.
Qed.

(** The name a bulk creation picks is one its agent does not have. *)
Lemma unused_name_free name taken numbers : exists u numbers', unused_name name taken numbers = Ok (u, numbers') /\ u ∉ taken.
Proof.
  unfold unused_name. case_bool_decide as Hn; cbn [negb]; [|by eexists _, _].
  destruct (next_unused_total (without_number name) (without_number name) (default 1 (numbers !! without_number name)) taken)
    as [[u n] E]. rewrite E. cbn [mbind res_bind]. eexists _, _. split; [done|]. by apply next_unused_ok in E as [Hu _].
Qed.

(** ** Rows that are made and changed *)

Definition agents_keyed (d : db) : Prop := forall i a, db_agents d !! i = Some a -> ag_id a = i.

(** The agents of [d'] are those of [d], but for when their checks last changed. *)
Definition same_agents (d d' : db) : Prop :=
  forall i, ag_id <$> db_agents d' !! i = ag_id <$> db_agents d !! i.

Lemma same_agents_keyed d d' : same_agents d d' -> agents_keyed d -> agents_keyed d'.
Proof.
  intros Hs Hk i a Ha. specialize (Hs i). rewrite Ha in Hs. destruct (db_agents d !! i) as [a0|] eqn:E; [|done].
  injection Hs as ->. by apply Hk.
Qed.

Lemma touch_same_agents d now ids : same_agents d (touch_agents d now ids).
Proof. intros i. cbn. rewrite map_lookup_imap. destruct (db_agents d !! i); [|done]. cbn. by destruct (bool_decide _). Qed.

Lemma assign_global_agents d c d' : assign_global_alerts_to_check d c = Ok d' -> db_agents d' = db_agents d.
Proof.
  unfold assign_global_alerts_to_check. intros E.
  apply (fold_res_ind (fun s => db_agents s = db_agents d)) in E; [done| |done].
  intros s x s' _ Hs Hx. rewrite <- Hs. by apply add_check_mapping_ok in Hx as (-> & _).
Qed.

Definition created_check (id agent_id : uuid) (data : CheckCreate) (now : instant) : check :=
  Check id agent_id (cc_depends data) (cc_display_name data) (cc_type data) (cc_target data) (cc_interval data)
    (cc_enabled data) (cc_mode data) (cc_selector data) now
    (if String.eqb (cc_type data) SYNTHETIC then cc_script data else None)
    (pack_config (cc_config data) (cc_type data)) (cc_columns data).

Lemma admitted_inv d n a : get_admitted_agent d n = Ok a -> db_agents d !! n = Some a.
Proof.
  unfold get_admitted_agent, get_agent_by_id. destruct (db_agents d !! n); [|done]. cbn. destruct (bool_decide _); congruence.
Qed.

Section Rows.
Variable validate_check_target : string -> res unit.
Variable validate_script : string -> res unit.

Lemma create_shape d now id agent_id data skip admin d' :
  create_check validate_check_target validate_script d now id agent_id data skip admin = Ok d' ->
  exists a d1, get_admitted_agent d agent_id = Ok a /\ db_checks d !! id = None
    /\ assign_global_alerts_to_check (set_checks_table d (<[id := created_check id (ag_id a) data now]> (db_checks d))) id = Ok d1
    /\ d' = (if skip then d1 else touch_agents d1 now [ag_id a]) /\ (cc_type data = SYNTHETIC -> admin = true).
Proof.
  unfold create_check. destruct (get_admitted_agent d agent_id) as [a|] eqn:Ea; [|done]. cbn [mbind res_bind].
  destruct (validate_endpoints_ssrf _ _) as [u|]; [|done]. destruct (validate_dependency _ _ _) as [u'|]; [|done]. cbn [mbind res_bind].
  destruct (if String.eqb _ _ then _ ← require_admin_actor admin; validate_if_set _ _ else Ok tt) as [u3|] eqn:Es;
    cbn [mbind res_bind]; [|discriminate].
  destruct (bool_decide_reflect (db_checks d !! id = None)) as [Hn|]; [|done].
  destruct (assign_global_alerts_to_check _ _) as [d1|] eqn:E; [|done]. cbn [mbind res_bind]. intros [= <-].
  exists a, d1. split_and!; [done|done|exact E|done|]. intros Ht. rewrite Ht in Es. cbn in Es. by destruct admin.
Qed.

Lemma create_row d now id agent_id data skip admin d' : agents_keyed d ->
  create_check validate_check_target validate_script d now id agent_id data skip admin = Ok d' ->
  db_checks d !! id = None /\ db_checks d' = <[id := created_check id agent_id data now]> (db_checks d)
  /\ same_agents d d' /\ is_Some (db_agents d !! agent_id) /\ (cc_type data = SYNTHETIC -> admin = true).
Proof.
  intros Hk (a & d1 & Ea%admitted_inv & Hn & E & -> & Hs)%create_shape. pose proof (Hk _ _ Ea) as Hid.
  pose proof (assign_global_checks _ _ _ E) as Hc. pose proof (assign_global_agents _ _ _ E) as Hag. cbn in Hc, Hag.
  rewrite Hid in Hc. split_and!; [done|by destruct skip| |by eexists|done].
  intros i. destruct skip; [by rewrite Hag|]. rewrite touch_same_agents. by rewrite Hag.
Qed.
End Rows.

(** ** Creating checks from URLs *)

Definition names_distinct (d : db) (agent_id : uuid) : Prop :=
  forall i j ci cj, db_checks d !! i = Some ci -> db_checks d !! j = Some cj -> ck_agent_id ci = agent_id ->
    ck_agent_id cj = agent_id -> ck_display_name ci = ck_display_name cj -> i = j.

Lemma elem_of_display_names d agent_id n :
  n ∈ display_names_for_agent d agent_id <-> exists i c, db_checks d !! i = Some c /\ ck_agent_id c = agent_id /\ ck_display_name c = n.
Proof.
  unfold display_names_for_agent. rewrite list_elem_of_fmap. split.
  - intros (c & -> & [Ha [i Hi]%elem_of_rows]%list_elem_of_filter). by exists i, c.
  - intros (i & c & Hi & Ha & <-). exists c. split; [done|]. apply list_elem_of_filter. split; [done|]. apply elem_of_rows. eauto.
Qed.

Lemma names_distinct_insert d d' agent_id i c : names_distinct d agent_id -> db_checks d' = <[i := c]> (db_checks d) ->
  (ck_agent_id c = agent_id -> forall j cj, j <> i -> db_checks d !! j = Some cj -> ck_agent_id cj = agent_id ->
     ck_display_name cj <> ck_display_name c) -> names_distinct d' agent_id.
Proof.
  intros Hd E Hc x y cx cy. rewrite E. destruct (decide (x = i)) as [->|Hx], (decide (y = i)) as [->|Hy];
    rewrite ?lookup_insert_eq, ?lookup_insert_ne by done.
  - done.
  - intros [= <-] Hcy Ha Ha' Hn. by destruct (Hc Ha y cy Hy Hcy Ha').
  - intros Hcx [= <-] Ha Ha' Hn. by destruct (Hc Ha' x cx Hx Hcx Ha).
  - apply Hd.
Qed.

Section Create.
Context `{BulkInput}.

(** A request's result: the check of the uuid it came with, on the agent under
    the name and type the result gives, or an exception. *)
Definition answered (d d' : db) (agent_id : uuid) (entry : uuid * BulkCheckCreateRequest) (r : BulkCheckResult) : Prop :=
  match bk_made r with
  | Ok (i, name, type) => i = entry.1 /\ db_checks d !! i = None /\ type <> SYNTHETIC
      /\ exists c, db_checks d' !! i = Some c /\ ck_agent_id c = agent_id /\ ck_display_name c = strip name /\ ck_type c = type
  | Raise _ => True
  end.

Definition names_stripped (results : list BulkCheckResult) : Prop :=
  forall r i name type, r ∈ results -> bk_made r = Ok (i, name, type) -> strip name = name.

(** What the loop keeps of the state it began with. *)
Record creating (d : db) (agent_id : uuid) (seen : list (uuid * BulkCheckCreateRequest)) (st : bulk_creation) : Prop := {
  cr_agents : agents_keyed (bc_db st);
  cr_kept : forall i c, db_checks d !! i = Some c -> db_checks (bc_db st) !! i = Some c;
  cr_new : forall i c, db_checks (bc_db st) !! i = Some c -> db_checks d !! i = Some c \/ i ∈ omap made (bc_results st);
  cr_results : Forall2 (answered d (bc_db st) agent_id) seen (bc_results st);
  cr_taken : names_stripped (bc_results st) ->
    (forall n, n ∈ display_names_for_agent (bc_db st) agent_id -> n ∈ bc_taken st)
    /\ (names_distinct d agent_id -> names_distinct (bc_db st) agent_id);
}.

Lemma create_one_ok st now agent_id id req numbers d dn url name type :
  create_one st now agent_id id req = (numbers, Ok (d, dn, (url, name, type))) ->
  name = dn /\ dn ∉ bc_taken st
  /\ create_check target_verdict script_verdict (bc_db st) now id agent_id (bulk_check_data req dn type url) false false = Ok d.
Proof.
  unfold create_one. destruct (classify_bulk_url _) as [[[ty u] parsed]|]; [|done].
  destruct (match given _ with Some n => Ok n | None => _ end) as [wanted|]; [|done].
  destruct (unused_name_free wanted (bc_taken st) (bc_numbers st)) as (n & numbers' & -> & Hn).
  intros [= _ E]. destruct (negb _); [done|]. inv_res. done.
Qed.

Lemma creating_raise d agent_id seen st id req numbers e : creating d agent_id seen st ->
  creating d agent_id (seen ++ [(id, req)])
    (BulkCreation (bc_db st) (bc_taken st) numbers (bc_results st ++ [{| bk_url := bq_url req; bk_made := Raise e |}])).
Proof.
  intros [Ha Hk Hn Hr Ht]. split; cbn; [done|done| | |].
  - intros i c Hc. rewrite omap_app. cbn. rewrite app_nil_r. eauto.
  - apply Forall2_app; [done|]. by repeat constructor.
  - intros Hs. apply Ht. intros r i name type Hin. apply Hs. apply elem_of_app. by left.
Qed.

Lemma creating_made d agent_id seen st id req numbers url dn type d' now : creating d agent_id seen st ->
  dn ∉ bc_taken st ->
  create_check target_verdict script_verdict (bc_db st) now id agent_id (bulk_check_data req dn type url) false false = Ok d' ->
  creating d agent_id (seen ++ [(id, req)])
    (BulkCreation d' ({[dn]} ∪ bc_taken st) numbers (bc_results st ++ [{| bk_url := url; bk_made := Ok (id, dn, type) |}])).
Proof.
  intros [Ha Hk Hn Hr Ht] Hdn (Hfresh & Ed & Hag & _ & Hsyn)%create_row; [|done].
  set (c := created_check id agent_id (bulk_check_data req dn type url) now) in *.
  assert (Hins : forall i c0, db_checks (bc_db st) !! i = Some c0 -> db_checks d' !! i = Some c0).
  { intros i c0 Hc. rewrite Ed, lookup_insert_ne; [done|]. intros <-. congruence. }
  split; cbn.
  - by eapply same_agents_keyed.
  - eauto.
  - intros i c0. rewrite Ed, omap_app, elem_of_app. destruct (decide (i = id)) as [->|Hne].
    + intros _. right. right. by apply list_elem_of_singleton.
    + rewrite lookup_insert_ne by done. intros Hc. destruct (Hn i c0 Hc); tauto.
  - apply Forall2_app.
    + eapply Forall2_impl; [exact Hr|]. intros e r. unfold answered. destruct (bk_made r) as [[[i n] ty]|]; [|done].
      intros (? & ? & ? & c0 & Hc & ?). split_and!; [done..|]. exists c0. eauto.
    + constructor; [|constructor]. unfold answered. cbn. split_and!; [done| | |].
      * destruct (db_checks d !! id) eqn:E; [|done]. apply Hk in E. congruence.
      * intros Hs. by specialize (Hsyn Hs).
      * exists c. rewrite Ed, lookup_insert_eq. done.
  - intros Hs. assert (strip dn = dn) as Hstrip by (eapply Hs; [apply elem_of_app; right; by apply list_elem_of_singleton|done]).
    destruct Ht as [Htaken Hdist]. { intros r i name ty Hin. apply Hs. apply elem_of_app. by left. }
    split.
    + intros n (i & c0 & Hi & Hc & Hname)%elem_of_display_names. rewrite Ed in Hi. destruct (decide (i = id)) as [->|Hne].
      * rewrite lookup_insert_eq in Hi. injection Hi as <-. apply elem_of_union. left. apply elem_of_singleton.
        rewrite <- Hname. exact Hstrip.
      * rewrite lookup_insert_ne in Hi by done. apply elem_of_union. right. apply Htaken, elem_of_display_names. eauto.
    + intros Hd. eapply names_distinct_insert; [by apply Hdist|exact Ed|]. intros _ j cj Hj Hcj Haj Hname.
      apply Hdn. apply Htaken, elem_of_display_names. exists j, cj. split_and!; [done..|]. rewrite Hname. exact Hstrip.
Qed.

Lemma creating_step d agent_id seen st now entry : creating d agent_id seen st ->
  creating d agent_id (seen ++ [entry]) (bulk_create_step now agent_id st entry).
Proof.
  intros Hc. destruct entry as [id req]. unfold bulk_create_step.
  destruct (create_one st now agent_id id req) as [numbers [[[d' dn] [[url name] ty]]|e]] eqn:E; [|by apply creating_raise].
  apply create_one_ok in E as (-> & Hdn & E). by eapply creating_made.
Qed.

Lemma creating_from d agent_id now requests : forall seen st, creating d agent_id seen st ->
  creating d agent_id (seen ++ requests) (fold_left (bulk_create_step now agent_id) requests st).
Proof.
  induction requests as [|e rest IH]; intros seen st Hst; cbn; [by rewrite app_nil_r|].
  change (e :: rest) with ([e] ++ rest). rewrite app_assoc. by apply IH, creating_step.
Qed.

Lemma creating_all d agent_id now requests : agents_keyed d ->
  creating d agent_id requests
    (fold_left (bulk_create_step now agent_id) requests (BulkCreation d (list_to_set (display_names_for_agent d agent_id)) ∅ [])).
Proof.
  intros Hk. apply (creating_from d agent_id now requests []).
  split; cbn; [done|done|by left|constructor|]. intros _. split; [|done]. intros n. by rewrite elem_of_list_to_set.
Qed.

(** C24: A bulk creation answers for every URL, in order: with the check of that
    entry, new, on the agent, with the name and type it reports and never
    synthetic, or with its error; the checks there stay as they are and no other
    is made.  No two checks of the agent come to share a name if none did, as long
    as the names given hold no space at their ends. *)
Theorem bulk_creation_accounted d now agent_id requests d' results : agents_keyed d ->
  bulk_create_checks d now agent_id requests = (d', results) ->
  Forall2 (answered d d' agent_id) requests results
  /\ (forall i c, db_checks d !! i = Some c -> db_checks d' !! i = Some c)
  /\ (forall i c, db_checks d' !! i = Some c -> db_checks d !! i = Some c \/ i ∈ omap made results)
  /\ (names_stripped results -> names_distinct d agent_id -> names_distinct d' agent_id).
Proof.
  intros Hk. unfold bulk_create_checks. intros [= <- <-]. destruct (creating_all d agent_id now requests Hk) as [_ H1 H2 H3 H4].
  split_and!; [done..|]. intros Hs. by apply H4.
Qed.
End Create.

(** ** Changing many checks *)

(** What a bulk change makes of a check. *)
Definition modified (u : CheckUpdate) (new_agent_id : option uuid) (c : check) : check :=
  Check (ck_id c) (default (ck_agent_id c) new_agent_id) (ck_depends_on c) (ck_display_name c) (ck_type c) (ck_target c)
    (override_opt (cu_interval u) (ck_interval c)) (ck_enabled c) (ck_mode c) (ck_selector c) (ck_created_at c)
    (ck_script c) (ck_config c) (dict_update (ck_columns c) (cu_columns u)).

(** Which of them it makes it of. *)
Definition may_modify (d : db) (new_agent_id : option uuid) (actor_is_admin : bool) (i : uuid) : bool :=
  match db_checks d !! i with
  | None => false
  | Some c => (negb (is_synthetic c) || actor_is_admin)
              && match new_agent_id with
                 | Some n => bool_decide (n = ck_agent_id c)
                             || match get_admitted_agent d n with Ok _ => true | Raise _ => false end
                 | None => true
                 end
  end.

(** Each check under its id, with a script only if it is synthetic: an invariant
    of [Checks]. *)
Definition checks_ok (d : db) : Prop :=
  forall i c, db_checks d !! i = Some c -> ck_id c = i /\ (is_synthetic c = false -> ck_script c = None).

Lemma set_fields_none names : set_fields names [] = [].
Proof. unfold set_fields. induction names as [|n names IH]; [done|]. cbn. exact IH. Qed.

(** Setting a key again to what it holds changes nothing. *)
Definition holds_only (d : pydict) (k : string) (v : pyval) : Prop :=
  assoc_get d k <> None /\ Forall (fun kv => kv.1 = k -> kv = (k, v)) d.

Lemma set_held d k v : holds_only d k v -> dict_set d k v = d.
Proof.
  intros [Hs Ha]. unfold dict_set. destruct (assoc_get d k); [clear Hs|done].
  induction Ha as [|kv d Hkv Ha IH]; [done|]. cbn. rewrite IH. f_equal. destruct (decide (kv.1 = k)); [|done]. symmetry. auto.
Qed.

Lemma assoc_absent (d : pydict) k kv : assoc_get d k = None -> kv ∈ d -> kv.1 <> k.
Proof.
  induction d as [|[k' v'] d IH]; [by intros _ ?%elem_of_nil|]. cbn. destruct (assoc_get d k); [done|].
  intros E [->|Hin]%elem_of_cons; [|by apply IH]. cbn. destruct (decide (k = k')); congruence.
Qed.

Lemma held_after_set d k v : holds_only (dict_set d k v) k v.
Proof.
  split; [rewrite assoc_get_set; by rewrite decide_True|]. unfold dict_set. destruct (assoc_get d k) eqn:E.
  - clear E. induction d as [|kv d IH]; [constructor|]. constructor; [|done]. destruct (decide (kv.1 = k)); [done|done].
  - apply Forall_app. split; [|by repeat constructor]. apply Forall_forall. intros kv Hin Hk.
    by destruct (assoc_absent _ _ _ E Hin).
Qed.

Lemma held_set_other d k v j w : j <> k -> holds_only d k v -> holds_only (dict_set d j w) k v.
Proof.
  intros Hne [Hs Ha]. split; [rewrite assoc_get_set; by rewrite decide_False|]. unfold dict_set. destruct (assoc_get d j).
  - clear Hs. induction Ha as [|kv d Hkv Ha IH]; [constructor|]. constructor; [|done]. destruct (decide (kv.1 = j)); [done|done].
  - apply Forall_app. split; [done|]. by repeat constructor.
Qed.

Section Modify.
Context `{BulkInput}.
Variables (interval timeout retry_attempts : option Z).
Let u := build_bulk_update_data interval timeout retry_attempts.

Lemma in_place d now i c admin : db_checks d !! i = Some c -> (is_synthetic c = false -> ck_script c = None) ->
  update_check target_verdict script_verdict d now i u admin =
  if negb (is_synthetic c) || admin
  then Ok (touch_agents (set_checks_table d (<[i := modified u None c]> (db_checks d))) now [ck_agent_id c])
  else Raise AuthorizationException.
Proof.
  intros Hc Hs. unfold update_check, get_check_by_id. rewrite Hc. cbn [mbind res_bind].
  unfold u, build_bulk_update_data. cbn -[SYNTHETIC]. unfold take_config_updates. rewrite set_fields_none, bool_decide_some_eq.
  rewrite (bool_decide_eq_true_2 (Some (ck_type c) = Some (ck_type c))) by done. cbn [negb].
  assert (bool_decide (ck_type c = SYNTHETIC) = is_synthetic c) as Hb.
  { unfold is_synthetic. destruct (String.eqb_spec (ck_type c) SYNTHETIC) as [->|]; [done|by apply bool_decide_eq_false_2]. }
  rewrite Hb. clear Hb. destruct (is_synthetic c) eqn:Esyn; cbn [orb negb andb was_sent].
  - destruct admin; [|done]. cbn [require_admin_actor mbind res_bind]. unfold modified. destruct interval, timeout, retry_attempts; reflexivity.
  - cbn [mbind res_bind]. unfold modified. rewrite (Hs eq_refl). destruct interval, timeout, retry_attempts; reflexivity.
Qed.

Lemma columns_twice d : dict_update (dict_update d (cu_columns u)) (cu_columns u) = dict_update d (cu_columns u).
Proof.
  unfold u, dict_update. destruct timeout as [t|], retry_attempts as [r|]; cbn -[dict_set]; [|by rewrite set_held by apply held_after_set..|done].
  rewrite (set_held _ "timeout_seconds") by (apply held_set_other; [done|apply held_after_set]).
  by rewrite set_held by apply held_after_set.
Qed.

Lemma modified_twice new c : modified u new (modified u new c) = modified u new c.
Proof.
  unfold modified. cbn -[u]. rewrite columns_twice. f_equal; [by destruct new|]. unfold u. cbn. by destruct interval.
Qed.

Lemma moved c a : move_check_to_agent c a u = modified u (Some (ag_id a)) c.
Proof. unfold move_check_to_agent, modified, u. destruct interval, timeout, retry_attempts; reflexivity. Qed.

(** The verdict of [may_modify] on a row. *)
Definition may_row (d : db) (new : option uuid) (admin : bool) (c : check) : bool :=
  (negb (is_synthetic c) || admin)
  && match new with
     | Some n => bool_decide (n = ck_agent_id c) || match get_admitted_agent d n with Ok _ => true | Raise _ => false end
     | None => true
     end.

(** The agents a change tells in its own step, and those it leaves to the end. *)
Definition changes_row (d d' : db) (now : instant) (new : option uuid) (i : uuid) (c : check) (agents : list uuid) : Prop :=
  let t := <[i := modified u new c]> (db_checks d) in
  (agents = [] /\ default (ck_agent_id c) new = ck_agent_id c /\ d' = touch_agents (set_checks_table d t) now [ck_agent_id c])
  \/ (agents = [ck_agent_id c; default (ck_agent_id c) new] /\ d' = set_checks_table d t).

Lemma modify_one_row d0 d now new admin i c : agents_keyed d0 ->
  db_checks d !! i = Some c -> ck_id c = i -> (is_synthetic c = false -> ck_script c = None) ->
  if may_row d0 new admin c
  then exists d' agents, modify_one d now (n ← new; Some (n, get_admitted_agent d0 n)) u admin i = Ok (d', agents)
         /\ changes_row d d' now new i c agents
  else exists e, modify_one d now (n ← new; Some (n, get_admitted_agent d0 n)) u admin i = Raise e.
Proof.
  intros Hk Hc Hid Hs. unfold may_row, modify_one. rewrite Hc, Hid, (in_place d now i c admin Hc Hs).
  destruct new as [n|]; cbn [mbind option_bind].
  2: { rewrite andb_true_r. destruct (negb _ || admin); cbn [mbind res_bind]; [|by eexists]. eexists _, _. split; [done|]. by left. }
  destruct (bool_decide_reflect (n = ck_agent_id c)) as [->|Hne]; cbn [orb].
  { rewrite andb_true_r. destruct (negb _ || admin); cbn [mbind res_bind]; [|by eexists]. eexists _, _. split; [done|]. left. done. }
  destruct (get_admitted_agent d0 n) as [a|e] eqn:Ea; [|rewrite andb_false_r; by eexists].
  apply admitted_inv, Hk in Ea. rewrite andb_true_r. destruct (is_synthetic c), admin; cbn [orb negb require_admin_actor mbind res_bind];
    [|by eexists|..]; (eexists _, _; split; [done|]; right; rewrite moved, Ea; done).
Qed.

(** Everything but the checks and the agents *)
Definition rest_of (d : db) := (db_alerts d, db_check_maps d, db_notif_maps d, db_providers d, db_results d, db_logs d).

Definition told (now : instant) (st : bulk_modification) (j : uuid) : Prop :=
  j ∈ bm_affected st \/ forall a, db_agents (bm_db st) !! j = Some a -> ag_checks_updated_at a = Some now.

Record modifying (d : db) (now : instant) (new : option uuid) (admin : bool) (seen : list uuid) (st : bulk_modification) : Prop := {
  md_rows : forall i, db_checks (bm_db st) !! i =
    (fun c => if bool_decide (i ∈ bm_changed st) then modified u new c else c) <$> db_checks d !! i;
  md_agents : same_agents d (bm_db st);
  md_rest : rest_of (bm_db st) = rest_of d;
  md_changed : bm_changed st = filter (fun i => may_modify d new admin i = true) seen;
  md_errors : length (bm_errors st) = length (filter (fun i => may_modify d new admin i = false) seen);
  md_told : forall i c, i ∈ bm_changed st -> db_checks d !! i = Some c ->
    told now st (ck_agent_id c) /\ told now st (default (ck_agent_id c) new);
  md_quiet : forall j, (forall i c, i ∈ bm_changed st -> db_checks d !! i = Some c -> j <> ck_agent_id c /\ j <> default (ck_agent_id c) new) ->
    j ∉ bm_affected st /\ db_agents (bm_db st) !! j = db_agents d !! j;
}.

Lemma may_row_modified d new admin c : may_row d new admin c = true -> may_row d new admin (modified u new c) = true.
Proof.
  unfold may_row. intros [Hs Hn]%andb_true_iff. change (is_synthetic (modified u new c)) with (is_synthetic c). rewrite Hs.
  cbn [andb]. destruct new as [n|]; [|done]. cbn. by rewrite bool_decide_eq_true_2.
Qed.

Lemma may_modify_row d new admin i c : db_checks d !! i = Some c -> may_modify d new admin i = may_row d new admin c.
Proof. unfold may_modify. by intros ->. Qed.

(** The step's new row, seen from the first state. *)
Lemma changes_row_facts d d' now new i c agents : changes_row d d' now new i c agents ->
  db_checks d' = <[i := modified u new c]> (db_checks d) /\ same_agents d d' /\ rest_of d' = rest_of d
  /\ (forall j, told now (BulkModification d [] [] []) j -> told now (BulkModification d' [] [] []) j)
  /\ (forall j, j = ck_agent_id c \/ j = default (ck_agent_id c) new -> told now (BulkModification d' [] [] agents) j)
  /\ (forall j, j <> ck_agent_id c -> j <> default (ck_agent_id c) new -> j ∉ agents /\ db_agents d' !! j = db_agents d !! j).
Proof.
  intros [(-> & Hn & ->)|[-> ->]]; cbn -[u].
  - split_and!; [done|exact (touch_same_agents (set_checks_table d _) now _)|done|..]; unfold told; cbn -[u].
    + intros j [?|Hj]; [by left|right]. intros a. rewrite map_lookup_imap. destruct (db_agents d !! j) as [a0|] eqn:E; [|done].
      cbn. specialize (Hj a0 eq_refl). destruct (bool_decide _); intros [= <-]; done.
    + rewrite Hn. intros j Hj. assert (j = ck_agent_id c) as -> by tauto. right. intros a. rewrite map_lookup_imap.
      destruct (db_agents d !! _); [|done]. cbn. rewrite bool_decide_eq_true_2 by (by apply list_elem_of_singleton). by intros [= <-].
    + intros j Hj _. split; [by intros ?%elem_of_nil|]. rewrite map_lookup_imap. destruct (db_agents d !! j); [|done]. cbn.
      rewrite bool_decide_eq_false_2; [done|]. by intros ->%list_elem_of_singleton.
  - split_and!; [done|done|done|done| |]; unfold told; cbn -[u].
    + intros j [->| ->]; left; rewrite !elem_of_cons; auto.
    + intros j H1 H2. split; [|done]. rewrite !elem_of_cons, elem_of_nil. tauto.
Qed.

Lemma modifying_refused d now new admin seen st i : modifying d now new admin seen st -> may_modify d new admin i = false ->
  (exists e, modify_one (bm_db st) now (n ← new; Some (n, get_admitted_agent d n)) u admin i = Raise e) ->
  modifying d now new admin (seen ++ [i]) (bulk_modify_step now (n ← new; Some (n, get_admitted_agent d n)) u admin st i).
Proof.
  intros [Hr Ha Hrest Hch Herr Ht Hq] Hf [e He]. unfold bulk_modify_step. rewrite He. split; cbn -[u]; [done..| | |done|done].
  - rewrite filter_app, filter_cons_False by congruence. by rewrite app_nil_r.
  - rewrite filter_app, filter_cons_True by done. rewrite !length_app, Herr. done.
Qed.

(** The row a check has now, of which it may already be the change. *)
Lemma current_row d now new admin seen st i c0 : modifying d now new admin seen st -> db_checks d !! i = Some c0 ->
  exists c, db_checks (bm_db st) !! i = Some c /\ may_row d new admin c = may_row d new admin c0
    /\ modified u new c = modified u new c0 /\ ck_id c = ck_id c0
    /\ ((is_synthetic c0 = false -> ck_script c0 = None) -> is_synthetic c = false -> ck_script c = None)
    /\ (i ∈ bm_changed st \/ c = c0)
    /\ (forall j, j = ck_agent_id c \/ j = default (ck_agent_id c) new -> j = ck_agent_id c0 \/ j = default (ck_agent_id c0) new).
Proof.
  intros [Hr _ _ Hch _ _ _] Hc0. pose proof (Hr i) as Hi. rewrite Hc0 in Hi. cbn -[u] in Hi.
  case_bool_decide as Hin; [|exists c0; split_and!; auto].
  exists (modified u new c0). split_and!; [done| |apply modified_twice|done|done|by left|cbn; destruct new; cbn; tauto].
  rewrite Hch in Hin. apply list_elem_of_filter in Hin as [Hin _]. rewrite (may_modify_row d new admin i c0 Hc0) in Hin.
  rewrite Hin. by apply may_row_modified.
Qed.

Lemma modifying_step d now new admin seen st i : checks_ok d -> agents_keyed d -> modifying d now new admin seen st ->
  modifying d now new admin (seen ++ [i])
    (bulk_modify_step now (n ← new; Some (n, get_admitted_agent d n)) u admin st i).
Proof.
  intros Hok Hk Hm. destruct (db_checks d !! i) as [c0|] eqn:Hc0.
  2: { apply modifying_refused; [done|by unfold may_modify; rewrite Hc0|]. eexists. unfold modify_one.
       by rewrite (md_rows _ _ _ _ _ _ Hm), Hc0. }
  destruct (current_row _ _ _ _ _ _ _ _ Hm Hc0) as (c & Hci & Hsame & Hmod & Hid & Hscript & Hor & Hown).
  destruct (Hok i c0 Hc0) as [Hid0 Hs0]. pose proof (may_modify_row d new admin i c0 Hc0) as Hmay.
  pose proof (modify_one_row d (bm_db st) now new admin i c Hk Hci ltac:(congruence) (Hscript Hs0)) as Hone.
  rewrite Hsame, <- Hmay in Hone. destruct (may_modify d new admin i) eqn:Em; [|by apply modifying_refused].
  destruct Hone as (d' & agents & E & (Hd' & Hag & Hre & Hmono & Htold & Hquiet)%changes_row_facts).
  unfold bulk_modify_step. rewrite E. destruct Hm as [Hr Ha Hrest Hch Herr Ht Hq]. split; cbn -[u].
  - intros j. rewrite Hd'. destruct (decide (j = i)) as [->|Hne].
    + rewrite lookup_insert_eq, Hc0, Hmod. cbn. rewrite bool_decide_eq_true_2; [done|]. apply elem_of_app. right. by apply list_elem_of_singleton.
    + rewrite lookup_insert_ne, Hr by done. destruct (db_checks d !! j); [|done]. cbn -[u]. f_equal.
      assert (bool_decide (j ∈ bm_changed st ++ [i]) = bool_decide (j ∈ bm_changed st)) as ->; [|done].
      apply bool_decide_ext. rewrite elem_of_app, list_elem_of_singleton. tauto.
  - intros j. by rewrite (Hag j).
  - by rewrite Hre.
  - rewrite filter_app, filter_cons_True, Hch by done. done.
  - rewrite filter_app, filter_cons_False, app_nil_r by congruence. done.
  - assert (Hup : forall j, told now st j -> told now (BulkModification d' (bm_errors st) (bm_changed st ++ [i]) (bm_affected st ++ agents)) j).
    { intros j [Hj|Hj]; [left; apply elem_of_app; by left|]. destruct (Hmono j) as [Hin|Hin]; [by right|by apply elem_of_nil in Hin|by right]. }
    assert (Hnew : forall j, j = ck_agent_id c \/ j = default (ck_agent_id c) new ->
      told now (BulkModification d' (bm_errors st) (bm_changed st ++ [i]) (bm_affected st ++ agents)) j).
    { intros j Hj. destruct (Htold j Hj) as [Hin|Hin]; [left; apply elem_of_app; by right|by right]. }
    intros j cj [Hj| ->%list_elem_of_singleton]%elem_of_app Hcj.
    + destruct (Ht j cj Hj Hcj). by split; apply Hup.
    + assert (cj = c0) as -> by congruence. destruct Hor as [Hin| ->]; [|split; apply Hnew; auto].
      destruct (Ht i c0 Hin Hc0). by split; apply Hup.
  - intros j Hj. destruct (Hq j) as [Hna Hag'].
    { intros k ck Hk' Hck. apply (Hj k ck); [|done]. apply elem_of_app. by left. }
    assert (j <> ck_agent_id c0 /\ j <> default (ck_agent_id c0) new) as [H1 H2].
    { apply (Hj i c0); [|done]. apply elem_of_app. right. by apply list_elem_of_singleton. }
    destruct (Hquiet j) as [Hna' Hag'']; [intros Hx; destruct (Hown j (or_introl Hx)); congruence|intros Hx; destruct (Hown j (or_intror Hx)); congruence|].
    split; [by rewrite not_elem_of_app|]. by rewrite Hag''.
Qed.

Lemma modifying_from d now new admin ids : checks_ok d -> agents_keyed d -> forall seen st, modifying d now new admin seen st ->
  modifying d now new admin (seen ++ ids)
    (fold_left (bulk_modify_step now (n ← new; Some (n, get_admitted_agent d n)) u admin) ids st).
Proof.
  intros Hok Hk. induction ids as [|i ids IH]; intros seen st Hst; cbn [fold_left]; [by rewrite app_nil_r|].
  change (i :: ids) with ([i] ++ ids). rewrite app_assoc. by apply IH, modifying_step.
Qed.

Lemma filter_partition (f : uuid -> bool) ids :
  length (filter (fun i => f i = true) ids) + length (filter (fun i => f i = false) ids) = length ids.
Proof.
  induction ids as [|i ids IH]; [done|]. destruct (f i) eqn:E.
  - rewrite filter_cons_True, filter_cons_False by congruence. cbn. lia.
  - rewrite filter_cons_False, filter_cons_True by congruence. cbn. lia.
Qed.

(** C21: A bulk change answers for every id once, as changed or as an error.  The
    changed are those that exist, that the actor may change (a synthetic check is an
    admin's) and whose new agent takes checks; each of them has the new agent and the
    new interval, timeout and retries and is otherwise as it was, every other row of
    the database included; the agents that lose or gain one are told to reload, and
    no other agent is touched. *)
Theorem bulk_modify_exact d now ids new admin d' changed errors : checks_ok d -> agents_keyed d ->
  bulk_modify d now ids (build_bulk_update_data interval timeout retry_attempts) new admin = (d', changed, errors) ->
  changed = filter (fun i => may_modify d new admin i = true) ids /\ length changed + length errors = length ids
  /\ (forall i, db_checks d' !! i =
        (fun c => if bool_decide (i ∈ changed)
                  then modified (build_bulk_update_data interval timeout retry_attempts) new c else c) <$> db_checks d !! i)
  /\ rest_of d' = rest_of d
  /\ (forall i c j a, i ∈ changed -> db_checks d !! i = Some c -> j = ck_agent_id c \/ j = default (ck_agent_id c) new ->
        db_agents d' !! j = Some a -> ag_checks_updated_at a = Some now)
  /\ (forall j, (forall i c, i ∈ changed -> db_checks d !! i = Some c -> j <> ck_agent_id c /\ j <> default (ck_agent_id c) new) ->
        db_agents d' !! j = db_agents d !! j).
Proof.
  intros Hok Hk. unfold bulk_modify. intros [= <- <- <-].
  assert (modifying d now new admin [] (BulkModification d [] [] [])) as H0.
  { split; cbn -[u]; [|done..| |].
    - intros i. destruct (db_checks d !! i); [|done]. cbn -[u]. by rewrite bool_decide_eq_false_2 by by intros ?%elem_of_nil.
    - by intros i c ?%elem_of_nil.
    - intros j _. split; [by intros ?%elem_of_nil|done]. }
  pose proof (modifying_from d now new admin ids Hok Hk [] _ H0) as Hm. cbn [app] in Hm. fold u.
  set (st := fold_left _ _ _) in *. clearbody st. destruct Hm as [Hr _ Hrest Hch Herr Ht Hq].
  split_and!; [exact Hch| |exact Hr|exact Hrest| |].
  - rewrite Herr, Hch. apply filter_partition.
  - intros i c j a Hi Hc Hj Ha. cbn in Ha. rewrite map_lookup_imap in Ha. destruct (db_agents (bm_db st) !! j) as [a0|] eqn:Ea; [|done].
    cbn in Ha. injection Ha as <-. case_bool_decide as Hin; [done|].
    assert (told now st j) as [|Hno] by (destruct (Ht i c Hi Hc), Hj as [->| ->]; done); [done|]. by apply Hno.
  - intros j Hj. destruct (Hq j Hj) as [Hna Ha]. cbn. rewrite map_lookup_imap, Ha. destruct (db_agents d !! j); [|done]. cbn.
    by rewrite bool_decide_eq_false_2.
Qed.
End Modify.

(** ** Import *)

Lemma existing_fold l : forall (m : gmap string uuid),
  (forall n i, fold_left (fun m c => <[ck_display_name c := ck_id c]> m) l m !! n = Some i ->
     m !! n = Some i \/ exists c, c ∈ l /\ ck_display_name c = n /\ ck_id c = i)
  /\ (forall n, is_Some (m !! n) \/ (exists c, c ∈ l /\ ck_display_name c = n) ->
     is_Some (fold_left (fun m c => <[ck_display_name c := ck_id c]> m) l m !! n)).
Proof.
  induction l as [|c l IH]; intros m; cbn [fold_left].
  { split; [by left|]. intros n [|(c & ?%elem_of_nil & _)]; done. }
  destruct (IH (<[ck_display_name c := ck_id c]> m)) as [H1 H2]. split.
  - intros n i [Hm|(c' & Hc' & ?)]%H1; [|right; exists c'; by split; [right|]].
    destruct (decide (ck_display_name c = n)) as [<-|Hne]; [|rewrite lookup_insert_ne in Hm by done; by left].
    rewrite lookup_insert_eq in Hm. injection Hm as <-. right. exists c. split; [left|done].
  - intros n Hn. apply H2. destruct (decide (ck_display_name c = n)) as [<-|Hne]; [left; rewrite lookup_insert_eq; by eexists|].
    rewrite lookup_insert_ne by done. destruct Hn as [|(c' & [->|Hc']%elem_of_cons & ?)]; [by left|done|right; eauto].
Qed.

(** [existing_map] is the table of the agent's checks by name. *)
Definition named_map (d : db) (agent_id : uuid) (m : gmap string uuid) : Prop :=
  forall n i, m !! n = Some i <-> exists c, db_checks d !! i = Some c /\ ck_agent_id c = agent_id /\ ck_display_name c = n.

Definition checks_keyed (d : db) : Prop := forall i c, db_checks d !! i = Some c -> ck_id c = i.

Lemma existing_named d agent_id : checks_keyed d -> names_distinct d agent_id -> named_map d agent_id (existing_checks d agent_id).
Proof.
  intros Hk Hd n i. unfold existing_checks. set (l := filter _ _). destruct (existing_fold l ∅) as [H1 H2].
  set (t := fold_left _ l ∅) in *.
  assert (Hl : forall c, c ∈ l <-> ck_agent_id c = agent_id /\ exists i, db_checks d !! i = Some c).
  { intros c. unfold l. by rewrite list_elem_of_filter, elem_of_rows. }
  assert (Hf : forall i, t !! n = Some i ->
    exists c, db_checks d !! i = Some c /\ ck_agent_id c = agent_id /\ ck_display_name c = n).
  { intros j [Hj|(c & [Ha [k Hc]]%Hl & Hn & Hid)]%H1; [by rewrite lookup_empty in Hj|].
    exists c. rewrite (Hk k c Hc) in Hid. by subst k. }
  split; [apply Hf|]. intros (c & Hc & Ha & Hn).
  destruct (H2 n) as [j Hj]; [right; exists c; split; [apply Hl; eauto|done]|]. rewrite Hj. f_equal.
  destruct (Hf j Hj) as (c' & Hc' & Ha' & Hn'). apply (Hd j i c' c); congruence.
Qed.

Lemma named_distinct d agent_id m : named_map d agent_id m -> names_distinct d agent_id.
Proof.
  intros Hm i j ci cj Hi Hj Hai Haj Hn.
  assert (m !! ck_display_name ci = Some i) as E1 by (apply Hm; eauto).
  assert (m !! ck_display_name ci = Some j) as E2 by (apply Hm; eauto). congruence.
Qed.

Section UpdateRow.
Variable validate_check_target : string -> res unit.
Variable validate_script : string -> res unit.

Lemma update_row d now id data admin d' :
  update_check validate_check_target validate_script d now id data admin = Ok d' ->
  exists c c', db_checks d !! id = Some c /\ db_checks d' = <[id := c']> (db_checks d) /\ same_agents d d'
    /\ ck_id c' = ck_id c /\ ck_agent_id c' = ck_agent_id c
    /\ (cu_display_name data = None -> ck_display_name c' = ck_display_name c).
Proof.
  unfold update_check, get_check_by_id. intros E. destruct (db_checks d !! id) as [c|]; [|done]. inv_res.
  eexists a, _. split_and!; [done|done|exact (touch_same_agents (set_checks_table d _) now _)|done|done|].
  intros Hn. cbn. match goal with H : not_null (cu_display_name data) _ = Ok _ |- _ => rewrite Hn in H; cbn in H; congruence end.
Qed.
End UpdateRow.

Lemma named_created d d' agent_id m i c : named_map d agent_id m -> db_checks d !! i = None -> db_checks d' = <[i := c]> (db_checks d) ->
  ck_agent_id c = agent_id -> m !! ck_display_name c = None -> named_map d' agent_id (<[ck_display_name c := i]> m).
Proof.
  intros Hm Hfresh E Ha Hno n j. rewrite E. destruct (decide (ck_display_name c = n)) as [Hn|Hn].
  - rewrite <- Hn, lookup_insert_eq. split.
    + intros [= <-]. exists c. by rewrite lookup_insert_eq.
    + intros (cj & Hj & Haj & Hnj). destruct (decide (i = j)) as [->|Hne]; [done|]. rewrite lookup_insert_ne in Hj by done.
      assert (m !! ck_display_name c = Some j) by (apply Hm; eauto). congruence.
  - rewrite lookup_insert_ne by done. rewrite (Hm n j). split; intros (cj & Hj & Haj & Hnj); exists cj.
    + rewrite lookup_insert_ne; [done|]. intros <-. congruence.
    + destruct (decide (i = j)) as [->|Hne]; [rewrite lookup_insert_eq in Hj; congruence|]. by rewrite lookup_insert_ne in Hj.
Qed.

Lemma named_updated d d' agent_id m i c c' : named_map d agent_id m -> db_checks d !! i = Some c -> db_checks d' = <[i := c']> (db_checks d) ->
  ck_agent_id c' = ck_agent_id c -> ck_display_name c' = ck_display_name c -> named_map d' agent_id m.
Proof.
  intros Hm Hc E Ha Hn n j. rewrite (Hm n j), E. destruct (decide (i = j)) as [->|Hne]; [|by rewrite lookup_insert_ne].
  rewrite lookup_insert_eq, Hc. split; intros (cj & [= <-] & Haj & Hnj); [exists c'|exists c]; split_and!; congruence.
Qed.

Section Importing.
Context `{BulkInput}.

(** What an import keeps of the state it began with. *)
Record import_frame (d : db) (agent_id : uuid) (overwrite : bool) (d' : db) (m : gmap string uuid) : Prop := {
  if_agents : agents_keyed d';
  if_named : named_map d' agent_id m;
  if_kept : forall i c, db_checks d !! i = Some c -> ck_agent_id c <> agent_id \/ overwrite = false -> db_checks d' !! i = Some c;
}.

(** A check of the map may be updated: of the first state's only the agent's own,
    and none of them when nothing is overwritten. *)
Lemma frame_updated d agent_id overwrite d1 m n i now data admin d2 : import_frame d agent_id overwrite d1 m ->
  m !! n = Some i -> (overwrite = false -> db_checks d !! i = None) -> cu_display_name data = None ->
  update_check target_verdict script_verdict d1 now i data admin = Ok d2 -> import_frame d agent_id overwrite d2 m.
Proof.
  intros [Ha Hn Hk] Hi Hover Hname (c & c' & Hc & E & Hag & _ & Hac & Hnc)%update_row. split.
  - by eapply same_agents_keyed.
  - eapply named_updated; [done|exact Hc|exact E|done|by apply Hnc].
  - intros j cj Hj Hor. rewrite E. destruct (decide (i = j)) as [->|Hne]; [|rewrite lookup_insert_ne by done; auto].
    exfalso. destruct Hor as [Hother|Hof]; [|by rewrite Hover in Hj].
    apply Hn in Hi as (c0 & Hc0 & Ha0 & _). rewrite (Hk j cj Hj (or_introl Hother)) in Hc0. congruence.
Qed.

Lemma import_one_frame d agent_id overwrite d1 m now id e admin d2 m2 o : import_frame d agent_id overwrite d1 m ->
  import_one d1 now agent_id id e m overwrite admin = Ok (d2, m2, o) ->
  import_frame d agent_id overwrite d2 m2 /\ (forall n i, m !! n = Some i -> m2 !! n = Some i)
  /\ exists i, m2 !! ce_name e = Some i /\ (o <> Skipped -> overwrite = false -> db_checks d !! i = None).
Proof.
  intros Hf. unfold import_one. destruct (m !! ce_name e) as [i|] eqn:Em.
  - destruct overwrite eqn:Eo; cbn [negb]; [|intros [= <- <- <-]; split_and!; [done|done|by exists i]].
    destruct (negb _); [done|]. intros E. inv_res. split_and!; [|done|by exists i].
    eapply (frame_updated _ _ _ _ _ _ _ _ (as_update e)); [done|exact Em|done|reflexivity|done].
  - destruct (negb _); [done|]. intros E. inv_res. destruct Hf as [Ha Hn Hk].
    match goal with H : create_check _ _ _ _ _ _ _ _ _ = Ok _ |- _ => apply create_row in H as (Hfresh & E & Hag & _); [|exact Ha] end.
    split; [|split].
    + split; [by eapply same_agents_keyed|by eapply (named_created _ _ _ _ id (created_check id agent_id (as_create e) now))|].
      intros i c Hi Hor. rewrite E, lookup_insert_ne; [auto|]. intros <-. rewrite (Hk _ _ Hi Hor) in Hfresh. done.
    + intros n i Hi. rewrite lookup_insert_ne; [done|]. congruence.
    + exists id. rewrite lookup_insert_eq. split; [done|]. intros _ Ho. destruct (db_checks d !! id) as [c|] eqn:Ec; [|done].
      rewrite (Hk _ _ Ec (or_intror Ho)) in Hfresh. done.
Qed.

(** An entry is imported, under its name on the agent, or it is an error. *)
Definition accounted (m : gmap string uuid) (errors : list (string * exn)) (raw : import_entry) : Prop :=
  (exists e i, validate_entry (ie_raw raw) = Ok e /\ m !! ce_name e = Some i) \/ exists x, (ie_name raw, x) ∈ errors.

Record importing (d : db) (agent_id : uuid) (overwrite : bool) (seen : list import_entry) (st : import_state) : Prop := {
  ig_frame : import_frame d agent_id overwrite (im_db st) (im_existing st);
  ig_seen : forall raw, raw ∈ seen -> accounted (im_existing st) (im_errors st) raw;
  ig_counts : length (im_outcomes st) + length (im_errors st) = length seen;
  ig_link : forall e, e ∈ im_to_link st -> exists i, im_existing st !! ce_name e = Some i /\ (overwrite = false -> db_checks d !! i = None);
}.

Lemma importing_error d agent_id overwrite seen st raw x : importing d agent_id overwrite seen st ->
  importing d agent_id overwrite (seen ++ [raw])
    (ImportState (im_db st) (im_existing st) (im_outcomes st) (im_errors st ++ [(ie_name raw, x)]) (im_to_link st)).
Proof.
  intros [Hf Hs Hc Hl]. split; cbn; [done| |rewrite !length_app; cbn; lia|done].
  intros r [Hr| ->%list_elem_of_singleton]%elem_of_app; [|right; exists x; apply elem_of_app; right; by apply list_elem_of_singleton].
  destruct (Hs r Hr) as [|[y Hy]]; [by left|right; exists y; apply elem_of_app; by left].
Qed.

Lemma importing_step d agent_id overwrite admin seen st now raw : importing d agent_id overwrite seen st ->
  importing d agent_id overwrite (seen ++ [raw]) (import_step now agent_id overwrite admin st raw).
Proof.
  intros Hi. unfold import_step, import_raw. destruct (validate_entry (ie_raw raw)) as [e|] eqn:Er; cbn [mbind res_bind]; [|by apply importing_error].
  destruct (import_one _ _ _ _ _ _ _ _) as [[[d2 m2] o]|x] eqn:E; cbn [mbind res_bind]; [|by apply importing_error].
  destruct Hi as [Hf Hs Hc Hl]. apply (import_one_frame d) in E as (Hf2 & Hmono & i & Hi & Hnew); [|done].
  split; cbn; [done| | |].
  - intros r [Hr| ->%list_elem_of_singleton]%elem_of_app; [|left; eauto].
    destruct (Hs r Hr) as [(e' & i' & He' & Hi')|]; [left; eauto|by right].
  - rewrite !length_app. cbn. lia.
  - intros e' [He'|He']%elem_of_app; [destruct (Hl e' He') as (i' & Hi' & ?); exists i'; auto|].
    destruct (negb _ && _) eqn:Eo; [|by apply elem_of_nil in He']. apply list_elem_of_singleton in He' as ->.
    exists i. split; [done|]. apply Hnew. intros ->. done.
Qed.

Lemma importing_from d agent_id overwrite admin now checks : forall seen st, importing d agent_id overwrite seen st ->
  importing d agent_id overwrite (seen ++ checks) (fold_left (import_step now agent_id overwrite admin) checks st).
Proof.
  induction checks as [|r checks IH]; intros seen st Hst; cbn [fold_left]; [by rewrite app_nil_r|].
  change (r :: checks) with ([r] ++ checks). rewrite app_assoc. by apply IH, importing_step.
Qed.

(** The parents are linked on the checks of the entries, and an error is added at most for each. *)
Lemma linking d agent_id overwrite m now admin entries : forall d1 errors,
  (forall e, e ∈ entries -> exists i, m !! ce_name e = Some i /\ (overwrite = false -> db_checks d !! i = None)) ->
  import_frame d agent_id overwrite d1 m ->
  let r := fold_left (link_step now m admin) entries (d1, errors) in
  import_frame d agent_id overwrite r.1 m /\ exists more, r.2 = errors ++ more /\ length more <= length entries
    /\ Forall (fun x => x.1 ∈ map ce_name entries) more.
Proof.
  induction entries as [|e entries IH]; intros d1 errors Hl Hf; cbn [fold_left].
  { split; [done|]. exists []. by rewrite app_nil_r. }
  assert (Hl' : forall e, e ∈ entries -> exists i, m !! ce_name e = Some i /\ (overwrite = false -> db_checks d !! i = None)).
  { intros e' He'. apply Hl. by right. }
  assert (Hmap : forall more, Forall (fun x : string * exn => x.1 ∈ map ce_name entries) more ->
    Forall (fun x => x.1 ∈ map ce_name (e :: entries)) more).
  { intros more Hm. eapply Forall_impl; [exact Hm|]. intros x Hx. by right. }
  cbv zeta. unfold link_step at 2 4. cbn [fst snd]. destruct (link_parent d1 now e m admin) as [d2|x] eqn:E.
  - destruct (IH d2 errors Hl') as (Hf2 & more & -> & Hlen & Hall); [|split; [done|exists more; split_and!; [done|cbn; lia|auto]]].
    unfold link_parent in E. inv_res. destruct (Hl e) as (i & Hi & Hnew); [by left|]. rewrite Hi in E. inv_res.
    destruct (bool_decide _); [inv_res; done|].
    eapply (frame_updated _ _ _ _ _ _ _ _ (only_depends _)); [done|exact Hi|done|reflexivity|done].
  - destruct (IH d1 (errors ++ [(ce_name e, x)]) Hl' Hf) as (Hf2 & more & -> & Hlen & Hall). split; [done|].
    exists ((ce_name e, x) :: more). rewrite <- app_assoc. split_and!; [done|cbn; lia|].
    constructor; [by left|auto].
Qed.

(** C22: After an import each name is that of at most one check of the agent, if it
    was before; every entry is a check of the agent under its name, or an error under
    its name; the checks of other agents are as they were, and all that were there are
    when nothing is overwritten; the outcomes and the errors account for every entry. *)
Theorem import_keeps_names d now agent_id checks overwrite admin d' outcomes errors :
  agents_keyed d -> checks_keyed d -> names_distinct d agent_id ->
  bulk_import_checks d now agent_id checks overwrite admin = Ok (d', outcomes, errors) ->
  names_distinct d' agent_id
  /\ (forall raw, raw ∈ checks ->
        (exists e i c, validate_entry (ie_raw raw) = Ok e /\ db_checks d' !! i = Some c /\ ck_agent_id c = agent_id /\ ck_display_name c = ce_name e)
        \/ exists x, (ie_name raw, x) ∈ errors)
  /\ (forall i c, db_checks d !! i = Some c -> ck_agent_id c <> agent_id \/ overwrite = false -> db_checks d' !! i = Some c)
  /\ length outcomes <= length checks <= length outcomes + length errors.
Proof.
  intros Ha Hk Hn. unfold bulk_import_checks. destruct (get_admitted_agent d agent_id); [|done]. cbn [mbind res_bind].
  assert (importing d agent_id overwrite [] (ImportState d (existing_checks d agent_id) [] [] [])) as H0.
  { split; cbn; [|by intros ? ?%elem_of_nil|done|by intros ? ?%elem_of_nil]. split; [done|by apply existing_named|done]. }
  apply (importing_from _ _ _ admin now checks) in H0. cbn [app] in H0. set (st := fold_left _ checks _) in *. clearbody st.
  destruct H0 as [Hf Hs Hc Hl].
  pose proof (linking d agent_id overwrite (im_existing st) now admin
    (filter (fun e => has_parent e = false) (im_to_link st) ++ filter (fun e => has_parent e = true) (im_to_link st)) (im_db st) (im_errors st)) as Hlink.
  destruct (fold_left _ _ _) as [d2 errs]. intros [= <- <- <-].
  destruct Hlink as ([Hfa Hfn Hfk] & more & Herr & _); [|done|].
  { intros e [[_ He]%list_elem_of_filter|[_ He]%list_elem_of_filter]%elem_of_app; auto. }
  cbn [fst snd] in *. subst errs. split_and!.
  - by eapply named_distinct.
  - intros raw Hraw. destruct (Hs raw Hraw) as [(e & i & He & Hi)|[x Hx]].
    + left. apply Hfn in Hi as (c & Hi & ? & ?). eauto 10.
    + right. exists x. apply elem_of_app. by left.
  - done.
  - lia.
  - rewrite length_app. lia.
Qed.
End Importing.

(** ** Export, and back *)



















Section RoundTrip.
Context `{BulkInput}.

(** What pydantic takes of the values JSON has. *)
Class ReadLaws : Prop := {
  int_as_int z : as_int (PInt z) = Some z;
  bool_as_bool b : as_bool (PBool b) = Some b;
  uuid_as_uuid i : (i < uuid_bound)%N -> as_uuid (PStr (uuid_str i)) = Some i;
  as_uuid_bound v i : as_uuid v = Some i -> (i < uuid_bound)%N }.
Context `{!ReadLaws}.



























(** *** What an export makes of a stored check *)












End RoundTrip.

(** ** A check written with its alerts *)

Section WithAlerts.
Context `{BulkInput}.

Lemma assign_alerts_pairs d c ids d' : assign_alerts d c ids = Ok d' ->
  forall p, p ∈ pairs d' <-> p ∈ pairs d \/ p.2 = c /\ p.1 ∈ ids.
Proof.
  unfold assign_alerts. destruct (get_check_by_id d c) as [row|]; [|done]. cbn [mbind res_bind]. clear row. revert d.
  induction ids as [|a ids IH]; intros d; cbn [fold_res].
  { intros [= <-] p. rewrite elem_of_nil. tauto. }
  destruct (add_check d a c) as [d1|e] eqn:E.
  - cbn [mbind res_bind]. intros Hf p. rewrite (IH d1 Hf). apply add_check_ok, add_check_mapping_ok in E as (-> & _).
    unfold pairs. cbn. rewrite map_app, elem_of_app, elem_of_cons. cbn. rewrite list_elem_of_singleton. destruct p as [x y]. cbn.
    split; [intros [[|[= -> ->]]|]; tauto|]. intros [|[-> [->|]]]; tauto.
  - destruct e; cbn [mbind res_bind]; try done. intros Hf p. rewrite (IH d Hf), elem_of_cons. split; [tauto|].
    intros [|[Hp [Ha|]]]; [tauto| |tauto]. left. destruct p as [x y]. cbn in *. subst.
    unfold add_check in E. destruct (get_check_mapping d a c) as [m|] eqn:Em.
    + apply get_check_mapping_pair in Em as [Hm <-]. unfold pairs. by apply list_elem_of_fmap_2.
    + unfold add_check_mapping in E. destruct (db_alerts d !! a), (db_checks d !! c); try done. by destruct (bool_decide _).
Qed.

(** A check created with alerts has them and the enabled global ones, and no
    other; every other check keeps the alerts it had. *)
Theorem created_with_its_alerts d now id agent_id data alert_ids admin d' : maps_ok d ->
  create_check_with_alerts d now id agent_id data alert_ids admin = Ok d' ->
  (forall a, a ∈ list_alert_ids_for_check d' id <-> a ∈ alert_ids \/ a ∈ list_global_enabled_alert_ids d)
  /\ (forall a j, j <> id -> a ∈ list_alert_ids_for_check d' j <-> a ∈ list_alert_ids_for_check d j).
Proof.
  intros Hd. unfold create_check_with_alerts. intros E. inv_res.
  match goal with H : create_check _ _ _ _ _ _ _ _ _ = Ok _ |- _ => apply create_shape in H as (ag & d1 & _ & Hfresh & Hg & -> & _) end.
  cbn in E. pose proof (assign_alerts_pairs _ _ _ _ E) as Hp. clear E.
  assert (Hnone : list_alert_ids_for_check d id = []).
  { destruct (list_alert_ids_for_check d id) as [|x l] eqn:El; [done|]. assert (x ∈ list_alert_ids_for_check d id) as Hx by (rewrite El; left).
    apply elem_of_alert_ids in Hx. unfold pairs in Hx. apply list_elem_of_fmap in Hx as (m & Em & Hm).
    destruct (pairs_check d Hd m Hm) as [c Hc]. injection Em as _ Em. congruence. }
  unfold assign_global_alerts_to_check in Hg. rewrite add_for_check in Hg. apply add_pairs_ok in Hg as (-> & _ & _).
  change (list_alert_ids_for_check (set_checks_table _ _) id) with (list_alert_ids_for_check d id) in Hp. rewrite Hnone in Hp.
  assert (Hpairs : forall p, p ∈ pairs d' <-> p ∈ pairs d \/ p.2 = id /\ (p.1 ∈ alert_ids \/ p.1 ∈ list_global_enabled_alert_ids d)).
  { intros p. rewrite Hp. unfold pairs at 1. cbn. rewrite map_app, pair_of_fresh_rows, elem_of_app. fold (pairs d).
    rewrite (list_elem_of_fmap (fun a => (a, id))).
    destruct p as [x y]. cbn. split.
    - intros [[?|(z & [= -> ->] & [_ Hz]%list_elem_of_filter)]|]; tauto.
    - intros [|[-> [|Hx]]]; [tauto|tauto|]. left. right. exists x. split; [done|]. apply list_elem_of_filter. by split; [intros ?%elem_of_nil|]. }
  assert (Hid : forall x, (x, id) ∉ pairs d).
  { intros x Hx%elem_of_alert_ids. rewrite Hnone in Hx. by apply elem_of_nil in Hx. }
  split; intros x; [|intros j Hj]; rewrite !elem_of_alert_ids, Hpairs; cbn; [|tauto]. specialize (Hid x). tauto.
Qed.

(** After an update or a clone with alerts, they are exactly the check's. *)
Theorem updated_with_its_alerts d now id data alert_ids admin d' :
  update_check_with_alerts d now id data (Some alert_ids) admin = Ok d' ->
  forall a, a ∈ list_alert_ids_for_check d' id <-> a ∈ alert_ids.
Proof. unfold update_check_with_alerts. intros E. inv_res. by apply sync_exact in E as [? _]. Qed.

Theorem cloned_with_its_alerts d now id source agent_id overrides alert_ids admin d' :
  clone_check_with_alerts d now id source agent_id overrides alert_ids admin = Ok d' ->
  forall a, a ∈ list_alert_ids_for_check d' id <-> a ∈ alert_ids.
Proof. unfold clone_check_with_alerts. intros E. inv_res. by apply sync_exact in E as [? _]. Qed.
End WithAlerts.

(** ** The jobs, and whose authority they have *)

Lemma add_check_checks d a c d' : add_check d a c = Ok d' -> db_checks d' = db_checks d.
Proof. by intros (-> & _)%add_check_ok%add_check_mapping_ok. Qed.

Lemma remove_all_checks l c : forall d, db_checks (fold_left (fun e a => remove_check e a c) l d) = db_checks d.
Proof. induction l as [|a l IH]; intros d; [done|]. cbn [fold_left]. by rewrite IH. Qed.

Lemma sync_checks d c l d' : sync_check_alerts d c l = Ok d' -> db_checks d' = db_checks d.
Proof.
  unfold sync_check_alerts. rewrite <- (remove_all_checks (minus (list_alert_ids_for_check d c) l) c d).
  set (d1 := fold_left _ _ d). intros E. apply (fold_res_ind (fun e => db_checks e = db_checks d1)) in E; [done| |done].
  intros x a y _ Hx Hy. rewrite <- Hx. by eapply add_check_checks.
Qed.

Lemma bulk_assign_checks d a ids r : bulk_assign_to_checks d a ids = Ok r -> db_checks r.1 = db_checks d.
Proof.
  unfold bulk_assign_to_checks. destruct (get_alert_by_id d a); [|done]. cbn [mbind res_bind]. intros E. inv_res. cbn.
  match goal with H : fold_res _ _ _ = Ok _ |- _ => apply (fold_res_ind (fun e => db_checks e = db_checks d)) in H; [done| |done] end.
  intros x i y _ Hx. case_bool_decide; [by intros [= <-]|]. intros Hy. rewrite <- Hx. by eapply sync_checks.
Qed.

Lemma bulk_clear_checks d ids r : bulk_clear_from_checks d ids = Ok r -> db_checks r.1 = db_checks d.
Proof.
  unfold bulk_clear_from_checks. intros E. inv_res. cbn.
  match goal with H : fold_res _ _ _ = Ok _ |- _ => apply (fold_res_ind (fun e => db_checks e = db_checks d)) in H; [done| |done] end.
  intros x i y _ Hx Hy. rewrite <- Hx. by eapply sync_checks.
Qed.

Lemma finish_done d done failed errors flag d' p : finish d done failed errors flag = JobDone d' p -> d' = d.
Proof. unfold finish. destruct (_ && _); congruence. Qed.

Section Jobs.
Context `{BulkInput}.

(** Checks under their ids, one level deep, scripts only where they run: what the
    invariants of [Checks] give. *)
Record stored_ok (d : db) : Prop := {
  so_level : single_level d;
  so_checks : checks_ok d;
  so_agents : agents_keyed d;
}.

Inductive bulk_job (users : accounts) (owner_id : option uuid) (now : instant) (d : db) : job_end -> Prop :=
  | job_delete ids : bulk_job users owner_id now d (handle_delete users owner_id d now ids)
  | job_toggle action ids e : handle_toggle users owner_id d now action ids = Ok e -> bulk_job users owner_id now d e
  | job_modify ids interval timeout retries new alert e :
      handle_modify users owner_id d now ids (build_bulk_update_data interval timeout retries) new alert = Ok e ->
      bulk_job users owner_id now d e
  | job_create agent_id requests alert_ids e :
      handle_create users owner_id d now agent_id requests alert_ids = Ok e -> bulk_job users owner_id now d e.

Lemma owner_bulk_done users owner_id d ids run d' p : owner_bulk users owner_id d ids run = JobDone d' p ->
  d' = d \/ is_active_editor_id users owner_id = true /\ d' = (run (is_active_admin_id users owner_id)).1.
Proof.
  unfold owner_bulk, finish_result. destruct ids; [intros [= <-]; by left|].
  destruct (is_active_editor_id users owner_id); cbn [negb]; [|done]. intros ->%finish_done. by right.
Qed.

Lemma kept_bulk d now ids new i t r d' changed errors : checks_ok d -> agents_keyed d ->
  bulk_modify d now ids (build_bulk_update_data i t r) new false = (d', changed, errors) -> synthetics_kept d d'.
Proof.
  intros Hok Hk E. destruct (bulk_modify_exact _ _ _ _ _ _ _ _ _ _ _ Hok Hk E) as (-> & _ & Hr & _).
  set (u := build_bulk_update_data i t r) in *. set (changed := filter _ _) in *.
  apply (kept_rows d d' (fun j c => Some (if bool_decide (j ∈ changed) then modified u new c else c))).
  - intros j. rewrite Hr. by destruct (db_checks d !! j).
  - intros j c Hc Hs. rewrite bool_decide_eq_false_2; [exists c; by split; [|left]|].
    unfold changed. intros [Hmay _]%list_elem_of_filter. unfold may_modify in Hmay. rewrite Hc, Hs in Hmay. done.
  - intros j c c' _ [= <-]. by destruct (bool_decide _).
Qed.

Lemma kept_created d now agent_id requests d' results : agents_keyed d ->
  bulk_create_checks d now agent_id requests = (d', results) -> synthetics_kept d d'.
Proof.
  intros Hk E. destruct (bulk_creation_accounted _ _ _ _ _ _ Hk E) as (Hr & Hkept & Hnew & _). split; intros i c Hc Hs.
  - exists c. split; [auto|by left].
  - destruct (Hnew i c Hc) as [Hd|Hin]; [exists c; by split; [|left]|].
    apply list_elem_of_omap in Hin as (r & Hin & Hi). apply list_elem_of_lookup in Hin as [k Hr'].
    destruct (Forall2_lookup_r _ _ _ _ _ Hr Hr') as (asked & _ & Ha).
    unfold answered in Ha. unfold made in Hi. destruct (bk_made r) as [[[j n] ty]|]; [|done]. injection Hi as ->.
    destruct Ha as (_ & _ & Hty & c0 & Hc0 & _ & _ & Ht). rewrite Hc in Hc0. injection Hc0 as <-.
    unfold is_synthetic in Hs. apply String.eqb_eq in Hs. congruence.
Qed.

Lemma modify_job users owner_id d now ids i t r new alert d' p : checks_ok d -> agents_keyed d ->
  handle_modify users owner_id d now ids (build_bulk_update_data i t r) new alert = Ok (JobDone d' p) ->
  d' = d \/ is_active_editor_id users owner_id = true /\ (is_active_admin_id users owner_id = false -> synthetics_kept d d').
Proof.
  intros Hok Hk. unfold handle_modify. destruct ids as [|x ids]; [intros [= <- _]; by left|].
  destruct (is_active_editor_id users owner_id); cbn [negb]; [|done].
  destruct (bulk_modify _ _ _ _ _ _) as [[d1 changed] errors] eqn:E. intros E2. right. split; [done|]. intros Ha. rewrite Ha in E.
  apply kept_bulk in E; [|done..]. inv_res.
  eapply kept_trans; [exact E|]. apply kept_same. destruct alert as [[|a]|], changed; inv_res; try done.
  - by eapply bulk_clear_checks.
  - by eapply bulk_assign_checks.
Qed.

Lemma create_job users owner_id d now agent_id requests alert_ids d' p : agents_keyed d ->
  handle_create users owner_id d now agent_id requests alert_ids = Ok (JobDone d' p) ->
  d' = d \/ is_active_editor_id users owner_id = true /\ synthetics_kept d d'.
Proof.
  intros Hk. unfold handle_create. destruct requests as [|x requests]; [intros [= <- _]; by left|].
  destruct (is_active_editor_id users owner_id); cbn [negb]; [|done].
  destruct (bulk_create_checks _ _ _ _) as [d1 results] eqn:E. intros E2. right. split; [done|]. apply kept_created in E; [|done].
  inv_res. match goal with H : (let '(_, _) := ?x in _) = Ok _ |- _ => destruct x as [d2 n] end. inv_res.
  match goal with H : finish _ _ _ _ _ = _ |- _ => apply finish_done in H as -> end.
  eapply kept_trans; [exact E|]. apply kept_same. destruct (omap made results); [by inv_res|].
  match goal with H : fold_res _ _ _ = Ok _ |- _ => apply (fold_res_ind (fun e => db_checks e.1 = db_checks d1)) in H; [done| |done] end.
  intros y a z _ Hy. unfold assign_created. destruct (get_alert_by_id y.1 a) as [|[]]; try done; [|by intros [= <-]].
  intros E3. inv_res. cbn. rewrite <- Hy. by eapply bulk_assign_checks.
Qed.

(** A bulk job acts with what its owner may do when it runs, not when it was
    queued: for an owner who is no longer an active editor it changes nothing, and
    for one who is not an active admin it leaves every synthetic check as it was (a
    deleted parent apart) and makes none. *)
Theorem bulk_jobs_authority users owner_id now d d' p : stored_ok d -> bulk_job users owner_id now d (JobDone d' p) ->
  (is_active_editor_id users owner_id = false -> d' = d)
  /\ (is_active_admin_id users owner_id = false -> synthetics_kept d d').
Proof.
  intros [Hl Hok Hk] Hj.
  enough (d' = d \/ is_active_editor_id users owner_id = true /\ (is_active_admin_id users owner_id = false -> synthetics_kept d d'))
    as [->|[He Hs]]; [by split; [|intros _; apply kept_same]|split; [congruence|done]|].
  inversion Hj as [ids E|action ids e E Ee|ids i t r new alert e E Ee|agent_id requests alert_ids e E Ee]; subst.
  - apply owner_bulk_done in E as [->|[He ->]]; [by left|right]. split; [done|]. intros ->.
    eapply (kept_step target_verdict script_verdict valid_create default_timeout); [apply step_bulk_delete|done].
  - unfold handle_toggle in E. destruct (bool_decide _); [|done]. injection E as E.
    apply owner_bulk_done in E as [->|[He ->]]; [by left|right]. split; [done|]. intros ->.
    eapply (kept_step target_verdict script_verdict valid_create default_timeout); [apply step_enable|done].
  - by eapply modify_job.
  - apply create_job in E as [->|[He Hs]]; [by left|by right|done].
Qed.
End Jobs.

(** ** A judged selection *)

Lemma filter_every {A} (P : A -> Prop) `{!forall x, Decision (P x)} (l : list A) : (forall x, x ∈ l -> P x) -> filter P l = l.
Proof.
  induction l as [|x l IH]; intros Hp; [done|]. rewrite filter_cons_True by (apply Hp; left). f_equal. apply IH. intros y Hy. apply Hp. by right.
Qed.

Lemma filter_no {A} (P : A -> Prop) `{!forall x, Decision (P x)} (l : list A) : (forall x, x ∈ l -> ~ P x) -> filter P l = [].
Proof.
  induction l as [|x l IH]; intros Hp; [done|]. rewrite filter_cons_False by (apply Hp; left). apply IH. intros y Hy. apply Hp. by right.
Qed.

Lemma ids_found d ids : checks_keyed d -> NoDup ids -> (forall i, i ∈ ids -> is_Some (db_checks d !! i)) ->
  map ck_id (get_checks_by_ids d ids) ≡ₚ ids.
Proof.
  intros Hk Hnd Hall. apply NoDup_Permutation; [|done|].
  - unfold get_checks_by_ids. eapply sublist_NoDup; [by apply (rows_ids_nodup ck_id)|]. apply fmap_sublist, sublist_filter.
  - intros i. rewrite list_elem_of_fmap. split.
    + intros (c & -> & [Hin _]%list_elem_of_filter). done.
    + intros Hi. destruct (Hall i Hi) as [c Hc]. exists c. split; [by rewrite (Hk i c Hc)|].
      apply list_elem_of_filter. rewrite (Hk i c Hc). split; [done|]. apply elem_of_rows. eauto.
Qed.

(** A selection the admin API lets through is acted on whole: every id once, none
    refused or missing. *)
Theorem judged_selection_whole d now check_ids enabled admin d' r : checks_keyed d ->
  admin_bulk_set_enabled d now check_ids enabled admin = Ok (d', r) ->
  r = BulkResult (Z.of_nat (length (first_seen check_ids))) 0 []
  /\ forall i, db_checks d' !! i = (fun c => if bool_decide (i ∈ check_ids) then set_enabled enabled c else c) <$> db_checks d !! i.
Proof.
  intros Hk. unfold admin_bulk_set_enabled, judge_selection. set (ids := first_seen check_ids).
  destruct (filter _ ids) as [|x l] eqn:Ef; [|done]. cbn [mbind res_bind].
  assert (Hall : forall i, i ∈ ids -> i ∈ map ck_id (get_checks_by_ids d ids)).
  { intros i Hi. destruct (decide (i ∈ map ck_id (get_checks_by_ids d ids))) as [|Hn]; [done|].
    assert (i ∈ filter (fun i => i ∉ map ck_id (get_checks_by_ids d ids)) ids) as Hx by (by apply list_elem_of_filter).
    rewrite Ef in Hx. by apply elem_of_nil in Hx. }
  pose proof (NoDup_first_seen check_ids) as Hnd. fold ids in Hnd.
  assert (map ck_id (get_checks_by_ids d ids) ≡ₚ ids) as Hperm.
  { apply ids_found; [done|done|]. intros i (c & -> & [_ [j Hj]%elem_of_rows]%list_elem_of_filter)%Hall%list_elem_of_fmap.
    rewrite (Hk j c Hj). eauto. }
  intros E. assert (bulk_permitted d ids admin = (ids, [])) as Hp.
  { unfold bulk_permitted. destruct admin; [done|].
    assert (filter (fun c => is_synthetic c = true) (get_checks_by_ids d ids) = []) as ->.
    { destruct (existsb is_synthetic (get_checks_by_ids d ids)) eqn:Ex; [done|]. apply filter_no. intros c Hc Hs.
      assert (existsb is_synthetic (get_checks_by_ids d ids) = true); [|congruence].
      apply existsb_exists. exists c. by rewrite <- list_elem_of_In. }
    cbn. f_equal; [apply filter_every|apply filter_no]; intros i _; rewrite elem_of_nil; tauto. }
  destruct (if existsb _ _ then _ else _) as [[]|]; [|done]. injection E as E. split.
  - unfold bulk_set_enabled in E. rewrite Hp in E. apply Permutation_length in Hperm. rewrite length_map in Hperm.
    destruct ids as [|x l] eqn:Ei; injection E as _ <-; [done|]. unfold with_refused, bulk_outcome. cbn -[get_checks_by_ids length remove_dups].
    rewrite (remove_dups_id (x :: l)) by done. rewrite Hperm, Z.sub_diag. done.
  - intros i. replace d' with (bulk_set_enabled d now ids enabled admin).1 by (by rewrite E). rewrite bulk_enabled_lookup. unfold permitted.
    rewrite Hp. cbn [fst]. assert (bool_decide (i ∈ ids) = bool_decide (i ∈ check_ids)) as ->; [|done].
    apply bool_decide_ext, elem_of_first_seen.
Qed.

(** ** Witnesses *)

Module Demo.

Definition plain : BulkInput :=
  {| target_verdict := fun _ => Ok tt; script_verdict := fun _ => Ok tt;
     valid_create := fun c => negb (String.eqb (cc_display_name c) ""); valid_update := fun _ => true;
     default_timeout := 10; mask_credentials := fun s => s;
     as_int := fun v => match v with PInt z => Some z | PBool b => Some (if b then 1 else 0)%Z | _ => None end;
     as_bool := fun v => match v with PBool b => Some b | _ => None end;
     as_uuid := fun v => match v with
                         | PStr s => let i := hex_int (undash s) in
                                     if String.eqb s (uuid_str i) && (i <? uuid_bound)%N then Some i else None
                         | _ => None
                         end;
     plain_tag := fun s => (String.length s <=? 100)%nat |}.
#[local] Existing Instance plain.
#[local] Instance plain_laws : ReadLaws.
Proof.
  split; [done|done| |].
  - intros i Hi. cbn. assert (hex_int (undash (uuid_str i)) = i) as ->.
    { rewrite undash_uuid_str, hex_int_of_digits. by apply N.mod_small. }
    by rewrite String.eqb_refl, (proj2 (N.ltb_lt _ _) Hi).
  - intros [] i; try done. cbn. destruct (_ && _) eqn:E; [|done]. intros [= <-]. apply andb_true_iff in E as [_ E]. by apply N.ltb_lt.
Qed.

Definition request (url : string) (name : option string) : BulkCheckCreateRequest :=
  {| bq_url := url; bq_display_name := name; bq_interval := Some 60%Z; bq_timeout := None; bq_enabled := true;
     bq_tags := None; bq_resend := None; bq_retry_attempts := None; bq_retry_interval := None;
     bq_expected_status := None; bq_http_method := None; bq_verify_ssl := Some true |}.

(** Two URLs of one path, one of a scheme that is no check type. *)
Definition urls : list (uuid * BulkCheckCreateRequest) :=
  [(100%N, request "https://example.org/a?x=1" None); (101%N, request "example.org/a?x=2" None);
   (102%N, request "ftp://example.org" None); (103%N, request "tcp://example.org:22" (Some "api"))].

(** Two agents, of which the first has an HTTP check and a synthetic one. *)
Definition probe : check :=
  Check 30 1 None "probe" SYNTHETIC "https://example.org" None true MANUAL None 0 (Some "run()") [] [].
Definition api : check :=
  Check 10 1 None "api" "http" "https://example.org" (Some 60%Z) true MANUAL None 0 None
    [("http_method", PStr "POST"); ("verify_ssl", PBool false)] [("timeout_seconds", PInt 7); ("tags", PList [PStr "eu"])].
Definition fleet : db :=
  Db (<[1%N := fleet_agent 1 0]> {[ 2%N := fleet_agent 2 0 ]}) (<[10%N := api]> {[ 30%N := probe ]}) ∅ [] [] ∅ [] [].

Lemma fleet_agents : agents_keyed fleet.
Proof. intros i a Ha. cbn [fleet db_agents] in Ha. table_rows Ha; reflexivity. Qed.
Lemma fleet_checks : checks_ok fleet.
Proof. intros i c Hc. cbn [fleet db_checks] in Hc. table_rows Hc; by split. Qed.
Lemma fleet_names : names_distinct fleet 1.
Proof. intros i j ci cj Hi Hj. cbn [fleet db_checks] in Hi, Hj. table_rows Hi; table_rows Hj; done. Qed.
Lemma fleet_level : single_level fleet.
Proof. intros i c Hc. cbn [fleet db_checks] in Hc. table_rows Hc; done. Qed.

Definition created : db := (bulk_create_checks fleet 5 1 urls).1.
Definition answers : list BulkCheckResult := (bulk_create_checks fleet 5 1 urls).2.
Definition names_of (d : db) : list uuid -> list (option string) := map (fun i => ck_display_name <$> db_checks d !! i).

Lemma bulk_creation_accounted_witness :
  bulk_create_checks fleet 5 1 urls = (created, answers)
  /\ map made answers = [Some 100; Some 101; None; Some 103]%N
  /\ names_of created [10; 100; 101; 103]%N = [Some "api"; Some "example-org-a"; Some "example-org-a (2)"; Some "api (2)"]
  /\ names_distinct created 1.
Proof.
  assert (bulk_create_checks fleet 5 1 urls = (created, answers)) as E by (unfold created, answers; by destruct (bulk_create_checks _ _ _ _)).
  split_and!; [exact E|vm_compute; reflexivity|vm_compute; reflexivity|].
  apply (bulk_creation_accounted fleet 5 1 urls created answers fleet_agents E); [|exact fleet_names].
  intros r i name ty Hr Em.
  assert (forallb (fun r => match bk_made r with Ok (_, n, _) => String.eqb (strip n) n | Raise _ => true end) answers = true) as Hall
    by (vm_compute; reflexivity).
  eapply forallb_forall in Hall; [|by apply list_elem_of_In]. cbn in Hall. rewrite Em in Hall. by apply String.eqb_eq.
Defined.

(** A URL whose path ends with a space is named with the space and stored without
    it: created again, it takes the name of the check it made. *)
Definition spaced (x : string) : BulkCheckCreateRequest := request ("https://example.org/a ?x=" +:+ x) None.
Definition once : db := (bulk_create_checks fleet 5 1 [(100%N, spaced "1")]).1.
Definition twice : db := (bulk_create_checks once 6 1 [(101%N, spaced "2")]).1.

Theorem stripped_name_taken : names_of once [100]%N = [Some "example-org-a"]
  /\ names_of twice [100; 101]%N = [Some "example-org-a"; Some "example-org-a"] /\ ~ names_distinct twice 1.
Proof.
  split; [vm_compute; reflexivity|]. split; [vm_compute; reflexivity|]. intros Hd.
  destruct (db_checks twice !! 100%N) as [c|] eqn:E; [|vm_compute in E; discriminate E].
  destruct (db_checks twice !! 101%N) as [c'|] eqn:E'; [|vm_compute in E'; discriminate E'].
  assert (100%N = 101%N); [|done]. apply (Hd 100%N 101%N c c' E E'); vm_compute in E, E'; injection E as <-; injection E' as <-; reflexivity.
Qed.

(** A non-admin moves the checks to the second agent, faster: the synthetic one stays. *)
Definition sped_up : db * list uuid * list exn :=
  bulk_modify fleet 9 [10; 30; 99; 10]%N (build_bulk_update_data (Some 30%Z) None (Some 1%Z)) (Some 2%N) false.

Lemma bulk_modify_exact_witness :
  sped_up.1.2 = [10; 10]%N /\ length sped_up.2 = 2 /\ ck_agent_id <$> db_checks sped_up.1.1 !! 10%N = Some 2%N
  /\ db_checks sped_up.1.1 !! 30%N = Some probe /\ ag_checks_updated_at <$> db_agents sped_up.1.1 !! 2%N = Some (Some 9%Z).
Proof.
  destruct sped_up as [[d' changed] errors] eqn:E. cbn [fst snd].
  destruct (bulk_modify_exact _ _ _ fleet 9 _ _ _ _ _ _ fleet_checks fleet_agents E) as (Hc & Hl & Hr & _ & Ht & _).
  assert (changed = [10; 10]%N) as -> by (rewrite Hc; vm_compute; reflexivity). split_and!; [done|cbn in Hl; lia|by rewrite Hr|by rewrite Hr|].
  destruct (db_agents d' !! 2%N) as [a|] eqn:Ea.
  - cbn. f_equal. apply (Ht 10%N api 2%N a); [left|reflexivity|by right|done].
  - exfalso. revert Ea. replace d' with sped_up.1.1 by (by rewrite E). vm_compute. discriminate.
Defined.



(** An import onto the first agent: a new check that names a parent the agent does
    not have, one of a name it has, and an entry that is not a check. *)
Definition named_entry (name : string) (parent : option string) : pydict :=
  [("name", PStr name); ("check_type", PStr "tcp"); ("target", PStr "example.org:22")]
  ++ match parent with Some p => [("depends_on", PStr p)] | None => [] end.
Definition upload : list import_entry :=
  [ImportEntry 200 "ssh" (named_entry "ssh" (Some "gone")); ImportEntry 201 "api" (named_entry "api" None);
   ImportEntry 202 "unknown" [("name", PNone)]].
Definition uploaded : db * list imported * list (string * exn) :=
  value_of (fleet, [], []) (bulk_import_checks fleet 8 1 upload false true).

Lemma import_keeps_names_witness :
  bulk_import_checks fleet 8 1 upload false true = Ok uploaded /\ uploaded.1.2 = [Created; Skipped]
  /\ names_distinct uploaded.1.1 1 /\ db_checks uploaded.1.1 !! 10%N = Some api.
Proof.
  assert (bulk_import_checks fleet 8 1 upload false true = Ok uploaded) as E.
  { unfold uploaded. destruct (bulk_import_checks _ _ _ _ _ _) as [r|] eqn:Er; [done|vm_compute in Er; discriminate Er]. }
  split; [exact E|]. split; [vm_compute; reflexivity|]. destruct uploaded as [[d' outcomes] errors].
  assert (checks_keyed fleet) as Hk by (intros i c Hc; by destruct (fleet_checks i c Hc)).
  destruct (import_keeps_names fleet 8 1 upload false true d' outcomes errors fleet_agents Hk fleet_names E) as (Hn & _ & Hkept & _).
  split; [exact Hn|]. apply Hkept; [reflexivity|by right].
Defined.

(** The import counts a check it made and could not link twice: of three entries it
    reports four. *)
Theorem import_total_counts_twice : length upload = 3
  /\ io_total (import_summary uploaded.1.2 uploaded.2) = 4 /\ io_created (import_summary uploaded.1.2 uploaded.2) = 1
  /\ io_skipped (import_summary uploaded.1.2 uploaded.2) = 1 /\ io_failure (import_summary uploaded.1.2 uploaded.2) = 2.
Proof. vm_compute. done. Qed.

(** *** Alerts *)

Definition with_alerts : db :=
  value_of fleet (create_check_with_alerts base 1 40 1 (new_check "tcp" None None []) [7; 7]%N false).

Lemma base_maps : maps_ok base.
Proof.
  split.
  - vm_compute. constructor; [by intros ?%elem_of_nil|constructor].
  - intros m ->%list_elem_of_singleton. vm_compute. eauto.
  - intros m ->%list_elem_of_singleton. vm_compute. eauto.
Qed.

Lemma created_with_its_alerts_witness :
  create_check_with_alerts base 1 40 1 (new_check "tcp" None None []) [7; 7]%N false = Ok with_alerts
  /\ 7%N ∈ list_alert_ids_for_check with_alerts 40 /\ 7%N ∈ list_alert_ids_for_check with_alerts 10.
Proof.
  assert (create_check_with_alerts base 1 40 1 (new_check "tcp" None None []) [7; 7]%N false = Ok with_alerts) as E.
  { unfold with_alerts. destruct (create_check_with_alerts _ _ _ _ _ _ _) as [r|] eqn:Er; [done|vm_compute in Er; discriminate Er]. }
  split; [exact E|]. destruct (created_with_its_alerts _ _ _ _ _ _ _ _ base_maps E) as [H1 H2].
  split; [apply H1; left; left|apply H2; [done|vm_compute; left]].
Defined.

(** *** Jobs *)

Definition editor : accounts :=
  Accounts {[ 1%N := User 1 "ann" "hash" EDITOR true None 0 None None 0 None false None ]} ∅ ∅.
Definition emptied : db := (bulk_delete fleet 9 [10; 30]%N false).1.

Lemma bulk_jobs_authority_witness :
  handle_delete editor (Some 1%N) fleet 9 [10; 30]%N = JobDone emptied (Some (Progress 2 1 1 1))
  /\ db_checks emptied !! 10%N = None /\ synthetics_kept fleet emptied.
Proof.
  assert (handle_delete editor (Some 1%N) fleet 9 [10; 30]%N = JobDone emptied (Some (Progress 2 1 1 1))) as E by (vm_compute; reflexivity).
  split_and!; [exact E|vm_compute; reflexivity|].
  apply (bulk_jobs_authority editor (Some 1%N) 9 fleet emptied (Some (Progress 2 1 1 1))).
  - split; [exact fleet_level|exact fleet_checks|exact fleet_agents].
  - rewrite <- E. apply job_delete.
  - reflexivity.
Defined.
End Demo.
