(* ===== verification/RateLimit.v ===== *)
(** * Rate limits

    core/rate_limit.py and core/rate_limit_format.py: the limits the Settings
    page governs, the buckets that count refused agent credentials with the
    checks still in flight held apart, and the counters of the MCP surface; and
    mcp/server.py's [MCPAuthMiddleware], which stands behind two of them.  The
    counting itself is the [limits] library's: a parameter, [Limits], with the
    documented behaviour of its fixed window in memory, [LimitsLaws].

    A [CredentialAttempt] is an object its caller holds while others run, so the
    attempts are a store of the state, by their number. *)

From S2P Require Import Prelude Py Text Store AlertAdmin Scopes Credentials Accounts.

(** [limits]: [parse_many], a RateLimitItem's fields, and a
    FixedWindowRateLimiter over a MemoryStorage, read and written at an instant. *)
Class Limits := {
  item : Type;
  amount : item -> Z;
  get_expiry : item -> Z;                        (* seconds *)
  parse_many : string -> option (list item);     (* None: ValueError *)
  limit_key : Type;
  key_for : item -> list string -> limit_key;
  storage : Type;
  fresh_storage : storage;
  storage_get : storage -> instant -> limit_key -> Z;
  storage_incr : storage -> instant -> limit_key -> Z -> Z -> storage;
  hit : storage -> instant -> item -> list string -> bool * storage;
  test : storage -> instant -> item -> list string -> bool;
  get_window_stats : storage -> instant -> item -> list string -> instant * Z;
}.

(** The fixed window: a hit counts one under the item's key and answers whether
    the count is within the amount; a count stays until its window ends, and is
    then zero. *)
Class LimitsLaws `{Limits} := {
  limit_key_eq :: EqDecision limit_key;
  get_fresh now k : storage_get fresh_storage now k = 0%Z;
  get_later st now now' k : (now <= now')%Z ->
    storage_get st now' k = storage_get st now k \/ storage_get st now' k = 0%Z;
  get_incr st now k e d k' : storage_get (storage_incr st now k e d) now k' =
    (storage_get st now k' + if decide (k' = k) then d else 0)%Z;
  hit_incr st now it ks : (hit st now it ks).2 = storage_incr st now (key_for it ks) (get_expiry it) 1;
  hit_within st now it ks : (hit st now it ks).1 = (storage_get st now (key_for it ks) <? amount it)%Z;
  test_within st now it ks : test st now it ks = (storage_get st now (key_for it ks) <? amount it)%Z;
  stats_remaining st now it ks :
    (get_window_stats st now it ks).2 = Z.max 0 (amount it - storage_get st now (key_for it ks));
}.

(** The two clocks: [time.monotonic()] and [time.time()]. *)
Record clock := Clock { mono : instant; wall : instant }.

Section RateLimit.
Context `{Limits}.

(** ** The limits in effect *)

Definition MAX_LENGTH : nat := 100.
Definition MAX_PERIOD_SECONDS : Z := 366 * 24 * 60 * 60.

Definition check_rate_limit (value : string) : res string :=
  if (MAX_LENGTH <? String.length value)%nat then Raise ValueError
  else match parse_many value with
       | None => Raise ValueError
       | Some items =>
           if bool_decide (items = []) || existsb (fun i => (amount i <? 1)%Z) items then Raise ValueError
           else if existsb (fun i => (MAX_PERIOD_SECONDS <? get_expiry i)%Z) items then Raise ValueError
           else Ok value
       end.

Record RateLimits := { rl_login : string; rl_api : string; rl_registration : string }.

Definition checked_or (old : string) (new : option string) : res string :=
  match new with Some v => check_rate_limit v | None => Ok old end.

Definition update_rate_limits (current : RateLimits) (login api registration : option string) : res RateLimits :=
  l ← checked_or (rl_login current) login;
  a ← checked_or (rl_api current) api;
  r ← checked_or (rl_registration current) registration;
  Ok {| rl_login := l; rl_api := a; rl_registration := r |}.

(** ** Refused credentials *)

Definition HEARTBEAT_PENDING_REFUSALS : string := "heartbeat-pending-credential-refusals".
Definition KEY_RECOVERY_REFUSALS : string := "key-recovery-credential-refusals".
Definition IN_FLIGHT_SECONDS : Z := 300.
Definition BUSY_RETRY_AFTER_SECONDS : Z := 2.

Record CredentialAttempt := Attempt {
  at_limits : list item;
  at_keys : list string;
  at_settled : bool;
}.

(** The limiter's storage, [_in_flight], [_next_attempt], and the attempts
    handed out. *)
Record limiter := Limiter {
  lm_storage : storage;
  lm_in_flight : gmap (list string) (gmap N instant);
  lm_next : N;
  lm_attempts : gmap N CredentialAttempt;
}.

Definition new_limiter : limiter := Limiter fresh_storage ∅ 0 ∅.

(** A bucket's checks, and the table with them written back: an empty bucket
    leaves it. *)
Definition in_bucket (st : limiter) (keys : list string) : gmap N instant := default ∅ (lm_in_flight st !! keys).
Definition put_bucket (keys : list string) (held : gmap N instant) (t : gmap (list string) (gmap N instant)) :=
  if bool_decide (held = ∅) then delete keys t else <[keys := held]> t.

(** [_held] *)
Definition still_held (now : instant) (held : gmap N instant) : gmap N instant :=
  filter (fun kv => (now - kv.2 < IN_FLIGHT_SECONDS * us_per_second)%Z) held.

Definition drop_stale (st : limiter) (keys : list string) (now : instant) : limiter :=
  Limiter (lm_storage st) (put_bucket keys (still_held now (in_bucket st keys)) (lm_in_flight st))
    (lm_next st) (lm_attempts st).

Inductive reservation := Held (number : N) | Wait (seconds : Z).

(** The seconds left of a window, rounded down; one when it has ended. *)
Definition seconds_left (now : clock) (reset_time : instant) : Z :=
  Z.max 1 (Z.quot (reset_time - wall now) us_per_second).

(** [max(l)] of a list that starts with [w] *)
Definition longest (w : Z) (l : list Z) : Z := fold_left Z.max l w.

Definition spent_waits (st : limiter) (now : clock) (keys : list string) (limits : list item) : list Z :=
  omap (fun l => let '(reset_time, remaining) := get_window_stats (lm_storage st) (wall now) l keys in
                 if (remaining <=? 0)%Z then Some (seconds_left now reset_time) else None) limits.

Definition filled (st : limiter) (now : clock) (keys : list string) (held : gmap N instant) (limits : list item) : bool :=
  existsb (fun l => let '(_, remaining) := get_window_stats (lm_storage st) (wall now) l keys in
                    (0 <? remaining)%Z && (remaining <=? Z.of_nat (size held))%Z) limits.

(** [_reserve_refusal_count] *)
Definition reserve_refusal_count (rl : RateLimits) (st : limiter) (now : clock) (keys : list string)
    : res (reservation * limiter) :=
  match parse_many (rl_registration rl) with
  | None => Raise ValueError
  | Some limits =>
      let st1 := drop_stale st keys (mono now) in
      let held := in_bucket st1 keys in
      match spent_waits st1 now keys limits with
      | w :: ws => Ok (Wait (longest w ws), st1)
      | [] =>
          if filled st1 now keys held limits then Ok (Wait BUSY_RETRY_AFTER_SECONDS, st1)
          else
            let number := lm_next st in
            Ok (Held number,
                Limiter (lm_storage st1) (<[keys := <[number := mono now]> held]> (lm_in_flight st1))
                  (number + 1) (<[number := Attempt limits keys false]> (lm_attempts st1)))
      end
  end.

(** [agent] is str(agent_id). *)
Definition reserve_pending_heartbeat_attempt rl st now (client agent : string) :=
  reserve_refusal_count rl st now [HEARTBEAT_PENDING_REFUSALS; client; agent].
Definition reserve_key_recovery_attempt rl st now (client : string) :=
  reserve_refusal_count rl st now [KEY_RECOVERY_REFUSALS; client].

Definition hit_all (st : storage) (now : instant) (limits : list item) (keys : list string) : storage :=
  fold_left (fun st l => (hit st now l keys).2) limits st.

(** [CredentialAttempt.settle] *)
Definition settle (st : limiter) (now : clock) (number : N) (refused : bool) : limiter :=
  match lm_attempts st !! number with
  | None => st
  | Some a =>
      if at_settled a then st
      else
        Limiter (if refused then hit_all (lm_storage st) (wall now) (at_limits a) (at_keys a) else lm_storage st)
          (put_bucket (at_keys a) (delete number (in_bucket st (at_keys a))) (lm_in_flight st))
          (lm_next st) (<[number := Attempt (at_limits a) (at_keys a) true]> (lm_attempts st))
  end.

Definition buckets_in_flight (st : limiter) : nat := size (lm_in_flight st).

(** ** Counters of other surfaces *)

Record KeyedLimiter := Keyed { kl_limits : list item; kl_storage : storage }.

Definition new_keyed_limiter (limit : string) : res KeyedLimiter :=
  v ← check_rate_limit limit;
  match parse_many v with Some l => Ok (Keyed l fresh_storage) | None => Raise ValueError end.

(** [_wait] of the parts that are spent, [None] of none. *)
Definition wait_of_spent (st : storage) (now : instant) (spent : list item) (keys : list string) : option Z :=
  match map (fun l => seconds_left (Clock 0 now) (get_window_stats st now l keys).1) spent with
  | [] => None
  | w :: ws => Some (longest w ws)
  end.

(** [[limit for limit in limits if not hit(limit)]] *)
Fixpoint hit_each (st : storage) (now : instant) (limits : list item) (keys : list string) : list item * storage :=
  match limits with
  | [] => ([], st)
  | l :: limits =>
      let '(ok, st1) := hit st now l keys in
      let '(spent, st2) := hit_each st1 now limits keys in
      (if ok then spent else l :: spent, st2)
  end.

Definition give_back (st : storage) (now : instant) (limits : list item) (keys : list string) : storage :=
  fold_left (fun st l =>
    let key := key_for l keys in
    if (0 <? storage_get st now key)%Z then storage_incr st now key (get_expiry l) (-1) else st) limits st.

Definition retry_after (kl : KeyedLimiter) (now : instant) (surface client : string) : option Z * KeyedLimiter :=
  let keys := [surface; client] in
  let '(spent, st1) := hit_each (kl_storage kl) now (kl_limits kl) keys in
  match spent with
  | [] => (None, Keyed (kl_limits kl) st1)
  | _ => let st2 := give_back st1 now (kl_limits kl) keys in
         (wait_of_spent st2 now spent keys, Keyed (kl_limits kl) st2)
  end.

Definition over_limit (kl : KeyedLimiter) (now : instant) (surface client : string) : option Z :=
  let keys := [surface; client] in
  wait_of_spent (kl_storage kl) now
    (filter (fun l => Is_true (negb (test (kl_storage kl) now l keys))) (kl_limits kl)) keys.

Definition count (kl : KeyedLimiter) (now : instant) (surface client : string) : KeyedLimiter :=
  Keyed (kl_limits kl) (hit_all (kl_storage kl) now (kl_limits kl) [surface; client]).

(** ** MCPAuthMiddleware (mcp/server.py) *)

Definition MCP_AUTH_SURFACE : string := "mcp-auth".
Definition MCP_TOKEN_CALLS_SURFACE : string := "mcp-token-calls".
Definition METHODS : list string := ["POST"].

Record mcp_request := McpRequest {
  rq_path : string;
  rq_method : string;
  rq_authorization : option string;
  rq_x_api_key : option string;
  rq_client : string;              (* client_ip_from_request *)
}.

(** [_extract_token] *)
Definition extract_token (rq : mcp_request) : option string :=
  let '(scheme, value) := partition_space (default "" (rq_authorization rq)) in
  if String.eqb (lower scheme) "bearer" && startswith TOKEN_PREFIX (strip value) then Some (strip value)
  else let api_key := strip (default "" (rq_x_api_key rq)) in
       if startswith TOKEN_PREFIX api_key then Some api_key else None.

(** The responses the middleware sends itself, by status, and the request it
    passes on with its principal. *)
Inductive mcp_answer := Refused (status_code : Z) (retry : option Z) | Passed (p : ApiPrincipal).

Record mcp_state := Mcp {
  mc_accounts : accounts;
  mc_attempts : KeyedLimiter;      (* credential_attempts *)
  mc_calls : KeyedLimiter;         (* mcp_token_calls *)
}.

(** Up to the token's lookup, which an [await] separates from the rest. *)
Definition mcp_admit (st : mcp_state) (now : instant) (rq : mcp_request) : string + mcp_answer :=
  if substringb "/.well-known/" (rq_path rq) || endswith "/register" (rstrip_char "/" (rq_path rq))
  then inr (Refused 404 None)
  else if negb (bool_decide (rq_method rq ∈ METHODS)) then inr (Refused 405 None)
  else match extract_token rq with
       | None => inr (Refused 401 None)
       | Some token =>
           match over_limit (mc_attempts st) now MCP_AUTH_SURFACE (rq_client rq) with
           | Some wait => inr (Refused 429 (Some wait))
           | None => inl token
           end
       end.

(** The lookup and what follows it. *)
Definition mcp_judge `{PyRuntime} (st : mcp_state) (now : instant) (token client : string)
    : mcp_answer * mcp_state :=
  let '(principal, acc) := authenticate (mc_accounts st) now token in
  match principal with
  | None => (Refused 401 None, Mcp acc (count (mc_attempts st) now MCP_AUTH_SURFACE client) (mc_calls st))
  | Some p =>
      let '(wait, calls) := retry_after (mc_calls st) now MCP_TOKEN_CALLS_SURFACE (uuid_str (pr_token_id p)) in
      (match wait with Some w => Refused 429 (Some w) | None => Passed p end, Mcp acc (mc_attempts st) calls)
  end.

(** One request with no other between its steps. *)
Definition mcp_request_step `{PyRuntime} (st : mcp_state) (now : instant) (rq : mcp_request) : mcp_answer * mcp_state :=
  match mcp_admit st now rq with
  | inr answer => (answer, st)
  | inl token => mcp_judge st now token (rq_client rq)
  end.
End RateLimit.
