(* ===== verification/RateLimitTheorems.v ===== *)
(** * What the rate limits promise

    Refused credentials with the checks in flight never exceed the limit; right
    ones cost nothing; the buckets do not meet; a refused call of the MCP surface
    gives its count back.  Counts are read at an instant, through the laws of the
    library's fixed window. *)

From S2P Require Import Prelude Py Text Store Fixtures AlertAdmin Scopes Credentials Accounts RateLimit.

Section Properties.
Context `{Limits} `{!LimitsLaws}.

Abbreviation counted st now l ks := (storage_get st now (key_for l ks)).

(** The parts count under keys of their own, and so do the buckets. *)
Record distinct_keys (limits : list item) : Prop := {
  parts_nodup : NoDup limits;
  keys_apart l l' ks ks' : l ∈ limits -> l' ∈ limits -> key_for l ks = key_for l' ks' -> l = l' /\ ks = ks';
}.

(** ** Counting *)

Definition occurrences (k : limit_key) (limits : list item) (ks : list string) : Z :=
  Z.of_nat (length (filter (fun l => key_for l ks = k) limits)).

Lemma occurrences_cons k l limits ks :
  occurrences k (l :: limits) ks = ((if decide (k = key_for l ks) then 1 else 0) + occurrences k limits ks)%Z.
Proof.
  unfold occurrences. destruct (decide (k = key_for l ks)) as [->|Hn].
  - rewrite filter_cons_True by done. cbn [length]. lia.
  - rewrite filter_cons_False by congruence. lia.
Qed.

Lemma hit_all_get st now limits ks k :
  storage_get (hit_all st now limits ks) now k = (storage_get st now k + occurrences k limits ks)%Z.
Proof.
  unfold hit_all. revert st. induction limits as [|l limits IH]; intros st; cbn [fold_left].
  - unfold occurrences. cbn. lia.
  - rewrite IH, hit_incr, get_incr, occurrences_cons. lia.
Qed.

Lemma occurrences_once limits l ks :
  distinct_keys limits -> l ∈ limits -> occurrences (key_for l ks) limits ks = 1%Z.
Proof.
  intros [Hnd Hapart] Hl. assert (Hf : forall l', l' ∈ limits -> key_for l' ks = key_for l ks -> l' = l).
  { intros l' Hl' E. by apply (Hapart _ _ _ _ Hl' Hl) in E as [-> _]. }
  clear Hapart. induction limits as [|x limits IH]; [by apply elem_of_nil in Hl|].
  apply NoDup_cons in Hnd as [Hx Hnd]. rewrite occurrences_cons.
  assert (Hrest : l ∉ limits -> occurrences (key_for l ks) limits ks = 0%Z).
  { intros Hno. unfold occurrences. destruct (filter _ limits) as [|y ys] eqn:E; [done|]. exfalso.
    assert (Hy : y ∈ filter (fun l0 => key_for l0 ks = key_for l ks) limits) by (rewrite E; left).
    apply list_elem_of_filter in Hy as [Hk Hy]. apply Hf in Hk; [congruence|by right]. }
  destruct (decide (key_for l ks = key_for x ks)) as [E|Hne].
  - assert (x = l) as -> by (apply Hf; [left|done]). rewrite Hrest by done. lia.
  - apply elem_of_cons in Hl as [->|Hl]; [done|]. rewrite IH; [lia|done|done|].
    intros l' Hl' E. apply Hf; [by right|done].
Qed.

Lemma occurrences_apart limits l ks ks' :
  distinct_keys limits -> l ∈ limits -> ks <> ks' -> occurrences (key_for l ks) limits ks' = 0%Z.
Proof.
  intros [_ Hapart] Hl Hne. unfold occurrences.
  destruct (filter _ limits) as [|x xs] eqn:E; [done|]. exfalso.
  assert (Hx : x ∈ filter (fun l0 => key_for l0 ks' = key_for l ks) limits) by (rewrite E; left).
  apply list_elem_of_filter in Hx as [Hk Hx]. by apply (Hapart _ _ _ _ Hx Hl) in Hk as [_ ->].
Qed.

(** ** Buckets *)

Lemma in_put_bucket t keys held ks :
  default ∅ (put_bucket keys held t !! ks) = if decide (ks = keys) then held else default ∅ (t !! ks).
Proof.
  unfold put_bucket. destruct (bool_decide_reflect (held = ∅)) as [->|_]; destruct (decide (ks = keys)) as [->|Hn].
  - by rewrite lookup_delete_eq.
  - by rewrite lookup_delete_ne.
  - by rewrite lookup_insert_eq.
  - by rewrite lookup_insert_ne.
Qed.

Lemma still_held_later now now' h :
  (now <= now')%Z -> still_held now' (still_held now h) = still_held now' h.
Proof.
  intros Hn. unfold still_held. apply map_filter_filter_l. intros i x _ Hx. cbn in *. lia.
Qed.

Lemma still_held_size now h : (size (still_held now h) <= size h)%nat.
Proof. apply map_subseteq_size, map_filter_subseteq. Qed.

(** ** Reserving and settling *)

Lemma reserve_inv rl st now keys r st' limits :
  parse_many (rl_registration rl) = Some limits -> reserve_refusal_count rl st now keys = Ok (r, st') ->
  let held := still_held (mono now) (in_bucket st keys) in
  match r with
  | Wait _ => st' = drop_stale st keys (mono now)
  | Held n => n = lm_next st /\
      (forall l, l ∈ limits -> (counted (lm_storage st) (wall now) l keys + Z.of_nat (size held) < amount l)%Z) /\
      st' = Limiter (lm_storage st) (<[keys := <[n := mono now]> held]> (lm_in_flight (drop_stale st keys (mono now))))
              (n + 1) (<[n := Attempt limits keys false]> (lm_attempts st))
  end.
Proof.
  intros Hp. unfold reserve_refusal_count. rewrite Hp. cbv zeta.
  assert (Hb : in_bucket (drop_stale st keys (mono now)) keys = still_held (mono now) (in_bucket st keys)).
  { unfold in_bucket at 1. cbn. rewrite in_put_bucket. by rewrite decide_True. }
  rewrite !Hb. destruct (spent_waits _ now keys limits) as [|w ws] eqn:Es; [|by intros [= <- <-]].
  destruct (filled _ _ _ _ _) eqn:Ef; [by intros [= <- <-]|]. intros [= <- <-]. split; [done|]. split; [|done].
  intros l Hl.
  assert (Hfree : (0 < Z.max 0 (amount l - counted (lm_storage st) (wall now) l keys))%Z).
  { apply Z.nle_gt. intros Hle. unfold spent_waits in Es.
    assert (Hin : seconds_left now (get_window_stats (lm_storage st) (wall now) l keys).1 ∈ @nil Z).
    { rewrite <- Es. apply list_elem_of_omap. exists l. split; [done|]. cbn [lm_storage drop_stale].
      pose proof (stats_remaining (lm_storage st) (wall now) l keys) as Hs.
      destruct (get_window_stats (lm_storage st) (wall now) l keys) as [t rem]. cbn in Hs |- *. subst rem.
      by rewrite (proj2 (Z.leb_le _ _)). }
    by apply elem_of_nil in Hin. }
  unfold filled in Ef. rewrite <- not_true_iff_false, existsb_exists in Ef.
  apply Z.nle_gt. intros Hle. apply Ef. exists l. split; [by apply list_elem_of_In|].
  pose proof (stats_remaining (lm_storage st) (wall now) l keys) as Hs. cbn [lm_storage drop_stale].
  destruct (get_window_stats (lm_storage st) (wall now) l keys) as [t rem]. cbn in Hs. subst rem.
  apply andb_true_iff. split; [by apply Z.ltb_lt|apply Z.leb_le; lia].
Qed.

(** The state with the instants of its last event; events follow the clocks.  A
    refused check still held its room when it was settled. *)
Definition later (now now' : clock) : Prop := (mono now <= mono now')%Z /\ (wall now <= wall now')%Z.

Definition holds_room (st : limiter) (number : N) : Prop :=
  forall a, lm_attempts st !! number = Some a -> at_settled a = false -> is_Some (in_bucket st (at_keys a) !! number).

Inductive limiter_step (rl : RateLimits) : limiter * clock -> limiter * clock -> Prop :=
  | step_reserve st now now' keys r st' : later now now' ->
      reserve_refusal_count rl st now' keys = Ok (r, st') -> limiter_step rl (st, now) (st', now')
  | step_settle st now now' number refused : later now now' -> (refused = true -> holds_room st number) ->
      limiter_step rl (st, now) (settle st now' number refused, now').

Section Bounded.
Variables (rl : RateLimits) (limits : list item).
Hypothesis registration_limits : parse_many (rl_registration rl) = Some limits.
Hypothesis apart : distinct_keys limits.

Record limiter_inv (st : limiter) (now : clock) : Prop := {
  inv_attempts n a : lm_attempts st !! n = Some a -> at_limits a = limits /\ (n < lm_next st)%N;
  inv_held ks n b : in_bucket st ks !! n = Some b -> (n < lm_next st)%N;
  inv_nonneg l ks : l ∈ limits -> (0 <= counted (lm_storage st) (wall now) l ks)%Z;
  inv_room l ks : l ∈ limits ->
    (counted (lm_storage st) (wall now) l ks + Z.of_nat (size (in_bucket st ks)) <= amount l)%Z;
}.

Lemma inv_later st now now' : later now now' -> limiter_inv st now -> limiter_inv st now'.
Proof.
  intros [_ Hw] [Ha Hh Hz Hr].
  assert (Hle : forall l ks, l ∈ limits -> (0 <= counted (lm_storage st) (wall now') l ks <=
                  counted (lm_storage st) (wall now) l ks)%Z).
  { intros l ks Hl. specialize (Hz l ks Hl). destruct (get_later (lm_storage st) _ _ (key_for l ks) Hw); lia. }
  split; [done|done|..]; intros l ks Hl; specialize (Hle l ks Hl); [lia|]. specialize (Hr l ks Hl). lia.
Qed.

Lemma in_drop_stale st keys now ks :
  in_bucket (drop_stale st keys now) ks =
    if decide (ks = keys) then still_held now (in_bucket st keys) else in_bucket st ks.
Proof. unfold in_bucket at 1. cbn. by rewrite in_put_bucket. Qed.

Lemma inv_drop st keys now : limiter_inv st now -> limiter_inv (drop_stale st keys (mono now)) now.
Proof.
  intros [Ha Hh Hz Hr]. split; [done|..|done|].
  - intros ks n b. rewrite in_drop_stale. destruct (decide (ks = keys)) as [->|_]; [|apply Hh].
    intros [Hb _]%map_lookup_filter_Some. by eapply Hh.
  - intros l ks Hl. rewrite in_drop_stale. specialize (Hr l ks Hl). destruct (decide (ks = keys)) as [->|_]; [|done].
    pose proof (still_held_size (mono now) (in_bucket st keys)). cbn [lm_storage drop_stale]. lia.
Qed.

Lemma inv_reserve st now keys r st' :
  limiter_inv st now -> reserve_refusal_count rl st now keys = Ok (r, st') -> limiter_inv st' now.
Proof.
  intros Hi Hres. pose proof (reserve_inv _ _ _ _ _ _ _ registration_limits Hres) as Hr. cbv zeta in Hr.
  destruct r as [n|w]; [|subst st'; by apply inv_drop]. destruct Hr as (-> & Hroom & ->).
  destruct (inv_drop st keys now Hi) as [Ha Hh Hz Hr].
  set (held := still_held (mono now) (in_bucket st keys)) in *.
  assert (Hbk : forall ks, in_bucket (Limiter (lm_storage st)
      (<[keys := <[lm_next st := mono now]> held]> (lm_in_flight (drop_stale st keys (mono now))))
      (lm_next st + 1) (<[lm_next st := Attempt limits keys false]> (lm_attempts st))) ks =
      if decide (ks = keys) then <[lm_next st := mono now]> held else in_bucket (drop_stale st keys (mono now)) ks).
  { intros ks. unfold in_bucket at 1. cbn [lm_in_flight]. destruct (decide (ks = keys)) as [->|Hn];
      [by rewrite lookup_insert_eq|by rewrite lookup_insert_ne]. }
  assert (Hfresh : held !! lm_next st = None).
  { destruct (held !! lm_next st) as [b|] eqn:E; [|done]. specialize (Hh keys (lm_next st) b).
    rewrite in_drop_stale, decide_True in Hh by done. specialize (Hh E). cbn in Hh. lia. }
  split; cbn [lm_attempts lm_next lm_storage].
  - intros n a. destruct (decide (n = lm_next st)) as [->|Hn].
    + rewrite lookup_insert_eq. intros [= <-]. split; [done|lia].
    + rewrite lookup_insert_ne by done. intros Hna. destruct (Ha n a Hna) as [? Hlt]. cbn in Hlt. split; [done|lia].
  - intros ks n b. rewrite Hbk. destruct (decide (ks = keys)) as [->|_].
    + destruct (decide (n = lm_next st)) as [->|Hn]; [lia|]. rewrite lookup_insert_ne by done. intros Hb.
      specialize (Hh keys n b). rewrite in_drop_stale, decide_True in Hh by done. specialize (Hh Hb). cbn in Hh. lia.
    + intros Hb. specialize (Hh ks n b Hb). cbn in Hh. lia.
  - exact Hz.
  - intros l ks Hl. rewrite Hbk. destruct (decide (ks = keys)) as [->|_]; [|by apply Hr].
    rewrite map_size_insert_None by done. specialize (Hroom l Hl). lia.
Qed.

Lemma in_settled st now n refused a ks :
  lm_attempts st !! n = Some a -> at_settled a = false ->
  in_bucket (settle st now n refused) ks =
    if decide (ks = at_keys a) then delete n (in_bucket st (at_keys a)) else in_bucket st ks.
Proof.
  intros Ha Hs. unfold settle. rewrite Ha, Hs. unfold in_bucket at 1. cbn [lm_in_flight]. by rewrite in_put_bucket.
Qed.

Lemma inv_settle st now n refused :
  limiter_inv st now -> (refused = true -> holds_room st n) -> limiter_inv (settle st now n refused) now.
Proof.
  intros Hi Hroom. destruct (lm_attempts st !! n) as [a|] eqn:Ea; [|unfold settle; by rewrite Ea].
  destruct (at_settled a) eqn:Es; [unfold settle; by rewrite Ea, Es|].
  pose proof (fun ks => in_settled st now n refused a ks Ea Es) as Hbk. destruct Hi as [Ha Hh Hz Hr].
  destruct (Ha n a Ea) as [Hlim Hlt].
  assert (Hst : settle st now n refused = Limiter (if refused then hit_all (lm_storage st) (wall now) limits (at_keys a)
      else lm_storage st) (lm_in_flight (settle st now n refused)) (lm_next st)
      (<[n := Attempt limits (at_keys a) true]> (lm_attempts st))).
  { unfold settle. rewrite Ea, Es, Hlim. done. }
  assert (Hcount : forall l ks, l ∈ limits -> counted (lm_storage (settle st now n refused)) (wall now) l ks =
      (counted (lm_storage st) (wall now) l ks + if decide (refused = true /\ ks = at_keys a) then 1 else 0)%Z).
  { intros l ks Hl. rewrite Hst. cbn [lm_storage]. destruct refused; cycle 1.
    - rewrite decide_False by (intros [? _]; done). lia.
    - rewrite hit_all_get. destruct (decide (ks = at_keys a)) as [->|Hne].
      + rewrite (occurrences_once limits l) by done. by rewrite decide_True.
      + rewrite (occurrences_apart limits l) by done. rewrite decide_False by (intros [_ ?]; done). done. }
  split.
  - intros m x. rewrite Hst. cbn [lm_attempts lm_next]. destruct (decide (m = n)) as [->|Hm].
    + rewrite lookup_insert_eq. by intros [= <-].
    + rewrite lookup_insert_ne by done. apply Ha.
  - intros ks m b. rewrite Hbk, Hst. cbn [lm_next]. destruct (decide (ks = at_keys a)) as [->|_]; [|apply Hh].
    intros [_ Hb]%lookup_delete_Some. by eapply Hh.
  - intros l ks Hl. rewrite Hcount by done. specialize (Hz l ks Hl).
    destruct (decide (refused = true /\ ks = at_keys a)); lia.
  - intros l ks Hl. rewrite Hcount, Hbk by done. specialize (Hr l ks Hl).
    destruct (decide (ks = at_keys a)) as [->|Hne]; cycle 1.
    { rewrite decide_False by (intros [_ ?]; done). lia. }
    destruct refused; cycle 1.
    { rewrite decide_False by (intros [? _]; done).
      rewrite map_size_delete. destruct (in_bucket st (at_keys a) !! n); unfold id; lia. }
    rewrite decide_True by done. destruct (Hroom eq_refl a Ea Es) as [b Hb].
    rewrite map_size_delete, Hb. assert (size (in_bucket st (at_keys a)) <> 0)%nat.
    { intros E%map_size_empty_iff. rewrite E in Hb. by rewrite lookup_empty in Hb. }
    lia.
Qed.

Lemma inv_new now : Forall (fun l => (0 <= amount l)%Z) limits -> limiter_inv new_limiter now.
Proof.
  intros Ham. split; cbn.
  - intros n a Hn. by rewrite lookup_empty in Hn.
  - intros ks n b. unfold in_bucket. cbn. by rewrite !lookup_empty.
  - intros l ks _. rewrite get_fresh. lia.
  - intros l ks Hl. rewrite get_fresh. unfold in_bucket. cbn. rewrite lookup_empty. cbn.
    rewrite Forall_forall in Ham. by apply Ham.
Qed.
End Bounded.

Lemma checked_amounts value limits :
  check_rate_limit value = Ok value -> parse_many value = Some limits ->
  Forall (fun l => (0 <= amount l)%Z) limits.
Proof.
  unfold check_rate_limit. intros Hc Hp. rewrite Hp in Hc. destruct (_ <? _)%nat; [done|].
  destruct (_ || existsb (fun i => (amount i <? 1)%Z) limits) eqn:E; [done|].
  apply orb_false_iff in E as [_ E]. apply Forall_forall. intros l Hl.
  destruct (Z.ltb_spec (amount l) 1); [|lia]. exfalso. rewrite <- not_true_iff_false in E. apply E.
  apply existsb_exists. exists l. split; [by apply list_elem_of_In|]. by apply Z.ltb_lt.
Qed.

(** however many credential checks run at once and in whatever order they
    end, the refusals a bucket's window counts and the checks it has in flight
    together stay within every part of the registration limit, so no burst of
    concurrent guesses slips past a count none has made yet. *)
Theorem refusals_bounded rl limits now0 st now l keys :
  check_rate_limit (rl_registration rl) = Ok (rl_registration rl) ->
  parse_many (rl_registration rl) = Some limits -> distinct_keys limits ->
  star (limiter_step rl) (new_limiter, now0) (st, now) -> l ∈ limits ->
  (0 <= counted (lm_storage st) (wall now) l keys)%Z /\
  (counted (lm_storage st) (wall now) l keys + Z.of_nat (size (in_bucket st keys)) <= amount l)%Z.
Proof.
  intros Hc Hp Hd Hs Hl.
  assert (Hi : limiter_inv limits st now).
  { refine (star_invariant (limiter_step rl) (fun s => limiter_inv limits s.1 s.2) _ _ _ Hs _).
    - intros s s' Hstep Hi. destruct Hstep as [st0 n0 n1 ks r st1 Hn Hr|st0 n0 n1 number refused Hn Hh]; cbn in *.
      + eapply inv_reserve; [done|by eapply inv_later|done].
      + apply inv_settle; [done|by eapply inv_later|done].
    - by apply inv_new, (checked_amounts (rl_registration rl)). }
  split; [by apply (inv_nonneg _ _ _ Hi)|by apply (inv_room _ _ _ Hi)].
Qed.

(** ** What a bucket answers *)

(** The seconds to wait, [None] when room was given. *)
Definition answer (rl : RateLimits) (st : limiter) (now : clock) (keys : list string) : res (option Z) :=
  (fun r => match r.1 with Held _ => None | Wait w => Some w end) <$> reserve_refusal_count rl st now keys.

Lemma answer_same rl st1 st2 now keys :
  lm_storage st1 = lm_storage st2 ->
  still_held (mono now) (in_bucket st1 keys) = still_held (mono now) (in_bucket st2 keys) ->
  answer rl st1 now keys = answer rl st2 now keys.
Proof.
  intros Hs Hb. unfold answer, reserve_refusal_count. destruct (parse_many _) as [limits|]; [|done].
  rewrite !in_drop_stale, !decide_True by done. unfold spent_waits, filled. cbn [lm_storage drop_stale].
  rewrite Hs, Hb. destruct (omap _ _); [|done]. by destruct (existsb _ _).
Qed.

(** The checks held are numbered below the next. *)
Definition numbered (st : limiter) : Prop := forall keys n b, in_bucket st keys !! n = Some b -> (n < lm_next st)%N.

Lemma numbered_drop st keys now : numbered st -> numbered (drop_stale st keys now).
Proof.
  intros Hn ks n b. rewrite in_drop_stale. destruct (decide (ks = keys)) as [->|_]; [|apply Hn].
  intros [Hb _]%map_lookup_filter_Some. by eapply Hn.
Qed.

Lemma numbered_step rl s s' : limiter_step rl s s' -> numbered s.1 -> numbered s'.1.
Proof.
  intros [st n0 n1 keys r st1 _ Hr|st n0 n1 number refused _ _] Hn; cbn in *.
  - destruct (parse_many (rl_registration rl)) as [limits|] eqn:Hp; [|unfold reserve_refusal_count in Hr; by rewrite Hp in Hr].
    pose proof (reserve_inv _ _ _ _ _ _ _ Hp Hr) as Hi. cbv zeta in Hi.
    destruct r as [n|w]; [|subst st1; by apply numbered_drop]. destruct Hi as (-> & _ & ->).
    intros ks m b. unfold in_bucket at 1. cbn [lm_in_flight lm_next]. destruct (decide (ks = keys)) as [->|Hne].
    + rewrite lookup_insert_eq. cbn [default]. unfold id. destruct (decide (m = lm_next st)) as [->|Hm]; [lia|].
      rewrite lookup_insert_ne by done. intros [Hb _]%map_lookup_filter_Some. specialize (Hn keys m b Hb). lia.
    + rewrite lookup_insert_ne by done. intros Hb. specialize (numbered_drop st keys (mono n1) Hn ks m b Hb). cbn. lia.
  - destruct (lm_attempts st !! number) as [a|] eqn:Ha; [|unfold settle; by rewrite Ha].
    destruct (at_settled a) eqn:Hs; [unfold settle; by rewrite Ha, Hs|].
    intros ks m b. rewrite (in_settled _ _ _ _ _ _ Ha Hs). unfold settle. rewrite Ha, Hs. cbn [lm_next].
    destruct (decide (ks = at_keys a)) as [->|_]; [intros [_ Hb]%lookup_delete_Some|intros Hb]; by eapply Hn.
Qed.

Lemma numbered_reachable rl now0 st now : star (limiter_step rl) (new_limiter, now0) (st, now) -> numbered st.
Proof.
  intros Hs. refine (star_invariant (limiter_step rl) (fun s => numbered s.1) _ _ _ Hs _).
  - intros x y. apply numbered_step.
  - intros keys n b. unfold in_bucket. cbn. by rewrite !lookup_empty.
Qed.

(** a right credential costs nothing: a check that was given room and then
    ended without a refusal leaves every bucket, its own included, answering at
    every later moment as if it had never run; so an agent that keeps presenting
    what is right, or any number of agents behind one address, never runs out. *)
Theorem right_credentials_free rl now0 st now keys n st1 now1 now2 keys' :
  star (limiter_step rl) (new_limiter, now0) (st, now) ->
  reserve_refusal_count rl st now keys = Ok (Held n, st1) -> (mono now <= mono now2)%Z ->
  answer rl (settle st1 now1 n false) now2 keys' = answer rl st now2 keys'.
Proof.
  intros Hst Hres Hle. pose proof (numbered_reachable _ _ _ _ Hst keys (lm_next st)) as Hfresh.
  destruct (parse_many (rl_registration rl)) as [limits|] eqn:Hp; [|unfold reserve_refusal_count in Hres; by rewrite Hp in Hres].
  pose proof (reserve_inv _ _ _ _ _ _ _ Hp Hres) as (-> & _ & ->). cbv zeta.
  set (held := still_held (mono now) (in_bucket st keys)).
  match goal with |- answer _ (settle ?x _ _ _) _ _ = _ => set (st1 := x) end.
  assert (Ha : lm_attempts st1 !! lm_next st = Some (Attempt limits keys false)) by apply lookup_insert_eq.
  apply answer_same; [unfold settle; by rewrite Ha|].
  rewrite (in_settled st1 now1 _ false _ keys' Ha eq_refl). cbn [at_keys].
  destruct (decide (keys' = keys)) as [->|Hne].
  - unfold in_bucket at 1. cbn [st1 lm_in_flight]. rewrite lookup_insert_eq.
    cbn [default]. unfold id. rewrite delete_insert_id; [by apply still_held_later|].
    destruct (held !! lm_next st) as [b|] eqn:E; [|done]. apply map_lookup_filter_Some in E as [E _]. specialize (Hfresh b E). lia.
  - unfold in_bucket at 1. cbn [st1 lm_in_flight]. rewrite lookup_insert_ne by done.
    pose proof (in_drop_stale st keys (mono now) keys') as Hd. unfold in_bucket at 1 in Hd. rewrite Hd.
    by rewrite decide_False.
Qed.

(** A check is settled once: a second settle does nothing, whatever it says. *)
Lemma settle_once st now n r now' r' : settle (settle st now n r) now' n r' = settle st now n r.
Proof.
  unfold settle at 2 3. destruct (lm_attempts st !! n) as [a|] eqn:Ha.
  - destruct (at_settled a) eqn:Hs; [unfold settle; by rewrite Ha, Hs|].
    unfold settle. cbn. by rewrite lookup_insert_eq.
  - unfold settle. by rewrite Ha.
Qed.

(** ** The counters of the MCP surface *)

Lemma hit_each_storage st now limits ks : (hit_each st now limits ks).2 = hit_all st now limits ks.
Proof.
  unfold hit_all. revert st. induction limits as [|l limits IH]; intros st; cbn; [done|].
  destruct (hit st now l ks) as [ok st1] eqn:E. cbn. rewrite <- IH.
  by destruct (hit_each st1 now limits ks).
Qed.

Lemma give_back_get st now limits ks k :
  (occurrences k limits ks <= storage_get st now k)%Z ->
  (forall l, l ∈ limits -> (occurrences (key_for l ks) limits ks <= storage_get st now (key_for l ks))%Z) ->
  storage_get (give_back st now limits ks) now k = (storage_get st now k - occurrences k limits ks)%Z.
Proof.
  unfold give_back. revert st. induction limits as [|l limits IH]; intros st Hk Hall; cbn [fold_left].
  - unfold occurrences. cbn. lia.
  - assert (Hpos : (0 < storage_get st now (key_for l ks))%Z).
    { specialize (Hall l ltac:(left)). rewrite occurrences_cons, decide_True in Hall by done.
      assert (0 <= occurrences (key_for l ks) limits ks)%Z by (unfold occurrences; lia). lia. }
    rewrite (proj2 (Z.ltb_lt _ _) Hpos). rewrite IH.
    + rewrite get_incr, occurrences_cons in *. destruct (decide (k = key_for l ks)); lia.
    + rewrite get_incr. rewrite occurrences_cons in Hk. destruct (decide (k = key_for l ks)); lia.
    + intros l' Hl'. rewrite get_incr. specialize (Hall l' ltac:(by right)). rewrite occurrences_cons in Hall.
      destruct (decide (key_for l' ks = key_for l ks)); lia.
Qed.

Lemma give_back_other st now limits ks k :
  occurrences k limits ks = 0%Z -> storage_get (give_back st now limits ks) now k = storage_get st now k.
Proof.
  unfold give_back. revert st. induction limits as [|l limits IH]; intros st Hk; cbn [fold_left]; [done|].
  rewrite occurrences_cons in Hk. assert (Hn : (0 <= occurrences k limits ks)%Z) by (unfold occurrences; lia).
  rewrite IH by (destruct (decide (k = key_for l ks)); lia). destruct (_ <? _)%Z; [|done].
  rewrite get_incr. destruct (decide (k = key_for l ks)); lia.
Qed.

Lemma occurrences_some k limits ks :
  occurrences k limits ks <> 0%Z -> exists l, l ∈ limits /\ key_for l ks = k.
Proof.
  unfold occurrences. intros Hk. destruct (filter _ limits) as [|y ys] eqn:E; [done|].
  assert (Hy : y ∈ filter (fun l => key_for l ks = k) limits) by (rewrite E; left).
  apply list_elem_of_filter in Hy as [Hk' Hy]. eauto.
Qed.

(** What a refused call counted is given back. *)
Lemma given_back st now limits ks k :
  (forall l, l ∈ limits -> (0 <= counted st now l ks)%Z) ->
  storage_get (give_back (hit_all st now limits ks) now limits ks) now k = storage_get st now k.
Proof.
  intros Hz. destruct (decide (occurrences k limits ks = 0)%Z) as [E|E].
  - rewrite give_back_other by done. rewrite hit_all_get. lia.
  - destruct (occurrences_some _ _ _ E) as (l & Hl & <-). pose proof (Hz l Hl) as Hzl.
    rewrite give_back_get; rewrite ?hit_all_get; [lia|lia|].
    intros l' Hl'. rewrite hit_all_get. specialize (Hz l' Hl'). lia.
Qed.

(** With keys of their own, a part's hit reads its count before the call. *)
Lemma hit_each_within st now limits ks :
  distinct_keys limits ->
  (hit_each st now limits ks).1 = filter (fun l => ~ (counted st now l ks < amount l)%Z) limits.
Proof.
  intros [Hnd Hapart]. revert st. induction limits as [|l limits IH]; intros st; [done|].
  apply NoDup_cons in Hnd as [Hl Hnd]. cbn [hit_each].
  pose proof (hit_within st now l ks) as Hw. pose proof (hit_incr st now l ks) as Hi.
  destruct (hit st now l ks) as [ok st1]. cbn in Hw, Hi. subst ok st1.
  specialize (IH Hnd ltac:(intros a b c d Ha Hb; apply Hapart; by right)
                 (storage_incr st now (key_for l ks) (get_expiry l) 1)).
  destruct (hit_each _ now limits ks) as [spent st2]. cbn [fst] in IH |- *. subst spent.
  assert (Hext : filter (fun l0 => ~ (counted (storage_incr st now (key_for l ks) (get_expiry l) 1) now l0 ks < amount l0)%Z) limits
               = filter (fun l0 => ~ (counted st now l0 ks < amount l0)%Z) limits).
  { apply filter_agree. intros x Hx. rewrite get_incr. destruct (decide (key_for x ks = key_for l ks)) as [E|_].
    - apply Hapart in E as [-> _]; [done|by right|left].
    - by rewrite Z.add_0_r. }
  rewrite Hext. destruct (Z.ltb_spec (counted st now l ks) (amount l)).
  - rewrite filter_cons_False; [done|]. tauto.
  - rewrite filter_cons_True; [done|]. lia.
Qed.

Lemma longest_ge w l : (w <= longest w l)%Z.
Proof. unfold longest. revert w. induction l as [|x l IH]; intros w; cbn; [lia|]. specialize (IH (Z.max w x)). lia. Qed.

Lemma wait_spent st now spent ks :
  spent <> [] -> exists w, wait_of_spent st now spent ks = Some w /\ (1 <= w)%Z.
Proof.
  intros Hs. unfold wait_of_spent. destruct spent as [|l spent]; [done|]. cbn [map].
  eexists. split; [done|]. etrans; [|apply longest_ge]. unfold seconds_left. lia.
Qed.

(** a call to a counted surface is let through exactly when every part of its
    limit has room, and is then counted once in every part; a refused call is
    told to wait at least a second and leaves every count as it was, so a client
    that hammers a spent part does not spend the others. *)
Theorem retry_after_exact kl now surface client w kl' :
  distinct_keys (kl_limits kl) ->
  (forall l, l ∈ kl_limits kl -> (0 <= counted (kl_storage kl) now l [surface; client])%Z) ->
  retry_after kl now surface client = (w, kl') ->
  (w = None <-> forall l, l ∈ kl_limits kl -> (counted (kl_storage kl) now l [surface; client] < amount l)%Z) /\
  match w with
  | None => forall l keys, l ∈ kl_limits kl -> counted (kl_storage kl') now l keys =
      (counted (kl_storage kl) now l keys + if decide (keys = [surface; client]) then 1 else 0)%Z
  | Some seconds => (1 <= seconds)%Z /\ forall k, storage_get (kl_storage kl') now k = storage_get (kl_storage kl) now k
  end.
Proof.
  intros Hd Hz. unfold retry_after. set (ks := [surface; client]) in *.
  pose proof (hit_each_within (kl_storage kl) now (kl_limits kl) ks Hd) as Hw.
  pose proof (hit_each_storage (kl_storage kl) now (kl_limits kl) ks) as Hs.
  destruct (hit_each _ now _ ks) as [spent st1]. cbn [fst snd] in Hw, Hs. subst st1.
  destruct spent as [|x spent].
  - intros [= <- <-]. cbn [kl_storage]. split.
    + split; [intros _ l Hl|done]. apply Z.nle_gt. intros Hle.
      assert (Hin : l ∈ @nil item); [|by apply elem_of_nil in Hin]. rewrite Hw. apply list_elem_of_filter. split; [lia|done].
    + intros l keys Hl. rewrite hit_all_get. destruct (decide (keys = ks)) as [->|Hne].
      * by rewrite (occurrences_once (kl_limits kl) l).
      * by rewrite (occurrences_apart (kl_limits kl) l).
  - assert (Hx : x ∈ filter (fun l => ~ (counted (kl_storage kl) now l ks < amount l)%Z) (kl_limits kl)) by (rewrite <- Hw; left).
    apply list_elem_of_filter in Hx as [Hx Hxl].
    destruct (wait_spent (give_back (hit_all (kl_storage kl) now (kl_limits kl) ks) now (kl_limits kl) ks) now
                (x :: spent) ks) as (s & -> & Hs1); [done|]. intros [= <- <-]. cbn [kl_storage]. split.
    + split; [done|]. intros Hall. destruct Hx. by apply Hall.
    + split; [done|]. intros k.
      by apply given_back.
Qed.

(** ** The MCP surface *)

Section Mcp.
Context `{PyRuntime}.

Lemma authenticate_none st now token :
  (authenticate st now token).1 = None -> (authenticate st now token).2 = st.
Proof.
  unfold authenticate. destruct (negb _); [done|]. destruct (get_by_hash _ _) as [t|]; [|done].
  destruct (_ || _); [done|]. destruct (ac_users st !! tk_user_id t) as [u|]; [|done]. by destruct (_ || _).
Qed.

(** A request judged against the failures counted so far: only a token that is
    looked up and refused is counted, and a client at the limit has none looked
    up. *)
Theorem mcp_gate_counts_failures st now rq answer st' :
  mcp_request_step st now rq = (answer, st') ->
  (mc_attempts st' = mc_attempts st \/
   exists token, extract_token rq = Some token /\ (authenticate (mc_accounts st) now token).1 = None /\
     answer = Refused 401 None /\ mc_attempts st' = count (mc_attempts st) now MCP_AUTH_SURFACE (rq_client rq)) /\
  (over_limit (mc_attempts st) now MCP_AUTH_SURFACE (rq_client rq) <> None ->
     mc_accounts st' = mc_accounts st /\ forall p, answer <> Passed p) /\
  (forall p, answer = Passed p -> exists token, extract_token rq = Some token /\
     (authenticate (mc_accounts st) now token).1 = Some p).
Proof.
  unfold mcp_request_step.
  destruct (mcp_admit st now rq) as [token|a] eqn:Em.
  - unfold mcp_admit in Em. destruct (_ || _); [done|]. destruct (negb _); [done|].
    destruct (extract_token rq) as [t|]; [|done]. destruct (over_limit _ _ _ _) as [wait|]; [done|].
    injection Em as ->. unfold mcp_judge.
    destruct (authenticate (mc_accounts st) now token) as [[p|] acc] eqn:Ea.
    + destruct (retry_after _ _ _ _) as [w calls]. intros [= <- <-]. cbn. split; [by left|]. split; [done|].
      intros q Hq. destruct w; [done|]. injection Hq as <-. exists token. by rewrite Ea.
    + intros [= <- <-]. cbn. split; [right; exists token; by rewrite Ea|]. by split.
  - assert (exists code wait, a = Refused code wait) as (code & wait & ->).
    { unfold mcp_admit in Em. repeat case_match; simplify_eq; eauto. }
    intros [= <- <-]. split; [by left|]. split; [done|by intros].
Qed.

(** The judgements of tokens the gate let through, in the order they end. *)
Definition judge_all (st : mcp_state) (now : instant) (client : string) (tokens : list string) : mcp_state :=
  fold_left (fun st token => (mcp_judge st now token client).2) tokens st.

(** Every token of a burst that reaches the gate before the first of them has been
    refused is let through to its lookup: the failures of one window exceed the
    limit by as many as run at once. *)
Theorem mcp_burst_overruns st now client tokens l :
  distinct_keys (kl_limits (mc_attempts st)) -> l ∈ kl_limits (mc_attempts st) ->
  over_limit (mc_attempts st) now MCP_AUTH_SURFACE client = None ->
  Forall (fun token => (authenticate (mc_accounts st) now token).1 = None) tokens ->
  (forall rq token, token ∈ tokens -> rq_client rq = client -> rq_path rq = "/mcp" -> rq_method rq = "POST" ->
     extract_token rq = Some token -> mcp_admit st now rq = inl token) /\
  counted (kl_storage (mc_attempts (judge_all st now client tokens))) now l [MCP_AUTH_SURFACE; client] =
    (counted (kl_storage (mc_attempts st)) now l [MCP_AUTH_SURFACE; client] + Z.of_nat (length tokens))%Z.
Proof.
  intros Hd Hl Hover Hbad. split.
  - intros rq token _ Hc Hp Hm Ht. unfold mcp_admit. rewrite Hp, Hm, Ht, Hc, Hover. reflexivity.
  - clear Hover. revert st Hd Hl Hbad. induction tokens as [|token tokens IH]; intros st Hd Hl Hbad; cbn; [lia|].
    apply Forall_cons in Hbad as [Hb Hbad]. pose proof (authenticate_none _ _ _ Hb) as Hs.
    unfold mcp_judge at 2. destruct (authenticate (mc_accounts st) now token) as [pr acc]. cbn in Hb, Hs. subst pr acc.
    cbn [snd]. unfold judge_all in IH. rewrite IH; [|done..]. cbn [mc_attempts count kl_storage].
    rewrite hit_all_get, (occurrences_once (kl_limits (mc_attempts st)) l) by done. lia.
Qed.
End Mcp.
End Properties.

(** By evaluation, checked by the kernel's virtual machine without writing the
    values out: a table's normal form is large. *)
Ltac vm_refl := match goal with |- ?x = _ => vm_cast_no_check (eq_refl x) end.

(** ** The theorems at a concrete fixed window

    A count and the end of its window, by limit and keys. *)

Definition plain_get (st : gmap (Z * Z * list string) (Z * instant)) (now : instant) (k : Z * Z * list string) : Z :=
  match st !! k with Some (n, e) => if (e <=? now)%Z then 0%Z else n | None => 0%Z end.

Definition plain_incr (st : gmap (Z * Z * list string) (Z * instant)) (now : instant) (k : Z * Z * list string)
    (expiry d : Z) : gmap (Z * Z * list string) (Z * instant) :=
  let fresh := (0%Z, (now + Z.max 1 expiry * us_per_second)%Z) in
  let '(n, e) := match st !! k with Some (n, e) => if (e <=? now)%Z then fresh else (n, e) | None => fresh end in
  <[k := ((n + d)%Z, e)]> st.

Definition plain_limits : Limits := {|
  item := (Z * Z)%type;
  amount := fst;
  get_expiry := snd;
  parse_many := fun s => if String.eqb s "2/minute;3/hour" then Some [(2, 60); (3, 3600)]%Z
                         else if String.eqb s "1/minute" then Some [(1, 60)]%Z else None;
  limit_key := (Z * Z * list string)%type;
  key_for := pair;
  storage := gmap (Z * Z * list string) (Z * instant);
  fresh_storage := ∅;
  storage_get := plain_get;
  storage_incr := plain_incr;
  hit := fun st now it ks => ((plain_get st now (it, ks) <? it.1)%Z, plain_incr st now (it, ks) it.2 1);
  test := fun st now it ks => (plain_get st now (it, ks) <? it.1)%Z;
  get_window_stats := fun st now it ks =>
    (match st !! (it, ks) with Some (_, e) => e | None => 0%Z end, Z.max 0 (it.1 - plain_get st now (it, ks)));
|}.

Lemma plain_limits_laws : @LimitsLaws plain_limits.
Proof.
  refine (@Build_LimitsLaws plain_limits ltac:(cbn; apply _) _ _ _ _ _ _ _); try done.
  - intros st now now' k Hn. cbn in st, k |- *. unfold plain_get. destruct (st !! k) as [[n e]|]; [|by left].
    destruct (Z.leb_spec e now), (Z.leb_spec e now'); first [by left|by right|exfalso; lia].
  - intros st now k e d k'. cbn in st, k, k' |- *. unfold plain_incr, plain_get.
    set (fresh := (0%Z, (now + Z.max 1 e * us_per_second)%Z)).
    assert (Hf : (now < now + Z.max 1 e * us_per_second)%Z) by (unfold us_per_second; lia).
    destruct (decide (k' = k)) as [->|Hne].
    + destruct (st !! k) as [[n x]|]; [destruct (Z.leb_spec x now)|]; cbn; rewrite lookup_insert_eq;
        rewrite (proj2 (Z.leb_gt _ _)) by lia; lia.
    + destruct (match st !! k with Some (n, x) => if (x <=? now)%Z then fresh else (n, x) | None => fresh end) as [n x].
      rewrite lookup_insert_ne by done. lia.
Qed.

#[local] Existing Instance plain_limits.
#[local] Existing Instance plain_limits_laws.
#[local] Existing Instance plain_runtime.

Definition two_parts : list item := [(2, 60); (3, 3600)]%Z.
Definition demo_limits : RateLimits :=
  {| rl_login := "1/minute"; rl_api := "1/minute"; rl_registration := "2/minute;3/hour" |}.
Definition at_ (t : Z) : clock := Clock (t * us_per_second) (t * us_per_second).

Lemma plain_apart (limits : list item) : NoDup limits -> distinct_keys limits.
Proof. intros Hn. split; [done|]. intros l l' ks ks' _ _ E. by injection E. Qed.

Lemma two_parts_apart : distinct_keys two_parts.
Proof. apply plain_apart. by repeat constructor; rewrite ?elem_of_cons, ?elem_of_nil; intuition congruence. Qed.

Definition reserved (r : res (reservation * limiter)) : limiter := (value_of (Wait 0, new_limiter) r).2.

(** Two checks at once, the first of them refused; a third has to wait. *)
Definition demo_keys : list string := ["k"].
Definition first_reserved : limiter := reserved (reserve_refusal_count demo_limits new_limiter (at_ 1) demo_keys).
Definition second_reserved : limiter := reserved (reserve_refusal_count demo_limits first_reserved (at_ 2) demo_keys).

Lemma holds_demo a : lm_attempts second_reserved !! 0%N = Some a -> a = Attempt two_parts demo_keys false.
Proof.
  assert (E : lm_attempts second_reserved !! 0%N = Some (Attempt two_parts demo_keys false)) by (vm_refl).
  rewrite E. by intros [= <-].
Qed.

Lemma first_step : limiter_step demo_limits (new_limiter, at_ 0) (first_reserved, at_ 1).
Proof.
  apply (step_reserve demo_limits new_limiter (at_ 0) (at_ 1) demo_keys (Held 0) first_reserved).
  - split; vm_compute; discriminate.
  - vm_refl.
Qed.

(** A settle of an unknown number: only the clock moves. *)
Lemma time_passes : limiter_step demo_limits (first_reserved, at_ 1) (first_reserved, at_ 2).
Proof.
  assert (E : settle first_reserved (at_ 2) 9 false = first_reserved) by (vm_refl). rewrite <- E at 2.
  apply (step_settle demo_limits first_reserved (at_ 1) (at_ 2) 9 false); [split; vm_compute; discriminate|done].
Qed.

Lemma second_step : limiter_step demo_limits (first_reserved, at_ 1) (second_reserved, at_ 2).
Proof.
  apply (step_reserve demo_limits first_reserved (at_ 1) (at_ 2) demo_keys (Held 1) second_reserved).
  - split; vm_compute; discriminate.
  - vm_refl.
Qed.

Lemma third_step : limiter_step demo_limits (second_reserved, at_ 2) (settle second_reserved (at_ 3) 0 true, at_ 3).
Proof.
  apply (step_settle demo_limits second_reserved (at_ 2) (at_ 3) 0 true).
  - split; vm_compute; discriminate.
  - intros _ a Ha _. apply holds_demo in Ha as ->. exists us_per_second. vm_refl.
Qed.

Lemma refusals_bounded_witness :
  answer demo_limits second_reserved (at_ 3) demo_keys = Ok (Some BUSY_RETRY_AFTER_SECONDS) /\
  (storage_get (lm_storage (settle second_reserved (at_ 3) 0 true)) (wall (at_ 3)) (key_for (2, 60)%Z demo_keys)
     + Z.of_nat (size (in_bucket (settle second_reserved (at_ 3) 0 true) demo_keys)) <= amount (2, 60)%Z)%Z.
Proof.
  split; [vm_refl|].
  apply (refusals_bounded demo_limits two_parts (at_ 0) (settle second_reserved (at_ 3) 0 true) (at_ 3) (2, 60)%Z demo_keys).
  - vm_refl.
  - vm_refl.
  - exact two_parts_apart.
  - eapply star_step; [exact first_step|]. eapply star_step; [exact second_step|]. apply star_one. exact third_step.
  - left.
Defined.

Lemma right_credentials_free_witness :
  answer demo_limits (settle second_reserved (at_ 2) 1 false) (at_ 3) demo_keys =
    answer demo_limits first_reserved (at_ 3) demo_keys.
Proof.
  assert (Hres : reserve_refusal_count demo_limits first_reserved (at_ 2) demo_keys = Ok (Held 1, second_reserved))
    by (vm_refl).
  refine (right_credentials_free demo_limits (at_ 0) first_reserved (at_ 2) demo_keys 1 second_reserved (at_ 2) (at_ 3)
    demo_keys _ Hres _).
  - eapply star_step; [exact first_step|]. apply star_one. exact time_passes.
  - vm_compute. discriminate.
Defined.

Definition one_call : KeyedLimiter := (retry_after (Keyed two_parts fresh_storage) 0 "m" "7").2.
Definition two_calls : KeyedLimiter := (retry_after one_call 0 "m" "7").2.

Definition refused_call : KeyedLimiter := (retry_after two_calls 0 "m" "7").2.

Lemma two_calls_nonneg l : l ∈ kl_limits two_calls ->
  (0 <= storage_get (kl_storage two_calls) 0 (key_for l ["m"; "7"]))%Z.
Proof.
  assert (E : kl_limits two_calls = two_parts) by (vm_refl). rewrite E. unfold two_parts.
  rewrite !elem_of_cons, elem_of_nil. intros [->|[->|[]]]; vm_compute; discriminate.
Qed.

Lemma two_calls_apart : distinct_keys (kl_limits two_calls).
Proof. assert (E : kl_limits two_calls = two_parts) by (vm_refl). rewrite E. exact two_parts_apart. Qed.

Lemma refused_call_answer : retry_after two_calls 0 "m" "7" = (Some 60%Z, refused_call).
Proof. vm_refl. Qed.

Lemma retry_after_exact_witness :
  retry_after two_calls 0 "m" "7" = (Some 60%Z, refused_call) /\
  storage_get (kl_storage refused_call) 0 (key_for (3, 3600)%Z ["m"; "7"]) =
    storage_get (kl_storage two_calls) 0 (key_for (3, 3600)%Z ["m"; "7"]).
Proof.
  split; [exact refused_call_answer|].
  exact (proj2 (proj2 (retry_after_exact two_calls 0 "m" "7" (Some 60%Z) refused_call
    two_calls_apart two_calls_nonneg refused_call_answer)) (key_for (3, 3600)%Z ["m"; "7"])).
Defined.

(** Two wrong tokens at once, where one failure a minute is allowed. *)
Definition demo_mcp : mcp_state :=
  Mcp empty_accounts (Keyed [(1, 60)%Z] fresh_storage) (Keyed two_parts fresh_storage).

Lemma mcp_burst_overruns_witness :
  storage_get (kl_storage (mc_attempts (judge_all demo_mcp 0 "c" ["lsw_a"; "lsw_b"]))) 0
    (key_for (1, 60)%Z [MCP_AUTH_SURFACE; "c"]) = 2%Z.
Proof.
  assert (Ha : distinct_keys (kl_limits (mc_attempts demo_mcp))).
  { apply plain_apart. cbn. by apply NoDup_singleton. }
  etrans; [exact (proj2 (mcp_burst_overruns demo_mcp 0 "c" ["lsw_a"; "lsw_b"] (1, 60)%Z Ha ltac:(left)
    ltac:(vm_refl) ltac:(by repeat constructor)))|vm_refl].
Defined.
